(* ===== verification/_CoqProject ===== *)
-Q . S2P
Prelude.v
MlsWire.v
GoUtf8.v
WebSocket.v
WebSocketRules.v
Franking.v
TypingLimiter.v
GoStrings.v
GoStrconv.v
GoBase64.v
LoginBackoff.v
Admission.v
RateLimiter.v
LimiterRules.v
Hub.v
Domain.v
GoJson.v
Database.v
Config.v
Conversations.v
Memberships.v
MembershipRules.v
Messages.v
Retention.v
MessageEvents.v
MessageRules.v
Sync.v
SyncRules.v
Calls.v
PushWake.v
Receipts.v
Deliveries.v
Mls.v
MlsGroups.v
MlsRules.v
RevocationRules.v
KeyPackageRules.v
MlsExample.v
Blobs.v
Identity.v
Sessions.v
Passwords.v
DeviceLinks.v
History.v
Chunks.v
ChunkRules.v
Uploads.v
UploadRules.v
PushTargets.v
Devices.v
Recovery.v
Accounts.v
SessionRules.v
LinkRules.v
AccountRules.v
RecoveryRules.v
Listings.v
IdentityExample.v
UploadExample.v
Bodies.v
Http.v
AuthHandlers.v
ConversationHandlers.v
GroupHandlers.v
SyncHandlers.v
LinkHandlers.v
ContentHandlers.v
RecoveryHandlers.v
HttpRules.v
HttpExample.v
