(* ===== verification/Prelude.v ===== *)
(** * Verification of the Veritra server

    Veritra is an end-to-end encrypted messenger.  Its server, the Go code
    under [src/server], stores opaque ciphertext, orders it, and decides who
    may see and change what.  This library models the server's core and
    proves the properties clients rely on.

    ** The program and the files

    A request passes the HTTP layer ([internal/httpapi]), which limits its
    rate, and reaches the store ([internal/storage]): one Go method per
    operation, one SQLite transaction per method.  A method that changes
    something others must learn of appends a row to the [sync_events] log;
    devices read the log from a cursor; the hub ([internal/realtime]) and the
    push wake queue tell them to look.

    Foundations:
    - [Prelude]: results, Go's time and integer arithmetic, shared tactics and
      lemmas.
    - [GoStrings], [GoStrconv], [GoBase64], [GoUtf8], [GoJson]: the parts of
      [strings], [strconv], [encoding/base64], [unicode/utf8] and
      [encoding/json] (and of SQLite's JSON functions) the code uses.
    - [Domain]: [internal/domain], roles, moderation, identifiers, records.
    - [Config]: [internal/config], the limits and settings of the environment.

    At the edge, in memory:
    - [MlsWire]: [internal/mlswire], the validator of MLS key packages.
      [Franking]: [internal/franking], commitments to reported messages; the
      MAC is a parameter.
    - [TypingLimiter], [LoginBackoff]: the limiters of [internal/httpapi].
      [RateLimiter], [LimiterRules]: the request limiter of
      [internal/app/app.go] with the route classes and the client address.
    - [Admission]: [internal/admission], refusal counters and the budget of
      deliveries and bytes; its floating-point type is an interface
      ([Float64]) with an integer instance.
    - [Hub]: [internal/realtime/hub.go], registered sockets and fan-out.
      [WebSocket], [WebSocketRules]: [websocket.go], frames, the reader and the
      serving loop.
    - [Passwords]: [internal/auth], the policy, stored hashes, verification.
    - [Chunks], [ChunkRules], [Uploads], [UploadRules], [UploadExample]:
      [internal/uploads], chunk records, verified blobs and the local store.
    - [PushTargets]: the targets and the dialer of [internal/push].

    The store, [internal/storage]:
    - [Database]: the tables as finite maps in the record [DB], the store with
      its limits and counters ([Store]), and the monad [Tx] of its methods:
      a run reads and changes the store or fails; [transaction] undoes the
      database, not the counters, of a failed run.
    - [Conversations], [Memberships], [MembershipRules], [Listings]:
      [community_store.go], [admission_store.go], [posting_policy.go],
      [user_control_store.go] and the listings.
    - [Messages], [MessageEvents], [MessageRules]: messages of
      [message_store.go] and the events that carry their envelopes.
    - [Retention]: pruning of content and of the log, with the triggers of
      migration 0044, and the blob deletion queue.
    - [Sync], [SyncRules]: the event streams of [message_store.go] and
      [scoped_sync_store.go].
    - [Calls], [Receipts], [Blobs]: call sessions, reactions, read and delivery
      cursors, attachments and backups ([content_store.go],
      [receipt_store.go]).
    - [PushWake]: [push_wake_store.go] and the push subscriptions.
    - [Mls], [MlsGroups]: [mls_group_store.go], [mls_message_store.go],
      [mls_revocation_store.go], [key_package_store.go] and
      [queueMLSRevocations] of [identity_store.go]; [MlsRules],
      [RevocationRules], [KeyPackageRules] what they guarantee over histories;
      [MlsExample] runs a group from creation to a completed revocation.
    - [Identity], [Sessions], [DeviceLinks], [History], [Devices], [Recovery],
      [Accounts]: [identity_store.go], [enrollment_store.go],
      [admin_store.go], [device_link_v3_store.go],
      [device_history_transfer_store.go], [account_recovery_store.go] and
      [account_store.go]; [SessionRules], [LinkRules], [AccountRules],
      [RecoveryRules] what they guarantee; [IdentityExample] an owner, her
      devices and a member.

    The handlers, [internal/httpapi]:
    - [Bodies]: JSON bodies decoded into the structs the handlers declare.
    - [Http]: requests, replies and the monad [H] of a handler, in which every
      call of the store, the hub, a limiter or the clock is an atomic step and
      the rest of the server acts between the steps; authentication, write
      admission, announcing events.
    - [AuthHandlers], [ConversationHandlers], [GroupHandlers], [SyncHandlers],
      [LinkHandlers], [ContentHandlers], [RecoveryHandlers]: the routes.
      [Deliveries]: the queue of delivery cursors behind the sync pages.
    - [HttpRules], [HttpExample]: what handlers reply and have seen, proved
      with judgements over [H], and a concrete server.

    ** How code becomes definitions

    A store method is a [Tx] definition with the method's name, its guards in
    the order of the code and its errors as values of [store_error]; a SQL
    statement is the map operation it performs, written inline or as a small
    definition named after what it selects.  Constraints of the schema that a
    statement can violate (keys, foreign keys, checks, cascades, triggers)
    are part of the statement and fail with [ErrConstraint].  The clock and
    fresh identifiers are arguments, since Go reads them from outside; where
    a method reads the clock twice it has two.  A query without ORDER BY, and
    Go's map iteration, takes the order as a parameter or uses the table's
    enumeration where the order cannot be observed.  Times are nanoseconds
    in [Z]; durations, versions and products that can overflow are wrapped or
    saturated as Go does.  I/O errors of SQLite are not modelled: a statement
    fails only by its constraints.

    ** What the theorems show

    - Invariants over every history of requests: channel members are the
      community's, the membership and device limits hold, no event keeps a
      stale ciphertext, the hub's indexes agree, every ticket of the budget is
      counted, calls and revocations only move forward, an invite admits its
      uses, a queued delivery cursor is not lost.
    - Sessions and devices: an ended session stays ended; a linked device was
      approved over what it claimed; the owner stays; recovery takes every
      device and session over; a recovery key is a canonical curve point.
    - Handlers under interference: login succeeds only with a password, a
      device and its secret that matched the store; to a stranger an unknown
      name, a wrong password and a wrong secret look alike; a guarded route
      runs only in a valid session, recently signed in where it asks; a socket
      is served only if its session outlived the registration.
    - Messages and groups: a page of the k-way merge is the plain filtered scan
      of the log; pruning an event a device was still to be sent expires its
      cursor; commits are linear, a group hides its past, confirming completes
      a revocation, key packages are used once; sending is authorised and
      announced; search stays in its scope.
    - Limits: guessing credentials is bounded, the client address cannot be
      chosen, the two-generation typing limiter is the one-timestamp limiter,
      push leases are exclusive, the push client dials public addresses only.
    - Bytes: the key-package validator accepts exactly the wire forms; the
      frame reader is the grammar of RFC 6455 frames; frames, passwords and
      blobs round-trip; at every step of an upload a key names nothing or the
      whole flushed content, and a download returns nothing but that content,
      or two inputs of SHA-256 collide.
    - The configuration is well-typed; pruning ends and its effect is exact,
      the foreign-key failure included; errors of single operations.

    ** Fuel

    The merge of [listSyncEventsQuery] takes every event out at most once and
    gets one more step than the log has rows; [prune_loop] removes a full
    page per step and gets one more than the rows; the loops of [MlsWire], of
    the frame reader, of the text check and of [chunkDigester] use at least
    one byte per round and get the input's length; JSON values get twice that,
    since every step consumes input.  Theorems state that the result is
    reached, not only that it is right when reached.

    ** Not modelled

    Process start-up, tickers, metrics, readiness and the setup page
    ([internal/app] but for the request limiter and the storage limits,
    [cmd/messenger-server]); the backup, restore and load commands; the
    matching of paths to handlers by [http.ServeMux]; opening, migrating and
    checking the database file.  Of the handlers: the account export and the
    audit listing, which only read; the history upload; test pushes and the
    wakes of [account_recovery_wake.go].  Streaming a stored blob through
    [http.ServeContent], with the flushes and lease renewals of a recovery
    download, is a parameter of the handlers ([Chunks] has the reader it
    streams from, [Blobs] the leases).  The handshake and the deadlines of a
    WebSocket.  The HTTP clients of the push services.  The cryptography,
    networking and formatting of Go's library and of [golang.org/x/crypto] are
    interfaces with their documented laws.  All of these are input and output
    around the modelled calls. *)

From stdpp Require Import base numbers list strings gmap fin_maps sorting.
From Stdlib Require Import ZArith ZifyBool Lia.

Declare Scope go_scope.
Delimit Scope go_scope with go.
Open Scope go_scope.
#[global] Open Scope Z_scope.

(** ** Results *)

(** A Go function returning [(T, error)]: a value, or an error and no value. *)
Inductive result (E A : Type) : Type :=
| Ok (a : A)
| Err (e : E).
Arguments Ok {E A} a.
Arguments Err {E A} e.

Definition result_bind {E A B} (r : result E A) (k : A -> result E B) : result E B :=
  match r with
  | Ok a => k a
  | Err e => Err e
  end.

Notation "'let?' x ':=' c 'in' k" := (result_bind c (fun x => k))
  (at level 10, x pattern, c at level 100, k at level 200) : go_scope.

Definition is_ok {E A} (r : result E A) : bool :=
  match r with Ok _ => true | Err _ => false end.

(** ** Time *)

(** [time.Time] as nanoseconds since Go's zero time, so that [IsZero] is
    equality with 0; [time.Duration] as nanoseconds, an int64 whose
    subtraction saturates ([Time.Sub]). *)
Definition max_int64 : Z := 9223372036854775807.
Definition min_int64 : Z := -9223372036854775808.
Definition saturate64 (z : Z) : Z := Z.max min_int64 (Z.min max_int64 z).
Definition time_sub (a b : Z) : Z := saturate64 (a - b).
Definition time_add (t d : Z) : Z := t + d.
Definition time_before (a b : Z) : bool := a <? b.
Definition time_after (a b : Z) : bool := b <? a.
Definition time_is_zero (t : Z) : bool := t =? 0.

(** Multiplication of [int64]s wraps around. *)
Definition wrap64 (z : Z) : Z := (z - min_int64) mod 2 ^ 64 + min_int64.

Definition millisecond : Z := 1000000.
Definition second : Z := 1000000000.
Definition minute : Z := 60 * second.
Definition hour : Z := 60 * minute.

(** ** Automation *)

(** Boolean comparisons of the modelled code turned into arithmetic. *)
Ltac bool_to_prop :=
  repeat match goal with
  | H : (_ && _) = true |- _ => apply andb_prop in H; destruct H
  | H : (_ || _) = false |- _ => apply orb_false_elim in H; destruct H
  | H : (_ && _) = false |- _ => apply andb_false_iff in H
  | H : (_ || _) = true |- _ => apply orb_true_iff in H
  | H : negb _ = true |- _ => apply negb_true_iff in H
  | H : negb _ = false |- _ => apply negb_false_iff in H
  | H : (_ <? _)%Z = true |- _ => apply Z.ltb_lt in H
  | H : (_ <? _)%Z = false |- _ => apply Z.ltb_ge in H
  | H : (_ <=? _)%Z = true |- _ => apply Z.leb_le in H
  | H : (_ <=? _)%Z = false |- _ => apply Z.leb_gt in H
  | H : (_ =? _)%Z = true |- _ => apply Z.eqb_eq in H
  | H : (_ =? _)%Z = false |- _ => apply Z.eqb_neq in H
  | H : bool_decide _ = true |- _ => apply bool_decide_eq_true in H
  | H : bool_decide _ = false |- _ => apply bool_decide_eq_false in H
  end.

(** Split every [match] and [if] of the goal, keeping the equations. *)
Ltac split_matches := repeat (case_match; simplify_eq/=).

(** Name the first scrutinee of an [Ok] equation and split on it. *)
Ltac ok_cases H :=
  repeat match type of H with
  | context [match ?x with _ => _ end] =>
      let E := fresh "E" in destruct x eqn:E; simplify_eq/=
  end.

(** [lia] for goals with division and remainder by constants. *)
Ltac dm_lia := Z.div_mod_to_equations; lia.

Create HintDb veritra.

(** ** Lists *)

Section lists.
Context {A : Type}.
Implicit Types l : list A.

Lemma filter_all_true (f : A -> bool) l :
  Forall (fun x => f x = true) l -> List.filter f l = l.
Proof. induction 1 as [|x l Hx _ IH]; simpl; [done|]. by rewrite Hx, IH. Qed.

Lemma filter_all_false (f : A -> bool) l :
  Forall (fun x => f x = false) l -> List.filter f l = [].
Proof. induction 1 as [|x l Hx _ IH]; simpl; [done|]. by rewrite Hx, IH. Qed.

Lemma take_drop_app (n : nat) l1 l2 :
  n = length l1 -> take n (l1 ++ l2) = l1 /\ drop n (l1 ++ l2) = l2.
Proof. intros ->. by rewrite take_app_length, drop_app_length. Qed.

End lists.

(** ** Integers *)

Lemma saturate64_id z : min_int64 <= z <= max_int64 -> saturate64 z = z.
Proof. unfold saturate64, min_int64, max_int64. lia. Qed.

Lemma wrap64_range z : min_int64 <= wrap64 z <= max_int64.
Proof. unfold wrap64, min_int64, max_int64. dm_lia. Qed.

Lemma wrap64_id z : min_int64 <= z <= max_int64 -> wrap64 z = z.
Proof. unfold wrap64, min_int64, max_int64. dm_lia. Qed.

Lemma time_sub_pos a b : 0 < time_sub a b <-> b < a.
Proof. unfold time_sub, saturate64, min_int64, max_int64. lia. Qed.

Lemma time_sub_lt a b d :
  0 <= d <= max_int64 -> (time_sub a b < d <-> a - b < d).
Proof. unfold time_sub, saturate64, min_int64, max_int64. lia. Qed.

(** ** Maps *)

Lemma alter_is_insert `{Countable K} {A} (f : A -> A) (m : gmap K A) i x :
  m !! i = Some x -> alter f i m = <[i := f x]> m.
Proof.
  intros Hi. apply map_eq. intros j. rewrite lookup_alter, lookup_insert.
  case_decide; subst; [by rewrite Hi|done].
Qed.
