(* ===== verification/MlsWire.v ===== *)
(** * Structural validation of MLS key packages

    Models [server/internal/mlswire/keypackage.go].  The TLS reader is a
    record passed from call to call, as the Go code passes [*reader]; a read
    that fails clears [ok] and every later read yields zero values.

    The specification is an encoder: [key_package] is the abstract syntax of
    an RFC 9420 KeyPackage restricted to the fields the validator looks at
    and [encode_key_package] its wire form.  The validator accepts exactly
    the wire forms of well-formed key packages inside the size bounds. *)

From S2P Require Import Prelude.
From stdpp Require Import base numbers list gmap.
From Stdlib Require Import ZArith ZifyBool Lia.
Open Scope Z_scope.

(** ** Constants *)

Definition MinKeyPackageBytes : Z := 64.
Definition MaxKeyPackageBytes : Z := Z.shiftl 48 10.
Definition protocolVersionMLS10 : Z := 0x0001.
Definition cipherSuiteX25519AES128Ed25519 : Z := 0x0001.
Definition credentialTypeBasic : Z := 0x0001.
Definition leafNodeSourceKeyPackage : Z := 1.
Definition hpkePublicKeyBytes : Z := 32.
Definition signaturePublicBytes : Z := 32.
Definition signatureBytes : Z := 64.
Definition lifetimeBytes : Z := 16.
Definition capabilityListsInLeaf : nat := 5.

(** ** The reader *)

Record reader := Reader { data : list Z; ok : bool }.

Definition len (b : list Z) : Z := Z.of_nat (length b).

Definition r_take (n : Z) (r : reader) : list Z * reader :=
  if negb r.(ok) || (n <? 0) || (len r.(data) <? n)
  then ([], Reader r.(data) false)
  else (take (Z.to_nat n) r.(data), Reader (drop (Z.to_nat n) r.(data)) r.(ok)).

Definition byte_at (b : list Z) (i : nat) : Z := default 0 (b !! i).

Definition r_uint8 (r : reader) : Z * reader :=
  let '(b, r) := r_take 1 r in
  if negb r.(ok) then (0, r) else (byte_at b 0, r).

Definition r_uint16 (r : reader) : Z * reader :=
  let '(b, r) := r_take 2 r in
  if negb r.(ok) then (0, r)
  else (Z.lor (Z.shiftl (byte_at b 0) 8 mod 2 ^ 16) (byte_at b 1), r).

Definition fail_reader (r : reader) : list Z * reader := ([], Reader r.(data) false).

(** The length prefix is an [int]: at most 30 bits, so no wrap-around. *)
Definition r_vector (r : reader) : list Z * reader :=
  let '(first, r) := r_uint8 r in
  if negb r.(ok) then ([], r) else
  let length := Z.land first 0x3f in
  let prefix := Z.shiftr first 6 in
  if prefix =? 0 then r_take length r
  else if prefix =? 1 then
    let '(rest, r) := r_take 1 r in
    if negb r.(ok) then ([], r) else
    let length := Z.lor (Z.shiftl length 8) (byte_at rest 0) in
    if length <? Z.shiftl 1 6 then fail_reader r else r_take length r
  else if prefix =? 2 then
    let '(rest, r) := r_take 3 r in
    if negb r.(ok) then ([], r) else
    let length := Z.lor (Z.lor (Z.lor (Z.shiftl length 24) (Z.shiftl (byte_at rest 0) 16))
                               (Z.shiftl (byte_at rest 1) 8)) (byte_at rest 2) in
    if length <? Z.shiftl 1 14 then fail_reader r else r_take length r
  else fail_reader r.

(** ** Validation *)

(** The loop of [validExtensions].  Every iteration that leaves [ok] set
    consumes at least three bytes, so fuel equal to the number of bytes is
    enough ([validExtensions_loop_fuel]). *)
Fixpoint validExtensions_loop (fuel : nat) (r : reader) (seen : gset Z) : bool :=
  match fuel with
  | O => r.(ok)
  | S fuel =>
      if r.(ok) && (0 <? len r.(data)) then
        let '(extensionType, r) := r_uint16 r in
        let '(_, r) := r_vector r in
        if bool_decide (extensionType ∈ seen) then false
        else validExtensions_loop fuel r ({[extensionType]} ∪ seen)
      else r.(ok)
  end.

Definition validExtensions (b : list Z) : bool :=
  validExtensions_loop (length b) (Reader b true) ∅.

(** The capability loop of [readLeafNode]: [None] is the early return. *)
Fixpoint read_capabilities (n : nat) (r : reader) : option reader :=
  match n with
  | O => Some r
  | S n =>
      let '(list, r) := r_vector r in
      if negb r.(ok) || negb (len list mod 2 =? 0) then None
      else read_capabilities n r
  end.

Definition readLeafNode (r : reader) : bool * reader :=
  let '(key, r) := r_vector r in
  if negb r.(ok) || negb (len key =? hpkePublicKeyBytes) then (false, r) else
  let '(key, r) := r_vector r in
  if negb r.(ok) || negb (len key =? signaturePublicBytes) then (false, r) else
  let '(cred, r) := r_uint16 r in
  if negb (cred =? credentialTypeBasic) then (false, r) else
  let '(ident, r) := r_vector r in
  if negb r.(ok) || (len ident =? 0) then (false, r) else
  match read_capabilities capabilityListsInLeaf r with
  | None => (false, r)
  | Some r =>
      let '(source, r) := r_uint8 r in
      if negb (source =? leafNodeSourceKeyPackage) then (false, r) else
      let '(_, r) := r_take lifetimeBytes r in
      let '(extensions, r) := r_vector r in
      if negb r.(ok) || negb (validExtensions extensions) then (false, r) else
      let '(signature, r) := r_vector r in
      (r.(ok) && (len signature =? signatureBytes), r)
  end.

(** [true] is Go's nil error, [false] is [ErrInvalidKeyPackage]. *)
Definition ValidateKeyPackage (b : list Z) : bool :=
  if (len b <? MinKeyPackageBytes) || (MaxKeyPackageBytes <? len b) then false else
  let r := Reader b true in
  let '(version, r) := r_uint16 r in
  if negb (version =? protocolVersionMLS10) then false else
  let '(suite, r) := r_uint16 r in
  if negb (suite =? cipherSuiteX25519AES128Ed25519) then false else
  let '(initKey, r) := r_vector r in
  if negb r.(ok) || negb (len initKey =? hpkePublicKeyBytes) then false else
  let '(leaf, r) := readLeafNode r in
  if negb leaf then false else
  let '(extensions, r) := r_vector r in
  if negb r.(ok) || negb (validExtensions extensions) then false else
  let '(signature, r) := r_vector r in
  if negb r.(ok) || negb (len signature =? signatureBytes) || negb (len r.(data) =? 0)
  then false else true.

(** ** Specification: the wire form *)

Definition is_byte (b : Z) : Prop := 0 <= b < 256.
Abbreviation bytes := (Forall is_byte).

Definition encode_u16 (v : Z) : list Z := [v / 256; v mod 256].

Definition encode_length (n : Z) : list Z :=
  if n <? 2 ^ 6 then [n]
  else if n <? 2 ^ 14 then [64 + n / 256; n mod 256]
  else [128 + n / 2 ^ 24; (n / 2 ^ 16) mod 256; (n / 256) mod 256; n mod 256].

Definition encode_vector (v : list Z) : list Z := encode_length (len v) ++ v.

Definition encode_extension (e : Z * list Z) : list Z :=
  encode_u16 e.1 ++ encode_vector e.2.

Definition encode_extensions (es : list (Z * list Z)) : list Z :=
  concat (map encode_extension es).

Record leaf_node := LeafNode {
  encryption_key : list Z;
  signature_key : list Z;
  identity : list Z;
  capabilities : list (list Z);
  lifetime : list Z;
  leaf_extensions : list (Z * list Z);
  leaf_signature : list Z }.

Record key_package := KeyPackage {
  init_key : list Z;
  leaf : leaf_node;
  kp_extensions : list (Z * list Z);
  kp_signature : list Z }.

Definition encode_leaf_node (l : leaf_node) : list Z :=
  encode_vector l.(encryption_key) ++ encode_vector l.(signature_key) ++
  encode_u16 credentialTypeBasic ++ encode_vector l.(identity) ++
  concat (map encode_vector l.(capabilities)) ++
  [leafNodeSourceKeyPackage] ++ l.(lifetime) ++
  encode_vector (encode_extensions l.(leaf_extensions)) ++
  encode_vector l.(leaf_signature).

Definition encode_key_package (kp : key_package) : list Z :=
  encode_u16 protocolVersionMLS10 ++ encode_u16 cipherSuiteX25519AES128Ed25519 ++
  encode_vector kp.(init_key) ++ encode_leaf_node kp.(leaf) ++
  encode_vector (encode_extensions kp.(kp_extensions)) ++
  encode_vector kp.(kp_signature).

(** A list of extensions with 16-bit types, none repeated. *)
Definition wf_extensions (es : list (Z * list Z)) : Prop :=
  NoDup (map fst es) /\ Forall (fun e => 0 <= e.1 < 2 ^ 16) es /\
  Forall (fun e => len e.2 < 2 ^ 30) es.

Definition wf_leaf_node (l : leaf_node) : Prop :=
  len l.(encryption_key) = 32 /\ len l.(signature_key) = 32 /\
  0 < len l.(identity) /\
  length l.(capabilities) = 5%nat /\
  Forall (fun c => len c mod 2 = 0) l.(capabilities) /\
  len l.(lifetime) = 16 /\ wf_extensions l.(leaf_extensions) /\
  len l.(leaf_signature) = 64.

Definition wf_key_package (kp : key_package) : Prop :=
  len kp.(init_key) = 32 /\ wf_leaf_node kp.(leaf) /\
  wf_extensions kp.(kp_extensions) /\ len kp.(kp_signature) = 64.

(** ** Reader lemmas *)

Lemma len_app a b : len (a ++ b) = len a + len b.
Proof. unfold len. rewrite length_app. lia. Qed.

Lemma len_nonneg a : 0 <= len a.
Proof. unfold len. lia. Qed.

Lemma r_take_spec n d v d' :
  0 <= n ->
  r_take n (Reader d true) = (v, Reader d' true) <-> len v = n /\ d = v ++ d'.
Proof.
  intros Hn. unfold r_take, len; simpl.
  split.
  - case_match; intros; simplify_eq/=; bool_to_prop.
    split; [rewrite length_take; lia | by rewrite take_drop].
  - intros [<- ->]. rewrite length_app, Nat2Z.id, take_app_length, drop_app_length.
    case_match; [exfalso; lia|done].
Qed.

Lemma r_take_sticky n d : r_take n (Reader d false) = ([], Reader d false).
Proof. done. Qed.

Lemma r_uint8_sticky d : r_uint8 (Reader d false) = (0, Reader d false).
Proof. done. Qed.

Lemma r_uint16_sticky d : r_uint16 (Reader d false) = (0, Reader d false).
Proof. done. Qed.

Lemma r_vector_sticky d : r_vector (Reader d false) = ([], Reader d false).
Proof. done. Qed.


Lemma land_shiftl_low a b k :
  0 <= k -> 0 <= b < 2 ^ k -> Z.land (Z.shiftl a k) b = 0.
Proof.
  intros Hk Hb. apply Z.bits_inj'; intros i Hi. rewrite Z.land_spec, Z.bits_0.
  destruct (decide (i < k)); [by rewrite Z.shiftl_spec_low|].
  assert (Z.testbit b i = false) as ->; [|by rewrite andb_false_r].
  rewrite <- (Z.mod_small b (2 ^ k)) by done. apply Z.mod_pow2_bits_high. lia.
Qed.

Lemma lor_shiftl_add a b k :
  0 <= k -> 0 <= b < 2 ^ k -> Z.lor (Z.shiftl a k) b = a * 2 ^ k + b.
Proof.
  intros Hk Hb. pose proof (Z.add_lor_land (Z.shiftl a k) b) as H.
  rewrite land_shiftl_low, Z.shiftl_mul_pow2 in H by done.
  rewrite <- Z.shiftl_mul_pow2 in * by done. lia.
Qed.

Lemma bytes_cons b d : bytes (b :: d) <-> is_byte b /\ bytes d.
Proof. apply Forall_cons. Qed.

Lemma bytes_app a b : bytes (a ++ b) <-> bytes a /\ bytes b.
Proof. apply Forall_app. Qed.

Lemma r_uint8_spec d x d' :
  r_uint8 (Reader d true) = (x, Reader d' true) <-> d = x :: d'.
Proof.
  unfold r_uint8, r_take, len. simpl. destruct d as [|b d]; simpl; [by split; intros|].
  replace (Z.of_nat (S (length d)) <? 1) with false by lia. simpl.
  rewrite drop_0. naive_solver.
Qed.

Lemma r_uint16_spec d x d' :
  bytes d ->
  r_uint16 (Reader d true) = (x, Reader d' true) <->
  d = encode_u16 x ++ d' /\ 0 <= x < 2 ^ 16.
Proof.
  intros Hd. unfold r_uint16, r_take, len, encode_u16. simpl.
  destruct d as [|a [|b d]]; simpl; [by split; [intros [=]|intros [? ?]]..|].
  replace (Z.of_nat (S (S (length d))) <? 2) with false by lia. simpl. rewrite drop_0.
  rewrite !bytes_cons in Hd. unfold is_byte in Hd. unfold byte_at; simpl.
  rewrite Z.shiftl_mul_pow2, Z.mod_small by lia.
  rewrite <- Z.shiftl_mul_pow2, lor_shiftl_add by lia.
  split.
  - intros [= <- <-]. split; [|lia]. simpl. f_equal; [dm_lia|]. f_equal. dm_lia.
  - intros [Heq ?]. simplify_eq/=. f_equal. dm_lia.
Qed.

Lemma encode_length_small n : 0 <= n < 2 ^ 6 -> encode_length n = [n].
Proof. intros. unfold encode_length. by replace (n <? 2 ^ 6) with true by lia. Qed.

Lemma encode_length_mid n :
  2 ^ 6 <= n < 2 ^ 14 -> encode_length n = [64 + n / 256; n mod 256].
Proof.
  intros. unfold encode_length.
  replace (n <? 2 ^ 6) with false by lia. by replace (n <? 2 ^ 14) with true by lia.
Qed.

Lemma encode_length_big n :
  2 ^ 14 <= n -> encode_length n =
  [128 + n / 2 ^ 24; (n / 2 ^ 16) mod 256; (n / 256) mod 256; n mod 256].
Proof.
  intros. unfold encode_length.
  replace (n <? 2 ^ 6) with false by lia. by replace (n <? 2 ^ 14) with false by lia.
Qed.

(** The length prefix as arithmetic. *)
Lemma land_63 b : Z.land b 0x3f = b mod 64.
Proof. change 0x3f with (Z.ones 6). by rewrite Z.land_ones. Qed.

Lemma lor3 a b c d :
  0 <= b < 256 -> 0 <= c < 256 -> 0 <= d < 256 ->
  Z.lor (Z.lor (Z.lor (Z.shiftl a 24) (Z.shiftl b 16)) (Z.shiftl c 8)) d =
  a * 2 ^ 24 + b * 2 ^ 16 + c * 2 ^ 8 + d.
Proof.
  intros. rewrite (lor_shiftl_add a (Z.shiftl b 16)) by (try rewrite Z.shiftl_mul_pow2; lia).
  replace (a * 2 ^ 24 + Z.shiftl b 16) with (Z.shiftl (a * 2 ^ 8 + b) 16)
    by (rewrite !Z.shiftl_mul_pow2; lia).
  rewrite lor_shiftl_add by (try rewrite Z.shiftl_mul_pow2; lia).
  replace ((a * 2 ^ 8 + b) * 2 ^ 16 + Z.shiftl c 8)
    with (Z.shiftl ((a * 2 ^ 8 + b) * 2 ^ 8 + c) 8) by (rewrite !Z.shiftl_mul_pow2; lia).
  rewrite lor_shiftl_add by lia. lia.
Qed.

Lemma r_take_ok_inv n r v r' :
  r_take n r = (v, r') -> r'.(ok) = true -> r.(ok) = true.
Proof. unfold r_take. case_match; intros [= <- <-]; [done|by simpl]. Qed.

Lemma r_uint8_ok_inv r v r' :
  r_uint8 r = (v, r') -> r'.(ok) = true -> r.(ok) = true.
Proof.
  unfold r_uint8. destruct (r_take 1 r) as [b r1] eqn:E.
  case_match; intros [= <- <-] ?; eapply r_take_ok_inv; eauto.
Qed.

(** One direction of [r_vector_spec]: what a successful read consumed. *)
Lemma r_vector_sound d v d' :
  bytes d -> r_vector (Reader d true) = (v, Reader d' true) ->
  d = encode_vector v ++ d' /\ len v < 2 ^ 30.
Proof.
  intros Hd. unfold r_vector, encode_vector.
  destruct (r_uint8 (Reader d true)) as [first [d1 []]] eqn:E1; [|done].
  apply r_uint8_spec in E1 as ->. rewrite bytes_cons in Hd.
  destruct Hd as [Hf Hd]. unfold is_byte in Hf. simpl.
  rewrite land_63, Z.shiftr_div_pow2 by lia. change (2 ^ 6) with 64.
  case_match; bool_to_prop.
  - intros [? ->]%r_take_spec; [|dm_lia].
    rewrite encode_length_small by dm_lia. split; [|dm_lia]. simpl. f_equal. dm_lia.
  - case_match; bool_to_prop.
    + destruct (r_take 1 _) as [rest [d2 []]] eqn:E2; [|done]; simpl.
      apply r_take_spec in E2 as [Hl ->]; [|lia].
      destruct rest as [|b [|]]; [done| |unfold len in Hl; simpl in Hl; lia].
      simpl in Hd. rewrite bytes_cons in Hd. destruct Hd as [Hb Hd]. unfold is_byte in Hb.
      unfold byte_at; simpl. rewrite lor_shiftl_add by lia.
      change (Z.shiftl 1 6) with 64 in *; change (Z.shiftl 1 14) with 16384 in *.
      case_match; [done|]; bool_to_prop.
      intros [Hv ->]%r_take_spec; [|dm_lia].
      rewrite encode_length_mid by dm_lia. split; [|dm_lia].
      simpl. f_equal; [dm_lia|]. f_equal. dm_lia.
    + case_match; bool_to_prop; [|done].
      destruct (r_take 3 _) as [rest [d2 []]] eqn:E2; [|done]; simpl.
      apply r_take_spec in E2 as [Hl ->]; [|lia].
      destruct rest as [|a [|b [|c [|]]]]; unfold len in Hl; simpl in Hl; try lia.
      simpl in Hd. rewrite !bytes_cons in Hd. destruct Hd as (Ha & Hb & Hc & Hd).
      unfold is_byte in *. unfold byte_at; simpl. rewrite lor3 by lia.
      change (Z.shiftl 1 6) with 64 in *; change (Z.shiftl 1 14) with 16384 in *.
      case_match; [done|]; bool_to_prop.
      intros [Hv ->]%r_take_spec; [|dm_lia].
      rewrite encode_length_big by dm_lia. split; [|dm_lia].
      simpl. f_equal; [dm_lia|]. f_equal; [dm_lia|]. f_equal; [dm_lia|]. f_equal. dm_lia.
Qed.

Lemma r_take_app v d : r_take (len v) (Reader (v ++ d) true) = (v, Reader d true).
Proof. by apply r_take_spec; [apply len_nonneg|]. Qed.

Lemma r_take_1 a d : r_take 1 (Reader (a :: d) true) = ([a], Reader d true).
Proof. apply (r_take_app [a]). Qed.

Lemma r_take_3 a b c d :
  r_take 3 (Reader (a :: b :: c :: d) true) = ([a; b; c], Reader d true).
Proof. apply (r_take_app [a; b; c]). Qed.

Lemma r_uint8_app x d : r_uint8 (Reader ([x] ++ d) true) = (x, Reader d true).
Proof. by apply r_uint8_spec. Qed.

Lemma r_uint16_app x d :
  0 <= x < 2 ^ 16 -> r_uint16 (Reader (encode_u16 x ++ d) true) = (x, Reader d true).
Proof.
  intros Hx. unfold r_uint16, r_take, len, encode_u16. simpl.
  replace (Z.of_nat (S (S (length d))) <? 2) with false by lia. simpl. rewrite drop_0.
  unfold byte_at; simpl.
  rewrite Z.shiftl_mul_pow2, Z.mod_small by dm_lia.
  rewrite <- Z.shiftl_mul_pow2, lor_shiftl_add by dm_lia. f_equal. dm_lia.
Qed.

(** The other direction: an encoded vector is read back whole. *)
Lemma r_vector_app v d :
  len v < 2 ^ 30 -> r_vector (Reader (encode_vector v ++ d) true) = (v, Reader d true).
Proof.
  intros Hv. pose proof (len_nonneg v) as Hv0. unfold r_vector, encode_vector.
  change (Z.shiftl 1 6) with 64; change (Z.shiftl 1 14) with 16384.
  destruct (decide (len v < 2 ^ 6)); [|destruct (decide (len v < 2 ^ 14))].
  - rewrite encode_length_small by lia. simpl.
    rewrite (proj2 (r_uint8_spec _ _ _) eq_refl). simpl.
    rewrite land_63, Z.shiftr_div_pow2, Z.mod_small by lia.
    replace (len v / 2 ^ 6 =? 0) with true by dm_lia. apply r_take_app.
  - rewrite encode_length_mid by lia. simpl.
    rewrite (proj2 (r_uint8_spec _ _ _) eq_refl). simpl.
    rewrite land_63, Z.shiftr_div_pow2 by lia.
    replace ((64 + len v / 256) / 2 ^ 6 =? 0) with false by dm_lia.
    replace ((64 + len v / 256) / 2 ^ 6 =? 1) with true by dm_lia.
    rewrite r_take_1; simpl.
    unfold byte_at; simpl. rewrite lor_shiftl_add by dm_lia.
    replace ((64 + len v / 256) mod 64 * 2 ^ 8 + len v mod 256) with (len v) by dm_lia.
    replace (len v <? 64) with false by lia. apply r_take_app.
  - rewrite encode_length_big by lia. simpl.
    rewrite (proj2 (r_uint8_spec _ _ _) eq_refl). simpl.
    rewrite land_63, Z.shiftr_div_pow2 by lia.
    replace ((128 + len v / 2 ^ 24) / 2 ^ 6 =? 0) with false by dm_lia.
    replace ((128 + len v / 2 ^ 24) / 2 ^ 6 =? 1) with false by dm_lia.
    replace ((128 + len v / 2 ^ 24) / 2 ^ 6 =? 2) with true by dm_lia.
    rewrite r_take_3; simpl.
    unfold byte_at; simpl. rewrite lor3 by dm_lia.
    replace ((128 + len v / 2 ^ 24) mod 64 * 2 ^ 24 + (len v / 2 ^ 16) mod 256 * 2 ^ 16 +
             (len v / 256) mod 256 * 2 ^ 8 + len v mod 256) with (len v) by dm_lia.
    replace (len v <? 16384) with false by lia. apply r_take_app.
Qed.

(** Wire forms are bytes whenever their contents are. *)
Lemma encode_extensions_cons e es :
  encode_extensions (e :: es) = encode_u16 e.1 ++ encode_vector e.2 ++ encode_extensions es.
Proof. unfold encode_extensions, encode_extension; simpl. done. Qed.

Lemma encode_length_len n : 0 <= n -> 1 <= len (encode_length n).
Proof. intros. unfold encode_length, len. repeat case_match; simpl; lia. Qed.

Lemma r_vector_ok_inv r v r' :
  r_vector r = (v, r') -> r'.(ok) = true -> r.(ok) = true.
Proof. destruct r as [d []]; [done|]. rewrite r_vector_sticky. by intros [= <- <-]. Qed.

Lemma r_uint16_ok_inv r v r' :
  r_uint16 r = (v, r') -> r'.(ok) = true -> r.(ok) = true.
Proof. destruct r as [d []]; [done|]. rewrite r_uint16_sticky. by intros [= <- <-]. Qed.

Lemma r_uint8_nonzero r v r' :
  r_uint8 r = (v, r') -> v <> 0 -> r'.(ok) = true.
Proof. unfold r_uint8. destruct (r_take 1 r). case_match; intros [= <- <-]; [done|]. by destruct (ok _). Qed.

Lemma r_uint16_nonzero r v r' :
  r_uint16 r = (v, r') -> v <> 0 -> r'.(ok) = true.
Proof. unfold r_uint16. destruct (r_take 2 r). case_match; intros [= <- <-]; [done|]. by destruct (ok _). Qed.

(** ** Extension lists *)

Lemma validExtensions_loop_ok fuel r seen :
  validExtensions_loop fuel r seen = true -> r.(ok) = true.
Proof. destruct fuel; simpl; [done|]. by destruct r.(ok). Qed.

Lemma wf_extensions_nil : wf_extensions [].
Proof. split; [constructor|]. by split. Qed.

Lemma wf_extensions_cons e es :
  wf_extensions (e :: es) <->
  e.1 ∉ map fst es /\ 0 <= e.1 < 2 ^ 16 /\ len e.2 < 2 ^ 30 /\ wf_extensions es.
Proof. unfold wf_extensions. simpl. rewrite NoDup_cons, !Forall_cons. naive_solver. Qed.

Lemma len_pos_nil (d : list Z) : (0 <? len d) = false -> d = [].
Proof. unfold len. destruct d; simpl; [done|lia]. Qed.

Lemma validExtensions_loop_sound fuel d seen :
  (length d <= fuel)%nat -> bytes d ->
  validExtensions_loop fuel (Reader d true) seen = true ->
  exists es, d = encode_extensions es /\ wf_extensions es /\
    Forall (fun e => e.1 ∉ seen) es.
Proof.
  revert d seen. induction fuel as [|fuel IH]; intros d seen Hl Hd.
  { intros _. exists []. destruct d; [|simpl in Hl; lia].
    repeat split; [constructor..|]. constructor. }
  simpl. destruct (0 <? len d) eqn:E0.
  2:{ apply len_pos_nil in E0 as ->. intros _. exists []. repeat split; constructor. }
  destruct (r_uint16 _) as [t r1] eqn:E1. destruct (r_vector r1) as [v [d2 o2]] eqn:E2.
  case_match eqn:Es; [done|]. intros Hloop. bool_to_prop.
  assert (o2 = true) as -> by exact (validExtensions_loop_ok _ _ _ Hloop).
  pose proof (r_vector_ok_inv _ _ _ E2 eq_refl) as Ho1.
  destruct r1 as [d1 []]; [|done].
  apply r_uint16_spec in E1 as [-> Ht]; [|done]. apply bytes_app in Hd as [_ Hd1].
  apply r_vector_sound in E2 as [-> Hv]; [|done]. unfold encode_vector in *.
  rewrite !length_app in Hl. rewrite !bytes_app in Hd1. simpl in Hl.
  destruct (IH d2 ({[t]} ∪ seen)) as (es & -> & Hwf & Hes); [lia|tauto|done|].
  exists ((t, v) :: es). split_and!.
  - by rewrite encode_extensions_cons; unfold encode_vector; rewrite <- !app_assoc.
  - rewrite wf_extensions_cons; simpl. split_and!; try lia; try done.
    rewrite Forall_forall in Hes. rewrite list_elem_of_fmap. intros (e & -> & He).
    apply Hes in He. set_solver.
  - constructor; [done|]. eapply Forall_impl; [exact Hes|]. set_solver.
Qed.

Lemma validExtensions_loop_complete fuel es seen :
  (length (encode_extensions es) <= fuel)%nat -> wf_extensions es ->
  Forall (fun e => e.1 ∉ seen) es ->
  validExtensions_loop fuel (Reader (encode_extensions es) true) seen = true.
Proof.
  revert fuel seen. induction es as [|[t v] es IH]; intros fuel seen Hl Hwf Hs.
  { by destruct fuel. }
  rewrite encode_extensions_cons in *. rewrite wf_extensions_cons in Hwf; cbn [fst snd] in *.
  destruct Hwf as (Hni & Ht & Hv & Hwf).
  destruct fuel as [|fuel]; [rewrite !length_app in Hl; simpl in Hl; lia|].
  cbn [validExtensions_loop ok data andb].
  set (rest := encode_vector v ++ encode_extensions es).
  assert (0 <? len (encode_u16 t ++ rest) = true) as ->
    by (rewrite len_app; pose proof (len_nonneg rest); unfold encode_u16, len in *; simpl; lia).
  unfold rest.
  rewrite (r_uint16_app t) by done. rewrite r_vector_app by done.
  apply Forall_cons in Hs as [Hs1 Hs]. rewrite bool_decide_false by done.
  apply IH; [|done|].
  - rewrite !length_app in Hl; simpl in Hl. lia.
  - rewrite Forall_forall in *. intros e He. specialize (Hs e He).
    assert (e.1 <> t) by (intros <-; apply Hni; apply list_elem_of_fmap; eauto). set_solver.
Qed.

(** [validExtensions] accepts exactly the encodings of duplicate-free lists. *)
Lemma validExtensions_spec b :
  bytes b ->
  validExtensions b = true <-> exists es, b = encode_extensions es /\ wf_extensions es.
Proof.
  intros Hb. unfold validExtensions. split.
  - intros H. apply validExtensions_loop_sound in H as (es & ? & ? & _); eauto.
  - intros (es & -> & Hwf). apply validExtensions_loop_complete; [done|done|].
    apply Forall_forall. set_solver.
Qed.

(** ** Leaf nodes and key packages *)

(** Replay one checked vector read of the validator: the bytes become the
    encoding of what was read followed by the rest. *)
Ltac read_vector v :=
  let d' := fresh "d" in let E := fresh "E" in let Hb := fresh "Hb" in
  match goal with
  | Hd : bytes ?d |- context [r_vector (Reader ?d true)] =>
      destruct (r_vector (Reader d true)) as [v [d' []]] eqn:E;
      cbn [ok data negb orb andb]; [|done];
      apply (r_vector_sound _ _ _ Hd) in E as [-> ?];
      apply bytes_app in Hd as [Hb Hd];
      unfold encode_vector in Hb; apply bytes_app in Hb as [_ Hb]
  end.

(** One unchecked 16-bit read whose value is then required to be non-zero. *)
Ltac read_uint16 :=
  let x := fresh "x" in let r := fresh "r" in let d' := fresh "d" in
  let E := fresh "E" in let Hx := fresh "Hx" in
  match goal with
  | Hd : bytes ?d |- context [r_uint16 (Reader ?d true)] =>
      destruct (r_uint16 (Reader d true)) as [x r] eqn:E;
      case_match eqn:Hx; [done|]; bool_to_prop; subst x;
      pose proof (r_uint16_nonzero _ _ _ E ltac:(done));
      destruct r as [d' []]; [|done];
      apply (r_uint16_spec _ _ _ Hd) in E as [-> _];
      apply bytes_app in Hd as [_ Hd]
  end.

Lemma read_capabilities_sound n d r' :
  bytes d -> read_capabilities n (Reader d true) = Some r' ->
  exists cs d', r' = Reader d' true /\ d = concat (map encode_vector cs) ++ d' /\
    length cs = n /\ Forall (fun c => len c mod 2 = 0) cs /\ bytes d'.
Proof.
  revert d. induction n as [|n IH]; intros d Hd; simpl.
  - intros [= <-]. exists [], d. by split_and!.
  - read_vector c. case_match; [done|]; bool_to_prop.
    intros (cs & d' & -> & -> & Hl & Hc & Hd')%IH; [|done].
    exists (c :: cs), d'. split_and!; simpl; [done| |lia| |done].
    + by rewrite <- app_assoc.
    + by constructor.
Qed.

Lemma read_capabilities_app cs d :
  Forall (fun c => len c mod 2 = 0 /\ len c < 2 ^ 30) cs ->
  read_capabilities (length cs) (Reader (concat (map encode_vector cs) ++ d) true) =
  Some (Reader d true).
Proof.
  induction 1 as [|c cs [Hc Hl] _ IH]; simpl; [done|].
  rewrite <- app_assoc, r_vector_app by done. simpl. rewrite Hc. done.
Qed.

Lemma readLeafNode_sound d r' :
  bytes d -> readLeafNode (Reader d true) = (true, r') ->
  exists l d', r' = Reader d' true /\ d = encode_leaf_node l ++ d' /\ wf_leaf_node l /\ bytes d'.
Proof.
  intros Hd. unfold readLeafNode.
  read_vector ek. case_match eqn:Hek; [done|]; bool_to_prop.
  read_vector sk. case_match eqn:Hsk; [done|]; bool_to_prop.
  read_uint16.
  read_vector idn. case_match eqn:Hid; [done|]; bool_to_prop.
  destruct (read_capabilities _ _) as [r2|] eqn:Ec; [|done].
  apply read_capabilities_sound in Ec as (cs & d5 & -> & -> & Hcl & Hcs & Hd5); [|done].
  destruct (r_uint8 _) as [src r3] eqn:E8. case_match eqn:Hsrc; [done|]; bool_to_prop.
  pose proof (r_uint8_nonzero _ _ _ E8 ltac:(unfold leafNodeSourceKeyPackage in *; lia)).
  destruct r3 as [d6 []]; [|done]. apply r_uint8_spec in E8 as ->.
  apply bytes_cons in Hd5 as [_ Hd6].
  destruct (r_take _ _) as [lt [d7 [|]]] eqn:Elt; [|by rewrite r_vector_sticky].
  apply r_take_spec in Elt as [Hlt ->]; [|done]. apply bytes_app in Hd6 as [_ Hd7].
  cbn beta iota zeta. read_vector xs. case_match eqn:Hex; [done|]; bool_to_prop.
  apply validExtensions_spec in Hex as (es & -> & Hes); [|done].
  read_vector sg. intros [= Hsg <-]. bool_to_prop.
  eexists (LeafNode ek sk idn cs lt es sg), _. split_and!; [done| |..|done].
  - unfold encode_leaf_node; simpl. repeat (rewrite <- !app_assoc; simpl). by subst src.
  - pose proof (len_nonneg idn). unfold wf_leaf_node; simpl. split_and!; try done. lia.
Qed.

Lemma len_encode_vector v : len v < len (encode_vector v).
Proof.
  unfold encode_vector. rewrite len_app.
  pose proof (encode_length_len (len v) (len_nonneg v)). lia.
Qed.

Lemma len_concat_encode cs d :
  len (concat (map encode_vector cs) ++ d) <= 2 ^ 29 ->
  Forall (fun c => len c < 2 ^ 30) cs.
Proof.
  induction cs as [|c cs IH]; simpl; [constructor|].
  rewrite <- app_assoc, len_app. pose proof (len_encode_vector c).
  pose proof (len_nonneg c). pose proof (len_nonneg (concat (map encode_vector cs) ++ d)).
  intros. constructor; [lia|]. apply IH. lia.
Qed.

Lemma validExtensions_app es : wf_extensions es -> validExtensions (encode_extensions es) = true.
Proof.
  intros. apply validExtensions_loop_complete; [done|done|]. apply Forall_forall. set_solver.
Qed.

Lemma leaf_lengths l :
  len (encode_leaf_node l) <= 2 ^ 29 ->
  len l.(identity) < 2 ^ 30 /\ Forall (fun c => len c < 2 ^ 30) l.(capabilities) /\
  len (encode_extensions l.(leaf_extensions)) < 2 ^ 30.
Proof.
  unfold encode_leaf_node.
  set (cs := concat (map encode_vector (capabilities l))).
  rewrite !len_app. intros Hlen.
  pose proof (len_encode_vector (identity l)).
  pose proof (len_encode_vector (encode_extensions (leaf_extensions l))).
  pose proof (len_nonneg (encode_vector (encryption_key l))).
  pose proof (len_nonneg (encode_vector (signature_key l))).
  pose proof (len_nonneg (encode_u16 credentialTypeBasic)). pose proof (len_nonneg cs).
  pose proof (len_nonneg (lifetime l)). pose proof (len_nonneg [leafNodeSourceKeyPackage]).
  pose proof (len_nonneg (encode_vector (leaf_signature l))).
  pose proof (len_nonneg (identity l)).
  pose proof (len_nonneg (encode_extensions (leaf_extensions l))).
  split_and!; [lia| |lia].
  apply (len_concat_encode _ []). rewrite app_nil_r. fold cs. lia.
Qed.

Lemma readLeafNode_app l d :
  wf_leaf_node l -> len (encode_leaf_node l) <= 2 ^ 29 ->
  readLeafNode (Reader (encode_leaf_node l ++ d) true) = (true, Reader d true).
Proof.
  intros (Hek & Hsk & Hid & Hcl & Hcs & Hlt & Hes & Hsg) (Hidl & Hcsl & Hesl)%leaf_lengths.
  unfold encode_leaf_node, readLeafNode. rewrite <- !app_assoc.
  rewrite r_vector_app by lia; cbn [ok negb orb]; rewrite Hek; cbn [negb Z.eqb].
  rewrite r_vector_app by lia; cbn [ok negb orb]; rewrite Hsk; cbn [negb].
  rewrite r_uint16_app by done; cbn [negb].
  rewrite r_vector_app by lia; cbn [ok negb orb].
  replace (len (identity l) =? 0) with false by lia.
  change capabilityListsInLeaf with 5%nat. rewrite <- Hcl.
  rewrite read_capabilities_app by (by apply Forall_and).
  rewrite r_uint8_app; cbn [negb].
  change lifetimeBytes with 16. rewrite <- Hlt, r_take_app.
  rewrite r_vector_app by lia; cbn [ok negb orb].
  rewrite validExtensions_app by done; cbn [negb].
  rewrite r_vector_app by lia; cbn [ok andb]. by rewrite Hsg.
Qed.

Lemma ValidateKeyPackage_sound b :
  bytes b -> ValidateKeyPackage b = true ->
  exists kp, wf_key_package kp /\ b = encode_key_package kp /\ 64 <= len b <= 49152.
Proof.
  intros Hd. unfold ValidateKeyPackage. change MaxKeyPackageBytes with 49152.
  unfold MinKeyPackageBytes. case_match eqn:Hlen; [done|]; bool_to_prop.
  read_uint16. read_uint16. read_vector ik. case_match eqn:Hik; [done|]; bool_to_prop.
  destruct (readLeafNode _) as [[] r] eqn:El; [|done]; cbn [negb].
  apply readLeafNode_sound in El as (l & d3 & -> & -> & Hl & Hd3); [|done].
  clear Hd. read_vector xs. case_match eqn:Hxs; [done|]; bool_to_prop.
  apply validExtensions_spec in Hxs as (es & -> & Hes); [|done].
  read_vector sg. case_match eqn:Hsg; [done|]; intros _; bool_to_prop.
  assert (d0 = []) as -> by (apply len_pos_nil; lia).
  exists (KeyPackage ik l es sg). split_and!.
  - by unfold wf_key_package; simpl.
  - unfold encode_key_package; simpl. by rewrite app_nil_r.
  - lia.
  - lia.
Qed.

Lemma ValidateKeyPackage_complete kp :
  wf_key_package kp -> 64 <= len (encode_key_package kp) <= 49152 ->
  ValidateKeyPackage (encode_key_package kp) = true.
Proof.
  intros (Hik & Hl & Hes & Hsg) Hlen. unfold ValidateKeyPackage.
  change MaxKeyPackageBytes with 49152. unfold MinKeyPackageBytes.
  replace ((len _ <? 64) || _) with false by lia.
  unfold encode_key_package in *. rewrite !len_app in Hlen.
  pose proof (len_nonneg (encode_u16 protocolVersionMLS10)).
  pose proof (len_nonneg (encode_u16 cipherSuiteX25519AES128Ed25519)).
  pose proof (len_nonneg (encode_vector (init_key kp))).
  pose proof (len_nonneg (encode_leaf_node (leaf kp))).
  pose proof (len_nonneg (encode_vector (kp_signature kp))).
  pose proof (len_encode_vector (encode_extensions (kp_extensions kp))).
  pose proof (len_nonneg (encode_extensions (kp_extensions kp))).
  rewrite r_uint16_app by done; cbn [negb]. rewrite r_uint16_app by done; cbn [negb].
  rewrite r_vector_app by lia; cbn [ok negb orb]; rewrite Hik; cbn [negb].
  rewrite readLeafNode_app by (done || lia); cbn [negb].
  rewrite r_vector_app by lia; cbn [ok negb orb]. rewrite validExtensions_app by done; cbn [negb].
  rewrite <- (app_nil_r (encode_vector (kp_signature kp))).
  rewrite r_vector_app by lia; cbn [ok negb orb]. by rewrite Hsg.
Qed.

(** ** Uniqueness of the decoding *)

Lemma encode_vector_inj v1 v2 d1 d2 :
  len v1 < 2 ^ 30 -> len v2 < 2 ^ 30 ->
  encode_vector v1 ++ d1 = encode_vector v2 ++ d2 -> v1 = v2 /\ d1 = d2.
Proof.
  intros H1 H2 Heq. apply (f_equal (fun d => r_vector (Reader d true))) in Heq.
  rewrite !r_vector_app in Heq by done. by simplify_eq.
Qed.

Lemma encode_u16_inj x1 x2 d1 d2 :
  0 <= x1 < 2 ^ 16 -> 0 <= x2 < 2 ^ 16 ->
  encode_u16 x1 ++ d1 = encode_u16 x2 ++ d2 -> x1 = x2 /\ d1 = d2.
Proof.
  intros H1 H2 Heq. apply (f_equal (fun d => r_uint16 (Reader d true))) in Heq.
  rewrite !r_uint16_app in Heq by done. by simplify_eq.
Qed.

Lemma encode_extensions_inj es1 es2 :
  wf_extensions es1 -> wf_extensions es2 ->
  encode_extensions es1 = encode_extensions es2 -> es1 = es2.
Proof.
  revert es2. induction es1 as [|[t1 v1] es1 IH]; intros [|[t2 v2] es2]; [done|done|done|].
  rewrite !wf_extensions_cons, !encode_extensions_cons; cbn [fst snd].
  intros (_ & Ht1 & Hv1 & H1) (_ & Ht2 & Hv2 & H2).
  intros [-> [-> ?]%encode_vector_inj]%encode_u16_inj; try done.
  f_equal. by apply IH.
Qed.

Lemma concat_encode_inj cs1 cs2 d1 d2 :
  length cs1 = length cs2 ->
  Forall (fun c => len c < 2 ^ 30) cs1 -> Forall (fun c => len c < 2 ^ 30) cs2 ->
  concat (map encode_vector cs1) ++ d1 = concat (map encode_vector cs2) ++ d2 ->
  cs1 = cs2 /\ d1 = d2.
Proof.
  revert cs2. induction cs1 as [|c1 cs1 IH]; intros [|c2 cs2]; simpl; try done.
  intros [= Hl] [H1 Hs1]%Forall_cons [H2 Hs2]%Forall_cons. rewrite <- !app_assoc.
  intros [-> [-> ->]%IH]%encode_vector_inj; done.
Qed.

Lemma encode_leaf_node_inj l1 l2 d1 d2 :
  wf_leaf_node l1 -> wf_leaf_node l2 ->
  len (encode_leaf_node l1) <= 2 ^ 29 -> len (encode_leaf_node l2) <= 2 ^ 29 ->
  encode_leaf_node l1 ++ d1 = encode_leaf_node l2 ++ d2 -> l1 = l2 /\ d1 = d2.
Proof.
  intros (?&?&?&Hc1&?&?&?&?) (?&?&?&Hc2&?&?&?&?)
    (Hi1 & Hl1 & He1)%leaf_lengths (Hi2 & Hl2 & He2)%leaf_lengths.
  unfold encode_leaf_node. rewrite <- !app_assoc.
  intros [Hek Heq]%encode_vector_inj; [|lia..].
  apply encode_vector_inj in Heq as [Hsk Heq]; [|lia..].
  apply encode_u16_inj in Heq as [_ Heq]; [|done..].
  apply encode_vector_inj in Heq as [Hidn Heq]; [|lia..].
  apply concat_encode_inj in Heq as [Hcs Heq]; [|lia|done..].
  apply (inj (app [leafNodeSourceKeyPackage])) in Heq.
  apply app_inj_1 in Heq as [Hlt Heq]; [|unfold len in *; lia].
  apply encode_vector_inj in Heq as [Hes Heq]; [|lia..].
  apply encode_vector_inj in Heq as [Hsg ->]; [|lia..].
  apply encode_extensions_inj in Hes; [|done..].
  split; [|done]. destruct l1, l2; simpl in *. congruence.
Qed.

Lemma key_package_lengths kp :
  len (encode_key_package kp) <= 49152 ->
  len (encode_leaf_node kp.(leaf)) <= 2 ^ 29 /\
  len (encode_extensions kp.(kp_extensions)) < 2 ^ 30.
Proof.
  unfold encode_key_package. rewrite !len_app.
  pose proof (len_nonneg (encode_u16 protocolVersionMLS10)).
  pose proof (len_nonneg (encode_u16 cipherSuiteX25519AES128Ed25519)).
  pose proof (len_nonneg (encode_vector (init_key kp))).
  pose proof (len_nonneg (encode_leaf_node (leaf kp))).
  pose proof (len_nonneg (encode_vector (kp_signature kp))).
  pose proof (len_encode_vector (encode_extensions (kp_extensions kp))).
  pose proof (len_nonneg (encode_extensions (kp_extensions kp))). lia.
Qed.

(** C29: a byte string that [ValidateKeyPackage] accepts is the wire form of
    exactly one well-formed key package and lies in the size bounds, and
    every such wire form is accepted. *)
Theorem ValidateKeyPackage_correct b :
  bytes b ->
  ValidateKeyPackage b = true <->
  64 <= len b <= 49152 /\
  exists! kp, wf_key_package kp /\ b = encode_key_package kp.
Proof.
  intros Hb. split.
  - intros (kp & Hwf & -> & Hlen)%ValidateKeyPackage_sound; [|done]. split; [done|].
    exists kp. split; [done|]. intros kp' [Hwf' Heq].
    pose proof Hlen as Hlen'. rewrite Heq in Hlen'.
    destruct (key_package_lengths kp) as [? ?]; [lia|].
    destruct (key_package_lengths kp') as [? ?]; [lia|].
    destruct Hwf as (?&?&?&?), Hwf' as (?&?&?&?). revert Heq. unfold encode_key_package.
    intros [_ [_ [Hik [Hl Heq]%encode_leaf_node_inj]%encode_vector_inj]%encode_u16_inj]%encode_u16_inj;
      [|done || lia..].
    apply encode_vector_inj in Heq as [Hes Heq]; [|lia..].
    rewrite <- (app_nil_r (encode_vector (kp_signature kp))) in Heq.
    rewrite <- (app_nil_r (encode_vector (kp_signature kp'))) in Heq.
    apply encode_vector_inj in Heq as [Hsg _]; [|lia..].
    apply encode_extensions_inj in Hes; [|done..].
    destruct kp, kp'; simpl in *. congruence.
  - intros (Hlen & kp & [Hwf ->] & _). by apply ValidateKeyPackage_complete.
Qed.

Definition sample_leaf : leaf_node :=
  LeafNode (repeat 1 32) (repeat 2 32) [97; 98] [[0; 1]; []; []; []; [0; 1; 0; 2]]
    (repeat 0 16) [(10, repeat 7 70)] (repeat 3 64).

Definition sample_key_package : key_package :=
  KeyPackage (repeat 9 32) sample_leaf [(1, []); (2, [5])] (repeat 4 64).

(** C1 on a package with two extensions: accepted, and one bit flipped in the
    version makes it refused. *)
Lemma ValidateKeyPackage_correct_witness :
  (exists! kp, wf_key_package kp /\ encode_key_package sample_key_package = encode_key_package kp) /\
  ValidateKeyPackage (2 :: tail (encode_key_package sample_key_package)) = false.
Proof.
  split; [|vm_compute; reflexivity].
  apply (ValidateKeyPackage_correct (encode_key_package sample_key_package)).
  - vm_compute. repeat constructor; lia || discriminate.
  - vm_compute. reflexivity.
Defined.
