(* ===== verification/GoUtf8.v ===== *)
(** * UTF-8 as Go's [unicode/utf8] reads it

    Bytes are integers below 256.  [utf8_first] is the table [first] with the
    accepted range of the second byte; [DecodeRune], [FullRune] and [Valid]
    follow the package.  The lemmas at the end relate them: they are what the
    incremental check of the WebSocket reader rests on. *)

From S2P Require Import Prelude.
From stdpp Require Import base numbers list.
From Stdlib Require Import ZArith ZifyBool Lia.
Open Scope Z_scope.

Definition RuneError : Z := 0xFFFD.
Definition RuneSelf : Z := 0x80.
Definition UTFMax : nat := 4.

(** The length of the sequence a byte starts and the range of its second
    byte; [None] for bytes that start none. *)
Definition utf8_first (b : Z) : option (nat * Z * Z) :=
  if (0xC2 <=? b) && (b <=? 0xDF) then Some (2%nat, 0x80, 0xBF)
  else if b =? 0xE0 then Some (3%nat, 0xA0, 0xBF)
  else if b =? 0xED then Some (3%nat, 0x80, 0x9F)
  else if (0xE1 <=? b) && (b <=? 0xEF) then Some (3%nat, 0x80, 0xBF)
  else if b =? 0xF0 then Some (4%nat, 0x90, 0xBF)
  else if (0xF1 <=? b) && (b <=? 0xF3) then Some (4%nat, 0x80, 0xBF)
  else if b =? 0xF4 then Some (4%nat, 0x80, 0x8F)
  else None.

Definition within_range (lo hi b : Z) : bool := (lo <=? b) && (b <=? hi).
Definition continues (b : Z) : bool := within_range 0x80 0xBF b.

(** The payload bits of a byte: [b & mask]. *)
Definition bits (b mask : Z) : Z := Z.land b mask.

Definition DecodeRune (p : list Z) : Z * nat :=
  match p with
  | [] => (RuneError, 0%nat)
  | b0 :: r =>
    if b0 <? RuneSelf then (b0, 1%nat)
    else match utf8_first b0, r with
    | Some (2%nat, lo, hi), b1 :: _ =>
      if within_range lo hi b1 then (Z.lor (Z.shiftl (bits b0 0x1F) 6) (bits b1 0x3F), 2%nat) else (RuneError, 1%nat)
    | Some (3%nat, lo, hi), b1 :: b2 :: _ =>
      if within_range lo hi b1 && continues b2
      then (Z.lor (Z.lor (Z.shiftl (bits b0 0x0F) 12) (Z.shiftl (bits b1 0x3F) 6)) (bits b2 0x3F), 3%nat) else (RuneError, 1%nat)
    | Some (4%nat, lo, hi), b1 :: b2 :: b3 :: _ =>
      if within_range lo hi b1 && continues b2 && continues b3
      then (Z.lor (Z.lor (Z.lor (Z.shiftl (bits b0 0x07) 18) (Z.shiftl (bits b1 0x3F) 12)) (Z.shiftl (bits b2 0x3F) 6)) (bits b3 0x3F), 4%nat)
      else (RuneError, 1%nat)
    | _, _ => (RuneError, 1%nat)
    end
  end.

(** Whether [p] starts with a full encoding; an invalid one is full. *)
Definition FullRune (p : list Z) : bool :=
  match p with
  | [] => false
  | b0 :: r =>
    match utf8_first b0 with
    | None => true
    | Some (n, lo, hi) =>
      if (n <=? length p)%nat then true
      else match r with
      | [] => false
      | b1 :: r' => if negb (within_range lo hi b1) then true
                    else match r' with [] => false | b2 :: _ => negb (continues b2) end
      end
    end
  end.

Fixpoint Valid (p : list Z) : bool :=
  match p with
  | [] => true
  | b0 :: r =>
    if b0 <? RuneSelf then Valid r
    else match utf8_first b0, r with
    | Some (2%nat, lo, hi), b1 :: r1 => within_range lo hi b1 && Valid r1
    | Some (3%nat, lo, hi), b1 :: b2 :: r2 => within_range lo hi b1 && continues b2 && Valid r2
    | Some (4%nat, lo, hi), b1 :: b2 :: b3 :: r3 => within_range lo hi b1 && continues b2 && continues b3 && Valid r3
    | _, _ => false
    end
  end.

(** ** Reading one encoding *)

(** The rows of the table. *)
Lemma first_rows b n lo hi :
  utf8_first b = Some (n, lo, hi) ->
  (n = 2%nat \/ n = 3%nat \/ n = 4%nat) /\ (lo = 0x80 \/ lo = 0x90 \/ lo = 0xA0) /\ lo <= hi /\ (n = 2%nat -> lo = 0x80) /\
  (lo <> 0x80 -> hi = 0xBF) /\ RuneSelf <= b.
Proof.
  unfold utf8_first, RuneSelf. intros H.
  repeat match type of H with context [if ?c then _ else _] => destruct c eqn:? end; try done; injection H as <- <- <-; lia.
Qed.

Ltac by_rows b :=
  let Hf := fresh "Hf" in destruct (utf8_first b) as [[[n lo] hi]|] eqn:Hf;
  [destruct (first_rows _ _ _ _ Hf) as ([-> | [-> | ->]] & Hlo & Hle & H2 & Hhi & Hb)|].

(** [r == utf8.RuneError && size == 1], how a failure is told from U+FFFD. *)
Definition decode_failed (d : Z * nat) : bool := (d.1 =? RuneError) && (d.2 =? 1)%nat.

(** A full encoding is read or refused whatever follows it. *)
Lemma full_read p s :
  FullRune p = true -> (1 <= (DecodeRune p).2 <= length p)%nat /\
    if decode_failed (DecodeRune p) then Valid (p ++ s) = false
    else Valid (take (DecodeRune p).2 p) = true /\ Valid (p ++ s) = Valid (drop (DecodeRune p).2 p ++ s).
Proof.
  destruct p as [|b0 r]; [done|]. simpl. intros H. destruct (b0 <? RuneSelf) eqn:Ha.
  { simpl. rewrite Ha. split; [lia|]. replace (decode_failed _) with false; [done|]. unfold decode_failed, RuneError, RuneSelf in *. simpl. lia. }
  by_rows b0.
  - destruct r as [|b1 r]; [done|]. simpl. destruct (within_range lo hi b1) eqn:E1; simpl; unfold decode_failed; simpl; rewrite ?andb_false_r;
      (split; [lia|by rewrite ?Ha, ?Hf, ?E1]).
  - destruct r as [|b1 [|b2 r]]; simpl in *; [done| |].
    + destruct (within_range lo hi b1); [done|]. unfold decode_failed. simpl. split; [lia|by destruct s].
    + destruct (within_range lo hi b1) eqn:E1, (continues b2) eqn:E2; simpl; unfold decode_failed; simpl; rewrite ?andb_false_r;
        (split; [lia|by rewrite ?Ha, ?Hf, ?E1, ?E2]).
  - destruct r as [|b1 [|b2 [|b3 r]]]; simpl in *; [done| | |]; destruct (within_range lo hi b1) eqn:E1; simpl in *; try done.
    1,3,5: unfold decode_failed; simpl; split; [lia|by destruct s as [|? []]].
    + apply negb_true_iff in H. unfold decode_failed. simpl. rewrite H. split; [lia|by destruct s].
    + destruct (continues b2) eqn:E2, (continues b3) eqn:E3; simpl; unfold decode_failed; simpl; rewrite ?andb_false_r;
        (split; [lia|by rewrite ?Ha, ?Hf, ?E1, ?E2, ?E3]).
  - unfold decode_failed. destruct r; simpl; (split; [lia|by destruct s]).
Qed.

(** What completes an encoding that is cut off. *)
Lemma cut_completes p :
  FullRune p = false -> p <> [] -> Valid p = false /\ (length p < UTFMax)%nat /\ exists s, Valid (p ++ s) = true.
Proof.
  destruct p as [|b0 r]; [done|]. simpl. intros H _. by_rows b0; [..|done]; simpl in *;
    (destruct (b0 <? RuneSelf) eqn:Ha; [unfold RuneSelf in *; lia|]).
  - destruct r; [|simpl in H; by destruct (length r)]. simpl. split; [done|]. split; [unfold UTFMax; lia|]. exists [lo]. simpl.
    rewrite andb_true_r. unfold within_range. lia.
  - destruct r as [|b1 [|b2 r]]; [..|done]; simpl in *; (split; [done|]; split; [unfold UTFMax; lia|]).
    + exists [lo; 0x80]. simpl. rewrite !andb_true_r. unfold within_range. lia.
    + destruct (within_range lo hi b1) eqn:E; [|done]. exists [0x80]. done.
  - destruct r as [|b1 [|b2 [|b3 r]]]; [..|done]; simpl in *; (split; [done|]; split; [unfold UTFMax; lia|]).
    + exists [lo; 0x80; 0x80]. simpl. rewrite !andb_true_r. unfold within_range. lia.
    + destruct (within_range lo hi b1) eqn:E; [|done]. exists [0x80; 0x80]. done.
    + destruct (within_range lo hi b1) eqn:E; [|done]. simpl in *. apply negb_false_iff in H. exists [0x80]. simpl. by rewrite H.
Qed.

(** Valid text in front does not change what follows. *)
Lemma Valid_app x y : Valid x = true -> Valid (x ++ y) = Valid y.
Proof.
  remember (length x) as m eqn:E. revert x E. induction (lt_wf m) as [m _ IH]. intros [|b0 r] E; [done|]. simpl.
  destruct (b0 <? RuneSelf). { intros Hv. apply (IH (length r)); [simpl in E; lia|done|done]. }
  by_rows b0; [..|done]; simpl in *.
  - destruct r as [|b1 r]; [done|]. simpl. intros [-> Hv]%andb_prop. apply (IH (length r)); [simpl in E; lia|done|done].
  - destruct r as [|b1 [|b2 r]]; [done..|]. simpl. intros [-> Hv]%andb_prop. apply (IH (length r)); [simpl in E; lia|done|done].
  - destruct r as [|b1 [|b2 [|b3 r]]]; [done..|]. simpl. intros [-> Hv]%andb_prop. apply (IH (length r)); [simpl in E; lia|done|done].
Qed.
