(* ===== verification/WebSocket.v ===== *)
(** * The WebSocket of the sync stream

    [internal/realtime/websocket.go]: the frames the server writes, the reader
    of client frames ([frameReader.run]) and the loop that serves a connection
    ([serveConnWithKeepalive]); and the client of [cmd/veritra-load/ws.go].

    Bytes are integers below 256.  The reader is a function of the bytes the
    peer sent before the transport failed or timed out: a short read is the
    error of [io.ReadFull].  Its result is what it did with the complete frames
    (pings queued, data messages delivered) and the close frame it asks for.
    The serving loop is a step relation, since [select] picks any ready case
    and the reader runs concurrently. *)

From S2P Require Import Prelude GoUtf8.
From stdpp Require Import base numbers list.
From Stdlib Require Import ZArith ZifyBool Lia.
Open Scope Z_scope.

Definition blength (b : list Z) : Z := Z.of_nat (length b).

Definition maxClientMessageSize : Z := Z.shiftl 64 10.
Definition maxControlPayload : Z := 125.
Definition maxQueuedPongs : Z := 16.

Definition closeGoingAway : Z := 1001.
Definition closeProtocolError : Z := 1002.
Definition closeInvalidPayload : Z := 1007.
Definition closePolicyViolation : Z := 1008.
Definition closeMessageTooBig : Z := 1009.

Definition opContinuation : Z := 0x0.
Definition opText : Z := 0x1.
Definition opBinary : Z := 0x2.
Definition opClose : Z := 0x8.
Definition opPing : Z := 0x9.
Definition opPong : Z := 0xa.

Record closeReply := mkCloseReply { cr_send : bool; cr_code : Z }.
(** [closeReply{}]: the transport failed, nothing is sent. *)
Definition hangup : closeReply := mkCloseReply false 0.
Definition close_with (code : Z) : closeReply := mkCloseReply true code.

(** ** Big-endian integers ([encoding/binary]) *)

Definition be_uint (b : list Z) : Z := fold_left (fun acc x => acc * 256 + x) b 0.
Fixpoint put_be (k : nat) (n : Z) : list Z :=
  match k with O => [] | S k => put_be k (n / 256) ++ [n mod 256] end.

(** ** Frames the server writes *)

(** [errors.New("control frame payload too large")]; the other errors of
    [writeFrame] are the transport's. *)
Inductive frame_error := control_payload_too_large.

Definition writeFrame (opcode : Z) (payload : list Z) : result frame_error (list Z) :=
  if (opClose <=? opcode) && (maxControlPayload <? blength payload) then Err control_payload_too_large
  else
    let n := blength payload in
    let header :=
      Z.lor 0x80 opcode ::
        (if n <=? 125 then [n]
         else if n <=? 65535 then 126 :: put_be 2 n
         else 127 :: put_be 8 n) in
    Ok (header ++ payload).

Definition writeTextFrame (payload : list Z) := writeFrame opText payload.
Definition writePingFrame := writeFrame opPing [].
Definition writePongFrame (payload : list Z) := writeFrame opPong payload.
Definition writeCloseFrame (code : Z) :=
  if code =? 0 then writeFrame opClose [] else writeFrame opClose (put_be 2 code).

(** ** Checks of the reader *)

Definition validOpcode (opcode : Z) : bool := (opcode <=? opBinary) || (opClose <=? opcode) && (opcode <=? opPong).

Definition validCloseCode (code : Z) : bool :=
  (3000 <=? code) && (code <=? 4999) || (1000 <=? code) && (code <=? 1003) || (1007 <=? code) && (code <=? 1014).

Definition parseClosePayload (payload : list Z) : Z * bool :=
  if blength payload =? 0 then (0, true)
  else if blength payload =? 1 then (0, false)
  else
    let code := be_uint (take 2 payload) in
    if negb (validCloseCode code) || negb (Valid (drop 2 payload)) then (0, false) else (code, true).

(** [for len(probe) < utf8.UTFMax && !utf8.FullRune(probe)], at most
    [UTFMax] rounds. *)
Fixpoint extend_probe (fuel : nat) (probe : list Z) : list Z :=
  match fuel with
  | O => probe
  | S fuel => if (length probe <? UTFMax)%nat && negb (FullRune probe) then extend_probe fuel (probe ++ [0x80]) else probe
  end.

Definition validUTF8Start (tail : list Z) : bool :=
  let candidates := match tail with [t] => [[t; 0x80]; [t; 0x90]; [t; 0xa0]] | _ => [tail] end in
  existsb (fun candidate =>
    let probe := extend_probe UTFMax candidate in
    negb (decode_failed (DecodeRune probe)) && ((DecodeRune probe).2 =? length probe)%nat) candidates.

Fixpoint checkUTF8Prefix_loop (fuel : nat) (b : list Z) (i : nat) : nat * bool :=
  match fuel with
  | O => (i, true)
  | S fuel =>
    match b !! i with
    | None => (i, true)
    | Some x =>
      if x <? RuneSelf then checkUTF8Prefix_loop fuel b (S i)
      else if negb (FullRune (drop i b)) then (i, validUTF8Start (drop i b))
      else if decode_failed (DecodeRune (drop i b)) then (i, false)
      else checkUTF8Prefix_loop fuel b (i + (DecodeRune (drop i b)).2)
    end
  end.

(** Every round moves on by a byte at least. *)
Definition checkUTF8Prefix (b : list Z) (from : nat) : nat * bool := checkUTF8Prefix_loop (S (length b)) b from.

(** ** The reader *)

Record reader_state := mkReaderState { fragmentedOpcode : Z; fragmentedPayload : list Z; utf8Checked : nat }.
Definition reader_start : reader_state := mkReaderState 0 [] 0.

(** What a frame does beside the reader's own state. *)
Inductive event :=
| EPing (payload : list Z)
| EMessage (opcode : Z) (payload : list Z).

Definition ReadFull (n : nat) (input : list Z) : result closeReply (list Z * list Z) :=
  if (n <=? length input)%nat then Ok (take n input, drop n input) else Err hangup.

Definition check (b : bool) (code : Z) : result closeReply unit := if b then Ok tt else Err (close_with code).

(** The guards on an opcode and the FIN bit. *)
Definition check_opcode (st : reader_state) (opcode : Z) (fin : bool) : result closeReply unit :=
  let isControl := opClose <=? opcode in
  check (negb (isControl && negb fin ||
               (opcode =? opContinuation) && (st.(fragmentedOpcode) =? 0) ||
               ((opcode =? opText) || (opcode =? opBinary)) && negb (st.(fragmentedOpcode) =? 0))) closeProtocolError.

Definition read_length (second : Z) (input : list Z) : result closeReply (Z * list Z) :=
  let length := Z.land second 0x7f in
  if length =? 126 then
    let? (buf, input) := ReadFull 2 input in
    let? _ := check (negb (be_uint buf <? 126)) closeProtocolError in
    Ok (be_uint buf, input)
  else if length =? 127 then
    let? (buf, input) := ReadFull 8 input in
    let? _ := check (negb (negb (Z.shiftr (be_uint buf) 63 =? 0) || (be_uint buf <=? 65535))) closeProtocolError in
    Ok (be_uint buf, input)
  else Ok (length, input).

(** The guards on a length, before anything is allocated. *)
Definition check_length (st : reader_state) (opcode length : Z) : result closeReply unit :=
  let? _ := check (negb ((opClose <=? opcode) && (maxControlPayload <? length))) closeProtocolError in
  check (negb ((maxClientMessageSize <? length) ||
               (opcode =? opContinuation) && (maxClientMessageSize <? blength st.(fragmentedPayload) + length))) closeMessageTooBig.

Definition read_header (st : reader_state) (input : list Z) : result closeReply (bool * Z * Z * list Z) :=
  let? (head, input) := ReadFull 2 input in
  let first := nth 0 head 0 in
  let second := nth 1 head 0 in
  let opcode := Z.land first 0x0f in
  let fin := negb (Z.land first 0x80 =? 0) in
  let? _ := check (negb (negb (Z.land first 0x70 =? 0) || negb (validOpcode opcode))) closeProtocolError in
  let? _ := check_opcode st opcode fin in
  let? _ := check (negb (Z.land second 0x80 =? 0)) closeProtocolError in
  let? (length, input) := read_length second input in
  let? _ := check_length st opcode length in
  Ok (fin, opcode, length, input).

(** [payload[i] ^= mask[i%4]] *)
Definition unmask (mask payload : list Z) : list Z :=
  imap (fun i b => Z.lxor b (default 0 (mask !! (i mod 4)%nat))) payload.

Definition read_payload (n : Z) (input : list Z) : result closeReply (list Z * list Z) :=
  let? (mask, input) := ReadFull 4 input in
  let? (payload, input) := ReadFull (Z.to_nat n) input in
  Ok (unmask mask payload, input).

(** [deliver]: without a sink everything is taken; a sink takes the [n]-th
    message or the connection is stopping. *)
Definition deliver (messages : option (nat -> bool)) (n : nat) (opcode : Z) (payload : list Z) : result closeReply (list event) :=
  match messages with
  | None => Ok [EMessage opcode payload]
  | Some accepts => if accepts n then Ok [EMessage opcode payload] else Err hangup
  end.

(** The switch on the opcode. *)
Definition handle_opcode (messages : option (nat -> bool)) (n : nat) (st : reader_state) (fin : bool) (opcode : Z) (payload : list Z)
    : result closeReply (reader_state * list event) :=
  if opcode =? opClose then
    let '(code, ok) := parseClosePayload payload in
    if negb ok then
      if (2 <? blength payload) && negb (Valid (drop 2 payload)) then Err (close_with closeInvalidPayload) else Err (close_with closeProtocolError)
    else Err (close_with code)
  else if opcode =? opPing then Ok (st, [EPing payload])
  else if opcode =? opPong then Ok (st, [])
  else if (opcode =? opText) || (opcode =? opBinary) then
    if fin then
      let? _ := check (negb ((opcode =? opText) && negb (Valid payload))) closeInvalidPayload in
      let? evs := deliver messages n opcode payload in
      Ok (st, evs)
    else Ok (mkReaderState opcode payload 0, [])
  else if opcode =? opContinuation then
    Ok (mkReaderState st.(fragmentedOpcode) (st.(fragmentedPayload) ++ payload) st.(utf8Checked), [])
  else Ok (st, []).

(** The text of a fragmented message so far. *)
Definition check_text (st : reader_state) (fin : bool) (opcode : Z) : result closeReply reader_state :=
  if (st.(fragmentedOpcode) =? opText) && ((opcode =? opText) || (opcode =? opContinuation)) then
    let '(checked, ok) := checkUTF8Prefix st.(fragmentedPayload) st.(utf8Checked) in
    let? _ := check (negb (negb ok || fin && negb (checked =? length st.(fragmentedPayload))%nat)) closeInvalidPayload in
    Ok (mkReaderState st.(fragmentedOpcode) st.(fragmentedPayload) checked)
  else Ok st.

Definition finish_message (messages : option (nat -> bool)) (n : nat) (st : reader_state) (fin : bool) (opcode : Z)
    : result closeReply (reader_state * list event) :=
  if (opcode =? opContinuation) && fin then
    let? evs := deliver messages n st.(fragmentedOpcode) st.(fragmentedPayload) in
    Ok (reader_start, evs)
  else Ok (st, []).

Definition handle_frame (messages : option (nat -> bool)) (n : nat) (st : reader_state) (fin : bool) (opcode : Z) (payload : list Z)
    : result closeReply (reader_state * list event) :=
  let? (st, evs) := handle_opcode messages n st fin opcode payload in
  let? st := check_text st fin opcode in
  let? (st, evs') := finish_message messages n st fin opcode in
  Ok (st, evs ++ evs').

(** One round of the loop. *)
Definition read_frame (messages : option (nat -> bool)) (n : nat) (st : reader_state) (input : list Z)
    : result closeReply (reader_state * list event * list Z) :=
  let? (fin, opcode, length, input) := read_header st input in
  let? (payload, input) := read_payload length input in
  let? (st, evs) := handle_frame messages n st fin opcode payload in
  Ok (st, evs, input).

Definition deliveries (evs : list event) : nat := length (List.filter (fun e => match e with EMessage _ _ => true | _ => false end) evs).

(** A round takes six bytes at least, so the input's length is enough fuel. *)
Fixpoint run_loop (fuel : nat) (messages : option (nat -> bool)) (n : nat) (st : reader_state) (input : list Z) : list event * closeReply :=
  match fuel with
  | O => ([], hangup)
  | S fuel =>
    match read_frame messages n st input with
    | Err reply => ([], reply)
    | Ok (st', evs, rest) =>
      let '(more, reply) := run_loop fuel messages (n + deliveries evs) st' rest in (evs ++ more, reply)
    end
  end.

Definition run_from (messages : option (nat -> bool)) (n : nat) (st : reader_state) (input : list Z) : list event * closeReply :=
  run_loop (S (length input)) messages n st input.

Definition frameReader_run (messages : option (nat -> bool)) (input : list Z) : list event * closeReply :=
  run_from messages 0 reader_start input.

(** ** Serving a connection *)

(** The frames the loop writes, each through the function of its name. *)
Inductive outframe :=
| OText (payload : list Z)
| OPing
| OPong (payload : list Z)
| OClose (code : Z).

Definition write_out (o : outframe) : result frame_error (list Z) :=
  match o with
  | OText payload => writeFrame opText payload
  | OPing => writePingFrame
  | OPong payload => writePongFrame payload
  | OClose code => writeCloseFrame code
  end.

(** Where the writer is: before the first [select] of a round, before the
    second, or returned. *)
Inductive phase := AtPing | AtSelect | Returned.

(** [echo] is false: the sink of messages is for tests.  The reader goroutine
    has the events [c_todo] of [frameReader_run] before
    it and then closes [done] with the reply; [c_pongs] is the channel
    [pongs].  [c_taken] are the payloads received from [outbound] and
    [c_read] the events the reader is through with. *)
Record conn := mkConn {
  c_phase : phase; c_pongs : list (list Z); c_todo : list event; c_reply : closeReply;
  c_sent : list outframe; c_taken : list (list Z); c_read : list event }.

Definition conn_start (input : list Z) : conn :=
  mkConn AtPing [] (frameReader_run None input).1 (frameReader_run None input).2 [] [] [].

(** [write]: the frame is sent and the loop goes on, or it returns the error
    of the frame or of the transport ([sent = false]). *)
Definition conn_write (sent : bool) (next : phase) (o : outframe) (c : conn) : conn :=
  match write_out o with
  | Ok _ => if sent then mkConn next c.(c_pongs) c.(c_todo) c.(c_reply) (c.(c_sent) ++ [o]) c.(c_taken) c.(c_read)
            else mkConn Returned c.(c_pongs) c.(c_todo) c.(c_reply) c.(c_sent) c.(c_taken) c.(c_read)
  | Err _ => mkConn Returned c.(c_pongs) c.(c_todo) c.(c_reply) c.(c_sent) c.(c_taken) c.(c_read)
  end.

(** [flushPongs], the first [n] writes succeeding. *)
Fixpoint flushPongs (n : nat) (pongs : list (list Z)) (c : conn) : conn :=
  match pongs with
  | [] => mkConn c.(c_phase) [] c.(c_todo) c.(c_reply) c.(c_sent) c.(c_taken) c.(c_read)
  | p :: rest =>
    let c' := conn_write (0 <? Z.of_nat n) c.(c_phase) (OPong p) (mkConn c.(c_phase) rest c.(c_todo) c.(c_reply) c.(c_sent) c.(c_taken) c.(c_read)) in
    match c'.(c_phase) with
    | Returned => c'
    | _ => flushPongs (Nat.pred n) rest c'
    end
  end.

(** One step of the writer or the reader.  Timers, the peer and the hub are
    outside: their cases can be ready at any time.  [sent] says whether the
    transport takes the write. *)
Inductive conn_step : conn -> conn -> Prop :=
| cs_ping_due sent c : c.(c_phase) = AtPing -> conn_step c (conn_write sent AtSelect OPing c)
| cs_no_ping c : c.(c_phase) = AtPing -> conn_step c (mkConn AtSelect c.(c_pongs) c.(c_todo) c.(c_reply) c.(c_sent) c.(c_taken) c.(c_read))
| cs_outbound sent p c : c.(c_phase) = AtSelect ->
    conn_step c (conn_write sent AtPing (OText p) (mkConn c.(c_phase) c.(c_pongs) c.(c_todo) c.(c_reply) c.(c_sent) (c.(c_taken) ++ [p]) c.(c_read)))
| cs_outbound_closed sent c : c.(c_phase) = AtSelect -> conn_step c (conn_write sent Returned (OClose closeGoingAway) c)
| cs_tick sent c : c.(c_phase) = AtSelect -> conn_step c (conn_write sent AtPing OPing c)
| cs_pong sent p rest c : c.(c_phase) = AtSelect -> c.(c_pongs) = p :: rest ->
    conn_step c (conn_write sent AtPing (OPong p) (mkConn c.(c_phase) rest c.(c_todo) c.(c_reply) c.(c_sent) c.(c_taken) c.(c_read)))
| cs_expired sent c : c.(c_phase) = AtSelect -> conn_step c (conn_write sent Returned (OClose closePolicyViolation) c)
| cs_done n sent c c' : c.(c_phase) = AtSelect -> c.(c_todo) = [] -> c' = flushPongs n c.(c_pongs) c ->
    conn_step c (match c'.(c_phase) with
                 | Returned => c'
                 | _ => if c.(c_reply).(cr_send) then conn_write sent Returned (OClose c.(c_reply).(cr_code)) c'
                        else mkConn Returned c'.(c_pongs) c'.(c_todo) c'.(c_reply) c'.(c_sent) c'.(c_taken) c'.(c_read)
                 end)
| cs_cancelled sent c : c.(c_phase) = AtSelect -> conn_step c (conn_write sent Returned (OClose closeGoingAway) c)
(** [queuePong]: the send that succeeds, or the receive that drops the oldest
    after a send that did not, when the writer may have taken others since. *)
| cs_queue p rest c : c.(c_todo) = EPing p :: rest -> Z.of_nat (length c.(c_pongs)) < maxQueuedPongs ->
    conn_step c (mkConn c.(c_phase) (c.(c_pongs) ++ [p]) rest c.(c_reply) c.(c_sent) c.(c_taken) (c.(c_read) ++ [EPing p]))
| cs_drop p rest old pongs c : c.(c_todo) = EPing p :: rest -> c.(c_pongs) = old :: pongs ->
    conn_step c (mkConn c.(c_phase) pongs c.(c_todo) c.(c_reply) c.(c_sent) c.(c_taken) c.(c_read))
(** Without a sink a message is taken and forgotten. *)
| cs_message op p rest c : c.(c_todo) = EMessage op p :: rest ->
    conn_step c (mkConn c.(c_phase) c.(c_pongs) rest c.(c_reply) c.(c_sent) c.(c_taken) (c.(c_read) ++ [EMessage op p])).

(** ** The client of the load tool *)

Definition maxSyncFrame : Z := Z.shiftl 4 20.

Inductive client_error := read_failed | fragmented_frame | unexpected_frame | payload_too_long | closed_by_peer.

Definition client_read (n : nat) (input : list Z) : result client_error (list Z * list Z) :=
  if (n <=? length input)%nat then Ok (take n input, drop n input) else Err read_failed.

Definition readFrame (input : list Z) : result client_error (Z * list Z * list Z) :=
  let? (header, input) := client_read 2 input in
  let h0 := nth 0 header 0 in
  let h1 := nth 1 header 0 in
  if Z.land h0 0x80 =? 0 then Err fragmented_frame
  else
    let opcode := Z.land h0 0x0F in
    let length := Z.land h1 0x7F in
    let? (length, input) :=
      (if length =? 126 then let? (ext, input) := client_read 2 input in Ok (be_uint ext, input)
       else if length =? 127 then let? (ext, input) := client_read 8 input in Ok (be_uint ext, input)
       else Ok (length, input)) in
    if negb (Z.land h1 0x80 =? 0) || (maxSyncFrame <? length) then Err unexpected_frame
    else
      let? (payload, input) := client_read (Z.to_nat length) input in
      Ok (opcode, payload, input).

(** [writeFrame] of the client; the mask is random. *)
Definition client_writeFrame (mask : list Z) (opcode : Z) (payload : list Z) : result client_error (list Z) :=
  if 125 <? blength payload then Err payload_too_long
  else Ok ([Z.lor 0x80 opcode; Z.lor 0x80 (blength payload)] ++ mask ++ unmask mask payload).

(** [next]: the next data message, and what is written while waiting for it;
    a round takes two bytes at least. *)
Fixpoint next_loop (fuel : nat) (masks : nat -> list Z) (i : nat) (input : list Z) : result client_error (list Z * list Z) * list Z :=
  match fuel with
  | O => (Err read_failed, [])
  | S fuel =>
    match readFrame input with
    | Err e => (Err e, [])
    | Ok (opcode, payload, input) =>
      if (opcode =? 0x1) || (opcode =? 0x2) then (Ok (payload, input), [])
      else if opcode =? 0x9 then
        match client_writeFrame (masks i) 0xA payload with
        | Err e => (Err e, [])
        | Ok pong => let '(r, out) := next_loop fuel masks (S i) input in (r, pong ++ out)
        end
      else if opcode =? 0x8 then
        (Err closed_by_peer, match client_writeFrame (masks i) 0x8 payload with Err _ => [] | Ok frame => frame end)
      else next_loop fuel masks i input
    end
  end.

Definition next (masks : nat -> list Z) (input : list Z) : result client_error (list Z * list Z) * list Z :=
  next_loop (S (length input)) masks 0 input.
