(* ===== verification/WebSocketRules.v ===== *)
(** * Rules of the WebSocket

    The reader accepts exactly the frame sequences of RFC 6455 that the
    server's bounds allow, its incremental check of text is exact, and what
    one side of the repository writes the other reads. *)

From S2P Require Import Prelude GoUtf8 WebSocket.
From stdpp Require Import base numbers list relations.
From Stdlib Require Import ZArith ZifyBool Lia.
Open Scope Z_scope.

(** ** Text that comes in pieces *)

(** The bytes can still become text. *)
Definition possible (b : list Z) : Prop := exists s, Valid (b ++ s) = true.

Lemma valid_possible b : Valid b = true -> possible b.
Proof. intros H. exists []. by rewrite app_nil_r. Qed.

Lemma cut_start p : FullRune p = false -> p <> [] -> validUTF8Start p = true.
Proof.
  destruct p as [|b0 r]; [done|]. intros H _. simpl in H.
  destruct (utf8_first b0) as [[[n lo] hi]|] eqn:Hf; [|done]. pose proof Hf as Hr. unfold utf8_first in Hr.
  repeat match type of Hr with context [if ?c then _ else _] => destruct c eqn:? end; try done; injection Hr as <- <- <-;
    (assert (b0 <? RuneSelf = false) as Ha by (unfold RuneSelf; lia)).
  all: destruct r as [|b1 [|b2 [|b3 r]]]; simpl in H; try done;
    try (destruct (within_range _ _ b1) eqn:E1; [|done]); try (destruct (continues b2) eqn:E2; [|done]); simpl in H; try done.
  all: unfold validUTF8Start, UTFMax; repeat (simpl; rewrite ?Hf, ?Ha, ?E1, ?E2); unfold decode_failed; simpl;
    rewrite ?andb_false_r; simpl; rewrite ?orb_true_r; done.
Qed.

Lemma valid_from b i s : Valid (take i b) = true -> Valid (b ++ s) = Valid (drop i b ++ s).
Proof. intros H. rewrite <- (take_drop i b) at 1. rewrite <- app_assoc. by apply Valid_app. Qed.

Lemma valid_step b i k : Valid (take i b) = true -> Valid (take k (drop i b)) = true -> Valid (take (i + k) b) = true.
Proof.
  intros H1 H2. rewrite <- (take_drop i (take (i + k) b)), take_take, Nat.min_l by lia.
  rewrite <- take_drop_commute. by rewrite Valid_app.
Qed.

Lemma checkUTF8Prefix_loop_spec fuel b i :
  (length b < fuel + i)%nat -> (i <= length b)%nat -> Valid (take i b) = true ->
  let '(j, ok) := checkUTF8Prefix_loop fuel b i in
  (i <= j <= length b)%nat /\ Valid (take j b) = true /\
  if ok then possible b /\ (j = length b <-> Valid b = true) else ~ possible b.
Proof.
  revert i. induction fuel as [|fuel IH]; intros i Hf Hi Hv; [lia|]. simpl.
  destruct (b !! i) as [x|] eqn:Hx; cycle 1.
  { apply lookup_ge_None_1 in Hx. rewrite take_ge in * by lia. repeat split; try done; try lia. by apply valid_possible. }
  pose proof (lookup_lt_Some _ _ _ Hx) as Hlt. pose proof (drop_S _ _ _ Hx) as Hd. destruct (x <? RuneSelf) eqn:Ha.
  { assert (Valid (take (i + 1) b) = true) as Hv' by (apply valid_step; [done|rewrite Hd; simpl; by rewrite Ha]).
    specialize (IH (S i)). replace (i + 1)%nat with (S i) in Hv' by lia. destruct (checkUTF8Prefix_loop fuel b (S i)) as [j ok].
    destruct IH as (? & ? & ?); [lia|lia|done|]. split; [lia|done]. }
  destruct (FullRune (drop i b)) eqn:Hful; simpl; cycle 1.
  { assert (drop i b <> []) as Hne by by rewrite Hd. destruct (cut_completes _ Hful Hne) as (Hn & _ & s & Hs).
    rewrite cut_start by done. split; [lia|]. split; [done|]. split; [exists s; by rewrite (valid_from _ i)|].
    pose proof (valid_from b i [] Hv) as E. rewrite !app_nil_r in E. rewrite E, Hn. split; [lia|done]. }
  destruct (decode_failed (DecodeRune (drop i b))) eqn:Hdec.
  { split; [lia|]. split; [done|]. intros [s Hs]. destruct (full_read (drop i b) s Hful) as [_ Hr]. rewrite Hdec in Hr.
    rewrite (valid_from _ i) in Hs by done. congruence. }
  destruct (full_read (drop i b) [] Hful) as [Hk Hr]. rewrite Hdec in Hr. destruct Hr as [Ht _]. rewrite length_drop in Hk.
  specialize (IH (i + (DecodeRune (drop i b)).2)%nat). destruct (checkUTF8Prefix_loop fuel b _) as [j ok].
  destruct IH as (? & ? & ?); [lia|lia|by apply valid_step|]. split; [lia|done].
Qed.

(** The reader's check of a growing text: with a prefix that is known to be
    valid it finds how far the text is valid, and whether it can still be
    completed. *)
Lemma checkUTF8Prefix_spec b from :
  (from <= length b)%nat -> Valid (take from b) = true ->
  let '(j, ok) := checkUTF8Prefix b from in
  (from <= j <= length b)%nat /\ Valid (take j b) = true /\
  if ok then possible b /\ (j = length b <-> Valid b = true) else ~ possible b.
Proof. intros. apply checkUTF8Prefix_loop_spec; [lia|done|done]. Qed.

(** ** Frames on the wire *)

Record frame := mkFrame { f_fin : bool; f_opcode : Z; f_mask : list Z; f_payload : list Z }.

Definition length7 (n : Z) : Z := if n <=? 125 then n else if n <=? 65535 then 126 else 127.
Definition length_bytes (n : Z) : list Z := if n <=? 125 then [] else if n <=? 65535 then put_be 2 n else put_be 8 n.

(** A masked client frame, RFC 6455 section 5.2. *)
Definition encode_frame (f : frame) : list Z :=
  [(if f.(f_fin) then 0x80 else 0) + f.(f_opcode); 0x80 + length7 (blength f.(f_payload))] ++
  length_bytes (blength f.(f_payload)) ++ f.(f_mask) ++ unmask f.(f_mask) f.(f_payload).

Definition wf_frame (f : frame) : Prop :=
  0 <= f.(f_opcode) < 16 /\ length f.(f_mask) = 4%nat /\ blength f.(f_payload) < 2 ^ 63.

Definition is_byte (b : Z) : Prop := 0 <= b < 256.

Lemma be_uint_app l x : be_uint (l ++ [x]) = be_uint l * 256 + x.
Proof. unfold be_uint. by rewrite fold_left_app. Qed.

Lemma put_be_length k n : length (put_be k n) = k.
Proof. revert n. induction k; intros n; simpl; [done|]. rewrite length_app, IHk. simpl. lia. Qed.

Lemma be_put k n : 0 <= n < 256 ^ Z.of_nat k -> be_uint (put_be k n) = n.
Proof.
  revert n. induction k as [|k IH]; intros n Hn; [cbn in *; lia|]. simpl. rewrite be_uint_app, IH.
  - pose proof (Z.div_mod n 256 ltac:(lia)). lia.
  - rewrite Nat2Z.inj_succ, Z.pow_succ_r in Hn by lia. split; [apply Z.div_pos; lia|apply Z.div_lt_upper_bound; lia].
Qed.

Lemma put_be_uint l : Forall is_byte l -> put_be (length l) (be_uint l) = l.
Proof.
  induction l as [|x l IH] using rev_ind; [done|]. intros [Hl Hx]%Forall_app. inversion_clear Hx as [|? ? Hb _]. unfold is_byte in Hb.
  rewrite length_app, Nat.add_comm. simpl. rewrite be_uint_app. replace ((be_uint l * 256 + x) / 256) with (be_uint l).
  - rewrite IH by done. f_equal. f_equal.
    rewrite Z.add_comm, Z.mod_add by lia. apply Z.mod_small. lia.
  - rewrite Z.add_comm, Z.div_add, Z.div_small by lia. lia.
Qed.

Lemma be_uint_bound l : Forall is_byte l -> 0 <= be_uint l < 256 ^ Z.of_nat (length l).
Proof.
  induction l as [|x l IH] using rev_ind; [cbn; lia|]. intros [Hl Hx]%Forall_app. inversion_clear Hx as [|? ? Hb _]. unfold is_byte in Hb.
  rewrite be_uint_app, length_app, Nat2Z.inj_add, Z.pow_add_r by lia. specialize (IH Hl). simpl. lia.
Qed.

Lemma unmask_length m p : length (unmask m p) = length p.
Proof. apply length_imap. Qed.

Lemma unmask_twice m p : unmask m (unmask m p) = p.
Proof.
  apply list_eq. intros i. unfold unmask. rewrite !list_lookup_imap. destruct (p !! i); simpl; [|done].
  by rewrite Z.lxor_assoc, Z.lxor_nilpotent, Z.lxor_0_r.
Qed.

Lemma ReadFull_app n a b : length a = n -> ReadFull n (a ++ b) = Ok (a, b).
Proof.
  intros <-. unfold ReadFull. rewrite length_app. replace (_ <=? _)%nat with true by lia.
  by rewrite take_app_length, drop_app_length.
Qed.

Lemma ReadFull_ok n input a b : ReadFull n input = Ok (a, b) -> input = a ++ b /\ length a = n.
Proof.
  unfold ReadFull. destruct (n <=? _)%nat eqn:E; [|done]. intros [= <- <-]. rewrite take_drop, length_take. split; [done|lia].
Qed.

Lemma check_ok b c u : check b c = Ok u -> b = true.
Proof. by destruct b. Qed.

(** ** The header *)

Lemma byte_cases (P : Z -> bool) : forallb P (seqZ 0 256) = true -> forall b, is_byte b -> P b = true.
Proof. rewrite forallb_forall. intros H b Hb. apply H, list_elem_of_In, elem_of_seqZ. unfold is_byte in Hb. lia. Qed.

Lemma first_byte (fin : bool) op :
  0 <= op < 16 -> let b := (if fin then 0x80 else 0) + op in
  Z.land b 0x0f = op /\ Z.land b 0x70 = 0 /\ negb (Z.land b 0x80 =? 0) = fin.
Proof.
  intros Hop b. assert (forallb (fun op : Z => forallb (fun fin : bool => let b := (if fin then 0x80 else 0) + op in
    (Z.land b 0x0f =? op) && (Z.land b 0x70 =? 0) && Bool.eqb (negb (Z.land b 0x80 =? 0)) fin) [true; false]) (seqZ 0 16) = true) as H
    by (vm_compute; reflexivity).
  rewrite forallb_forall in H. specialize (H op). rewrite <- list_elem_of_In, elem_of_seqZ in H. specialize (H ltac:(lia)).
  rewrite forallb_forall in H. specialize (H fin ltac:(destruct fin; simpl; auto)). fold b in H. cbv zeta in H.
  rewrite !andb_true_iff in H. destruct H as [[H1 H2] H3]. apply Bool.eqb_prop in H3. unfold b in *. lia.
Qed.

Lemma first_byte_inv b :
  is_byte b -> Z.land b 0x70 = 0 ->
  b = (if negb (Z.land b 0x80 =? 0) then 0x80 else 0) + Z.land b 0x0f /\ 0 <= Z.land b 0x0f < 16.
Proof.
  intros Hb H0. pose proof (byte_cases (fun b => negb (Z.land b 0x70 =? 0) ||
    ((b =? (if negb (Z.land b 0x80 =? 0) then 0x80 else 0) + Z.land b 0x0f) && (0 <=? Z.land b 0x0f) && (Z.land b 0x0f <? 16)))
    ltac:(vm_compute; reflexivity) b Hb) as H. simpl in H. rewrite H0 in H. simpl in H. lia.
Qed.

Lemma second_byte l : 0 <= l < 128 -> Z.land (0x80 + l) 0x7f = l /\ negb (Z.land (0x80 + l) 0x80 =? 0) = true.
Proof.
  intros Hl. pose proof (byte_cases (fun b => (b <? 0x80) || ((Z.land b 0x7f =? b - 0x80) && negb (Z.land b 0x80 =? 0)))
    ltac:(vm_compute; reflexivity) (0x80 + l) ltac:(unfold is_byte; lia)) as H. cbv beta in H.
  apply orb_true_iff in H as [H|[H1 H2]%andb_prop]; [lia|]. split; [lia|done].
Qed.

Lemma second_byte_inv b : is_byte b -> negb (Z.land b 0x80 =? 0) = true -> b = 0x80 + Z.land b 0x7f /\ 0 <= Z.land b 0x7f < 128.
Proof.
  intros Hb H0. pose proof (byte_cases (fun b => (Z.land b 0x80 =? 0) || ((b =? 0x80 + Z.land b 0x7f) && (0 <=? Z.land b 0x7f) && (Z.land b 0x7f <? 128)))
    ltac:(vm_compute; reflexivity) b Hb) as H. simpl in H. apply negb_true_iff in H0. rewrite H0 in H. simpl in H. lia.
Qed.

Lemma length7_bound n : 0 <= n -> 0 <= length7 n < 128.
Proof. unfold length7. repeat case_match; lia. Qed.

Lemma read_length_encode n rest :
  0 <= n < 2 ^ 63 -> read_length (0x80 + length7 n) (length_bytes n ++ rest) = Ok (n, rest).
Proof.
  intros Hn. unfold read_length. rewrite (proj1 (second_byte _ (length7_bound n ltac:(lia)))). unfold length7, length_bytes.
  destruct (n <=? 125) eqn:E1; [by replace (n =? 126) with false by lia; replace (n =? 127) with false by lia|].
  destruct (n <=? 65535) eqn:E2.
  - change (126 =? 126) with true. cbv iota. rewrite (ReadFull_app 2 (put_be 2 n)) by apply put_be_length. cbn [result_bind].
    rewrite (be_put 2 n) by (split; [lia|]; change (256 ^ Z.of_nat 2) with 65536; lia). unfold check. by replace (n <? 126) with false by lia.
  - change (127 =? 126) with false. change (127 =? 127) with true. cbv iota.
    rewrite (ReadFull_app 8 (put_be 8 n)) by apply put_be_length. cbn [result_bind].
    rewrite (be_put 8 n) by (split; [lia|]; change (256 ^ Z.of_nat 8) with (2 ^ 64); lia).
    rewrite Z.shiftr_div_pow2, Z.div_small by lia. unfold check. change (0 =? 0) with true. cbn [negb orb result_bind]. by rewrite E2.
Qed.

Lemma read_length_inv second input n rest :
  is_byte second -> negb (Z.land second 0x80 =? 0) = true -> Forall is_byte input ->
  read_length second input = Ok (n, rest) -> second = 0x80 + length7 n /\ input = length_bytes n ++ rest /\ 0 <= n < 2 ^ 63.
Proof.
  intros Hs Hm Hi E. destruct (second_byte_inv _ Hs Hm) as [Es Hl]. revert E. unfold read_length.
  destruct (Z.land second 0x7f =? 126) eqn:E1; [|destruct (Z.land second 0x7f =? 127) eqn:E2].
  - destruct (ReadFull 2 input) as [[buf i]|] eqn:Er; [|done]. cbn [result_bind]. apply ReadFull_ok in Er as [-> Hb]. apply Forall_app in Hi as [Hi _].
    pose proof (be_uint_bound _ Hi) as Hbd. rewrite Hb in Hbd. change (256 ^ Z.of_nat 2) with 65536 in Hbd.
    unfold check. destruct (be_uint buf <? 126) eqn:E3; cbn [result_bind negb]; [done|]. intros [= <- <-].
    unfold length7, length_bytes. replace (_ <=? 125) with false by lia. replace (_ <=? 65535) with true by lia.
    rewrite <- Hb at 1. rewrite put_be_uint by done. repeat split; lia.
  - destruct (ReadFull 8 input) as [[buf i]|] eqn:Er; [|done]. cbn [result_bind]. apply ReadFull_ok in Er as [-> Hb]. apply Forall_app in Hi as [Hi _].
    pose proof (be_uint_bound _ Hi) as Hbd. rewrite Hb in Hbd. change (256 ^ Z.of_nat 8) with (2 ^ 64) in Hbd.
    unfold check. destruct (negb (_ ≫ 63 =? 0)) eqn:E3; [done|]. cbn [orb]. destruct (be_uint buf <=? 65535) eqn:E4; cbn [result_bind negb]; [done|]. intros [= <- <-].
    apply negb_false_iff, Z.eqb_eq in E3. rewrite Z.shiftr_div_pow2 in E3 by lia. apply Z.div_small_iff in E3; [|lia].
    unfold length7, length_bytes. replace (_ <=? 125) with false by lia. rewrite E4.
    rewrite <- Hb at 1. rewrite put_be_uint by done. repeat split; lia.
  - intros [= <- <-]. unfold length7, length_bytes. replace (_ <=? 125) with true by lia. repeat split; try done; lia.
Qed.

(** ** A frame and its bytes *)

(** The reader's decision on a frame that has arrived. *)
Definition judge (messages : option (nat -> bool)) (k : nat) (st : reader_state) (f : frame) : result closeReply (reader_state * list event) :=
  let? _ := check (validOpcode f.(f_opcode)) closeProtocolError in
  let? _ := check_opcode st f.(f_opcode) f.(f_fin) in
  let? _ := check_length st f.(f_opcode) (blength f.(f_payload)) in
  handle_frame messages k st f.(f_fin) f.(f_opcode) f.(f_payload).

Lemma read_payload_encode m p rest :
  length m = 4%nat -> read_payload (blength p) (m ++ unmask m p ++ rest) = Ok (p, rest).
Proof.
  intros Hm. unfold read_payload. rewrite (ReadFull_app 4) by done. simpl. unfold blength. rewrite Nat2Z.id, (ReadFull_app (length p)).
  - simpl. by rewrite unmask_twice.
  - apply unmask_length.
Qed.

Lemma read_encoded messages k st f rest :
  wf_frame f -> read_frame messages k st (encode_frame f ++ rest) =
    let? (st', evs) := judge messages k st f in Ok (st', evs, rest).
Proof.
  intros (Hop & Hm & Hp). unfold read_frame, read_header, encode_frame, judge. rewrite <- !app_assoc.
  rewrite (ReadFull_app 2) by done. simpl result_bind. cbv zeta. simpl nth.
  destruct (first_byte f.(f_fin) f.(f_opcode) Hop) as (-> & -> & ->). simpl. rewrite negb_involutive.
  destruct (check (validOpcode _) _); [|done]. simpl. destruct (check_opcode _ _ _); [|done]. simpl.
  assert (0 <= blength (f_payload f)) by (unfold blength; lia).
  rewrite (proj2 (second_byte _ (length7_bound _ ltac:(done)))). simpl. rewrite read_length_encode by lia. simpl.
  destruct (check_length _ _ _); [|done]. simpl. rewrite read_payload_encode by done. simpl. by destruct (handle_frame _ _ _ _ _ _) as [[]|].
Qed.

Lemma read_parsed st input fin op n i1 p rest messages k :
  Forall is_byte input -> read_header st input = Ok (fin, op, n, i1) -> read_payload n i1 = Ok (p, rest) ->
  exists f, wf_frame f /\ input = encode_frame f ++ rest /\ judge messages k st f = handle_frame messages k st fin op p.
Proof.
  intros Hi. unfold read_header. destruct (ReadFull 2 input) as [[head i0]|] eqn:E0; [|done]. simpl.
  apply ReadFull_ok in E0 as [-> Hh]. destruct head as [|first [|second [|]]]; try done. simpl. apply Forall_app in Hi as [Hh2 Hi].
  inversion_clear Hh2 as [|? ? Hb1 H']. inversion_clear H' as [|? ? Hb2 _].
  destruct (negb (Z.land first 0x70 =? 0)) eqn:E1; [done|]. simpl. rewrite negb_involutive.
  destruct (check (validOpcode _) _) as [[]|] eqn:E2; [|done]. simpl. destruct (check_opcode _ _ _) as [[]|] eqn:E3; [|done]. simpl.
  destruct (check (negb (Z.land second 0x80 =? 0)) _) as [[]|] eqn:E4; [|done]. simpl.
  destruct (read_length _ _) as [[l i]|] eqn:E5; [|done]. simpl. destruct (check_length _ _ _) as [[]|] eqn:E6; [|done]. simpl.
  intros [= <- <- <- <-]. unfold read_payload. destruct (ReadFull 4 i) as [[mask i2]|] eqn:E7; [|done]. simpl.
  destruct (ReadFull (Z.to_nat l) i2) as [[q i3]|] eqn:E8; [|done]. simpl. intros [= <- <-].
  apply check_ok in E4 as Hm.
  apply read_length_inv in E5 as (-> & -> & Hn); try done. apply ReadFull_ok in E7 as [-> Hmask]. apply ReadFull_ok in E8 as [-> Hp].
  apply negb_false_iff, Z.eqb_eq in E1. destruct (first_byte_inv _ Hb1 E1) as [Ef Hop].
  assert (blength (unmask mask q) = l) as Hlen by (unfold blength; rewrite unmask_length, Hp; lia).
  exists (mkFrame (negb (Z.land first 0x80 =? 0)) (Z.land first 0x0f) mask (unmask mask q)).
  split; [repeat split; simpl; lia|]. split; [|unfold judge; simpl; by rewrite E2, E3, Hlen, E6].
  unfold encode_frame. simpl. rewrite Hlen, unmask_twice, <- Ef, <- !app_assoc. done.
Qed.

Lemma read_decoded messages k st input st' evs rest :
  Forall is_byte input -> read_frame messages k st input = Ok (st', evs, rest) ->
  exists f, wf_frame f /\ input = encode_frame f ++ rest /\ judge messages k st f = Ok (st', evs).
Proof.
  intros Hi. unfold read_frame. destruct (read_header st input) as [[[[fin op] n] i1]|] eqn:E1; [|done]. simpl.
  destruct (read_payload n i1) as [[p i2]|] eqn:E2; [|done]. simpl.
  destruct (handle_frame _ _ _ _ _ _) as [[st1 evs1]|] eqn:E3; [|done]. simpl. intros [= <- <- <-].
  destruct (read_parsed _ _ _ _ _ _ _ _ messages k Hi E1 E2) as (f & Hf & Ei & Hj). rewrite E3 in Hj. eauto.
Qed.

(** ** The protocol *)

(** A data message that is open: its opcode and the payload so far. *)
Abbreviation open_message := (option (Z * list Z)).

Definition data_opcode (op : Z) : Prop := op = opText \/ op = opBinary.
Definition text_ok (op : Z) (p : list Z) : Prop := op = opText -> Valid p = true.
Definition text_possible (op : Z) (p : list Z) : Prop := op = opText -> possible p.

(** What a client may send next (RFC 6455 sections 5.4 and 5.5, with the
    server's bounds), and what the server makes of it. *)
Inductive frame_step : open_message -> frame -> list event -> open_message -> Prop :=
| fs_ping st m p : blength p <= maxControlPayload -> frame_step st (mkFrame true opPing m p) [EPing p] st
| fs_pong st m p : blength p <= maxControlPayload -> frame_step st (mkFrame true opPong m p) [] st
| fs_whole op m p : data_opcode op -> blength p <= maxClientMessageSize -> text_ok op p ->
    frame_step None (mkFrame true op m p) [EMessage op p] None
| fs_first op m p : data_opcode op -> blength p <= maxClientMessageSize -> text_possible op p ->
    frame_step None (mkFrame false op m p) [] (Some (op, p))
| fs_more op q m p : blength (q ++ p) <= maxClientMessageSize -> text_possible op (q ++ p) ->
    frame_step (Some (op, q)) (mkFrame false opContinuation m p) [] (Some (op, q ++ p))
| fs_last op q m p : blength (q ++ p) <= maxClientMessageSize -> text_ok op (q ++ p) ->
    frame_step (Some (op, q)) (mkFrame true opContinuation m p) [EMessage op (q ++ p)] None.

(** A close frame with a body that may be echoed, and the echo. *)
Definition good_close (f : frame) (code : Z) : Prop :=
  f.(f_fin) = true /\ f.(f_opcode) = opClose /\ blength f.(f_payload) <= maxControlPayload /\
  (f.(f_payload) = [] /\ code = 0 \/
   (2 <= length f.(f_payload))%nat /\ code = be_uint (take 2 f.(f_payload)) /\ validCloseCode code = true /\ Valid (drop 2 f.(f_payload)) = true).

(** The reader's state for an open message. *)
Definition represents (st : reader_state) (m : open_message) : Prop :=
  match m with
  | None => st.(fragmentedOpcode) = 0
  | Some (op, q) =>
    st.(fragmentedOpcode) = op /\ data_opcode op /\ st.(fragmentedPayload) = q /\
    (op = opText -> (st.(utf8Checked) <= length q)%nat /\ Valid (take st.(utf8Checked) q) = true)
  end.

Lemma blength_app p q : blength (p ++ q) = blength p + blength q.
Proof. unfold blength. rewrite length_app. lia. Qed.

(** The check of a fragmented text, by its two outcomes. *)
Lemma check_text_more st opcode :
  data_opcode st.(fragmentedOpcode) -> opcode = opText \/ opcode = opBinary \/ opcode = opContinuation ->
  (st.(fragmentedOpcode) = opText -> opcode <> opBinary) ->
  (st.(fragmentedOpcode) = opText -> (st.(utf8Checked) <= length st.(fragmentedPayload))%nat /\ Valid (take st.(utf8Checked) st.(fragmentedPayload)) = true) ->
  forall fin,
  (text_possible st.(fragmentedOpcode) st.(fragmentedPayload) /\ (fin = true -> text_ok st.(fragmentedOpcode) st.(fragmentedPayload)) /\
   exists n, check_text st fin opcode = Ok (mkReaderState st.(fragmentedOpcode) st.(fragmentedPayload) n) /\
     (st.(fragmentedOpcode) = opText -> (n <= length st.(fragmentedPayload))%nat /\ Valid (take n st.(fragmentedPayload)) = true)) \/
  (~ (text_possible st.(fragmentedOpcode) st.(fragmentedPayload) /\ (fin = true -> text_ok st.(fragmentedOpcode) st.(fragmentedPayload))) /\
   check_text st fin opcode = Err (close_with closeInvalidPayload)).
Proof.
  intros Hd Hop Hb Hc fin. unfold check_text. destruct (st.(fragmentedOpcode) =? opText) eqn:Et; simpl; cycle 1.
  { left. unfold text_possible, text_ok. assert (st.(fragmentedOpcode) <> opText) by lia. repeat split; try done.
    destruct st as [o q n]. simpl in *. exists n. done. }
  apply Z.eqb_eq in Et. destruct (Hc Et) as [Hc1 Hc2]. replace (_ || _) with true by (specialize (Hb Et); unfold opText, opBinary, opContinuation in *; lia).
  pose proof (checkUTF8Prefix_spec _ _ Hc1 Hc2) as Hs. destruct (checkUTF8Prefix _ _) as [j ok]. destruct Hs as (Hj & Hv & Hk).
  destruct ok; simpl; cycle 1. { right. split; [|done]. intros [H _]. by apply Hk, H. }
  destruct Hk as [Hp Hi]. destruct (fin && negb (j =? _)%nat) eqn:E; simpl.
  - right. split; [|done]. apply andb_prop in E as [-> E]. intros [_ H]. specialize (H eq_refl Et). apply Hi in H. lia.
  - left. split; [by intros _|]. split; [|exists j; split; [done|]; intros _; split; [lia|done]]. intros -> _. apply Hi. simpl in E. lia.
Qed.

Lemma data_cases op : data_opcode op -> op = 1 \/ op = 2.
Proof. done. Qed.

Lemma control_fits p : (maxControlPayload <? blength p) = false -> (maxClientMessageSize <? blength p) = false.
Proof. change maxClientMessageSize with 65536. unfold maxControlPayload. lia. Qed.

(** [judge] by the kind of frame. *)
Lemma judge_control k st fin op m p :
  op = opPing \/ op = opPong ->
  judge None k st (mkFrame fin op m p) =
    if fin && (blength p <=? maxControlPayload) then Ok (st, if op =? opPing then [EPing p] else []) else Err (close_with closeProtocolError).
Proof.
  intros Hop. unfold judge, check_opcode, check_length, handle_frame, handle_opcode, check_text, finish_message. simpl.
  rewrite (Z.leb_antisym maxControlPayload). destruct Hop as [-> | ->], fin; simpl; try done;
    destruct (maxControlPayload <? blength p) eqn:E; simpl; try done; rewrite (control_fits _ E); simpl; by rewrite ?andb_false_r.
Qed.

Lemma judge_data k st fin op m p :
  data_opcode op ->
  judge None k st (mkFrame fin op m p) =
    if negb (st.(fragmentedOpcode) =? 0) then Err (close_with closeProtocolError)
    else if maxClientMessageSize <? blength p then Err (close_with closeMessageTooBig)
    else if fin then (if (op =? opText) && negb (Valid p) then Err (close_with closeInvalidPayload) else Ok (st, [EMessage op p]))
    else let? st' := check_text (mkReaderState op p 0) false op in Ok (st', []).
Proof.
  intros Hop. unfold judge, check_opcode, check_length, handle_frame, handle_opcode, finish_message. simpl.
  destruct Hop as [-> | ->]; simpl; (destruct (st.(fragmentedOpcode) =? 0) eqn:E; simpl; [|done]);
    (destruct (maxClientMessageSize <? blength p); simpl; [done|]); destruct fin; simpl.
  - destruct (Valid p); simpl; [|done]. unfold check_text. apply Z.eqb_eq in E. by rewrite E.
  - by destruct (check_text _ _ _).
  - unfold check_text. apply Z.eqb_eq in E. by rewrite E.
  - done.
Qed.

Lemma judge_continuation k st fin m p :
  judge None k st (mkFrame fin opContinuation m p) =
    if st.(fragmentedOpcode) =? 0 then Err (close_with closeProtocolError)
    else if maxClientMessageSize <? blength (st.(fragmentedPayload) ++ p) then Err (close_with closeMessageTooBig)
    else let? st' := check_text (mkReaderState st.(fragmentedOpcode) (st.(fragmentedPayload) ++ p) st.(utf8Checked)) fin opContinuation in
         if fin then Ok (reader_start, [EMessage st'.(fragmentedOpcode) st'.(fragmentedPayload)]) else Ok (st', []).
Proof.
  unfold judge, check_opcode, check_length, handle_frame, handle_opcode, finish_message. simpl.
  destruct (st.(fragmentedOpcode) =? 0) eqn:E; simpl; [done|]. rewrite blength_app.
  assert (0 <= blength st.(fragmentedPayload)) by (unfold blength; lia).
  destruct (maxClientMessageSize <? blength (fragmentedPayload st) + blength p) eqn:El; simpl; [by rewrite orb_true_r|].
  replace (maxClientMessageSize <? blength p) with false by lia. simpl. destruct (check_text _ _ _); simpl; [|done]. by destruct fin.
Qed.

(** A frame of the protocol is taken, and leaves what it should. *)
Lemma more_checked st op q p n :
  represents st (Some (op, q)) -> n = st.(utf8Checked) ->
  op = opText -> (n <= length (q ++ p))%nat /\ Valid (take n (q ++ p)) = true.
Proof. intros (_ & _ & _ & Hu) -> E. destruct (Hu E). rewrite length_app, take_app_le by lia. split; [lia|done]. Qed.

Lemma step_judged k st m f evs m' :
  represents st m -> frame_step m f evs m' -> exists st', judge None k st f = Ok (st', evs) /\ represents st' m'.
Proof.
  intros Hr Hs. destruct Hs as [m ma p Hl|m ma p Hl|op ma p Ho Hl Ht|op ma p Ho Hl Ht|op q ma p Hl Ht|op q ma p Hl Ht].
  - rewrite judge_control by auto. replace (blength p <=? _) with true by lia. by exists st.
  - rewrite judge_control by auto. replace (blength p <=? _) with true by lia. by exists st.
  - rewrite judge_data by done. simpl in Hr. rewrite Hr. replace (_ <? _) with false by lia. simpl.
    replace (_ && _) with false; [by exists st|]. destruct (op =? opText) eqn:E; [|done]. apply Z.eqb_eq in E. by rewrite (Ht E).
  - rewrite judge_data by done. simpl in Hr. rewrite Hr. replace (_ <? _) with false by lia. simpl.
    destruct (check_text_more (mkReaderState op p 0) op) with (fin := false) as [(_ & _ & n & -> & Hn)|[Hx _]]; simpl; try done.
    + unfold data_opcode in Ho. tauto.
    + by intros ->.
    + intros _. split; [lia|done].
    + eexists. split; [done|]. exact (conj eq_refl (conj Ho (conj eq_refl Hn))).
    + destruct Hx. by split.
  - rewrite judge_continuation. pose proof Hr as (<- & Ho & <- & _). replace (_ =? 0) with false by (destruct (data_cases _ Ho); lia).
    replace (_ <? _) with false by lia.
    destruct (check_text_more (mkReaderState st.(fragmentedOpcode) (st.(fragmentedPayload) ++ p) st.(utf8Checked)) opContinuation) with (fin := false)
      as [(_ & _ & n & -> & Hn)|[Hx _]]; simpl; try done; [by auto|by apply (more_checked _ _ _ _ _ Hr)| |].
    + eexists. split; [done|]. exact (conj eq_refl (conj Ho (conj eq_refl Hn))).
    + destruct Hx. by split.
  - rewrite judge_continuation. pose proof Hr as (<- & Ho & <- & _). replace (_ =? 0) with false by (destruct (data_cases _ Ho); lia).
    replace (_ <? _) with false by lia.
    destruct (check_text_more (mkReaderState st.(fragmentedOpcode) (st.(fragmentedPayload) ++ p) st.(utf8Checked)) opContinuation) with (fin := true)
      as [(_ & _ & n & -> & Hn)|[Hx _]]; simpl; try done; [by auto|by apply (more_checked _ _ _ _ _ Hr)| |].
    + by eexists.
    + destruct Hx. split; [|done]. intros E. by apply valid_possible, Ht.
Qed.

Definition refusal (r : closeReply) : Prop :=
  r.(cr_send) = true /\ (r.(cr_code) = closeProtocolError \/ r.(cr_code) = closeInvalidPayload \/ r.(cr_code) = closeMessageTooBig).

Lemma valid_opcodes op :
  0 <= op -> validOpcode op = true -> op = opContinuation \/ data_opcode op \/ op = opClose \/ op = opPing \/ op = opPong.
Proof. unfold validOpcode, data_opcode, opContinuation, opText, opBinary, opClose, opPing, opPong. lia. Qed.

Lemma judge_close k st fin m p :
  match judge None k st (mkFrame fin opClose m p) with
  | Ok _ => False
  | Err r => refusal r /\ (forall c, ~ good_close (mkFrame fin opClose m p) c) \/ good_close (mkFrame fin opClose m p) r.(cr_code) /\ r.(cr_send) = true
  end.
Proof.
  unfold judge, check_opcode, check_length, handle_frame, handle_opcode. simpl. unfold good_close, refusal. simpl.
  destruct fin; simpl; [|left; split; [auto|]; by intros c [? _]].
  destruct (maxControlPayload <? blength p) eqn:El; simpl; [left; split; [auto|]; intros c (_ & _ & ? & _); lia|].
  rewrite (control_fits _ El). simpl.
  unfold parseClosePayload. destruct p as [|b1 [|b2 p]].
  - right. simpl. repeat split; auto. unfold blength, maxControlPayload. simpl. lia.
  - left. simpl. split; [auto|]. intros c (_ & _ & _ & [[? _]|[? _]]); [done|]. simpl in *. lia.
  - assert (blength (b1 :: b2 :: p) = 2 + Z.of_nat (length p)) as -> by (unfold blength; rewrite !length_cons; lia).
    replace (2 + _ =? 0) with false by lia. replace (2 + _ =? 1) with false by lia.
    change (take 2 (b1 :: b2 :: p)) with (b1 :: b2 :: take 0 p). rewrite take_0. change (drop 2 (b1 :: b2 :: p)) with p.
    assert (2 + Z.of_nat (length p) <= maxControlPayload) as Hl by (unfold blength in El; rewrite !length_cons in El; lia).
    destruct (validCloseCode (be_uint [b1; b2])) eqn:Ec, (Valid p) eqn:Ev; cbn [negb orb result_bind].
    + right. split; [|done]. split; [done|]. split; [done|]. split; [done|]. right. split; [simpl; lia|]. by simpl.
    + replace (2 <? _) with true; [cbn [andb result_bind]; left; split; [simpl; auto|]|].
      * intros c (_ & _ & _ & [[? _]|(_ & _ & _ & ?)]); [done|]. simpl in *. congruence.
      * destruct p; [done|]. rewrite length_cons. lia.
    + rewrite andb_false_r. cbn [result_bind]. left. split; [simpl; auto|]. intros c (_ & _ & _ & [[? _]|(_ & -> & ? & _)]); [done|]. simpl in *. congruence.
    + destruct (_ && _); cbn [result_bind]; left; (split; [simpl; auto|]);
      intros c (_ & _ & _ & [[? _]|(_ & -> & ? & _)]); simpl in *; congruence.
Qed.

(** A frame that is taken is one of the protocol; one that is not is refused
    or closes. *)
Lemma judged_step k st m f :
  represents st m -> wf_frame f ->
  match judge None k st f with
  | Ok (st', evs) => exists m', frame_step m f evs m' /\ represents st' m'
  | Err r => refusal r /\ (forall c, ~ good_close f c) \/ good_close f r.(cr_code) /\ r.(cr_send) = true
  end.
Proof.
  intros Hr (Hop & _ & _). destruct f as [fin op ma p]. simpl in Hop.
  destruct (decide (op = opClose)) as [-> |Hnc]. { pose proof (judge_close k st fin ma p) as H. by destruct (judge _ _ _ _). }
  assert (forall c, ~ good_close (mkFrame fin op ma p) c) as Hg by (by intros c (_ & ? & _)).
  destruct (validOpcode op) eqn:Ev; cycle 1.
  { unfold judge. simpl. rewrite Ev. simpl. left. split; [|done]. split; simpl; auto. }
  destruct (valid_opcodes _ (proj1 Hop) Ev) as [-> |[Hd|[? |Hc]]]; [| |done|].
  - rewrite judge_continuation. destruct m as [[mo q]|]; simpl in Hr; [|rewrite Hr; left; split; [|done]; split; simpl; auto].
    pose proof Hr as (<- & Ho & <- & Hu). replace (_ =? 0) with false by (destruct (data_cases _ Ho); lia).
    destruct (_ <? _) eqn:El; [left; split; [|done]; split; simpl; auto|].
    destruct (check_text_more (mkReaderState st.(fragmentedOpcode) (st.(fragmentedPayload) ++ p) st.(utf8Checked)) opContinuation) with (fin := fin)
      as [(Hp & Hv & n & -> & Hn)|[_ ->]]; simpl; try done; [by auto|by apply (more_checked st _ _ _ _ Hr)| |left; split; [|done]; split; simpl; auto].
    destruct fin; simpl.
    + exists None. split; [|done]. constructor; [lia|by apply Hv].
    + eexists. split; [constructor; [lia|done]|]. exact (conj eq_refl (conj Ho (conj eq_refl Hn))).
  - rewrite judge_data by done. destruct (st.(fragmentedOpcode) =? 0) eqn:E0; simpl; [|left; split; [|done]; split; simpl; auto].
    assert (m = None) as ->. { destruct m as [[mo q]|]; [|done]. destruct Hr as (<- & Ho & _). destruct (data_cases _ Ho); lia. }
    destruct (_ <? _) eqn:El; [left; split; [|done]; split; simpl; auto|]. destruct fin.
    + destruct ((op =? opText) && _) eqn:Et; [left; split; [|done]; split; simpl; auto|]. exists None. split; [|done]. constructor; [done|lia|].
      intros ->. simpl in Et. by apply negb_false_iff in Et.
    + destruct (check_text_more (mkReaderState op p 0) op) with (fin := false) as [(Hp & _ & n & -> & Hn)|[_ ->]]; simpl; try done.
      * unfold data_opcode in Hd. tauto.
      * by intros ->.
      * intros _. split; [lia|done].
      * eexists. split; [constructor; [done|lia|done]|]. exact (conj eq_refl (conj Hd (conj eq_refl Hn))).
      * left. split; [|done]. split; simpl; auto.
  - rewrite judge_control by done. destruct (fin && _) eqn:E; [|left; split; [|done]; split; simpl; auto].
    apply andb_prop in E as [-> E]. exists m. split; [|done]. destruct Hc as [-> | ->]; constructor; lia.
Qed.

(** A decision does not change when more bytes arrive. *)
Lemma ReadFull_more n input a b more : ReadFull n input = Ok (a, b) -> ReadFull n (input ++ more) = Ok (a, b ++ more).
Proof. intros [-> H]%ReadFull_ok. rewrite <- app_assoc. by apply ReadFull_app. Qed.

Lemma ReadFull_err n input r : ReadFull n input = Err r -> r = hangup.
Proof. unfold ReadFull. destruct (_ <=? _)%nat; congruence. Qed.

Lemma check_err b c r : check b c = Err r -> r = close_with c.
Proof. destruct b; [done|]. by intros [= <-]. Qed.

Lemma refuses c r :
  r = close_with c -> c = closeProtocolError \/ c = closeInvalidPayload \/ c = closeMessageTooBig -> refusal r.
Proof. intros -> H. by split. Qed.

(** A header that is refused is refused whatever follows. *)
Definition stands {A} (r : result closeReply (A * list Z)) (r' : list Z -> result closeReply (A * list Z)) : Prop :=
  match r with
  | Ok (x, rest) => forall more, r' more = Ok (x, rest ++ more)
  | Err e => e = hangup \/ refusal e /\ forall more, r' more = Err e
  end.

Lemma stands_read n input : stands (ReadFull n input) (fun more => ReadFull n (input ++ more)).
Proof.
  destruct (ReadFull n input) as [[a b]|e] eqn:E; simpl; [|left; by apply ReadFull_err in E]. intros more. by apply ReadFull_more.
Qed.

Lemma stands_bind {A B} (r : result closeReply (A * list Z)) r' (k : A * list Z -> result closeReply (B * list Z)) :
  stands r r' -> (forall x rest, stands (k (x, rest)) (fun more => k (x, rest ++ more))) ->
  stands (result_bind r k) (fun more => result_bind (r' more) k).
Proof.
  intros Hr Hk. destruct r as [[x rest]|e]; simpl in *.
  - specialize (Hk x rest). destruct (k (x, rest)) as [[y rest']|e]; simpl in *.
    + intros more. rewrite Hr. apply Hk.
    + destruct Hk as [? |[? Hk]]; [auto|]. right. split; [done|]. intros more. rewrite Hr. apply Hk.
  - destruct Hr as [? |[? Hr]]; [auto|]. right. split; [done|]. intros more. by rewrite Hr.
Qed.

Lemma stands_check {A} b c (r : result closeReply (A * list Z)) r' :
  c = closeProtocolError \/ c = closeMessageTooBig -> stands r r' ->
  stands (result_bind (check b c) (fun _ => r)) (fun more => result_bind (check b c) (fun _ => r' more)).
Proof. intros Hc Hr. destruct b; simpl; [done|]. right. split; [|done]. split; [done|]. simpl. tauto. Qed.

Lemma stands_length {A} st op n (r : result closeReply (A * list Z)) r' :
  stands r r' ->
  stands (result_bind (check_length st op n) (fun _ => r)) (fun more => result_bind (check_length st op n) (fun _ => r' more)).
Proof.
  intros Hr. unfold check_length, check. destruct (negb (_ && (maxControlPayload <? n))); simpl; [destruct (negb _); simpl; [done|]|];
    (right; split; [|done]; split; simpl; auto).
Qed.

Lemma stands_ok {A} (x : A) rest : stands (Ok (x, rest)) (fun more => Ok (x, rest ++ more)).
Proof. by intros more. Qed.

Lemma read_header_stands st input : stands (read_header st input) (fun more => read_header st (input ++ more)).
Proof.
  unfold read_header. apply stands_bind; [apply stands_read|]. intros head i. cbv zeta. apply stands_check; [auto|].
  unfold check_opcode. cbv zeta. apply stands_check; [auto|]. apply stands_check; [auto|].
  apply (stands_bind (read_length _ i) (fun more => read_length _ (i ++ more))).
  - unfold read_length. destruct (_ =? 126); [|destruct (_ =? 127)]; [| |apply stands_ok].
    + apply stands_bind; [apply stands_read|]. intros buf j. apply stands_check; [auto|]. apply stands_ok.
    + apply stands_bind; [apply stands_read|]. intros buf j. apply stands_check; [auto|]. apply stands_ok.
  - intros n j. apply stands_length, stands_ok.
Qed.

Lemma read_payload_stands n input : stands (read_payload n input) (fun more => read_payload n (input ++ more)).
Proof.
  unfold read_payload. apply stands_bind; [apply stands_read|]. intros mask i. apply stands_bind; [apply stands_read|]. intros p j. apply stands_ok.
Qed.

(** ** The loop *)

Lemma encode_frame_length f : (2 <= length (encode_frame f))%nat.
Proof. unfold encode_frame. rewrite length_app. simpl. lia. Qed.

(** Enough fuel is enough. *)
Lemma run_loop_fuel fuel fuel' k st input :
  (length input < fuel)%nat -> (length input < fuel')%nat -> Forall is_byte input ->
  run_loop fuel None k st input = run_loop fuel' None k st input.
Proof.
  revert fuel' k st input. induction fuel as [|fuel IH]; intros [|fuel'] k st input H1 H2 Hb; [lia..|]. simpl.
  destruct (read_frame _ _ _ _) as [[[st' evs] rest]|] eqn:E; [|done].
  apply read_decoded in E as (f & _ & -> & _); [|done]. apply Forall_app in Hb as [_ Hb]. rewrite length_app in *.
  pose proof (encode_frame_length f). rewrite (IH fuel'); [done|lia|lia|done].
Qed.

Lemma run_next k st f st' evs rest :
  wf_frame f -> judge None k st f = Ok (st', evs) -> Forall is_byte (encode_frame f ++ rest) ->
  run_from None k st (encode_frame f ++ rest) = let '(more, r) := run_from None (k + deliveries evs) st' rest in (evs ++ more, r).
Proof.
  intros Hf Hj Hb. unfold run_from at 1. cbn [run_loop]. rewrite (read_encoded _ _ _ _ _ Hf), Hj. cbn [result_bind].
  rewrite (run_loop_fuel _ (S (length rest))); [done| |lia|by apply Forall_app in Hb as [_ ?]].
  rewrite length_app. pose proof (encode_frame_length f). lia.
Qed.

(** A sequence of frames of the protocol, with its events. *)
Inductive talk : open_message -> list frame -> list event -> open_message -> Prop :=
| talk_nil m : talk m [] [] m
| talk_cons m f evs m1 fs more m2 :
    wf_frame f -> frame_step m f evs m1 -> talk m1 fs more m2 -> talk m (f :: fs) (evs ++ more) m2.

Definition encode_all (fs : list frame) : list Z := concat (map encode_frame fs).

(** Why the reader stops with [r] at the bytes [tail], a message being open or
    not: they hold no complete frame; or no way to continue them starts with a
    frame that the protocol allows there, and [r] refuses them or echoes the
    close frame they start with. *)
Definition stops (m : open_message) (tail : list Z) (r : closeReply) : Prop :=
  r = hangup /\ (forall f rest, wf_frame f -> tail <> encode_frame f ++ rest) \/
  (forall more f rest evs m', wf_frame f -> tail ++ more = encode_frame f ++ rest -> ~ frame_step m f evs m') /\
  (refusal r \/ exists f rest, wf_frame f /\ tail = encode_frame f ++ rest /\ good_close f r.(cr_code) /\ r.(cr_send) = true).

(** An error of the reader: nothing complete, a refusal that stands, or the
    decision on a frame that is complete. *)
Lemma read_frame_err k st input r :
  Forall is_byte input -> read_frame None k st input = Err r ->
  r = hangup \/ (refusal r /\ forall more, read_frame None k st (input ++ more) = Err r) \/
  exists f rest, wf_frame f /\ input = encode_frame f ++ rest /\ judge None k st f = Err r.
Proof.
  intros Hb. unfold read_frame. pose proof (read_header_stands st input) as Hh.
  destruct (read_header st input) as [[[[fin op] n] i1]|e] eqn:E1; cbn [result_bind] in *; simpl in Hh.
  2:{ intros [= <-]. destruct Hh as [? |[? Hh]]; [auto|]. right. left. split; [done|]. intros more. by rewrite Hh. }
  pose proof (read_payload_stands n i1) as Hp. destruct (read_payload n i1) as [[p i2]|e] eqn:E2; cbn [result_bind] in *; simpl in Hp.
  2:{ intros [= <-]. destruct Hp as [? |[? Hp]]; [auto|]. right. left. split; [done|]. intros more. rewrite Hh. cbn [result_bind]. by rewrite Hp. }
  destruct (read_parsed _ _ _ _ _ _ _ _ None k Hb E1 E2) as (f & Hf & Ei & Hj).
  destruct (handle_frame _ _ _ _ _ _) as [[]|] eqn:E3; cbn [result_bind]; [done|]. intros [= <-]. right. right. eauto.
Qed.

Lemma good_close_echo k st m f c : represents st m -> wf_frame f -> good_close f c -> judge None k st f = Err (close_with c).
Proof.
  intros Hr Hf Hg. pose proof (judged_step k st m f Hr Hf) as H. destruct (judge _ _ _ _) as [[st' evs]|[sd cd]].
  - destruct H as (m' & Hs & _). destruct Hg as (_ & Ho & _). destruct Hs; simpl in Ho; try done; unfold data_opcode, opText, opBinary, opClose in *; lia.
  - destruct H as [[_ H]|[Hg' Hs]]; [by destruct (H c)|]. simpl in *. subst sd. unfold close_with. f_equal. f_equal.
    destruct Hg as (_ & _ & _ & [[E ->]|(Hl & -> & _)]), Hg' as (_ & _ & _ & [[E' ->]|(Hl' & -> & _)]); try done.
    + rewrite E in Hl'. simpl in Hl'. lia.
    + rewrite E' in Hl. simpl in Hl. lia.
Qed.

Lemma read_stops k st m tail r : represents st m -> Forall is_byte tail -> read_frame None k st tail = Err r -> stops m tail r.
Proof.
  intros Hr Hb E.
  assert (forall f rest, wf_frame f -> tail = encode_frame f ++ rest -> judge None k st f = Err r) as Hj.
  { intros f rest Hf ->. rewrite read_encoded in E by done. revert E. destruct (judge _ _ _ _) as [[]|]; simpl; congruence. }
  destruct (read_frame_err _ _ _ _ Hb E) as [-> |[[Href Hm]|(f & rest & Hf & -> & Ej)]].
  - left. split; [done|]. intros f rest Hf Et. pose proof (judged_step k st m f Hr Hf) as H. rewrite (Hj f rest Hf Et) in H.
    by destruct H as [[[? _] _]|[_ ?]].
  - right. split; [|by left]. intros more f rest evs m' Hf Et Hstep. specialize (Hm more).
    rewrite Et, read_encoded in Hm by done. destruct (step_judged k _ _ _ _ _ Hr Hstep) as (st' & E' & _). by rewrite E' in Hm.
  - right. pose proof (judged_step k st m f Hr Hf) as H. rewrite Ej in H. split.
    + intros more f' rest' evs m' Hf' Et Hstep. destruct (step_judged k _ _ _ _ _ Hr Hstep) as (st' & E' & _).
      pose proof (read_encoded None k st f' rest' Hf') as E1. rewrite <- Et, <- app_assoc, (read_encoded None k st f), Ej, E' in E1 by done. done.
    + destruct H as [[? _]|[? ?]]; [by left|]. right. eauto 6.
Qed.

(** ** The theorem *)

Lemma run_talk k st m fs evs m' tail :
  represents st m -> talk m fs evs m' -> Forall is_byte (encode_all fs ++ tail) ->
  exists k' st', represents st' m' /\
    run_from None k st (encode_all fs ++ tail) = let '(more, r) := run_from None k' st' tail in (evs ++ more, r).
Proof.
  intros Hr Ht. revert k st Hr. induction Ht as [m|m f evs m1 fs more m2 Hf Hs _ IH]; intros k st Hr Hb.
  { exists k, st. split; [done|]. simpl. by destruct (run_from _ _ _ _). }
  destruct (step_judged k _ _ _ _ _ Hr Hs) as (st1 & Ej & Hr1). change (encode_all (f :: fs)) with (encode_frame f ++ encode_all fs) in *. rewrite <- app_assoc in *.
  pose proof Hb as [_ Hb']%Forall_app. destruct (IH (k + deliveries evs)%nat st1 Hr1 Hb') as (k' & st' & Hr' & E).
  exists k', st'. split; [done|]. rewrite (run_next k st f st1 evs) by done. rewrite E. destruct (run_from None k' st' tail). by rewrite app_assoc.
Qed.

Lemma run_sound fuel k st m input :
  represents st m -> Forall is_byte input -> (length input < fuel)%nat ->
  exists fs m' tail, input = encode_all fs ++ tail /\ talk m fs (run_loop fuel None k st input).1 m' /\
    stops m' tail (run_loop fuel None k st input).2.
Proof.
  revert k st m input. induction fuel as [|fuel IH]; intros k st m input Hr Hb Hl; [lia|]. simpl.
  destruct (read_frame None k st input) as [[[st' evs] rest]|r] eqn:E.
  2:{ exists [], m, input. split; [done|]. split; [constructor|]. by eapply read_stops. }
  apply read_decoded in E as (f & Hf & -> & Ej); [|done]. pose proof (judged_step k st m f Hr Hf) as H. rewrite Ej in H.
  destruct H as (m1 & Hs & Hr1). apply Forall_app in Hb as [_ Hb]. rewrite length_app in Hl. pose proof (encode_frame_length f).
  destruct (IH (k + deliveries evs)%nat st' m1 rest Hr1 Hb ltac:(lia)) as (fs & m' & tail & -> & Ht & Hst).
  exists (f :: fs), m', tail. split; [change (encode_all (f :: fs)) with (encode_frame f ++ encode_all fs); by rewrite <- app_assoc|].
  destruct (run_loop fuel None _ st' _) as [more r]. simpl in *. split; [by econstructor|done].
Qed.

(** C20: the reader of client frames is exact.  Whatever bytes a client sends,
    they are the encodings of a sequence of frames that RFC 6455 and the
    server's bounds allow, whose pings and data messages are what the reader
    queues and delivers, in that order (fragments joined, masks removed, texts
    valid UTF-8, messages of at most 64 KiB), followed by bytes at which the
    reader stops for a reason: they hold no complete frame (the transport
    failed, and nothing is sent), or no way of continuing them is allowed and
    the reader answers 1002, 1007 or 1009 or echoes a proper close frame.
    Conversely, frames that are allowed are never refused, however their text
    is cut: the events of every allowed sequence that the bytes start with are
    delivered first, and a proper close frame after it is echoed. *)
Theorem frame_reader_exact input :
  Forall is_byte input ->
  (exists fs m tail, input = encode_all fs ++ tail /\ talk None fs (frameReader_run None input).1 m /\
     stops m tail (frameReader_run None input).2) /\
  (forall fs evs m tail, input = encode_all fs ++ tail -> talk None fs evs m ->
     exists more, (frameReader_run None input).1 = evs ++ more /\
     forall f c rest, tail = encode_frame f ++ rest -> wf_frame f -> good_close f c ->
       frameReader_run None input = (evs, close_with c)).
Proof.
  intros Hb. split; [apply (run_sound _ 0 reader_start None); [done|done|lia]|].
  intros fs evs m tail -> Ht. destruct (run_talk 0 reader_start None fs evs m tail eq_refl Ht Hb) as (k & st & Hr & E).
  unfold frameReader_run. rewrite E. destruct (run_from None k st tail) as [more r] eqn:Er. exists more. split; [done|].
  intros f c rest -> Hf Hg. unfold run_from in Er. cbn [run_loop] in Er. rewrite read_encoded, (good_close_echo k st m f c) in Er by done.
  simpl in Er. injection Er as <- <-. by rewrite app_nil_r.
Qed.

(** ** What is written is read *)

Lemma client_read_app n a b : length a = n -> client_read n (a ++ b) = Ok (a, b).
Proof.
  intros <-. unfold client_read. rewrite length_app. replace (_ <=? _)%nat with true by lia. by rewrite take_app_length, drop_app_length.
Qed.

Definition opcode_of (o : outframe) : Z := match o with OText _ => opText | OPing => opPing | OPong _ => opPong | OClose _ => opClose end.
Definition payload_of (o : outframe) : list Z :=
  match o with OText p => p | OPing => [] | OPong p => p | OClose code => if code =? 0 then [] else put_be 2 code end.

Lemma write_out_frame o : write_out o = writeFrame (opcode_of o) (payload_of o).
Proof. destruct o as [p| |p|code]; try done. simpl. unfold writeCloseFrame. by destruct (code =? 0). Qed.

Lemma outframe_opcodes o : 0 <= opcode_of o < 16 /\ (opClose <= opcode_of o \/ opcode_of o = opText).
Proof. destruct o; unfold opcode_of, opText, opPing, opPong, opClose; lia. Qed.

Lemma lor_high op : 0 <= op < 128 -> Z.lor 0x80 op = 0x80 + op.
Proof.
  intros H. assert (forallb (fun op => Z.lor 0x80 op =? 0x80 + op) (seqZ 0 128) = true) as Ha by (vm_compute; reflexivity).
  rewrite forallb_forall in Ha. apply Z.eqb_eq, Ha, list_elem_of_In, elem_of_seqZ. lia.
Qed.

Lemma low_byte l : 0 <= l < 128 -> Z.land l 0x7F = l /\ Z.land l 0x80 = 0.
Proof.
  intros Hl. pose proof (byte_cases (fun b => (0x80 <=? b) || ((Z.land b 0x7f =? b) && (Z.land b 0x80 =? 0)))
    ltac:(vm_compute; reflexivity) l ltac:(unfold is_byte; lia)) as H. cbv beta in H.
  apply orb_true_iff in H as [H|[H1 H2]%andb_prop]; lia.
Qed.

Lemma writeFrame_bytes opcode payload :
  writeFrame opcode payload =
    if (opClose <=? opcode) && (maxControlPayload <? blength payload) then Err control_payload_too_large
    else Ok ([Z.lor 0x80 opcode; length7 (blength payload)] ++ length_bytes (blength payload) ++ payload).
Proof. unfold writeFrame, length7, length_bytes. cbv zeta. by repeat case_match. Qed.

(** The server's frames end where they end: the client reads back opcode and
    payload and leaves the rest. *)
Lemma client_reads_frame opcode payload bytes rest :
  0 <= opcode < 16 -> writeFrame opcode payload = Ok bytes -> blength payload <= maxSyncFrame ->
  readFrame (bytes ++ rest) = Ok (opcode, payload, rest).
Proof.
  intros Hop. rewrite writeFrame_bytes. destruct (_ && _); [done|]. intros [= <-] Hl. rewrite lor_high by lia.
  set (n := blength payload) in *. assert (0 <= n) by (unfold n, blength; lia). change maxSyncFrame with 4194304 in Hl.
  change ((0x80 + opcode :: length7 n :: length_bytes n ++ payload) ++ rest) with
    ([0x80 + opcode; length7 n] ++ ((length_bytes n ++ payload) ++ rest)). rewrite <- app_assoc.
  unfold readFrame. rewrite (client_read_app 2) by done. cbn [result_bind]. cbv zeta. simpl nth.
  destruct (first_byte true opcode Hop) as (Eo & _ & Ef). rewrite Eo. apply negb_true_iff in Ef. rewrite Ef.
  destruct (low_byte _ (length7_bound n ltac:(lia))) as [-> ->].
  match goal with |- result_bind ?r _ = _ => replace r with (Ok (n, payload ++ rest) : result client_error (Z * list Z)) end.
  - cbn [result_bind]. change (0 =? 0) with true. replace (maxSyncFrame <? n) with false by (change maxSyncFrame with 4194304; lia). cbn [negb orb].
    unfold n, blength. rewrite Nat2Z.id, (client_read_app (length payload)) by done. done.
  - unfold length7, length_bytes. destruct (n <=? 125) eqn:E1; [by replace (n =? 126) with false by lia; replace (n =? 127) with false by lia|].
    destruct (n <=? 65535) eqn:E2.
    + change (126 =? 126) with true. cbv iota. rewrite (client_read_app 2 (put_be 2 n)) by apply put_be_length. cbn [result_bind].
      by rewrite (be_put 2 n) by (split; [lia|]; change (256 ^ Z.of_nat 2) with 65536; lia).
    + change (127 =? 126) with false. change (127 =? 127) with true. cbv iota.
      rewrite (client_read_app 8 (put_be 8 n)) by apply put_be_length. cbn [result_bind].
      by rewrite (be_put 8 n) by (split; [lia|]; change (256 ^ Z.of_nat 8) with (2 ^ 64); lia).
Qed.

Lemma server_reads_frame mask opcode payload bytes :
  client_writeFrame mask opcode payload = Ok bytes -> 0 <= opcode < 16 -> length mask = 4%nat ->
  bytes = encode_frame (mkFrame true opcode mask payload) /\ wf_frame (mkFrame true opcode mask payload).
Proof.
  unfold client_writeFrame. destruct (125 <? blength payload) eqn:E; [done|]. intros [= <-] Hop Hm.
  assert (0 <= blength payload) by (unfold blength; lia). rewrite !lor_high by lia. split.
  - unfold encode_frame, length7, length_bytes. simpl. by replace (blength payload <=? 125) with true by lia.
  - unfold wf_frame. simpl. lia.
Qed.

Definition server_ping : list Z := [0x89; 0].

(** The pongs with which the client answers [n] pings. *)
Definition pong_frames (masks : nat -> list Z) (i n : nat) : list frame := map (fun j => mkFrame true opPong (masks j) []) (seq i n).

Lemma pong_written mask : client_writeFrame mask opPong [] = Ok (encode_frame (mkFrame true opPong mask [])).
Proof. done. Qed.

Lemma next_past_pings fuel masks i n p text rest :
  (n < fuel)%nat -> blength p <= maxSyncFrame -> write_out (OText p) = Ok text ->
  next_loop fuel masks i (concat (replicate n server_ping) ++ text ++ rest) = (Ok (p, rest), encode_all (pong_frames masks i n)).
Proof.
  intros Hf Hl Hw. revert fuel i Hf. induction n as [|n IH]; intros [|fuel] i Hf; [lia| |lia|].
  - cbn [next_loop replicate concat app]. rewrite (client_reads_frame opText p text rest) by done. done.
  - cbn [next_loop replicate concat]. rewrite <- app_assoc. rewrite (client_reads_frame opPing [] server_ping) by done.
    change ((opPing =? 1) || (opPing =? 2)) with false. change (opPing =? 9) with true. cbv iota.
    change 10 with opPong. rewrite pong_written, IH by lia. done.
Qed.

Lemma pongs_read k st m masks i n tail :
  represents st m -> (forall j, length (masks j) = 4%nat /\ Forall is_byte (masks j)) -> Forall is_byte tail ->
  Forall is_byte (encode_all (pong_frames masks i n) ++ tail) /\
  run_from None k st (encode_all (pong_frames masks i n) ++ tail) = run_from None k st tail.
Proof.
  intros Hr Hm Hb. revert i. induction n as [|n IH]; intros i; [done|].
  change (pong_frames masks i (S n)) with (mkFrame true opPong (masks i) [] :: pong_frames masks (S i) n).
  set (f := mkFrame true opPong (masks i) []).
  change (encode_all (f :: pong_frames masks (S i) n)) with (encode_frame f ++ encode_all (pong_frames masks (S i) n)).
  destruct (IH (S i)) as [Hb' E]. rewrite <- app_assoc.
  assert (Forall is_byte (encode_frame f ++ encode_all (pong_frames masks (S i) n) ++ tail)) as Hall.
  { apply Forall_app. split; [|done]. change (encode_frame f) with ([0x8A; 0x80] ++ masks i ++ []). rewrite app_nil_r.
    apply Forall_app. split; [repeat (apply Forall_cons; split; [unfold is_byte; lia|]); done|apply Hm]. }
  split; [done|]. rewrite (run_next k st f st [] _); [| |by unfold f; rewrite judge_control by auto|done].
  - simpl deliveries. rewrite Nat.add_0_r, E. by destruct (run_from _ _ _ _).
  - split; [simpl; unfold opPong; lia|]. split; [apply Hm|]. unfold blength. simpl. lia.
Qed.

(** What one side writes the other reads.  The load tool's client reads
    back opcode and payload of every frame that the server writes, up to its
    limit of 4 MiB, and leaves the bytes behind the frame alone; before a text
    message it skips any number of pings, answering each, and the server's
    reader, in whatever state, takes those answers (with any masks) without
    an event and goes on with what follows. *)
Theorem frames_round_trip :
  (forall o bytes rest, write_out o = Ok bytes -> blength (payload_of o) <= maxSyncFrame ->
     readFrame (bytes ++ rest) = Ok (opcode_of o, payload_of o, rest)) /\
  (forall masks n p text rest, blength p <= maxSyncFrame -> write_out (OText p) = Ok text ->
     exists pongs, next masks (concat (replicate n server_ping) ++ text ++ rest) = (Ok (p, rest), pongs) /\
     ((forall j, length (masks j) = 4%nat /\ Forall is_byte (masks j)) ->
      forall k st m tail, represents st m -> Forall is_byte tail -> run_from None k st (pongs ++ tail) = run_from None k st tail)) /\
  writePingFrame = Ok server_ping.
Proof.
  split; [|split; [|done]].
  - intros o bytes rest Hw Hl. rewrite write_out_frame in Hw. eapply client_reads_frame; [apply outframe_opcodes|done|done].
  - intros masks n p text rest Hl Hw. exists (encode_all (pong_frames masks 0 n)). split.
    + apply next_past_pings; [|done|done]. rewrite length_app.
      assert (n <= length (concat (replicate n server_ping)))%nat; [|lia]. clear. induction n; simpl; lia.
    + intros Hm k st m tail Hr Hb. by apply (pongs_read k st m).
Qed.

(** ** A connection *)

Definition pongs_of (os : list outframe) : list (list Z) := omap (fun o => match o with OPong p => Some p | _ => None end) os.
Definition texts_of (os : list outframe) : list (list Z) := omap (fun o => match o with OText p => Some p | _ => None end) os.
Definition pings_of (evs : list event) : list (list Z) := omap (fun e => match e with EPing p => Some p | _ => None end) evs.
Definition closes (o : outframe) : bool := match o with OClose _ => true | _ => false end.

(** What holds at every point of a connection. *)
Record orderly (input : list Z) (c : conn) : Prop := {
  or_events : c.(c_read) ++ c.(c_todo) = (frameReader_run None input).1 /\ c.(c_reply) = (frameReader_run None input).2;
  or_pongs : sublist (pongs_of c.(c_sent) ++ c.(c_pongs)) (pings_of c.(c_read));
  or_queue : Z.of_nat (length c.(c_pongs)) <= maxQueuedPongs;
  or_texts : c.(c_taken) = texts_of c.(c_sent) \/ c.(c_phase) = Returned /\ exists p, c.(c_taken) = texts_of c.(c_sent) ++ [p];
  or_close : forall i code, c.(c_sent) !! i = Some (OClose code) ->
    c.(c_phase) = Returned /\ S i = length c.(c_sent) /\
    (code = closeGoingAway \/ code = closePolicyViolation \/ c.(c_todo) = [] /\ c.(c_reply) = close_with code) }.

(** A ping that the reader took fits a pong. *)
Lemma talk_pings m fs evs m' p : talk m fs evs m' -> EPing p ∈ evs -> blength p <= maxControlPayload.
Proof.
  induction 1 as [m|m f evs m1 fs more m2 _ Hs _ IH]; [by intros ?%not_elem_of_nil|]. rewrite elem_of_app. intros [Hp|Hp]; [|by apply IH].
  destruct Hs; rewrite ?list_elem_of_singleton in Hp; try (by apply not_elem_of_nil in Hp); try done. by injection Hp as <-.
Qed.

(** The control frames of the loop are short enough to be written. *)
Lemma written o : (forall p, o = OPong p -> blength p <= maxControlPayload) -> exists bytes, write_out o = Ok bytes.
Proof.
  intros H. rewrite write_out_frame, writeFrame_bytes. replace (_ && _) with false; [eauto|].
  destruct o as [p| |p|code]; simpl; [done|done| |].
  - specialize (H p eq_refl). unfold blength in *. lia.
  - by destruct (code =? 0).
Qed.

Lemma pongs_of_app a b : pongs_of (a ++ b) = pongs_of a ++ pongs_of b.
Proof. apply omap_app. Qed.
Lemma texts_of_app a b : texts_of (a ++ b) = texts_of a ++ texts_of b.
Proof. apply omap_app. Qed.
Lemma pings_of_app a b : pings_of (a ++ b) = pings_of a ++ pings_of b.
Proof. apply omap_app. Qed.

Lemma sublist_drop_mid {A} (a b : list A) x l : sublist (a ++ x :: b) l -> sublist (a ++ b) l.
Proof. intros H. etransitivity; [|exact H]. apply sublist_app; [done|]. by apply sublist_cons. Qed.

(** A write while the loop is running. *)
Lemma orderly_write input sent next o c pongs taken :
  orderly input c -> c.(c_phase) <> Returned ->
  (forall p, o <> OPong p) /\ pongs = c.(c_pongs) \/ (exists p, o = OPong p /\ c.(c_pongs) = p :: pongs) ->
  (forall p, o <> OText p) /\ taken = c.(c_taken) \/ (exists p, o = OText p /\ taken = c.(c_taken) ++ [p]) ->
  (forall code, o = OClose code -> next = Returned /\
    (code = closeGoingAway \/ code = closePolicyViolation \/ c.(c_todo) = [] /\ c.(c_reply) = close_with code)) ->
  orderly input (conn_write sent next o (mkConn c.(c_phase) pongs c.(c_todo) c.(c_reply) c.(c_sent) taken c.(c_read))).
Proof.
  intros [He Hp Hq Ht Hc] Hrun Ho Hx Hcl.
  assert (forall i code, c.(c_sent) !! i <> Some (OClose code)) as Hnone by (intros i code Hi; by destruct (Hc i code Hi) as [? _]).
  destruct Ht as [Ht|[? _]]; [|done].
  assert (Z.of_nat (length pongs) <= maxQueuedPongs) as Hq'.
  { destruct Ho as [[_ ->]|(p & _ & E)]; [done|]. rewrite E, length_cons in Hq. lia. }
  assert (orderly input (mkConn Returned pongs c.(c_todo) c.(c_reply) c.(c_sent) taken c.(c_read))) as Hret.
  { split; simpl; [done| |done| |by intros i code Hi%Hnone].
    - destruct Ho as [[_ ->]|(p & _ & E)]; [done|]. rewrite E in Hp. by apply sublist_drop_mid in Hp.
    - destruct Hx as [[_ ->]|(p & _ & ->)]; [auto|]. right. split; [done|]. exists p. by rewrite Ht. }
  unfold conn_write. destruct (write_out o); [|done]. destruct sent; [|done]. clear Hret. split; simpl; [done| |done| |].
  - rewrite pongs_of_app. destruct Ho as [[Hn ->]|(p & -> & E)].
    + destruct o; simpl; rewrite ?app_nil_r; try done. by destruct (Hn payload).
    + simpl. rewrite <- app_assoc. by rewrite E in Hp.
  - left. rewrite texts_of_app. destruct Hx as [[Hn ->]|(p & -> & ->)]; [|simpl; by rewrite Ht].
    destruct o; simpl; rewrite ?app_nil_r; try done. by destruct (Hn payload).
  - intros i code Hi. rewrite lookup_app in Hi. destruct (c_sent c !! i) as [y|] eqn:Ey; [injection Hi as ->; by apply Hnone in Ey|].
    apply list_lookup_singleton_Some in Hi as [Hi ->]. destruct (Hcl code eq_refl) as [-> Hcode]. rewrite length_app. simpl.
    apply lookup_ge_None_1 in Ey. repeat split; [lia|done].
Qed.

(** The same connection with another phase, while it runs. *)
Lemma orderly_phase input c ph : orderly input c -> c.(c_phase) <> Returned ->
  orderly input (mkConn ph c.(c_pongs) c.(c_todo) c.(c_reply) c.(c_sent) c.(c_taken) c.(c_read)).
Proof.
  intros [He Hp Hq Ht Hc] Hrun. split; simpl; [done..| |].
  - destruct Ht as [? |[? _]]; [by left|done].
  - intros i code Hi. by destruct (Hc i code Hi) as [? _].
Qed.

Lemma conn_eta c : mkConn c.(c_phase) c.(c_pongs) c.(c_todo) c.(c_reply) c.(c_sent) c.(c_taken) c.(c_read) = c.
Proof. by destruct c. Qed.

Lemma orderly_flush input n pongs c :
  orderly input c -> c.(c_phase) <> Returned -> c.(c_pongs) = pongs ->
  orderly input (flushPongs n pongs c) /\ (flushPongs n pongs c).(c_todo) = c.(c_todo) /\ (flushPongs n pongs c).(c_reply) = c.(c_reply).
Proof.
  revert n c. induction pongs as [|p rest IH]; intros n c Ho Hrun Hp; simpl.
  - rewrite <- Hp, conn_eta. done.
  - set (c' := conn_write _ _ _ _). assert (orderly input c' /\ c'.(c_todo) = c.(c_todo) /\ c'.(c_reply) = c.(c_reply) /\
      (c'.(c_phase) <> Returned -> c'.(c_pongs) = rest)) as (Ho' & E1 & E2 & E3).
    { split; [apply orderly_write; [done|done|right; eauto|by left|done]|].
      unfold c', conn_write. destruct (write_out _); [|done]. by destruct (0 <? _). }
    destruct (c_phase c') eqn:Ec; [| |done]; (destruct (IH (Nat.pred n) c' Ho') as (H1 & H2 & H3); [by rewrite Ec|by apply E3|]);
      rewrite H2, H3; done.
Qed.

Lemma orderly_step input c c' : orderly input c -> conn_step c c' -> orderly input c'.
Proof.
  intros Ho Hs. destruct Hs as [sent c Hph|c Hph|sent p c Hph|sent c Hph|sent c Hph|sent p rest c Hph Hp|sent c Hph|n sent c c' Hph Htd Ec'|sent c Hph
    |p rest c Htd Hq|p rest old pongs c Htd Hp|op p rest c Htd].
  all: try (assert (c.(c_phase) <> Returned) as Hrun by by rewrite Hph).
  1,4,5,7,9: rewrite <- (conn_eta c) at 1; apply orderly_write; auto; try (by left); intros code [= <-]; auto.
  - by apply orderly_phase.
  - apply orderly_write; [done|done|by left|right; eauto|done].
  - apply orderly_write; [done|done|right; eauto|by left|done].
  - destruct (orderly_flush input n c.(c_pongs) c Ho Hrun eq_refl) as (H1 & H2 & H3). rewrite <- Ec' in *.
    destruct (c_phase c') eqn:Ep; [| |done];
      (assert (c'.(c_phase) <> Returned) as Hrun' by by rewrite Ep);
      (destruct (c_reply c) as [[] code] eqn:Er; simpl;
        [rewrite <- (conn_eta c'); apply orderly_write; auto; try (by left); intros code' [= <-]; split; [done|]; right; right; unfold close_with; split; congruence
        |by apply orderly_phase]).
  - destruct Ho as [He Hp Hq' Ht Hc]. split; simpl; [|by rewrite pings_of_app, app_assoc; apply sublist_app|rewrite length_app; simpl; lia|done|].
    + split; [|apply He]. rewrite <- app_assoc. simpl. rewrite <- Htd. apply He.
    + intros i code Hi. destruct (Hc i code Hi) as (? & ? & [? |[? |[? _]]]); [auto|auto|congruence].
  - destruct Ho as [He Hp' Hq' Ht Hc]. rewrite Hp in *. split; simpl; [done|by apply sublist_drop_mid in Hp'| |done|done]. rewrite length_cons in Hq'. lia.
  - destruct Ho as [He Hp Hq' Ht Hc]. split; simpl; [|rewrite pings_of_app; simpl; by rewrite app_nil_r|done|done|].
    + split; [|apply He]. rewrite <- app_assoc. simpl. rewrite <- Htd. apply He.
    + intros i code Hi. destruct (Hc i code Hi) as (? & ? & [? |[? |[? _]]]); [auto|auto|congruence].
Qed.

(** A connection is served in order.  Whatever the peer sends and however
    the reader, the timers, the hub and the writer interleave, transport
    failures included: the texts written are the payloads taken from the hub,
    in order, each once (a last one may be lost when its write fails); the
    pongs written and queued answer pings that were read, in the order they
    were read and each at most once; never more than sixteen are queued; every
    frame can be written; and a close frame is written at most once, as the
    last frame, with 1001 or 1008 or, when the reader is through, with the
    reader's reply. *)
Theorem connection_orderly input c :
  Forall is_byte input -> rtc conn_step (conn_start input) c ->
  orderly input c /\ forall o, o ∈ c.(c_sent) ++ map OPong c.(c_pongs) -> exists bytes, write_out o = Ok bytes.
Proof.
  intros Hb Hs. assert (orderly input c) as Ho.
  { assert (orderly input (conn_start input)) as H0.
    { split; simpl; [done|constructor|unfold maxQueuedPongs; lia|by left|done]. }
    clear Hb. remember (conn_start input) as c0. clear Heqc0. induction Hs; eauto using orderly_step. }
  split; [done|]. intros o Hin. apply written. intros p ->.
  destruct (run_sound (S (length input)) 0 reader_start None input eq_refl Hb ltac:(lia)) as (fs & m & tail & _ & Ht & _).
  eapply talk_pings; [exact Ht|]. destruct Ho as [[He _] Hp _ _ _]. change (run_loop _ _ _ _ _) with (frameReader_run None input).
  rewrite <- He. apply elem_of_app. left. assert (p ∈ pings_of c.(c_read)) as Hpin.
  { eapply elem_of_submseteq; [|by apply sublist_submseteq]. apply elem_of_app. apply elem_of_app in Hin as [Hin|Hin].
    - left. apply list_elem_of_omap. by exists (OPong p).
    - right. apply list_elem_of_In, in_map_iff in Hin as (q & [= ->] & Hq). by apply list_elem_of_In. }
  apply list_elem_of_omap in Hpin as ([q|] & Hq & E); [|done]. by injection E as ->.
Qed.

(** ** A concrete exchange *)

(** A ping, a text cut inside a character, and a close frame with 1000. *)
Definition ex_mask : list Z := [1; 2; 3; 4].
Definition ex_frames : list frame :=
  [mkFrame true opPing ex_mask [0x68; 0x69]; mkFrame false opText ex_mask [0x61; 0xE2; 0x82]; mkFrame true opContinuation ex_mask [0xAC]].
Definition ex_bytes : list Z := encode_all ex_frames ++ encode_frame (mkFrame true opClose ex_mask [0x03; 0xE8]).

Definition byteb (b : Z) : bool := (0 <=? b) && (b <? 256).
Lemma bytes_by l : forallb byteb l = true -> Forall is_byte l.
Proof. rewrite forallb_forall, Forall_forall. intros H b Hb. specialize (H b ltac:(by apply list_elem_of_In)). unfold byteb, is_byte in *. lia. Qed.

Lemma frame_reader_exact_witness :
  frameReader_run None ex_bytes = ([EPing [0x68; 0x69]; EMessage opText [0x61; 0xE2; 0x82; 0xAC]], close_with 1000) /\
  exists fs m tail, ex_bytes = encode_all fs ++ tail /\ talk None fs (frameReader_run None ex_bytes).1 m /\ stops m tail (frameReader_run None ex_bytes).2.
Proof.
  split; [vm_compute; reflexivity|].
  exact (proj1 (frame_reader_exact ex_bytes (bytes_by ex_bytes ltac:(vm_compute; reflexivity)))).
Defined.

(** The ping is queued and answered while a text is sent. *)
Definition ex_conn : conn :=
  mkConn AtPing [] [EMessage opText [0x61; 0xE2; 0x82; 0xAC]] (close_with 1000) [OText [0x78]; OPong [0x68; 0x69]] [[0x78]] [EPing [0x68; 0x69]].

Lemma ex_conn_reached : rtc conn_step (conn_start ex_bytes) ex_conn.
Proof.
  replace (conn_start ex_bytes) with (mkConn AtPing [] [EPing [0x68; 0x69]; EMessage opText [0x61; 0xE2; 0x82; 0xAC]] (close_with 1000) [] [] [])
    by (vm_compute; reflexivity).
  eapply rtc_l; [by eapply cs_no_ping|]. eapply rtc_l; [by eapply cs_queue|].
  eapply rtc_l; [by apply (cs_outbound true [0x78])|]. eapply rtc_l; [by eapply cs_no_ping|].
  apply rtc_once. by eapply (cs_pong true [0x68; 0x69] []).
Qed.

Lemma connection_orderly_witness : orderly ex_bytes ex_conn.
Proof. exact (proj1 (connection_orderly ex_bytes ex_conn (bytes_by ex_bytes ltac:(vm_compute; reflexivity)) ex_conn_reached)). Defined.

Lemma frames_round_trip_witness :
  readFrame (0x81 :: 3 :: [0x61; 0x62; 0x63] ++ [0x89; 0]) = Ok (opText, [0x61; 0x62; 0x63], [0x89; 0]) /\
  exists pongs, next (fun _ => ex_mask) (concat (replicate 2 server_ping) ++ [0x81; 1; 0x78] ++ []) = (Ok ([0x78], []), pongs).
Proof.
  split.
  - exact (proj1 frames_round_trip (OText [0x61; 0x62; 0x63]) [0x81; 3; 0x61; 0x62; 0x63] [0x89; 0] eq_refl ltac:(vm_compute; discriminate)).
  - destruct (proj1 (proj2 frames_round_trip) (fun _ => ex_mask) 2%nat [0x78] [0x81; 1; 0x78] [] ltac:(vm_compute; discriminate) eq_refl)
      as (pongs & E & _). exists pongs. exact E.
Defined.
