(* ===== verification/Franking.v ===== *)
(** * Message-franking commitments

    Models [server/internal/franking/franking.go].  HMAC-SHA256 is a
    parameter; what the server adds to it, and what is proved here, is the
    framing of the committed context: no two inputs that [Commit] accepts
    feed the same bytes to the MAC. *)

From S2P Require Import Prelude MlsWire.
From stdpp Require Import base numbers list.
From Stdlib Require Import ZArith ZifyBool Lia.
Open Scope Z_scope.

Definition KeySize : Z := 32.
Definition CommitSize : Z := 32.
Definition MaxIDSize : Z := 128.
Definition MaxPayloadSize : Z := 64 * 1024.

(** ["veritra-frank-v1"] as bytes. *)
Definition label : list Z :=
  [118; 101; 114; 105; 116; 114; 97; 45; 102; 114; 97; 110; 107; 45; 118; 49].

Inductive franking_error := ErrKeySize | ErrInvalidInput.

Record Context := mkContext {
  ConversationID : list Z;
  SenderDeviceID : list Z;
  ActionID : list Z }.

(** [binary.BigEndian.PutUint32(n[:], uint32(v))]. *)
Definition put_uint32 (v : Z) : list Z :=
  let v := v mod 2 ^ 32 in
  [Z.shiftr v 24 mod 256; Z.shiftr v 16 mod 256; Z.shiftr v 8 mod 256; v mod 256].

Definition frame (f : list Z) : list Z := put_uint32 (len f) ++ f.

(** Everything [Commit] writes to the MAC, in order. *)
Definition transcript (ctx : Context) (payload : list Z) : list Z :=
  label ++ concat (map frame [ConversationID ctx; SenderDeviceID ctx; ActionID ctx; payload]).

(** The loop over the three identifiers. *)
Definition ids_in_bounds (ctx : Context) : bool :=
  forallb (fun id => negb ((len id =? 0) || (MaxIDSize <? len id)))
    [ConversationID ctx; SenderDeviceID ctx; ActionID ctx].

Section franking.
(** [hmac.New(sha256.New, kf)] written to and summed; [hmac.Equal]. *)
Context (hmac_sha256 : list Z -> list Z -> list Z).

Definition Commit (kf : list Z) (ctx : Context) (payload : list Z)
  : result franking_error (list Z) :=
  if negb (len kf =? KeySize) then Err ErrKeySize else
  if negb (ids_in_bounds ctx) then Err ErrInvalidInput else
  if (len payload =? 0) || (MaxPayloadSize <? len payload) then Err ErrInvalidInput else
  Ok (hmac_sha256 kf (transcript ctx payload)).

Definition Verify (commit kf : list Z) (ctx : Context) (payload : list Z) : bool :=
  match Commit kf ctx payload with
  | Err _ => false
  | Ok want => if negb (len commit =? CommitSize) then false else bool_decide (commit = want)
  end.

End franking.

(** ** Framing *)

Lemma put_uint32_inj n m :
  0 <= n < 2 ^ 32 -> 0 <= m < 2 ^ 32 -> put_uint32 n = put_uint32 m -> n = m.
Proof.
  intros Hn Hm. unfold put_uint32. rewrite !(Z.mod_small _ (2 ^ 32)) by done.
  rewrite !Z.shiftr_div_pow2 by lia. intros Heq. simplify_eq. dm_lia.
Qed.

Lemma frame_inj f1 f2 d1 d2 :
  len f1 < 2 ^ 32 -> len f2 < 2 ^ 32 ->
  frame f1 ++ d1 = frame f2 ++ d2 -> f1 = f2 /\ d1 = d2.
Proof.
  intros H1 H2. unfold frame. rewrite <- !app_assoc. intros Heq.
  apply app_inj_1 in Heq as [Hn Heq]; [|done].
  apply put_uint32_inj in Hn; [|split; [apply len_nonneg|done]..].
  apply app_inj_1 in Heq; [done|]. unfold len in Hn. lia.
Qed.

Lemma ids_in_bounds_spec ctx :
  ids_in_bounds ctx = true ->
  len (ConversationID ctx) <= 128 /\ len (SenderDeviceID ctx) <= 128 /\ len (ActionID ctx) <= 128.
Proof. unfold ids_in_bounds, MaxIDSize; simpl. lia. Qed.

Lemma transcript_inj c1 c2 p1 p2 :
  ids_in_bounds c1 = true -> ids_in_bounds c2 = true ->
  len p1 < 2 ^ 32 -> len p2 < 2 ^ 32 ->
  transcript c1 p1 = transcript c2 p2 -> c1 = c2 /\ p1 = p2.
Proof.
  intros (?&?&?)%ids_in_bounds_spec (?&?&?)%ids_in_bounds_spec Hp1 Hp2.
  unfold transcript. intros Heq. apply (inj (app label)) in Heq. simpl in Heq.
  apply frame_inj in Heq as [Hc Heq]; [|lia..].
  apply frame_inj in Heq as [Hs Heq]; [|lia..].
  apply frame_inj in Heq as [Ha Heq]; [|lia..].
  apply frame_inj in Heq as [Hp _]; [|lia..].
  split; [|done]. destruct c1, c2; simpl in *; congruence.
Qed.

Lemma Commit_Ok_inv hmac kf ctx p c :
  Commit hmac kf ctx p = Ok c ->
  len kf = 32 /\ ids_in_bounds ctx = true /\ 0 < len p <= MaxPayloadSize /\
  c = hmac kf (transcript ctx p).
Proof.
  pose proof (len_nonneg p). unfold Commit, KeySize. intros Hc. ok_cases Hc. bool_to_prop.
  split_and!; try done; lia.
Qed.

Lemma Verify_true_Commit hmac commit kf ctx p :
  Verify hmac commit kf ctx p = true -> Commit hmac kf ctx p = Ok commit.
Proof.
  unfold Verify. destruct (Commit hmac kf ctx p); [|done].
  intros Hv. ok_cases Hv. bool_to_prop. congruence.
Qed.

(** C30: a commitment binds its context and payload.  A commitment that
    verifies under one key for two different contexts or payloads is a
    collision of the MAC on two different transcripts: the framing itself
    never maps two inputs to the same bytes. *)
Theorem Verify_binding (hmac : list Z -> list Z -> list Z) commit kf c1 p1 c2 p2 :
  Verify hmac commit kf c1 p1 = true -> Verify hmac commit kf c2 p2 = true ->
  (c1 = c2 /\ p1 = p2) \/
  (transcript c1 p1 <> transcript c2 p2 /\
   hmac kf (transcript c1 p1) = hmac kf (transcript c2 p2)).
Proof.
  intros H1%Verify_true_Commit H2%Verify_true_Commit.
  apply Commit_Ok_inv in H1 as (_ & Hc1 & Hp1 & ->).
  apply Commit_Ok_inv in H2 as (_ & Hc2 & Hp2 & Heq). unfold MaxPayloadSize in *.
  destruct (decide (transcript c1 p1 = transcript c2 p2)) as [Ht|]; [left|by right].
  apply transcript_inj in Ht; (done || lia).
Qed.

(** A stand-in MAC for examples: 32 bytes derived from the message sum. *)
Definition toy_mac (k m : list Z) : list Z :=
  repeat (foldr Z.add 0 m mod 256) 32.

Definition toy_context : Context := mkContext [99] [100] [97].

(** C2 at a concrete commitment; the second disjunct is the toy MAC's. *)
Lemma Verify_binding_witness :
  let c := toy_mac (repeat 0 32) (transcript toy_context [1; 2]) in
  Verify toy_mac c (repeat 0 32) toy_context [1; 2] = true /\
  Verify toy_mac c (repeat 0 32) toy_context [2; 1] = true /\
  ((toy_context = toy_context /\ [1; 2] = [2; 1]) \/
   (transcript toy_context [1; 2] <> transcript toy_context [2; 1] /\
    toy_mac (repeat 0 32) (transcript toy_context [1; 2]) =
    toy_mac (repeat 0 32) (transcript toy_context [2; 1]))).
Proof.
  intros c. split; [vm_compute; reflexivity|]. split; [vm_compute; reflexivity|].
  apply (Verify_binding toy_mac c (repeat 0 32) toy_context [1; 2] toy_context [2; 1]);
    vm_compute; reflexivity.
Defined.

(** Given the MAC's 32-byte output, verification accepts exactly the
    commitment that [Commit] computes for the revealed values. *)
Lemma Verify_iff_Commit (hmac : list Z -> list Z -> list Z) commit kf ctx p :
  (forall k m, len (hmac k m) = CommitSize) ->
  Verify hmac commit kf ctx p = true <-> Commit hmac kf ctx p = Ok commit.
Proof.
  intros Hsize. split; [apply Verify_true_Commit|].
  intros Hc. unfold Verify. rewrite Hc. apply Commit_Ok_inv in Hc as (_ & _ & _ & ->).
  rewrite Hsize. by rewrite bool_decide_true.
Qed.
