(* ===== verification/TypingLimiter.v ===== *)
(** * The typing-signal limiter

    Models [server/internal/httpapi/typing_limiter.go]: at most one typing
    update per account/conversation pair per interval, kept in two time
    generations so that expiry is a rotation and not a sweep.  The
    specification is the plain limiter the generations replace, one
    timestamp per pair kept forever. *)

From S2P Require Import Prelude.
From stdpp Require Import base numbers list strings gmap.
From Stdlib Require Import ZArith ZifyBool Lia.
Open Scope Z_scope.

Definition typingInterval : Z := 2 * second.
Definition typingMaxEntries : Z := 50000.

(** [current] is [None] for Go's nil map, the limiter's zero value; reading,
    measuring and deleting from a nil [previous] is the empty map. *)
Record typingLimiter := TypingLimiter {
  current : option (gmap string Z);
  previous : gmap string Z;
  currentAt : Z }.

Definition typing_zero : typingLimiter := TypingLimiter None ∅ 0.

Definition cur (l : typingLimiter) : gmap string Z := default ∅ l.(current).

Definition entries (l : typingLimiter) : Z :=
  Z.of_nat (size (cur l)) + Z.of_nat (size l.(previous)).

(** The rotation switch at the head of [allow]. *)
Definition rotate (l : typingLimiter) (now : Z) : typingLimiter :=
  if bool_decide (l.(current) = None) ||
     negb (time_before now (time_add l.(currentAt) (2 * typingInterval)))
  then TypingLimiter (Some ∅) ∅ now
  else if negb (time_before now (time_add l.(currentAt) typingInterval))
  then TypingLimiter (Some ∅) (cur l) now
  else l.

Definition throttles (last : option Z) (now : Z) : bool :=
  match last with
  | Some t => time_sub now t <? typingInterval
  | None => false
  end.

Definition allow (key : string) (now : Z) (l : typingLimiter) : bool * typingLimiter :=
  let l := rotate l now in
  if throttles (cur l !! key) now then (false, l) else
  if throttles (l.(previous) !! key) now then (false, l) else
  if bool_decide (cur l !! key = None) && bool_decide (l.(previous) !! key = None) &&
     (typingMaxEntries <=? entries l)
  then (false, l)
  else (true, TypingLimiter (Some (<[key := now]> (cur l))) (delete key l.(previous)) l.(currentAt)).

(** A run of the limiter over a list of calls. *)
Fixpoint run_typing (calls : list (string * Z)) (l : typingLimiter) : list bool * typingLimiter :=
  match calls with
  | [] => ([], l)
  | (k, now) :: calls =>
      let '(b, l) := allow k now l in
      let '(bs, l) := run_typing calls l in (b :: bs, l)
  end.

(** ** Specification: one timestamp per pair *)

Definition ref_allow (key : string) (now : Z) (m : gmap string Z) : bool * gmap string Z :=
  if throttles (m !! key) now then (false, m) else (true, <[key := now]> m).


(** Calls in time order, none before [now]. *)
Fixpoint in_time_order (now : Z) (calls : list (string * Z)) : Prop :=
  match calls with
  | [] => True
  | (_, t) :: calls => now <= t /\ in_time_order t calls
  end.

(** ** Invariant and simulation *)

(** The generations hold exactly the timestamps of the plain limiter that can
    still throttle a call at [now] or later. *)
Record sim (now : Z) (l : typingLimiter) (m : gmap string Z) : Prop := {
  sim_cur k t : cur l !! k = Some t -> m !! k = Some t /\ l.(currentAt) <= t < l.(currentAt) + typingInterval;
  sim_prev k t : l.(previous) !! k = Some t -> m !! k = Some t /\ t <= l.(currentAt);
  sim_fresh k t : m !! k = Some t -> now - t < typingInterval ->
    cur l !! k = Some t \/ l.(previous) !! k = Some t;
  sim_disj k : cur l !! k = None \/ l.(previous) !! k = None;
  sim_started : l.(current) <> None -> l.(currentAt) <= now < l.(currentAt) + typingInterval;
  sim_nil : l.(current) = None -> l.(previous) = ∅;
  sim_bound : entries l <= typingMaxEntries }.

Lemma throttles_spec last now :
  throttles last now = true <-> exists t, last = Some t /\ now - t < typingInterval.
Proof.
  unfold throttles, typingInterval, second. destruct last as [t|]; [|naive_solver].
  rewrite Z.ltb_lt, time_sub_lt by (unfold max_int64; lia). naive_solver.
Qed.

Lemma throttles_false last now t :
  throttles last now = false -> last = Some t -> typingInterval <= now - t.
Proof.
  intros Hf ->. destruct (decide (now - t < typingInterval)); [|lia].
  exfalso. rewrite (proj2 (throttles_spec _ _)) in Hf by eauto. done.
Qed.

Lemma sim_zero now : sim now typing_zero ∅.
Proof. split; simpl; try done. by left. Qed.

(** Dropping both generations is sound once nothing in them can throttle. *)
Lemma sim_reset now0 now l m :
  now0 <= now -> sim now0 l m ->
  l.(current) = None \/ l.(currentAt) + 2 * typingInterval <= now ->
  sim now (TypingLimiter (Some ∅) ∅ now) m.
Proof.
  intros Hn Hs Hold. assert (0 < typingInterval) by done.
  split; simpl; try done; [|by left|unfold cur; simpl; lia].
  intros k t Hm Hlt. exfalso.
  destruct (sim_fresh _ _ _ Hs k t Hm ltac:(lia)) as [Ht|Ht].
  - pose proof (sim_cur _ _ _ Hs k t Ht) as [_ Hr].
    destruct Hold as [Hnone|]; [|lia]. unfold cur in Ht. by rewrite Hnone in Ht.
  - pose proof (sim_prev _ _ _ Hs k t Ht) as [_ Hr].
    destruct Hold as [Hnone|]; [|lia]. by rewrite (sim_nil _ _ _ Hs Hnone) in Ht.
Qed.

(** Rotating once drops the older generation, which is at least one interval
    old. *)
Lemma sim_rotate now0 now l m :
  now0 <= now -> sim now0 l m -> l.(currentAt) + typingInterval <= now ->
  sim now (TypingLimiter (Some ∅) (cur l) now) m.
Proof.
  intros Hn Hs Hold. assert (0 < typingInterval) by done.
  pose proof (sim_bound _ _ _ Hs) as Hb. unfold entries in Hb.
  split; simpl; try done; [| |by left|lia|change (entries (TypingLimiter (Some ∅) (cur l) now)) with (Z.of_nat (size (∅ : gmap string Z)) + Z.of_nat (size (cur l))); rewrite map_size_empty; lia].
  - intros k t Ht. apply (sim_cur _ _ _ Hs) in Ht. split; [tauto|lia].
  - intros k t Hm Hlt. destruct (sim_fresh _ _ _ Hs k t Hm ltac:(lia)) as [Ht|Ht]; [by right|].
    apply (sim_prev _ _ _ Hs) in Ht. lia.
Qed.

Lemma rotate_sim now0 now l m :
  now0 <= now -> sim now0 l m -> sim now (rotate l now) m /\ (rotate l now).(current) <> None.
Proof.
  intros Hn Hs. unfold rotate, time_before, time_add.
  case_match eqn:E1; [|case_match eqn:E2]; bool_to_prop.
  - split; [|done]. apply (sim_reset now0 now l); [done..|]. destruct E1; bool_to_prop; [by left|right; lia].
  - split; [|done]. apply (sim_rotate now0); [done..|lia].
  - split; [|by intros ?]. destruct Hs as [Hc Hp Hf Hd Hst Hnil Hb]. split; try done.
    + intros k t Hm Hlt. apply Hf; [done|lia].
    + intros Hne. specialize (Hst Hne). lia.
Qed.

(** The generations throttle a call exactly when the plain limiter does. *)
Lemma sim_throttles now l m k :
  sim now l m ->
  throttles (m !! k) now = throttles (cur l !! k) now || throttles (l.(previous) !! k) now.
Proof.
  intros Hs. apply eq_bool_prop_intro. rewrite !Is_true_true, orb_true_iff, !throttles_spec.
  split.
  - intros (t & Hm & Hlt). destruct (sim_fresh _ _ _ Hs k t Hm Hlt); eauto.
  - intros [(t & Ht & Hlt)|(t & Ht & Hlt)]; exists t; split; try done.
    + by apply (sim_cur _ _ _ Hs).
    + by apply (sim_prev _ _ _ Hs).
Qed.

Lemma size_insert_delete (c p : gmap string Z) k v :
  c !! k = None \/ p !! k = None ->
  Z.of_nat (size (<[k := v]> c)) + Z.of_nat (size (delete k p)) <=
  Z.of_nat (size c) + Z.of_nat (size p) +
  (if bool_decide (c !! k = None) && bool_decide (p !! k = None) then 1 else 0).
Proof.
  intros Hd. rewrite map_size_insert, map_size_delete.
  destruct (c !! k) eqn:Ec, (p !! k) eqn:Ep; simpl; try (destruct Hd; done); try lia.
  assert (size p <> 0)%nat; [|lia]. intros ?%map_size_empty_inv. by simplify_map_eq.
Qed.

Lemma cur_record c p at_ : cur (TypingLimiter (Some c) p at_) = c.
Proof. done. Qed.

Lemma entries_record c p at_ : entries (TypingLimiter (Some c) p at_) =
  Z.of_nat (size c) + Z.of_nat (size p).
Proof. done. Qed.

(** Recording an admitted call keeps the simulation. *)
Lemma sim_record now l m k :
  sim now l m -> l.(current) <> None ->
  throttles (cur l !! k) now = false -> throttles (l.(previous) !! k) now = false ->
  (bool_decide (cur l !! k = None) && bool_decide (l.(previous) !! k = None) &&
   (typingMaxEntries <=? entries l)) = false ->
  sim now (TypingLimiter (Some (<[k := now]> (cur l))) (delete k l.(previous)) l.(currentAt))
    (<[k := now]> m).
Proof.
  intros Hs Hst Hc Hp Hcap. pose proof (sim_started _ _ _ Hs Hst).
  split; rewrite ?cur_record; cbn [previous currentAt]; try done.
  - intros k' t. rewrite !lookup_insert. case_decide; [intros [= <-]; split; [done|lia]|].
    intros Ht. by apply (sim_cur _ _ _ Hs) in Ht.
  - intros k' t [Hne Ht]%lookup_delete_Some. rewrite lookup_insert_ne by done.
    by apply (sim_prev _ _ _ Hs) in Ht.
  - intros k' t. rewrite !lookup_insert, lookup_delete. case_decide; [by left|].
    apply (sim_fresh _ _ _ Hs).
  - intros k'. rewrite lookup_insert, lookup_delete. case_decide; [by right|]. apply (sim_disj _ _ _ Hs).
  - pose proof (size_insert_delete (cur l) (previous l) k now (sim_disj _ _ _ Hs k)) as Hsz.
    pose proof (sim_bound _ _ _ Hs) as Hb. rewrite entries_record. unfold entries in *.
    destruct (bool_decide (cur l !! k = None) && bool_decide (previous l !! k = None));
      simpl in Hcap; lia.
Qed.

(** One call: either both limiters admit it and stay related, or the plain
    one refuses it too, or the table is full of other pairs. *)
Lemma allow_sim now0 now k l m b l' :
  now0 <= now -> sim now0 l m -> allow k now l = (b, l') ->
  if b then ref_allow k now m = (true, <[k := now]> m) /\ sim now l' (<[k := now]> m)
  else sim now l' m /\ (ref_allow k now m = (false, m) \/ typingMaxEntries <= entries l').
Proof.
  intros Hn Hs0. destruct (rotate_sim now0 now l m Hn Hs0) as [Hs Hst].
  unfold allow, ref_allow. rewrite (sim_throttles _ _ _ k Hs).
  destruct (throttles (cur (rotate l now) !! k) now) eqn:Ec; simpl; [intros [= <- <-]; auto|].
  destruct (throttles (previous (rotate l now) !! k) now) eqn:Ep; simpl; [intros [= <- <-]; auto|].
  case_match eqn:Ecap; intros [= <- <-].
  - split; [done|]. right. lia.
  - split; [done|]. by apply sim_record.
Qed.


Lemma run_typing_sim calls now0 l m bs l' :
  in_time_order now0 calls -> sim now0 l m -> run_typing calls l = (bs, l') ->
  exists now' m', sim now' l' m'.
Proof.
  revert now0 l m bs. induction calls as [|[k now] calls IH]; intros now0 l m bs; simpl.
  { intros _ Hs [= <- <-]. eauto. }
  intros [Hn Ho] Hs. destruct (allow k now l) as [b l1] eqn:Ea.
  destruct (run_typing calls l1) as [bs1 l2] eqn:Er. intros [= <- <-].
  apply (allow_sim now0 now k l m) in Ea; [|done..].
  destruct b; destruct Ea; eauto.
Qed.






(** A pair admitted at [t] is not admitted again inside the interval. *)
Lemma run_typing_gap calls now0 l m k t j tj :
  in_time_order now0 calls -> sim now0 l m -> m !! k = Some t -> t <= now0 ->
  calls !! j = Some (k, tj) -> (run_typing calls l).1 !! j = Some true ->
  t + typingInterval <= tj.
Proof.
  revert now0 l m t j. induction calls as [|[k' now] calls IH]; intros now0 l m t j; [done|].
  intros [Hn Ho] Hs Hm Ht. simpl. destruct (allow k' now l) as [b l1] eqn:Ea.
  apply (allow_sim now0 now k' l m) in Ea; [|done..].
  destruct (run_typing calls l1) as [bs l2] eqn:Er.
  assert (bs = (run_typing calls l1).1) as -> by by rewrite Er.
  destruct j as [|j]; simpl.
  - intros [= -> ->] [= ->]. destruct Ea as [Ea _]. revert Ea. unfold ref_allow.
    case_match eqn:Eth; [done|]. intros _. apply (throttles_false _ _ t) in Eth; [lia|done].
  - intros Hj Hb. destruct b; destruct Ea as [Ea Hs'].
    + destruct (decide (k' = k)) as [->|Hne].
      * assert (now + typingInterval <= tj); [|lia].
        eapply (IH now l1 _ now j); [done|done| |lia|done|done]. by simplify_map_eq.
      * eapply (IH now l1 _ t j); [done|done| |lia|done|done]. by simplify_map_eq.
    + eapply (IH now l1 m t j); [done|done|done|lia|done|done].
Qed.

Lemma run_typing_spacing calls now0 l m k i j ti tj :
  in_time_order now0 calls -> sim now0 l m -> (i < j)%nat ->
  calls !! i = Some (k, ti) -> calls !! j = Some (k, tj) ->
  (run_typing calls l).1 !! i = Some true -> (run_typing calls l).1 !! j = Some true ->
  ti + typingInterval <= tj.
Proof.
  revert now0 l m i j. induction calls as [|[k' now] calls IH]; intros now0 l m i j; [done|].
  intros [Hn Ho] Hs Hij. simpl. destruct (allow k' now l) as [b l1] eqn:Ea.
  apply (allow_sim now0 now k' l m) in Ea; [|done..].
  destruct (run_typing calls l1) as [bs l2] eqn:Er.
  assert (bs = (run_typing calls l1).1) as -> by by rewrite Er.
  destruct j as [|j]; [lia|]. destruct i as [|i]; simpl.
  - intros [= -> ->] Hj [= ->] Hb. destruct Ea as [_ Hs'].
    eapply (run_typing_gap calls ti l1 _ k ti j); try done. by simplify_map_eq.
  - intros Hi Hj Hbi Hbj. destruct b; destruct Ea as [? ?].
    + eapply (IH now l1 _ i j); try done. lia.
    + eapply (IH now l1 m i j); try done. lia.
Qed.

(** However full the table is, two admitted calls of one pair are at
    least one interval apart, and the table never exceeds its bound. *)
Theorem typing_limiter_safe (calls : list (string * Z)) :
  in_time_order 0 calls ->
  entries (run_typing calls typing_zero).2 <= typingMaxEntries /\
  forall i j k ti tj, (i < j)%nat ->
    calls !! i = Some (k, ti) -> calls !! j = Some (k, tj) ->
    (run_typing calls typing_zero).1 !! i = Some true ->
    (run_typing calls typing_zero).1 !! j = Some true ->
    ti + typingInterval <= tj.
Proof.
  intros Ho. split.
  - destruct (run_typing calls typing_zero) as [bs l'] eqn:Er. simpl.
    edestruct (run_typing_sim calls 0 typing_zero ∅ bs l') as (now' & m' & Hs); eauto using sim_zero.
    by apply (sim_bound _ _ _ Hs).
  - intros. eapply (run_typing_spacing calls 0 typing_zero ∅ k i j); eauto using sim_zero.
Qed.

(** C4 on a run with an admitted repeat. *)
Lemma typing_limiter_safe_witness :
  entries (run_typing [("a", 0); ("b", second); ("a", 3 * second)] typing_zero).2 <= typingMaxEntries /\
  0 + typingInterval <= 3 * second.
Proof.
  destruct (typing_limiter_safe [("a", 0); ("b", second); ("a", 3 * second)]) as [He Hg].
  - vm_compute. repeat split; discriminate.
  - split; [exact He|].
    apply (Hg 0%nat 2%nat "a"); [lia|reflexivity..].
Defined.
