(* ===== verification/GoStrings.v ===== *)
(** * The parts of Go's [strings] package the server uses

    A Go string is a byte sequence, here Rocq's [string] of 8-bit
    characters.  Case folding and white space are the ASCII ones: on bytes
    above 127 Go decodes UTF-8, which is not modelled, so [ToLower] and
    [TrimSpace] below agree with Go on ASCII strings. *)

From S2P Require Import Prelude.
From stdpp Require Import base numbers list strings.
From Stdlib Require Import Ascii ZArith Lia.
Open Scope Z_scope.

Definition chars (s : string) : list ascii := String.list_ascii_of_string s.
Definition of_chars (l : list ascii) : string := String.string_of_list_ascii l.

Definition is_space (c : ascii) : bool :=
  let n := nat_of_ascii c in
  ((9 <=? n) && (n <=? 13) || (n =? 32))%nat.

Definition lower (c : ascii) : ascii :=
  let n := nat_of_ascii c in
  if ((65 <=? n) && (n <=? 90))%nat then ascii_of_nat (n + 32) else c.

Fixpoint drop_while (p : ascii -> bool) (l : list ascii) : list ascii :=
  match l with
  | [] => []
  | c :: l' => if p c then drop_while p l' else l
  end.

Definition trim_func (p : ascii -> bool) (s : string) : string :=
  of_chars (rev (drop_while p (rev (drop_while p (chars s))))).

(** [len] of a string, in bytes. *)
Definition blen (s : string) : Z := Z.of_nat (String.length s).

Definition TrimSpace (s : string) : string := trim_func is_space s.
Definition ToLower (s : string) : string := of_chars (map lower (chars s)).

Definition in_cutset (cutset : string) (c : ascii) : bool := bool_decide (c ∈ chars cutset).
Definition Trim (s cutset : string) : string := trim_func (in_cutset cutset) s.

Definition HasPrefix (s p : string) : bool :=
  bool_decide (take (length (chars p)) (chars s) = chars p).
Definition HasSuffix (s p : string) : bool :=
  bool_decide (take (length (chars p)) (rev (chars s)) = rev (chars p)).
Definition TrimPrefix (s p : string) : string :=
  if HasPrefix s p then of_chars (drop (length (chars p)) (chars s)) else s.
Definition Contains_char (s : string) (c : ascii) : bool := bool_decide (c ∈ chars s).

(** [strings.Split] for a one-byte separator: never empty. *)
Fixpoint split_chars (sep : ascii) (l acc : list ascii) : list (list ascii) :=
  match l with
  | [] => [rev acc]
  | c :: l => if bool_decide (c = sep) then rev acc :: split_chars sep l [] else split_chars sep l (c :: acc)
  end.
Definition Split (s : string) (sep : ascii) : list string :=
  map of_chars (split_chars sep (chars s) []).

Fixpoint Join (parts : list string) (sep : string) : string :=
  match parts with
  | [] => EmptyString
  | [p] => p
  | p :: parts => (p +:+ sep +:+ Join parts sep)%string
  end.

(** ** Lemmas *)

Lemma chars_of_chars l : chars (of_chars l) = l.
Proof. apply String.list_ascii_of_string_of_list_ascii. Qed.

Lemma of_chars_chars s : of_chars (chars s) = s.
Proof. apply String.string_of_list_ascii_of_string. Qed.

Lemma chars_app a b : chars (a +:+ b) = chars a ++ chars b.
Proof. induction a as [|c a IH]; simpl; [done|]. unfold chars in *. by rewrite <- IH. Qed.

Lemma HasPrefix_spec s p : HasPrefix s p = true <-> exists r, s = (p +:+ r)%string.
Proof.
  unfold HasPrefix. rewrite bool_decide_eq_true. split.
  - intros H. exists (of_chars (drop (length (chars p)) (chars s))).
    rewrite <- (of_chars_chars s) at 1. rewrite <- (take_drop (length (chars p)) (chars s)) at 1.
    rewrite H. rewrite <- (of_chars_chars (p +:+ _)), chars_app, chars_of_chars. done.
  - intros [r ->]. by rewrite chars_app, take_app_length.
Qed.

Lemma TrimPrefix_app p r : TrimPrefix (p +:+ r) p = r.
Proof.
  unfold TrimPrefix. rewrite (proj2 (HasPrefix_spec _ _)) by eauto.
  rewrite chars_app, drop_app_length. apply of_chars_chars.
Qed.

Lemma lower_idem c : lower (lower c) = lower c.
Proof. destruct c as [[] [] [] [] [] [] [] []]; reflexivity. Qed.

Lemma ToLower_idem s : ToLower (ToLower s) = ToLower s.
Proof.
  unfold ToLower. rewrite chars_of_chars, map_map. f_equal. apply map_ext. apply lower_idem.
Qed.

Lemma drop_while_none p l : forallb (fun c => negb (p c)) l = true -> drop_while p l = l.
Proof. destruct l as [|c l]; simpl; [done|]. destruct (p c); done. Qed.

(** A string without white space is its own trim. *)
Lemma TrimSpace_id s : forallb (fun c => negb (is_space c)) (chars s) = true -> TrimSpace s = s.
Proof.
  intros H. unfold TrimSpace, trim_func. rewrite (drop_while_none _ _ H).
  rewrite drop_while_none, rev_involutive; [apply of_chars_chars|].
  apply forallb_forall. intros c Hc. apply in_rev in Hc. revert c Hc. by apply forallb_forall.
Qed.

(** Splitting at a separator. *)
Lemma split_chars_app sep l1 l2 acc :
  split_chars sep (l1 ++ sep :: l2) acc = split_chars sep l1 acc ++ split_chars sep l2 [].
Proof.
  revert acc. induction l1 as [|c l1 IH]; intros acc; simpl.
  - by rewrite bool_decide_true.
  - destruct (bool_decide (c = sep)); simpl; by rewrite IH.
Qed.

Lemma split_chars_none sep l acc : sep ∉ l -> split_chars sep l acc = [rev acc ++ l].
Proof.
  revert acc. induction l as [|c l IH]; intros acc Hs; simpl; [by rewrite app_nil_r|]. apply not_elem_of_cons in Hs as [Hc Hs].
  rewrite bool_decide_false by done. rewrite IH by done. simpl. by rewrite <- app_assoc.
Qed.

Lemma split_chars_cons sep l1 l2 : sep ∉ l1 -> split_chars sep (l1 ++ sep :: l2) [] = l1 :: split_chars sep l2 [].
Proof. intros Hs. by rewrite split_chars_app, split_chars_none. Qed.
