(* ===== verification/GoStrconv.v ===== *)
(** * Numbers as text

    [strconv.ParseInt], [ParseUint], [Atoi] and [Itoa] in base 10; a Go [int]
    has 64 bits. *)

From S2P Require Import Prelude GoStrings.
From stdpp Require Import base numbers list strings pretty.
From Stdlib Require Import Ascii ZArith ZifyBool Lia.
Open Scope Z_scope.

Fixpoint parse_digits (l : list ascii) (acc : Z) : option Z :=
  match l with
  | [] => Some acc
  | c :: l =>
    let n := Z.of_nat (nat_of_ascii c) in
    if (48 <=? n) && (n <=? 57) then parse_digits l (acc * 10 + (n - 48)) else None
  end.

Definition ParseInt (s : string) : option Z :=
  let '(neg, digits) :=
    match chars s with
    | "-"%char :: l => (true, l)
    | "+"%char :: l => (false, l)
    | l => (false, l)
    end in
  match digits with
  | [] => None
  | _ =>
    match parse_digits digits 0 with
    | None => None
    | Some n => let v := if neg : bool then - n else n in if (min_int64 <=? v) && (v <=? max_int64) then Some v else None
    end
  end.

Definition Atoi (s : string) : option Z := ParseInt s.

(** The value returned beside an error, which many callers use alone: 0 for
    a text that is no number, the nearest bound for one out of range.  Digits
    after the overflow are not looked at. *)
Fixpoint clipped_digits (l : list ascii) (acc : Z) : Z :=
  match l with
  | [] => acc
  | c :: l =>
    let n := Z.of_nat (nat_of_ascii c) in
    if negb ((48 <=? n) && (n <=? 57)) then 0
    else if 2 ^ 64 <=? acc * 10 + (n - 48) then 2 ^ 64 - 1
    else clipped_digits l (acc * 10 + (n - 48))
  end.

Definition ParseInt_value (s : string) : Z :=
  let '(neg, digits) :=
    match chars s with
    | "-"%char :: l => (true, l)
    | "+"%char :: l => (false, l)
    | l => (false, l)
    end in
  let v := clipped_digits digits 0 in
  if neg : bool then Z.max min_int64 (- v) else Z.min max_int64 v.

Example ParseInt_values :
  map ParseInt_value ["12"; "-7"; "+3"; ""; "1x"; "9223372036854775808"; "-99999999999999999999x"]%string = [12; -7; 3; 0; 0; max_int64; min_int64].
Proof. vm_compute. reflexivity. Qed.

(** Digits only, no sign. *)
Definition ParseUint (s : string) (bitSize : Z) : option Z :=
  match chars s with
  | [] => None
  | digits => match parse_digits digits 0 with Some n => if n <? 2 ^ bitSize then Some n else None | None => None end
  end.

Definition Itoa (n : Z) : string := pretty n.

(** ** What is printed is parsed *)

Lemma digit_char x : (x < 10)%N -> Z.of_nat (nat_of_ascii (pretty_N_char x)) = Z.of_N x + 48.
Proof.
  intros Hx. assert (x = 0 \/ x = 1 \/ x = 2 \/ x = 3 \/ x = 4 \/ x = 5 \/ x = 6 \/ x = 7 \/ x = 8 \/ x = 9)%N as Hc by lia.
  repeat destruct Hc as [-> |Hc]; subst; reflexivity.
Qed.

Lemma parse_pretty_go x s : parse_digits (chars (pretty_N_go x s)) 0 = parse_digits (chars s) (Z.of_N x).
Proof.
  revert s. induction (N.lt_wf_0 x) as [x _ IH]; intros s. destruct (decide (0 < x)%N) as [Hx|Hx].
  - rewrite pretty_N_go_step by done. rewrite IH by (apply N.div_lt; lia). cbn [chars String.list_ascii_of_string parse_digits].
    rewrite digit_char by (apply N.mod_lt; lia).
    assert (x mod 10 < 10)%N as Hm by (apply N.mod_lt; lia).
    pose proof (N.div_mod x 10 ltac:(lia)) as E. generalize dependent (x mod 10)%N. generalize (x / 10)%N. intros q m Hm ->.
    match goal with |- (if ?b then _ else _) = _ => replace b with true by lia end. f_equal. lia.
  - replace x with 0%N by lia. by rewrite pretty_N_go_0.
Qed.

Lemma pretty_nonneg n : 0 <= n -> pretty n = pretty (Z.to_N n).
Proof. intros Hn. destruct n as [|p|p]; [done|done|lia]. Qed.

(** A number in decimals: not empty, and the number again. *)
Lemma parse_pretty n : 0 <= n -> parse_digits (chars (pretty n)) 0 = Some n /\ chars (pretty n) <> [].
Proof.
  intros Hn. rewrite pretty_nonneg by done. unfold pretty, pretty_N. case_decide as Hz.
  - replace n with 0 by lia. split; [reflexivity|done].
  - pose proof (parse_pretty_go (Z.to_N n) ""%string) as Hp. change (chars ""%string) with (@nil ascii) in Hp. cbn [parse_digits] in Hp.
    rewrite Hp. split; [f_equal; lia|]. intros E. rewrite E in Hp. injection Hp as Hp. lia.
Qed.

Lemma ParseUint_Itoa n bits : 0 <= n < 2 ^ bits -> ParseUint (Itoa n) bits = Some n.
Proof.
  intros Hn. destruct (parse_pretty n ltac:(lia)) as [Hp Hne]. unfold ParseUint, Itoa. destruct (chars (pretty n)); [done|]. rewrite Hp.
  by replace (_ <? _) with true by lia.
Qed.

(** Every character is a digit. *)
Lemma parse_digits_chars l acc v : parse_digits l acc = Some v -> Forall (fun c => (48 <= nat_of_ascii c <= 57)%nat) l.
Proof.
  revert acc. induction l as [|c l IH]; intros acc; [constructor|]. cbn [parse_digits]. cbv zeta. destruct (_ && _) eqn:E; [|done].
  intros H. constructor; [lia|by eapply IH].
Qed.
