(* ===== verification/GoBase64.v ===== *)
(** * Base64

    [encoding/base64] as the server uses it: the standard and the URL
    alphabet, with padding (a [[]byte] in JSON), without (tokens), and strict
    (stored password hashes).  Line breaks are skipped wherever they stand,
    as Go's decoder does. *)

From S2P Require Import Prelude GoStrings.
From stdpp Require Import base numbers list strings sets.
From Stdlib Require Import Ascii ZArith ZifyBool Lia.
Open Scope Z_scope.

Module Base64.

Record Encoding := mkEncoding { e_url : bool; e_padded : bool; e_strict : bool }.

Definition StdEncoding : Encoding := mkEncoding false true false.
Definition RawStdEncoding : Encoding := mkEncoding false false false.
Definition RawURLEncoding : Encoding := mkEncoding true false false.
Definition Strict (e : Encoding) : Encoding := mkEncoding e.(e_url) e.(e_padded) true.

Definition byte_of (z : Z) : ascii := ascii_of_nat (Z.to_nat z).
Definition of_byte (c : ascii) : Z := Z.of_nat (nat_of_ascii c).

(** The digit of a six-bit value. *)
Definition digit (e : Encoding) (v : Z) : ascii :=
  byte_of (if v <? 26 then v + 65 else if v <? 52 then v + 71 else if v <? 62 then v - 4
           else if v =? 62 then (if e.(e_url) then 45 else 43) else (if e.(e_url) then 95 else 47)).

Definition undigit (e : Encoding) (c : ascii) : option Z :=
  let n := of_byte c in
  if (65 <=? n) && (n <=? 90) then Some (n - 65)
  else if (97 <=? n) && (n <=? 122) then Some (n - 71)
  else if (48 <=? n) && (n <=? 57) then Some (n + 4)
  else if n =? (if e.(e_url) then 45 else 43) then Some 62
  else if n =? (if e.(e_url) then 95 else 47) then Some 63
  else None.

Definition padding : ascii := "="%char.

Fixpoint encode (e : Encoding) (l : list Z) : list ascii :=
  match l with
  | [] => []
  | [x] => [digit e (x / 4); digit e (x mod 4 * 16)] ++ (if e.(e_padded) then [padding; padding] else [])
  | [x; y] => [digit e (x / 4); digit e (x mod 4 * 16 + y / 16); digit e (y mod 16 * 4)] ++ (if e.(e_padded) then [padding] else [])
  | x :: y :: z :: l =>
    [digit e (x / 4); digit e (x mod 4 * 16 + y / 16); digit e (y mod 16 * 4 + z / 64); digit e (z mod 64)] ++ encode e l
  end.

Definition EncodeToString (e : Encoding) (b : string) : string := of_chars (encode e (map of_byte (chars b))).

Definition is_newline (c : ascii) : bool := (of_byte c =? 10) || (of_byte c =? 13).

(** The last group, of two or three digits; strict decoding wants the bits
    that are left over to be zero. *)
Definition last_two (e : Encoding) (a b : ascii) : option (list Z) :=
  a ← undigit e a; b ← undigit e b;
  if e.(e_strict) && negb (b mod 16 =? 0) then None else Some [a * 4 + b / 16].

Definition last_three (e : Encoding) (a b c : ascii) : option (list Z) :=
  a ← undigit e a; b ← undigit e b; c ← undigit e c;
  if e.(e_strict) && negb (c mod 4 =? 0) then None else Some [a * 4 + b / 16; b mod 16 * 16 + c / 4].

Definition is_padding (c : ascii) : bool := bool_decide (c = padding).

Fixpoint decode (e : Encoding) (l : list ascii) : option (list Z) :=
  match l with
  | [] => Some []
  | [a; b] => if e.(e_padded) then None else last_two e a b
  | [a; b; c] => if e.(e_padded) then None else last_three e a b c
  | a :: b :: c :: d :: l =>
    if e.(e_padded) && is_padding d && bool_decide (l = []) then
      if is_padding c then last_two e a b else last_three e a b c
    else
      a ← undigit e a; b ← undigit e b; c ← undigit e c; d ← undigit e d; rest ← decode e l;
      Some (a * 4 + b / 16 :: b mod 16 * 16 + c / 4 :: c mod 4 * 64 + d :: rest)
  | _ => None
  end.

Definition DecodeString (e : Encoding) (s : string) : option string :=
  (fun l => of_chars (map byte_of l)) <$> decode e (List.filter (fun c => negb (is_newline c)) (chars s)).

(** ** Round trip *)

Definition octet (z : Z) : Prop := 0 <= z < 256.

Lemma of_byte_octet c : octet (of_byte c).
Proof. unfold octet, of_byte. pose proof (nat_ascii_bounded c). lia. Qed.

Lemma byte_of_byte c : byte_of (of_byte c) = c.
Proof. unfold byte_of, of_byte. by rewrite Nat2Z.id, ascii_nat_embedding. Qed.

Lemma of_byte_of z : octet z -> of_byte (byte_of z) = z.
Proof. unfold octet, byte_of, of_byte. intros. rewrite nat_ascii_embedding; lia. Qed.

(** Sixty-four digits. *)
Lemma digits_distinct e : forallb (fun v => bool_decide (undigit e (digit e v) = Some v) && negb (is_newline (digit e v)) && negb (is_padding (digit e v)))
  (seqZ 0 64) = true.
Proof. destruct e as [[] p s]; vm_compute; reflexivity. Qed.

Lemma digit_ok e v : 0 <= v < 64 -> undigit e (digit e v) = Some v /\ is_newline (digit e v) = false /\ is_padding (digit e v) = false.
Proof.
  intros Hv. pose proof (digits_distinct e) as H. rewrite forallb_forall in H.
  assert (In v (seqZ 0 64)) as Hin by (apply list_elem_of_In, elem_of_seqZ; lia). apply H in Hin.
  rewrite !andb_true_iff, !negb_true_iff in Hin. destruct Hin as [[H1 H2] H3]. split; [by apply bool_decide_eq_true in H1|done].
Qed.

Lemma undigit_digit e v : 0 <= v < 64 -> undigit e (digit e v) = Some v.
Proof. intros. by apply digit_ok. Qed.

(** Lists in groups of three. *)
Lemma triples_ind {A} (P : list A -> Prop) :
  P [] -> (forall x, P [x]) -> (forall x y, P [x; y]) -> (forall x y z l, P l -> P (x :: y :: z :: l)) -> forall l, P l.
Proof.
  intros H0 H1 H2 H3 l. assert (forall n l, (length l <= n)%nat -> P l) as Hn; [|by apply (Hn (length l))].
  intros n. induction n as [|n IH]; intros [|x [|y [|z l']]] Hl; simpl in Hl; auto; try lia. apply H3, IH. lia.
Qed.

(** Bounds and equations of the six-bit pieces. *)
Ltac bits := Z.to_euclidean_division_equations; lia.
Ltac octets :=
  repeat match goal with H : Forall octet (_ :: _) |- _ => apply Forall_cons in H as [? ?] end; unfold octet in *; cbn [encode].

Lemma digit_line e v : 0 <= v < 64 -> is_newline (digit e v) = false.
Proof. intros. by apply digit_ok. Qed.
Lemma digit_pad e v : 0 <= v < 64 -> is_padding (digit e v) = false.
Proof. intros. by apply digit_ok. Qed.

Lemma encode_digits e l : Forall octet l -> forallb (fun c => negb (is_newline c)) (encode e l) = true.
Proof.
  intros Hl. induction l as [|x|x y|x y z l IH] using triples_ind; [done| | |]; octets.
  all: rewrite ?forallb_app; cbn [forallb]; rewrite !digit_line by bits.
  - by destruct (e_padded e).
  - by destruct (e_padded e).
  - by rewrite IH.
Qed.

Lemma decode_encode e l : Forall octet l -> decode e (encode e l) = Some l.
Proof.
  intros Hl. induction l as [|x|x y|x y z l IH] using triples_ind; [done| | |]; octets.
  - assert (last_two e (digit e (x / 4)) (digit e (x mod 4 * 16)) = Some [x]) as E.
    { unfold last_two. rewrite !undigit_digit by bits. cbn [mbind option_bind]. replace (x mod 4 * 16 mod 16) with 0 by bits. cbn.
      rewrite andb_false_r. do 2 f_equal. bits. }
    destruct (e_padded e) eqn:Ep; cbn [app decode]; rewrite Ep; [|done]. cbn. exact E.
  - assert (last_three e (digit e (x / 4)) (digit e (x mod 4 * 16 + y / 16)) (digit e (y mod 16 * 4)) = Some [x; y]) as E.
    { unfold last_three. rewrite !undigit_digit by bits. cbn [mbind option_bind]. replace (y mod 16 * 4 mod 4) with 0 by bits. cbn.
      rewrite andb_false_r. repeat f_equal; bits. }
    destruct (e_padded e) eqn:Ep; cbn [app decode]; rewrite Ep; [|done]. cbn. rewrite digit_pad by bits. exact E.
  - cbn [app decode]. rewrite digit_pad by bits. rewrite andb_false_r. cbn [andb]. rewrite !undigit_digit by bits. cbn [mbind option_bind].
    rewrite IH by done. cbn. repeat f_equal; bits.
Qed.

(** Strictness is for decoding. *)
Lemma encode_strict e b : EncodeToString (Strict e) b = EncodeToString e b.
Proof.
  unfold EncodeToString. f_equal. induction (map of_byte (chars b)) as [|x|x y|x y z l IH] using triples_ind; [done..|]. cbn [encode]. by rewrite IH.
Qed.

Lemma filter_all {A} (p : A -> bool) l : forallb p l = true -> List.filter p l = l.
Proof. induction l as [|x l IH]; [done|]. cbn. intros [-> H]%andb_prop. by rewrite IH. Qed.

Lemma DecodeString_Encode e b : DecodeString e (EncodeToString e b) = Some b.
Proof.
  assert (Forall octet (map of_byte (chars b))) as Hb by (apply Forall_forall; intros z (c & -> & _)%list_elem_of_fmap; apply of_byte_octet).
  unfold DecodeString, EncodeToString. rewrite chars_of_chars, filter_all by by apply encode_digits.
  rewrite decode_encode by done. cbn. f_equal. rewrite map_map. rewrite (map_ext _ id) by (intros; apply byte_of_byte).
  rewrite map_id. apply of_chars_chars.
Qed.

(** The characters of an encoding are digits and padding. *)
Lemma encode_alphabet e l c : Forall octet l -> c ∈ encode e l -> c = padding \/ exists v, 0 <= v < 64 /\ c = digit e v.
Proof.
  assert (forall v, 0 <= v < 64 -> forall c, c = digit e v -> c = padding \/ exists v, 0 <= v < 64 /\ c = digit e v) as Hd by eauto.
  intros Hl. induction l as [|x|x y|x y z l IH] using triples_ind; octets; [by intros ?%not_elem_of_nil| | |];
    rewrite elem_of_app, !elem_of_cons, elem_of_nil.
  - intros [[Hc|[Hc|[]]]|Hc]; [eapply Hd, Hc; bits..|]. destruct (e_padded e); set_solver.
  - intros [[Hc|[Hc|[Hc|[]]]]|Hc]; [eapply Hd, Hc; bits..|]. destruct (e_padded e); set_solver.
  - intros [[Hc|[Hc|[Hc|[Hc|[]]]]]|Hc]; [eapply Hd, Hc; bits..|]. by apply IH.
Qed.

End Base64.
