(* ===== verification/LoginBackoff.v ===== *)
(** * Credential backoff

    Models [server/internal/httpapi/login_backoff.go].  The table maps a
    salted hash of the normalised identity to its failure record.  The hash
    and the iteration order of Go's map [range] are parameters: every
    theorem holds for any of them. *)

From S2P Require Import Prelude GoStrings.
From stdpp Require Import base numbers list strings gmap fin_maps.
From Stdlib Require Import ZArith ZifyBool Lia.
Open Scope Z_scope.

Definition maxLoginBackoffEntries : Z := 32768.
Definition backoffEvictionSampleSize : Z := 32.

Record loginBackoffEntry := LoginBackoffEntry {
  failures : Z;
  blockedUntil : Z;
  expiresAt : Z }.

#[export] Instance loginBackoffEntry_eq_dec : EqDecision loginBackoffEntry.
Proof. solve_decision. Defined.

(** The zero value of a Go map lookup that misses. *)
Definition zeroEntry : loginBackoffEntry := LoginBackoffEntry 0 0 0.

Definition boundedBackoff (duration : Z) : Z :=
  if duration <=? 0 then 0
  else if 60 * second <? duration then 60 * second
  else duration.

Fixpoint unique_loop (seen : gset string) (identities : list string) : list string :=
  match identities with
  | [] => []
  | i :: rest =>
      if bool_decide (i ∈ seen) then unique_loop seen rest
      else i :: unique_loop ({[i]} ∪ seen) rest
  end.

Definition uniqueBackoffIdentities (identities : list string) : list string :=
  unique_loop ∅ identities.

(** [evictsBefore] reports whether [a] is a better eviction victim than [b]. *)
Definition evictsBefore (now : Z) (a b : loginBackoffEntry) : bool :=
  if negb (a.(failures) =? b.(failures)) then a.(failures) <? b.(failures) else
  let aBlocked := time_after a.(blockedUntil) now in
  let bBlocked := time_after b.(blockedUntil) now in
  if negb (Bool.eqb aBlocked bBlocked) then negb aBlocked
  else time_before a.(expiresAt) b.(expiresAt).

Definition expired (now : Z) (e : loginBackoffEntry) : bool := negb (time_after e.(expiresAt) now).

Section login_backoff.
Context {K : Type} `{Countable K}.
(** [sha256.Sum256] of the salt followed by the normalised identity. *)
Context (sha256_salted : string -> K).
(** The order in which [range] visits a map. *)
Context (range_order : gmap K loginBackoffEntry -> list K).

Record LoginBackoff := mkLoginBackoff {
  maxEntries : Z;
  byID : gmap K loginBackoffEntry;
  evictions : Z }.

Definition NewLoginBackoff : LoginBackoff := mkLoginBackoff maxLoginBackoffEntries ∅ 0.

Definition key (identity : string) : K := sha256_salted (ToLower (TrimSpace identity)).

Definition set_byID (b : LoginBackoff) (m : gmap K loginBackoffEntry) : LoginBackoff :=
  mkLoginBackoff b.(maxEntries) m b.(evictions).

(** ** Reading the delay *)

Definition longer (now : Z) (e : loginBackoffEntry) (longest : Z) : Z :=
  if time_after e.(blockedUntil) now && (longest <? time_sub e.(blockedUntil) now)
  then time_sub e.(blockedUntil) now else longest.

Definition retry_one (now : Z) (st : LoginBackoff * Z) (identity : string) : LoginBackoff * Z :=
  let '(b, longest) := st in
  let k := key identity in
  match b.(byID) !! k with
  | None => (b, longest)
  | Some entry =>
      if expired now entry then (set_byID b (delete k b.(byID)), longest)
      else (b, longer now entry longest)
  end.

Definition RetryAfterAny (b : LoginBackoff) (now : Z) (identities : list string) : Z * LoginBackoff :=
  let '(b, longest) := foldl (retry_one now) (b, 0) (uniqueBackoffIdentities identities) in
  (boundedBackoff longest, b).

Definition RetryAfter (b : LoginBackoff) (identity : string) (now : Z) : Z * LoginBackoff :=
  RetryAfterAny b now [identity].

(** ** Eviction *)

(** The [range] loop of [evictOneLocked]: the remaining map, the victim
    found so far and whether the loop returned early because an expired
    entry made room. *)
Fixpoint evict_loop (max now : Z) (order : list K) (m : gmap K loginBackoffEntry)
    (victim : option (K * loginBackoffEntry)) (sampled : Z)
  : gmap K loginBackoffEntry * option (K * loginBackoffEntry) * bool :=
  match order with
  | [] => (m, victim, false)
  | k :: order =>
      match m !! k with
      | None => evict_loop max now order m victim sampled
      | Some entry =>
          if expired now entry then
            let m := delete k m in
            if Z.of_nat (size m) <? max then (m, victim, true)
            else evict_loop max now order m victim sampled
          else
            let victim :=
              match victim with
              | None => Some (k, entry)
              | Some (_, ve) => if evictsBefore now entry ve then Some (k, entry) else victim
              end in
            let sampled := sampled + 1 in
            if backoffEvictionSampleSize <=? sampled then (m, victim, false)
            else evict_loop max now order m victim sampled
      end
  end.

Definition evictOneLocked (b : LoginBackoff) (now : Z) : LoginBackoff :=
  if Z.of_nat (size b.(byID)) <? b.(maxEntries) then b else
  let '(m, victim, returned) :=
    evict_loop b.(maxEntries) now (range_order b.(byID)) b.(byID) None 0 in
  if (returned : bool) then set_byID b m else
  match victim with
  | Some (k, _) => mkLoginBackoff b.(maxEntries) (delete k m) (b.(evictions) + 1)
  | None => set_byID b m
  end.

(** ** Recording attempts *)

Definition failed_entry (now : Z) (entry : loginBackoffEntry) (exists_ : bool) : loginBackoffEntry :=
  let f := entry.(failures) + 1 in
  let exp := if negb exists_ then time_add now (15 * minute)
             else if negb (time_after entry.(expiresAt) now) then time_add now (15 * minute)
             else entry.(expiresAt) in
  let blocked :=
    if 3 <=? f then
      let shift := if 5 <? f - 3 then 5 else f - 3 in
      time_add now (second * Z.shiftl 1 shift)
    else entry.(blockedUntil) in
  LoginBackoffEntry f blocked exp.

Definition failed_one (now : Z) (st : LoginBackoff * Z) (identity : string) : LoginBackoff * Z :=
  let '(b, longest) := st in
  let k := key identity in
  let entry := default zeroEntry (b.(byID) !! k) in
  let found := bool_decide (is_Some (b.(byID) !! k)) in
  let stale := found && expired now entry in
  let b := if stale then set_byID b (delete k b.(byID)) else b in
  let exists_ := found && negb stale in
  let b := if negb exists_ && (b.(maxEntries) <=? Z.of_nat (size b.(byID)))
           then evictOneLocked b now else b in
  let entry := failed_entry now entry exists_ in
  (set_byID b (<[k := entry]> b.(byID)), longer now entry longest).

Definition FailedAny (b : LoginBackoff) (now : Z) (identities : list string) : Z * LoginBackoff :=
  let '(b, longest) := foldl (failed_one now) (b, 0) (uniqueBackoffIdentities identities) in
  (boundedBackoff longest, b).

Definition Failed (b : LoginBackoff) (identity : string) (now : Z) : Z * LoginBackoff :=
  FailedAny b now [identity].

Definition SucceededAny (b : LoginBackoff) (identities : list string) : LoginBackoff :=
  set_byID b (foldl (fun m i => delete (key i) m) b.(byID) (uniqueBackoffIdentities identities)).

Definition Succeeded (b : LoginBackoff) (identity : string) : LoginBackoff :=
  SucceededAny b [identity].

(** One tick of [CleanupLoop]. *)
Definition removeExpiredLocked (b : LoginBackoff) (now : Z) : LoginBackoff :=
  set_byID b (filter (fun p => expired now p.2 = false) b.(byID)).

Definition Stats (b : LoginBackoff) : Z * Z := (Z.of_nat (size b.(byID)), b.(evictions)).

(** ** Bound on the table *)

(** [range] visits every key of the map. *)
Definition visits_all : Prop := forall m k, is_Some (m !! k) -> k ∈ range_order m.

Definition bounded (b : LoginBackoff) : Prop := Z.of_nat (size b.(byID)) <= b.(maxEntries).

Definition victim_ok (now : Z) (m : gmap K loginBackoffEntry) (v : option (K * loginBackoffEntry)) : Prop :=
  match v with Some (k, e) => m !! k = Some e /\ expired now e = false | None => True end.

Lemma evict_loop_spec max now order m v sampled m' v' ret :
  victim_ok now m v -> evict_loop max now order m v sampled = (m', v', ret) ->
  m' ⊆ m /\ victim_ok now m' v' /\
  (if ret then Z.of_nat (size m') < max else True) /\
  (v' = None -> ret = false -> v = None /\ forall k, k ∈ order -> m' !! k = None).
Proof.
  revert m v sampled. induction order as [|k order IH]; intros m v sampled Hv; simpl.
  { intros [= <- <- <-]. split_and!; try done. intros -> _. split; [done|set_solver]. }
  destruct (m !! k) as [e|] eqn:Ek.
  2:{ intros Hl. apply IH in Hl as (Hsub & Hv' & Hret & Hnone); [|done]. split_and!; try done.
      intros Hn Hr. destruct (Hnone Hn Hr) as [? Hall]. split; [done|].
      intros k' [->|]%elem_of_cons; [|by apply Hall].
      destruct (m' !! k) eqn:Em'; [|done]. eapply lookup_weaken in Em'; [|done]. congruence. }
  destruct (expired now e) eqn:Ex.
  - assert (victim_ok now (delete k m) v) as Hvd.
    { destruct v as [[kv ev]|]; [|done]. destruct Hv as [Hkv Hev]. split; [|done].
      rewrite lookup_delete_ne; [done|]. intros ->. congruence. }
    destruct (Z.of_nat (size (delete k m)) <? max) eqn:Esz.
    + intros [= <- <- <-]. split_and!; [apply delete_subseteq|done|lia|done].
    + intros Hl. apply IH in Hl as (Hsub & Hv' & Hret & Hnone); [|done].
      split_and!; try done. { etrans; [done|apply delete_subseteq]. }
      intros Hn Hr. destruct (Hnone Hn Hr) as [? Hall]. split; [done|].
      intros k' [->|]%elem_of_cons; [|by apply Hall].
      destruct (m' !! k) eqn:Em'; [|done]. eapply lookup_weaken in Em'; [|done].
      by rewrite lookup_delete_eq in Em'.
  - set (v1 := match v with None => Some (k, e) | Some (_, ve) => if evictsBefore now e ve then Some (k, e) else v end).
    assert (victim_ok now m v1 /\ v1 <> None) as [Hv1 Hne].
    { unfold v1. destruct v as [[kv ev]|]; [destruct (evictsBefore now e ev)|]; (split; [|done]); done || by split. }
    destruct (backoffEvictionSampleSize <=? sampled + 1).
    + intros [= <- <- <-]. by split_and!.
    + intros Hl. apply IH in Hl as (Hsub & Hv' & Hret & Hnone); [|done]. split_and!; try done.
      intros Hn Hr. by destruct (Hnone Hn Hr).
Qed.

Lemma size_subseteq (m1 m2 : gmap K loginBackoffEntry) : m1 ⊆ m2 -> (size m1 <= size m2)%nat.
Proof. apply map_subseteq_size. Qed.

Lemma evictOneLocked_room b now :
  visits_all -> 1 <= b.(maxEntries) -> bounded b ->
  Z.of_nat (size (evictOneLocked b now).(byID)) < b.(maxEntries) /\
  (evictOneLocked b now).(byID) ⊆ b.(byID) /\ (evictOneLocked b now).(maxEntries) = b.(maxEntries).
Proof.
  intros Hall Hmax Hb. unfold bounded in Hb. unfold evictOneLocked.
  case_match eqn:Esz; [split_and!; [lia|done|done]|].
  destruct (evict_loop _ _ _ _ _ _) as [[m v] ret] eqn:El.
  apply evict_loop_spec in El as (Hsub & Hv & Hret & Hnone); [|done].
  apply size_subseteq in Hsub as Hsz. destruct ret; [by split_and!|].
  destruct v as [[k e]|]; simpl.
  - destruct Hv as [Hk _]. split_and!; [|etrans; [apply delete_subseteq|done]|done].
    rewrite map_size_delete, Hk. assert (size m <> 0)%nat; [|lia].
    intros Hz. apply map_size_empty_inv in Hz as ->. done.
  - split_and!; [|done|done]. destruct (Hnone eq_refl eq_refl) as [_ Hgone].
    assert (m = ∅) as ->; [|rewrite map_size_empty; lia].
    apply map_empty. intros k. destruct (m !! k) eqn:Ek; [|done].
    rewrite (Hgone k) in Ek; [done|]. apply Hall. eapply lookup_weaken in Ek; [|done]. eauto.
Qed.

Lemma failed_one_bounded now b longest i :
  visits_all -> 1 <= b.(maxEntries) -> bounded b ->
  bounded (failed_one now (b, longest) i).1 /\
  (failed_one now (b, longest) i).1.(maxEntries) = b.(maxEntries).
Proof.
  intros Hall Hmax Hb. unfold failed_one; simpl.
  set (k := key i). set (e0 := default zeroEntry (byID b !! k)).
  set (found := bool_decide (is_Some (byID b !! k))).
  set (b1 := if found && expired now e0 then set_byID b (delete k (byID b)) else b).
  assert (bounded b1 /\ maxEntries b1 = maxEntries b) as [Hb1 Hm1].
  { unfold b1. case_match; [|done]. split; [|done]. unfold bounded, set_byID; simpl.
    pose proof (size_subseteq _ _ (delete_subseteq (byID b) k)). unfold bounded in Hb. lia. }
  case_match eqn:Ee.
  - destruct (evictOneLocked_room b1 now) as (Hlt & Hsub & Hm); [done|lia|done|].
    split; [|by rewrite <- Hm1, <- Hm]. unfold bounded, set_byID; simpl.
    rewrite map_size_insert. case_match; simpl; lia.
  - split; [|done]. unfold bounded, set_byID in *; simpl. rewrite map_size_insert.
    destruct (byID b1 !! k) eqn:Ek1; simpl; [lia|].
    assert (negb (found && negb (found && expired now e0)) = true); [|lia].
    unfold b1, found, e0 in *. destruct (byID b !! k) eqn:Ekb; simpl in *; [|done].
    destruct (expired now l); [done|].
    simpl in *. congruence.
Qed.

Lemma foldl_failed_bounded now ids b longest :
  visits_all -> 1 <= b.(maxEntries) -> bounded b ->
  bounded (foldl (failed_one now) (b, longest) ids).1 /\
  (foldl (failed_one now) (b, longest) ids).1.(maxEntries) = b.(maxEntries).
Proof.
  intros Hall. revert b longest. induction ids as [|i ids IH]; intros b longest Hmax Hb; [done|]; cbn [foldl].
  destruct (failed_one_bounded now b longest i) as [Hb1 Hm1]; [done..|].
  destruct (failed_one now (b, longest) i) as [b1 l1]; cbn [fst] in *.
  destruct (IH b1 l1) as [? Hm]; [lia|done|]. by rewrite Hm.
Qed.

Lemma FailedAny_snd b now ids :
  (FailedAny b now ids).2 = (foldl (failed_one now) (b, 0) (uniqueBackoffIdentities ids)).1.
Proof. unfold FailedAny. by destruct (foldl _ _ _). Qed.

Lemma boundedBackoff_range d : 0 <= boundedBackoff d <= 60 * second.
Proof. unfold boundedBackoff, second. repeat case_match; lia. Qed.

(** ** The delay sequence *)

Definition backoff_delay (f : Z) : Z :=
  if f <? 3 then 0 else second * 2 ^ (Z.min (f - 3) 5).

(** What one more failure of a live entry does. *)
Lemma failed_entry_live now e :
  expired now e = false -> 0 <= failures e ->
  failed_entry now e true =
  LoginBackoffEntry (failures e + 1)
    (if failures e + 1 <? 3 then blockedUntil e else now + backoff_delay (failures e + 1))
    (expiresAt e).
Proof.
  unfold failed_entry, expired, backoff_delay, time_add. intros Hx Hf; simpl.
  rewrite Hx. f_equal. destruct (3 <=? _) eqn:E3, (_ <? 3) eqn:E3'; try lia.
  f_equal. f_equal. case_match; rewrite Z.shiftl_1_l; f_equal; lia.
Qed.

Lemma backoff_delay_pos f : 3 <= f -> second <= backoff_delay f <= 32 * second.
Proof.
  intros Hf. unfold backoff_delay, second. replace (f <? 3) with false by lia.
  assert (1 <= 2 ^ Z.min (f - 3) 5 <= 2 ^ 5); [|lia].
  split; [|apply Z.pow_le_mono_r; lia]. pose proof (Z.pow_pos_nonneg 2 (Z.min (f - 3) 5)). lia.
Qed.

Lemma Failed_unfold b i now :
  Failed b i now = (boundedBackoff (failed_one now (b, 0) i).2, (failed_one now (b, 0) i).1).
Proof.
  unfold Failed, FailedAny, uniqueBackoffIdentities; simpl.
  by destruct (failed_one now (b, 0) i).
Qed.

Lemma RetryAfter_unfold b i now :
  RetryAfter b i now = (boundedBackoff (retry_one now (b, 0) i).2, (retry_one now (b, 0) i).1).
Proof.
  unfold RetryAfter, RetryAfterAny. change (uniqueBackoffIdentities [i]) with [i]. cbn [foldl].
  by destruct (retry_one now (b, 0) i).
Qed.

(** The record of an identity with [n] failures since [t0], the last at [t]. *)
Definition tracked (b : LoginBackoff) (i : string) (n t0 t : Z) : Prop :=
  exists e, b.(byID) !! key i = Some e /\ failures e = n /\ expiresAt e = t0 + 15 * minute /\
    blockedUntil e = (if n <? 3 then 0 else t + backoff_delay n).

Lemma longer_delay t n e :
  0 <= t -> 0 <= n ->
  blockedUntil e = (if n <? 3 then 0 else t + backoff_delay n) ->
  boundedBackoff (longer t e 0) = backoff_delay n.
Proof.
  intros Ht Hn Hb. unfold longer, time_after, time_sub. rewrite Hb.
  destruct (n <? 3) eqn:E3.
  - replace (t <? 0) with false by lia. unfold backoff_delay. by rewrite E3.
  - pose proof (backoff_delay_pos n ltac:(lia)) as Hd. unfold second in *.
    replace (t + backoff_delay n - t) with (backoff_delay n) by lia.
    rewrite saturate64_id by (unfold min_int64, max_int64; lia).
    replace (t <? t + backoff_delay n) with true by lia.
    replace (0 <? backoff_delay n) with true by lia. simpl.
    unfold boundedBackoff, second. repeat case_match; lia.
Qed.

Lemma Failed_first b i t :
  0 <= t -> b.(byID) !! key i = None ->
  (Failed b i t).1 = 0 /\ tracked (Failed b i t).2 i 1 t t.
Proof.
  intros Ht Hk. rewrite Failed_unfold. unfold failed_one. rewrite Hk; simpl.
  split.
  - unfold longer, time_after; simpl. by replace (t <? 0) with false by lia.
  - eexists. split; [by apply lookup_insert_eq|]. unfold time_add. by simpl.
Qed.

Lemma Failed_next b i n t0 t t' :
  0 <= n -> 0 <= t' < t0 + 15 * minute -> tracked b i n t0 t ->
  (Failed b i t').1 = backoff_delay (n + 1) /\ tracked (Failed b i t').2 i (n + 1) t0 t'.
Proof.
  intros Hn Ht (e & Hk & Hf & He & Hb). rewrite Failed_unfold. unfold failed_one.
  rewrite Hk, bool_decide_true by eauto; simpl.
  assert (expired t' e = false) as Hx by (unfold expired, time_after; lia).
  rewrite Hx; simpl. rewrite failed_entry_live by (done || lia). rewrite Hf.
  assert (blockedUntil (LoginBackoffEntry (n + 1) (if n + 1 <? 3 then blockedUntil e
    else t' + backoff_delay (n + 1)) (expiresAt e)) =
    (if n + 1 <? 3 then 0 else t' + backoff_delay (n + 1))) as Hb'.
  { simpl. destruct (n + 1 <? 3) eqn:E; [|done]. by replace (n <? 3) with true in Hb by lia. }
  split.
  - apply longer_delay; [lia..|done].
  - eexists. split; [by apply lookup_insert_eq|]. by rewrite Hb'.
Qed.

(** A run of failures of one identity. *)
Definition fail_all (b : LoginBackoff) (i : string) (ts : list Z) : LoginBackoff :=
  foldl (fun b t => (Failed b i t).2) b ts.

Lemma fail_all_tracked b i n t0 t ts :
  0 <= n -> tracked b i n t0 t -> Forall (fun t => 0 <= t < t0 + 15 * minute) ts ->
  tracked (fail_all b i ts) i (n + Z.of_nat (length ts)) t0 (default t (last ts)).
Proof.
  revert b n t. induction ts as [|t1 ts IH] using rev_ind; intros b n t Hn Ht Hts.
  { simpl. by rewrite Z.add_0_r. }
  apply Forall_app in Hts as [Hts [Ht1 _]%Forall_cons].
  unfold fail_all. rewrite foldl_snoc, last_snoc, length_app; simpl.
  assert (0 <= n + Z.of_nat (length ts)) as Hn' by lia.
  destruct (Failed_next _ i _ t0 _ t1 Hn' Ht1 (IH b n t Hn Ht Hts)) as [_ H'].
  by replace (n + Z.of_nat (length ts + 1)) with (n + Z.of_nat (length ts) + 1) by lia.
Qed.

(** ** The eviction policy *)

Lemma evictsBefore_irrefl now e : evictsBefore now e e = false.
Proof. unfold evictsBefore, time_before. rewrite Z.eqb_refl, Bool.eqb_reflx. apply Z.ltb_irrefl. Qed.

(** [evictsBefore] is a strict weak order: the running minimum is a minimum. *)
Lemma evictsBefore_asym now x v : evictsBefore now x v = true -> evictsBefore now v x = false.
Proof.
  unfold evictsBefore, time_before, time_after. rewrite (Z.eqb_sym (failures v)).
  destruct (failures x =? failures v) eqn:E; simpl; [|lia].
  destruct (now <? blockedUntil x), (now <? blockedUntil v); simpl; lia.
Qed.

Lemma evictsBefore_negtrans now y v w :
  evictsBefore now y v = false -> evictsBefore now v w = false -> evictsBefore now y w = false.
Proof.
  unfold evictsBefore, time_before, time_after.
  destruct (failures y =? failures v) eqn:E1, (failures v =? failures w) eqn:E2,
    (failures y =? failures w) eqn:E3; simpl; try lia;
  destruct (now <? blockedUntil w), (now <? blockedUntil y), (now <? blockedUntil v);
    simpl; lia.
Qed.

Lemma evict_loop_minimal max now order m v sampled m' k e :
  Forall (fun k => exists e, m !! k = Some e /\ expired now e = false) order ->
  (match v with Some (kv, ev) => m !! kv = Some ev | None => True end) ->
  0 <= sampled < backoffEvictionSampleSize ->
  evict_loop max now order m v sampled = (m', Some (k, e), false) ->
  m' = m /\ m !! k = Some e /\
  (match v with Some (_, ev) => evictsBefore now ev e = false | None => True end) /\
  forall k' e', k' ∈ take (Z.to_nat (backoffEvictionSampleSize - sampled)) order ->
    m !! k' = Some e' -> evictsBefore now e' e = false.
Proof.
  revert v sampled. induction order as [|k1 order IH]; intros v sampled Hlive Hv Hs; simpl.
  { intros [= -> ->]; subst. split_and!; try done; [apply evictsBefore_irrefl|].
    rewrite take_nil. set_solver. }
  apply Forall_cons in Hlive as [(e1 & Hk1 & Hx1) Hlive]. rewrite Hk1, Hx1.
  set (v1 := match v with None => Some (k1, e1) | Some (_, ve) => if evictsBefore now e1 ve then Some (k1, e1) else v end).
  assert (exists kv ev, v1 = Some (kv, ev) /\ m !! kv = Some ev /\ evictsBefore now e1 ev = false /\
    match v with Some (_, ve) => evictsBefore now ve ev = false | None => True end)
    as (kv & ev & Hv1 & Hkv & He1 & Hve).
  { unfold v1. destruct v as [[kv ev]|]; [destruct (evictsBefore now e1 ev) eqn:Eb|];
      eexists _, _; split_and!; eauto using evictsBefore_irrefl.
    by apply evictsBefore_asym. }
  rewrite Hv1. assert (Z.to_nat (backoffEvictionSampleSize - sampled) =
    S (Z.to_nat (backoffEvictionSampleSize - (sampled + 1)))) as -> by lia. simpl.
  destruct (backoffEvictionSampleSize <=? sampled + 1) eqn:Elast.
  - intros [= <- <- <-]. split_and!; try done.
    replace (Z.to_nat _) with 0%nat by lia. rewrite take_0.
    intros k' e' ->%list_elem_of_singleton ?. by simplify_eq.
  - intros Hl. apply IH in Hl as (-> & Hk & Hm & Hall); [|done|done|lia].
    split_and!; [done|done| |].
    + destruct v as [[kv0 ev0]|]; [|done]. by eapply evictsBefore_negtrans.
    + intros k' e' [->|Hin]%elem_of_cons Hk'; [|by eapply Hall].
      simplify_eq. by eapply evictsBefore_negtrans.
Qed.

Lemma evict_loop_live max now order m v sampled :
  Forall (fun k => exists e, m !! k = Some e /\ expired now e = false) order ->
  order <> [] \/ v <> None ->
  exists k e, evict_loop max now order m v sampled = (m, Some (k, e), false).
Proof.
  revert v sampled. induction order as [|k1 order IH]; intros v sampled Hlive Hne; simpl.
  { destruct v as [[k e]|]; [eauto|naive_solver]. }
  apply Forall_cons in Hlive as [(e1 & Hk1 & Hx1) Hlive]. rewrite Hk1, Hx1.
  match goal with |- context [if _ then (m, ?v1, false) else _] => assert (v1 <> None) as Hv1 end.
  { destruct v as [[kv ev]|]; [case_match|]; done. }
  destruct (backoffEvictionSampleSize <=? sampled + 1); [|apply IH; auto].
  match goal with |- context [(m, ?v1, false)] => destruct v1 as [[k e]|]; [eauto|done] end.
Qed.


(** The table of failures never outgrows its bound: recording failures,
    whatever identities they name and whatever order [range] visits the map
    in, keeps the number of entries at most [maxEntries], and the delay
    returned is between zero and sixty seconds. *)
Theorem FailedAny_bounded b now ids :
  visits_all -> 1 <= b.(maxEntries) -> bounded b ->
  bounded (FailedAny b now ids).2 /\
  (FailedAny b now ids).2.(maxEntries) = b.(maxEntries) /\
  0 <= (FailedAny b now ids).1 <= 60 * second.
Proof.
  intros Hall Hmax Hb. rewrite FailedAny_snd.
  destruct (foldl_failed_bounded now (uniqueBackoffIdentities ids) b 0) as [H1 H2]; [done..|].
  split_and!; try done; unfold FailedAny; destruct (foldl _ _ _); apply boundedBackoff_range.
Qed.

(** The backoff schedule.  For an identity with no record, the n-th
    failure inside one fifteen-minute window returns no delay for n below
    three and then 1, 2, 4, 8, 16 and at most 32 seconds. *)
Theorem Failed_schedule b i t0 ts t :
  0 <= t0 -> b.(byID) !! key i = None ->
  Forall (fun t => 0 <= t < t0 + 15 * minute) (ts ++ [t]) ->
  (Failed b i t0).1 = 0 /\
  (Failed (fail_all (Failed b i t0).2 i ts) i t).1 = backoff_delay (Z.of_nat (length ts) + 2).
Proof.
  intros Ht0 Hk [Hts [Ht _]%Forall_cons]%Forall_app.
  destruct (Failed_first b i t0 Ht0 Hk) as [H1 Htr]. split; [done|].
  pose proof (fail_all_tracked _ i 1 t0 t0 ts ltac:(done) Htr Hts) as Htr'.
  assert (0 <= 1 + Z.of_nat (length ts)) as Hn by lia.
  destruct (Failed_next _ i _ t0 _ t Hn Ht Htr') as [-> _]. f_equal. lia.
Qed.

(** Making room never drops an identity under attack before a quieter
    one.  In a full table with no expired entry, exactly one entry goes, and
    among the entries sampled no other is a better victim: none has fewer
    recorded failures. *)
Theorem evictOneLocked_policy b now :
  1 <= b.(maxEntries) -> b.(maxEntries) <= Z.of_nat (size b.(byID)) ->
  (forall k, k ∈ range_order b.(byID) <-> is_Some (b.(byID) !! k)) ->
  (forall k e, b.(byID) !! k = Some e -> expired now e = false) ->
  exists k e, b.(byID) !! k = Some e /\
    evictOneLocked b now = mkLoginBackoff b.(maxEntries) (delete k b.(byID)) (b.(evictions) + 1) /\
    forall k' e', k' ∈ take 32 (range_order b.(byID)) -> b.(byID) !! k' = Some e' ->
      evictsBefore now e' e = false /\ failures e <= failures e'.
Proof.
  intros Hmax Hfull Hord Hlive.
  assert (Forall (fun k => exists e, byID b !! k = Some e /\ expired now e = false)
            (range_order (byID b))) as Hall.
  { apply Forall_forall. intros k [e He]%Hord. eauto. }
  assert (range_order (byID b) <> []) as Hne.
  { destruct (map_choose (byID b)) as (k & e & Hk).
    { intros Hz. rewrite Hz, map_size_empty in Hfull. lia. }
    assert (k ∈ range_order (byID b)) as Hin by (apply Hord; eauto). intros Hnil.
    rewrite Hnil in Hin. set_solver. }
  destruct (evict_loop_live (maxEntries b) now _ (byID b) None 0 Hall (or_introl Hne)) as (k & e & El).
  pose proof El as El'. apply evict_loop_minimal in El' as (_ & Hk & _ & Hmin); [|done..].
  exists k, e. split_and!; [done| |].
  - unfold evictOneLocked. rewrite El. by replace (_ <? _) with false by lia.
  - intros k' e' Hin Hk'. pose proof (Hmin k' e' Hin Hk') as Hev. split; [done|].
    revert Hev. unfold evictsBefore. case_match eqn:Ef; [lia|]. bool_to_prop. lia.
Qed.

(** Recording a failure against an entry whose window has passed restarts the
    window but keeps the old count, where reading the delay first drops the
    entry and starts from nothing. *)
Lemma Failed_expired_keeps_count b i now e :
  b.(byID) !! key i = Some e -> expired now e = true ->
  Z.of_nat (size b.(byID)) <= b.(maxEntries) ->
  (exists e', (Failed b i now).2.(byID) !! key i = Some e' /\ failures e' = failures e + 1) /\
  (exists e', (Failed (RetryAfter b i now).2 i now).2.(byID) !! key i = Some e' /\ failures e' = 1).
Proof.
  intros Hk Hx Hb. split.
  - rewrite Failed_unfold. unfold failed_one. rewrite Hk; simpl. rewrite Hx; simpl.
    eexists. split; [by apply lookup_insert_eq|done].
  - rewrite Failed_unfold, RetryAfter_unfold. unfold retry_one. rewrite Hk, Hx. cbn [snd fst].
    unfold failed_one; simpl. rewrite lookup_delete_eq; simpl.
    eexists. split; [by apply lookup_insert_eq|done].
Qed.

End login_backoff.

(** ** Examples with the identity as its own hash *)

Definition ex_order (m : gmap string loginBackoffEntry) : list string := (map_to_list m).*1.

Lemma ex_visits_all : visits_all ex_order.
Proof.
  intros m k [e He]. unfold ex_order. apply list_elem_of_fmap. exists (k, e).
  split; [done|]. by apply elem_of_map_to_list.
Qed.

Definition ex_small : LoginBackoff (K := string) :=
  mkLoginBackoff 2 {[ "a" := LoginBackoffEntry 5 0 (10 * second); "b" := LoginBackoffEntry 1 0 (20 * second) ]} 0.

(** A third identity in a table of two: "b" is evicted, "a" stays. *)
Lemma FailedAny_bounded_witness :
  bounded (FailedAny id ex_order ex_small second ["C "; "c"]).2 /\
  dom (FailedAny id ex_order ex_small second ["C "; "c"]).2.(byID) = {["a"; "c"]}.
Proof.
  split; [|vm_compute; reflexivity].
  apply (FailedAny_bounded id ex_order ex_small second ["C "; "c"] ex_visits_all);
    vm_compute; discriminate.
Defined.

Lemma Failed_schedule_witness :
  (Failed id ex_order (fail_all id ex_order (Failed id ex_order NewLoginBackoff "u" 1).2 "u" [2; 3]) "u" 4).1 = 2 * second.
Proof.
  destruct (Failed_schedule id ex_order NewLoginBackoff "u" 1 [2; 3] 4) as [_ H].
  - lia.
  - apply lookup_empty.
  - repeat (apply Forall_cons; split; [unfold minute, second; lia|]). apply Forall_nil, I.
  - exact H.
Defined.

Lemma evictOneLocked_policy_witness :
  exists k e, byID ex_small !! k = Some e /\
    evictOneLocked ex_order ex_small second = mkLoginBackoff 2 (delete k (byID ex_small)) 1 /\ failures e <= 5.
Proof.
  destruct (evictOneLocked_policy ex_order ex_small second) as (k & e & Hk & He & Hp).
  - vm_compute. discriminate.
  - vm_compute. discriminate.
  - intros k. split; [|apply ex_visits_all].
    intros [[k' e] [-> Hin]]%list_elem_of_fmap. apply elem_of_map_to_list in Hin. eauto.
  - intros k e. unfold ex_small; simpl.
    rewrite lookup_insert. case_decide; [intros [= <-]; reflexivity|].
    rewrite lookup_singleton. case_decide; [intros [= <-]; reflexivity|done].
  - exists k, e. split; [exact Hk|]. split; [exact He|].
    apply (Hp "a" (LoginBackoffEntry 5 0 (10 * second))); [|reflexivity].
    assert (take 32 (ex_order (byID ex_small)) = ["a"; "b"]) as -> by (vm_compute; reflexivity).
    set_solver.
Defined.
