(* ===== verification/Admission.v ===== *)
(** * Write admission: rejection counters and the per-account budget

    Models [server/internal/admission/admission.go].  A [Budget] is a table
    of token buckets.  Buckets are shared objects in the Go code (the table,
    the overflow slot and every unsettled [Ticket] point to them), so they
    live in a heap here and the table and the tickets hold pointers.

    Balances are float64 values.  The model is generic in the number type:
    the class [Float64] lists the few facts about float64 arithmetic on
    non-NaN values that the proofs use, all of which also hold of exact
    arithmetic ([Float64_Z]). *)

From S2P Require Import Prelude.
From stdpp Require Import base numbers list strings gmap fin_maps.
From Stdlib Require Import ZArith ZifyBool Lia.
Open Scope Z_scope.

(** ** Rejection counters *)

Definition Storage : string := "storage".
Definition Blobs : string := "blobs".
Definition Devices : string := "devices".
Definition DeviceLinks : string := "device_links".
Definition Conversations : string := "conversations".
Definition Members : string := "conversation_members".
Definition KeyPackages : string := "key_package_claims".
Definition SelfUpdates : string := "mls_self_updates".
Definition Deliveries : string := "deliveries".
Definition WriteBytes : string := "write_bytes".
Definition Disk : string := "disk".

Definition Names : list string :=
  [Storage; Blobs; Devices; DeviceLinks; Conversations; Members; KeyPackages;
   SelfUpdates; Deliveries; WriteBytes; Disk].

(** One counter per name; [None] is a nil [*Counters]. *)
Definition Counters : Type := option (list Z).
Definition NewCounters : Counters := Some (replicate (length Names) 0).

Fixpoint reject_loop (names : list string) (limit : string) (counts : list Z) : list Z :=
  match names, counts with
  | name :: names, c :: counts =>
      if bool_decide (name = limit) then (c + 1) :: counts
      else c :: reject_loop names limit counts
  | _, _ => counts
  end.

Definition Reject (limit : string) (c : Counters) : Counters :=
  match c with
  | None => None
  | Some counts => Some (reject_loop Names limit counts)
  end.

(** The pairs [Each] passes to its callback, in order. *)
Definition Each (c : Counters) : list (string * Z) :=
  zip Names (match c with Some counts => counts | None => replicate (length Names) 0 end).

(** ** float64 *)

Class Float64 := {
  f64 : Type;
  fadd : f64 -> f64 -> f64;
  fsub : f64 -> f64 -> f64;
  fmul : f64 -> f64 -> f64;
  fdiv : f64 -> f64 -> f64;
  flt : f64 -> f64 -> bool;
  float64 : Z -> f64;               (* conversion from an integer *)
  to_int64 : f64 -> Z;              (* conversion to time.Duration *)
  flt_irrefl x : flt x x = false;
  flt_negtrans x y z : flt x y = false -> flt y z = false -> flt x z = false;
  float64_nonneg n : 0 <= n -> flt (float64 n) (float64 0) = false;
  fsub_le x y : flt y (float64 0) = false -> flt x (fsub x y) = false }.

(** [math.Min] away from NaN. *)
Definition fmin `{Float64} (x y : f64) : f64 := if flt x y then x else y.
Definition fge `{Float64} (x y : f64) : bool := negb (flt x y).

(** [Duration.Minutes] and [Duration.Hours]. *)
Definition Minutes `{Float64} (d : Z) : f64 :=
  fadd (float64 (Z.quot d minute)) (fdiv (float64 (Z.rem d minute)) (float64 minute)).
Definition Hours `{Float64} (d : Z) : f64 :=
  fadd (float64 (Z.quot d hour)) (fdiv (float64 (Z.rem d hour)) (float64 hour)).

Definition maxBudgetEntries : Z := 65536.

Section budget.
Context `{Float64}.

Record bucket := Bucket {
  deliveries : f64;
  bytes : f64;
  updated : Z;
  outstanding : Z }.

Abbreviation ptr := nat (only parsing).

(** [heap] and [next] are the allocator; [buckets] and [overflow] are the
    fields of the same name. *)
Record Budget := mkBudget {
  deliveriesPerMinute : f64;
  bytesPerHour : f64;
  counters : Counters;
  maxEntries : Z;
  buckets : gmap string ptr;
  overflow : ptr;
  heap : gmap ptr bucket;
  next : ptr }.

Definition NewBudget (perMinute perHour : Z) (c : Counters) : Budget :=
  mkBudget (float64 perMinute) (float64 perHour) c maxBudgetEntries ∅ 0%nat
    {[ 0%nat := Bucket (float64 perMinute) (float64 perHour) 0 0 ]} 1%nat.

Definition set_heap (b : Budget) (h : gmap ptr bucket) : Budget :=
  mkBudget b.(deliveriesPerMinute) b.(bytesPerHour) b.(counters) b.(maxEntries)
    b.(buckets) b.(overflow) h b.(next).

Definition set_counters (b : Budget) (c : Counters) : Budget :=
  mkBudget b.(deliveriesPerMinute) b.(bytesPerHour) c b.(maxEntries)
    b.(buckets) b.(overflow) b.(heap) b.(next).

Definition set_buckets (b : Budget) (m : gmap string ptr) : Budget :=
  mkBudget b.(deliveriesPerMinute) b.(bytesPerHour) b.(counters) b.(maxEntries)
    m b.(overflow) b.(heap) b.(next).

Definition refill (b : Budget) (now : Z) (bk : bucket) : bucket :=
  let elapsed := time_sub now bk.(updated) in
  if 0 <? elapsed then
    Bucket
      (fmin b.(deliveriesPerMinute)
         (fadd bk.(deliveries) (fmul (Minutes elapsed) b.(deliveriesPerMinute))))
      (fmin b.(bytesPerHour) (fadd bk.(bytes) (fmul (Hours elapsed) b.(bytesPerHour))))
      now bk.(outstanding)
  else bk.

Definition full (b : Budget) (bk : bucket) : bool :=
  fge bk.(deliveries) b.(deliveriesPerMinute) && fge bk.(bytes) b.(bytesPerHour).

(** The order in which [range] visits the table. *)
Context (range_order : gmap string ptr -> list string).

Fixpoint evict_loop (now : Z) (order : list string) (sampled : Z) (b : Budget) : bool * Budget :=
  match order with
  | [] => (false, b)
  | key :: order =>
      match b.(buckets) !! key ≫= (fun p => pair p <$> b.(heap) !! p) with
      | None => evict_loop now order sampled b
      | Some (p, bk) =>
          let bk := refill b now bk in
          let b := set_heap b (<[p := bk]> b.(heap)) in
          if (bk.(outstanding) =? 0) && full b bk
          then (true, set_buckets b (delete key b.(buckets)))
          else if 64 <=? sampled + 1 then (false, b)
          else evict_loop now order (sampled + 1) b
      end
  end.

Definition evictLocked (b : Budget) (now : Z) : bool * Budget :=
  evict_loop now (range_order b.(buckets)) 0 b.

(** [once] guards [Settle]; [bk] is the bucket [Reserve] debited. *)
Record Ticket := mkTicket {
  t_bk : ptr;
  t_deliveries : f64;
  t_bytes : f64;
  t_once : bool }.

(** The bucket a request of [accountID] is charged to, allocated if need be. *)
Definition bucket_for (b : Budget) (accountID : string) (now : Z) : ptr * Budget :=
  match b.(buckets) !! accountID with
  | Some p => (p, b)
  | None =>
      let '(room, b) :=
        if Z.of_nat (size b.(buckets)) <? b.(maxEntries) then (true, b) else evictLocked b now in
      if (room : bool) then
        let p := b.(next) in
        (p, mkBudget b.(deliveriesPerMinute) b.(bytesPerHour) b.(counters) b.(maxEntries)
              (<[accountID := p]> b.(buckets)) b.(overflow)
              (<[p := Bucket b.(deliveriesPerMinute) b.(bytesPerHour) now 0]> b.(heap))
              (S p))
      else
        let p := b.(overflow) in
        (p, set_heap b (alter (fun bk => if time_is_zero bk.(updated)
              then Bucket bk.(deliveries) bk.(bytes) now bk.(outstanding) else bk) p b.(heap)))
  end.

Definition delivery_wait (b : Budget) (bk : bucket) (need : f64) : Z :=
  to_int64 (fmul (fdiv (fsub need bk.(deliveries)) b.(deliveriesPerMinute)) (float64 minute)).
Definition byte_wait (b : Budget) (bk : bucket) (needBytes : f64) : Z :=
  to_int64 (fmul (fdiv (fsub needBytes bk.(bytes)) b.(bytesPerHour)) (float64 hour)).

(** [None] for Go's nil ticket, with how long until the request would fit. *)
Definition Reserve (b : Budget) (accountID : string) (ds bs now : Z) : option Ticket * Z * Budget :=
  let need := float64 (Z.max ds 1) in
  let needBytes := float64 (Z.max bs 0) in
  let '(p, b) := bucket_for b accountID now in
  match b.(heap) !! p with
  | None => (None, 0, b)
  | Some bk =>
      let bk := refill b now bk in
      let b := set_heap b (<[p := bk]> b.(heap)) in
      let '(wait, limit) :=
        if flt bk.(deliveries) need then (delivery_wait b bk need, Some Deliveries) else (0, None) in
      let '(wait, limit) :=
        if flt bk.(bytes) needBytes then
          let byteWait := byte_wait b bk needBytes in
          (if wait <? byteWait then byteWait else wait, Some WriteBytes)
        else (wait, limit) in
      match limit with
      | Some l => (None, Z.max wait second, set_counters b (Reject l b.(counters)))
      | None =>
          (Some (mkTicket p need needBytes false), 0,
           set_heap b (<[p := Bucket (fsub bk.(deliveries) need) (fsub bk.(bytes) needBytes)
                                bk.(updated) (bk.(outstanding) + 1)]> b.(heap)))
      end
  end.

Definition Settle (t : Ticket) (ds bs : Z) (b : Budget) : Ticket * Budget :=
  if t.(t_once) then (t, b) else
  (mkTicket t.(t_bk) t.(t_deliveries) t.(t_bytes) true,
   set_heap b (alter (fun bk =>
     Bucket
       (fmin b.(deliveriesPerMinute)
          (fsub (fadd bk.(deliveries) t.(t_deliveries)) (float64 (Z.max ds 0))))
       (fmin b.(bytesPerHour)
          (fsub (fadd bk.(bytes) t.(t_bytes)) (float64 (Z.max bs 0))))
       bk.(updated)
       (if 0 <? bk.(outstanding) then bk.(outstanding) - 1 else bk.(outstanding)))
     t.(t_bk) b.(heap))).

Definition Len (b : Budget) : Z := Z.of_nat (size b.(buckets)).

End budget.

(** ** Runs of the budget *)

(** The budget together with the tickets handed out, newest first, each with
    the account it was issued to. *)
Section system.
Context `{Float64}.

Record sys := mkSys { budget : Budget; tickets : list (string * Ticket) }.

Inductive step : sys -> sys -> Prop :=
| step_reserve order b ts a ds bs now t wait b' :
    Reserve order b a ds bs now = (Some t, wait, b') ->
    step (mkSys b ts) (mkSys b' ((a, t) :: ts))
| step_refuse order b ts a ds bs now wait b' :
    Reserve order b a ds bs now = (None, wait, b') ->
    step (mkSys b ts) (mkSys b' ts)
| step_settle b ts i a t ds bs t' b' :
    ts !! i = Some (a, t) -> Settle t ds bs b = (t', b') ->
    step (mkSys b ts) (mkSys b' (<[i := (a, t')]> ts)).

Definition open_on (p : nat) (t : Ticket) : bool := negb t.(t_once) && bool_decide (t.(t_bk) = p).

Definition pending (p : nat) (ts : list (string * Ticket)) : Z :=
  foldr Z.add 0 (map (fun at_ => if open_on p at_.2 then 1 else 0) ts).

(** A balance never exceeds its window's allowance. *)
Definition within (b : Budget) (bk : bucket) : Prop :=
  flt b.(deliveriesPerMinute) bk.(deliveries) = false /\
  flt b.(bytesPerHour) bk.(bytes) = false.

Record inv (s : sys) : Prop := {
  inv_alloc p : is_Some (s.(budget).(heap) !! p) -> (p < s.(budget).(next))%nat;
  inv_overflow : is_Some (s.(budget).(heap) !! s.(budget).(overflow));
  inv_table a p : s.(budget).(buckets) !! a = Some p ->
    is_Some (s.(budget).(heap) !! p) /\ p <> s.(budget).(overflow);
  inv_inj a1 a2 p : s.(budget).(buckets) !! a1 = Some p ->
    s.(budget).(buckets) !! a2 = Some p -> a1 = a2;
  inv_count p bk : s.(budget).(heap) !! p = Some bk -> bk.(outstanding) = pending p s.(tickets);
  inv_ticket a t : (a, t) ∈ s.(tickets) -> t.(t_once) = false ->
    t.(t_bk) = s.(budget).(overflow) \/ s.(budget).(buckets) !! a = Some t.(t_bk);
  inv_size : Len s.(budget) <= s.(budget).(maxEntries);
  inv_within p bk : s.(budget).(heap) !! p = Some bk -> within s.(budget) bk }.

(** *** Order facts *)

Lemma fmin_le_l x y : flt x (fmin x y) = false.
Proof.
  unfold fmin. destruct (flt x y) eqn:E; [apply flt_irrefl|done].
Qed.

Lemma refill_within b now bk : within b bk -> within b (refill b now bk).
Proof.
  unfold refill, within. case_match; [|done]. intros _. simpl. split; apply fmin_le_l.
Qed.

Lemma refill_outstanding b now bk : outstanding (refill b now bk) = outstanding bk.
Proof. unfold refill. by case_match. Qed.

Lemma pending_nonneg p ts : 0 <= pending p ts.
Proof. unfold pending. induction ts as [|[a t] ts IH]; simpl; [lia|]. case_match; lia. Qed.

Lemma pending_in p ts a t : (a, t) ∈ ts -> open_on p t = true -> 1 <= pending p ts.
Proof.
  intros Hin Ho. induction ts as [|[a' t'] ts IH]; [set_solver|].
  pose proof (pending_nonneg p ts). unfold pending in *; simpl in *.
  apply elem_of_cons in Hin as [[= <- <-]|Hin].
  - rewrite Ho. lia.
  - specialize (IH Hin). case_match; lia.
Qed.

Lemma pending_insert p ts i a t t' :
  ts !! i = Some (a, t) ->
  pending p (<[i := (a, t')]> ts) =
  pending p ts - (if open_on p t then 1 else 0) + (if open_on p t' then 1 else 0).
Proof.
  revert i. induction ts as [|[a1 t1] ts IH]; intros [|i]; simpl; try done.
  - intros [= -> ->]. unfold pending; simpl. lia.
  - intros Hi. specialize (IH i Hi). unfold pending in *; simpl. lia.
Qed.

Lemma pending_zero_or_open p ts :
  pending p ts = 0 \/ exists a t, (a, t) ∈ ts /\ open_on p t = true.
Proof.
  induction ts as [|[a t] ts IH]; [by left|]. unfold pending in *; simpl.
  destruct (open_on p t) eqn:E; [right; exists a, t; set_solver|].
  destruct IH as [->|(a' & t' & ? & ?)]; [by left|]. right. exists a', t'. set_solver.
Qed.

Lemma refill_idem b now bk : refill b now (refill b now bk) = refill b now bk.
Proof.
  unfold refill at 2 3. case_match eqn:E; [|unfold refill; by rewrite E].
  unfold refill. simpl. unfold time_sub at 1. by rewrite Z.sub_diag.
Qed.

(** *** Preservation, one mutation at a time *)

Lemma inv_update b ts p bk bk' :
  inv (mkSys b ts) -> b.(heap) !! p = Some bk ->
  outstanding bk' = outstanding bk -> within b bk' ->
  inv (mkSys (set_heap b (<[p := bk']> b.(heap))) ts).
Proof.
  intros [Ha Ho Ht Hi Hc Htk Hs Hw] Hp Hout Hwi; simpl in *. split; simpl; try done.
  - intros q. rewrite lookup_insert. case_decide; subst; eauto.
  - rewrite lookup_insert. case_decide; subst; eauto.
  - intros a q Hq. rewrite lookup_insert. destruct (Ht a q Hq). case_decide; subst; eauto.
  - intros q bq. rewrite lookup_insert. case_decide; subst; [|by apply Hc].
    intros [= <-]. rewrite Hout. by apply Hc.
  - intros q bq. rewrite lookup_insert. case_decide; subst; [by intros [= <-]|apply Hw].
Qed.

Lemma inv_evict b ts key p bk :
  inv (mkSys b ts) -> b.(buckets) !! key = Some p -> b.(heap) !! p = Some bk ->
  outstanding bk = 0 -> inv (mkSys (set_buckets b (delete key b.(buckets))) ts).
Proof.
  intros [Ha Ho Ht Hi Hc Htk Hs Hw] Hk Hp Hout; simpl in *. split; simpl; try done.
  - intros a q [_ Hq]%lookup_delete_Some. by apply (Ht a).
  - intros a1 a2 q [_ H1]%lookup_delete_Some [_ H2]%lookup_delete_Some. by apply (Hi a1 a2 q).
  - intros a t Hin Hopen. destruct (Htk a t Hin Hopen) as [|Hat]; [by left|right].
    rewrite lookup_delete_ne; [done|]. intros <-. simplify_eq.
    pose proof (pending_in (t_bk t) ts key t Hin) as Hpd. unfold open_on in Hpd.
    rewrite Hopen, bool_decide_true in Hpd by done. rewrite (Hc _ _ Hp) in Hout.
    specialize (Hpd eq_refl). lia.
  - unfold Len in *; simpl. rewrite map_size_delete, Hk. lia.
Qed.

Lemma inv_counters b ts c : inv (mkSys b ts) -> inv (mkSys (set_counters b c) ts).
Proof. by intros []; split. Qed.

(** What the sampling loop may do: refill buckets, and drop at most one table
    entry, whose bucket is full and has no unsettled ticket. *)
Lemma budget_evict_loop_spec now order sampled b ts r b' :
  inv (mkSys b ts) -> evict_loop now order sampled b = (r, b') ->
  inv (mkSys b' ts) /\
  b'.(overflow) = b.(overflow) /\ b'.(maxEntries) = b.(maxEntries) /\
  b'.(deliveriesPerMinute) = b.(deliveriesPerMinute) /\ b'.(bytesPerHour) = b.(bytesPerHour) /\
  if r then exists key p bk, b.(buckets) !! key = Some p /\ b.(heap) !! p = Some bk /\
    b'.(buckets) = delete key b.(buckets) /\ outstanding bk = 0 /\
    full b (refill b now bk) = true
  else b'.(buckets) = b.(buckets).
Proof.
  revert sampled b. induction order as [|key order IH]; intros sampled b Hinv; simpl.
  { by intros [= <- <-]. }
  destruct (buckets b !! key) as [p|] eqn:Hk; simpl; [|by apply IH].
  destruct (heap b !! p) as [bk|] eqn:Hp; simpl; [|by apply IH].
  assert (inv (mkSys (set_heap b (<[p := refill b now bk]> (heap b))) ts)) as Hinv1.
  { apply (inv_update b ts p bk); [done..|apply refill_outstanding|].
    apply refill_within, (inv_within _ Hinv p bk Hp). }
  destruct ((_ =? 0) && _) eqn:Ef; bool_to_prop.
  - intros [= <- <-]. rewrite refill_outstanding in *. split; [|split_and!; try done].
    + refine (inv_evict (set_heap b (<[p := refill b now bk]> (heap b))) ts key p
                (refill b now bk) _ _ _ _); [done|done| |by rewrite refill_outstanding].
      apply lookup_insert_eq.
    + exists key, p, bk. by split_and!.
  - destruct (64 <=? sampled + 1).
    + by intros [= <- <-].
    + intros Hl. apply IH in Hl as (Hi & Ho & Hm & Hd & Hb & Hr); [|done].
      split_and!; try done. destruct r; [|done].
      destruct Hr as (key' & p' & bk' & Hk' & Hp' & Hdel & Hout & Hfull).
      simpl in *. destruct (decide (p = p')) as [<-|Hne].
      * rewrite lookup_insert_eq in Hp'. simplify_eq. exists key', p, bk.
        rewrite refill_outstanding in Hout. split_and!; try done.
        by rewrite <- (refill_idem b now bk).
      * rewrite lookup_insert_ne in Hp' by done. by exists key', p', bk'.
Qed.

Lemma evictLocked_spec range_order now b ts r b' :
  inv (mkSys b ts) -> evictLocked range_order b now = (r, b') ->
  inv (mkSys b' ts) /\ b'.(overflow) = b.(overflow) /\ b'.(maxEntries) = b.(maxEntries) /\
  (r = true -> Len b' = Len b - 1).
Proof.
  intros Hinv He. apply budget_evict_loop_spec with (ts := ts) in He as (Hi & Ho & Hm & _ & _ & Hr); [|done].
  split_and!; try done. intros ->. destruct Hr as (key & p & bk & Hk & Hp & Hd & _).
  unfold Len. rewrite Hd, map_size_delete, Hk.
  assert (size (buckets b) <> 0)%nat; [|lia].
  intros Hz. apply map_size_empty_inv in Hz. by rewrite Hz, lookup_empty in Hk.
Qed.

(** A fresh bucket for an account that has none. *)
Lemma inv_fresh b ts a now :
  inv (mkSys b ts) -> b.(buckets) !! a = None -> Len b < b.(maxEntries) ->
  inv (mkSys (mkBudget b.(deliveriesPerMinute) b.(bytesPerHour) b.(counters) b.(maxEntries)
    (<[a := b.(next)]> b.(buckets)) b.(overflow)
    (<[b.(next) := Bucket b.(deliveriesPerMinute) b.(bytesPerHour) now 0]> b.(heap))
    (S b.(next))) ts).
Proof.
  intros [Ha Ho Ht Hi Hc Htk Hs Hw] Hk Hlen; simpl in *.
  assert (heap b !! next b = None) as Hfresh.
  { destruct (heap b !! next b) eqn:E; [|done]. specialize (Ha (next b)).
    rewrite E in Ha. specialize (Ha ltac:(eauto)). lia. }
  assert (pending (next b) ts = 0) as Hp0.
  { destruct (pending_zero_or_open (next b) ts) as [|(a' & t & Hin & Hopen)]; [done|].
    unfold open_on in Hopen. apply andb_prop in Hopen as [Hn%negb_true_iff Hb%bool_decide_eq_true].
    destruct (Htk a' t Hin Hn) as [He|He]; [rewrite <- Hb, He in Hfresh; destruct Ho; congruence|].
    apply Ht in He as [[? He] _]. congruence. }
  split; simpl.
  - intros q [bq Hq]. rewrite lookup_insert in Hq. case_decide; [lia|].
    specialize (Ha q ltac:(eauto)). lia.
  - rewrite lookup_insert. case_decide; eauto.
  - intros a' q. rewrite lookup_insert. case_decide.
    + intros [= <-]. rewrite lookup_insert_eq. split; [eauto|]. intros Heq.
      destruct Ho as [? Ho]. rewrite <- Heq in Ho. congruence.
    + intros Hq. destruct (Ht _ _ Hq) as [[bq Hbq] ?]. split; [|done].
      rewrite lookup_insert. case_decide; eauto.
  - assert (forall a' q, buckets b !! a' = Some q -> q <> next b) as Hold.
    { intros a' q Hq ->. apply Ht in Hq as [[? Hq] _]. congruence. }
    intros a1 a2 q. rewrite !lookup_insert. repeat case_decide; subst; try done.
    + intros [= <-] ?%Hold. done.
    + intros ?%Hold [= <-]. done.
    + apply Hi.
  - intros q bq. rewrite lookup_insert. case_decide; subst; [|apply Hc].
    intros [= <-]. by rewrite Hp0.
  - intros a' t Hin Hopen. destruct (Htk a' t Hin Hopen) as [|Hat]; [by left|right].
    rewrite lookup_insert_ne; [done|]. intros <-. congruence.
  - unfold Len in *; simpl. rewrite map_size_insert, Hk. simpl. lia.
  - intros q bq. rewrite lookup_insert. case_decide; [|apply Hw].
    intros [= <-]. split; apply flt_irrefl.
Qed.

Lemma bucket_for_spec order b ts a now p b' :
  inv (mkSys b ts) -> bucket_for order b a now = (p, b') ->
  inv (mkSys b' ts) /\ is_Some (b'.(heap) !! p) /\
  (p = b'.(overflow) \/ b'.(buckets) !! a = Some p).
Proof.
  intros Hinv. unfold bucket_for. destruct (buckets b !! a) as [q|] eqn:Ha.
  { intros [= <- <-]. split_and!; [done|by apply (inv_table _ Hinv a q)|by right]. }
  destruct (if _ <? _ then _ else _) as [room b1] eqn:Eroom.
  assert (inv (mkSys b1 ts) /\ b1.(buckets) !! a = None /\
          (room = true -> Len b1 < b1.(maxEntries))) as (Hinv1 & Ha1 & Hroom).
  { destruct (_ <? _) eqn:Esz in Eroom.
    - simplify_eq. split_and!; [done..|]. intros _. unfold Len. lia.
    - pose proof Eroom as Espec.
      apply evictLocked_spec with (ts := ts) in Eroom as (Hi & _ & Hm & Hl); [|done].
      apply budget_evict_loop_spec with (ts := ts) in Espec as (_ & _ & _ & _ & _ & Hr); [|done].
      split_and!; [done| |].
      + destruct room; [destruct Hr as (?&?&?&_&_&->&_); by rewrite lookup_delete_None; right|by rewrite Hr].
      + intros Ht. specialize (Hl Ht). pose proof (inv_size _ Hinv) as Hs; simpl in Hs. lia. }
  destruct room; intros [= <- <-].
  - split_and!; [by apply inv_fresh; auto|..]; simpl.
    + rewrite lookup_insert_eq. eauto.
    + right. by rewrite lookup_insert_eq.
  - destruct (inv_overflow _ Hinv1) as [bk Hbk]; simpl in Hbk.
    split_and!; [|simpl; by rewrite lookup_alter_eq, Hbk; eauto|by left].
    rewrite (alter_is_insert _ (heap b1) _ bk) by done.
    apply (inv_update b1 ts _ bk); [done..| |].
    + by destruct (time_is_zero _).
    + pose proof (inv_within _ Hinv1 _ _ Hbk). by destruct (time_is_zero _).
Qed.

(** A reservation: the bucket counts one more unsettled ticket. *)
Lemma inv_charge b ts a p bk bk' t :
  inv (mkSys b ts) -> b.(heap) !! p = Some bk ->
  (p = b.(overflow) \/ b.(buckets) !! a = Some p) ->
  within b bk' -> outstanding bk' = outstanding bk + 1 -> t.(t_bk) = p -> t.(t_once) = false ->
  inv (mkSys (set_heap b (<[p := bk']> b.(heap))) ((a, t) :: ts)).
Proof.
  intros [Ha Ho Ht Hi Hc Htk Hs Hw] Hp Hwhere Hwi Hout Htp Hto; simpl in *. split; simpl; try done.
  - intros q. rewrite lookup_insert. case_decide; subst; eauto.
  - rewrite lookup_insert. case_decide; subst; eauto.
  - intros a' q Hq. rewrite lookup_insert. destruct (Ht a' q Hq). case_decide; subst; eauto.
  - intros q bq. unfold pending; simpl. fold (pending q ts). unfold open_on.
    rewrite Hto, Htp; simpl. rewrite lookup_insert. case_decide; subst.
    + intros [= <-]. rewrite bool_decide_true by done. rewrite Hout, (Hc _ _ Hp). lia.
    + intros Hq. rewrite bool_decide_false by done. rewrite (Hc _ _ Hq). lia.
  - intros a' t' [[= -> ->]|Hin]%elem_of_cons Hopen; [|by apply Htk]. rewrite Htp.
    destruct Hwhere; auto.
  - intros q bq. rewrite lookup_insert. case_decide; subst; [by intros [= <-]|apply Hw].
Qed.

Lemma Reserve_inv order b ts a ds bs now ot wait b' :
  inv (mkSys b ts) -> Reserve order b a ds bs now = (ot, wait, b') ->
  inv (mkSys b' (match ot with Some t => (a, t) :: ts | None => ts end)).
Proof.
  intros Hinv. unfold Reserve. destruct (bucket_for order b a now) as [p b1] eqn:Eb.
  apply bucket_for_spec with (ts := ts) in Eb as (Hinv1 & [bk Hbk] & Hwhere); [|done].
  rewrite Hbk. set (bk1 := refill b1 now bk). set (b2 := set_heap b1 (<[p := bk1]> (heap b1))).
  assert (within b1 bk1) as Hw1 by apply refill_within, (inv_within _ Hinv1 p bk Hbk).
  assert (inv (mkSys b2 ts)) as Hinv2.
  { apply (inv_update b1 ts p bk); [done..|apply refill_outstanding|done]. }
  destruct (flt (deliveries bk1) _) eqn:Ed, (flt (bytes bk1) _) eqn:Eby;
    intros [= <- <- <-]; try (by apply inv_counters).
  apply (inv_charge b2 ts a p bk1); try done; simpl.
  - apply lookup_insert_eq.
  - destruct Hw1 as [Hwd Hwb]. split; simpl; (eapply flt_negtrans; [done|]; apply fsub_le, float64_nonneg; lia).
Qed.

Lemma Settle_inv b ts i a t ds bs t' b' :
  inv (mkSys b ts) -> ts !! i = Some (a, t) -> Settle t ds bs b = (t', b') ->
  inv (mkSys b' (<[i := (a, t')]> ts)).
Proof.
  intros Hinv Hi. unfold Settle. destruct (t_once t) eqn:Eo.
  { intros [= <- <-]. by rewrite list_insert_id. }
  intros [= <- <-]. pose proof (list_elem_of_lookup_2 _ _ _ Hi) as Hin.
  destruct Hinv as [Ha Ho Ht Hinj Hc Htk Hs Hw]; simpl in *.
  assert (is_Some (heap b !! t_bk t)) as [bk Hbk].
  { destruct (Htk a t Hin Eo) as [->|Hat]; [done|]. by apply (Ht a). }
  assert (1 <= outstanding bk) as Hout.
  { rewrite (Hc _ _ Hbk). apply (pending_in _ _ a t Hin). unfold open_on.
    by rewrite Eo, bool_decide_true. }
  rewrite (alter_is_insert _ (heap b) _ bk) by done.
  split; simpl; try done.
  - intros q. rewrite lookup_insert. case_decide; subst; eauto.
  - rewrite lookup_insert. case_decide; subst; eauto.
  - intros a' q Hq. rewrite lookup_insert. destruct (Ht a' q Hq). case_decide; subst; eauto.
  - intros q bq. rewrite (pending_insert q ts i a t) by done. unfold open_on; simpl.
    rewrite Eo, lookup_insert; simpl. case_decide; subst.
    + intros [= <-]; simpl. rewrite bool_decide_true by done. rewrite (Hc _ _ Hbk) in *. case_match; lia.
    + intros Hq. rewrite bool_decide_false by done. rewrite (Hc _ _ Hq). lia.
  - intros a' t' [j Hj]%list_elem_of_lookup Hopen. rewrite list_lookup_insert in Hj.
    case_decide; [by simplify_eq|]. apply Htk; [|done]. by eapply list_elem_of_lookup_2.
  - intros q bq. rewrite lookup_insert. case_decide; subst; [|apply Hw].
    intros [= <-]. split; apply fmin_le_l.
Qed.

Lemma NewBudget_inv m h c : inv (mkSys (NewBudget m h c) []).
Proof.
  unfold NewBudget. split; simpl.
  - intros p [bk Hbk]. rewrite lookup_singleton in Hbk. case_decide; [lia|done].
  - rewrite lookup_singleton_eq. eauto.
  - intros a p. by rewrite lookup_empty.
  - intros a1 a2 p. by rewrite lookup_empty.
  - intros p bk Hbk. rewrite lookup_singleton in Hbk. case_decide; by simplify_eq.
  - set_solver.
  - unfold Len; simpl. rewrite map_size_empty. done.
  - intros p bk Hbk. rewrite lookup_singleton in Hbk. case_decide; [|done]. simplify_eq.
    split; apply flt_irrefl.
Qed.

Lemma step_inv s s' : step s s' -> inv s -> inv s'.
Proof.
  destruct 1 as [order b ts a ds bs now t wait b' HR|order b ts a ds bs now wait b' HR|
                 b ts i a t ds bs t' b' Hi HS]; intros Hinv.
  - apply (Reserve_inv _ _ ts) in HR; done.
  - apply (Reserve_inv _ _ ts) in HR; done.
  - by eapply Settle_inv.
Qed.

Lemma budget_reachable_inv m h c s : rtc step (mkSys (NewBudget m h c) []) s -> inv s.
Proof.
  intros Hr. remember (mkSys (NewBudget m h c) []) as s0 eqn:E0.
  assert (inv s0) as Hinv by (subst; apply NewBudget_inv). clear E0.
  induction Hr; eauto using step_inv.
Qed.

(** C32: no consumed allowance is forgotten.  In every state the budget can
    reach, in any interleaving of reservations and settlements and with any
    map iteration order: the table stays within its bound, every unsettled
    ticket points to the bucket its account's next reservation will use (or
    to the shared overflow bucket), each bucket counts exactly its unsettled
    tickets, and no balance exceeds its window's allowance. *)
Theorem budget_accounts_every_ticket m h c s :
  rtc step (mkSys (NewBudget m h c) []) s ->
  Len s.(budget) <= s.(budget).(maxEntries) /\
  (forall a t, (a, t) ∈ s.(tickets) -> t.(t_once) = false ->
    t.(t_bk) = s.(budget).(overflow) \/ s.(budget).(buckets) !! a = Some t.(t_bk)) /\
  (forall p bk, s.(budget).(heap) !! p = Some bk ->
    bk.(outstanding) = pending p s.(tickets) /\ within s.(budget) bk).
Proof.
  intros Hinv%budget_reachable_inv. split_and!; [apply (inv_size _ Hinv)|apply (inv_ticket _ Hinv)|].
  intros p bk Hp. split; [by apply (inv_count _ Hinv)|by apply (inv_within _ Hinv p)].
Qed.

Lemma Reserve_table order b ts a ds bs now ot wait b' :
  inv (mkSys b ts) -> Reserve order b a ds bs now = (ot, wait, b') ->
  b'.(buckets) = (bucket_for order b a now).2.(buckets).
Proof.
  intros Hinv. unfold Reserve. destruct (bucket_for order b a now) as [p b1].
  case_match; [|by intros [= <- <- <-]]. repeat case_match; by intros [= <- <- <-].
Qed.

(** A reservation may push another account out of the table only when
    that account's bucket, refilled to the present, is full and no ticket
    points to it, so the fresh bucket it would get is no better. *)
Theorem Reserve_evicts_only_full order b ts a ds bs now ot wait b' a' p :
  inv (mkSys b ts) -> Reserve order b a ds bs now = (ot, wait, b') ->
  b.(buckets) !! a' = Some p -> b'.(buckets) !! a' = None ->
  exists bk, b.(heap) !! p = Some bk /\ pending p ts = 0 /\
    flt (deliveries (refill b now bk)) b.(deliveriesPerMinute) = false /\
    flt (bytes (refill b now bk)) b.(bytesPerHour) = false.
Proof.
  intros Hinv HR Ha'. rewrite (Reserve_table _ _ ts _ _ _ _ _ _ _ Hinv HR).
  unfold bucket_for. destruct (buckets b !! a); [simpl; congruence|].
  destruct (if _ <? _ then _ else _) as [room b1] eqn:Eroom.
  destruct (Z.of_nat (size (buckets b)) <? maxEntries b) eqn:Esz.
  { simplify_eq. simpl. rewrite lookup_insert. case_decide; congruence. }
  apply budget_evict_loop_spec with (ts := ts) in Eroom as (_ & _ & _ & _ & _ & Hr); [|done].
  destruct room; simpl; [|congruence].
  destruct Hr as (key & q & bk & Hk & Hq & -> & Hout & Hfull).
  rewrite lookup_insert. case_decide; [done|]. intros Hdel.
  apply lookup_delete_None in Hdel as [->|]; [|congruence]. simplify_eq.
  pose proof (inv_count _ Hinv p bk Hq) as Hc; simpl in Hc.
  unfold full, fge in Hfull; bool_to_prop. exists bk. split_and!; try done. lia.
Qed.

End system.

(** ** Examples in exact arithmetic *)

#[export, program] Instance Float64_Z : Float64 := {|
  f64 := Z; fadd := Z.add; fsub := Z.sub; fmul := Z.mul; fdiv := Z.div; flt := Z.ltb;
  float64 n := n; to_int64 z := z |}.
Next Obligation. intros. lia. Qed.
Next Obligation. intros. simpl in *. lia. Qed.
Next Obligation. intros. simpl in *. lia. Qed.
Next Obligation. intros. simpl in *. lia. Qed.

Definition ex_keys (m : gmap string nat) : list string := (map_to_list m).*1.
Definition ex_b0 : Budget := NewBudget 10 1000 NewCounters.
Definition ex_r1 := Reserve ex_keys ex_b0 "a" 4 100 second.
Definition ex_t1 : Ticket := mkTicket 1%nat (4 : @f64 Float64_Z) (100 : @f64 Float64_Z) false.

Lemma budget_accounts_every_ticket_witness :
  (outstanding <$> (ex_r1.2.(heap) !! 1%nat)) = Some 1 /\ pending 1 [("a", ex_t1)] = 1.
Proof.
  assert (rtc step (mkSys ex_b0 []) (mkSys ex_r1.2 [("a", ex_t1)])) as Hr.
  { apply rtc_once. apply (step_reserve ex_keys ex_b0 [] "a" 4 100 second ex_t1 0 ex_r1.2).
    vm_compute. reflexivity. }
  destruct (budget_accounts_every_ticket 10 1000 NewCounters _ Hr) as (_ & _ & Hp).
  split; [vm_compute; reflexivity|].
  destruct (Hp 1%nat (Bucket (6 : @f64 Float64_Z) (900 : @f64 Float64_Z) second 1)) as [Ho _].
  - vm_compute. reflexivity.
  - symmetry. exact Ho.
Defined.

(** A table of one entry: "a" has settled and refilled, so "b" takes its place. *)
Definition ex_tiny : Budget :=
  mkBudget (10 : @f64 Float64_Z) (1000 : @f64 Float64_Z) NewCounters 1 {[ "a" := 1%nat ]} 0%nat
    {[ 0%nat := Bucket (10 : @f64 Float64_Z) (1000 : @f64 Float64_Z) 0 0;
       1%nat := Bucket (4 : @f64 Float64_Z) (1000 : @f64 Float64_Z) second 0 ]} 2%nat.

Lemma ex_tiny_inv : inv (mkSys ex_tiny []).
Proof.
  split; simpl.
  - intros p [bk Hbk]. rewrite lookup_insert in Hbk. case_decide; [lia|].
    rewrite lookup_singleton in Hbk. case_decide; [lia|done].
  - eauto.
  - intros a p. rewrite lookup_singleton. case_decide; [|done]. intros [= <-]. split; [eauto|done].
  - intros a1 a2 p. rewrite !lookup_singleton. repeat case_decide; congruence.
  - intros p bk. rewrite lookup_insert, lookup_singleton. repeat case_decide; intros; by simplify_eq.
  - set_solver.
  - vm_compute. discriminate.
  - intros p bk. rewrite lookup_insert, lookup_singleton. repeat case_decide; intros; by simplify_eq.
Qed.

Lemma Reserve_evicts_only_full_witness :
  exists bk, ex_tiny.(heap) !! 1%nat = Some bk /\ deliveries (refill ex_tiny (2 * minute) bk) = 10.
Proof.
  destruct (Reserve ex_keys ex_tiny "b" 1 1 (2 * minute)) as [[ot wait] b'] eqn:ER.
  destruct (Reserve_evicts_only_full ex_keys ex_tiny [] "b" 1 1 (2 * minute) ot wait b' "a" 1%nat
    ex_tiny_inv ER) as (bk & Hbk & _).
  - reflexivity.
  - assert (b' = (Reserve ex_keys ex_tiny "b" 1 1 (2 * minute)).2) as -> by (rewrite ER; reflexivity).
    vm_compute. reflexivity.
  - exists bk. split; [exact Hbk|]. vm_compute in Hbk. injection Hbk as <-. vm_compute. reflexivity.
Defined.
