(* ===== verification/RateLimiter.v ===== *)
(** * The request limiter

    [internal/app/app.go] from [rateLimits] on, with the route classes of
    [httpapi/route_class.go], the client address of
    [httpapi/client_identity.go] and the bearer token of [httpapi/api.go].

    Every method runs under the limiter's mutex, so each is one atomic step
    on the record [rateLimiter]; [time.Now] is read outside it, so the times
    of consecutive steps are in no particular order.  The order in which
    [evictOneLocked] meets the entries of a table is an argument.  The
    packages [net] and [crypto/sha256] are the class [Network]. *)

From S2P Require Import Prelude GoStrings.
From stdpp Require Import base numbers list strings gmap fin_maps relations.
From Stdlib Require Import Ascii ZArith ZifyBool Lia.
Open Scope Z_scope.

(** [net.ParseIP], [IP.String], [IPNet.Contains], [net.SplitHostPort] (the
    host), the text of an address as IPv4, the text of its /64 network, and the
    hexadecimal SHA-256 of a byte string. *)
Class Network := {
  IP : Type;
  IPNet : Type;
  ParseIP : string -> option IP;
  IP_String : IP -> string;
  Contains : IPNet -> IP -> bool;
  SplitHostPort : string -> option string;
  To4_String : IP -> option string;
  Mask64_String : IP -> string;
  sha256_hex : string -> string }.

(** ** Route classes *)

Inductive RouteClass := OrdinaryRoute | CredentialRoute | EnrollmentRoute | PublicRoute.

Definition credentialRoutes : list string :=
  ["/api/v1/setup/owner"; "/api/v1/auth/login"; "/api/v1/auth/reauth"; "/api/v1/register"; "/api/v1/recovery"; "/api/v1/device-links/claim";
   "/api/v1/device-links/v3/claim"]%string.
Definition enrollmentRoutes : list string :=
  ["/api/v1/setup/owner/enrollment"; "/api/v1/register/enrollment"; "/api/v1/device-links/claim-enrollment";
   "/api/v1/device-links/v3/claim-enrollment"]%string.
Definition publicRoutes : list string :=
  ["/livez"; "/healthz"; "/readyz"; "/api/v1/health"; "/setup"; "/api/v1/setup/status"]%string.

Definition accountRecoveryPrefix : string := "/api/v1/account-recovery".
Definition deviceLinkPrefix : string := "/api/v1/device-links/".
Definition deviceLinkV3Prefix : string := "/api/v1/device-links/v3".

Definition deviceLinkPathParts (urlPath : string) : list string :=
  Split (Trim (TrimPrefix urlPath deviceLinkPrefix) "/") "/"%char.

Definition ClassifyRoute (urlPath : string) : RouteClass :=
  if bool_decide (urlPath = accountRecoveryPrefix +:+ "/enrollment"%string) then EnrollmentRoute
  else if bool_decide (urlPath = accountRecoveryPrefix) || HasPrefix urlPath (accountRecoveryPrefix +:+ "/"%string) then CredentialRoute
  else if bool_decide (urlPath ∈ credentialRoutes) then CredentialRoute
  else if bool_decide (urlPath ∈ enrollmentRoutes) || HasSuffix urlPath "/enrollment" then EnrollmentRoute
  else if bool_decide (urlPath ∈ publicRoutes) then PublicRoute
  else if HasPrefix urlPath (deviceLinkV3Prefix +:+ "/"%string) then CredentialRoute
  else if HasPrefix urlPath deviceLinkPrefix then
    match deviceLinkPathParts urlPath with
    | [_; part] => if bool_decide (part = "claim-status"%string) then CredentialRoute else OrdinaryRoute
    | _ => OrdinaryRoute
    end
  else OrdinaryRoute.

(** ** Requests *)

(** What the limiter reads of a request: the decoded path, the peer's address,
    the values of [X-Forwarded-For], and [X-Real-IP] and [Authorization]. *)
Record Request := mkRequest {
  URL_Path : string; RemoteAddr : string; XForwardedFor : list string; XRealIP : string; Authorization : string }.

(** [strings.EqualFold] with a scheme of ASCII letters that have no other
    case variants. *)
Definition bearerToken (r : Request) : string :=
  let scheme := "Bearer "%string in
  if (blen r.(Authorization) <? blen scheme) || negb (bool_decide (ToLower (of_chars (take 7 (chars r.(Authorization)))) = ToLower scheme))
  then ""%string else TrimSpace (of_chars (drop 7 (chars r.(Authorization)))).

Definition HasBearerToken (r : Request) : bool := negb (bool_decide (bearerToken r = ""%string)).

Section limiter.
Context `{Network}.

(** ** The client's address *)

Definition maxForwardedHops : nat := 16.

Definition remoteHost (remoteAddr : string) : string :=
  match SplitHostPort (TrimSpace remoteAddr) with
  | Some host => host
  | None => Trim (TrimSpace remoteAddr) "[]"
  end.

Definition canonicalIP (value : string) : string :=
  match ParseIP (Trim value "[]") with
  | Some ip => IP_String ip
  | None => Trim value "[]"
  end.

(** A nil network is not in the list. *)
Definition ipInNetworks (ip : IP) (networks : list IPNet) : bool := existsb (fun network => Contains network ip) networks.

Definition forwardedIP (value : string) : option IP :=
  let value := TrimSpace value in
  let value := match SplitHostPort value with Some host => host | None => value end in
  let value := Trim value "[]" in
  if Contains_char value "%" then None else ParseIP value.

(** The loop over the hops, nearest first. *)
Fixpoint forwarded_hop (trustedProxies : list IPNet) (direct : string) (fuel : nat) (hops : list string) : string :=
  match fuel, hops with
  | S fuel, hop :: hops =>
    match forwardedIP hop with
    | None => direct
    | Some ip => if ipInNetworks ip trustedProxies then forwarded_hop trustedProxies direct fuel hops else IP_String ip
    end
  | _, _ => direct
  end.

Definition ClientIP (trustedProxies : list IPNet) (r : Request) : string :=
  let direct := canonicalIP (remoteHost r.(RemoteAddr)) in
  match ParseIP direct with
  | None => direct
  | Some directIP =>
    if negb (ipInNetworks directIP trustedProxies) then direct
    else
      let joined := GoStrings.Join r.(XForwardedFor) "," in
      if bool_decide (Trim joined (of_chars [","; " "; Ascii.ascii_of_nat 9]%char) = ""%string) then
        match forwardedIP r.(XRealIP) with Some realIP => IP_String realIP | None => direct end
      else forwarded_hop trustedProxies direct maxForwardedHops (rev (Split joined ","))
  end.

(** ** The buckets *)

Record rateLimits := mkRateLimits { l_general : Z; l_auth : Z; l_enrollment : Z; l_account : Z; l_signedIn : Z }.

Definition credentialRequestsPerMinute : Z := 10.
Definition enrollmentRequestsPerMinute : Z := 5.

(** [config.RateLimits] and [rateLimitsFromConfig]: a limit of zero is its
    default. *)
Record RateLimits := mkConfigRateLimits { AddressPerMinute : Z; AccountPerMinute : Z; SignedInAddressPerMinute : Z }.
Definition DefaultAddressRequestsPerMinute : Z := 240.
Definition DefaultAccountRequestsPerMinute : Z := 240.
Definition DefaultSignedInAddressRequestsPerMinute : Z := 1200.

Definition RateLimits_WithDefaults (l : RateLimits) : RateLimits :=
  mkConfigRateLimits
    (if l.(AddressPerMinute) =? 0 then DefaultAddressRequestsPerMinute else l.(AddressPerMinute))
    (if l.(AccountPerMinute) =? 0 then DefaultAccountRequestsPerMinute else l.(AccountPerMinute))
    (if l.(SignedInAddressPerMinute) =? 0 then DefaultSignedInAddressRequestsPerMinute else l.(SignedInAddressPerMinute)).

Definition rateLimitsFromConfig (limits : RateLimits) : rateLimits :=
  let limits := RateLimits_WithDefaults limits in
  mkRateLimits limits.(AddressPerMinute) credentialRequestsPerMinute enrollmentRequestsPerMinute limits.(AccountPerMinute)
    limits.(SignedInAddressPerMinute).

Record bucket := mkBucket { b_general : Z; b_auth : Z; b_enrollment : Z; b_signedIn : Z; b_reset : Z }.
Definition new_bucket (reset : Z) : bucket := mkBucket 0 0 0 0 reset.

Definition scopeGeneral : nat := 0.
Definition scopeAuth : nat := 1.
Definition scopeEnrollment : nat := 2.
Definition scopeAccount : nat := 3.
Definition scopeSignedIn : nat := 4.

Record rateLimiter := mkRateLimiter {
  salt : string; trustedProxies : list IPNet; rl_limits : rateLimits; maxEntries : Z;
  buckets : gmap string bucket; accountBuckets : gmap string bucket; overflow : bucket; accountOverflow : bucket;
  evictions : Z; rejections : list Z }.

Definition maxRateLimitEntries : Z := 65536.
Definition rateLimitEvictionSampleSize : Z := 32.

Definition newRateLimiter (salt : string) (trustedProxies : list IPNet) (limits : rateLimits) : rateLimiter :=
  mkRateLimiter salt trustedProxies limits maxRateLimitEntries ∅ ∅ (new_bucket 0) (new_bucket 0) 0 (replicate 5 0).

Definition rateLimitHost (host : string) : string :=
  let host := TrimSpace host in
  match ParseIP host with
  | Some ip => match To4_String ip with Some ipv4 => ipv4 | None => Mask64_String ip +:+ "/64"%string end
  | None => host
  end.

Definition remoteHash (salt host : string) : string := sha256_hex (salt +:+ rateLimitHost host).

Definition nul : string := of_chars [Ascii.ascii_of_nat 0].
Definition accountKey (rl : rateLimiter) (accountID host : string) : string :=
  sha256_hex (rl.(salt) +:+ "account"%string +:+ nul +:+ accountID +:+ nul +:+ host).

(** [Duration.Round(time.Second)], half away from zero, and the bounds. *)
Definition round_second (d : Z) : Z :=
  let r := Z.rem (Z.abs d) second in
  Z.sgn d * (if r + r <? second then Z.abs d - r else Z.abs d + second - r).

Definition boundedRetryAfter (duration : Z) : Z :=
  let seconds := Z.quot (round_second duration) second in
  if seconds <? 1 then 1 else if 60 <? seconds then 60 else seconds.

(** ** Making room *)

Definition table_size (table : gmap string bucket) : Z := Z.of_nat (size table).

(** The loop of [evictOneLocked] over the entries still to come: the table,
    and whether room was made or else the victim so far. *)
Fixpoint evict_sample (maxEntries now : Z) (order : list string) (table : gmap string bucket) (sampled : Z) (victim : option (string * Z))
    : gmap string bucket * (unit + option string) :=
  match order with
  | [] => (table, inr (fst <$> victim))
  | key :: order =>
    match table !! key with
    | None => evict_sample maxEntries now order table sampled victim
    | Some b =>
      if negb (time_after b.(b_reset) now) then
        let table := delete key table in
        if table_size table <? maxEntries then (table, inl tt) else evict_sample maxEntries now order table sampled victim
      else
        let load := b.(b_general) + b.(b_signedIn) in
        let victim :=
          if (b.(b_auth) =? 0) && (b.(b_enrollment) =? 0) &&
             match victim with None => true | Some (_, victimLoad) => load <? victimLoad end
          then Some (key, load) else victim in
        if rateLimitEvictionSampleSize <=? sampled + 1 then (table, inr (fst <$> victim))
        else evict_sample maxEntries now order table (sampled + 1) victim
    end
  end.

(** The table afterwards, whether there is room, and what it adds to
    [evictions]. *)
Definition evictOneLocked (maxEntries now : Z) (order : list string) (table : gmap string bucket) : gmap string bucket * bool * Z :=
  if table_size table <? maxEntries then (table, true, 0)
  else match evict_sample maxEntries now order table 0 None with
  | (table, inl _) => (table, true, 0)
  | (table, inr None) => (table, false, 0)
  | (table, inr (Some victim)) => (delete victim table, true, 1)
  end.

(** [bucketLocked]: the tables afterwards and where the bucket is, in the
    table under the key or the overflow. *)
Inductive place := InTable | InOverflow.

Definition bucketLocked (maxEntries now : Z) (order : list string) (table : gmap string bucket) (over : bucket) (key : string)
    : gmap string bucket * bucket * place * Z :=
  let live := match table !! key with Some b => negb (time_before b.(b_reset) now) | None => false end in
  if live then (table, over, InTable, 0)
  else
    let '(table, room, evicted) :=
      match table !! key with
      | Some _ => (table, true, 0)
      | None => if maxEntries <=? table_size table then evictOneLocked maxEntries now order table else (table, true, 0)
      end in
    if room then (<[key := new_bucket (time_add now minute)]> table, over, InTable, evicted)
    else (table, if time_before over.(b_reset) now then new_bucket (time_add now minute) else over, InOverflow, evicted + 1).

(** The bucket found, and a change of it in place. *)
Definition bucket_at (table : gmap string bucket) (over : bucket) (key : string) (at_ : place) : bucket :=
  match at_ with InTable => default over (table !! key) | InOverflow => over end.

Definition charge (f : bucket -> bucket) (table : gmap string bucket) (over : bucket) (key : string) (at_ : place) : gmap string bucket * bucket :=
  match at_ with InTable => (alter f key table, over) | InOverflow => (table, f over) end.

(** ** Requests *)

Definition upd_address (f : gmap string bucket * bucket) (evicted : Z) (rl : rateLimiter) : rateLimiter :=
  mkRateLimiter rl.(salt) rl.(trustedProxies) rl.(rl_limits) rl.(maxEntries) f.1 rl.(accountBuckets) f.2 rl.(accountOverflow)
    (rl.(evictions) + evicted) rl.(rejections).
Definition upd_account (f : gmap string bucket * bucket) (evicted : Z) (rl : rateLimiter) : rateLimiter :=
  mkRateLimiter rl.(salt) rl.(trustedProxies) rl.(rl_limits) rl.(maxEntries) rl.(buckets) f.1 rl.(overflow) f.2
    (rl.(evictions) + evicted) rl.(rejections).
Definition count_rejection (scope : nat) (rl : rateLimiter) : rateLimiter :=
  mkRateLimiter rl.(salt) rl.(trustedProxies) rl.(rl_limits) rl.(maxEntries) rl.(buckets) rl.(accountBuckets) rl.(overflow) rl.(accountOverflow)
    rl.(evictions) (alter (Z.add 1) scope rl.(rejections)).

(** What [middleware] adds to the counters of the address. *)
Definition count_request (signedIn auth enrollment : bool) (b : bucket) : bucket :=
  mkBucket (b.(b_general) + if signedIn then 0 else 1) (b.(b_auth) + if auth then 1 else 0) (b.(b_enrollment) + if enrollment then 1 else 0)
    (b.(b_signedIn) + if signedIn then 1 else 0) b.(b_reset).

(** The limit that refuses the request, if any. *)
Definition refused_scope (limits : rateLimits) (signedIn auth enrollment : bool) (b : bucket) : option nat :=
  if auth && (limits.(l_auth) <? b.(b_auth)) then Some scopeAuth
  else if enrollment && (limits.(l_enrollment) <? b.(b_enrollment)) then Some scopeEnrollment
  else if signedIn && (limits.(l_signedIn) <? b.(b_signedIn)) then Some scopeSignedIn
  else if negb signedIn && (limits.(l_general) <? b.(b_general)) then Some scopeGeneral
  else None.

(** A request with a session token that was let in, until it is settled. *)
Record accountCharge := mkAccountCharge { ac_host : string; ac_done : bool; ac_ok : bool; ac_retryAfter : Z }.

Inductive admission :=
| Refused (retryAfter : Z)
| LetIn (charge : option accountCharge).

Definition request_host (rl : rateLimiter) (r : Request) : string := rateLimitHost (ClientIP rl.(trustedProxies) r).

Definition middleware (now : Z) (order : list string) (r : Request) (rl : rateLimiter) : admission * rateLimiter :=
  let host := request_host rl r in
  let class := ClassifyRoute r.(URL_Path) in
  let auth := match class with CredentialRoute => true | _ => false end in
  let enrollment := match class with EnrollmentRoute => true | _ => false end in
  let signedIn := match class with OrdinaryRoute => HasBearerToken r | _ => false end in
  let key := remoteHash rl.(salt) host in
  let '(table, over, at_, evicted) := bucketLocked rl.(maxEntries) now order rl.(buckets) rl.(overflow) key in
  let '(table, over) := charge (count_request signedIn auth enrollment) table over key at_ in
  let b := bucket_at table over key at_ in
  let rl := upd_address (table, over) evicted rl in
  match refused_scope rl.(rl_limits) signedIn auth enrollment b with
  | Some scope => (Refused (boundedRetryAfter (time_sub b.(b_reset) now)), count_rejection scope rl)
  | None => (LetIn (if signedIn then Some (mkAccountCharge host false false 0) else None), rl)
  end.

(** ** Settling *)

Definition add_general (b : bucket) : bucket := mkBucket (b.(b_general) + 1) b.(b_auth) b.(b_enrollment) b.(b_signedIn) b.(b_reset).

(** [settleLocked], on the address's or the account's table. *)
Definition settleLocked (account : bool) (now : Z) (order : list string) (key : string) (limit : Z) (scope : option nat)
    (c : accountCharge) (rl : rateLimiter) : accountCharge * rateLimiter :=
  let table := if account then rl.(accountBuckets) else rl.(buckets) in
  let over := if account then rl.(accountOverflow) else rl.(overflow) in
  let '(table, over, at_, evicted) := bucketLocked rl.(maxEntries) now order table over key in
  let '(table, over) := charge add_general table over key at_ in
  let b := bucket_at table over key at_ in
  let ok := b.(b_general) <=? limit in
  let rl := if account then upd_account (table, over) evicted rl else upd_address (table, over) evicted rl in
  let rl := match scope with Some scope => if ok then rl else count_rejection scope rl | None => rl end in
  (mkAccountCharge c.(ac_host) true ok (boundedRetryAfter (time_sub b.(b_reset) now)), rl).

Definition Authenticated (now : Z) (order : list string) (accountID : string) (c : accountCharge) (rl : rateLimiter) : bool * Z * accountCharge * rateLimiter :=
  let '(c, rl) :=
    if c.(ac_done) then (c, rl)
    else settleLocked true now order (accountKey rl accountID c.(ac_host)) rl.(rl_limits).(l_account) (Some scopeAccount) c rl in
  (c.(ac_ok), c.(ac_retryAfter), c, rl).

Definition Unauthenticated (now : Z) (order : list string) (c : accountCharge) (rl : rateLimiter) : bool * Z * accountCharge * rateLimiter :=
  let '(c, rl) :=
    if c.(ac_done) then (c, rl)
    else settleLocked false now order (remoteHash rl.(salt) c.(ac_host)) rl.(rl_limits).(l_general) (Some scopeGeneral) c rl in
  (c.(ac_ok), c.(ac_retryAfter), c, rl).

Definition settleUnused (now : Z) (order : list string) (c : accountCharge) (rl : rateLimiter) : accountCharge * rateLimiter :=
  if c.(ac_done) then (c, rl)
  else settleLocked false now order (remoteHash rl.(salt) c.(ac_host)) rl.(rl_limits).(l_general) None c rl.

(** One tick of [cleanupLoop]. *)
Definition cleanup (now : Z) (rl : rateLimiter) : rateLimiter :=
  let live := filter (fun '(_, b) => time_before (b_reset b) now = false) in
  mkRateLimiter rl.(salt) rl.(trustedProxies) rl.(rl_limits) rl.(maxEntries) (live rl.(buckets)) (live rl.(accountBuckets))
    rl.(overflow) rl.(accountOverflow) rl.(evictions) rl.(rejections).

Definition stats (rl : rateLimiter) : Z * Z := (table_size rl.(buckets) + table_size rl.(accountBuckets), rl.(evictions)).
End limiter.
