(* ===== verification/LimiterRules.v ===== *)
(** * Rules of the request limiter

    However many addresses press on the tables, guessing stays bounded: no
    eviction resets a credential budget before its minute ends.  And a client
    behind a proxy cannot choose the address it is counted under. *)

From S2P Require Import Prelude GoStrings RateLimiter.
From stdpp Require Import base numbers list strings gmap fin_maps relations.
From Stdlib Require Import Ascii ZArith ZifyBool Lia.
Open Scope Z_scope.

Section rules.
Context `{Network}.

Abbreviation table_of := (gmap string bucket).

(** ** What an eviction may take *)

(** A bucket that may be forgotten: its minute is over, or it has used no
    credential and no enrollment budget. *)
Definition forgettable (now : Z) (b : bucket) : Prop := b.(b_reset) <= now \/ b.(b_auth) = 0 /\ b.(b_enrollment) = 0.

Definition evicts (now : Z) (table table' : table_of) : Prop :=
  forall k, table' !! k = table !! k \/ table' !! k = None /\ forall b, table !! k = Some b -> forgettable now b.

#[export] Instance evicts_refl now : Reflexive (evicts now).
Proof. intros table k. by left. Qed.

#[export] Instance evicts_trans now : Transitive (evicts now).
Proof.
  intros t1 t2 t3 H1 H2 k. destruct (H2 k) as [E|[E Hf]]; [rewrite E; apply H1|]. right. split; [done|].
  intros b Hb. destruct (H1 k) as [E1|[E1 Hf1]]; [rewrite E1 in Hf; by apply Hf|by apply Hf1].
Qed.

Lemma evicts_delete now table key b : table !! key = Some b -> forgettable now b -> evicts now table (delete key table).
Proof.
  intros Hb Hf k. rewrite lookup_delete. destruct (decide (key = k)) as [<-|]; [right|by left]. split; [done|]. intros b' Hb'. congruence.
Qed.

Lemma size_delete (table : table_of) key b : table !! key = Some b -> table_size (delete key table) = table_size table - 1.
Proof. intros Hb. unfold table_size. rewrite map_size_delete_Some by by eexists. assert (size table <> 0)%nat; [|lia]. intros E%map_size_empty_inv. by rewrite E in Hb. Qed.

Definition good_victim (now : Z) (table : table_of) (victim : option string) : Prop :=
  forall key, victim = Some key -> exists b, table !! key = Some b /\ now < b.(b_reset) /\ b.(b_auth) = 0 /\ b.(b_enrollment) = 0.

Lemma evict_sample_spec maxEntries now order table sampled victim :
  good_victim now table (fst <$> victim) ->
  let '(table', r) := evict_sample maxEntries now order table sampled victim in
  evicts now table table' /\ table_size table' <= table_size table /\
  match r with inl _ => table_size table' < maxEntries | inr v => good_victim now table' v end.
Proof.
  revert table sampled victim. induction order as [|key order IH]; intros table sampled victim Hv; simpl; [split; [done|split; [lia|done]]|].
  destruct (table !! key) as [b|] eqn:Hb; [|by apply IH]. unfold time_after. destruct (now <? b.(b_reset)) eqn:Hl; simpl.
  - match goal with |- context [if rateLimitEvictionSampleSize <=? sampled + 1 then (_, inr (fst <$> ?v)) else _] => set (v' := v) end.
    assert (good_victim now table (fst <$> v')) as Hv'.
    { unfold v'. destruct (_ && _) eqn:E; [|done]. intros k [= <-]. exists b. rewrite !andb_true_iff in E. repeat split; [done|lia..]. }
    destruct (rateLimitEvictionSampleSize <=? sampled + 1); [split; [done|split; [lia|done]]|by apply IH].
  - assert (evicts now table (delete key table)) as He by (eapply evicts_delete; [done|left; lia]).
    pose proof (size_delete _ _ _ Hb) as Hs. destruct (table_size (delete key table) <? maxEntries) eqn:Esz; [split; [done|split; lia]|].
    assert (good_victim now (delete key table) (fst <$> victim)) as Hv'.
    { intros k Hk. destruct (Hv k Hk) as (b' & Hb' & ? & ?). exists b'. split; [|done]. rewrite lookup_delete_ne; [done|]. intros ->.
      rewrite Hb in Hb'. injection Hb' as <-. lia. }
    specialize (IH (delete key table) sampled victim Hv'). destruct (evict_sample _ _ _ _ _ _) as [table' r].
    destruct IH as (H1 & H2 & H3). split; [by etransitivity|]. split; [lia|done].
Qed.

Lemma evictOneLocked_spec maxEntries now order table :
  let '(table', room, _) := evictOneLocked maxEntries now order table in
  evicts now table table' /\ table_size table' <= table_size table /\ (room = true -> table_size table <= maxEntries -> table_size table' < maxEntries).
Proof.
  unfold evictOneLocked. destruct (table_size table <? maxEntries) eqn:E; [by repeat split; try lia|].
  pose proof (evict_sample_spec maxEntries now order table 0 None ltac:(by intros k)) as Hs.
  destruct (evict_sample _ _ _ _ _ _) as [table' [[]|[victim|]]]; destruct Hs as (He & Hsz & Hr); [by repeat split; auto|..].
  - destruct (Hr victim eq_refl) as (b & Hb & Hlive & Ha & Hn). rewrite (size_delete _ _ _ Hb).
    split; [etransitivity; [done|]; eapply evicts_delete; [done|by right]|]. split; lia.
  - by repeat split.
Qed.

(** ** How much of a budget is left *)

(** The use of one of the two guarded budgets. *)
Variant guarded := Auth | Enrollment.
Definition used (g : guarded) (b : bucket) : Z := match g with Auth => b.(b_auth) | Enrollment => b.(b_enrollment) end.
Definition budget (g : guarded) (l : rateLimits) : Z := match g with Auth => l.(l_auth) | Enrollment => l.(l_enrollment) end.
Definition guarded_route (g : guarded) : RouteClass := match g with Auth => CredentialRoute | Enrollment => EnrollmentRoute end.

(** Requests that can still be admitted on a bucket before the time [T], when
    a bucket that starts before [T] ends after it. *)
Definition spend (g : guarded) (L T : Z) (b : option bucket) : Z :=
  match b with
  | None => L
  | Some b => Z.max 0 (L - used g b) + if b.(b_reset) <=? T then L else 0
  end.

Lemma spend_nonneg g L T b : 0 <= L -> 0 <= spend g L T b.
Proof. unfold spend. destruct b as [b|]; [|done]. destruct (_ <=? T); lia. Qed.

Lemma spend_forgotten g L T now b : 0 <= L -> now <= T -> forgettable now b -> L <= spend g L T (Some b).
Proof.
  intros HL HT [Hr|[Ha He]]; simpl.
  - replace (_ <=? T) with true by lia. lia.
  - destruct g; simpl; rewrite ?Ha, ?He; destruct (_ <=? T); lia.
Qed.

Lemma spend_new g L T now : 0 <= L -> T < now + minute -> spend g L T (Some (new_bucket (time_add now minute))) = L.
Proof. intros HL HT. simpl. unfold time_add. replace (_ <=? T) with false by lia. destruct g; simpl; lia. Qed.

Lemma evicts_spend g L T now table table' k :
  0 <= L -> now <= T -> evicts now table table' -> spend g L T (table' !! k) <= spend g L T (table !! k).
Proof.
  intros HL HT He. destruct (He k) as [-> |[-> Hf]]; [done|]. destruct (table !! k) as [b|] eqn:Hb; [|done]. by apply (spend_forgotten g L T now b HL HT), Hf.
Qed.

Section found.
Context (g : guarded) (L T now maxEntries : Z) (order : list string) (table : table_of) (over : bucket) (key : string).
Context (HL : 0 <= L) (Hnow : now <= T < now + minute).

Lemma bucketLocked_spec :
  let '(table', over', at_, _) := bucketLocked maxEntries now order table over key in
  (forall k, spend g L T (table' !! k) <= spend g L T (table !! k)) /\ spend g L T (Some over') <= spend g L T (Some over) /\
  (at_ = InTable -> is_Some (table' !! key)) /\ (table_size table <= maxEntries -> table_size table' <= maxEntries).
Proof.
  unfold bucketLocked, time_before. destruct (table !! key) as [b|] eqn:Hb.
  - destruct (b.(b_reset) <? now) eqn:Hr; simpl; [|by repeat split; eauto].
    split; [|split; [done|split; [intros _; rewrite lookup_insert_eq; eauto|]]].
    + intros k. rewrite lookup_insert. destruct (decide (key = k)) as [<-|]; [|done]. rewrite Hb, spend_new by lia.
      apply (spend_forgotten g L T now b); [lia|lia|left; lia].
    + unfold table_size. by rewrite map_size_insert_Some by by eexists.
  - assert (forall table', evicts now table table' -> forall k, spend g L T (<[key := new_bucket (time_add now minute)]> table' !! k) <= spend g L T (table !! k)) as Hins.
    { intros table' He k. rewrite lookup_insert. destruct (decide (key = k)) as [<-|]; [rewrite Hb, spend_new by lia; done|].
      by apply (evicts_spend g L T now); [lia|lia|]. }
    destruct (maxEntries <=? table_size table) eqn:Em.
    + pose proof (evictOneLocked_spec maxEntries now order table) as Hs. destruct (evictOneLocked _ _ _ _) as [[table' room] ev].
      destruct Hs as (He & Hsz & Hroom). destruct room.
      * split; [by apply Hins|]. split; [done|]. split; [intros _; rewrite lookup_insert_eq; eauto|]. intros Hm. specialize (Hroom eq_refl Hm).
        unfold table_size in *. pose proof (map_size_insert key (new_bucket (time_add now minute)) table') as Hi. rewrite Hi. destruct (table' !! key); unfold id; lia.
      * split; [intros k; by apply (evicts_spend g L T now); [lia|lia|]|]. split; [|split; [done|lia]].
        destruct (over.(b_reset) <? now) eqn:Ho; [|done]. rewrite spend_new by lia. apply (spend_forgotten g L T now over); [lia|lia|left; lia].
    + split; [by apply Hins|]. split; [done|]. split; [intros _; rewrite lookup_insert_eq; eauto|]. intros Hm. unfold table_size in *.
      rewrite map_size_insert_None by done. lia.
Qed.
End found.

Arguments spend : simpl never.

(** ** Histories *)

Inductive limiter_op :=
| LRequest (now : Z) (order : list string) (r : Request)
| LAuthenticated (now : Z) (order : list string) (accountID : string) (c : accountCharge)
| LUnauthenticated (now : Z) (order : list string) (c : accountCharge)
| LUnused (now : Z) (order : list string) (c : accountCharge)
| LCleanup (now : Z).

Definition op_time (o : limiter_op) : Z :=
  match o with
  | LRequest now _ _ | LAuthenticated now _ _ _ | LUnauthenticated now _ _ | LUnused now _ _ | LCleanup now => now
  end.

Definition after (o : limiter_op) (rl : rateLimiter) : rateLimiter :=
  match o with
  | LRequest now order r => (middleware now order r rl).2
  | LAuthenticated now order accountID c => (Authenticated now order accountID c rl).2
  | LUnauthenticated now order c => (Unauthenticated now order c rl).2
  | LUnused now order c => (settleUnused now order c rl).2
  | LCleanup now => cleanup now rl
  end.

(** The request is one of the class that [g] guards, from the address of
    [key], and is let in. *)
Definition admits (g : guarded) (key : string) (o : limiter_op) (rl : rateLimiter) : Z :=
  match o with
  | LRequest now order r =>
    if bool_decide (remoteHash rl.(salt) (request_host rl r) = key) then
      match g, ClassifyRoute r.(URL_Path), (middleware now order r rl).1 with
      | Auth, CredentialRoute, LetIn _ => 1
      | Enrollment, EnrollmentRoute, LetIn _ => 1
      | _, _, _ => 0
      end
    else 0
  | _ => 0
  end.

Fixpoint admitted (g : guarded) (key : string) (ops : list limiter_op) (rl : rateLimiter) : Z :=
  match ops with
  | [] => 0
  | o :: ops => admits g key o rl + admitted g key ops (after o rl)
  end.

Definition run_ops (ops : list limiter_op) (rl : rateLimiter) : rateLimiter := fold_left (fun rl o => after o rl) ops rl.

(** What the address of [key] can still get, from its own bucket and from the
    one that is shared. *)
Definition left_for (g : guarded) (L T : Z) (key : string) (rl : rateLimiter) : Z :=
  spend g L T (rl.(buckets) !! key) + spend g L T (Some rl.(overflow)).

(** What a step keeps beside that. *)
Definition steady (rl rl' : rateLimiter) : Prop :=
  rl'.(salt) = rl.(salt) /\ rl'.(trustedProxies) = rl.(trustedProxies) /\ rl'.(rl_limits) = rl.(rl_limits) /\ rl'.(maxEntries) = rl.(maxEntries) /\
  (table_size rl.(buckets) <= rl.(maxEntries) -> table_size rl'.(buckets) <= rl.(maxEntries)) /\
  (table_size rl.(accountBuckets) <= rl.(maxEntries) -> table_size rl'.(accountBuckets) <= rl.(maxEntries)).

Lemma alter_size (f : bucket -> bucket) key (table : table_of) : table_size (alter f key table) = table_size table.
Proof.
  unfold table_size. f_equal. destruct (table !! key) as [b|] eqn:E.
  - replace (alter f key table) with (<[key := f b]> table); [by apply map_size_insert_Some; eexists|].
    apply map_eq. intros i. rewrite lookup_insert, lookup_alter. destruct (decide (key = i)) as [<-|]; [by rewrite E|done].
  - replace (alter f key table) with table; [done|].
    apply map_eq. intros i. rewrite lookup_alter. destruct (decide (key = i)) as [<-|]; [by rewrite E|done].
Qed.

(** Charging a bucket that is where [bucketLocked] found it. *)
Lemma charge_spend g L T f (table : table_of) over key at_ k :
  (forall b, used g b <= used g (f b) /\ b_reset (f b) = b.(b_reset)) ->
  let '(table', over') := charge f table over key at_ in
  spend g L T (table' !! k) <= spend g L T (table !! k) /\ spend g L T (Some over') <= spend g L T (Some over) /\
  table_size table' = table_size table.
Proof.
  intros Hf. assert (forall b, spend g L T (Some (f b)) <= spend g L T (Some b)) as Hs.
  { intros b. destruct (Hf b) as [? E]. unfold spend. rewrite E. destruct (_ <=? T); lia. }
  destruct at_; simpl; [|by repeat split; try apply Hs]. split; [|split; [done|apply alter_size]].
  rewrite lookup_alter. destruct (decide (key = k)) as [<-|]; [|done]. destruct (table !! key); simpl fmap; [apply Hs|done].
Qed.

(** A charge that is admitted takes one from what is left. *)
Lemma charge_takes g L T f (table : table_of) over key at_ :
  (forall b, used g (f b) = used g b + 1 /\ b_reset (f b) = b.(b_reset)) -> (at_ = InTable -> is_Some (table !! key)) ->
  let '(table', over') := charge f table over key at_ in
  used g (bucket_at table' over' key at_) <= L ->
  spend g L T (table' !! key) + spend g L T (Some over') + 1 <= spend g L T (table !! key) + spend g L T (Some over).
Proof.
  intros Hf Hat. assert (forall b, used g (f b) <= L -> spend g L T (Some (f b)) + 1 <= spend g L T (Some b)) as Hs.
  { intros b. destruct (Hf b) as [Eu E]. unfold spend. rewrite E, Eu. destruct (_ <=? T); lia. }
  destruct at_; simpl charge.
  - destruct (Hat eq_refl) as [b Hb]. unfold bucket_at. rewrite lookup_alter, decide_True, Hb by done. simpl default. simpl fmap.
    intros Hu. specialize (Hs b Hu). lia.
  - unfold bucket_at. intros Hu. specialize (Hs over Hu). lia.
Qed.

Section step.
Context (g : guarded) (L T : Z) (key : string) (rl : rateLimiter).
Context (HL : L = budget g rl.(rl_limits)) (Hpos : 0 <= L).

Lemma counted signedIn auth enrollment b :
  used g b <= used g (count_request signedIn auth enrollment b) /\ b_reset (count_request signedIn auth enrollment b) = b.(b_reset).
Proof. destruct g, signedIn, auth, enrollment; simpl; lia. Qed.

Lemma middleware_spends now order r :
  now <= T < now + minute ->
  admits g key (LRequest now order r) rl + left_for g L T key (after (LRequest now order r) rl) <= left_for g L T key rl /\
  steady rl (after (LRequest now order r) rl).
Proof.
  intros Hnow. unfold admits, after, middleware. set (k := remoteHash _ _).
  set (auth := match ClassifyRoute _ with CredentialRoute => true | _ => false end).
  set (enrollment := match ClassifyRoute _ with EnrollmentRoute => true | _ => false end).
  set (signedIn := match ClassifyRoute _ with OrdinaryRoute => _ | _ => false end).
  pose proof (bucketLocked_spec g L T now rl.(maxEntries) order rl.(buckets) rl.(overflow) k Hpos Hnow) as Hb.
  destruct (bucketLocked _ _ _ _ _ _) as [[[table over] at_] ev]. destruct Hb as (Hb1 & Hb2 & Hb3 & Hb4).
  pose proof (charge_spend g L T (count_request signedIn auth enrollment) table over k at_ key (counted _ _ _)) as Hc.
  pose proof (charge_takes g L T (count_request signedIn auth enrollment) table over k at_) as Ht.
  destruct (charge _ _ _ _ _) as [table' over']. destruct Hc as (Hc1 & Hc2 & Hc3).
  specialize (Hb1 key) as Hb1k. specialize (Hb1 k).
  split.
  - assert (left_for g L T key (upd_address (table', over') ev rl) <= left_for g L T key rl) as Hle.
    { unfold left_for. simpl. lia. }
    destruct (refused_scope _ _ _ _ _) as [scope|] eqn:Er.
    { simpl. replace (if bool_decide _ then _ else 0) with 0; [apply Hle|]. by repeat case_match. }
    simpl. case_bool_decide as Ek; [|lia]. destruct g eqn:Eg, (ClassifyRoute _) eqn:Ecl; try lia.
    + unfold left_for. simpl. rewrite <- Ek. rewrite <- Ek in Hb1k.
      assert (auth = true) as Ha by (unfold auth; by rewrite ?Ecl).
      assert (spend Auth L T (table' !! k) + spend Auth L T (Some over') + 1 <= spend Auth L T (table !! k) + spend Auth L T (Some over)); [|lia].
      apply Ht; [intros b; rewrite Ha; simpl; lia|done|]. unfold refused_scope in Er. rewrite Ha in Er. simpl in Er, HL. simpl.
      destruct (l_auth _ <? _) eqn:E; [done|]. lia.
    + unfold left_for. simpl. rewrite <- Ek. rewrite <- Ek in Hb1k.
      assert (auth = false) as Ha by (unfold auth; by rewrite ?Ecl). assert (enrollment = true) as He by (unfold enrollment; by rewrite ?Ecl).
      assert (spend Enrollment L T (table' !! k) + spend Enrollment L T (Some over') + 1 <= spend Enrollment L T (table !! k) + spend Enrollment L T (Some over)); [|lia].
      apply Ht; [intros b; rewrite He; simpl; lia|done|]. unfold refused_scope in Er. rewrite Ha, He in Er. simpl in Er, HL. simpl.
      destruct (l_enrollment _ <? _) eqn:E; [done|]. lia.
  - destruct (refused_scope _ _ _ _ _); repeat split; simpl; intros; rewrite ?Hc3; auto.
Qed.

Lemma settle_spends account now order k limit scope c :
  now <= T < now + minute ->
  left_for g L T key (settleLocked account now order k limit scope c rl).2 <= left_for g L T key rl /\
  steady rl (settleLocked account now order k limit scope c rl).2.
Proof.
  intros Hnow. unfold settleLocked.
  pose proof (bucketLocked_spec g L T now rl.(maxEntries) order (if account then rl.(accountBuckets) else rl.(buckets))
    (if account then rl.(accountOverflow) else rl.(overflow)) k Hpos Hnow) as Hb.
  destruct (bucketLocked _ _ _ _ _ _) as [[[table over] at_] ev]. destruct Hb as (Hb1 & Hb2 & _ & Hb4).
  assert (forall b, used g b <= used g (add_general b) /\ b_reset (add_general b) = b.(b_reset)) as Hg by (intros b; destruct g; simpl; lia).
  pose proof (charge_spend g L T add_general table over k at_ key Hg) as Hc.
  destruct (charge _ _ _ _ _) as [table' over']. destruct Hc as (Hc1 & Hc2 & Hc3). specialize (Hb1 key).
  assert (forall rl' : rateLimiter, left_for g L T key (match scope with Some s => count_rejection s rl' | None => rl' end) = left_for g L T key rl') as Hs
    by (intros; by destruct scope).
  split.
  - destruct account, scope; simpl; try destruct (_ <=? limit); unfold left_for; simpl; lia.
  - destruct account, scope; simpl; try destruct (_ <=? limit); repeat split; simpl; intros; rewrite ?Hc3; auto.
Qed.

Lemma cleanup_spends now :
  now <= T < now + minute -> left_for g L T key (cleanup now rl) <= left_for g L T key rl /\ steady rl (cleanup now rl).
Proof.
  intros Hnow. assert (forall table : table_of, table_size (filter (fun '(_, b) => time_before (b_reset b) now = false) table) <= table_size table) as Hsz.
  { intros table. unfold table_size. pose proof (map_size_filter (fun '(_, b) => time_before (b_reset b) now = false) table). lia. }
  split.
  - unfold left_for, cleanup. simpl. apply Z.add_le_mono_r. apply (evicts_spend g L T now); [lia|lia|]. intros k.
    destruct (filter _ _ !! k) as [b|] eqn:Ef.
    + apply map_lookup_filter_Some in Ef as [-> _]. by left.
    + right. split; [done|]. intros b Hb. apply map_lookup_filter_None in Ef as [Ef|Ef]; [congruence|]. specialize (Ef b Hb).
      unfold time_before in Ef. left. destruct (b_reset b <? now) eqn:E; [lia|done].
  - repeat split; simpl; intros; etransitivity; try apply Hsz; done.
Qed.

Lemma step_spends o :
  op_time o <= T < op_time o + minute ->
  admits g key o rl + left_for g L T key (after o rl) <= left_for g L T key rl /\ steady rl (after o rl).
Proof.
  destruct o as [now order r|now order id c|now order c|now order c|now]; intros Hnow; [by apply middleware_spends|..]; simpl admits.
  - unfold after, Authenticated. destruct (ac_done c); [simpl; split; [lia|by repeat split]|].
    destruct (settle_spends true now order (accountKey rl id c.(ac_host)) rl.(rl_limits).(l_account) (Some scopeAccount) c Hnow).
    by destruct (settleLocked _ _ _ _ _ _ _ _).
  - unfold after, Unauthenticated. destruct (ac_done c); [simpl; split; [lia|by repeat split]|].
    destruct (settle_spends false now order (remoteHash rl.(salt) c.(ac_host)) rl.(rl_limits).(l_general) (Some scopeGeneral) c Hnow).
    by destruct (settleLocked _ _ _ _ _ _ _ _).
  - unfold after, settleUnused. destruct (ac_done c); [simpl; split; [lia|by repeat split]|].
    destruct (settle_spends false now order (remoteHash rl.(salt) c.(ac_host)) rl.(rl_limits).(l_general) None c Hnow). split; [lia|done].
  - destruct (cleanup_spends now Hnow). split; [simpl after; lia|done].
Qed.
End step.

Lemma history_spends g T key ops rl :
  0 <= budget g rl.(rl_limits) -> Forall (fun o => op_time o <= T < op_time o + minute) ops ->
  admitted g key ops rl + left_for g (budget g rl.(rl_limits)) T key (run_ops ops rl) <= left_for g (budget g rl.(rl_limits)) T key rl /\
  steady rl (run_ops ops rl).
Proof.
  intros Hpos Hops. revert rl Hpos. induction Hops as [|o ops Ho _ IH]; intros rl Hpos; [simpl; split; [lia|by repeat split]|].
  destruct (step_spends g _ T key rl eq_refl Hpos o Ho) as [H1 (S1 & S2 & S3 & S4 & S5 & S6)].
  destruct (IH (after o rl)) as [H2 (R1 & R2 & R3 & R4 & R5 & R6)]; [by rewrite S3|]. rewrite S3, S4 in *. simpl. split; [lia|].
  repeat split; simpl; try congruence; auto.
Qed.

(** Counters that no one has decremented. *)
Definition sane (b : bucket) : Prop := 0 <= b.(b_auth) /\ 0 <= b.(b_enrollment).
Definition sane_limiter (rl : rateLimiter) : Prop := (forall k b, rl.(buckets) !! k = Some b -> sane b) /\ sane rl.(overflow).

Lemma spend_sane g L T b : 0 <= L -> (forall x, b = Some x -> sane x) -> spend g L T b <= 2 * L.
Proof.
  intros HL Hb. unfold spend. destruct b as [b|]; [|lia]. destruct (Hb b eq_refl) as [? ?]. destruct g; simpl; destruct (_ <=? T); lia.
Qed.

(** C21: credential guessing is bounded.  Whatever requests, settlements and
    clean-ups run within a minute, in whatever order and with times in any
    order, from any state of the limiter and under any pressure on its tables,
    an address is let in for at most four times the credential budget and four
    times the enrollment budget (its own bucket and the shared one, each over
    two of their minutes): 40 and 20 requests as configured.  And neither
    table ever grows past [maxEntries]. *)
Theorem credential_guessing_bounded rl T ops key :
  sane_limiter rl -> 0 <= rl.(rl_limits).(l_auth) -> 0 <= rl.(rl_limits).(l_enrollment) ->
  Forall (fun o => T <= op_time o < T + minute) ops ->
  admitted Auth key ops rl <= 4 * rl.(rl_limits).(l_auth) /\ admitted Enrollment key ops rl <= 4 * rl.(rl_limits).(l_enrollment) /\
  (table_size rl.(buckets) <= rl.(maxEntries) -> table_size rl.(accountBuckets) <= rl.(maxEntries) ->
   table_size (run_ops ops rl).(buckets) <= rl.(maxEntries) /\ table_size (run_ops ops rl).(accountBuckets) <= rl.(maxEntries)).
Proof.
  intros [Hb Ho] Ha He Hops.
  assert (Forall (fun o => op_time o <= T + minute - 1 < op_time o + minute) ops) as Hops' by (eapply Forall_impl; [exact Hops|]; intros o Ho2; cbv beta in *; lia).
  assert (forall g, 0 <= budget g rl.(rl_limits) -> admitted g key ops rl <= 4 * budget g rl.(rl_limits)) as Hg.
  { intros g Hg. destruct (history_spends g _ key ops rl Hg Hops') as [H1 _]. revert H1. unfold left_for.
    pose proof (spend_sane g _ (T + minute - 1) (rl.(buckets) !! key) Hg ltac:(intros x Hx; by eapply Hb)).
    pose proof (spend_sane g _ (T + minute - 1) (Some rl.(overflow)) Hg ltac:(by intros x [= <-])).
    pose proof (spend_nonneg g _ (T + minute - 1) ((run_ops ops rl).(buckets) !! key) Hg).
    pose proof (spend_nonneg g _ (T + minute - 1) (Some (run_ops ops rl).(overflow)) Hg). lia. }
  split; [by apply (Hg Auth)|]. split; [by apply (Hg Enrollment)|]. intros Hs1 Hs2.
  destruct (history_spends Auth _ key ops rl Ha Hops') as [_ (_ & _ & _ & _ & S1 & S2)]. auto.
Qed.

(** ** The address a client is counted under *)


Lemma Join_app_sep a b : a <> [] -> b <> [] -> chars (GoStrings.Join (a ++ b) ",") = chars (GoStrings.Join a ",") ++ ","%char :: chars (GoStrings.Join b ",").
Proof.
  intros Ha Hb. induction a as [|x a IH]; [done|]. destruct a as [|y a].
  - simpl. destruct b as [|z b]; [done|]. by rewrite chars_app, chars_app.
  - change ((x :: y :: a) ++ b) with (x :: (y :: a) ++ b). specialize (IH ltac:(done)).
    change (GoStrings.Join (x :: (y :: a) ++ b) ",") with (x +:+ ","%string +:+ GoStrings.Join ((y :: a) ++ b) ",").
    change (GoStrings.Join (x :: y :: a) ",") with (x +:+ ","%string +:+ GoStrings.Join (y :: a) ",").
    rewrite !chars_app, IH, <- !app_assoc. done.
Qed.

Lemma Split_joined a b :
  a <> [] -> b <> [] -> Split (GoStrings.Join (a ++ b) ",") "," = Split (GoStrings.Join a ",") "," ++ Split (GoStrings.Join b ",") ",".
Proof. intros Ha Hb. unfold Split. by rewrite (Join_app_sep a b Ha Hb), split_chars_app, map_app. Qed.

(** A trimmed string is empty when the cut set has all of it. *)
Lemma drop_while_all p l : drop_while p l = [] <-> Forall (fun c => p c = true) l.
Proof.
  split.
  - induction l as [|c l IH]; simpl; [constructor|]. destruct (p c) eqn:E; [|done]. intros Hl. constructor; auto.
  - induction 1 as [|c l Hc _ IH]; simpl; [done|]. by rewrite Hc.
Qed.

Lemma drop_while_suffix p l : exists k, l = k ++ drop_while p l /\ Forall (fun c => p c = true) k.
Proof.
  induction l as [|c l (k & E & Hk)]; simpl; [by exists []|]. destruct (p c) eqn:Ec; [|by exists []].
  exists (c :: k). split; [simpl; by rewrite <- E|by constructor].
Qed.

Lemma Trim_empty s cut : Trim s cut = ""%string <-> Forall (fun c => in_cutset cut c = true) (chars s).
Proof.
  unfold Trim, trim_func. set (p := in_cutset cut). split.
  - intros Hs. assert (rev (drop_while p (rev (drop_while p (chars s)))) = []) as Hr.
    { apply (f_equal chars) in Hs. by rewrite chars_of_chars in Hs. }
    apply (f_equal (@rev _)) in Hr. rewrite rev_involutive in Hr. simpl in Hr. apply drop_while_all in Hr.
    destruct (drop_while_suffix p (chars s)) as (k & E & Hk). rewrite E. apply Forall_app. split; [done|].
    rewrite <- (rev_involutive (drop_while p (chars s))). by apply Forall_rev.
  - intros Hs. apply drop_while_all in Hs. by rewrite Hs.
Qed.

(** The nearest hops decide: one of the first sixteen is not an address or
    not one of the trusted proxies. *)
Definition decides (proxies : list IPNet) (hop : string) : bool :=
  match forwardedIP hop with None => true | Some ip => negb (ipInNetworks ip proxies) end.

Lemma hop_decided proxies direct fuel hops more :
  existsb (decides proxies) (take fuel hops) = true ->
  forwarded_hop proxies direct fuel (hops ++ more) = forwarded_hop proxies direct fuel hops.
Proof.
  revert hops. induction fuel as [|fuel IH]; intros [|hop hops]; simpl; try done. unfold decides at 1.
  destruct (forwardedIP hop) as [ip|]; [|done]. destruct (ipInNetworks ip proxies); [|done]. simpl. apply IH.
Qed.

Definition with_forwarded (values : list string) (r : Request) : Request :=
  mkRequest r.(URL_Path) r.(RemoteAddr) values r.(XRealIP) r.(Authorization).

Definition separators : string := of_chars [","; " "; Ascii.ascii_of_nat 9]%char.

(** C22: a client does not choose the address it is counted under.  From a
    peer that is not a trusted proxy, no header changes it.  Behind trusted
    proxies, header lines that the client sent in front of those the proxies
    added change nothing, as soon as one of the nearest sixteen hops that the
    proxies reported is an address outside the trusted networks (or not an
    address at all). *)
Theorem client_address_not_chosen proxies r :
  (forall ip values realIP, ParseIP (canonicalIP (remoteHost r.(RemoteAddr))) = Some ip -> ipInNetworks ip proxies = false ->
     ClientIP proxies (mkRequest r.(URL_Path) r.(RemoteAddr) values realIP r.(Authorization)) = canonicalIP (remoteHost r.(RemoteAddr))) /\
  (forall client own, own <> [] -> Trim (GoStrings.Join own ",") separators <> ""%string ->
     existsb (decides proxies) (take maxForwardedHops (rev (Split (GoStrings.Join own ",") ","))) = true ->
     ClientIP proxies (with_forwarded (client ++ own) r) = ClientIP proxies (with_forwarded own r)).
Proof.
  split.
  - intros ip values realIP Hp Hn. unfold ClientIP. simpl. by rewrite Hp, Hn.
  - intros client own Hown Ht Hd. destruct (decide (client = [])) as [-> |Ha]; [done|].
    unfold ClientIP, with_forwarded. simpl RemoteAddr. simpl XForwardedFor. simpl XRealIP.
    destruct (ParseIP _) as [ip|]; [|done]. destruct (negb _); [done|]. fold separators.
    rewrite (bool_decide_false (Trim (GoStrings.Join own ",") separators = _)) by done.
    rewrite bool_decide_false; [rewrite Split_joined, rev_app_distr by done; by apply hop_decided|].
    intros E. apply Ht. rewrite Trim_empty in *. rewrite (Join_app_sep client own Ha Hown) in E. apply Forall_app in E as [_ E]. by inversion_clear E.
Qed.
End rules.

(** ** A concrete server *)

(** Addresses are their text; a hash is the text hashed. *)
#[local] Instance ex_network : Network := {
  IP := string; IPNet := string;
  ParseIP s := if bool_decide (s = ""%string) then None else Some s;
  IP_String s := s; Contains net ip := bool_decide (net = ip);
  SplitHostPort _ := None; To4_String s := Some s; Mask64_String s := s; sha256_hex s := s }.

Definition ex_login (addr : string) : Request := mkRequest "/api/v1/auth/login" addr [] "" "".
Definition ex_limiter : rateLimiter := newRateLimiter "salt" ["10.0.0.1"]%string (rateLimitsFromConfig (mkConfigRateLimits 0 0 0)).
(** Twelve attempts to log in, one of them from elsewhere, in 12 seconds. *)
Definition ex_attempts : list limiter_op :=
  LRequest 0 [] (ex_login "192.0.2.7") :: map (fun i => LRequest (Z.of_nat i * second) [] (ex_login "192.0.2.8")) (seq 1 11).

Lemma credential_guessing_bounded_witness :
  admitted Auth "salt192.0.2.8" ex_attempts ex_limiter = 10 /\ admitted Auth "salt192.0.2.8" ex_attempts ex_limiter <= 4 * 10.
Proof.
  split; [vm_compute; reflexivity|].
  refine (proj1 (credential_guessing_bounded ex_limiter 0 ex_attempts "salt192.0.2.8" _ _ _ _)).
  - split; [|split; vm_compute; discriminate]. intros k b Hb. simpl in Hb; by rewrite lookup_empty in Hb.
  - vm_compute. discriminate.
  - vm_compute. discriminate.
  - repeat constructor; vm_compute; try discriminate; reflexivity.
Defined.

(** The client claims to be someone else in front of the proxy's report. *)
Definition ex_proxies : list (@IPNet ex_network) := ["10.0.0.1"]%string.
Definition ex_spoofed : Request := mkRequest "/" "10.0.0.1" [] "" "".
Lemma client_address_not_chosen_witness :
  ClientIP ex_proxies (with_forwarded ["198.51.100.9"; "192.0.2.7"]%string ex_spoofed) = "192.0.2.7"%string.
Proof.
  transitivity (ClientIP ex_proxies (with_forwarded ["192.0.2.7"]%string ex_spoofed)); [|vm_compute; reflexivity].
  apply (proj2 (client_address_not_chosen ex_proxies ex_spoofed) ["198.51.100.9"]%string ["192.0.2.7"]%string);
    [done|vm_compute; discriminate|vm_compute; reflexivity].
Defined.
