(* ===== verification/Hub.v ===== *)
(** * The realtime hub

    Models [server/internal/realtime/hub.go].  Sockets are shared objects
    ([*Client]), so they live in a heap and the hub's indexes hold pointers.
    Every hub method runs under the hub's mutex, so each is one atomic step;
    [Publish] snapshots the recipients and then sends to each.

    Address parsing ([net/netip]) is a parameter. *)

From S2P Require Import Prelude.
From stdpp Require Import base numbers list strings gmap fin_maps sets.
From Stdlib Require Import ZArith ZifyBool Lia.
Open Scope Z_scope.

Definition maxConnections : Z := 10000.
Definition maxConnectionsPerIP : Z := 20.
Definition defaultMaxConnectionsPerIPv6Prefix : Z := 200.
Definition maxConnectionsPerAccount : Z := 10.
Definition maxConnectionsPerDevice : Z := 3.
Definition sendBuffer : Z := 32.

Inductive hub_error := ErrConnectionLimit | ErrHubDraining.

(** What [addressKeys] uses of [net/netip]: [ParseAddr] with the zone dropped
    and IPv4-mapped forms unmapped, whether the result is IPv4, its text, and
    the text of its masked /64. *)
Class Netip := {
  Addr : Type;
  ParseAddr : string -> option Addr;
  UnmapNoZone : Addr -> Addr;
  Is4 : Addr -> bool;
  AddrString : Addr -> string;
  Prefix64String : Addr -> string }.

Definition addressKeys `{Netip} (remoteIP : string) : string * string :=
  match ParseAddr remoteIP with
  | None => (remoteIP, "")
  | Some addr =>
      let addr := UnmapNoZone addr in
      if Is4 addr then (AddrString addr, "") else (AddrString addr, Prefix64String addr)
  end.

Record Client := mkClient {
  accountID : string;
  deviceID : string;
  ipKey : string;
  prefixKey : string;
  send : list string;
  closed : bool }.

Record Hub := mkHub {
  subscribers : gmap string (gset nat);
  perIP : gmap string Z;
  perPrefix : gmap string Z;
  perPrefixLimit : Z;
  draining : bool;
  total : Z;
  dropped : Z;
  rejectedLimit : Z;
  rejectedDraining : Z;
  clients : gmap nat Client;        (* every socket ever registered *)
  nextClient : nat }.

Definition NewHubWithLimits (limit : Z) : Hub :=
  mkHub ∅ ∅ ∅ (if limit <=? 0 then defaultMaxConnectionsPerIPv6Prefix else limit)
    false 0 0 0 0 ∅ 0%nat.

Definition NewHub : Hub := NewHubWithLimits 0.

Definition ConnectionCount (h : Hub) : Z := h.(total).

Definition socks (h : Hub) (a : string) : gset nat := default ∅ (h.(subscribers) !! a).
Definition count (m : gmap string Z) (k : string) : Z := default 0 (m !! k).
Definition is_device (h : Hub) (d : string) (c : nat) : bool :=
  bool_decide ((deviceID <$> h.(clients) !! c) = Some d).

Definition Close (h : Hub) (c : nat) : Hub :=
  mkHub h.(subscribers) h.(perIP) h.(perPrefix) h.(perPrefixLimit) h.(draining) h.(total)
    h.(dropped) h.(rejectedLimit) h.(rejectedDraining)
    (alter (fun cl => mkClient cl.(accountID) cl.(deviceID) cl.(ipKey) cl.(prefixKey) cl.(send) true)
       c h.(clients)) h.(nextClient).

Definition Register `{Netip} (h : Hub) (account device remoteIP : string)
  : result hub_error nat * Hub :=
  let '(ipk, pfk) := addressKeys remoteIP in
  if h.(draining) then
    (Err ErrHubDraining,
     mkHub h.(subscribers) h.(perIP) h.(perPrefix) h.(perPrefixLimit) h.(draining) h.(total)
       h.(dropped) h.(rejectedLimit) (h.(rejectedDraining) + 1) h.(clients) h.(nextClient))
  else
  let accountClients := socks h account in
  let accountCount := Z.of_nat (size accountClients) in
  let deviceCount := Z.of_nat (size (filter (fun c => is_device h device c = true) accountClients)) in
  let ipCount := count h.(perIP) ipk in
  if (maxConnections <=? h.(total)) || (maxConnectionsPerAccount <=? accountCount) ||
     (maxConnectionsPerDevice <=? deviceCount) || (maxConnectionsPerIP <=? ipCount) ||
     (negb (bool_decide (pfk = "")) && (h.(perPrefixLimit) <=? count h.(perPrefix) pfk))
  then
    (Err ErrConnectionLimit,
     mkHub h.(subscribers) h.(perIP) h.(perPrefix) h.(perPrefixLimit) h.(draining) h.(total)
       h.(dropped) (h.(rejectedLimit) + 1) h.(rejectedDraining) h.(clients) h.(nextClient))
  else
  let c := h.(nextClient) in
  (Ok c,
   mkHub (<[account := {[c]} ∪ accountClients]> h.(subscribers))
     (<[ipk := count h.(perIP) ipk + 1]> h.(perIP))
     (if bool_decide (pfk = "") then h.(perPrefix)
      else <[pfk := count h.(perPrefix) pfk + 1]> h.(perPrefix))
     h.(perPrefixLimit) h.(draining) (h.(total) + 1) h.(dropped) h.(rejectedLimit)
     h.(rejectedDraining) (<[c := mkClient account device ipk pfk [] false]> h.(clients)) (S c)).

(** [h.perIP[k]--], dropping the key at zero. *)
Definition decrement (m : gmap string Z) (k : string) : gmap string Z :=
  let n := count m k - 1 in if 0 <? n then <[k := n]> m else delete k m.

Definition removeLocked (h : Hub) (c : nat) : Hub :=
  match h.(clients) !! c with
  | None => h
  | Some cl =>
      let rest := socks h cl.(accountID) ∖ {[c]} in
      mkHub (if bool_decide (rest = ∅) then delete cl.(accountID) h.(subscribers)
             else <[cl.(accountID) := rest]> h.(subscribers))
        (decrement h.(perIP) cl.(ipKey))
        (if bool_decide (cl.(prefixKey) = "") then h.(perPrefix)
         else decrement h.(perPrefix) cl.(prefixKey))
        h.(perPrefixLimit) h.(draining) (h.(total) - 1) h.(dropped) h.(rejectedLimit)
        h.(rejectedDraining) h.(clients) h.(nextClient)
  end.

Definition Unregister (h : Hub) (c : nat) : Hub :=
  match h.(clients) !! c with
  | None => h
  | Some cl =>
      let h := if bool_decide (c ∈ socks h cl.(accountID)) then removeLocked h c else h in
      Close h c
  end.

(** The loops of the [Disconnect] methods: [range] visits the account's
    sockets once each, in some order; a matching one is removed and closed. *)
Definition disconnect_where (h : Hub) (p : nat -> bool) (order : list nat) : Hub :=
  foldl (fun h c => if p c then Close (removeLocked h c) c else h) h order.

Definition DisconnectDevice (h : Hub) (account device : string) : Hub :=
  disconnect_where h (is_device h device) (elements (socks h account)).
Definition DisconnectAccountExceptDevice (h : Hub) (account keep : string) : Hub :=
  disconnect_where h (fun c => negb (is_device h keep c)) (elements (socks h account)).
Definition DisconnectAccount (h : Hub) (account : string) : Hub :=
  disconnect_where h (fun _ => true) (elements (socks h account)).

Definition Drain (h : Hub) : Hub :=
  let all := concat (map (fun p => elements p.2) (map_to_list h.(subscribers))) in
  let h := foldl Close h all in
  mkHub ∅ ∅ ∅ h.(perPrefixLimit) true 0 h.(dropped) h.(rejectedLimit) h.(rejectedDraining)
    h.(clients) h.(nextClient).

(** ** Publishing *)

Definition set_client (h : Hub) (c : nat) (cl : Client) : Hub :=
  mkHub h.(subscribers) h.(perIP) h.(perPrefix) h.(perPrefixLimit) h.(draining) h.(total)
    h.(dropped) h.(rejectedLimit) h.(rejectedDraining) (<[c := cl]> h.(clients)) h.(nextClient).

(** [TrySend]: [true] also for a closed client; the channel holds at most
    [sendBuffer] payloads. *)
Definition TrySend (h : Hub) (c : nat) (payload : string) : bool * Hub :=
  match h.(clients) !! c with
  | None => (true, h)
  | Some cl =>
      if cl.(closed) then (true, h) else
      if Z.of_nat (length cl.(send)) <? sendBuffer then
        (true, set_client h c (mkClient cl.(accountID) cl.(deviceID) cl.(ipKey) cl.(prefixKey)
                                 (cl.(send) ++ [payload]) cl.(closed)))
      else (false, h)
  end.

Definition publish_one (payload : string) (h : Hub) (c : nat) : Hub :=
  let '(sent, h) := TrySend h c payload in
  if (sent : bool) then h else
  mkHub h.(subscribers) h.(perIP) h.(perPrefix) h.(perPrefixLimit) h.(draining) h.(total)
    (h.(dropped) + 1) h.(rejectedLimit) h.(rejectedDraining) h.(clients) h.(nextClient).

(** [payload] is the marshalled event. *)
Definition Publish (h : Hub) (accountIDs : list string) (payload : string) : Hub :=
  let targets := concat (map (fun a => elements (socks h a)) accountIDs) in
  foldl (publish_one payload) h targets.

Record HubStats := mkHubStats { DroppedEvents : Z; RejectedLimit : Z; RejectedDraining : Z }.
Definition Stats (h : Hub) : HubStats :=
  mkHubStats h.(dropped) h.(rejectedLimit) h.(rejectedDraining).

(** ** Index consistency *)

Definition has (f : Client -> string) (h : Hub) (k : string) (c : nat) : bool :=
  bool_decide ((f <$> h.(clients) !! c) = Some k).

(** How many of the sockets [R] have key [k]. *)
Definition tally (f : Client -> string) (h : Hub) (k : string) (R : gset nat) : Z :=
  Z.of_nat (size (filter (fun c => has f h k c = true) R)).

(** [R] is the set of registered sockets and every index agrees with it. *)
Record consistent (h : Hub) (R : gset nat) : Prop := {
  con_reg c : c ∈ R <-> exists cl, h.(clients) !! c = Some cl /\ c ∈ socks h cl.(accountID);
  con_account a c : c ∈ socks h a -> (accountID <$> h.(clients) !! c) = Some a;
  con_nonempty a : h.(subscribers) !! a <> Some ∅;
  con_total : h.(total) = Z.of_nat (size R);
  con_ip k : count h.(perIP) k = tally ipKey h k R;
  con_ip_pos k n : h.(perIP) !! k = Some n -> 0 < n;
  con_prefix k : k <> "" -> count h.(perPrefix) k = tally prefixKey h k R;
  con_prefix_pos k n : h.(perPrefix) !! k = Some n -> 0 < n;
  con_fresh c : is_Some (h.(clients) !! c) -> (c < h.(nextClient))%nat }.

(** The connection caps. *)
Record within_caps (h : Hub) : Prop := {
  cap_total : h.(total) <= maxConnections;
  cap_account a : Z.of_nat (size (socks h a)) <= maxConnectionsPerAccount;
  cap_device a d : tally deviceID h d (socks h a) <= maxConnectionsPerDevice;
  cap_ip k : count h.(perIP) k <= maxConnectionsPerIP;
  cap_prefix k : k <> "" -> count h.(perPrefix) k <= Z.max 0 h.(perPrefixLimit) }.

Lemma filter_bool_add (p q : nat -> bool) c (R : gset nat) :
  c ∉ R -> (forall x, x ∈ R -> p x = q x) ->
  Z.of_nat (size (filter (fun x => q x = true) ({[c]} ∪ R))) =
  (if q c then 1 else 0) + Z.of_nat (size (filter (fun x => p x = true) R)).
Proof.
  intros Hc Hpq.
  assert (filter (fun x => q x = true) R = filter (fun x => p x = true) R) as <-.
  { apply set_eq. intros x. rewrite !elem_of_filter. naive_solver congruence. }
  rewrite filter_union_L by apply _. destruct (q c) eqn:Eq.
  - rewrite filter_singleton_True_L by (done || apply _).
    rewrite size_union; [rewrite size_singleton; lia|].
    intros x ->%elem_of_singleton [_ ?]%elem_of_filter. done.
  - rewrite filter_singleton_False_L by (congruence || apply _).
    rewrite (left_id_L ∅ _). lia.
Qed.

Lemma filter_bool_del (p : nat -> bool) c (R : gset nat) :
  c ∈ R ->
  Z.of_nat (size (filter (fun x => p x = true) (R ∖ {[c]}))) =
  Z.of_nat (size (filter (fun x => p x = true) R)) - (if p c then 1 else 0).
Proof.
  intros Hc. assert (R = {[c]} ∪ R ∖ {[c]}) as HR by (apply union_difference_singleton_L; done).
  rewrite HR at 2. rewrite (filter_bool_add p p c) by set_solver. lia.
Qed.

Lemma count_insert m k n k' :
  count (<[k := n]> m) k' = if decide (k = k') then n else count m k'.
Proof. unfold count. rewrite lookup_insert. by case_decide. Qed.

Lemma count_decrement m k k' :
  (forall n, m !! k = Some n -> 0 < n) -> m !! k <> None ->
  count (decrement m k) k' = count m k' - (if decide (k = k') then 1 else 0).
Proof.
  intros Hpos Hne. unfold decrement. destruct (m !! k) as [n|] eqn:E; [|done].
  specialize (Hpos n eq_refl). unfold count at 1 2. rewrite E; simpl.
  destruct (0 <? n - 1) eqn:El.
  - unfold count. rewrite lookup_insert. case_decide; subst; [rewrite E; simpl; lia|lia].
  - unfold count. rewrite lookup_delete. case_decide; subst; [rewrite E; simpl; lia|lia].
Qed.

Lemma decrement_pos m k k' n :
  (forall k n, m !! k = Some n -> 0 < n) -> decrement m k !! k' = Some n -> 0 < n.
Proof.
  intros Hpos. unfold decrement. case_match eqn:El.
  - rewrite lookup_insert. case_decide; [intros [= <-]; lia|apply Hpos].
  - intros [_ ?]%lookup_delete_Some. by eapply Hpos.
Qed.

(** Closing a socket or queueing a payload changes neither its keys nor any
    index. *)
Definition attrs (cl : Client) : string * string * string * string :=
  (cl.(accountID), cl.(deviceID), cl.(ipKey), cl.(prefixKey)).

Record same_index (h h' : Hub) : Prop := {
  same_subs : h'.(subscribers) = h.(subscribers);
  same_ip : h'.(perIP) = h.(perIP);
  same_prefix : h'.(perPrefix) = h.(perPrefix);
  same_limit : h'.(perPrefixLimit) = h.(perPrefixLimit);
  same_total : h'.(total) = h.(total);
  same_next : h'.(nextClient) = h.(nextClient);
  same_draining : h'.(draining) = h.(draining);
  same_attrs c : attrs <$> h'.(clients) !! c = attrs <$> h.(clients) !! c }.

Lemma same_index_refl h : same_index h h.
Proof. by split. Qed.

Lemma same_index_trans h1 h2 h3 : same_index h1 h2 -> same_index h2 h3 -> same_index h1 h3.
Proof. intros [] []. split; try congruence. Qed.

Lemma same_proj {A} (f : Client -> A) (g : string * string * string * string -> A) h h' c :
  (forall cl, f cl = g (attrs cl)) -> same_index h h' ->
  f <$> h'.(clients) !! c = f <$> h.(clients) !! c.
Proof.
  intros Hf Hs. pose proof (same_attrs _ _ Hs c) as Ha.
  destruct (clients h' !! c), (clients h !! c); simpl in *; try done.
  rewrite !Hf. congruence.
Qed.

Lemma same_has h h' k c :
  same_index h h' ->
  has ipKey h' k c = has ipKey h k c /\ has prefixKey h' k c = has prefixKey h k c /\
  has deviceID h' k c = has deviceID h k c.
Proof.
  intros Hs. unfold has.
  rewrite (same_proj ipKey (fun p => p.1.2) h h'), (same_proj prefixKey (fun p => p.2) h h'),
    (same_proj deviceID (fun p => p.1.1.2) h h'); done.
Qed.

Lemma tally_ext f h h' k R :
  (forall c, c ∈ R -> has f h' k c = has f h k c) -> tally f h' k R = tally f h k R.
Proof.
  intros Hext. unfold tally. do 2 f_equal. apply set_eq. intros c. rewrite !elem_of_filter.
  naive_solver congruence.
Qed.

Lemma consistent_same h h' R : same_index h h' -> consistent h R -> consistent h' R.
Proof.
  intros Hs [Hr Ha Hn Ht Hi Hp Hpf Hpp Hf].
  assert (forall a, socks h' a = socks h a) as Hsk by (intros; unfold socks; by rewrite (same_subs _ _ Hs)).
  assert (forall c, accountID <$> clients h' !! c = accountID <$> clients h !! c) as Hacc
    by (intros; by apply (same_proj accountID (fun p => p.1.1.1))).
  split.
  - intros c. rewrite Hr. specialize (Hacc c).
    destruct (clients h !! c) as [cl|], (clients h' !! c) as [cl'|]; simpl in Hacc; try done;
      [|split; intros (? & ? & _); done].
    injection Hacc as Hacc.
    split; intros (x & [= <-] & Hin); eexists; (split; [done|]); rewrite ?Hsk in *; congruence.
  - intros a c. rewrite Hsk, Hacc. apply Ha.
  - by rewrite (same_subs _ _ Hs).
  - by rewrite (same_total _ _ Hs).
  - intros k. rewrite (same_ip _ _ Hs), Hi. symmetry. apply tally_ext. intros. by apply same_has.
  - by rewrite (same_ip _ _ Hs).
  - intros k Hk. rewrite (same_prefix _ _ Hs), Hpf by done. symmetry. apply tally_ext. intros. by apply same_has.
  - by rewrite (same_prefix _ _ Hs).
  - intros c [cl Hc]. rewrite (same_next _ _ Hs). apply Hf. specialize (Hacc c). rewrite Hc in Hacc.
    destruct (clients h !! c); [eauto|done].
Qed.

Lemma within_caps_same h h' : same_index h h' -> within_caps h -> within_caps h'.
Proof.
  intros Hs [Ht Ha Hd Hi Hp].
  assert (forall a, socks h' a = socks h a) as Hsk by (intros; unfold socks; by rewrite (same_subs _ _ Hs)).
  split; rewrite ?(same_total _ _ Hs), ?(same_ip _ _ Hs), ?(same_prefix _ _ Hs), ?(same_limit _ _ Hs); try done.
  - intros a. by rewrite Hsk.
  - intros a d. rewrite Hsk, (tally_ext _ h h'); [done|]. intros. by apply same_has.
Qed.

Lemma Close_same h c : same_index h (Close h c).
Proof.
  split; try done. intros c'. unfold Close; simpl. rewrite lookup_alter.
  case_decide; subst; [|done]. by destruct (clients h !! c').
Qed.

(** Removing a registered socket. *)
Lemma count_some m k : 0 < count m k -> m !! k <> None.
Proof. unfold count. destruct (m !! k); simpl; [done|lia]. Qed.

Lemma tally_pos f h k R c : c ∈ R -> has f h k c = true -> 0 < tally f h k R.
Proof.
  intros Hc Hh. unfold tally.
  assert (size (filter (fun c => has f h k c = true) R) <> 0)%nat; [|lia].
  intros Hz%size_empty_inv. apply (not_elem_of_empty (C := gset nat) c), Hz. by apply elem_of_filter.
Qed.

Lemma tally_del f h k R c :
  c ∈ R -> tally f h k (R ∖ {[c]}) = tally f h k R - (if has f h k c then 1 else 0).
Proof. apply filter_bool_del. Qed.

Lemma has_true f h k c cl : h.(clients) !! c = Some cl -> has f h k c = bool_decide (f cl = k).
Proof. intros Hc. unfold has. rewrite Hc. apply bool_decide_ext. naive_solver congruence. Qed.

Lemma removeLocked_socks h c cl a :
  h.(clients) !! c = Some cl ->
  socks (removeLocked h c) a =
  if decide (a = cl.(accountID)) then socks h a ∖ {[c]} else socks h a.
Proof.
  intros Hcl. unfold removeLocked. rewrite Hcl. unfold socks at 1; simpl.
  case_bool_decide as Er.
  - rewrite lookup_delete. repeat case_decide; subst; try done.
  - rewrite lookup_insert. repeat case_decide; subst; done.
Qed.

Lemma removeLocked_consistent h R c :
  consistent h R -> c ∈ R -> consistent (removeLocked h c) (R ∖ {[c]}).
Proof.
  intros [Hr Ha Hn Ht Hi Hp Hpf Hpp Hf] Hc.
  destruct (proj1 (Hr c) Hc) as (cl & Hcl & Hin).
  pose proof (fun a => removeLocked_socks h c cl a Hcl) as Hsk.
  assert (clients (removeLocked h c) = clients h) as Hcls by (unfold removeLocked; by rewrite Hcl).
  assert (forall f k S, tally f (removeLocked h c) k S = tally f h k S) as Htal.
  { intros. apply tally_ext. intros. unfold has. by rewrite Hcls. }
  split.
  - intros c'. rewrite elem_of_difference, elem_of_singleton, Hr, Hcls. split.
    + intros [(cl' & Hcl' & Hin') Hne]. exists cl'. split; [done|]. rewrite Hsk.
      case_decide; set_solver.
    + intros (cl' & Hcl' & Hin'). rewrite Hsk in Hin'. case_decide as Hd; [set_solver|].
      split; [eauto|]. intros ->. congruence.
  - intros a c'. rewrite Hsk, Hcls. case_decide; [|apply Ha].
    intros [? _]%elem_of_difference. by apply Ha.
  - intros a. unfold removeLocked. rewrite Hcl; simpl. case_bool_decide as Er.
    + rewrite lookup_delete. case_decide; [done|apply Hn].
    + rewrite lookup_insert. case_decide; [congruence|apply Hn].
  - unfold removeLocked. rewrite Hcl; simpl. rewrite Ht, size_difference by set_solver.
    rewrite size_singleton. assert (size R <> 0)%nat; [|lia].
    intros Hz%size_empty_inv. set_solver.
  - intros k. rewrite Htal, tally_del, <- Hi, (has_true _ _ _ _ cl Hcl) by done.
    unfold removeLocked. rewrite Hcl; simpl. rewrite count_decrement; [|apply Hp|].
    + f_equal. case_decide; case_bool_decide; done.
    + apply count_some. rewrite Hi. apply (tally_pos _ _ _ _ c); [done|].
      rewrite (has_true _ _ _ _ cl Hcl). by apply bool_decide_true.
  - intros k n. unfold removeLocked. rewrite Hcl; simpl. by apply decrement_pos.
  - intros k Hk. rewrite Htal, tally_del, <- Hpf, (has_true _ _ _ _ cl Hcl) by done.
    unfold removeLocked. rewrite Hcl; simpl. case_bool_decide as Ep.
    + rewrite (bool_decide_false (prefixKey cl = k)) by congruence. lia.
    + rewrite count_decrement; [f_equal; case_decide; case_bool_decide; done|apply Hpp|].
      apply count_some. rewrite Hpf by done. apply (tally_pos _ _ _ _ c); [done|].
      rewrite (has_true _ _ _ _ cl Hcl). by apply bool_decide_true.
  - intros k n. unfold removeLocked. rewrite Hcl; simpl. case_bool_decide; [apply Hpp|by apply decrement_pos].
  - intros c'. rewrite Hcls. unfold removeLocked. rewrite Hcl; simpl. apply Hf.
Qed.

Lemma tally_mono f h h' k (R R' : gset nat) :
  R' ⊆ R -> h'.(clients) = h.(clients) -> tally f h' k R' <= tally f h k R.
Proof.
  intros Hsub Hcl. unfold tally. apply inj_le, subseteq_size.
  intros c. rewrite !elem_of_filter. unfold has. rewrite Hcl. set_solver.
Qed.

Lemma removeLocked_clients h c : (removeLocked h c).(clients) = h.(clients).
Proof. unfold removeLocked. by case_match. Qed.

Lemma removeLocked_limit h c : (removeLocked h c).(perPrefixLimit) = h.(perPrefixLimit).
Proof. unfold removeLocked. by case_match. Qed.

Lemma removeLocked_caps h R c :
  consistent h R -> c ∈ R -> within_caps h -> within_caps (removeLocked h c).
Proof.
  intros Hcon Hc [Ht Ha Hd Hi Hp]. pose proof (removeLocked_consistent h R c Hcon Hc) as Hcon'.
  destruct (proj1 (con_reg _ _ Hcon c) Hc) as (cl & Hcl & Hin).
  assert (forall a, socks (removeLocked h c) a ⊆ socks h a) as Hsub.
  { intros a. rewrite (removeLocked_socks h c cl a Hcl). case_decide; set_solver. }
  assert (R ∖ {[c]} ⊆ R) as HR by set_solver.
  split.
  - rewrite (con_total _ _ Hcon'). rewrite (con_total _ _ Hcon) in Ht.
    apply subseteq_size in HR. lia.
  - intros a. specialize (Ha a). pose proof (subseteq_size _ _ (Hsub a)). lia.
  - intros a d. pose proof (tally_mono deviceID h (removeLocked h c) d _ _ (Hsub a) (removeLocked_clients h c)).
    specialize (Hd a d). lia.
  - intros k. rewrite (con_ip _ _ Hcon'). specialize (Hi k). rewrite (con_ip _ _ Hcon) in Hi.
    pose proof (tally_mono ipKey h (removeLocked h c) k _ _ HR (removeLocked_clients h c)). lia.
  - intros k Hk. rewrite (con_prefix _ _ Hcon') by done. specialize (Hp k Hk).
    rewrite (con_prefix _ _ Hcon) in Hp by done.
    pose proof (tally_mono prefixKey h (removeLocked h c) k _ _ HR (removeLocked_clients h c)).
    rewrite removeLocked_limit. lia.
Qed.

(** Registering. *)
Section register.
Context `{Netip}.

Lemma Register_consistent h R a d ip c h' :
  consistent h R -> Register h a d ip = (Ok c, h') -> consistent h' ({[c]} ∪ R).
Proof.
  intros [Hr Ha Hn Ht Hi Hp Hpf Hpp Hf]. unfold Register.
  destruct (addressKeys ip) as [ipk pfk]. destruct (draining h); [done|].
  case_match eqn:Hcaps; [done|]. clear Hcaps. intros [= <- <-].
  assert (clients h !! nextClient h = None) as Hfresh.
  { destruct (clients h !! nextClient h) eqn:E; [|done].
    specialize (Hf (nextClient h)). rewrite E in Hf. specialize (Hf ltac:(eauto)). lia. }
  assert (nextClient h ∉ R) as HnR.
  { intros (cl & Hcl & _)%Hr. congruence. }
  match goal with |- consistent ?x _ => set (h' := x) end.
  set (n := nextClient h) in *.
  set (new := mkClient a d ipk pfk [] false).
  assert (clients h' !! n = Some new) as Hcl1 by apply lookup_insert_eq.
  assert (forall x, x <> n -> clients h' !! x = clients h !! x) as Hcl2
    by (intros; by apply lookup_insert_ne).
  assert (socks h' a = {[n]} ∪ socks h a) as Hsk1
    by (unfold socks at 1; unfold h'; simpl; by rewrite lookup_insert_eq).
  assert (forall x, x <> a -> socks h' x = socks h x) as Hsk2
    by (intros; unfold socks, h'; simpl; by rewrite lookup_insert_ne).
  assert (forall f k, tally f h' k ({[n]} ∪ R) =
            (if bool_decide (f new = k) then 1 else 0) + tally f h k R) as Htal.
  { intros f k. unfold tally. rewrite (filter_bool_add (has f h k) (has f h' k) n); [|done|].
    - by rewrite (has_true f h' k n new).
    - intros x Hx. unfold has. rewrite Hcl2; [done|]. by intros ->. }
  assert (forall x b, x ∈ socks h b -> x <> n) as Hold
    by (intros x b Hx%Ha ->; by rewrite Hfresh in Hx).
  split.
  - intros x. rewrite elem_of_union, elem_of_singleton, Hr. split.
    + intros [->|(cl & Hcl' & Hin)].
      * exists new. split; [done|]. simpl. rewrite Hsk1. by apply elem_of_union_l, elem_of_singleton.
      * exists cl. rewrite Hcl2 by (by eapply Hold). split; [done|].
        destruct (decide (accountID cl = a)) as [Heq|]; [|by rewrite Hsk2].
        rewrite Heq in *. rewrite Hsk1. by apply elem_of_union_r.
    + intros (cl & Hcl' & Hin). destruct (decide (x = n)) as [->|Hne]; [by left|right].
      rewrite Hcl2 in Hcl' by done. exists cl. split; [done|].
      destruct (decide (accountID cl = a)) as [Heq|]; [|by rewrite Hsk2 in Hin].
      rewrite Heq in *. rewrite Hsk1 in Hin.
      apply elem_of_union in Hin as [?%elem_of_singleton|]; done.
  - intros x c'. destruct (decide (x = a)) as [->|Hne].
    + rewrite Hsk1. intros [->%elem_of_singleton|Hin]%elem_of_union; [by rewrite Hcl1|].
      rewrite Hcl2 by (by eapply Hold). by apply Ha.
    + rewrite Hsk2 by done. intros Hin. rewrite Hcl2 by (by eapply Hold). by apply Ha.
  - intros x. unfold h'; simpl. rewrite lookup_insert. case_decide; [|apply Hn].
    intros [= Hemp]. apply (not_elem_of_empty (C := gset nat) n). rewrite <- Hemp.
    by apply elem_of_union_l, elem_of_singleton.
  - unfold h'; simpl. rewrite Ht, size_union by set_solver. rewrite size_singleton. lia.
  - intros k. rewrite Htal. unfold h'; simpl. rewrite count_insert.
    case_decide; case_bool_decide; subst; try done; rewrite <- Hi; lia.
  - intros k m. unfold h'; simpl. rewrite lookup_insert. case_decide; [|apply Hp].
    intros [= <-]. rewrite Hi. unfold tally. lia.
  - intros k Hk. rewrite Htal. unfold h'; simpl. case_bool_decide as Ep.
    + rewrite bool_decide_false by congruence. rewrite Hpf by done. lia.
    + rewrite count_insert. case_decide; case_bool_decide; subst; try done; rewrite <- Hpf by done; lia.
  - intros k m. unfold h'; simpl. case_bool_decide; [apply Hpp|].
    rewrite lookup_insert. case_decide; [|apply Hpp]. intros [= <-]. rewrite Hpf by done. unfold tally. lia.
  - intros x [cl Hx]. unfold h'; simpl. destruct (decide (x = n)) as [->|]; [lia|].
    rewrite Hcl2 in Hx by done. specialize (Hf x ltac:(eauto)). lia.
Qed.

Lemma Register_caps h R a d ip c h' :
  consistent h R -> within_caps h -> Register h a d ip = (Ok c, h') -> within_caps h'.
Proof.
  intros Hcon [Ht Ha Hd Hi Hp]. unfold Register.
  destruct (addressKeys ip) as [ipk pfk]. destruct (draining h); [done|].
  destruct (_ || _) eqn:Hcaps; [done|]. intros [= <- <-]. bool_to_prop.
  assert (Hnew : forall b, nextClient h ∉ socks h b).
  { intros b Hin%(con_account _ _ Hcon). pose proof (con_fresh _ _ Hcon (nextClient h)) as Hf.
    destruct (clients h !! nextClient h); [|done]. specialize (Hf ltac:(eauto)). lia. }
  assert (Hsk : forall b, socks (mkHub (<[a := {[nextClient h]} ∪ socks h a]> (subscribers h)) ∅ ∅ 0 false 0 0 0 0 ∅ 0) b =
    if decide (a = b) then {[nextClient h]} ∪ socks h b else socks h b).
  { intros b. unfold socks at 1; simpl. rewrite lookup_insert. by destruct (decide (a = b)) as [->|]. }
  unfold socks in Hsk at 1; simpl in Hsk.
  split; simpl.
  - lia.
  - intros b. unfold socks at 1; simpl. rewrite Hsk. destruct (decide (a = b)) as [->|]; [|apply Ha].
    rewrite size_union, size_singleton; [lia|]. intros x ->%elem_of_singleton. apply Hnew.
  - intros b d'. unfold socks; simpl. rewrite Hsk. unfold tally.
    destruct (decide (a = b)) as [->|].
    + rewrite (filter_bool_add (has deviceID h d') _ (nextClient h)); [|apply Hnew|].
      * unfold has at 1; simpl. rewrite lookup_insert_eq. simpl.
        specialize (Hd b d'). unfold tally in Hd. destruct (bool_decide (Some d = Some d')) eqn:Heq; [|lia].
        bool_to_prop. injection Heq as <-. unfold is_device, has in *. lia.
      * intros x Hx. unfold has; simpl. rewrite lookup_insert_ne; [done|]. intros <-. by apply (Hnew b).
    + etrans; [|apply (Hd b d')]. apply inj_le, subseteq_size. intros x. rewrite !elem_of_filter.
      unfold has; simpl. intros [Hx Hin]. rewrite lookup_insert_ne in Hx; [done|]. intros <-. by apply (Hnew b).
  - intros k. rewrite count_insert. destruct (decide (ipk = k)) as [<-|]; [lia|apply Hi].
  - intros k Hk. destruct (bool_decide (pfk = "")) eqn:Epf; [by apply Hp|].
    rewrite count_insert. destruct (decide (pfk = k)) as [<-|]; [simpl in *; lia|by apply Hp].
Qed.

End register.

(** ** Runs of the hub *)

Definition hub_ok (h : Hub) (R : gset nat) : Prop := consistent h R /\ within_caps h.

Lemma remove_close_ok h R c :
  hub_ok h R -> c ∈ R -> hub_ok (Close (removeLocked h c) c) (R ∖ {[c]}).
Proof.
  intros [Hc Hw] Hin. split.
  - eapply consistent_same; [apply Close_same|]. by apply removeLocked_consistent.
  - eapply within_caps_same; [apply Close_same|]. by eapply removeLocked_caps.
Qed.

(** The disconnect loops remove exactly the matching sockets. *)
Lemma disconnect_where_ok (p : nat -> bool) order h R :
  NoDup order -> (forall c, c ∈ order -> c ∈ R) -> hub_ok h R ->
  hub_ok (disconnect_where h p order) (R ∖ list_to_set (List.filter p order)).
Proof.
  revert h R. induction order as [|c order IH]; intros h R Hnd Hsub Hok; simpl.
  { by rewrite difference_empty_L. }
  apply NoDup_cons in Hnd as [Hc Hnd]. unfold disconnect_where in *; simpl. destruct (p c).
  - assert (R ∖ list_to_set (c :: List.filter p order) = R ∖ {[c]} ∖ list_to_set (List.filter p order))
      as -> by set_solver.
    apply IH; [done| |apply remove_close_ok; [done|apply Hsub; set_solver]].
    intros c' Hc'. apply elem_of_difference. split; [apply Hsub; set_solver|].
    intros ->%elem_of_singleton. done.
  - apply IH; [done| |done]. set_solver.
Qed.

Lemma socks_registered h R a c : consistent h R -> c ∈ elements (socks h a) -> c ∈ R.
Proof.
  intros Hc Hin%elem_of_elements. pose proof (con_account _ _ Hc a c Hin) as Ha.
  apply (con_reg _ _ Hc). destruct (clients h !! c) as [cl|]; [|done]. simpl in Ha.
  exists cl. split; [done|]. congruence.
Qed.

Lemma disconnect_ok h R a p :
  hub_ok h R -> hub_ok (disconnect_where h p (elements (socks h a)))
    (R ∖ list_to_set (List.filter p (elements (socks h a)))).
Proof.
  intros Hok. apply disconnect_where_ok; [apply NoDup_elements| |done].
  intros c. apply (socks_registered h); apply Hok.
Qed.

Lemma publish_one_same payload h c : same_index h (publish_one payload h c).
Proof.
  unfold publish_one, TrySend. destruct (clients h !! c) as [cl|] eqn:Hc; [|apply same_index_refl].
  destruct (closed cl); [apply same_index_refl|]. destruct (_ <? _); split; try done.
  intros c'. unfold set_client; simpl. rewrite lookup_insert. case_decide; [subst|done]. by rewrite Hc.
Qed.

Lemma foldl_same (f : Hub -> nat -> Hub) l h :
  (forall h c, same_index h (f h c)) -> same_index h (foldl f h l).
Proof.
  intros Hf. revert h. induction l as [|c l IH]; intros h; simpl; [apply same_index_refl|].
  eapply same_index_trans; [apply Hf|apply IH].
Qed.

Lemma hub_ok_same h h' R : same_index h h' -> hub_ok h R -> hub_ok h' R.
Proof. intros Hs []. split; [by eapply consistent_same|by eapply within_caps_same]. Qed.

Lemma empty_indexes_ok h :
  h.(subscribers) = ∅ -> h.(perIP) = ∅ -> h.(perPrefix) = ∅ -> h.(total) = 0 ->
  (forall c, is_Some (h.(clients) !! c) -> (c < h.(nextClient))%nat) -> hub_ok h ∅.
Proof.
  intros Hs Hi Hp Ht Hf.
  assert (forall a, socks h a = ∅) as Hsk by (intros; unfold socks; by rewrite Hs, lookup_empty).
  assert (forall f k, tally f h k ∅ = 0) as Hta.
  { intros. unfold tally. rewrite filter_empty_L by apply _. by rewrite size_empty. }
  assert (forall k, count ∅ k = 0) as Hco by (intros; unfold count; by rewrite lookup_empty).
  split; split; rewrite ?Hi, ?Hp, ?Hs, ?Ht; try done;
    try (intros; rewrite ?Hsk, ?Hta, ?Hco, ?size_empty, ?lookup_empty in *; (done || set_solver || lia)).
Qed.

Lemma Drain_ok h R : hub_ok h R -> hub_ok (Drain h) ∅.
Proof.
  intros [Hc _]. unfold Drain.
  match goal with |- context [foldl Close h ?l] =>
    pose proof (consistent_same _ _ R (foldl_same Close l h Close_same) Hc) as Hc' end.
  apply empty_indexes_ok; try done. apply (con_fresh _ _ Hc').
Qed.

Lemma Unregister_ok h R c : hub_ok h R -> exists R', hub_ok (Unregister h c) R'.
Proof.
  intros Hok. unfold Unregister. destruct (clients h !! c) as [cl|] eqn:Hcl; [|eauto].
  case_bool_decide as Hin.
  - exists (R ∖ {[c]}). apply remove_close_ok; [done|]. apply (con_reg _ _ (proj1 Hok)). eauto.
  - exists R. eapply hub_ok_same; [apply Close_same|done].
Qed.

Lemma Close_closed h c c' :
  (closed <$> h.(clients) !! c') = Some true \/ (c' = c /\ is_Some (h.(clients) !! c')) ->
  (closed <$> (Close h c).(clients) !! c') = Some true.
Proof.
  unfold Close; simpl. rewrite lookup_alter. intros [Hc|[-> [cl Hcl]]].
  - case_decide; [subst|done]. by destruct (clients h !! c').
  - case_decide; [|done]. by rewrite Hcl.
Qed.

Lemma disconnect_where_closed p order h c :
  is_Some (h.(clients) !! c) -> c ∈ order -> p c = true ->
  (closed <$> (disconnect_where h p order).(clients) !! c) = Some true.
Proof.
  intros Hs Hin Hp.
  assert (forall order h, (closed <$> clients h !! c) = Some true ->
            (closed <$> clients (disconnect_where h p order) !! c) = Some true) as Hkeep.
  { clear. induction order as [|c' order IH]; intros h Hc; [done|]. apply IH.
    destruct (p c'); [|done]. apply Close_closed. left. by rewrite removeLocked_clients. }
  revert h Hs. induction Hin as [c order|c c' order Hin IH]; intros h Hs; unfold disconnect_where; simpl.
  - rewrite Hp. apply Hkeep, Close_closed. right. by rewrite removeLocked_clients.
  - apply IH; [done|done|]. destruct (p c'); [|done]. unfold Close; simpl.
    rewrite removeLocked_clients, lookup_alter. case_decide; [subst|done].
    destruct Hs as [? ->]. eauto.
Qed.

Section runs.
Context `{Netip}.

(** Everything that happens to a hub: the methods, the writer goroutine
    taking a payload from a socket's channel, and a socket closed by its own
    reader. *)
Inductive hub_step : Hub -> Hub -> Prop :=
| hs_register h a d ip r h' : Register h a d ip = (r, h') -> hub_step h h'
| hs_unregister h c : hub_step h (Unregister h c)
| hs_disconnect_device h a d : hub_step h (DisconnectDevice h a d)
| hs_disconnect_except h a d : hub_step h (DisconnectAccountExceptDevice h a d)
| hs_disconnect_account h a : hub_step h (DisconnectAccount h a)
| hs_drain h : hub_step h (Drain h)
| hs_publish h accounts payload : hub_step h (Publish h accounts payload)
| hs_receive h c cl x rest : h.(clients) !! c = Some cl -> cl.(send) = x :: rest ->
    hub_step h (set_client h c (mkClient cl.(accountID) cl.(deviceID) cl.(ipKey) cl.(prefixKey) rest cl.(closed)))
| hs_close h c : hub_step h (Close h c).

Lemma Register_err_same h a d ip e h' : Register h a d ip = (Err e, h') -> same_index h h'.
Proof.
  unfold Register. destruct (addressKeys ip). destruct (draining h) eqn:Ed; [by intros [= <- <-]|].
  destruct (_ || _); [|done]. by intros [= <- <-].
Qed.

Lemma hub_step_ok h h' R : hub_step h h' -> hub_ok h R -> exists R', hub_ok h' R'.
Proof.
  destruct 1 as [h a d ip [c|e] h' HR| | | | | | |h c cl x rest Hc Hs|]; intros Hok.
  - exists ({[c]} ∪ R). split; [eapply Register_consistent; [apply Hok|done]|eapply Register_caps; [apply Hok..|done]].
  - exists R. eapply hub_ok_same; [by eapply Register_err_same|done].
  - by eapply Unregister_ok.
  - eexists. by apply disconnect_ok.
  - eexists. by apply disconnect_ok.
  - eexists. by apply disconnect_ok.
  - eexists. by eapply Drain_ok.
  - exists R. eapply hub_ok_same; [|done]. apply foldl_same, publish_one_same.
  - exists R. eapply hub_ok_same; [|done]. split; try done. intros c'; simpl.
    rewrite lookup_insert. case_decide; [subst|done]. by rewrite Hc.
  - exists R. eapply hub_ok_same; [apply Close_same|done].
Qed.

(** A draining hub with no sockets stays so. *)
Lemma drained_step h h' :
  hub_step h h' -> hub_ok h ∅ -> draining h = true -> hub_ok h' ∅ /\ draining h' = true.
Proof.
  intros Hs Hok Hd. assert (forall a, elements (socks h a) = []) as Hnone.
  { intros a. destruct (elements (socks h a)) as [|c l] eqn:E; [done|].
    assert (c ∈ (∅ : gset nat)); [|set_solver].
    apply (socks_registered h ∅ a); [apply Hok|]. rewrite E. set_solver. }
  destruct Hs as [h a d ip r h' HR|h c| | | | | |h c cl x rest Hc Hr|h c].
  - destruct r as [c|e].
    + unfold Register in HR. destruct (addressKeys ip). by rewrite Hd in HR.
    + pose proof (Register_err_same _ _ _ _ _ _ HR) as Hsame.
      split; [by eapply hub_ok_same|by rewrite (same_draining _ _ Hsame)].
  - unfold Unregister. destruct (clients h !! c) as [cl|] eqn:Hcl; [|done].
    rewrite bool_decide_false.
    + split; [by eapply hub_ok_same, Hok; apply Close_same|done].
    + intros Hin. specialize (Hnone (accountID cl)). apply elem_of_elements in Hin.
      rewrite Hnone in Hin. set_solver.
  - unfold DisconnectDevice. by rewrite Hnone.
  - unfold DisconnectAccountExceptDevice. by rewrite Hnone.
  - unfold DisconnectAccount. by rewrite Hnone.
  - split; [by eapply Drain_ok|done].
  - pose proof (foldl_same (publish_one payload) (concat (map (fun a => elements (socks h a)) accounts)) h
      (publish_one_same payload)) as Hsame.
    split; [by eapply hub_ok_same|]. unfold Publish. by rewrite (same_draining _ _ Hsame).
  - split; [|done]. eapply hub_ok_same, Hok. split; try done. intros c'; simpl.
    rewrite lookup_insert. case_decide; [subst|done]. by rewrite Hc.
  - split; [by eapply hub_ok_same, Hok; apply Close_same|done].
Qed.

Lemma hub_reachable_ok limit h : rtc hub_step (NewHubWithLimits limit) h -> exists R, hub_ok h R.
Proof.
  intros Hr. remember (NewHubWithLimits limit) as h0 eqn:E.
  assert (exists R, hub_ok h0 R) as Hok.
  { exists ∅. subst. apply empty_indexes_ok; try done. intros c [? Hc]. simpl in Hc. by rewrite lookup_empty in Hc. }
  clear E. induction Hr as [|h1 h2 h3 Hs _ IH]; [done|]. apply IH.
  destruct Hok as [R Hok]. by eapply hub_step_ok.
Qed.

(** C34: in every state the hub reaches, its four indexes agree on one set of
    registered sockets (the total, the per-address and per-/64 counters are
    exactly the numbers of registered sockets with that key, and no empty
    account entry is kept), and no connection cap is exceeded: in total, per
    account, per device, per address or per /64. *)
Theorem hub_indexes_consistent limit h :
  rtc hub_step (NewHubWithLimits limit) h ->
  exists R, consistent h R /\ within_caps h.
Proof. intros (R & Hc & Hw)%hub_reachable_ok. eauto. Qed.

(** [DisconnectDevice] removes exactly the account's sockets of that
    device from the indexes and closes them; every other registered socket
    stays registered. *)
Theorem DisconnectDevice_exact limit h a d :
  rtc hub_step (NewHubWithLimits limit) h ->
  exists R R', consistent h R /\ consistent (DisconnectDevice h a d) R' /\
  forall c,
    (c ∈ R' <-> c ∈ R /\ ~ (c ∈ socks h a /\ is_device h d c = true)) /\
    (c ∈ socks h a -> is_device h d c = true ->
     (closed <$> (DisconnectDevice h a d).(clients) !! c) = Some true).
Proof.
  intros (R & Hok)%hub_reachable_ok.
  destruct (disconnect_ok h R a (is_device h d) Hok) as [Hc' _].
  exists R. eexists. split; [apply Hok|]. split; [exact Hc'|]. intros c. split.
  - rewrite elem_of_difference, elem_of_list_to_set, list_elem_of_In, filter_In, <- list_elem_of_In,
      elem_of_elements. done.
  - intros Hin Hd. apply disconnect_where_closed; [|by apply elem_of_elements|done].
    unfold is_device in Hd. bool_to_prop. destruct (clients h !! c); [eauto|done].
Qed.

(** A drained hub has no registered socket and refuses every later
    registration. *)
Theorem Drain_final limit h h' :
  rtc hub_step (NewHubWithLimits limit) h -> rtc hub_step (Drain h) h' ->
  (forall a, socks h' a = ∅) /\ h'.(total) = 0 /\
  forall a d ip, (Register h' a d ip).1 = Err ErrHubDraining.
Proof.
  intros (R & Hok)%hub_reachable_ok Hr.
  assert (hub_ok h' ∅ /\ draining h' = true) as [Hok' Hd'].
  { assert (hub_ok (Drain h) ∅ /\ draining (Drain h) = true) as H0 by (split; [by eapply Drain_ok|done]).
    revert H0. induction Hr as [|h1 h2 h3 Hs _ IH]; [done|]. intros [H1 H2].
    apply IH. by apply drained_step with h1. }
  pose proof Hok' as [Hc _].
  split_and!.
  - intros a. apply set_eq. intros c. split; [|set_solver].
    intros Hin. apply (socks_registered h' ∅ a); [done|]. by apply elem_of_elements.
  - rewrite (con_total _ _ Hc), size_empty. done.
  - intros a d ip. unfold Register. destruct (addressKeys ip). by rewrite Hd'.
Qed.

End runs.

(** ** Delivery *)

(** What [Publish] does to one targeted socket. *)
Definition delivered (payload : string) (cl : Client) : Client :=
  if cl.(closed) then cl else
  if Z.of_nat (length cl.(send)) <? sendBuffer then
    mkClient cl.(accountID) cl.(deviceID) cl.(ipKey) cl.(prefixKey) (cl.(send) ++ [payload]) cl.(closed)
  else cl.

Lemma publish_one_clients payload h c c' :
  (publish_one payload h c).(clients) !! c' =
  if decide (c = c') then delivered payload <$> h.(clients) !! c' else h.(clients) !! c'.
Proof.
  unfold publish_one, TrySend, delivered. destruct (clients h !! c) as [cl|] eqn:Hc; simpl.
  - destruct (closed cl) eqn:Ecl; simpl.
    { case_decide; [subst|done]. by rewrite Hc; simpl; rewrite Ecl. }
    destruct (_ <? _) eqn:El; simpl.
    + rewrite lookup_insert. case_decide; [subst|done]. rewrite Hc; simpl. by rewrite Ecl, El.
    + case_decide; [subst|done]. rewrite Hc; simpl. by rewrite Ecl, El.
  - case_decide; [subst|done]. by rewrite Hc.
Qed.

Lemma foldl_publish payload l h c :
  NoDup l ->
  (foldl (publish_one payload) h l).(clients) !! c =
  if decide (c ∈ l) then delivered payload <$> h.(clients) !! c else h.(clients) !! c.
Proof.
  revert h. induction l as [|x l IH]; intros h Hnd; [destruct (decide (c ∈ [])) as [Hin|]; [by apply not_elem_of_nil in Hin|done]|]. simpl.
  apply NoDup_cons in Hnd as [Hx Hnd]. rewrite IH by done. rewrite publish_one_clients.
  destruct (decide (x = c)) as [->|Hne].
  - rewrite decide_False by done. by rewrite decide_True by set_solver.
  - destruct (decide (c ∈ l)); [by rewrite decide_True by set_solver|by rewrite decide_False by set_solver].
Qed.

Lemma elem_of_targets h accounts c :
  c ∈ concat (map (fun a => elements (socks h a)) accounts) <-> exists a, a ∈ accounts /\ c ∈ socks h a.
Proof.
  induction accounts as [|a accounts IH]; simpl.
  - split; [intros []%not_elem_of_nil|intros (a & []%not_elem_of_nil & _)].
  - rewrite elem_of_app, elem_of_elements, IH. setoid_rewrite elem_of_cons. naive_solver.
Qed.

Lemma targets_NoDup h R accounts :
  consistent h R -> NoDup accounts ->
  NoDup (concat (map (fun a => elements (socks h a)) accounts)).
Proof.
  intros Hc. induction 1 as [|a accounts Ha _ IH]; simpl; [constructor|].
  apply NoDup_app. split_and!; [apply NoDup_elements| |done].
  intros c Hin%elem_of_elements (b & Hb & Hin')%elem_of_targets.
  apply (con_account _ _ Hc) in Hin'. apply (con_account _ _ Hc) in Hin. congruence.
Qed.

(** Publishing to distinct accounts appends the payload once to every
    open socket of theirs that has room, and leaves every other socket (of
    other accounts, closed, or with a full buffer) as it was. *)
Theorem Publish_exact `{Netip} limit h accounts payload c cl :
  rtc hub_step (NewHubWithLimits limit) h -> NoDup accounts -> h.(clients) !! c = Some cl ->
  (Publish h accounts payload).(clients) !! c =
  Some (if bool_decide (Exists (fun a => c ∈ socks h a) accounts) && negb cl.(closed) &&
           (Z.of_nat (length cl.(send)) <? sendBuffer)
        then mkClient cl.(accountID) cl.(deviceID) cl.(ipKey) cl.(prefixKey)
               (cl.(send) ++ [payload]) cl.(closed)
        else cl).
Proof.
  intros (R & Hok)%hub_reachable_ok Hnd Hcl. unfold Publish.
  rewrite foldl_publish by (eapply targets_NoDup; [apply Hok|done]). rewrite Hcl.
  destruct (decide (c ∈ _)) as [Hin|Hout].
  - rewrite bool_decide_true by (by apply Exists_exists, elem_of_targets). simpl. f_equal.
    unfold delivered. destruct (closed cl), (_ <? _); done.
  - rewrite bool_decide_false; [done|]. intros ?%Exists_exists. by apply Hout, elem_of_targets.
Qed.

(** ** Examples: every address is its own IPv4 bucket *)

#[export] Instance Netip_text : Netip :=
  {| Addr := string; ParseAddr := Some; UnmapNoZone a := a; Is4 _ := true; AddrString a := a;
     Prefix64String a := a |}.

Definition ex_hub1 : Hub := (Register NewHub "alice" "phone" "10.0.0.1").2.
Definition ex_hub2 : Hub := (Register ex_hub1 "alice" "laptop" "10.0.0.1").2.

Lemma ex_hub2_reachable : rtc hub_step NewHub ex_hub2.
Proof.
  apply rtc_l with ex_hub1; [|apply rtc_once].
  - eapply hs_register. unfold ex_hub1. by rewrite <- surjective_pairing.
  - eapply hs_register. unfold ex_hub2. by rewrite <- surjective_pairing.
Defined.

Lemma hub_indexes_consistent_witness :
  (exists R, consistent ex_hub2 R /\ within_caps ex_hub2) /\ count ex_hub2.(perIP) "10.0.0.1" = 2.
Proof.
  split; [|vm_compute; reflexivity].
  apply (hub_indexes_consistent 0 ex_hub2). exact ex_hub2_reachable.
Defined.

Lemma DisconnectDevice_exact_witness :
  socks (DisconnectDevice ex_hub2 "alice" "phone") "alice" = {[1%nat]} /\
  (closed <$> (DisconnectDevice ex_hub2 "alice" "phone").(clients) !! 0%nat) = Some true.
Proof.
  destruct (DisconnectDevice_exact 0 ex_hub2 "alice" "phone" ex_hub2_reachable) as (R & R' & _ & _ & Hc).
  split; [vm_compute; reflexivity|].
  apply (Hc 0%nat); [|vm_compute; reflexivity].
  apply (bool_decide_unpack _). vm_compute. exact I.
Defined.

Lemma Drain_final_witness :
  (Register (Drain ex_hub2) "bob" "phone" "10.0.0.2").1 = Err ErrHubDraining.
Proof.
  destruct (Drain_final 0 ex_hub2 (Drain ex_hub2) ex_hub2_reachable (rtc_refl _ _)) as (_ & _ & Hr).
  apply Hr.
Defined.

Lemma Publish_exact_witness :
  (send <$> (Publish ex_hub2 ["bob"; "alice"] "event").(clients) !! 1%nat) = Some ["event"].
Proof.
  rewrite (Publish_exact 0 ex_hub2 ["bob"; "alice"] "event" 1%nat
    (mkClient "alice" "laptop" "10.0.0.1" "" [] false) ex_hub2_reachable).
  - vm_compute. reflexivity.
  - apply (bool_decide_unpack _). vm_compute. exact I.
  - vm_compute. reflexivity.
Defined.
