(* ===== verification/Domain.v ===== *)
(** * Domain: roles, identifiers and the moderation rules

    [internal/domain]: the role order and the permissions derived from it,
    identifier syntax, moderation predicates, and the row types the storage
    layer returns.  Times are nanoseconds ([Prelude]); a Go pointer field is
    an [option]. *)

From S2P Require Import Prelude GoStrings.
From stdpp Require Import base numbers list strings.
From Stdlib Require Import Ascii ZArith ZifyBool Lia.
Open Scope Z_scope.

(** ** Roles *)

Definition RoleOwner : string := "owner".
Definition RoleAdmin : string := "admin".
Definition RoleModerator : string := "moderator".
Definition RoleMember : string := "member".

Definition str_eqb (a b : string) : bool := bool_decide (a = b).
Infix "=s?" := str_eqb (at level 70) : go_scope.

Definition CanManageInvites (role : string) : bool := (role =s? RoleOwner) || (role =s? RoleAdmin).
Definition CanPostRestricted (role : string) : bool := (role =s? RoleOwner) || (role =s? RoleAdmin).
Definition CanManageMembers (role : string) : bool :=
  (role =s? RoleOwner) || (role =s? RoleAdmin) || (role =s? RoleModerator).

Definition RoleRank (role : string) : Z :=
  if role =s? RoleOwner then 4
  else if role =s? RoleAdmin then 3
  else if role =s? RoleModerator then 2
  else if role =s? RoleMember then 1
  else 0.

Definition ValidRole (role : string) : bool := 0 <? RoleRank role.

(** ** Identifiers *)

Definition is_hex (c : ascii) : bool :=
  let n := nat_of_ascii c in
  ((48 <=? n) && (n <=? 57) || (65 <=? n) && (n <=? 70) || (97 <=? n) && (n <=? 102))%nat.

(** [hex.DecodeString] succeeds on an even number of hexadecimal digits. *)
Definition hex_decodable (s : list ascii) : bool := Nat.even (length s) && forallb is_hex s.

(** [NewID]: the 16 random bytes are an argument. *)
Definition hex_digit (n : nat) : ascii := ascii_of_nat (if (n <? 10)%nat then 48 + n else 87 + n)%nat.
Definition EncodeToString (b : list ascii) : list ascii :=
  flat_map (fun c => let n := nat_of_ascii c in [hex_digit (n / 16); hex_digit (n mod 16)]%nat) b.
Definition NewID (prefix : string) (b : list ascii) : string :=
  prefix +:+ "_" +:+ of_chars (EncodeToString b).

Definition ValidID (prefix value : string) : bool :=
  let wantPrefix := prefix +:+ "_" in
  if negb (HasPrefix value wantPrefix)
     || negb (length (chars value) =? length (chars wantPrefix) + 32)%nat
  then false
  else hex_decodable (drop (length (chars wantPrefix)) (chars value)) && (value =s? ToLower value).

Definition NormalizeUsername (username : string) : string := ToLower (TrimSpace username).

(** ** Moderation *)

Definition MaxTimeout : Z := 28 * 24 * hour.
Definition MaxSlowMode : Z := 6 * hour.

Definition CanModerate (actorRole targetRole : string) (sameAccount : bool) : bool :=
  if sameAccount || negb (CanManageMembers actorRole) then false
  else (0 <? RoleRank targetRole) && (RoleRank targetRole <? RoleRank actorRole).

Definition CanDeleteOthersMessage (actorRole senderRole : string) : bool :=
  CanModerate actorRole senderRole false.

Definition ValidTimeout (d : Z) : bool := (0 <? d) && (d <=? MaxTimeout).
Definition ValidSlowMode (d : Z) : bool := (0 <=? d) && (d <=? MaxSlowMode).

Definition TimedOut (until : option Z) (now : Z) : bool :=
  match until with
  | None => false
  | Some u => time_before now u
  end.

Definition SlowModeWait (role : string) (gap : Z) (lastPost : option Z) (now : Z) : Z :=
  match lastPost with
  | None => 0
  | Some last =>
      if (gap <=? 0) || CanManageMembers role then 0
      else let wait := time_sub (time_add last gap) now in
           if 0 <? wait then wait else 0
  end.

(** ** Push modes *)

Definition PushNotificationLegacy : string := "legacy_generic".
Definition PushNotificationLocalDecrypt : string := "local_decrypt_v1".
Definition ValidPushNotificationMode (mode : string) : bool :=
  (mode =s? PushNotificationLegacy) || (mode =s? PushNotificationLocalDecrypt).

(** ** Records *)

Record Community := mkCommunity {
  comm_ID : string; comm_Name : string; comm_CreatedBy : string; comm_CreatedAt : Z }.

Record Channel := mkChannel {
  chan_ID : string; chan_CommunityID : string; chan_Name : string; chan_Kind : string;
  chan_CreatedAt : Z }.

Record Conversation := mkConversation {
  conv_ID : string; conv_Kind : string; conv_Title : option string;
  conv_CommunityID : option string; conv_ChannelID : option string;
  conv_CreatedBy : string; conv_RetentionSeconds : option Z; conv_CreatedAt : Z;
  conv_PostingRestricted : bool }.

Record Membership := mkMembership {
  mem_AccountID : string; mem_Role : string; mem_CreatedAt : Z; mem_Username : string }.

Record AccountBlock := mkAccountBlock {
  blk_AccountID : string; blk_Username : string; blk_CreatedAt : Z }.

Record NotificationMute := mkNotificationMute { mute_Muted : bool; mute_Until : option Z }.

Record MessageEnvelope := mkMessageEnvelope {
  m_ID : string; m_ConversationID : string; m_SenderAccountID : string;
  m_SenderDeviceID : string; m_IdempotencyKey : string; m_Ciphertext : string;
  m_CryptoProtocol : string; m_CryptoMetadata : string; m_AttachmentRefs : string;
  m_ReplyToID : option string; m_ThreadRootID : option string; m_CreatedAt : Z;
  m_EditedAt : option Z; m_DeletedAt : option Z; m_ExpiresAt : option Z }.

Record CallSession := mkCallSession {
  call_ID : string; call_ConversationID : string; call_CreatedBy : string; call_InvitedAccountID : string;
  call_State : string; call_Version : Z; call_Metadata : string; call_CreatedAt : Z; call_EndedAt : option Z;
  call_ExpiresAt : option Z; call_CreateActionID : string; call_CreateActionHash : string;
  call_LastActionID : string; call_LastActionHash : string }.

Record Principal := mkPrincipal {
  pr_AccountID : string; pr_DeviceID : string; pr_Username : string; pr_Role : string; pr_ExpiresAt : Z;
  pr_RecentAuthAt : option Z }.

Record Account := mkAccount {
  acct_ID : string; acct_Username : string; acct_Email : option string; acct_Role : string; acct_Status : string;
  acct_CreatedAt : Z; acct_DeletedAt : option Z }.

(** An absent signing key is the empty one. *)
Record Device := mkDevice {
  device_ID : string; device_AccountID : string; device_Name : string; device_KeyPackage : string; device_SigningKey : string;
  device_CreatedAt : Z; device_LastSeenAt : option Z; device_RevokedAt : option Z }.

Record Invite := mkInvite {
  inv_ID : string; inv_Code : string; inv_CreatedBy : string; inv_MaxUses : Z; inv_Uses : Z; inv_ExpiresAt : option Z;
  inv_CreatedAt : Z; inv_RevokedAt : option Z }.

Definition DeviceLinkPending : string := "pending".
Definition DeviceLinkClaimed : string := "claimed".
Definition DeviceLinkApproved : string := "approved".
Definition DeviceLinkConsumed : string := "consumed".
Definition DeviceLinkRevoked : string := "revoked".

(** ** Lemmas *)

Lemma str_eqb_true a b : (a =s? b) = true <-> a = b.
Proof. apply bool_decide_eq_true. Qed.

Lemma str_eqb_false a b : (a =s? b) = false <-> a <> b.
Proof. apply bool_decide_eq_false. Qed.

Lemma str_eqb_refl a : (a =s? a) = true.
Proof. by apply str_eqb_true. Qed.

Ltac role_cases :=
  unfold CanManageMembers, CanPostRestricted, RoleRank, str_eqb in *;
  repeat match goal with
  | |- context [bool_decide (?r = ?x)] => destruct (bool_decide_reflect (r = x)); subst; simpl in *
  | H : context [bool_decide (?r = ?x)] |- _ => destruct (bool_decide_reflect (r = x)); subst; simpl in *
  end.

Lemma RoleRank_range r : 0 <= RoleRank r <= 4.
Proof. role_cases; lia. Qed.

Lemma CanManageMembers_rank r : CanManageMembers r = (2 <=? RoleRank r).
Proof. role_cases; done. Qed.

Lemma CanPostRestricted_rank r : CanPostRestricted r = (3 <=? RoleRank r).
Proof. role_cases; done. Qed.

(** The rank is injective on valid roles: the four roles are a chain. *)
Lemma RoleRank_inj a b : ValidRole a = true -> RoleRank a = RoleRank b -> a = b.
Proof. unfold ValidRole. role_cases; try done; lia. Qed.

Lemma CanModerate_spec a t same :
  CanModerate a t same = true <->
  same = false /\ 2 <= RoleRank a /\ 1 <= RoleRank t < RoleRank a.
Proof.
  unfold CanModerate. rewrite CanManageMembers_rank.
  destruct same; simpl; [split; [done|by intros [? _]]|].
  destruct (2 <=? RoleRank a) eqn:E; simpl; lia.
Qed.

(** Moderation follows a strict order: nobody moderates an equal or a
    superior, moderation rights compose, and exactly the actors of rank two or
    more that outrank a valid role may act on it. *)
Theorem CanModerate_strict_order a b c :
  (CanModerate a b false = true <-> 2 <= RoleRank a /\ 1 <= RoleRank b < RoleRank a) /\
  CanModerate a a false = false /\
  (CanModerate a b false = true -> CanModerate b a false = false) /\
  (CanModerate a b false = true -> CanModerate b c false = true -> CanModerate a c false = true) /\
  CanModerate a b true = false.
Proof.
  split_and!.
  - rewrite CanModerate_spec. naive_solver.
  - apply not_true_is_false. rewrite CanModerate_spec. lia.
  - rewrite CanModerate_spec. intros H. apply not_true_is_false. rewrite CanModerate_spec. lia.
  - rewrite !CanModerate_spec. lia.
  - done.
Qed.

Lemma lower_hex_digit n : (n < 16)%nat -> lower (hex_digit n) = hex_digit n /\ is_hex (hex_digit n) = true.
Proof. intros Hn. do 16 (destruct n as [|n]; [by split|]). lia. Qed.

Lemma encode_props b :
  forallb is_hex (EncodeToString b) = true /\ map lower (EncodeToString b) = EncodeToString b /\
  length (EncodeToString b) = (2 * length b)%nat.
Proof.
  unfold EncodeToString. induction b as [|c b (IH1 & IH2 & IH3)]; [done|].
  pose proof (Ascii.nat_ascii_bounded c) as Hb.
  assert (nat_of_ascii c / 16 < 16)%nat as H1 by (apply Nat.Div0.div_lt_upper_bound; lia).
  assert (nat_of_ascii c mod 16 < 16)%nat as H2 by (apply Nat.mod_upper_bound; lia).
  destruct (lower_hex_digit _ H1) as [L1 X1], (lower_hex_digit _ H2) as [L2 X2].
  cbn [flat_map app]. cbn [forallb map length]. rewrite L1, L2, X1, X2, IH1, IH2, IH3. split_and!; [done..|lia].
Qed.

Lemma chars_lower_id s : map lower (chars s) = chars s -> s = ToLower s.
Proof. intros H. unfold ToLower. by rewrite H, of_chars_chars. Qed.

(** An identifier minted from sixteen random bytes under a lower-case
    prefix is accepted by the validity check for that prefix. *)
Theorem NewID_valid prefix b :
  length b = 16%nat -> map lower (chars prefix) = chars prefix ->
  ValidID prefix (NewID prefix b) = true.
Proof.
  intros Hb Hp. destruct (encode_props b) as (Hhex & Hlow & Hlen).
  unfold ValidID, NewID.
  assert (chars (prefix +:+ "_" +:+ of_chars (EncodeToString b))
          = chars (prefix +:+ "_") ++ EncodeToString b) as Hc.
  { rewrite !chars_app, chars_of_chars. by rewrite <- app_assoc. }
  rewrite (proj2 (HasPrefix_spec _ _)); cycle 1.
  { exists (of_chars (EncodeToString b)). rewrite <- (of_chars_chars (prefix +:+ _)), Hc.
    rewrite <- (of_chars_chars ((prefix +:+ "_") +:+ _)), (chars_app (prefix +:+ "_")), chars_of_chars. done. }
  rewrite Hc, length_app, Hlen, Hb, Nat.eqb_refl. simpl negb. simpl orb. cbv iota.
  rewrite drop_app_length. unfold hex_decodable. rewrite Hlen, Hb, Hhex.
  apply str_eqb_true, chars_lower_id. rewrite Hc, map_app, Hlow. f_equal.
  rewrite chars_app, map_app, Hp. done.
Qed.

Lemma NewID_valid_witness :
  ValidID "acct" (NewID "acct" (replicate 16 (ascii_of_nat 171))) = true /\
  ValidID "acct" "acct_ABABABABABABABABABABABABABABABAB" = false.
Proof.
  split; [|vm_compute; reflexivity].
  apply (NewID_valid "acct" (replicate 16 (ascii_of_nat 171))); vm_compute; reflexivity.
Defined.

Lemma positive_part z :
  (if 0 <? saturate64 z then saturate64 z else 0) = Z.max 0 (Z.min max_int64 z).
Proof. unfold saturate64, min_int64, max_int64. destruct (0 <? _) eqn:E; lia. Qed.

(** A member who waits exactly [SlowModeWait] may post: waiting less is
    refused, waiting it out is not, and moderators never wait. *)
Theorem SlowModeWait_exact role gap last now :
  0 < gap -> min_int64 <= last + gap - now <= max_int64 ->
  let w := SlowModeWait role gap (Some last) now in
  (CanManageMembers role = true -> w = 0) /\
  (CanManageMembers role = false ->
    0 <= w /\ SlowModeWait role gap (Some last) (now + w) = 0 /\
    forall d, 0 <= d < w -> 0 < SlowModeWait role gap (Some last) (now + d)).
Proof.
  intros Hg Hr. unfold SlowModeWait, time_add, time_sub.
  destruct (CanManageMembers role); simpl; (split; [|]); try done; rewrite ?orb_true_r; try done.
  intros _. rewrite (proj2 (Z.leb_gt _ _)) by lia. simpl.
  rewrite !positive_part. unfold min_int64, max_int64 in *.
  split_and!; [lia..|]. intros d Hd. rewrite positive_part. unfold max_int64. lia.
Qed.

Lemma SlowModeWait_exact_witness :
  SlowModeWait RoleMember (10 * second) (Some (100 * second)) (103 * second) = 7 * second /\
  SlowModeWait RoleMember (10 * second) (Some (100 * second)) (110 * second) = 0.
Proof.
  split; [vm_compute; reflexivity|].
  destruct (SlowModeWait_exact RoleMember (10 * second) (100 * second) (103 * second)) as [_ H].
  - vm_compute. reflexivity.
  - vm_compute. split; discriminate.
  - destruct (H ltac:(vm_compute; reflexivity)) as (_ & H0 & _). exact H0.
Defined.

Lemma hex_digit_no_space n : (n < 16)%nat -> is_space (hex_digit n) = false.
Proof. intros Hn. do 16 (destruct n as [|n]; [done|]). lia. Qed.

Lemma encode_no_space b : forallb (fun c => negb (is_space c)) (EncodeToString b) = true.
Proof.
  unfold EncodeToString. induction b as [|c b IH]; [done|].
  pose proof (Ascii.nat_ascii_bounded c) as Hb.
  assert (nat_of_ascii c / 16 < 16)%nat as H1 by (apply Nat.Div0.div_lt_upper_bound; lia).
  assert (nat_of_ascii c mod 16 < 16)%nat as H2 by (apply Nat.mod_upper_bound; lia).
  cbn [flat_map app]. cbn [forallb]. by rewrite (hex_digit_no_space _ H1), (hex_digit_no_space _ H2), IH.
Qed.

(** A minted channel identifier has no white space to trim. *)
Lemma NewID_chan_trim b : TrimSpace (NewID "chan" b) = NewID "chan" b.
Proof.
  apply TrimSpace_id. unfold NewID. rewrite !chars_app, chars_of_chars, !forallb_app, encode_no_space. done.
Qed.
