(* ===== verification/GoJson.v ===== *)
(** * The JSON the storage layer reads

    [encoding/json]'s [Unmarshal] into [interface{}] values, executable, and
    the two accessors of SQLite the queries use ([json_extract],
    [json_type]).  Objects keep their members in source order; Go keeps the
    last member of a name ([go_member]) and SQLite the first
    ([sql_member]).  Byte sequences that are not UTF-8 are passed through
    (Go replaces them by U+FFFD) and the nesting limit of 10,000 is not
    modelled. *)

From S2P Require Import Prelude GoStrings.
From stdpp Require Import base numbers list strings.
From Stdlib Require Import Ascii ZArith ZifyBool Lia.
Open Scope Z_scope.

Module Json.

Inductive json :=
| JNull
| JBool (b : bool)
| JNum (lit : string)
| JStr (s : string)
| JArr (l : list json)
| JObj (l : list (string * json)).

Definition code (c : ascii) : Z := Z.of_nat (nat_of_ascii c).
Definition byte_of (z : Z) : ascii := ascii_of_nat (Z.to_nat z).
Definition is_char (z : Z) (c : ascii) : bool := code c =? z.
Definition is_digit (c : ascii) : bool := (48 <=? code c) && (code c <=? 57).
Definition is_json_space (c : ascii) : bool :=
  is_char 32 c || is_char 9 c || is_char 10 c || is_char 13 c.

Fixpoint skip_ws (l : list ascii) : list ascii :=
  match l with
  | c :: l' => if is_json_space c then skip_ws l' else l
  | [] => []
  end.

Definition hex_value (c : ascii) : option Z :=
  let n := code c in
  if is_digit c then Some (n - 48)
  else if (97 <=? n) && (n <=? 102) then Some (n - 87)
  else if (65 <=? n) && (n <=? 70) then Some (n - 55)
  else None.

Definition hex4 (l : list ascii) : option (Z * list ascii) :=
  match l with
  | a :: b :: c :: d :: l =>
      match hex_value a, hex_value b, hex_value c, hex_value d with
      | Some a, Some b, Some c, Some d => Some (((a * 16 + b) * 16 + c) * 16 + d, l)
      | _, _, _, _ => None
      end
  | _ => None
  end.

Definition utf8 (r : Z) : list ascii :=
  if r <? 128 then [byte_of r]
  else if r <? 2048 then [byte_of (192 + r / 64); byte_of (128 + r mod 64)]
  else if r <? 65536 then [byte_of (224 + r / 4096); byte_of (128 + r / 64 mod 64); byte_of (128 + r mod 64)]
  else [byte_of (240 + r / 262144); byte_of (128 + r / 4096 mod 64);
        byte_of (128 + r / 64 mod 64); byte_of (128 + r mod 64)].

Definition replacement : Z := 65533.

(** A [\u] escape: a surrogate pair is one character, a lone surrogate is
    U+FFFD. *)
Definition unicode_escape (l : list ascii) : option (list ascii * list ascii) :=
  match hex4 l with
  | None => None
  | Some (r, l) =>
      if (55296 <=? r) && (r <? 56320) then
        match l with
        | b :: u :: l' =>
            if is_char 92 b && is_char 117 u then
              match hex4 l' with
              | Some (r2, l'') =>
                  if (56320 <=? r2) && (r2 <? 57344)
                  then Some (utf8 (65536 + (r - 55296) * 1024 + (r2 - 56320)), l'')
                  else Some (utf8 replacement, l)
              | None => None
              end
            else Some (utf8 replacement, l)
        | _ => Some (utf8 replacement, l)
        end
      else if (56320 <=? r) && (r <? 57344) then Some (utf8 replacement, l)
      else Some (utf8 r, l)
  end.

Definition simple_escape (c : ascii) : option ascii :=
  let n := code c in
  if (n =? 34) || (n =? 92) || (n =? 47) then Some c
  else if n =? 98 then Some (byte_of 8)
  else if n =? 102 then Some (byte_of 12)
  else if n =? 110 then Some (byte_of 10)
  else if n =? 114 then Some (byte_of 13)
  else if n =? 116 then Some (byte_of 9)
  else None.

(** The body of a string literal, after its opening quote. *)
Fixpoint string_body (fuel : nat) (l acc : list ascii) : option (string * list ascii) :=
  match fuel, l with
  | S fuel, c :: l =>
      if is_char 34 c then Some (of_chars acc, l)
      else if is_char 92 c then
        match l with
        | e :: l' =>
            if is_char 117 e then
              match unicode_escape l' with
              | Some (bs, l'') => string_body fuel l'' (acc ++ bs)
              | None => None
              end
            else match simple_escape e with
                 | Some b => string_body fuel l' (acc ++ [b])
                 | None => None
                 end
        | [] => None
        end
      else if code c <? 32 then None
      else string_body fuel l (acc ++ [c])
  | _, _ => None
  end.

Fixpoint digits (l : list ascii) : list ascii * list ascii :=
  match l with
  | c :: l' => if is_digit c then let '(d, r) := digits l' in (c :: d, r) else ([], l)
  | [] => ([], [])
  end.

(** One number token: sign, integer part without a leading zero, fraction,
    exponent. *)
Definition number (l : list ascii) : option (string * list ascii) :=
  let '(sign, l) := match l with c :: l' => if is_char 45 c then ([c], l') else ([], l) | [] => ([], []) end in
  let '(ip, l) := digits l in
  match ip with
  | [] => None
  | d :: rest =>
      if is_char 48 d && negb (bool_decide (rest = [])) then None else
      let frac := match l with
                  | c :: l' => if is_char 46 c then
                                 let '(f, r) := digits l' in
                                 if bool_decide (f = []) then None else Some (c :: f, r)
                               else Some ([], l)
                  | [] => Some ([], [])
                  end in
      match frac with
      | None => None
      | Some (fp, l) =>
          let expo := match l with
                      | c :: l' =>
                          if is_char 101 c || is_char 69 c then
                            let '(sg, l'') := match l' with
                                              | s :: l2 => if is_char 43 s || is_char 45 s then ([s], l2) else ([], l')
                                              | [] => ([], [])
                                              end in
                            let '(e, r) := digits l'' in
                            if bool_decide (e = []) then None else Some (c :: sg ++ e, r)
                          else Some ([], l)
                      | [] => Some ([], [])
                      end in
          match expo with
          | None => None
          | Some (ep, l) => Some (of_chars (sign ++ ip ++ fp ++ ep), l)
          end
      end
  end.

Definition keyword (k : string) (l : list ascii) : option (list ascii) :=
  if bool_decide (take (length (chars k)) l = chars k) then Some (drop (length (chars k)) l) else None.

Fixpoint value (fuel : nat) (l : list ascii) : option (json * list ascii) :=
  match fuel with
  | O => None
  | S fuel =>
      match skip_ws l with
      | [] => None
      | c :: l' =>
          if is_char 34 c then
            match string_body (S (length l')) l' [] with
            | Some (s, r) => Some (JStr s, r)
            | None => None
            end
          else if is_char 91 c then
            match skip_ws l' with
            | c' :: r => if is_char 93 c' then Some (JArr [], r) else json_elements fuel l' []
            | [] => None
            end
          else if is_char 123 c then
            match skip_ws l' with
            | c' :: r => if is_char 125 c' then Some (JObj [], r) else json_members fuel l' []
            | [] => None
            end
          else match keyword "null" (c :: l'), keyword "true" (c :: l'), keyword "false" (c :: l') with
               | Some r, _, _ => Some (JNull, r)
               | _, Some r, _ => Some (JBool true, r)
               | _, _, Some r => Some (JBool false, r)
               | _, _, _ => match number (c :: l') with
                            | Some (n, r) => Some (JNum n, r)
                            | None => None
                            end
               end
      end
  end
with json_elements (fuel : nat) (l : list ascii) (acc : list json) : option (json * list ascii) :=
  match fuel with
  | O => None
  | S fuel =>
      match value fuel l with
      | None => None
      | Some (v, r) =>
          match skip_ws r with
          | c :: r' => if is_char 44 c then json_elements fuel r' (acc ++ [v])
                       else if is_char 93 c then Some (JArr (acc ++ [v]), r') else None
          | [] => None
          end
      end
  end
with json_members (fuel : nat) (l : list ascii) (acc : list (string * json)) : option (json * list ascii) :=
  match fuel with
  | O => None
  | S fuel =>
      match skip_ws l with
      | q :: l' =>
          if is_char 34 q then
            match string_body (S (length l')) l' [] with
            | Some (k, r) =>
                match skip_ws r with
                | c :: r' =>
                    if is_char 58 c then
                      match value fuel r' with
                      | Some (v, r'') =>
                          match skip_ws r'' with
                          | c' :: r3 => if is_char 44 c' then json_members fuel r3 (acc ++ [(k, v)])
                                        else if is_char 125 c' then Some (JObj (acc ++ [(k, v)]), r3) else None
                          | [] => None
                          end
                      | None => None
                      end
                    else None
                | [] => None
                end
            | None => None
            end
          else None
      | [] => None
      end
  end.

(** [json.Unmarshal] into an [interface{}]: the whole input is one value.
    Every step consumes input, so twice its length is enough fuel. *)
Definition Unmarshal (raw : string) : option json :=
  match value (S (2 * length (chars raw))) (chars raw) with
  | Some (v, r) => if bool_decide (skip_ws r = []) then Some v else None
  | None => None
  end.

Definition Valid (raw : string) : bool := bool_decide (is_Some (Unmarshal raw)).

Fixpoint sql_member (l : list (string * json)) (k : string) : option json :=
  match l with
  | [] => None
  | (k', v) :: l => if bool_decide (k' = k) then Some v else sql_member l k
  end.

Definition go_member (l : list (string * json)) (k : string) : option json := sql_member (rev l) k.

Fixpoint nat_digits (l : list ascii) (acc : Z) : option Z :=
  match l with
  | [] => Some acc
  | c :: l => if is_digit c then nat_digits l (acc * 10 + (code c - 48)) else None
  end.

(** A number literal that SQLite types as an integer: no fraction or
    exponent. *)
Definition int_literal (lit : string) : option Z :=
  match chars lit with
  | c :: l => if is_char 45 c then option_map Z.opp (nat_digits l 0) else nat_digits (c :: l) 0
  | [] => None
  end.

(** ** Examples *)

Definition quote : string := of_chars [ascii_of_nat 34].

Example unmarshal_object :
  Unmarshal ("{ " +:+ quote +:+ "id" +:+ quote +:+ " : [1, -2.5e3, true, null] , " +:+
             quote +:+ "k" +:+ quote +:+ ":{}}") =
  Some (JObj [("id"%string, JArr [JNum "1"; JNum "-2.5e3"; JBool true; JNull]); ("k"%string, JObj [])]).
Proof. vm_compute. reflexivity. Qed.

Example unmarshal_rejects : (Unmarshal "01", Unmarshal "[1,]", Unmarshal "nul", Unmarshal "1 2") = (None, None, None, None).
Proof. vm_compute. reflexivity. Qed.

End Json.
