(* ===== verification/Database.v ===== *)
(** * The database and the transaction monad

    The SQLite schema ([server/migrations]) as a record of tables and the
    store's transactions ([internal/storage/sqlite.go]) as a state and error
    monad.

    A table is a finite map keyed by its primary key or by the columns of the
    UNIQUE constraint the queries use: [memberships] is split into its
    conversation rows and its community rows (every INSERT fills exactly one
    of the two columns), keyed by (scope, account).  Random row ids that
    nothing reads ([memberships.id]) and columns no modelled operation reads
    are left out.  Stored time stamps are fixed-width UTC text
    ([formatTime]), whose text order is the order of the times, and are kept
    as nanoseconds.  [payload_json] is kept as the Go value passed to
    [json.Marshal], so [json_extract] is a member lookup.

    A transaction runs on the one writer connection, so transactions are
    sequential; it returns a result and either the new database or, on an
    error, the old one (every error path returns through the deferred
    [Rollback]).  The admission counters live in memory and survive a
    rollback.  Errors of the driver itself (I/O, a cancelled context) take
    the same rollback path and are not modelled; a violated constraint is
    [ErrConstraint]. *)

From S2P Require Import Prelude GoStrings Domain Admission.
From stdpp Require Import base numbers list strings gmap fin_maps sorting.
From Stdlib Require Import ZArith ZifyBool Lia.
Open Scope Z_scope.

(** ** Rows *)

Record AccountRow := mkAccountRow {
  acc_username : string; acc_role : string; acc_status : string; acc_deleted_at : option Z;
  acc_send_read_receipts : bool; acc_password_hash : string; acc_email : option string; acc_created_at : Z }.

Record DeviceRow := mkDeviceRow {
  dev_account_id : string; dev_revoked_at : option Z; dev_created_at : Z; dev_last_seen_at : option Z;
  dev_auth_secret_hash : option string; dev_name : string; dev_key_package : string; dev_signing_key : option string }.

Record SessionRow := mkSessionRow {
  ss_account_id : string; ss_device_id : option string; ss_expires_at : Z; ss_created_at : Z;
  ss_recent_auth_at : option Z; ss_last_used_at : Z; ss_absolute_expires_at : Z;
  ss_previous_token_hash : option string; ss_previous_expires_at : option Z }.

Record ConversationRow := mkConversationRow {
  cv_kind : string; cv_title : option string; cv_community_id : option string;
  cv_channel_id : option string; cv_created_by : string; cv_retention_seconds : option Z;
  cv_created_at : Z; cv_posting_policy : string }.

Record MemberRow := mkMemberRow { mb_role : string; mb_created_at : Z }.
Record MuteRow := mkMuteRow { mu_muted : bool; mu_until : option Z }.
Record PolicyRow := mkPolicyRow { po_retention : Z; po_updated_by : string; po_updated_at : Z }.

Record AttachmentRow := mkAttachmentRow {
  at_owner : string; at_conversation_id : option string; at_storage_key : string;
  at_size : Z; at_created_at : Z; at_sha256 : string; at_metadata : string; at_chunk_digests : option string }.

Record ReactionRow := mkReactionRow { re_id : string; re_ciphertext : string; re_created_at : Z }.
Record ReadReceiptRow := mkReadReceiptRow {
  rr_message_id : option string; rr_shared_message_id : option string; rr_read_at : Z }.
Record BlobDeletionRow := mkBlobDeletionRow {
  bd_attempts : Z; bd_created_at : Z; bd_last_attempt_at : option Z }.

(** The values an event payload holds. *)
Inductive Value :=
| VNull
| VStr (s : string)
| VInt (z : Z)
| VBool (b : bool)
| VTime (t : Z)
| VEnvelope (e : MessageEnvelope)
| VDevice (d : Device)
| VBytes (b : string)
| VStrs (l : list string)
| VRaw (json : string).

Definition Payload := list (string * Value).

Record SyncEventRow := mkSyncEventRow {
  se_type : string; se_account_id : option string; se_conversation_id : option string;
  se_device_id : option string; se_payload : Payload; se_created_at : Z }.

Record PruneState := mkPruneState { legacy_through : Z; pruned_through : Z }.

Record PushSubscriptionRow := mkPushSubscriptionRow {
  ps_account_id : string; ps_device_id : option string; ps_provider : string;
  ps_disabled_at : option Z; ps_notification_mode : string; ps_endpoint : string;
  ps_public_key : string; ps_auth_secret : string; ps_created_at : Z }.

Record PushWakeRow := mkPushWakeRow {
  pw_conversation_id : string; pw_sender_account_id : string; pw_created_at : Z;
  pw_next_attempt_at : Z; pw_attempts : Z; pw_lease_token : option string;
  pw_lease_expires_at : option Z; pw_expires_at : Z }.

Record MlsDeviceRow := mkMlsDeviceRow {
  md_account_id : string; md_joined_after_event_id : Z; md_joined_epoch : Z;
  md_removed_after_event_id : option Z; md_last_self_update_at : option Z }.

Record MlsMessageRow := mkMlsMessageRow {
  mm_conversation_id : string; mm_sender_account_id : string; mm_sender_device_id : string;
  mm_recipient_device_id : option string; mm_revocation_device_id : option string; mm_kind : string;
  mm_payload : string; mm_idempotency_key : string; mm_sync_event_id : option Z; mm_created_at : Z }.

Record RevocationRow := mkRevocationRow {
  rv_account_id : string; rv_coordinator_device_id : string; rv_state : string;
  rv_commit_message_id : option string; rv_requested_at : Z; rv_completed_at : option Z }.

Record KeyPackageRow := mkKeyPackageRow {
  kp_device_id : string; kp_key_package : string; kp_ciphersuite : string; kp_created_at : Z;
  kp_expires_at : Z; kp_claimed_at : option Z; kp_claimed_by_device_id : option string }.

Record BackupRow := mkBackupRow {
  bk_account_id : string; bk_device_id : option string; bk_storage_key : string; bk_sha256 : string;
  bk_size_bytes : Z; bk_metadata : string; bk_created_at : Z; bk_recovery_token_hash : option string;
  bk_recovery_expires_at : option Z; bk_recovery_next_offset : Z; bk_lease_id : option string;
  bk_lease_expires_at : option Z; bk_chunk_digests : option string }.

Record HistoryTransferRow := mkHistoryTransferRow {
  ht_transfer_id : string; ht_account_id : string; ht_source_device_id : string; ht_recipient_device_id : string;
  ht_claim_request_hash : string; ht_transcript_hash : string; ht_sha256 : string; ht_size_bytes : Z;
  ht_handoff : option string; ht_handoff_sha256 : string; ht_storage_key : option string; ht_chunk_digests : option string;
  ht_state : string; ht_created_at : Z; ht_expires_at : Z; ht_terminal_at : option Z }.

Record UploadIntentRow := mkUploadIntentRow {
  ui_link_id : string; ui_account_id : string; ui_transfer_id : string; ui_metadata_sha256 : string; ui_size_bytes : Z;
  ui_created_at : Z; ui_expires_at : Z }.

Record InviteRow := mkInviteRow {
  iv_code : string; iv_created_by : string; iv_max_uses : Z; iv_uses : Z; iv_expires_at : option Z; iv_created_at : Z;
  iv_revoked_at : option Z }.

Record ReservationRow := mkReservationRow {
  er_kind : string; er_account_id : string; er_device_id : string; er_invite_id : option string; er_challenge : string;
  er_created_at : Z; er_expires_at : Z; er_consumed_at : option Z }.

(** [device_links]: the second link protocol. *)
Record DeviceLinkRow := mkDeviceLinkRow {
  dl_code : string; dl_account_id : string; dl_created_by_device_id : option string; dl_state : string;
  dl_protocol_version : string; dl_link_nonce : string; dl_claimed_device_id : option string; dl_claim_challenge : option string;
  dl_claimed_device_name : option string; dl_claimed_key_package : option string; dl_claimed_signing_key : option string;
  dl_claimed_transcript_hash : option string; dl_claim_tag : option string; dl_approval_tag : option string;
  dl_claim_token_hash : option string; dl_claimed_auth_secret_hash : option string; dl_approved_device_id : option string;
  dl_created_at : Z; dl_expires_at : Z; dl_claimed_at : option Z; dl_approved_at : option Z; dl_consumed_at : option Z;
  dl_revoked_at : option Z }.

(** What the claim of a [device_links_v3] row fills in, all at once. *)
Record LinkClaim := mkLinkClaim {
  lc_device_name : string; lc_key_package : string; lc_signing_key : string; lc_transfer_public_key : string;
  lc_transcript_hash : string; lc_claim_tag : string; lc_claim_token_hash : string; lc_device_secret_hash : string;
  lc_initial_session_token_hash : string; lc_claim_request_hash : string; lc_claimed_at : Z }.

(** The reservation columns are filled together as well. *)
Record DeviceLinkV3Row := mkDeviceLinkV3Row {
  lk_code : string; lk_account_id : string; lk_source_device_id : string; lk_server_origin : string; lk_ttl_seconds : Z;
  lk_state : string; lk_link_nonce : string; lk_reservation : option (string * string * string); lk_claim : option LinkClaim;
  lk_approval_tag : option string; lk_created_at : Z; lk_expires_at : Z; lk_approved_at : option Z;
  lk_transfer_expires_at : option Z; lk_completed_at : option Z; lk_revoked_at : option Z; lk_history_cancelled_at : option Z }.

Record RecoveryKeyRow := mkRecoveryKeyRow { ak_auth_public_key : string; ak_rk_id : string; ak_created_at : Z }.

Record RecoveryRequestRow := mkRecoveryRequestRow {
  rq_account_id : string; rq_device_id : string; rq_device_name : string; rq_key_package : string; rq_signing_key : string;
  rq_device_auth_hash : string; rq_claim_token_hash : string; rq_verified_password_hash : string; rq_verified_auth_key : string;
  rq_state : string; rq_created_at : Z; rq_ready_at : Z; rq_expires_at : Z; rq_cancelled_by : option string;
  rq_completed_at : option Z }.

Record RecoveryAttemptRow := mkRecoveryAttemptRow { ra_failures : Z; ra_leak_notified : bool }.
Record InstanceRow := mkInstanceRow { in_name : string; in_created_at : Z; in_recovery_decoy_key : option string }.
Record AuditRow := mkAuditRow { au_actor : option string; au_type : string; au_metadata : Payload; au_created_at : Z }.

(** ** Tables *)

Record Rooms := mkRooms {
  accounts : gmap string AccountRow;
  devices : gmap string DeviceRow;
  communities : gmap string Community;
  channels : gmap string Channel;
  conversations : gmap string ConversationRow;
  conv_members : gmap (string * string) MemberRow;
  comm_members : gmap (string * string) MemberRow;
  dm_pairs : gmap (string * string) string;
  blocks : gmap (string * string) Z;
  mutes : gmap (string * string) MuteRow;
  policies : gmap string PolicyRow }.

Definition upd_accounts (f : gmap string AccountRow -> gmap string AccountRow) (x : Rooms) : Rooms :=
  mkRooms (f (accounts x)) (devices x) (communities x) (channels x) (conversations x) (conv_members x) (comm_members x) (dm_pairs x) (blocks x) (mutes x) (policies x).
Definition upd_devices (f : gmap string DeviceRow -> gmap string DeviceRow) (x : Rooms) : Rooms :=
  mkRooms (accounts x) (f (devices x)) (communities x) (channels x) (conversations x) (conv_members x) (comm_members x) (dm_pairs x) (blocks x) (mutes x) (policies x).
Definition upd_communities (f : gmap string Community -> gmap string Community) (x : Rooms) : Rooms :=
  mkRooms (accounts x) (devices x) (f (communities x)) (channels x) (conversations x) (conv_members x) (comm_members x) (dm_pairs x) (blocks x) (mutes x) (policies x).
Definition upd_channels (f : gmap string Channel -> gmap string Channel) (x : Rooms) : Rooms :=
  mkRooms (accounts x) (devices x) (communities x) (f (channels x)) (conversations x) (conv_members x) (comm_members x) (dm_pairs x) (blocks x) (mutes x) (policies x).
Definition upd_conversations (f : gmap string ConversationRow -> gmap string ConversationRow) (x : Rooms) : Rooms :=
  mkRooms (accounts x) (devices x) (communities x) (channels x) (f (conversations x)) (conv_members x) (comm_members x) (dm_pairs x) (blocks x) (mutes x) (policies x).
Definition upd_conv_members (f : gmap (string * string) MemberRow -> gmap (string * string) MemberRow) (x : Rooms) : Rooms :=
  mkRooms (accounts x) (devices x) (communities x) (channels x) (conversations x) (f (conv_members x)) (comm_members x) (dm_pairs x) (blocks x) (mutes x) (policies x).
Definition upd_comm_members (f : gmap (string * string) MemberRow -> gmap (string * string) MemberRow) (x : Rooms) : Rooms :=
  mkRooms (accounts x) (devices x) (communities x) (channels x) (conversations x) (conv_members x) (f (comm_members x)) (dm_pairs x) (blocks x) (mutes x) (policies x).
Definition upd_dm_pairs (f : gmap (string * string) string -> gmap (string * string) string) (x : Rooms) : Rooms :=
  mkRooms (accounts x) (devices x) (communities x) (channels x) (conversations x) (conv_members x) (comm_members x) (f (dm_pairs x)) (blocks x) (mutes x) (policies x).
Definition upd_blocks (f : gmap (string * string) Z -> gmap (string * string) Z) (x : Rooms) : Rooms :=
  mkRooms (accounts x) (devices x) (communities x) (channels x) (conversations x) (conv_members x) (comm_members x) (dm_pairs x) (f (blocks x)) (mutes x) (policies x).
Definition upd_mutes (f : gmap (string * string) MuteRow -> gmap (string * string) MuteRow) (x : Rooms) : Rooms :=
  mkRooms (accounts x) (devices x) (communities x) (channels x) (conversations x) (conv_members x) (comm_members x) (dm_pairs x) (blocks x) (f (mutes x)) (policies x).
Definition upd_policies (f : gmap string PolicyRow -> gmap string PolicyRow) (x : Rooms) : Rooms :=
  mkRooms (accounts x) (devices x) (communities x) (channels x) (conversations x) (conv_members x) (comm_members x) (dm_pairs x) (blocks x) (mutes x) (f (policies x)).

Record Content := mkContent {
  messages : gmap string MessageEnvelope;
  attachments : gmap string AttachmentRow;
  message_attachments : gmap string string;
  reactions : gmap (string * string) ReactionRow;
  read_receipts : gmap (string * string) ReadReceiptRow;
  delivery_receipts : gmap (string * string) string;
  blob_queue : gmap string BlobDeletionRow }.

Definition upd_messages (f : gmap string MessageEnvelope -> gmap string MessageEnvelope) (x : Content) : Content :=
  mkContent (f (messages x)) (attachments x) (message_attachments x) (reactions x) (read_receipts x) (delivery_receipts x) (blob_queue x).
Definition upd_attachments (f : gmap string AttachmentRow -> gmap string AttachmentRow) (x : Content) : Content :=
  mkContent (messages x) (f (attachments x)) (message_attachments x) (reactions x) (read_receipts x) (delivery_receipts x) (blob_queue x).
Definition upd_message_attachments (f : gmap string string -> gmap string string) (x : Content) : Content :=
  mkContent (messages x) (attachments x) (f (message_attachments x)) (reactions x) (read_receipts x) (delivery_receipts x) (blob_queue x).
Definition upd_reactions (f : gmap (string * string) ReactionRow -> gmap (string * string) ReactionRow) (x : Content) : Content :=
  mkContent (messages x) (attachments x) (message_attachments x) (f (reactions x)) (read_receipts x) (delivery_receipts x) (blob_queue x).
Definition upd_read_receipts (f : gmap (string * string) ReadReceiptRow -> gmap (string * string) ReadReceiptRow) (x : Content) : Content :=
  mkContent (messages x) (attachments x) (message_attachments x) (reactions x) (f (read_receipts x)) (delivery_receipts x) (blob_queue x).
Definition upd_delivery_receipts (f : gmap (string * string) string -> gmap (string * string) string) (x : Content) : Content :=
  mkContent (messages x) (attachments x) (message_attachments x) (reactions x) (read_receipts x) (f (delivery_receipts x)) (blob_queue x).
Definition upd_blob_queue (f : gmap string BlobDeletionRow -> gmap string BlobDeletionRow) (x : Content) : Content :=
  mkContent (messages x) (attachments x) (message_attachments x) (reactions x) (read_receipts x) (delivery_receipts x) (f (blob_queue x)).

Record Events := mkEvents {
  sync_events : gmap Z SyncEventRow;
  sync_seq : Z;
  prune_state : option PruneState;
  account_marks : gmap (string * string) Z;
  conversation_marks : gmap (string * bool) Z }.

Definition upd_sync_events (f : gmap Z SyncEventRow -> gmap Z SyncEventRow) (x : Events) : Events :=
  mkEvents (f (sync_events x)) (sync_seq x) (prune_state x) (account_marks x) (conversation_marks x).
Definition upd_sync_seq (f : Z -> Z) (x : Events) : Events :=
  mkEvents (sync_events x) (f (sync_seq x)) (prune_state x) (account_marks x) (conversation_marks x).
Definition upd_prune_state (f : option PruneState -> option PruneState) (x : Events) : Events :=
  mkEvents (sync_events x) (sync_seq x) (f (prune_state x)) (account_marks x) (conversation_marks x).
Definition upd_account_marks (f : gmap (string * string) Z -> gmap (string * string) Z) (x : Events) : Events :=
  mkEvents (sync_events x) (sync_seq x) (prune_state x) (f (account_marks x)) (conversation_marks x).
Definition upd_conversation_marks (f : gmap (string * bool) Z -> gmap (string * bool) Z) (x : Events) : Events :=
  mkEvents (sync_events x) (sync_seq x) (prune_state x) (account_marks x) (f (conversation_marks x)).

Record Push := mkPush {
  push_subscriptions : gmap string PushSubscriptionRow;
  push_wake_jobs : gmap (Z * string * string) PushWakeRow }.

Definition upd_push_subscriptions (f : gmap string PushSubscriptionRow -> gmap string PushSubscriptionRow) (x : Push) : Push :=
  mkPush (f (push_subscriptions x)) (push_wake_jobs x).
Definition upd_push_wake_jobs (f : gmap (Z * string * string) PushWakeRow -> gmap (Z * string * string) PushWakeRow) (x : Push) : Push :=
  mkPush (push_subscriptions x) (f (push_wake_jobs x)).

Record Mls := mkMls {
  mls_groups : gmap string Z;
  mls_devices : gmap (string * string) MlsDeviceRow;
  mls_messages : gmap string MlsMessageRow;
  mls_revocations : gmap (string * string) RevocationRow;
  mls_required : gmap (string * string * string) (option Z);
  key_packages : gmap string KeyPackageRow }.

Definition upd_mls_groups (f : gmap string Z -> gmap string Z) (x : Mls) : Mls :=
  mkMls (f (mls_groups x)) (mls_devices x) (mls_messages x) (mls_revocations x) (mls_required x) (key_packages x).
Definition upd_mls_devices (f : gmap (string * string) MlsDeviceRow -> gmap (string * string) MlsDeviceRow) (x : Mls) : Mls :=
  mkMls (mls_groups x) (f (mls_devices x)) (mls_messages x) (mls_revocations x) (mls_required x) (key_packages x).
Definition upd_mls_messages (f : gmap string MlsMessageRow -> gmap string MlsMessageRow) (x : Mls) : Mls :=
  mkMls (mls_groups x) (mls_devices x) (f (mls_messages x)) (mls_revocations x) (mls_required x) (key_packages x).
Definition upd_mls_revocations (f : gmap (string * string) RevocationRow -> gmap (string * string) RevocationRow) (x : Mls) : Mls :=
  mkMls (mls_groups x) (mls_devices x) (mls_messages x) (f (mls_revocations x)) (mls_required x) (key_packages x).
Definition upd_mls_required (f : gmap (string * string * string) (option Z) -> gmap (string * string * string) (option Z)) (x : Mls) : Mls :=
  mkMls (mls_groups x) (mls_devices x) (mls_messages x) (mls_revocations x) (f (mls_required x)) (key_packages x).
Definition upd_key_packages (f : gmap string KeyPackageRow -> gmap string KeyPackageRow) (x : Mls) : Mls :=
  mkMls (mls_groups x) (mls_devices x) (mls_messages x) (mls_revocations x) (mls_required x) (f (key_packages x)).

Record Identity := mkIdentity {
  invites : gmap string InviteRow;
  reservations : gmap string ReservationRow;
  device_links : gmap string DeviceLinkRow;
  device_links_v3 : gmap string DeviceLinkV3Row;
  recovery_keys : gmap string RecoveryKeyRow;
  recovery_requests : gmap string RecoveryRequestRow;
  recovery_attempts : gmap (string * string) RecoveryAttemptRow;
  instance : option InstanceRow;
  audit_events : list AuditRow }.

Definition upd_invites (f : gmap string InviteRow -> gmap string InviteRow) (x : Identity) : Identity :=
  mkIdentity (f (invites x)) (reservations x) (device_links x) (device_links_v3 x) (recovery_keys x) (recovery_requests x) (recovery_attempts x) (instance x) (audit_events x).
Definition upd_reservations (f : gmap string ReservationRow -> gmap string ReservationRow) (x : Identity) : Identity :=
  mkIdentity (invites x) (f (reservations x)) (device_links x) (device_links_v3 x) (recovery_keys x) (recovery_requests x) (recovery_attempts x) (instance x) (audit_events x).
Definition upd_device_links (f : gmap string DeviceLinkRow -> gmap string DeviceLinkRow) (x : Identity) : Identity :=
  mkIdentity (invites x) (reservations x) (f (device_links x)) (device_links_v3 x) (recovery_keys x) (recovery_requests x) (recovery_attempts x) (instance x) (audit_events x).
Definition upd_device_links_v3 (f : gmap string DeviceLinkV3Row -> gmap string DeviceLinkV3Row) (x : Identity) : Identity :=
  mkIdentity (invites x) (reservations x) (device_links x) (f (device_links_v3 x)) (recovery_keys x) (recovery_requests x) (recovery_attempts x) (instance x) (audit_events x).
Definition upd_recovery_keys (f : gmap string RecoveryKeyRow -> gmap string RecoveryKeyRow) (x : Identity) : Identity :=
  mkIdentity (invites x) (reservations x) (device_links x) (device_links_v3 x) (f (recovery_keys x)) (recovery_requests x) (recovery_attempts x) (instance x) (audit_events x).
Definition upd_recovery_requests (f : gmap string RecoveryRequestRow -> gmap string RecoveryRequestRow) (x : Identity) : Identity :=
  mkIdentity (invites x) (reservations x) (device_links x) (device_links_v3 x) (recovery_keys x) (f (recovery_requests x)) (recovery_attempts x) (instance x) (audit_events x).
Definition upd_recovery_attempts (f : gmap (string * string) RecoveryAttemptRow -> gmap (string * string) RecoveryAttemptRow) (x : Identity) : Identity :=
  mkIdentity (invites x) (reservations x) (device_links x) (device_links_v3 x) (recovery_keys x) (recovery_requests x) (f (recovery_attempts x)) (instance x) (audit_events x).
Definition upd_instance (f : option InstanceRow -> option InstanceRow) (x : Identity) : Identity :=
  mkIdentity (invites x) (reservations x) (device_links x) (device_links_v3 x) (recovery_keys x) (recovery_requests x) (recovery_attempts x) (f (instance x)) (audit_events x).
Definition upd_audit_events (f : list AuditRow -> list AuditRow) (x : Identity) : Identity :=
  mkIdentity (invites x) (reservations x) (device_links x) (device_links_v3 x) (recovery_keys x) (recovery_requests x) (recovery_attempts x) (instance x) (f (audit_events x)).

Record DB := mkDB {
  rooms : Rooms;
  content : Content;
  events : Events;
  push : Push;
  mls : Mls;
  calls : gmap string CallSession;
  backups : gmap string BackupRow;
  sessions : gmap string SessionRow;
  history_transfers : gmap string HistoryTransferRow;
  upload_intents : gmap string UploadIntentRow;
  ident : Identity }.

Definition upd_rooms (f : Rooms -> Rooms) (x : DB) : DB :=
  mkDB (f (rooms x)) (content x) (events x) (push x) (mls x) (calls x) (backups x) (sessions x) (history_transfers x) (upload_intents x) (ident x).
Definition upd_content (f : Content -> Content) (x : DB) : DB :=
  mkDB (rooms x) (f (content x)) (events x) (push x) (mls x) (calls x) (backups x) (sessions x) (history_transfers x) (upload_intents x) (ident x).
Definition upd_events (f : Events -> Events) (x : DB) : DB :=
  mkDB (rooms x) (content x) (f (events x)) (push x) (mls x) (calls x) (backups x) (sessions x) (history_transfers x) (upload_intents x) (ident x).
Definition upd_push (f : Push -> Push) (x : DB) : DB :=
  mkDB (rooms x) (content x) (events x) (f (push x)) (mls x) (calls x) (backups x) (sessions x) (history_transfers x) (upload_intents x) (ident x).
Definition upd_mls (f : Mls -> Mls) (x : DB) : DB :=
  mkDB (rooms x) (content x) (events x) (push x) (f (mls x)) (calls x) (backups x) (sessions x) (history_transfers x) (upload_intents x) (ident x).
Definition upd_calls (f : gmap string CallSession -> gmap string CallSession) (x : DB) : DB :=
  mkDB (rooms x) (content x) (events x) (push x) (mls x) (f (calls x)) (backups x) (sessions x) (history_transfers x) (upload_intents x) (ident x).
Definition upd_backups (f : gmap string BackupRow -> gmap string BackupRow) (x : DB) : DB :=
  mkDB (rooms x) (content x) (events x) (push x) (mls x) (calls x) (f (backups x)) (sessions x) (history_transfers x) (upload_intents x) (ident x).
Definition upd_sessions (f : gmap string SessionRow -> gmap string SessionRow) (x : DB) : DB :=
  mkDB (rooms x) (content x) (events x) (push x) (mls x) (calls x) (backups x) (f (sessions x)) (history_transfers x) (upload_intents x) (ident x).
Definition upd_history_transfers (f : gmap string HistoryTransferRow -> gmap string HistoryTransferRow) (x : DB) : DB :=
  mkDB (rooms x) (content x) (events x) (push x) (mls x) (calls x) (backups x) (sessions x) (f (history_transfers x)) (upload_intents x) (ident x).
Definition upd_upload_intents (f : gmap string UploadIntentRow -> gmap string UploadIntentRow) (x : DB) : DB :=
  mkDB (rooms x) (content x) (events x) (push x) (mls x) (calls x) (backups x) (sessions x) (history_transfers x) (f (upload_intents x)) (ident x).
Definition upd_ident (f : Identity -> Identity) (x : DB) : DB :=
  mkDB (rooms x) (content x) (events x) (push x) (mls x) (calls x) (backups x) (sessions x) (history_transfers x) (upload_intents x) (f (ident x)).

(** ** The store *)

(** The admission limits the modelled operations enforce. *)
Record Limits := mkLimits {
  ConversationMembers : Z; ConversationsPerAccount : Z; AccountStorageBytes : Z; InstanceStorageBytes : Z;
  AccountBlobs : Z; KeyPackageClaimsPerTarget : Z; MLSSelfUpdateMinutes : Z; DevicesPerAccount : Z }.

(** [sessionPolicy]: how long a session lasts unused, and at all. *)
Record sessionPolicy := mkSessionPolicy { idle : Z; absolute : Z }.

Inductive store_error :=
| ErrForbidden | ErrPostingRestricted | ErrNotFound | ErrNotMember | ErrInvalidInput
| ErrLastOwner | ErrIdempotencyConflict | ErrSyncCursorExpired | ErrMessageExpired
| ErrConversationLimit | ErrConversationMemberLimit | ErrCallVersion | ErrUnauthorized
| ErrRecoveryBusy | ErrRecoveryRange | ErrStorageQuota | ErrKeyPackageUnavailable | ErrKeyPackageClaimLimit
| ErrMLSEpochConflict | ErrMLSGroupLegacy | ErrMLSNotInGroup | ErrMLSBundleRequired | ErrMLSChangePending
| ErrMLSSelfUpdateLimit (retryAfter : Z)
| ErrDeviceLimit | ErrDeviceLinkLimit | ErrDeviceLinkInvalid | ErrDeviceLinkNotReady | ErrDeviceLinkVerificationFailed
| ErrDeviceLinkSessionUnavailable | ErrEnrollmentInvalid | ErrInviteInvalid | ErrAlreadySetup
| ErrRecoveryUnavailable | ErrRecoveryCancelled
| ErrCursorsExclusive | ErrSyncOrder | ErrEncoding | ErrConstraint | ErrNoRows.

#[export] Instance store_error_eq_dec : EqDecision store_error.
Proof. solve_decision. Defined.

Record Store := mkStore {
  db : DB;
  limits : Limits;
  admission : Counters;
  redactCursor : Z;
  session_policy : sessionPolicy }.

Definition with_db (s : Store) (d : DB) : Store := mkStore d s.(limits) s.(admission) s.(redactCursor) s.(session_policy).

(** A step of a store method: it may read and change the store or fail. *)
Definition Tx (A : Type) : Type := Store -> result store_error A * Store.

#[export] Instance Tx_ret : MRet Tx := fun A a s => (Ok a, s).
#[export] Instance Tx_bind : MBind Tx := fun A B k m s =>
  match m s with
  | (Ok a, s') => k a s'
  | (Err e, s') => (Err e, s')
  end.

Definition throw {A} (e : store_error) : Tx A := fun s => (Err e, s).
Definition guard_tx (b : bool) (e : store_error) : Tx unit := if b then mret tt else throw e.
Definition read {A} (f : DB -> A) : Tx A := fun s => (Ok (f s.(db)), s).
Definition modify (f : DB -> DB) : Tx unit := fun s => (Ok tt, with_db s (f s.(db))).
Definition require {A} (o : option A) (e : store_error) : Tx A :=
  match o with Some a => mret a | None => throw e end.
Definition get_limits : Tx Limits := fun s => (Ok s.(limits), s).
Definition get_policy : Tx sessionPolicy := fun s => (Ok s.(session_policy), s).

Fixpoint for_each {A} (l : list A) (f : A -> Tx unit) : Tx unit :=
  match l with
  | [] => mret tt
  | x :: l => f x ≫= fun _ => for_each l f
  end.

(** [BeginTx] ... [Commit] with the deferred [Rollback]. *)
Definition transaction {A} (m : Tx A) : Tx A := fun s =>
  match m s with
  | (Ok a, s') => (Ok a, s')
  | (Err e, s') => (Err e, with_db s' s.(db))
  end.

Definition refuse {A} (limit : string) (e : store_error) : Tx A := fun s =>
  (Err e, mkStore s.(db) s.(limits) (Reject limit s.(admission)) s.(redactCursor) s.(session_policy)).

(** ** Statements *)

Definition on_rooms (f : Rooms -> Rooms) : Tx unit := modify (upd_rooms f).
Definition on_content (f : Content -> Content) : Tx unit := modify (upd_content f).
Definition on_events (f : Events -> Events) : Tx unit := modify (upd_events f).
Definition on_ident (f : Identity -> Identity) : Tx unit := modify (upd_ident f).
Definition on_sessions (f : gmap string SessionRow -> gmap string SessionRow) : Tx unit := modify (upd_sessions f).

Definition nullableString (value : option string) : option string :=
  match value with
  | None => None
  | Some v => if TrimSpace v =s? "" then None else Some (TrimSpace v)
  end.

Definition nullableEmptyString (value : string) : option string :=
  if TrimSpace value =s? "" then None else Some (TrimSpace value).

(** [INSERT INTO sync_events]: AUTOINCREMENT gives the next id. *)
Definition insert_event (row : SyncEventRow) : Tx Z := fun s =>
  let id := s.(db).(events).(sync_seq) + 1 in
  (Ok id, with_db s (upd_events (fun e => upd_sync_seq (fun _ => id) (upd_sync_events (insert id row) e)) s.(db))).

Definition insertSyncEvent (eventType : string) (accountID : option string) (conversationID : string)
    (payload : Payload) (createdAt : Z) : Tx Z :=
  insert_event (mkSyncEventRow eventType (nullableString accountID) (nullableEmptyString conversationID)
                  None payload createdAt).

Definition insertOptionalSyncEvent (eventType : string) (accountID : option string) (conversationID : string)
    (payload : Payload) (createdAt : Z) : Tx Z :=
  if eventType =s? "" then mret 0 else insertSyncEvent eventType accountID conversationID payload createdAt.

(** ** Queries *)

Definition member_role (d : DB) (conversationID accountID : string) : option string :=
  mb_role <$> d.(rooms).(conv_members) !! (conversationID, accountID).

Definition community_role (d : DB) (communityID accountID : string) : option string :=
  mb_role <$> d.(rooms).(comm_members) !! (communityID, accountID).

Definition is_member (d : DB) (conversationID accountID : string) : bool :=
  bool_decide (is_Some (d.(rooms).(conv_members) !! (conversationID, accountID))).

Definition blocked_by (d : DB) (blocker blocked : string) : bool :=
  bool_decide (is_Some (d.(rooms).(blocks) !! (blocker, blocked))).

Definition blocked_either (d : DB) (a b : string) : bool := blocked_by d a b || blocked_by d b a.

Definition account_active (d : DB) (accountID : string) : bool :=
  match d.(rooms).(accounts) !! accountID with
  | Some a => bool_decide (acc_deleted_at a = None)
  | None => false
  end.

(** The rows of one scope of a membership table, and the scopes of one
    account. *)
Definition rows_of (m : gmap (string * string) MemberRow) (scope : string) : list (string * MemberRow) :=
  omap (fun '((c, a), r) => if c =s? scope then Some (a, r) else None) (map_to_list m).
Definition scopes_of (m : gmap (string * string) MemberRow) (account : string) : list string :=
  omap (fun '((c, a), _) => if a =s? account then Some c else None) (map_to_list m).

(** SQL [ORDER BY] on text columns is byte order. *)
Definition str_le (a b : string) : bool := bool_decide (String.le a b).
Definition order_by {A} (le : A -> A -> bool) (l : list A) : list A :=
  merge_sort (H := fun a b => decide (le a b = true)) (fun a b => le a b = true) l.

(** [(t1, i1) <= (t2, i2)] of a (time stamp, id) pair. *)
Definition stamp_le (a b : Z * string) : bool :=
  (a.1 <? b.1) || ((a.1 =? b.1) && str_le a.2 b.2).
Definition stamp_lt (a b : Z * string) : bool := stamp_le a b && negb (bool_decide (a = b)).

(** ** Lemmas: the monad *)

Lemma bind_ok {A B} (m : Tx A) (k : A -> Tx B) s b s' :
  (m ≫= k) s = (Ok b, s') -> exists a s1, m s = (Ok a, s1) /\ k a s1 = (Ok b, s').
Proof. unfold mbind, Tx_bind. destruct (m s) as [[a|e] s1]; [eauto|intros [=]]. Qed.

Lemma transaction_ok {A} (m : Tx A) s a s' :
  transaction m s = (Ok a, s') -> m s = (Ok a, s').
Proof. unfold transaction. destruct (m s) as [[]]; congruence. Qed.

Lemma transaction_err {A} (m : Tx A) s e s' :
  transaction m s = (Err e, s') -> s'.(db) = s.(db) /\ exists s1, m s = (Err e, s1).
Proof. unfold transaction. destruct (m s) as [[] s1] eqn:E; intros [= <- <-]. split; [done|]. by eexists. Qed.

Lemma guard_ok b e s x s' : guard_tx b e s = (Ok x, s') -> b = true /\ s' = s.
Proof. unfold guard_tx. destruct b; intros [=]; done. Qed.

Lemma require_ok {A} (o : option A) e s a s' : require o e s = (Ok a, s') -> o = Some a /\ s' = s.
Proof. destruct o; intros [=]; by subst. Qed.

Lemma with_db_id s : with_db s s.(db) = s.
Proof. by destruct s. Qed.

Lemma insert_event_ok row s id s' :
  insert_event row s = (Ok id, s') ->
  id = s.(db).(events).(sync_seq) + 1 /\
  s' = with_db s (upd_events (fun e => upd_sync_seq (fun _ => id) (upd_sync_events (insert id row) e)) s.(db)).
Proof. unfold insert_event. by intros [= <- <-]. Qed.

(** A run known by its answer. *)
Lemma run_answer {A} (x : result store_error A * Store) r : x.1 = r -> x = (r, x.2).
Proof. destruct x. by intros <-. Qed.

(** A run that succeeds, by its value. *)
Definition answer {A} (dflt : A) (x : result store_error A * Store) : A := match x.1 with Ok a => a | Err _ => dflt end.

Lemma run_ok {A} (dflt : A) (x : result store_error A * Store) : is_ok x.1 = true -> x = (Ok (answer dflt x), x.2).
Proof. by destruct x as [[]]. Qed.

(** Take a successful run apart, statement by statement. *)
Ltac run_step H :=
  lazymatch type of H with
  | transaction _ _ = (Ok _, _) => apply transaction_ok in H
  | (_ ≫= _) _ = (Ok _, _) =>
      let a := fresh "a" in let s := fresh "s" in let H1 := fresh "Hrun" in
      apply bind_ok in H as (a & s & H1 & H); cbn beta in H; run_step H1
  | guard_tx _ _ _ = (Ok _, _) => apply guard_ok in H as [H ->]
  | require _ _ _ = (Ok _, _) => apply require_ok in H as [H ->]
  | read _ _ = (Ok _, _) => unfold read in H; injection H as <- <-
  | get_limits _ = (Ok _, _) => unfold get_limits in H; injection H as <- <-
  | get_policy _ = (Ok _, _) => unfold get_policy in H; injection H as <- <-
  | mret _ _ = (Ok _, _) => unfold mret, Tx_ret in H; injection H as <- <-
  | throw _ _ = (Ok _, _) => discriminate H
  | refuse _ _ _ = (Ok _, _) => discriminate H
  | modify _ _ = (Ok _, _) => unfold modify in H; injection H as <- <-
  | on_rooms _ _ = (Ok _, _) => unfold on_rooms, modify in H; injection H as <- <-
  | on_content _ _ = (Ok _, _) => unfold on_content, modify in H; injection H as <- <-
  | on_events _ _ = (Ok _, _) => unfold on_events, modify in H; injection H as <- <-
  | on_ident _ _ = (Ok _, _) => unfold on_ident, modify in H; injection H as <- <-
  | on_sessions _ _ = (Ok _, _) => unfold on_sessions, modify in H; injection H as <- <-
  | _ => idtac
  end.

Ltac run H := repeat (progress (run_step H)).

(** ** Lemmas: queries *)

Lemma elem_of_rows_of m c a r : (a, r) ∈ rows_of m c <-> m !! (c, a) = Some r.
Proof.
  unfold rows_of. rewrite list_elem_of_omap. split.
  - intros (((c', a'), r') & Hin%elem_of_map_to_list & Heq).
    destruct (c' =s? c) eqn:E; [|done]. apply str_eqb_true in E as ->. by injection Heq as <- <-.
  - intros H. exists ((c, a), r). split; [by apply elem_of_map_to_list|]. by rewrite str_eqb_refl.
Qed.

Lemma elem_of_scopes_of m a c : c ∈ scopes_of m a <-> is_Some (m !! (c, a)).
Proof.
  unfold scopes_of. rewrite list_elem_of_omap. split.
  - intros (((c', a'), r') & Hin%elem_of_map_to_list & Heq).
    destruct (a' =s? a) eqn:E; [|done]. apply str_eqb_true in E as ->. injection Heq as <-. by eexists.
  - intros [r H]. exists ((c, a), r). split; [by apply elem_of_map_to_list|]. by rewrite str_eqb_refl.
Qed.

Lemma is_member_true d c a : is_member d c a = true <-> is_Some (d.(rooms).(conv_members) !! (c, a)).
Proof. apply bool_decide_eq_true. Qed.

Lemma member_role_some d c a r :
  member_role d c a = Some r <-> exists row, d.(rooms).(conv_members) !! (c, a) = Some row /\ mb_role row = r.
Proof. unfold member_role. rewrite fmap_Some. naive_solver. Qed.

#[export] Instance stamp_le_trans : Transitive (fun a b => stamp_le a b = true).
Proof.
  intros [t1 i1] [t2 i2] [t3 i3]. unfold stamp_le, str_le. simpl. rewrite !orb_true_iff, !andb_true_iff, !bool_decide_eq_true, !Z.eqb_eq, !Z.ltb_lt.
  intros [?|[-> ?]] [?|[-> ?]]; [left; lia|left; lia|left; lia|right; split; [done|by etrans]].
Qed.

#[export] Instance stamp_le_total : Total (fun a b => stamp_le a b = true).
Proof.
  intros [t1 i1] [t2 i2]. unfold stamp_le, str_le. simpl. rewrite !orb_true_iff, !andb_true_iff, !bool_decide_eq_true, !Z.eqb_eq, !Z.ltb_lt.
  destruct (Z.lt_trichotomy t1 t2) as [?|[->|?]]; [by left; left| |by right; left].
  destruct (total String.le i1 i2); [by left; right|by right; right].
Qed.

Lemma stamp_le_antisym a b : stamp_le a b = true -> stamp_le b a = true -> a = b.
Proof.
  destruct a as [t1 i1], b as [t2 i2]. unfold stamp_le, str_le. simpl. rewrite !orb_true_iff, !andb_true_iff, !bool_decide_eq_true, !Z.eqb_eq, !Z.ltb_lt.
  intros [?|[-> ?]] [?|[? ?]]; try lia. f_equal. by apply (anti_symm String.le).
Qed.

Lemma order_by_perm {A} (le : A -> A -> bool) l : order_by le l ≡ₚ l.
Proof. apply merge_sort_Permutation. Qed.

(** ** Lemmas: [ORDER BY] *)

Lemma filter_perm {A} (p : A -> bool) l l' : l ≡ₚ l' -> List.filter p l ≡ₚ List.filter p l'.
Proof.
  induction 1; simpl; [done| | |by etrans]; [by destruct (p x); [apply perm_skip|]|].
  destruct (p x), (p y); try done. apply perm_swap.
Qed.

(** Cutting a sorted list at an element, and sorting a filtered list. *)
Section ordered.
Context {A K : Type} `{EqDecision K} (le : A -> A -> bool) (key : A -> K) (l : list A).
Context (Htrans : Transitive (fun x y => le x y = true)) (Htotal : Total (fun x y => le x y = true)).
Context (Hkey : forall x y, x ∈ l -> y ∈ l -> key x = key y -> x = y).
Context (Hanti : forall x y, x ∈ l -> y ∈ l -> le x y = true -> le y x = true -> key x = key y).
Context (Hnodup : NoDup l).

Let W : list A := order_by le l.

Lemma ordered_sorted : StronglySorted (fun x y => le x y = true) W.
Proof. unfold W, order_by. by apply (StronglySorted_merge_sort _). Qed.

Lemma ordered_elem x : x ∈ W <-> x ∈ l.
Proof. unfold W. by rewrite order_by_perm. Qed.

Lemma ordered_nodup : NoDup W.
Proof. unfold W. by rewrite order_by_perm. Qed.

Lemma sorted_filter (p : A -> bool) (m : list A) :
  StronglySorted (fun x y => le x y = true) m -> StronglySorted (fun x y => le x y = true) (List.filter p m).
Proof.
  induction 1 as [|x m Hm IH Hx]; simpl; [constructor|]. destruct (p x); [|done]. constructor; [done|].
  rewrite Forall_forall in *. intros y. rewrite list_elem_of_In, List.filter_In, <- list_elem_of_In. naive_solver.
Qed.

Lemma order_by_filter p : order_by le (List.filter p l) = List.filter p W.
Proof.
  apply (StronglySorted_unique_strong (fun x y => le x y = true)).
  - intros x y. rewrite order_by_perm, !list_elem_of_In, !List.filter_In, <- !list_elem_of_In.
    intros [Hx _] [Hy _] H1 H2. rewrite ordered_elem in Hy. apply Hkey; [done..|]. by apply Hanti.
  - unfold order_by. by apply (StronglySorted_merge_sort _).
  - apply sorted_filter, ordered_sorted.
  - rewrite order_by_perm. apply filter_perm. unfold W. by rewrite order_by_perm.
Qed.

(** What comes after the element at [i]. *)
Lemma filter_after i x :
  W !! i = Some x ->
  List.filter (fun y => le x y && negb (bool_decide (key y = key x))) W = drop (S i) W.
Proof.
  intros Hi. set (p := fun y => _). pose proof ordered_sorted as Hs. pose proof ordered_nodup as Hnd.
  pose proof (take_drop_middle W i x Hi) as E. rewrite <- E in Hs, Hnd. rewrite <- E at 1.
  assert (forall y, y ∈ take i W -> p y = false) as Hlo.
  { intros y Hy. unfold p. apply andb_false_iff. destruct (le x y) eqn:Exy; [right|by left].
    apply negb_false_iff, bool_decide_eq_true, Hanti; [apply ordered_elem; rewrite <- E; set_solver..| |done].
    apply StronglySorted_app in Hs as (Hcross & _ & _). apply Hcross; [done|by left]. }
  assert (forall y, y ∈ drop (S i) W -> p y = true) as Hhi.
  { intros y Hy. unfold p. apply StronglySorted_app in Hs as (_ & _ & Hs2).
    apply StronglySorted_cons in Hs2 as [Hx _]. rewrite Forall_forall in Hx. rewrite (Hx y Hy). simpl.
    apply negb_true_iff, bool_decide_eq_false. intros Ek.
    apply Hkey in Ek; [|apply ordered_elem; rewrite <- E; set_solver..]. subst y.
    apply NoDup_app in Hnd as (_ & _ & Hnd2). by apply NoDup_cons in Hnd2 as [? _]. }
  assert (p x = false) as Hx by (unfold p; by rewrite bool_decide_true, andb_false_r).
  rewrite List.filter_app. cbn [List.filter]. rewrite Hx. clear -Hlo Hhi.
  replace (List.filter p (take i W)) with (@nil A).
  - simpl. generalize dependent (drop (S i) W). intros m Hm.
    induction m as [|y m IH]; simpl; [done|]. rewrite Hm by by left. f_equal. apply IH. intros z Hz. apply Hm. by right.
  - generalize dependent (take i W). intros m Hm.
    induction m as [|y m IH]; simpl; [done|]. rewrite Hm by by left. apply IH. intros z Hz. apply Hm. by right.
Qed.
End ordered.

(** ** A new instance *)

Definition no_events : Events := mkEvents ∅ 0 (Some (mkPruneState 0 0)) ∅ ∅.
Definition new_db (accts : gmap string AccountRow) (devs : gmap string DeviceRow) : DB :=
  mkDB (mkRooms accts devs ∅ ∅ ∅ ∅ ∅ ∅ ∅ ∅ ∅) (mkContent ∅ ∅ ∅ ∅ ∅ ∅ ∅) no_events (mkPush ∅ ∅)
    (mkMls ∅ ∅ ∅ ∅ ∅ ∅) ∅ ∅ ∅ ∅ ∅ (mkIdentity ∅ ∅ ∅ ∅ ∅ ∅ ∅ None []).
