(* ===== verification/Config.v ===== *)
(** * Limits from the environment

    [internal/config]: the admission limits ([limits.go]), the request limits
    ([rate_limits.go]), the session lifetimes and the password cost of
    [config.go]; [ResolveInstanceStorage] and [backupKeep] of
    [internal/app/admission.go]; [resolveLimits] of [admission_store.go].

    The environment is a function from names to values, as [os.Getenv]; the
    size of a file system is an argument.  Integers are Go's 64-bit ones, with
    the wrap-around written out. *)

From S2P Require Import Prelude GoStrings GoStrconv RateLimiter Domain Admission Database.
From stdpp Require Import base numbers list strings.
From Stdlib Require Import Ascii ZArith ZifyBool Lia.
Open Scope Z_scope.

Definition env := string -> string.

(** ** Admission limits *)

Record ConfigLimits := mkConfigLimits {
  cl_AccountStorageBytes : Z; cl_InstanceStorageBytes : Z; cl_AccountBlobs : Z; cl_DevicesPerAccount : Z; cl_ConversationMembers : Z;
  cl_ConversationsPerAccount : Z; cl_KeyPackageClaimsPerTarget : Z; cl_MLSSelfUpdateMinutes : Z; cl_DeliveriesPerMinute : Z;
  cl_WriteBytesPerHour : Z; cl_AttachmentBytes : Z; cl_SocketsPerIPv6Prefix : Z }.

Definition mib : Z := Z.shiftl 1 20.
Definition DefaultAccountStorageMiB : Z := 512.
Definition LegacyInstanceStorageMiB : Z := 10240.
Definition DefaultAccountBlobs : Z := 10000.
Definition DefaultDevicesPerAccount : Z := 10.
Definition DefaultConversationMembers : Z := 250.
Definition DefaultConversationsPerAcct : Z := 1000.
Definition DefaultKeyPackageClaimsPerTarget : Z := 25.
Definition MaxKeyPackageClaimsPerTarget : Z := 50.
Definition DefaultMLSSelfUpdateMinutes : Z := 60.
Definition MaxMLSSelfUpdateMinutes : Z := 10080.
Definition DefaultDeliveriesPerMinute : Z := 1000.
Definition DefaultWriteMiBPerHour : Z := 64.
Definition DefaultAttachmentMiB : Z := 48.
Definition MaxAttachmentMiB : Z := 48.
Definition DefaultSocketsPerIPv6Prefix : Z := 200.

(** The field a setting writes. *)
Inductive limit_field :=
| FAccountStorage | FInstanceStorage | FAccountBlobs | FDevices | FMembers | FConversations | FClaims | FSelfUpdate | FDeliveries | FWriteBytes
| FAttachment | FSockets.

Definition get_limit (f : limit_field) (l : ConfigLimits) : Z :=
  match f with
  | FAccountStorage => l.(cl_AccountStorageBytes) | FInstanceStorage => l.(cl_InstanceStorageBytes) | FAccountBlobs => l.(cl_AccountBlobs)
  | FDevices => l.(cl_DevicesPerAccount) | FMembers => l.(cl_ConversationMembers) | FConversations => l.(cl_ConversationsPerAccount)
  | FClaims => l.(cl_KeyPackageClaimsPerTarget) | FSelfUpdate => l.(cl_MLSSelfUpdateMinutes) | FDeliveries => l.(cl_DeliveriesPerMinute)
  | FWriteBytes => l.(cl_WriteBytesPerHour) | FAttachment => l.(cl_AttachmentBytes) | FSockets => l.(cl_SocketsPerIPv6Prefix)
  end.

(** The record with the given fields. *)
Definition limits_of (f : limit_field -> Z) : ConfigLimits :=
  mkConfigLimits (f FAccountStorage) (f FInstanceStorage) (f FAccountBlobs) (f FDevices) (f FMembers) (f FConversations) (f FClaims)
    (f FSelfUpdate) (f FDeliveries) (f FWriteBytes) (f FAttachment) (f FSockets).

#[export] Instance limit_field_eq : EqDecision limit_field.
Proof. solve_decision. Defined.

Definition set_limit (f : limit_field) (v : Z) (l : ConfigLimits) : ConfigLimits :=
  limits_of (fun f' => if decide (f' = f) then v else get_limit f' l).

Record limitSetting := mkLimitSetting { ls_key : string; ls_min : Z; ls_max : Z; ls_scale : Z; ls_field : limit_field }.

Definition limitSettings : list limitSetting :=
  [mkLimitSetting "PRIVATE_MESSENGER_LIMIT_ACCOUNT_STORAGE_MIB" 16 (Z.shiftl 1 20) mib FAccountStorage;
   mkLimitSetting "PRIVATE_MESSENGER_LIMIT_INSTANCE_STORAGE_MIB" 64 (Z.shiftl 1 24) mib FInstanceStorage;
   mkLimitSetting "PRIVATE_MESSENGER_LIMIT_ACCOUNT_BLOBS" 100 1000000 1 FAccountBlobs;
   mkLimitSetting "PRIVATE_MESSENGER_LIMIT_DEVICES_PER_ACCOUNT" 1 10 1 FDevices;
   mkLimitSetting "PRIVATE_MESSENGER_LIMIT_CONVERSATION_MEMBERS" 2 1000 1 FMembers;
   mkLimitSetting "PRIVATE_MESSENGER_LIMIT_CONVERSATIONS_PER_ACCOUNT" 10 10000 1 FConversations;
   mkLimitSetting "PRIVATE_MESSENGER_LIMIT_KEY_PACKAGE_CLAIMS_PER_TARGET" 1 MaxKeyPackageClaimsPerTarget 1 FClaims;
   mkLimitSetting "PRIVATE_MESSENGER_LIMIT_MLS_SELF_UPDATE_MINUTES" 1 MaxMLSSelfUpdateMinutes 1 FSelfUpdate;
   mkLimitSetting "PRIVATE_MESSENGER_LIMIT_DELIVERIES_PER_MINUTE" 60 1000000 1 FDeliveries;
   mkLimitSetting "PRIVATE_MESSENGER_LIMIT_WRITE_MIB_PER_HOUR" 16 65536 mib FWriteBytes;
   mkLimitSetting "PRIVATE_MESSENGER_LIMIT_ATTACHMENT_MIB" 1 MaxAttachmentMiB mib FAttachment;
   mkLimitSetting "PRIVATE_MESSENGER_LIMIT_SOCKETS_PER_IPV6_PREFIX" 20 10000 1 FSockets].

(** The error names the setting, or the relation that fails. *)
Inductive config_error := bad_setting (key : string) | bad_relation (keys : string).

Definition WithDefaults (l : ConfigLimits) : ConfigLimits :=
  let or_default v d := if v =? 0 then d else v in
  mkConfigLimits (or_default l.(cl_AccountStorageBytes) (DefaultAccountStorageMiB * mib)) l.(cl_InstanceStorageBytes)
    (or_default l.(cl_AccountBlobs) DefaultAccountBlobs) (or_default l.(cl_DevicesPerAccount) DefaultDevicesPerAccount)
    (or_default l.(cl_ConversationMembers) DefaultConversationMembers) (or_default l.(cl_ConversationsPerAccount) DefaultConversationsPerAcct)
    (or_default l.(cl_KeyPackageClaimsPerTarget) DefaultKeyPackageClaimsPerTarget) (or_default l.(cl_MLSSelfUpdateMinutes) DefaultMLSSelfUpdateMinutes)
    (or_default l.(cl_DeliveriesPerMinute) DefaultDeliveriesPerMinute) (or_default l.(cl_WriteBytesPerHour) (DefaultWriteMiBPerHour * mib))
    (or_default l.(cl_AttachmentBytes) (DefaultAttachmentMiB * mib)) (or_default l.(cl_SocketsPerIPv6Prefix) DefaultSocketsPerIPv6Prefix).

Definition Validate (l : ConfigLimits) : result config_error unit :=
  if l.(cl_DeliveriesPerMinute) <? wrap64 (2 * (1 + l.(cl_ConversationMembers)))
  then Err (bad_relation "PRIVATE_MESSENGER_LIMIT_DELIVERIES_PER_MINUTE")
  else if negb (l.(cl_InstanceStorageBytes) =? 0) && (l.(cl_InstanceStorageBytes) <? l.(cl_AccountStorageBytes))
  then Err (bad_relation "PRIVATE_MESSENGER_LIMIT_ACCOUNT_STORAGE_MIB")
  else Ok tt.

Definition no_limits : ConfigLimits := limits_of (fun _ => 0).

Fixpoint load_settings (getenv : env) (settings : list limitSetting) (limits : ConfigLimits) : result config_error ConfigLimits :=
  match settings with
  | [] => Ok limits
  | setting :: settings =>
    let raw := TrimSpace (getenv setting.(ls_key)) in
    if bool_decide (raw = ""%string) then load_settings getenv settings limits
    else match ParseInt raw with
    | None => Err (bad_setting setting.(ls_key))
    | Some value =>
      if (value <? setting.(ls_min)) || (setting.(ls_max) <? value) then Err (bad_setting setting.(ls_key))
      else load_settings getenv settings (set_limit setting.(ls_field) (wrap64 (value * setting.(ls_scale))) limits)
    end
  end.

Definition loadLimits (getenv : env) : result config_error ConfigLimits :=
  let? limits := load_settings getenv limitSettings no_limits in
  let? _ := Validate (WithDefaults limits) in
  Ok limits.

Definition MaxAttachmentCiphertext (plaintext : Z) : Z :=
  let chunks := Z.quot (wrap64 (plaintext + mib - 1)) mib in
  wrap64 (plaintext + chunks * (4 + 16)).

Definition DeriveInstanceStorage (volumeBytes backupKeep : Z) : Z :=
  let backupKeep := if backupKeep <? 1 then 1 else backupKeep in
  let derived := Z.quot (wrap64 (Z.quot volumeBytes 10 * 9)) (backupKeep + 3) in
  let derived := wrap64 (Z.quot derived mib * mib) in
  Z.min (Z.max derived (64 * mib)) (LegacyInstanceStorageMiB * mib).

(** ** What the server and the store make of them *)

Definition backupKeep (getenv : env) : Z :=
  match ParseInt (TrimSpace (getenv "PRIVATE_MESSENGER_BACKUP_KEEP"%string)) with
  | Some keep => if (keep <? 1) || (365 <? keep) then 7 else keep
  | None => 7
  end.

(** [statFilesystem]: the size in bytes of the file system of a path. *)
Fixpoint first_volume (stat : string -> option Z) (paths : list string) : option Z :=
  match paths with
  | [] => None
  | path :: paths =>
    if bool_decide (path = ""%string) then first_volume stat paths
    else match stat path with
    | Some size => if 0 <? size then Some size else first_volume stat paths
    | None => first_volume stat paths
    end
  end.

Definition ResolveInstanceStorage (getenv : env) (stat : string -> option Z) (paths : list string) (l : ConfigLimits) : ConfigLimits * string :=
  if negb (l.(cl_InstanceStorageBytes) =? 0) then (l, "configured"%string)
  else match first_volume stat paths with
  | Some size => (set_limit FInstanceStorage (DeriveInstanceStorage (Z.min size (Z.shiftl 1 62)) (backupKeep getenv)) l, "derived"%string)
  | None => (l, "default"%string)
  end.

Definition resolveLimits (limits : ConfigLimits) : ConfigLimits :=
  let limits := WithDefaults limits in
  let limits := if limits.(cl_InstanceStorageBytes) =? 0 then set_limit FInstanceStorage (Z.shiftl LegacyInstanceStorageMiB 20) limits else limits in
  set_limit FAccountStorage (Z.min limits.(cl_AccountStorageBytes) limits.(cl_InstanceStorageBytes)) limits.

(** The limits of [Store], from the resolved ones. *)
Definition store_limits (l : ConfigLimits) : Limits :=
  mkLimits l.(cl_ConversationMembers) l.(cl_ConversationsPerAccount) l.(cl_AccountStorageBytes) l.(cl_InstanceStorageBytes) l.(cl_AccountBlobs)
    l.(cl_KeyPackageClaimsPerTarget) l.(cl_MLSSelfUpdateMinutes) l.(cl_DevicesPerAccount).

(** ** Request limits *)

Inductive rate_field := RAddress | RAccount | RSignedIn.

Definition set_rate (f : rate_field) (v : Z) (l : RateLimits) : RateLimits :=
  match f with
  | RAddress => mkConfigRateLimits v l.(AccountPerMinute) l.(SignedInAddressPerMinute)
  | RAccount => mkConfigRateLimits l.(AddressPerMinute) v l.(SignedInAddressPerMinute)
  | RSignedIn => mkConfigRateLimits l.(AddressPerMinute) l.(AccountPerMinute) v
  end.

Record rateLimitSetting := mkRateLimitSetting { rs_key : string; rs_min : Z; rs_max : Z; rs_field : rate_field }.
Definition rateLimitSettings : list rateLimitSetting :=
  [mkRateLimitSetting "PRIVATE_MESSENGER_RATE_LIMIT_ADDRESS_PER_MINUTE" 60 100000 RAddress;
   mkRateLimitSetting "PRIVATE_MESSENGER_RATE_LIMIT_ACCOUNT_PER_MINUTE" 60 100000 RAccount;
   mkRateLimitSetting "PRIVATE_MESSENGER_RATE_LIMIT_SIGNED_IN_ADDRESS_PER_MINUTE" 60 1000000 RSignedIn].

Definition RateLimits_Validate (l : RateLimits) : result config_error unit :=
  if l.(SignedInAddressPerMinute) <? l.(AccountPerMinute) then Err (bad_relation "PRIVATE_MESSENGER_RATE_LIMIT_SIGNED_IN_ADDRESS_PER_MINUTE") else Ok tt.

Fixpoint load_rates (getenv : env) (settings : list rateLimitSetting) (limits : RateLimits) : result config_error RateLimits :=
  match settings with
  | [] => Ok limits
  | setting :: settings =>
    let raw := TrimSpace (getenv setting.(rs_key)) in
    if bool_decide (raw = ""%string) then load_rates getenv settings limits
    else match ParseInt raw with
    | None => Err (bad_setting setting.(rs_key))
    | Some value =>
      if (value <? setting.(rs_min)) || (setting.(rs_max) <? value) then Err (bad_setting setting.(rs_key))
      else load_rates getenv settings (set_rate setting.(rs_field) value limits)
    end
  end.

Definition loadRateLimits (getenv : env) : result config_error RateLimits :=
  let? limits := load_rates getenv rateLimitSettings (mkConfigRateLimits 0 0 0) in
  let? _ := RateLimits_Validate (RateLimits_WithDefaults limits) in
  Ok limits.

(** ** Sessions and passwords *)

Definition day : Z := 24 * hour.
Definition DefaultSessionIdleLifetime : Z := 14 * day.
Definition DefaultSessionAbsoluteLifetime : Z := 30 * day.
Definition maxSessionLifetimeDays : Z := 365.
Definition DefaultPasswordCost : Z := 10.
Definition MinPasswordCost : Z := 10.
Definition MaxPasswordCost : Z := 15.

Definition parsePasswordCost (raw : string) : result config_error Z :=
  if bool_decide (TrimSpace raw = ""%string) then Ok DefaultPasswordCost
  else match ParseInt (TrimSpace raw) with
  | None => Err (bad_setting "PRIVATE_MESSENGER_BCRYPT_COST")
  | Some cost => if (cost <? MinPasswordCost) || (MaxPasswordCost <? cost) then Err (bad_setting "PRIVATE_MESSENGER_BCRYPT_COST") else Ok cost
  end.

(** [daysEnv]: whether the key is set, and the destination afterwards. *)
Definition daysEnv (getenv : env) (key : string) (max dest : Z) : result config_error (bool * Z) :=
  let raw := TrimSpace (getenv key) in
  if bool_decide (raw = ""%string) then Ok (false, dest)
  else match ParseInt raw with
  | None => Err (bad_setting key)
  | Some days => if (days <=? 0) || (max <? days) then Err (bad_setting key) else Ok (true, wrap64 (days * 24 * hour))
  end.

Definition loadSessionLifetimes (getenv : env) (idle0 absolute0 : Z) : result config_error (Z * Z) :=
  let? (idleSet, idle) := daysEnv getenv "PRIVATE_MESSENGER_SESSION_IDLE_DAYS" maxSessionLifetimeDays idle0 in
  let? (_, absolute) := daysEnv getenv "PRIVATE_MESSENGER_SESSION_ABSOLUTE_DAYS" maxSessionLifetimeDays absolute0 in
  if absolute <? idle then
    if idleSet : bool then Err (bad_relation "PRIVATE_MESSENGER_SESSION_IDLE_DAYS") else Ok (absolute, absolute)
  else Ok (idle, absolute).

(** ** What a configuration that loads is like *)

(** The bounds of a field, from its setting. *)
Definition setting_of (f : limit_field) : option limitSetting := List.find (fun s => bool_decide (s.(ls_field) = f)) limitSettings.
Definition lowest (f : limit_field) : Z := match setting_of f with Some s => s.(ls_min) * s.(ls_scale) | None => 0 end.
Definition highest (f : limit_field) : Z := match setting_of f with Some s => s.(ls_max) * s.(ls_scale) | None => 0 end.

Definition unset_or_fits (l : ConfigLimits) : Prop := forall f, get_limit f l = 0 \/ lowest f <= get_limit f l <= highest f.

Lemma get_limits_of h f : get_limit f (limits_of h) = h f.
Proof. by destruct f. Qed.

(** Every value a setting accepts fits its field after scaling. *)
Definition setting_ok (s : limitSetting) : bool :=
  (0 <? s.(ls_scale)) && (0 <=? s.(ls_min)) && (s.(ls_max) * s.(ls_scale) <=? max_int64) &&
  (lowest s.(ls_field) =? s.(ls_min) * s.(ls_scale)) && (highest s.(ls_field) =? s.(ls_max) * s.(ls_scale)).

Lemma settings_ok : forallb setting_ok limitSettings = true.
Proof. vm_compute. reflexivity. Qed.

Lemma load_settings_fits getenv settings l l' :
  forallb setting_ok settings = true -> unset_or_fits l -> load_settings getenv settings l = Ok l' -> unset_or_fits l'.
Proof.
  revert l. induction settings as [|s settings IH]; intros l Hs Hl; cbn [load_settings]; [by intros [= <-]|].
  cbn [forallb] in Hs. apply andb_prop in Hs as [Hs1 Hs]. destruct (bool_decide _); [by apply IH|].
  destruct (ParseInt _) as [v|]; [|done]. destruct (_ || _) eqn:E; [done|]. apply IH; [done|]. intros f.
  unfold set_limit. rewrite get_limits_of. destruct (decide (f = ls_field s)) as [-> |]; [|apply Hl]. right.
  unfold setting_ok in Hs1. rewrite !andb_true_iff in Hs1. destruct Hs1 as [[[[H1 H2] H3] H4] H5].
  assert (ls_min s * ls_scale s <= v * ls_scale s <= ls_max s * ls_scale s) by nia.
  rewrite wrap64_id; [lia|]. unfold min_int64, max_int64 in *. nia.
Qed.

Lemma loadLimits_fits getenv l :
  loadLimits getenv = Ok l -> unset_or_fits l /\ Validate (WithDefaults l) = Ok tt.
Proof.
  unfold loadLimits. destruct (load_settings _ _ _) as [l1|] eqn:E; [|done]. cbn [result_bind].
  destruct (Validate (WithDefaults l1)) as [[]|] eqn:Ev; [|done]. cbn [result_bind]. intros [= <-]. split; [|done].
  eapply load_settings_fits; [apply settings_ok| |exact E]. intros f. left. apply get_limits_of.
Qed.

(** The limits a store may be opened with. *)
Record well_typed (l : ConfigLimits) : Prop := {
  wt_storage : 16 * mib <= l.(cl_AccountStorageBytes) <= l.(cl_InstanceStorageBytes) /\ 64 * mib <= l.(cl_InstanceStorageBytes) <= 2 ^ 24 * mib;
  wt_blobs : 100 <= l.(cl_AccountBlobs) <= 1000000;
  wt_devices : 1 <= l.(cl_DevicesPerAccount) <= 10;
  wt_members : 2 <= l.(cl_ConversationMembers) <= 1000;
  wt_conversations : 10 <= l.(cl_ConversationsPerAccount) <= 10000;
  wt_claims : 1 <= l.(cl_KeyPackageClaimsPerTarget) <= 50;
  wt_update : 1 <= l.(cl_MLSSelfUpdateMinutes) <= 10080;
  wt_deliveries : 2 * (1 + l.(cl_ConversationMembers)) <= l.(cl_DeliveriesPerMinute) <= 1000000;
  wt_bytes : 16 * mib <= l.(cl_WriteBytesPerHour) <= 65536 * mib;
  wt_attachment : mib <= l.(cl_AttachmentBytes) <= 48 * mib;
  wt_sockets : 20 <= l.(cl_SocketsPerIPv6Prefix) <= 10000 }.

Lemma derived_storage v k : 0 <= v <= 2 ^ 62 -> 64 * mib <= DeriveInstanceStorage v k <= LegacyInstanceStorageMiB * mib.
Proof. intros Hv. unfold DeriveInstanceStorage. change mib with 1048576. change LegacyInstanceStorageMiB with 10240. lia. Qed.

Lemma first_volume_pos stat paths size : first_volume stat paths = Some size -> 0 < size.
Proof.
  induction paths as [|p paths IH]; simpl; [done|]. destruct (bool_decide _); [done|]. destruct (stat p) as [s|]; [|done].
  destruct (0 <? s) eqn:E; [intros [= <-]; lia|done].
Qed.

(** The storage limit after [ResolveInstanceStorage], the rest unchanged. *)
Lemma resolved_storage getenv stat paths l :
  unset_or_fits l -> let l' := (ResolveInstanceStorage getenv stat paths l).1 in
  unset_or_fits l' /\ forall f, f <> FInstanceStorage -> get_limit f l' = get_limit f l.
Proof.
  intros Hl. unfold ResolveInstanceStorage. destruct (negb _); [done|]. destruct (first_volume stat paths) as [size|] eqn:Ev; [|done].
  apply first_volume_pos in Ev. split.
  - intros f. unfold set_limit. cbn [fst]. rewrite get_limits_of. destruct (decide (f = FInstanceStorage)) as [-> |]; [|apply Hl]. right.
    pose proof (derived_storage (Z.min size (Z.shiftl 1 62)) (backupKeep getenv) ltac:(change (Z.shiftl 1 62) with (2 ^ 62); lia)) as Hd.
    change (lowest FInstanceStorage) with (64 * mib). change (highest FInstanceStorage) with (Z.shiftl 1 24 * mib).
    change mib with 1048576 in *. change LegacyInstanceStorageMiB with 10240 in *. change (Z.shiftl 1 24) with 16777216. lia.
  - intros f Hf. unfold set_limit. cbn [fst]. rewrite get_limits_of. by destruct (decide (f = FInstanceStorage)).
Qed.

(** A limit that is not set takes its default. *)
Definition or_default (v d : Z) : Z := if v =? 0 then d else v.

Lemma default_fits v d lo hi : v = 0 \/ lo <= v <= hi -> lo <= d <= hi -> lo <= or_default v d <= hi.
Proof. unfold or_default. destruct (v =? 0) eqn:E; lia. Qed.

Lemma resolve_fields l :
  let inst := or_default l.(cl_InstanceStorageBytes) (Z.shiftl LegacyInstanceStorageMiB 20) in
  resolveLimits l =
    mkConfigLimits (Z.min (or_default l.(cl_AccountStorageBytes) (DefaultAccountStorageMiB * mib)) inst) inst
      (or_default l.(cl_AccountBlobs) DefaultAccountBlobs) (or_default l.(cl_DevicesPerAccount) DefaultDevicesPerAccount)
      (or_default l.(cl_ConversationMembers) DefaultConversationMembers) (or_default l.(cl_ConversationsPerAccount) DefaultConversationsPerAcct)
      (or_default l.(cl_KeyPackageClaimsPerTarget) DefaultKeyPackageClaimsPerTarget) (or_default l.(cl_MLSSelfUpdateMinutes) DefaultMLSSelfUpdateMinutes)
      (or_default l.(cl_DeliveriesPerMinute) DefaultDeliveriesPerMinute) (or_default l.(cl_WriteBytesPerHour) (DefaultWriteMiBPerHour * mib))
      (or_default l.(cl_AttachmentBytes) (DefaultAttachmentMiB * mib)) (or_default l.(cl_SocketsPerIPv6Prefix) DefaultSocketsPerIPv6Prefix).
Proof.
  intros inst. unfold inst, resolveLimits, or_default. cbv zeta. change ((WithDefaults l).(cl_InstanceStorageBytes)) with l.(cl_InstanceStorageBytes).
  by destruct (l.(cl_InstanceStorageBytes) =? 0) eqn:E.
Qed.

Lemma resolve_typed l l' :
  unset_or_fits l' -> (forall f, f <> FInstanceStorage -> get_limit f l' = get_limit f l) -> Validate (WithDefaults l) = Ok tt ->
  well_typed (resolveLimits l').
Proof.
  intros Hf Hsame Hv. pose proof (Hsame FMembers ltac:(done)) as Em. pose proof (Hsame FDeliveries ltac:(done)) as Ed. simpl in Em, Ed.
  assert (forall f d, lowest f <= d <= highest f -> lowest f <= or_default (get_limit f l') d <= highest f) as Hd
    by (intros f d; apply default_fits, Hf).
  assert (64 * mib <= or_default l'.(cl_InstanceStorageBytes) (Z.shiftl LegacyInstanceStorageMiB 20) <= 2 ^ 24 * mib) as Hi
    by (apply (Hd FInstanceStorage); vm_compute; split; discriminate).
  assert (16 * mib <= or_default l'.(cl_AccountStorageBytes) (DefaultAccountStorageMiB * mib) <= 2 ^ 20 * mib) as Ha
    by (apply (Hd FAccountStorage); vm_compute; split; discriminate).
  assert (2 <= or_default l'.(cl_ConversationMembers) DefaultConversationMembers <= 1000) as Hm
    by (apply (Hd FMembers); vm_compute; split; discriminate).
  assert (60 <= or_default l'.(cl_DeliveriesPerMinute) DefaultDeliveriesPerMinute <= 1000000) as Hdel
    by (apply (Hd FDeliveries); vm_compute; split; discriminate).
  assert (2 * (1 + or_default l'.(cl_ConversationMembers) DefaultConversationMembers) <= or_default l'.(cl_DeliveriesPerMinute) DefaultDeliveriesPerMinute) as Hrel.
  { unfold Validate in Hv. destruct (_ <? wrap64 _) eqn:E in Hv; [done|]. cbn [WithDefaults cl_ConversationMembers cl_DeliveriesPerMinute] in E.
    fold (or_default (cl_ConversationMembers l) DefaultConversationMembers) in E.
    fold (or_default (cl_DeliveriesPerMinute l) DefaultDeliveriesPerMinute) in E. rewrite <- Em, <- Ed in E.
    rewrite wrap64_id in E by (unfold min_int64, max_int64; lia). lia. }
  rewrite resolve_fields. cbv zeta. split; cbn [cl_AccountStorageBytes cl_InstanceStorageBytes cl_AccountBlobs cl_DevicesPerAccount
    cl_ConversationMembers cl_ConversationsPerAccount cl_KeyPackageClaimsPerTarget cl_MLSSelfUpdateMinutes cl_DeliveriesPerMinute cl_WriteBytesPerHour
    cl_AttachmentBytes cl_SocketsPerIPv6Prefix]; try lia.
  - apply (Hd FAccountBlobs); vm_compute; split; discriminate.
  - apply (Hd FDevices); vm_compute; split; discriminate.
  - apply (Hd FConversations); vm_compute; split; discriminate.
  - apply (Hd FClaims); vm_compute; split; discriminate.
  - apply (Hd FSelfUpdate); vm_compute; split; discriminate.
  - apply (Hd FWriteBytes); vm_compute; split; discriminate.
  - apply (Hd FAttachment); vm_compute; split; discriminate.
  - apply (Hd FSockets); vm_compute; split; discriminate.
Qed.

Definition rate_ok (v lo hi : Z) : Prop := v = 0 \/ lo <= v <= hi.
Definition rates_fit (l : RateLimits) : Prop :=
  rate_ok l.(AddressPerMinute) 60 100000 /\ rate_ok l.(AccountPerMinute) 60 100000 /\ rate_ok l.(SignedInAddressPerMinute) 60 1000000.

Lemma loaded_rates getenv r : loadRateLimits getenv = Ok r -> rates_fit r /\ RateLimits_Validate (RateLimits_WithDefaults r) = Ok tt.
Proof.
  unfold loadRateLimits. destruct (load_rates _ _ _) as [l1|] eqn:E; [|done]. cbn [result_bind].
  destruct (RateLimits_Validate _) as [[]|] eqn:Ev; [|done]. intros [= <-]. split; [|done]. clear Ev. revert E.
  assert (forall settings l, (forall s, s ∈ settings -> s ∈ rateLimitSettings) -> rates_fit l -> load_rates getenv settings l = Ok l1 -> rates_fit l1) as Hl.
  { induction settings as [|s settings IH]; intros l Hs Hfit; cbn [load_rates]; [by intros [= <-]|].
    assert (forall x, x ∈ settings -> x ∈ rateLimitSettings) as Hs' by (intros x Hx; apply Hs; by right).
    destruct (bool_decide _); [by apply IH|]. destruct (ParseInt _) as [v|]; [|done]. destruct (_ || _) eqn:Er; [done|]. apply IH; [done|].
    assert (s ∈ rateLimitSettings) as Hin by (apply Hs; by left). destruct Hfit as (H1 & H2 & H3).
    unfold rateLimitSettings in Hin. rewrite !elem_of_cons in Hin. unfold rates_fit, rate_ok in *.
    destruct Hin as [-> |[-> |[-> |Hin%not_elem_of_nil]]]; simpl in *; [lia..|done]. }
  apply Hl; [done|]. repeat split; by left.
Qed.

Lemma loaded_days getenv key max dest set v :
  daysEnv getenv key max dest = Ok (set, v) -> 0 < max <= 365 -> v = dest /\ set = false \/ day <= v <= max * day /\ set = true.
Proof.
  unfold daysEnv. destruct (bool_decide _); [intros [= <- <-]; auto|]. destruct (ParseInt _) as [d|]; [|done]. destruct (_ || _) eqn:E; [done|].
  intros [= <- <-] Hm. right. split; [|done]. unfold day, hour, minute, second in *. rewrite wrap64_id by (unfold min_int64, max_int64; lia). lia.
Qed.

(** C24: a configuration that loads is well typed.  If the settings load, the
    limits the store is opened with (defaults filled in, the instance's storage
    derived from whatever volume there is) are in the documented ranges, none
    of them having wrapped around on the way: an account's storage is at most
    the instance's, at least one device per account, deliveries for two
    messages to a full conversation; the request limits leave one account its
    whole budget at an address; and a session's idle lifetime, from a day to a
    year, is at most its absolute one. *)
Theorem configuration_well_typed getenv stat paths l r idle absolute :
  loadLimits getenv = Ok l -> loadRateLimits getenv = Ok r ->
  loadSessionLifetimes getenv DefaultSessionIdleLifetime DefaultSessionAbsoluteLifetime = Ok (idle, absolute) ->
  well_typed (resolveLimits (ResolveInstanceStorage getenv stat paths l).1) /\
  (let rates := rateLimitsFromConfig r in
   60 <= rates.(l_general) <= 100000 /\ 60 <= rates.(l_account) <= 100000 /\ rates.(l_account) <= rates.(l_signedIn) <= 1000000) /\
  day <= idle <= absolute /\ absolute <= 365 * day.
Proof.
  intros [Hf Hv]%loadLimits_fits [(R1 & R2 & R3) Hr]%loaded_rates Hs. split.
  { destruct (resolved_storage getenv stat paths l Hf) as [Hf' Hsame]. by eapply resolve_typed. }
  split.
  - unfold RateLimits_Validate in Hr. destruct (_ <? _) eqn:E in Hr; [done|]. unfold rateLimitsFromConfig, RateLimits_WithDefaults in *. simpl in *.
    unfold rate_ok, DefaultAddressRequestsPerMinute, DefaultAccountRequestsPerMinute, DefaultSignedInAddressRequestsPerMinute in *.
    destruct (AddressPerMinute r =? 0) eqn:E1, (AccountPerMinute r =? 0) eqn:E2, (SignedInAddressPerMinute r =? 0) eqn:E3; lia.
  - revert Hs. unfold loadSessionLifetimes.
    destruct (daysEnv getenv "PRIVATE_MESSENGER_SESSION_IDLE_DAYS" _ _) as [[set1 i]|] eqn:E1; [|done]. cbn [result_bind].
    destruct (daysEnv getenv "PRIVATE_MESSENGER_SESSION_ABSOLUTE_DAYS" _ _) as [[set2 a]|] eqn:E2; [|done]. cbn [result_bind].
    apply loaded_days in E1; [|unfold maxSessionLifetimeDays; lia]. apply loaded_days in E2; [|unfold maxSessionLifetimeDays; lia].
    unfold maxSessionLifetimeDays, DefaultSessionIdleLifetime, DefaultSessionAbsoluteLifetime in *. unfold day, hour, minute, second in *.
    destruct (a <? i) eqn:E; [destruct set1; [done|]|]; intros [= <- <-]; lia.
Qed.

(** Ten devices in an environment that sets the delivery limit and shortens
    the sessions. *)
Definition ex_env : env := fun key =>
  if bool_decide (key = "PRIVATE_MESSENGER_LIMIT_DELIVERIES_PER_MINUTE"%string) then " 600 "%string
  else if bool_decide (key = "PRIVATE_MESSENGER_SESSION_ABSOLUTE_DAYS"%string) then "7"%string else ""%string.

Lemma configuration_well_typed_witness :
  exists l r, loadLimits ex_env = Ok l /\ loadRateLimits ex_env = Ok r /\ l.(cl_DeliveriesPerMinute) = 600 /\
    well_typed (resolveLimits (ResolveInstanceStorage ex_env (fun _ => Some 100000000) ["/data"%string] l).1).
Proof.
  eexists _, _. split; [vm_compute; reflexivity|]. split; [vm_compute; reflexivity|]. split; [vm_compute; reflexivity|].
  eapply (configuration_well_typed ex_env (fun _ => Some 100000000) ["/data"%string] _ _ (7 * day) (7 * day)); vm_compute; reflexivity.
Defined.
