(* ===== verification/Conversations.v ===== *)
(** * Communities, conversations and memberships

    [internal/storage/community_store.go] (communities, channels,
    conversations and their members), [admission_store.go] (the membership
    limits), [posting_policy.go] and [user_control_store.go] (blocks and
    mutes).  Identifiers made by [domain.NewID] and the clock are arguments.
    [AddConversationMember] and [CreateChannel] are modelled but have no
    caller outside the tests, so they are not steps of the running system. *)

From S2P Require Import Prelude GoStrings Domain Admission Database.
From stdpp Require Import base numbers list strings gmap fin_maps sorting.
From Stdlib Require Import ZArith ZifyBool Lia.
Open Scope Z_scope.

(** ** Admission limits *)

Definition len {A} (l : list A) : Z := Z.of_nat (length l).

Definition conversationMemberCount (d : DB) (conversationID : string) : Z :=
  len (rows_of d.(rooms).(conv_members) conversationID).

Definition communityMemberCount (d : DB) (communityID : string) : Z :=
  len (rows_of d.(rooms).(comm_members) communityID).

Definition account_conversations (d : DB) (accountID : string) : Z :=
  len (scopes_of d.(rooms).(conv_members) accountID).

Definition checkOwnConversations (accountID : string) (adding : Z) : Tx unit :=
  n ← read (fun d => account_conversations d accountID);
  l ← get_limits;
  if l.(ConversationsPerAccount) <? n + adding then refuse Admission.Conversations ErrConversationLimit
  else mret tt.

Definition checkOtherConversations (accountID : string) (adding : Z) : Tx unit :=
  n ← read (fun d => account_conversations d accountID);
  l ← get_limits;
  if l.(ConversationsPerAccount) <? n + adding then refuse Admission.Conversations ErrForbidden
  else mret tt.

Definition checkMembers (current adding : Z) : Tx unit :=
  l ← get_limits;
  if l.(ConversationMembers) <? current + adding then refuse Admission.Members ErrConversationMemberLimit
  else mret tt.

(** [SELECT id FROM conversations WHERE community_id = ? AND kind =
    'community_channel'] *)
Definition channel_conversations (d : DB) (communityID : string) : list string :=
  omap (fun '(id, cv) => if (cv.(cv_kind) =s? "community_channel") &&
                            bool_decide (cv.(cv_community_id) = Some communityID)
                         then Some id else None)
       (map_to_list d.(rooms).(conversations)).

Definition largestChannel (d : DB) (communityID : string) : Z :=
  foldr Z.max 0 (map (conversationMemberCount d) (channel_conversations d communityID)).

Definition checkNewConversationMember (conversationID accountID : string) : Tx unit :=
  members ← read (fun d => conversationMemberCount d conversationID);
  checkMembers members 1 ≫= fun _ =>
  checkOtherConversations accountID 1.

Definition checkNewCommunityMember (communityID accountID : string) : Tx unit :=
  members ← read (fun d => communityMemberCount d communityID);
  checkMembers members 1 ≫= fun _ =>
  largest ← read (fun d => largestChannel d communityID);
  checkMembers largest 1 ≫= fun _ =>
  channels ← read (fun d => len (channel_conversations d communityID));
  checkOtherConversations accountID channels.

(** ** Statements on the membership tables *)

(** The conflict clause of an INSERT on (account_id, scope). *)
Inductive on_conflict := Fail | DoNothing | UpdateRole.

Definition put_member (cf : on_conflict) (old : option MemberRow) (references_exist : bool)
    (put : MemberRow -> Tx unit) (role : string) (now : Z) : Tx unit :=
  guard_tx (ValidRole role) ErrConstraint ≫= fun _ =>
  match old, cf with
  | Some _, Fail => throw ErrConstraint
  | Some _, DoNothing => mret tt
  | Some row, UpdateRole => put (mkMemberRow role row.(mb_created_at))
  | None, _ => guard_tx references_exist ErrConstraint ≫= fun _ => put (mkMemberRow role now)
  end.

Definition exists_in {A} (m : gmap string A) (k : string) : bool := bool_decide (is_Some (m !! k)).

Definition insert_conv_member (cf : on_conflict) (c a role : string) (now : Z) : Tx unit :=
  d ← read (fun d => d);
  put_member cf (d.(rooms).(conv_members) !! (c, a))
    (exists_in d.(rooms).(accounts) a && exists_in d.(rooms).(conversations) c)
    (fun row => on_rooms (upd_conv_members (insert (c, a) row))) role now.

Definition insert_comm_member (cf : on_conflict) (k a role : string) (now : Z) : Tx unit :=
  d ← read (fun d => d);
  put_member cf (d.(rooms).(comm_members) !! (k, a))
    (exists_in d.(rooms).(accounts) a && exists_in d.(rooms).(communities) k)
    (fun row => on_rooms (upd_comm_members (insert (k, a) row))) role now.

Definition ref_ok {A} (m : gmap string A) (k : option string) : bool :=
  match k with None => true | Some k => exists_in m k end.

(** [idx_conversations_channel_unique] *)
Definition channel_taken (m : gmap string ConversationRow) (ch : option string) : bool :=
  match ch with
  | None => false
  | Some ch => existsb (fun '(_, cv) => bool_decide (cv.(cv_channel_id) = Some ch)) (map_to_list m)
  end.

Definition valid_kind (kind : string) : bool :=
  (kind =s? "dm") || (kind =s? "group") || (kind =s? "community_channel").

Definition insert_conversation (id : string) (cv : ConversationRow) : Tx unit :=
  d ← read (fun d => d);
  guard_tx (negb (exists_in d.(rooms).(conversations) id) && valid_kind cv.(cv_kind) &&
            exists_in d.(rooms).(accounts) cv.(cv_created_by) &&
            ref_ok d.(rooms).(communities) cv.(cv_community_id) &&
            ref_ok d.(rooms).(channels) cv.(cv_channel_id) &&
            negb (channel_taken d.(rooms).(conversations) cv.(cv_channel_id))) ErrConstraint ≫= fun _ =>
  on_rooms (upd_conversations (insert id cv)).

Definition insert_channel (ch : Channel) : Tx unit :=
  d ← read (fun d => d);
  guard_tx (negb (exists_in d.(rooms).(channels) ch.(chan_ID)) &&
            exists_in d.(rooms).(communities) ch.(chan_CommunityID)) ErrConstraint ≫= fun _ =>
  on_rooms (upd_channels (insert ch.(chan_ID) ch)).

Definition scanConversation (id : string) (cv : ConversationRow) : Conversation :=
  mkConversation id cv.(cv_kind) cv.(cv_title) cv.(cv_community_id) cv.(cv_channel_id)
    cv.(cv_created_by) cv.(cv_retention_seconds) cv.(cv_created_at) false.

Definition opt_member (k : string) (v : option string) : Payload :=
  match v with Some s => [(k, VStr s)] | None => [] end.

(** The JSON object of a [domain.Conversation]. *)
Definition conversation_payload (c : Conversation) : Payload :=
  [("id"%string, VStr c.(conv_ID)); ("kind"%string, VStr c.(conv_Kind))] ++
  opt_member "title" c.(conv_Title) ++ opt_member "community_id" c.(conv_CommunityID) ++
  opt_member "channel_id" c.(conv_ChannelID) ++ [("created_by"%string, VStr c.(conv_CreatedBy))] ++
  match c.(conv_RetentionSeconds) with Some r => [("retention_seconds"%string, VInt r)] | None => [] end ++
  [("created_at"%string, VTime c.(conv_CreatedAt))] ++
  (if c.(conv_PostingRestricted) then [("posting_restricted"%string, VBool true)] else []).

Definition str_payload (l : list (string * string)) : Payload := map (fun '(k, v) => (k, VStr v)) l.

(** ** Communities and channels *)

Definition CreateCommunity (id : string) (now : Z) (name createdBy : string) : Tx Community :=
  transaction (
    d ← read (fun d => d);
    guard_tx (negb (exists_in d.(rooms).(communities) id) && exists_in d.(rooms).(accounts) createdBy)
      ErrConstraint ≫= fun _ =>
    let community := mkCommunity id (TrimSpace name) createdBy now in
    on_rooms (upd_communities (insert id community)) ≫= fun _ =>
    insert_comm_member Fail id createdBy RoleOwner now ≫= fun _ =>
    mret community).

Definition CommunityMemberRole (communityID accountID : string) : Tx string :=
  d ← read (fun d => d);
  require (community_role d communityID accountID) ErrNotMember.

Definition ConversationMemberRole (conversationID accountID : string) : Tx string :=
  d ← read (fun d => d);
  require (member_role d conversationID accountID) ErrNotMember.

Definition IsConversationMember (conversationID accountID : string) : Tx bool :=
  read (fun d => is_member d conversationID accountID).

Definition default_kind (kind : string) : string := if kind =s? "" then "private" else kind.
Definition valid_channel_kind (kind : string) : bool := (kind =s? "private") || (kind =s? "announcement").

Definition CreateChannel (id : string) (now : Z) (communityID name kind createdBy : string) : Tx Channel :=
  role ← CommunityMemberRole communityID createdBy;
  guard_tx (CanManageMembers role) ErrForbidden ≫= fun _ =>
  let kind := default_kind kind in
  guard_tx (valid_channel_kind kind) ErrInvalidInput ≫= fun _ =>
  let channel := mkChannel id communityID (TrimSpace name) kind now in
  insert_channel channel ≫= fun _ =>
  mret channel.

Definition CreateChannelWithConversation (channelID conversationID : string) (now : Z)
    (communityID name kind createdBy : string) : Tx (Channel * Conversation) :=
  let kind := default_kind kind in
  guard_tx (valid_channel_kind kind) ErrInvalidInput ≫= fun _ =>
  transaction (
    d ← read (fun d => d);
    actorRole ← require (community_role d communityID createdBy) ErrNotMember;
    guard_tx (CanManageMembers actorRole) ErrForbidden ≫= fun _ =>
    checkMembers 0 (communityMemberCount d communityID) ≫= fun _ =>
    checkOwnConversations createdBy 1 ≫= fun _ =>
    let members := rows_of d.(rooms).(comm_members) communityID in
    for_each members (fun '(a, _) =>
      if a =s? createdBy then mret tt else checkOtherConversations a 1) ≫= fun _ =>
    let channel := mkChannel channelID communityID (TrimSpace name) kind now in
    insert_channel channel ≫= fun _ =>
    insert_conversation conversationID
      (mkConversationRow "community_channel" (Some (TrimSpace name)) (Some communityID) (Some channelID)
         createdBy None now "everyone") ≫= fun _ =>
    for_each members (fun '(a, row) =>
      insert_conv_member Fail conversationID a row.(mb_role) now ≫= fun _ =>
      insert_event (mkSyncEventRow "membership.updated" (Some a) (Some conversationID) None
        (str_payload [("conversation_id", conversationID); ("role", row.(mb_role))]%string) now) ≫= fun _ =>
      mret tt) ≫= fun _ =>
    mret (channel, mkConversation conversationID "community_channel" (Some (TrimSpace name))
                     (Some communityID) (Some channelID) createdBy None now (kind =s? "announcement"))).

(** Join or update the target in each channel conversation; the event ids in
    order. *)
Fixpoint join_channels (now : Z) (communityID targetAccountID role : string) (l : list string) : Tx (list Z) :=
  match l with
  | [] => mret []
  | conversationID :: l =>
      insert_conv_member UpdateRole conversationID targetAccountID role now ≫= fun _ =>
      eventID ← insert_event (mkSyncEventRow "membership.updated" (Some targetAccountID)
        (Some conversationID) None
        (str_payload [("community_id", communityID); ("conversation_id", conversationID);
                      ("role", role)]%string) now);
      rest ← join_channels now communityID targetAccountID role l;
      mret (eventID :: rest)
  end.

Definition ManageCommunityMember (now : Z) (communityID actorAccountID targetAccountID role : string)
    : Tx (list Z) :=
  guard_tx (ValidRole role) ErrInvalidInput ≫= fun _ =>
  transaction (
    d ← read (fun d => d);
    actorRole ← require (community_role d communityID actorAccountID) ErrNotMember;
    guard_tx (CanManageMembers actorRole && (RoleRank role <=? RoleRank actorRole)) ErrForbidden ≫= fun _ =>
    guard_tx (account_active d targetAccountID) ErrNotFound ≫= fun _ =>
    guard_tx (negb (blocked_either d actorAccountID targetAccountID)) ErrForbidden ≫= fun _ =>
    match community_role d communityID targetAccountID with
    | Some currentRole => guard_tx (RoleRank currentRole <? RoleRank actorRole) ErrForbidden
    | None => checkNewCommunityMember communityID targetAccountID
    end ≫= fun _ =>
    insert_comm_member UpdateRole communityID targetAccountID role now ≫= fun _ =>
    join_channels now communityID targetAccountID role (channel_conversations d communityID)).

(** ** Conversations *)

Record CreateConversationInput := mkInput {
  in_Kind : string; in_Title : option string; in_CommunityID : option string;
  in_ChannelID : option string; in_CreatedBy : string; in_RetentionSeconds : option Z;
  in_MemberAccountIDs : list string }.

(** The member list trimmed, without the creator and without repeats, or
    [None] for an invalid identifier. *)
Fixpoint normalize_members (seen : list string) (ids : list string) : option (list string) :=
  match ids with
  | [] => Some []
  | accountID :: ids =>
      let accountID := TrimSpace accountID in
      if negb (ValidID "acct" accountID) then None
      else if bool_decide (accountID ∈ seen) then normalize_members seen ids
      else match normalize_members (accountID :: seen) ids with
           | Some l => Some (accountID :: l)
           | None => None
           end
  end.

(** A title is trimmed; an empty or overlong one is refused. *)
Definition normalize_title (title : option string) : option (option string) :=
  match title with
  | None => Some None
  | Some t => let t := TrimSpace t in
              if (t =s? "") || (64 <? Z.of_nat (length (chars t))) then None else Some (Some t)
  end.

Definition kind_shape_ok (kind : string) (title communityID channelID : option string)
    (members : list string) : bool :=
  if kind =s? "dm" then (len members =? 1) && bool_decide (title = None) &&
                        bool_decide (communityID = None) && bool_decide (channelID = None)
  else if kind =s? "group" then bool_decide (communityID = None) && bool_decide (channelID = None)
  else if kind =s? "community_channel" then negb (bool_decide (communityID = None)) &&
                                            negb (bool_decide (channelID = None))
  else false.

Definition dmAccountPair (first second : string) : string * string :=
  if String.ltb first second then (first, second) else (second, first).

(** A channel conversation points at a channel of a community its creator
    belongs to. *)
Definition validate_channel (d : DB) (createdBy communityID channelID : string) : Tx unit :=
  guard_tx (bool_decide (is_Some (community_role d communityID createdBy))) ErrForbidden ≫= fun _ =>
  ch ← require (d.(rooms).(channels) !! channelID) ErrNotFound;
  guard_tx (ch.(chan_CommunityID) =s? communityID) ErrForbidden.

Definition validate_member (d : DB) (createdBy : string) (community : option string)
    (accountID : string) : Tx unit :=
  guard_tx (negb (blocked_either d createdBy accountID)) ErrForbidden ≫= fun _ =>
  guard_tx (account_active d accountID) ErrNotFound ≫= fun _ =>
  match community with
  | None => mret tt
  | Some k => guard_tx (bool_decide (is_Some (community_role d k accountID))) ErrForbidden
  end.

Definition insert_dm_pair (low high id : string) : Tx unit :=
  d ← read (fun d => d);
  match d.(rooms).(dm_pairs) !! (low, high) with
  | Some _ => throw ErrIdempotencyConflict
  | None => guard_tx (String.ltb low high && exists_in d.(rooms).(accounts) low &&
                      exists_in d.(rooms).(accounts) high) ErrConstraint ≫= fun _ =>
            on_rooms (upd_dm_pairs (insert (low, high) id))
  end.

(** The part of [CreateOrGetConversation] after its input checks and the DM
    lookup: the limits and the writes. *)
Definition create_conversation (id : string) (now : Z) (kind : string) (title communityID channelID : option string)
    (createdBy : string) (retention : option Z) (members : list string) : Tx (Conversation * bool) :=
  checkMembers 0 (1 + len members) ≫= fun _ =>
  checkOwnConversations createdBy 1 ≫= fun _ =>
  for_each members (fun a => checkOtherConversations a 1) ≫= fun _ =>
  insert_conversation id (mkConversationRow kind (nullableString title) (nullableString communityID)
    (nullableString channelID) createdBy retention now "everyone") ≫= fun _ =>
  insert_conv_member Fail id createdBy RoleOwner now ≫= fun _ =>
  for_each members (fun a =>
    insert_conv_member DoNothing id a RoleMember now ≫= fun _ =>
    insert_event (mkSyncEventRow "membership.updated" (Some a) (Some id) None
      (str_payload [("conversation_id", id); ("role", RoleMember)]%string) now) ≫= fun _ =>
    mret tt) ≫= fun _ =>
  (if kind =s? "dm"
   then let '(low, high) := dmAccountPair createdBy (default ""%string (members !! 0%nat)) in
        insert_dm_pair low high id
   else mret tt) ≫= fun _ =>
  mret (mkConversation id kind title communityID channelID createdBy retention now false, true).

Definition CreateOrGetConversation (id : string) (now : Z) (input : CreateConversationInput)
    : Tx (Conversation * bool) :=
  guard_tx ((len input.(in_MemberAccountIDs) <=? 100) && ValidID "acct" input.(in_CreatedBy))
    ErrInvalidInput ≫= fun _ =>
  members ← require (normalize_members [input.(in_CreatedBy)] input.(in_MemberAccountIDs)) ErrInvalidInput;
  title ← require (normalize_title input.(in_Title)) ErrInvalidInput;
  let kind := input.(in_Kind) in
  guard_tx (kind_shape_ok kind title input.(in_CommunityID) input.(in_ChannelID) members)
    ErrInvalidInput ≫= fun _ =>
  transaction (
    d ← read (fun d => d);
    let community := if kind =s? "community_channel" then input.(in_CommunityID) else None in
    match community, input.(in_ChannelID) with
    | Some k, Some ch => validate_channel d input.(in_CreatedBy) k ch
    | _, _ => mret tt
    end ≫= fun _ =>
    for_each members (validate_member d input.(in_CreatedBy) community) ≫= fun _ =>
    let existing :=
      if kind =s? "dm"
      then d.(rooms).(dm_pairs) !! dmAccountPair input.(in_CreatedBy) (default ""%string (members !! 0%nat))
      else None in
    match existing with
    | Some existingID =>
        cv ← require (d.(rooms).(conversations) !! existingID) ErrConstraint;
        mret (scanConversation existingID cv, false)
    | None =>
        create_conversation id now kind title input.(in_CommunityID) input.(in_ChannelID)
          input.(in_CreatedBy) input.(in_RetentionSeconds) members
    end).

(** ** Members *)

Definition AddConversationMember (now : Z) (conversationID accountID role : string) : Tx unit :=
  let role := if role =s? "" then RoleMember else role in
  transaction (
    d ← read (fun d => d);
    cv ← require (d.(rooms).(conversations) !! conversationID) ErrNotFound;
    guard_tx (negb (cv.(cv_kind) =s? "dm")) ErrForbidden ≫= fun _ =>
    (if is_member d conversationID accountID then mret tt
     else checkNewConversationMember conversationID accountID) ≫= fun _ =>
    insert_conv_member DoNothing conversationID accountID role now).

Definition ManageConversationMember (now : Z) (conversationID actorAccountID targetAccountID role : string)
    : Tx Z :=
  let role := if role =s? "" then RoleMember else role in
  transaction (
    d ← read (fun d => d);
    actorRole ← require (member_role d conversationID actorAccountID) ErrNotMember;
    cv ← require (d.(rooms).(conversations) !! conversationID) ErrNotMember;
    guard_tx (negb (cv.(cv_kind) =s? "dm")) ErrForbidden ≫= fun _ =>
    guard_tx (CanManageMembers actorRole && (RoleRank role <=? RoleRank actorRole)) ErrForbidden ≫= fun _ =>
    guard_tx (account_active d targetAccountID) ErrNotFound ≫= fun _ =>
    guard_tx (negb (blocked_either d actorAccountID targetAccountID)) ErrForbidden ≫= fun _ =>
    match member_role d conversationID targetAccountID with
    | Some currentRole => guard_tx (RoleRank currentRole <? RoleRank actorRole) ErrForbidden
    | None =>
        (if cv.(cv_kind) =s? "community_channel" then
           k ← require cv.(cv_community_id) ErrForbidden;
           guard_tx (bool_decide (is_Some (community_role d k targetAccountID))) ErrForbidden
         else mret tt) ≫= fun _ =>
        checkNewConversationMember conversationID targetAccountID
    end ≫= fun _ =>
    insert_conv_member UpdateRole conversationID targetAccountID role now ≫= fun _ =>
    insertSyncEvent "membership.updated" None conversationID
      (str_payload [("conversation_id", conversationID); ("account_id", targetAccountID);
                    ("role", role); ("mls_coordination", "pending")]%string) now).

(** [COUNT] of the owners of a conversation. *)
Definition owners (d : DB) (conversationID : string) : Z :=
  len (List.filter (fun '(_, r) => r.(mb_role) =s? RoleOwner) (rows_of d.(rooms).(conv_members) conversationID)).

Definition RemoveConversationMember (now : Z) (conversationID actorAccountID targetAccountID : string)
    : Tx (Z * Z) :=
  transaction (
    d ← read (fun d => d);
    actorRole ← require (member_role d conversationID actorAccountID) ErrNotMember;
    cv ← require (d.(rooms).(conversations) !! conversationID) ErrNotMember;
    guard_tx (cv.(cv_kind) =s? "group") ErrForbidden ≫= fun _ =>
    targetRole ← require (member_role d conversationID targetAccountID) ErrNotFound;
    (if actorAccountID =s? targetAccountID then
       guard_tx (negb ((targetRole =s? RoleOwner) && (owners d conversationID <=? 1))) ErrLastOwner
     else guard_tx (CanManageMembers actorRole && (RoleRank targetRole <? RoleRank actorRole)) ErrForbidden)
      ≫= fun _ =>
    on_rooms (fun r => upd_mutes (delete (targetAccountID, conversationID))
                         (upd_conv_members (delete (conversationID, targetAccountID)) r)) ≫= fun _ =>
    on_content (fun c => upd_read_receipts (delete (targetAccountID, conversationID))
                           (upd_delivery_receipts (delete (targetAccountID, conversationID)) c)) ≫= fun _ =>
    let eventType := (if actorAccountID =s? targetAccountID then "membership.left" else "membership.removed")%string in
    let payload := str_payload [("conversation_id", conversationID); ("account_id", targetAccountID);
                                ("mls_coordination", "pending")]%string in
    remainingEventID ← insertSyncEvent eventType None conversationID payload now;
    removedEventID ← insertSyncEvent eventType (Some targetAccountID) "" payload now;
    mret (remainingEventID, removedEventID)).

(** ** Conversation settings *)

Definition set_conversation (id : string) (f : ConversationRow -> ConversationRow) : Tx unit :=
  on_rooms (upd_conversations (alter f id)).

Definition updateConversationRetention (now : Z) (conversationID updatedBy : string)
    (retentionSeconds : option Z) (eventType : string) : Tx (Conversation * Z) :=
  transaction (
    d ← read (fun d => d);
    role ← require (member_role d conversationID updatedBy) ErrNotMember;
    guard_tx (CanManageMembers role) ErrForbidden ≫= fun _ =>
    set_conversation conversationID (fun cv =>
      mkConversationRow cv.(cv_kind) cv.(cv_title) cv.(cv_community_id) cv.(cv_channel_id)
        cv.(cv_created_by) retentionSeconds cv.(cv_created_at) cv.(cv_posting_policy)) ≫= fun _ =>
    match retentionSeconds with
    | None => on_rooms (upd_policies (delete conversationID))
    | Some r => guard_tx (exists_in d.(rooms).(accounts) updatedBy &&
                          exists_in d.(rooms).(conversations) conversationID) ErrConstraint ≫= fun _ =>
                on_rooms (upd_policies (insert conversationID (mkPolicyRow r updatedBy now)))
    end ≫= fun _ =>
    d' ← read (fun d => d);
    cv ← require (d'.(rooms).(conversations) !! conversationID) ErrConstraint;
    let conversation := scanConversation conversationID cv in
    eventID ← insertOptionalSyncEvent eventType None conversationID (conversation_payload conversation) now;
    mret (conversation, eventID)).

Definition UpdateConversationRetention (now : Z) (conversationID updatedBy : string)
    (retentionSeconds : option Z) : Tx Conversation :=
  r ← updateConversationRetention now conversationID updatedBy retentionSeconds "";
  mret r.1.

Definition UpdateConversationRetentionWithSyncEvent (now : Z) (conversationID updatedBy : string)
    (retentionSeconds : option Z) : Tx (Conversation * Z) :=
  updateConversationRetention now conversationID updatedBy retentionSeconds "retention.updated".

Definition PostingPolicyEveryone : string := "everyone".
Definition PostingPolicyAdmins : string := "admins".

Definition SetConversationPostingPolicy (now : Z) (conversationID updatedBy policy : string)
    : Tx (Conversation * Z) :=
  guard_tx ((policy =s? PostingPolicyEveryone) || (policy =s? PostingPolicyAdmins)) ErrInvalidInput ≫= fun _ =>
  transaction (
    d ← read (fun d => d);
    role ← require (member_role d conversationID updatedBy) ErrNotMember;
    guard_tx (CanPostRestricted role) ErrForbidden ≫= fun _ =>
    cv ← require (d.(rooms).(conversations) !! conversationID) ErrNotFound;
    guard_tx (cv.(cv_kind) =s? "group") ErrInvalidInput ≫= fun _ =>
    set_conversation conversationID (fun cv =>
      mkConversationRow cv.(cv_kind) cv.(cv_title) cv.(cv_community_id) cv.(cv_channel_id)
        cv.(cv_created_by) cv.(cv_retention_seconds) cv.(cv_created_at) policy) ≫= fun _ =>
    let c := scanConversation conversationID cv in
    let conversation := mkConversation c.(conv_ID) c.(conv_Kind) c.(conv_Title) c.(conv_CommunityID)
      c.(conv_ChannelID) c.(conv_CreatedBy) c.(conv_RetentionSeconds) c.(conv_CreatedAt)
      (policy =s? PostingPolicyAdmins) in
    eventID ← insertSyncEvent "conversation.posting_policy.updated" None conversationID
      (conversation_payload conversation) now;
    mret (conversation, eventID)).

(** The stored policy or the channel kind limits posting. *)
Definition posting_restricted (d : DB) (cv : ConversationRow) : bool :=
  (cv.(cv_posting_policy) =s? PostingPolicyAdmins) ||
  match cv.(cv_channel_id) with
  | None => false
  | Some ch => match d.(rooms).(channels) !! ch with
               | Some c => c.(chan_Kind) =s? "announcement"
               | None => false
               end
  end.

Definition annotatePostingRestricted (d : DB) (l : list Conversation) : list Conversation :=
  map (fun c =>
    match d.(rooms).(conversations) !! c.(conv_ID) with
    | Some cv => if posting_restricted d cv
                 then mkConversation c.(conv_ID) c.(conv_Kind) c.(conv_Title) c.(conv_CommunityID)
                        c.(conv_ChannelID) c.(conv_CreatedBy) c.(conv_RetentionSeconds) c.(conv_CreatedAt) true
                 else c
    | None => c
    end) l.

Definition ConversationByID (conversationID : string) : Tx Conversation :=
  d ← read (fun d => d);
  cv ← require (d.(rooms).(conversations) !! conversationID) ErrNotFound;
  require (head (annotatePostingRestricted d [scanConversation conversationID cv])) ErrNotFound.

(** ** Listings *)

Definition membership_rows (d : DB) (username : string -> string) (l : list (string * MemberRow)) : list Membership :=
  map (fun '(a, r) => mkMembership a r.(mb_role) r.(mb_created_at) (username a))
      (order_by (fun x y => stamp_le (mb_created_at x.2, x.1) (mb_created_at y.2, y.1)) l).

Definition ListConversationMembers (conversationID requesterAccountID : string) : Tx (list Membership) :=
  transaction (
    d ← read (fun d => d);
    guard_tx (is_member d conversationID requesterAccountID) ErrNotMember ≫= fun _ =>
    mret (membership_rows d
            (fun a => match d.(rooms).(accounts) !! a with Some r => acc_username r | None => "" end)
            (rows_of d.(rooms).(conv_members) conversationID))).

Definition ListCommunityMembers (communityID accountID : string) : Tx (list Membership) :=
  CommunityMemberRole communityID accountID ≫= fun _ =>
  d ← read (fun d => d);
  mret (membership_rows d (fun _ => ""%string) (rows_of d.(rooms).(comm_members) communityID)).

Definition ListConversationMemberIDs (d : DB) (conversationID : string) : list string :=
  (rows_of d.(rooms).(conv_members) conversationID).*1.

(** Members that have not blocked the sender, in account order. *)
Definition ConversationRecipientsForSender (d : DB) (conversationID senderAccountID : string) : list string :=
  order_by str_le
    (List.filter (fun a => negb (blocked_by d a senderAccountID))
       (rows_of d.(rooms).(conv_members) conversationID).*1).

(** ** Blocks and mutes *)

Definition BlockAccount (now : Z) (blockerAccountID blockedAccountID : string) : Tx AccountBlock :=
  guard_tx (negb (blockerAccountID =s? blockedAccountID) && ValidID "acct" blockedAccountID)
    ErrInvalidInput ≫= fun _ =>
  d ← read (fun d => d);
  guard_tx (account_active d blockedAccountID) ErrNotFound ≫= fun _ =>
  match d.(rooms).(blocks) !! (blockerAccountID, blockedAccountID) with
  | Some _ => mret tt
  | None => guard_tx (exists_in d.(rooms).(accounts) blockerAccountID) ErrConstraint ≫= fun _ =>
            on_rooms (upd_blocks (insert (blockerAccountID, blockedAccountID) now))
  end ≫= fun _ =>
  mret (mkAccountBlock blockedAccountID "" now).

Definition UnblockAccount (blockerAccountID blockedAccountID : string) : Tx unit :=
  d ← read (fun d => d);
  guard_tx (blocked_by d blockerAccountID blockedAccountID) ErrNotFound ≫= fun _ =>
  on_rooms (upd_blocks (delete (blockerAccountID, blockedAccountID))).

Definition MaxMuteDuration : Z := 366 * 24 * hour.

(** Unix seconds of a time given as nanoseconds since Go's zero time. *)
Definition unix_epoch : Z := 62135596800.
Definition unix_of (t : Z) : Z := t / second - unix_epoch.
Definition time_of_unix (u : Z) : Z := (u + unix_epoch) * second.

Definition ConversationNotificationMute (now : Z) (conversationID accountID : string) : Tx NotificationMute :=
  d ← read (fun d => d);
  guard_tx (is_member d conversationID accountID) ErrNotMember ≫= fun _ =>
  mret match d.(rooms).(mutes) !! (accountID, conversationID) with
       | None => mkNotificationMute false None
       | Some r =>
           if negb r.(mu_muted) then mkNotificationMute false None
           else match r.(mu_until) with
                | None => mkNotificationMute true None
                | Some u => if time_after (time_of_unix u) now
                            then mkNotificationMute true (Some (time_of_unix u))
                            else mkNotificationMute false None
                end
       end.

Definition SetConversationNotificationMute (now : Z) (conversationID accountID : string) (muted : bool)
    (until : option Z) : Tx unit :=
  d ← read (fun d => d);
  guard_tx (is_member d conversationID accountID) ErrNotMember ≫= fun _ =>
  match (if muted then until else None) with
  | Some u => guard_tx (time_after u now && negb (time_after u (time_add now MaxMuteDuration))) ErrInvalidInput
  | None => mret tt
  end ≫= fun _ =>
  on_rooms (upd_mutes (insert (accountID, conversationID)
    (mkMuteRow muted (if muted then unix_of <$> until else None)))).

(** ** Key sets: the memberships of a scope and of an account *)

Definition scope (c : string) (D : gset (string * string)) : gset (string * string) :=
  filter (fun k => k.1 = c) D.
Definition of_account (a : string) (D : gset (string * string)) : gset (string * string) :=
  filter (fun k => k.2 = a) D.
Definition card (D : gset (string * string)) : Z := Z.of_nat (size D).

Lemma elem_of_scope c D k : k ∈ scope c D <-> k.1 = c /\ k ∈ D.
Proof. unfold scope. by rewrite elem_of_filter. Qed.
Lemma elem_of_of_account a D k : k ∈ of_account a D <-> k.2 = a /\ k ∈ D.
Proof. unfold of_account. by rewrite elem_of_filter. Qed.

Lemma NoDup_omap_inj {A B} (f : A -> option B) l :
  (forall x y b, x ∈ l -> y ∈ l -> f x = Some b -> f y = Some b -> x = y) -> NoDup l -> NoDup (omap f l).
Proof.
  intros Hinj Hnd. induction Hnd as [|x l Hx _ IH]; simpl; [constructor|].
  assert (NoDup (omap f l)) as Hl by (apply IH; intros; eapply Hinj; eauto using list_elem_of_further).
  destruct (f x) as [b|] eqn:E; [|done]. constructor; [|done].
  rewrite list_elem_of_omap. intros (y & Hy & Hfy). apply Hx.
  rewrite (Hinj x y b); eauto using list_elem_of_here, list_elem_of_further.
Qed.

Lemma NoDup_rows_of m c : NoDup (rows_of m c).
Proof.
  apply NoDup_omap_inj; [|apply NoDup_map_to_list].
  intros [[c1 a1] r1] [[c2 a2] r2] [a r] _ _. destruct (c1 =s? c) eqn:E1, (c2 =s? c) eqn:E2; try done.
  apply str_eqb_true in E1 as ->, E2 as ->. congruence.
Qed.

Lemma rows_of_card m c : len (rows_of m c) = card (scope c (dom m)).
Proof.
  unfold len, card. f_equal.
  pose proof (NoDup_rows_of m c) as Hnd.
  rewrite <- (length_fmap (fun p : string * MemberRow => (c, p.1)) (rows_of m c)).
  rewrite <- (size_list_to_set (C := gset (string * string))).
  - f_equal. apply set_eq. intros [c' a]. rewrite elem_of_list_to_set, list_elem_of_fmap, elem_of_scope, elem_of_dom.
    simpl. split.
    + intros ((a' & r) & [= -> ->] & Hin%elem_of_rows_of). eauto.
    + intros [-> [r Hr]]. exists (a, r). split; [done|]. by apply elem_of_rows_of.
  - apply NoDup_fmap_2_strong; [|done].
    intros [a1 r1] [a2 r2] H1%elem_of_rows_of H2%elem_of_rows_of [= ->]. congruence.
Qed.

Lemma scopes_of_card m a : len (scopes_of m a) = card (of_account a (dom m)).
Proof.
  unfold len, card. f_equal.
  assert (NoDup (scopes_of m a)) as Hnd.
  { apply NoDup_omap_inj; [|apply NoDup_map_to_list].
    intros [[c1 a1] r1] [[c2 a2] r2] c H1%elem_of_map_to_list H2%elem_of_map_to_list.
    destruct (a1 =s? a) eqn:E1, (a2 =s? a) eqn:E2; try done.
    apply str_eqb_true in E1 as ->, E2 as ->. congruence. }
  rewrite <- (length_fmap (fun c : string => (c, a)) (scopes_of m a)).
  rewrite <- (size_list_to_set (C := gset (string * string))).
  - f_equal. apply set_eq. intros [c a']. rewrite elem_of_list_to_set, list_elem_of_fmap, elem_of_of_account, elem_of_dom.
    simpl. setoid_rewrite elem_of_scopes_of. naive_solver.
  - apply NoDup_fmap_2; [|done]. by intros c1 c2 [= ->].
Qed.

Lemma card_union_le D K : card (D ∪ K) <= card D + card K.
Proof. unfold card. rewrite size_union_alt. pose proof (subseteq_size (K ∖ D) K ltac:(set_solver)). lia. Qed.

Lemma card_mono D K : D ⊆ K -> card D <= card K.
Proof. intros H%subseteq_size. unfold card. lia. Qed.

Lemma scope_union c D K : scope c (D ∪ K) = scope c D ∪ scope c K.
Proof. apply set_eq. intros k. rewrite elem_of_union, !elem_of_scope. set_solver. Qed.
Lemma of_account_union a D K : of_account a (D ∪ K) = of_account a D ∪ of_account a K.
Proof. apply set_eq. intros k. rewrite elem_of_union, !elem_of_of_account. set_solver. Qed.

(** ** What a statement does to the tables *)

(** The run changed the conversation memberships only (and the event log),
    to a map in [P]. *)
Definition conv_only (s s' : Store) (P : gmap (string * string) MemberRow -> Prop) : Prop :=
  s'.(limits) = s.(limits) /\
  exists m', s'.(db).(rooms) = upd_conv_members (fun _ => m') s.(db).(rooms) /\ P m'.

(** The keys [K] are added or rewritten, every other row is as it was. *)
Definition adds (K : gset (string * string)) (m m' : gmap (string * string) MemberRow) : Prop :=
  dom m' = K ∪ dom m /\ forall k, k ∉ K -> m' !! k = m !! k.

Lemma adds_nil m : adds ∅ m m.
Proof. split; [set_solver|done]. Qed.

Lemma adds_trans (K1 K2 : gset (string * string)) (m1 m2 m3 : gmap (string * string) MemberRow) :
  adds K1 m1 m2 -> adds K2 m2 m3 -> adds (K1 ∪ K2) m1 m3.
Proof.
  intros [D1 H1] [D2 H2]. split; [rewrite D2, D1; set_solver|].
  intros k Hk. rewrite H2, H1 by set_solver. done.
Qed.

Lemma insert_conv_member_ok cf c a role now s x s' :
  insert_conv_member cf c a role now s = (Ok x, s') ->
  let m := s.(db).(rooms).(conv_members) in
  ValidRole role = true /\
  (m !! (c, a) = None -> is_Some (s.(db).(rooms).(conversations) !! c)) /\
  (cf = Fail -> m !! (c, a) = None) /\
  s'.(db).(events) = s.(db).(events) /\
  conv_only s s' (fun m' => m' = match m !! (c, a), cf with
    | Some row, UpdateRole => <[(c, a) := mkMemberRow role row.(mb_created_at)]> m
    | Some _, _ => m
    | None, _ => <[(c, a) := mkMemberRow role now]> m
    end).
Proof.
  unfold insert_conv_member, put_member. intros H. run H. unfold conv_only.
  destruct (conv_members (rooms (db s)) !! (c, a)) as [row|] eqn:E; [destruct cf|]; run H; try done; simpl.
  - split_and!; [done..|]. exists (conv_members (rooms (db s))). split; [|done].
    by destruct (rooms (db s)).
  - split_and!; try done. by eexists.
  - bool_to_prop. split_and!; try done; [|by eexists].
    intros _. unfold exists_in in *. by bool_to_prop.
Qed.

Lemma insert_event_frame row s id s' :
  insert_event row s = (Ok id, s') -> s'.(db).(rooms) = s.(db).(rooms) /\ s'.(limits) = s.(limits).
Proof. by intros [_ ->]%insert_event_ok. Qed.

Lemma insertSyncEvent_frame t a c p n s id s' :
  insertSyncEvent t a c p n s = (Ok id, s') -> s'.(db).(rooms) = s.(db).(rooms) /\ s'.(limits) = s.(limits).
Proof. apply insert_event_frame. Qed.

Lemma insertOptionalSyncEvent_frame t a c p n s id s' :
  insertOptionalSyncEvent t a c p n s = (Ok id, s') ->
  s'.(db).(rooms) = s.(db).(rooms) /\ s'.(limits) = s.(limits).
Proof.
  unfold insertOptionalSyncEvent. destruct (t =s? ""); [intros H; by run H|apply insert_event_frame].
Qed.

Lemma conv_only_adds cf c a role now s x s' :
  insert_conv_member cf c a role now s = (Ok x, s') ->
  conv_only s s' (adds {[(c, a)]} s.(db).(rooms).(conv_members)).
Proof.
  intros (_ & _ & _ & _ & Hl & m' & Hr & ->)%insert_conv_member_ok. split; [done|].
  eexists; split; [done|]. split.
  - destruct (_ !! _) as [row|] eqn:E; [|apply dom_insert_L].
    assert ((c, a) ∈ dom (conv_members (rooms (db s)))) by by (apply elem_of_dom; eauto).
    destruct cf; [set_solver..|]. rewrite dom_insert_L. done.
  - intros k Hk. assert ((c, a) <> k) by set_solver.
    destruct (_ !! (c, a)) as [row|]; [destruct cf|]; by rewrite ?lookup_insert_ne.
Qed.

Lemma conv_only_refl (P : gmap (string * string) MemberRow -> Prop) (s s' : Store) :
  s'.(db).(rooms) = s.(db).(rooms) -> s'.(limits) = s.(limits) -> P s.(db).(rooms).(conv_members) ->
  conv_only s s' P.
Proof.
  intros Hr Hl HP. split; [done|]. exists (conv_members (rooms (db s))).
  split; [|done]. rewrite Hr. by destruct (rooms (db s)).
Qed.

Lemma conv_only_trans (s1 s2 s3 : Store) (P Q : gmap (string * string) MemberRow -> Prop) :
  conv_only s1 s2 P ->
  (P s2.(db).(rooms).(conv_members) -> conv_only s2 s3 Q) ->
  conv_only s1 s3 Q.
Proof.
  intros (Hl1 & m1 & Hr1 & HP) H2.
  destruct H2 as (Hl2 & m2 & Hr2 & HQ); [by rewrite Hr1|].
  split; [congruence|]. exists m2. split; [|done]. rewrite Hr2, Hr1. done.
Qed.

(** A loop that adds one key per element adds their set. *)
Lemma for_each_members {A} (key : A -> string * string) (f : A -> Tx unit) l s x s' :
  (forall x s u s', f x s = (Ok u, s') ->
     conv_only s s' (adds {[key x]} s.(db).(rooms).(conv_members))) ->
  for_each l f s = (Ok x, s') ->
  conv_only s s' (adds (list_to_set (key <$> l)) s.(db).(rooms).(conv_members)).
Proof.
  intros Hf. revert s. induction l as [|y l IH]; intros s H; simpl in H.
  - run H. apply conv_only_refl; [done..|]. apply adds_nil.
  - run H. eapply conv_only_trans; [by eapply Hf|]. simpl. intros Hd.
    apply IH in H. destruct H as (Hl & m' & Hr & Hm). split; [done|]. exists m'. split; [done|].
    by eapply adds_trans.
Qed.

Lemma for_each_frame {A} (f : A -> Tx unit) (I : Store -> Prop) l s x s' :
  (forall y s u s', y ∈ l -> I s -> f y s = (Ok u, s') -> I s') -> I s ->
  for_each l f s = (Ok x, s') -> I s'.
Proof.
  revert s. induction l as [|y l IH]; intros s Hf Hs H; simpl in H; run H; [done|].
  eapply IH; [| |exact H]; [intros; eapply Hf; eauto using list_elem_of_further|].
  eapply Hf; eauto using list_elem_of_here.
Qed.

(** A checked limit changes nothing and bounds the count. *)
Lemma checkMembers_ok cur add s x s' :
  checkMembers cur add s = (Ok x, s') -> s' = s /\ cur + add <= s.(limits).(ConversationMembers).
Proof. unfold checkMembers. intros H. run H. destruct (_ <? _) eqn:E; run H. bool_to_prop. done. Qed.

Lemma checkOwn_ok a add s x s' :
  checkOwnConversations a add s = (Ok x, s') ->
  s' = s /\ account_conversations s.(db) a + add <= s.(limits).(ConversationsPerAccount).
Proof. unfold checkOwnConversations. intros H. run H. destruct (_ <? _) eqn:E; run H. bool_to_prop. done. Qed.

Lemma checkOther_ok a add s x s' :
  checkOtherConversations a add s = (Ok x, s') ->
  s' = s /\ account_conversations s.(db) a + add <= s.(limits).(ConversationsPerAccount).
Proof. unfold checkOtherConversations. intros H. run H. destruct (_ <? _) eqn:E; run H. bool_to_prop. done. Qed.

Lemma check_each_ok {A} (f : A -> Tx unit) (P : Store -> A -> Prop) l s x s' :
  (forall y s u s', f y s = (Ok u, s') -> s' = s /\ P s y) ->
  for_each l f s = (Ok x, s') -> s' = s /\ forall y, y ∈ l -> P s y.
Proof.
  intros Hf. revert s. induction l as [|y l IH]; intros s H; simpl in H; run H.
  - split; [done|]. intros y Hy%not_elem_of_nil. done.
  - apply Hf in Hrun as [-> HP]. apply IH in H as [-> Hl]. split; [done|].
    intros z [->|Hz]%elem_of_cons; auto.
Qed.
