(* ===== verification/Memberships.v ===== *)
(** * Membership invariants

    What holds of the membership tables in every state the operations of
    [Conversations] can reach: the admission limits, referential integrity,
    and that a channel conversation has exactly the members of its
    community; and what each role change may do. *)

From S2P Require Import Prelude GoStrings Domain Admission Database Conversations.
From stdpp Require Import base numbers list strings gmap fin_maps sorting.
From Stdlib Require Import ZArith ZifyBool Lia.
Open Scope Z_scope.

(** ** Errors leave the database alone *)

Definition keeps_limits {A} (m : Tx A) : Prop := forall s, (m s).2.(limits) = s.(limits).
Definition read_only {A} (m : Tx A) : Prop := forall s, (m s).2.(db) = s.(db).
Definition rolls_back {A} (m : Tx A) : Prop := forall s e s', m s = (Err e, s') -> s'.(db) = s.(db).

Create HintDb txs.

Section primitives.
Context {A : Type}.
Implicit Types m : Tx A.

Lemma kl_ret (a : A) : keeps_limits (mret a).
Proof. done. Qed.
Lemma kl_throw e : keeps_limits (throw (A := A) e).
Proof. done. Qed.
Lemma kl_read (f : DB -> A) : keeps_limits (read f).
Proof. done. Qed.
Lemma kl_refuse l e : keeps_limits (refuse (A := A) l e).
Proof. done. Qed.
Lemma kl_require (o : option A) e : keeps_limits (require o e).
Proof. by destruct o. Qed.
Lemma kl_transaction m : keeps_limits m -> keeps_limits (transaction m).
Proof. intros H s. specialize (H s). unfold transaction. by destruct (m s) as [[]]. Qed.
Lemma kl_bind {B} m (k : A -> Tx B) : keeps_limits m -> (forall a, keeps_limits (k a)) -> keeps_limits (m ≫= k).
Proof.
  intros Hm Hk s. specialize (Hm s). unfold mbind, Tx_bind. destruct (m s) as [[a|e] s1]; simpl in *; [|done].
  by rewrite Hk.
Qed.

Lemma ro_ret (a : A) : read_only (mret a).
Proof. done. Qed.
Lemma ro_read (f : DB -> A) : read_only (read f).
Proof. done. Qed.
Lemma ro_require (o : option A) e : read_only (require o e).
Proof. by destruct o. Qed.

Lemma rb_transaction m : rolls_back (transaction m).
Proof. intros s e s' H. by apply transaction_err in H as [? _]. Qed.
Lemma rb_ro m : read_only m -> rolls_back m.
Proof. intros H s e s' E. specialize (H s). by rewrite E in H. Qed.
Lemma rb_bind {B} m (k : A -> Tx B) : read_only m -> (forall a, rolls_back (k a)) -> rolls_back (m ≫= k).
Proof.
  intros Hm Hk s e s'. specialize (Hm s). unfold mbind, Tx_bind.
  destruct (m s) as [[a|e'] s1]; simpl in *; [intros H; rewrite <- Hm; by eapply Hk|by intros [= <- <-]].
Qed.
Lemma rb_ok_only m : (forall s e s', m s <> (Err e, s')) -> rolls_back m.
Proof. intros H s e s' E. by edestruct H. Qed.

End primitives.

Lemma kl_guard b e : keeps_limits (guard_tx b e).
Proof. by destruct b. Qed.
Lemma kl_modify f : keeps_limits (modify f).
Proof. done. Qed.
Lemma kl_limits : keeps_limits get_limits.
Proof. done. Qed.
Lemma kl_event row : keeps_limits (insert_event row).
Proof. done. Qed.
Lemma kl_for_each {A} (l : list A) f : (forall x, keeps_limits (f x)) -> keeps_limits (for_each l f).
Proof. intros Hf. induction l; simpl; [apply kl_ret|by apply kl_bind]. Qed.
Lemma ro_guard b e : read_only (guard_tx b e).
Proof. by destruct b. Qed.

#[export] Hint Resolve kl_ret kl_throw kl_read kl_refuse kl_require kl_transaction kl_bind kl_guard
  kl_modify kl_limits kl_event kl_for_each ro_ret ro_read ro_require ro_guard
  rb_transaction rb_ro rb_bind : txs.

(** Structural: follow the program text of an operation. *)
Ltac tx_auto :=
  repeat first
    [ progress intros
    | solve [eauto 2 with txs]
    | apply kl_transaction | apply rb_transaction
    | apply kl_bind | apply rb_bind
    | apply kl_for_each | apply kl_event | apply kl_modify
    | case_match ].

Lemma kl_insert_conv_member cf c a r n : keeps_limits (insert_conv_member cf c a r n).
Proof. unfold insert_conv_member, put_member, on_rooms. tx_auto. Qed.
Lemma kl_insert_comm_member cf c a r n : keeps_limits (insert_comm_member cf c a r n).
Proof. unfold insert_comm_member, put_member, on_rooms. tx_auto. Qed.
Lemma kl_checkMembers x y : keeps_limits (checkMembers x y).
Proof. unfold checkMembers. tx_auto. Qed.
Lemma kl_checkOwn x y : keeps_limits (checkOwnConversations x y).
Proof. unfold checkOwnConversations. tx_auto. Qed.
Lemma kl_checkOther x y : keeps_limits (checkOtherConversations x y).
Proof. unfold checkOtherConversations. tx_auto. Qed.
#[export] Hint Resolve kl_insert_conv_member kl_insert_comm_member kl_checkMembers kl_checkOwn
  kl_checkOther : txs.

(** ** The operations as one step relation *)

(** A request the HTTP layer can make of the membership tables; a channel
    identifier is minted from random bytes. *)
Inductive request :=
| RCreateCommunity (id : string) (now : Z) (name createdBy : string)
| RCreateChannel (channelBytes : list Ascii.ascii) (conversationID : string) (now : Z) (communityID name kind createdBy : string)
| RManageCommunity (now : Z) (communityID actor target role : string)
| RCreateConversation (id : string) (now : Z) (input : CreateConversationInput)
| RManageMember (now : Z) (conversationID actor target role : string)
| RRemoveMember (now : Z) (conversationID actor target : string)
| RRetention (now : Z) (conversationID by_ : string) (retention : option Z) (eventType : string)
| RPosting (now : Z) (conversationID by_ policy : string).

Definition discard {A} (m : Tx A) : Tx unit := m ≫= fun _ => mret tt.

Definition serve (r : request) : Tx unit :=
  match r with
  | RCreateCommunity id now name by_ => discard (CreateCommunity id now name by_)
  | RCreateChannel b c now k name kind by_ =>
      discard (CreateChannelWithConversation (NewID "chan" b) c now k name kind by_)
  | RManageCommunity now k a t role => discard (ManageCommunityMember now k a t role)
  | RCreateConversation id now input => discard (CreateOrGetConversation id now input)
  | RManageMember now c a t role => discard (ManageConversationMember now c a t role)
  | RRemoveMember now c a t => discard (RemoveConversationMember now c a t)
  | RRetention now c by_ r ty => discard (updateConversationRetention now c by_ r ty)
  | RPosting now c by_ p => discard (SetConversationPostingPolicy now c by_ p)
  end.

(** [a]'s rows leave both membership tables: what deleting an account does
    to them. *)
Definition drop_account (a : string) (r : Rooms) : Rooms :=
  upd_conv_members (filter (fun kv => kv.1.2 <> a)) (upd_comm_members (filter (fun kv => kv.1.2 <> a)) r).

Inductive room_step : Store -> Store -> Prop :=
| rs_serve r s : room_step s (serve r s).2
| rs_account_deleted a s s' :
    s'.(limits) = s.(limits) -> s'.(db).(rooms) = drop_account a s.(db).(rooms) -> room_step s s'
| rs_elsewhere s s' :
    s'.(limits) = s.(limits) ->
    s'.(db).(rooms).(conversations) = s.(db).(rooms).(conversations) ->
    s'.(db).(rooms).(conv_members) = s.(db).(rooms).(conv_members) ->
    s'.(db).(rooms).(comm_members) = s.(db).(rooms).(comm_members) ->
    s'.(db).(rooms).(channels) = s.(db).(rooms).(channels) ->
    s'.(db).(rooms).(communities) = s.(db).(rooms).(communities) ->
    room_step s s'.

(** ** The invariant *)

Record rooms_inv (l : Limits) (r : Rooms) : Prop := {
  inv_conv_cap : forall c, card (scope c (dom r.(conv_members))) <= l.(ConversationMembers);
  inv_acct_cap : forall a, card (of_account a (dom r.(conv_members))) <= l.(ConversationsPerAccount);
  inv_comm_cap : forall k, card (scope k (dom r.(comm_members))) <= l.(ConversationMembers);
  inv_conv_ref : forall c a, (c, a) ∈ dom r.(conv_members) -> is_Some (r.(conversations) !! c);
  inv_comm_ref : forall k a, (k, a) ∈ dom r.(comm_members) -> is_Some (r.(communities) !! k);
  inv_conv_comm : forall c cv k, r.(conversations) !! c = Some cv -> cv.(cv_community_id) = Some k ->
    is_Some (r.(communities) !! k);
  inv_channel : forall c cv, r.(conversations) !! c = Some cv -> cv.(cv_kind) = "community_channel"%string ->
    exists k, cv.(cv_community_id) = Some k /\
      forall a, (c, a) ∈ dom r.(conv_members) <-> (k, a) ∈ dom r.(comm_members);
  inv_taken : forall ch, is_Some (r.(channels) !! ch) ->
    nullableString (Some ch) = Some ch /\
    exists c cv, r.(conversations) !! c = Some cv /\ cv.(cv_channel_id) = Some ch }.

Definition limits_ok (l : Limits) : Prop :=
  1 <= l.(ConversationMembers) /\ 1 <= l.(ConversationsPerAccount).

Lemma channel_taken_true m ch :
  channel_taken m (Some ch) = true <-> exists c cv, m !! c = Some cv /\ cv.(cv_channel_id) = Some ch.
Proof.
  unfold channel_taken. rewrite existsb_exists. split.
  - intros ([c cv] & Hin & Hb). apply list_elem_of_In, elem_of_map_to_list in Hin. bool_to_prop. eauto.
  - intros (c & cv & Hin & Hb). exists (c, cv). split; [by apply list_elem_of_In, elem_of_map_to_list|].
    by apply bool_decide_eq_true.
Qed.

Lemma elem_of_channel_conversations d k c :
  c ∈ channel_conversations d k <->
  exists cv, d.(rooms).(conversations) !! c = Some cv /\ cv.(cv_kind) = "community_channel"%string /\
             cv.(cv_community_id) = Some k.
Proof.
  unfold channel_conversations. rewrite list_elem_of_omap. split.
  - intros ([c' cv] & Hin%elem_of_map_to_list & Heq). destruct (_ && _) eqn:E; [|done].
    injection Heq as ->. apply andb_prop in E as [E1 E2]. apply str_eqb_true in E1. bool_to_prop. eauto.
  - intros (cv & Hin & Hk & Hc). exists (c, cv). split; [by apply elem_of_map_to_list|].
    by rewrite Hk, Hc, str_eqb_refl, bool_decide_true.
Qed.

Lemma NoDup_channel_conversations d k : NoDup (channel_conversations d k).
Proof.
  apply NoDup_omap_inj; [|apply NoDup_map_to_list].
  intros [c1 cv1] [c2 cv2] c H1%elem_of_map_to_list H2%elem_of_map_to_list.
  destruct (_ && _); [|done]. destruct (_ && _); [|done]. congruence.
Qed.

Lemma foldr_max_ge l x : x ∈ l -> x <= foldr Z.max 0 l.
Proof. induction 1; simpl; lia. Qed.

Lemma largestChannel_ge d k c :
  c ∈ channel_conversations d k -> conversationMemberCount d c <= largestChannel d k.
Proof. intros H. apply foldr_max_ge. by apply list_elem_of_fmap_2. Qed.

(** ** Preservation *)

Lemma insert_comm_member_dom cf k a role now s x s' :
  insert_comm_member cf k a role now s = (Ok x, s') ->
  s'.(limits) = s.(limits) /\
  ((k, a) ∈ dom s.(db).(rooms).(comm_members) \/ is_Some (s.(db).(rooms).(communities) !! k)) /\
  exists m', s'.(db).(rooms) = upd_comm_members (fun _ => m') s.(db).(rooms) /\
    dom m' = {[(k, a)]} ∪ dom s.(db).(rooms).(comm_members).
Proof.
  unfold insert_comm_member, put_member. intros H. run H.
  destruct (comm_members (rooms (db s)) !! (k, a)) as [row|] eqn:E.
  - assert ((k, a) ∈ dom (comm_members (rooms (db s)))) as Hin by (apply elem_of_dom; eauto).
    destruct cf; run H; try done; (split_and!; [done|by left|]).
    + exists (comm_members (rooms (db s))). split; [by destruct (rooms (db s))|set_solver].
    + eexists. split; [done|]. apply dom_insert_L.
  - run H. bool_to_prop. unfold exists_in in *. bool_to_prop. split_and!; [done|by right|].
    eexists. split; [done|]. apply dom_insert_L.
Qed.

(** The scope of a new key holds no row before it is added. *)
Lemma scope_fresh (c : string) (D : gset (string * string)) : (forall a, (c, a) ∉ D) -> scope c D = ∅.
Proof. intros H. apply set_eq. intros [c' a]. rewrite elem_of_scope. simpl. set_solver. Qed.

Lemma card_singleton k : card {[k]} = 1.
Proof. unfold card. by rewrite size_singleton. Qed.

Lemma card_empty : card ∅ = 0.
Proof. unfold card. by rewrite size_empty. Qed.

(** The loop body of the two creating operations: a row and its event. *)
Lemma member_and_event cf c a role now ev s u s' :
  (insert_conv_member cf c a role now ≫= fun _ => insert_event ev ≫= fun _ => mret tt) s = (Ok u, s') ->
  conv_only s s' (adds {[(c, a)]} s.(db).(rooms).(conv_members)).
Proof.
  intros H. run H. apply insert_event_frame in Hrun0 as [Hr Hl].
  apply conv_only_adds in Hrun as (Hl' & m' & Hr' & Hd).
  split; [congruence|]. exists m'. split; [congruence|done].
Qed.

(** Adding the keys [N], all of the new conversation [c]: the limits. *)
Lemma conv_cap_new (D N : gset (string * string)) (c c' : string) (M : Z) :
  (forall a, (c, a) ∉ D) -> (forall k, k ∈ N -> k.1 = c) -> card N <= M -> card (scope c' D) <= M ->
  card (scope c' (N ∪ D)) <= M.
Proof.
  intros Hfresh HN Hcard Hold. rewrite scope_union. destruct (decide (c' = c)) as [->|Hne].
  - rewrite (scope_fresh c D Hfresh), union_empty_r_L.
    etrans; [apply (card_mono _ N)|done]. intros ?; rewrite elem_of_scope; tauto.
  - replace (scope c' N) with (∅ : gset (string * string)); [by rewrite union_empty_l_L|].
    apply set_eq. intros k. rewrite elem_of_scope. split; [done|]. intros [<- Hk]. by destruct Hne; apply HN.
Qed.

Lemma acct_cap_new (D N : gset (string * string)) (c a : string) (M : Z) :
  (forall k, k ∈ N -> k.1 = c) -> card (of_account a D) <= M ->
  ((c, a) ∈ N -> card (of_account a D) + 1 <= M) -> card (of_account a (N ∪ D)) <= M.
Proof.
  intros HN Hold Hnew. rewrite of_account_union.
  assert (of_account a N ⊆ {[(c, a)]}) as Hsub.
  { intros [c' a']. rewrite elem_of_of_account. simpl. intros [-> Hk].
    pose proof (HN _ Hk) as Hc. simpl in Hc. subst. set_solver. }
  destruct (decide ((c, a) ∈ N)) as [Hin|Hout].
  - pose proof (card_union_le (of_account a N) (of_account a D)).
    pose proof (card_mono _ _ Hsub). rewrite card_singleton in *. specialize (Hnew Hin). lia.
  - replace (of_account a N) with (∅ : gset (string * string)); [by rewrite union_empty_l_L|].
    apply set_eq. intros k. split; [done|]. intros Hk. pose proof (Hsub k Hk) as ->%elem_of_singleton.
    apply elem_of_of_account in Hk as [_ ?]. done.
Qed.

Lemma card_list_to_set {A} (f : A -> string * string) (l : list A) :
  card (list_to_set (f <$> l)) <= len l.
Proof.
  induction l as [|x l IH]; simpl; [rewrite card_empty; unfold len; simpl; lia|].
  pose proof (card_union_le {[f x]} (list_to_set (f <$> l))) as Hu. rewrite card_singleton in Hu.
  unfold len in *. cbn [length]. unfold fmap in *. lia.
Qed.

(** A new conversation [c] with the members [N] keeps the invariant. *)
Lemma inv_new_conversation (l : Limits) (r : Rooms) (chs : gmap string Channel) (c : string)
    (cv : ConversationRow) (N : gset (string * string)) (m' : gmap (string * string) MemberRow) :
  rooms_inv l r -> r.(conversations) !! c = None ->
  dom m' = N ∪ dom r.(conv_members) -> (forall k, k ∈ N -> k.1 = c) -> card N <= l.(ConversationMembers) ->
  (forall a, (c, a) ∈ N -> card (of_account a (dom r.(conv_members))) + 1 <= l.(ConversationsPerAccount)) ->
  (forall k, cv.(cv_community_id) = Some k -> is_Some (r.(communities) !! k)) ->
  (cv.(cv_kind) = "community_channel"%string ->
   exists k, cv.(cv_community_id) = Some k /\ forall a, (c, a) ∈ N <-> (k, a) ∈ dom r.(comm_members)) ->
  (forall ch, is_Some (chs !! ch) -> is_Some (r.(channels) !! ch) \/
     cv.(cv_channel_id) = Some ch /\ nullableString (Some ch) = Some ch) ->
  rooms_inv l (upd_conv_members (fun _ => m') (upd_conversations (insert c cv) (upd_channels (fun _ => chs) r))).
Proof.
  intros Hinv Hc Hm HN Hcard Hacct Hcomm Hchan Hchs.
  assert (forall a, (c, a) ∉ dom r.(conv_members)) as Hfresh.
  { intros a Hin. destruct (inv_conv_ref _ _ Hinv c a Hin) as [? E]. congruence. }
  constructor; simpl; try apply Hinv; rewrite ?Hm.
  - intros c'. by apply (conv_cap_new _ _ c); try apply Hinv.
  - intros a. apply (acct_cap_new _ _ c); [done|apply Hinv|apply Hacct].
  - intros c' a. rewrite elem_of_union. rewrite lookup_insert_is_Some'. intros [Hin|Hin].
    + left. symmetry. by apply (HN (c', a)).
    + right. by apply (inv_conv_ref _ _ Hinv c' a).
  - intros c' cv' k. rewrite lookup_insert_Some. intros [[<- <-]|[_ H]] Hk; [auto|].
    by apply (inv_conv_comm _ _ Hinv c' cv').
  - intros c' cv'. rewrite lookup_insert_Some. intros [[<- <-]|[Hne H]] Hk.
    + destruct (Hchan Hk) as (k & Hk' & Hiff). exists k. split; [done|]. intros a.
      rewrite elem_of_union, <- Hiff. specialize (Hfresh a). tauto.
    + destruct (inv_channel _ _ Hinv c' cv' H Hk) as (k & Hk' & Hiff). exists k. split; [done|].
      intros a. rewrite elem_of_union, <- Hiff. split; [|by right]. intros [Hin|]; [|done].
      by destruct Hne; symmetry; apply (HN _ Hin).
  - intros ch Hch. destruct (Hchs ch Hch) as [Hold|[Hnew Htrim]].
    + destruct (inv_taken _ _ Hinv ch Hold) as (Htrim & c' & cv' & Hc' & Hch'). split; [done|]. exists c', cv'.
      split; [|done]. rewrite lookup_insert_ne; [done|congruence].
    + split; [done|]. exists c, cv. by rewrite lookup_insert_eq.
Qed.

Lemma inv_ext (l : Limits) (r r' : Rooms) :
  r'.(conversations) = r.(conversations) -> dom r'.(conv_members) = dom r.(conv_members) ->
  dom r'.(comm_members) = dom r.(comm_members) -> r'.(channels) = r.(channels) ->
  r'.(communities) = r.(communities) -> rooms_inv l r -> rooms_inv l r'.
Proof. intros E1 E2 E3 E4 E5 [? ? ? ? ? ? ? ?]. constructor; rewrite ?E1, ?E2, ?E3, ?E4, ?E5; done. Qed.

Lemma join_channels_ok now k a role l s x s' :
  join_channels now k a role l s = (Ok x, s') ->
  conv_only s s' (adds (list_to_set ((fun c => (c, a)) <$> l)) s.(db).(rooms).(conv_members)).
Proof.
  revert s x. induction l as [|c l IH]; intros s x H; simpl in H.
  - run H. apply conv_only_refl; [done..|]. apply adds_nil.
  - run H. apply IH in Hrun1. apply insert_event_frame in Hrun0 as [Hr0 Hl0].
    apply conv_only_adds in Hrun as (Hl1 & m1 & Hr1 & Hd1).
    destruct Hrun1 as (Hl2 & m2 & Hr2 & Hd2). split; [congruence|].
    exists m2. rewrite Hr2, Hr0, Hr1. split; [done|]. rewrite Hr0, Hr1 in Hd2. by eapply adds_trans.
Qed.

(** In the scope [c] at most one key is new, or none. *)
Lemma scope_add (c : string) (D : gset (string * string)) (k : string * string) (N : gset (string * string)) :
  (forall x, x ∈ N -> x.1 = c -> x = k) -> card (scope c (N ∪ D)) <= card (scope c D) + 1.
Proof.
  intros HN. rewrite scope_union. pose proof (card_union_le (scope c N) (scope c D)).
  enough (card (scope c N) <= card {[k]}) by (rewrite card_singleton in *; lia).
  apply card_mono. intros x. rewrite elem_of_scope, elem_of_singleton. intros [? ?]. auto.
Qed.

Lemma scope_none (c : string) (D N : gset (string * string)) :
  (forall a, (c, a) ∉ N) -> scope c (N ∪ D) = scope c D.
Proof. intros HN. by rewrite scope_union, (scope_fresh c N HN), union_empty_l_L. Qed.

(** A new community member [t] joins the community and all its channels. *)
Lemma inv_new_community_member (l : Limits) (r : Rooms) (k t : string) (chs : list string)
    (mc mk : gmap (string * string) MemberRow) :
  rooms_inv l r -> (k, t) ∉ dom r.(comm_members) -> is_Some (r.(communities) !! k) ->
  (forall c, c ∈ chs <-> exists cv, r.(conversations) !! c = Some cv /\
     cv.(cv_kind) = "community_channel"%string /\ cv.(cv_community_id) = Some k) ->
  card (scope k (dom r.(comm_members))) + 1 <= l.(ConversationMembers) ->
  (forall c, c ∈ chs -> card (scope c (dom r.(conv_members))) + 1 <= l.(ConversationMembers)) ->
  card (of_account t (dom r.(conv_members))) + len chs <= l.(ConversationsPerAccount) ->
  dom mk = {[(k, t)]} ∪ dom r.(comm_members) ->
  dom mc = list_to_set ((fun c => (c, t)) <$> chs) ∪ dom r.(conv_members) ->
  rooms_inv l (upd_conv_members (fun _ => mc) (upd_comm_members (fun _ => mk) r)).
Proof.
  intros Hinv Hnew Hk Hchs Hcap1 Hcap2 Hcap3 Hmk Hmc.
  pose proof (card_list_to_set (fun c => (c, t)) chs) as HcN.
  assert (forall c a, (c, a) ∈ (list_to_set ((fun c => (c, t)) <$> chs) : gset (string * string)) <->
                      c ∈ chs /\ a = t) as HN.
  { intros c a. rewrite elem_of_list_to_set, list_elem_of_fmap. naive_solver. }
  revert HcN HN Hmc. generalize (list_to_set ((fun c => (c, t)) <$> chs) : gset (string * string)) as N.
  intros N HcN HN Hmc. constructor; simpl; try apply Hinv; rewrite ?Hmc, ?Hmk.
  - intros c. destruct (decide (c ∈ chs)) as [Hin|Hout].
    + specialize (Hcap2 c Hin). pose proof (scope_add c (dom r.(conv_members)) (c, t) N) as Hs.
      enough (forall x, x ∈ N -> x.1 = c -> x = (c, t)) as Hx by (specialize (Hs Hx); lia).
      intros [c' a]. rewrite HN. naive_solver.
    + rewrite scope_none; [apply Hinv|]. by intros a [? _]%HN.
  - intros a. rewrite of_account_union. destruct (decide (a = t)) as [->|Hne].
    + pose proof (card_union_le (of_account t N) (of_account t (dom r.(conv_members)))).
      enough (card (of_account t N) <= card N) by lia. apply card_mono. intros ?. rewrite elem_of_of_account. tauto.
    + replace (of_account a N) with (∅ : gset (string * string)); [rewrite union_empty_l_L; apply Hinv|].
      apply set_eq. intros [c' b]. rewrite elem_of_of_account, HN. simpl. split; [done|]. by intros [-> [_ ?]].
  - intros k'. destruct (decide (k' = k)) as [->|Hne].
    + pose proof (scope_add k (dom r.(comm_members)) (k, t) {[(k, t)]} ltac:(set_solver)). lia.
    + rewrite scope_none; [apply Hinv|]. set_solver.
  - intros c a. rewrite elem_of_union, HN. intros [[Hin _]|Hin]; [|by apply (inv_conv_ref _ _ Hinv c a)].
    apply Hchs in Hin as (cv & -> & _). eauto.
  - intros k' a. rewrite elem_of_union, elem_of_singleton.
    intros [[= -> _]|Hin]; [done|by apply (inv_comm_ref _ _ Hinv k' a)].
  - intros c cv Hc Hkind. destruct (inv_channel _ _ Hinv c cv Hc Hkind) as (k' & Hk' & Hiff).
    exists k'. split; [done|]. intros a. rewrite !elem_of_union, HN, Hiff, elem_of_singleton.
    assert (c ∈ chs <-> k' = k) as Hin.
    { rewrite Hchs. split; [intros (cv' & Hc' & _ & Hcv'); congruence|]. intros ->. eauto. }
    rewrite Hin, pair_equal_spec. tauto.
Qed.

(** One more member in a conversation that is not a channel. *)
Lemma inv_add_member (l : Limits) (r : Rooms) (c t : string) (cv : ConversationRow)
    (m' : gmap (string * string) MemberRow) :
  rooms_inv l r -> r.(conversations) !! c = Some cv -> cv.(cv_kind) <> "community_channel"%string ->
  card (scope c (dom r.(conv_members))) + 1 <= l.(ConversationMembers) ->
  card (of_account t (dom r.(conv_members))) + 1 <= l.(ConversationsPerAccount) ->
  dom m' = {[(c, t)]} ∪ dom r.(conv_members) -> rooms_inv l (upd_conv_members (fun _ => m') r).
Proof.
  intros Hinv Hc Hkind Hcap Hacct Hm. constructor; simpl; try apply Hinv; rewrite ?Hm.
  - intros c'. destruct (decide (c' = c)) as [->|Hne].
    + pose proof (scope_add c (dom r.(conv_members)) (c, t) {[(c, t)]} ltac:(set_solver)). lia.
    + rewrite scope_none; [apply Hinv|set_solver].
  - intros a. apply (acct_cap_new _ _ c); [set_solver|apply Hinv|].
    intros [= ->]%elem_of_singleton. done.
  - intros c' a. rewrite elem_of_union, elem_of_singleton.
    intros [[= -> _]|Hin]; [by rewrite Hc|by apply (inv_conv_ref _ _ Hinv c' a)].
  - intros c' cv' Hc' Hk. destruct (inv_channel _ _ Hinv c' cv' Hc' Hk) as (k & Hk' & Hiff).
    exists k. split; [done|]. intros a. rewrite elem_of_union, Hiff, elem_of_singleton.
    split; [intros [[= -> _]|?]; [congruence|done]|by right].
Qed.

(** What creating a conversation checks and writes. *)
Record created (s s' : Store) (id : string) (cv : ConversationRow) (by_ : string) (members : list string) : Prop := {
  cr_limits : s'.(limits) = s.(limits);
  cr_new : s.(db).(rooms).(conversations) !! id = None;
  cr_comm : ref_ok s.(db).(rooms).(communities) cv.(cv_community_id) = true;
  cr_chan : ref_ok s.(db).(rooms).(channels) cv.(cv_channel_id) = true;
  cr_free : channel_taken s.(db).(rooms).(conversations) cv.(cv_channel_id) = false;
  cr_size : 1 + len members <= s.(limits).(ConversationMembers);
  cr_room : forall a, a = by_ \/ a ∈ members ->
    card (of_account a (dom s.(db).(rooms).(conv_members))) + 1 <= s.(limits).(ConversationsPerAccount);
  cr_tables : exists m' dmp,
    s'.(db).(rooms) = upd_dm_pairs (fun _ => dmp)
      (upd_conv_members (fun _ => m') (upd_conversations (insert id cv) s.(db).(rooms))) /\
    adds ({[(id, by_)]} ∪ list_to_set ((fun a => (id, a)) <$> members)) s.(db).(rooms).(conv_members) m' /\
    (by_ ∉ members -> mb_role <$> m' !! (id, by_) = Some RoleOwner) /\
    dmp = if cv.(cv_kind) =s? "dm"
          then <[dmAccountPair by_ (default ""%string (members !! 0%nat)) := id]> s.(db).(rooms).(dm_pairs)
          else s.(db).(rooms).(dm_pairs) }.

Lemma insert_conversation_ok id cv s x s' :
  insert_conversation id cv s = (Ok x, s') ->
  s' = with_db s (upd_rooms (upd_conversations (insert id cv)) s.(db)) /\
  s.(db).(rooms).(conversations) !! id = None /\
  ref_ok s.(db).(rooms).(communities) cv.(cv_community_id) = true /\
  ref_ok s.(db).(rooms).(channels) cv.(cv_channel_id) = true /\
  channel_taken s.(db).(rooms).(conversations) cv.(cv_channel_id) = false.
Proof.
  unfold insert_conversation. intros H. run H. bool_to_prop. split_and!; try done.
  unfold exists_in in *. bool_to_prop. by apply eq_None_not_Some.
Qed.

Lemma insert_dm_pair_ok low high id s x s' :
  insert_dm_pair low high id s = (Ok x, s') ->
  s.(db).(rooms).(dm_pairs) !! (low, high) = None /\ String.ltb low high = true /\
  s' = with_db s (upd_rooms (upd_dm_pairs (insert (low, high) id)) s.(db)).
Proof.
  unfold insert_dm_pair. intros H. run H. destruct (_ !! _) eqn:E; run H. bool_to_prop. done.
Qed.

Lemma create_conversation_ok id now kind title k ch by_ ret members s x s' :
  create_conversation id now kind title k ch by_ ret members s = (Ok x, s') ->
  created s s' id (mkConversationRow kind (nullableString title) (nullableString k) (nullableString ch)
                     by_ ret now "everyone") by_ members.
Proof.
  unfold create_conversation. intros H. run H.
  apply checkMembers_ok in Hrun as [-> Hsize]. apply checkOwn_ok in Hrun0 as [-> Hown].
  apply (check_each_ok _ (fun s a =>
    account_conversations s.(db) a + 1 <= s.(limits).(ConversationsPerAccount))) in Hrun1 as [-> Hother];
    [|intros; by eapply checkOther_ok].
  apply insert_conversation_ok in Hrun2 as (-> & Hnew & Hk & Hch & Hfree).
  pose proof Hrun3 as (_ & _ & Hfresh & _ & _ & m3' & Hr3' & Hm3')%insert_conv_member_ok.
  apply conv_only_adds in Hrun3 as (Hl3 & m3 & Hr3 & Hd3). simpl in *.
  apply (for_each_members (fun a => (id, a))) in Hrun4 as (Hl4 & m4 & Hr4 & Hd4);
    [|intros; by eapply member_and_event].
  rewrite Hr3 in Hr4, Hd4. simpl in *. pose proof (adds_trans _ _ _ _ _ Hd3 Hd4) as Hd.
  unfold account_conversations in *. rewrite scopes_of_card in *. setoid_rewrite scopes_of_card in Hother.
  assert (exists dmp, s6.(db).(rooms) = upd_dm_pairs (fun _ => dmp) s5.(db).(rooms) /\ s6.(limits) = s5.(limits) /\
    dmp = if kind =s? "dm" then <[dmAccountPair by_ (default ""%string (members !! 0%nat)) := id]> s5.(db).(rooms).(dm_pairs)
          else s5.(db).(rooms).(dm_pairs)) as (dmp & Hr5 & Hl5 & Hdm).
  { destruct (kind =s? "dm").
    - destruct (dmAccountPair _ _). apply insert_dm_pair_ok in Hrun5 as (_ & _ & ->). by eexists.
    - run Hrun5. exists (dm_pairs (rooms (db s5))). split; [by destruct (rooms (db s5))|done]. }
  constructor; simpl; try done; [congruence|intros u [->|Hu]; [done|by apply Hother]|].
  exists m4, dmp. rewrite Hr5, Hr4. split; [done|]. split; [done|]. split; [|by rewrite Hdm, Hr4].
  intros Hby. rewrite (proj2 Hd4).
  - rewrite Hr3 in Hr3'. assert (m3 = m3') as -> by (by injection Hr3'). rewrite Hm3', (Hfresh eq_refl), lookup_insert_eq. done.
  - rewrite elem_of_list_to_set, list_elem_of_fmap. intros (u & [= ->] & Hu). done.
Qed.

(** What a successful removal checked and wrote. *)
Lemma RemoveConversationMember_ok now c a t s x s' :
  RemoveConversationMember now c a t s = (Ok x, s') ->
  exists actorRole targetRole cv,
    member_role s.(db) c a = Some actorRole /\ member_role s.(db) c t = Some targetRole /\
    s.(db).(rooms).(conversations) !! c = Some cv /\ cv.(cv_kind) = "group"%string /\
    (if a =s? t then negb ((targetRole =s? RoleOwner) && (owners s.(db) c <=? 1))
     else CanManageMembers actorRole && (RoleRank targetRole <? RoleRank actorRole)) = true /\
    s'.(limits) = s.(limits) /\
    s'.(db).(rooms) = upd_mutes (delete (t, c)) (upd_conv_members (delete (c, t)) s.(db).(rooms)) /\
    s'.(db).(content) = upd_read_receipts (delete (t, c)) (upd_delivery_receipts (delete (t, c)) s.(db).(content)).
Proof.
  intros H. unfold RemoveConversationMember in H. run H.
  apply str_eqb_true in Hrun1.
  repeat match goal with Hi : insertSyncEvent _ _ _ _ _ _ = _ |- _ =>
    apply insert_event_ok in Hi as [_ ->] end.
  exists a0, a3, a1. split_and!; try done.
  - by destruct (a =s? t); run Hrun3.
  - by destruct (a =s? t); run Hrun3.
  - by destruct (a =s? t); run Hrun3.
  - by destruct (a =s? t); run Hrun3.
Qed.

(** Removing a member of a group keeps the invariant. *)
Lemma inv_remove (l : Limits) (r r' : Rooms) (D' : gset (string * string)) (K' : gset (string * string)) :
  rooms_inv l r -> r'.(conversations) = r.(conversations) -> r'.(channels) = r.(channels) ->
  r'.(communities) = r.(communities) ->
  dom r'.(conv_members) = D' -> dom r'.(comm_members) = K' ->
  D' ⊆ dom r.(conv_members) -> K' ⊆ dom r.(comm_members) ->
  (forall c cv k, r.(conversations) !! c = Some cv -> cv.(cv_kind) = "community_channel"%string ->
     cv.(cv_community_id) = Some k ->
     (forall a, (c, a) ∈ dom r.(conv_members) <-> (k, a) ∈ dom r.(comm_members)) ->
     forall a, (c, a) ∈ D' <-> (k, a) ∈ K') ->
  rooms_inv l r'.
Proof.
  intros Hinv E1 E2 E3 E4 E5 HD HK Hch. constructor; rewrite ?E1, ?E2, ?E3, ?E4, ?E5; try apply Hinv.
  - intros c. etrans; [|apply (inv_conv_cap _ _ Hinv c)]. apply card_mono. intros k. rewrite !elem_of_scope. set_solver.
  - intros c. etrans; [|apply (inv_acct_cap _ _ Hinv c)]. apply card_mono. intros k. rewrite !elem_of_of_account. set_solver.
  - intros c. etrans; [|apply (inv_comm_cap _ _ Hinv c)]. apply card_mono. intros k. rewrite !elem_of_scope. set_solver.
  - intros c a Hin. apply (inv_conv_ref _ _ Hinv c a). set_solver.
  - intros c a Hin. apply (inv_comm_ref _ _ Hinv c a). set_solver.
  - intros c cv Hc Hk. destruct (inv_channel _ _ Hinv c cv Hc Hk) as (k & Hk' & Hiff). exists k. eauto.
Qed.

(** A successful call found the pair's conversation and changed nothing, or
    created one. *)
Definition dm_key (input : CreateConversationInput) (members : list string) : string * string :=
  dmAccountPair (in_CreatedBy input) (default ""%string (members !! 0%nat)).

Inductive got (id : string) (now : Z) (input : CreateConversationInput) (s s' : Store) (x : Conversation * bool) : Prop :=
| got_existing members cid cv :
    normalize_members [in_CreatedBy input] (in_MemberAccountIDs input) = Some members ->
    in_Kind input = "dm"%string -> s.(db).(rooms).(dm_pairs) !! dm_key input members = Some cid ->
    s.(db).(rooms).(conversations) !! cid = Some cv -> s' = s -> x = (scanConversation cid cv, false) ->
    got id now input s s' x
| got_created members title :
    normalize_members [in_CreatedBy input] (in_MemberAccountIDs input) = Some members ->
    kind_shape_ok (in_Kind input) title (in_CommunityID input) (in_ChannelID input) members = true ->
    (in_Kind input = "community_channel"%string ->
       exists ch, in_ChannelID input = Some ch /\ is_Some (s.(db).(rooms).(channels) !! ch)) ->
    (in_Kind input = "dm"%string -> s.(db).(rooms).(dm_pairs) !! dm_key input members = None) ->
    (forall a, a ∈ members -> blocked_either s.(db) (in_CreatedBy input) a = false /\ account_active s.(db) a = true) ->
    x.1.(conv_ID) = id -> x.2 = true ->
    created s s' id (mkConversationRow (in_Kind input) (nullableString title) (nullableString (in_CommunityID input))
      (nullableString (in_ChannelID input)) (in_CreatedBy input) (in_RetentionSeconds input) now "everyone")
      (in_CreatedBy input) members ->
    got id now input s s' x.

Lemma CreateOrGetConversation_ok id now input s x s' :
  CreateOrGetConversation id now input s = (Ok x, s') -> got id now input s s' x.
Proof.
  intros H. unfold CreateOrGetConversation in H. run H.
  assert (s0 = s /\ (in_Kind input = "community_channel"%string ->
    exists ch, in_ChannelID input = Some ch /\ is_Some (channels (rooms (db s)) !! ch))) as [-> Hch].
  { unfold kind_shape_ok in Hrun2. destruct (in_Kind input =s? "community_channel") eqn:Ek.
    - apply str_eqb_true in Ek. rewrite Ek in Hrun2. simpl in Hrun2. bool_to_prop.
      destruct (in_CommunityID input) as [k|]; [|done]. destruct (in_ChannelID input) as [ch|]; [|done].
      unfold validate_channel in Hrun3. run Hrun3. split; [done|]. eauto.
    - run Hrun3. split; [done|]. intros Hk. by rewrite Hk, str_eqb_refl in Ek. }
  apply (check_each_ok _ (fun s' b => blocked_either s.(db) (in_CreatedBy input) b = false /\
    account_active s.(db) b = true)) in Hrun4 as [-> Hblk]; cycle 1.
  { intros b t1 u t2 E. unfold validate_member in E. run E. bool_to_prop.
    destruct (_ =s? _) in E; [destruct (in_CommunityID input)|]; by run E. }
  destruct (in_Kind input =s? "dm") eqn:Edm.
  - apply str_eqb_true in Edm. destruct (dm_pairs _ !! _) as [cid|] eqn:Epair; run H.
    + eapply got_existing; try done.
    + assert (x.1.(conv_ID) = id /\ x.2 = true) as [??].
      { pose proof H as H'. unfold create_conversation in H'. run H'. done. }
      apply create_conversation_ok in H. eapply got_created; try done.
  - assert (x.1.(conv_ID) = id /\ x.2 = true) as [??].
    { pose proof H as H'. unfold create_conversation in H'. run H'. done. }
    apply create_conversation_ok in H. eapply got_created; try done.
    intros E. by rewrite E, str_eqb_refl in Edm.
Qed.

Section preservation.
Context (s s' : Store).
Abbreviation L := s.(limits).
Abbreviation R := s.(db).(rooms).
Abbreviation R' := s'.(db).(rooms).
Hypothesis Hlim : limits_ok L.
Hypothesis Hinv : rooms_inv L R.

Lemma CreateCommunity_inv id now name by_ x :
  CreateCommunity id now name by_ s = (Ok x, s') -> rooms_inv L R'.
Proof.
  intros H. unfold CreateCommunity in H. run H. simpl in *.
  apply insert_comm_member_dom in Hrun0 as (_ & _ & m' & Hr & Hm). simpl in *. rewrite Hr. clear Hr.
  bool_to_prop. unfold exists_in in *. bool_to_prop.
  assert (forall a, (id, a) ∉ dom R.(comm_members)) as Hfresh.
  { intros u Hin. by apply H, (inv_comm_ref _ _ Hinv id u). }
  constructor; simpl; try apply Hinv.
  - intros k. rewrite Hm, scope_union. destruct (decide (k = id)) as [->|Hk].
    + rewrite (scope_fresh id _ Hfresh), union_empty_r_L.
      etrans; [apply (card_mono _ {[(id, by_)]})|rewrite card_singleton; apply Hlim].
      intros ?; rewrite elem_of_scope; set_solver.
    + replace (scope k {[(id, by_)]}) with (∅ : gset (string * string)); [rewrite union_empty_l_L; apply Hinv|].
      apply set_eq. intros [? ?]. rewrite elem_of_scope. set_solver.
  - intros k u. rewrite Hm. rewrite elem_of_union, elem_of_singleton. intros [[= -> ->]|Hin].
    + rewrite lookup_insert_eq. eauto.
    + rewrite lookup_insert_is_Some'. right. by apply (inv_comm_ref _ _ Hinv k u).
  - intros c cv k Hc Hk. rewrite lookup_insert_is_Some'. right. by eapply inv_conv_comm.
  - intros c cv Hc Hkind. destruct (inv_channel _ _ Hinv c cv Hc Hkind) as (k & Hk & Hiff).
    exists k. split; [done|]. intros u. rewrite Hiff, Hm.
    pose proof (inv_conv_comm _ _ Hinv c cv k Hc Hk).
    rewrite elem_of_union, elem_of_singleton. split; [auto|]. by intros [[= -> _]|?].
Qed.

Lemma CreateChannelWithConversation_inv ch c now k name kind by_ x :
  nullableString (Some ch) = Some ch ->
  CreateChannelWithConversation ch c now k name kind by_ s = (Ok x, s') -> rooms_inv L R'.
Proof.
  intros Htrim H. unfold CreateChannelWithConversation in H. run H.
  apply checkMembers_ok in Hrun2 as [-> Hcount].
  apply checkOwn_ok in Hrun3 as [-> Hown].
  apply (check_each_ok _ (fun s y => y.1 = by_ \/
    account_conversations s.(db) y.1 + 1 <= s.(limits).(ConversationsPerAccount))) in Hrun4 as [-> Hother]; cycle 1.
  { intros [b r] t1 u t2 E. destruct (b =s? by_) eqn:Ea; [run E; split; [done|left; by apply str_eqb_true]|].
    apply checkOther_ok in E as [-> ?]. split; [done|]. by right. }
  unfold insert_channel in Hrun5. run Hrun5. unfold insert_conversation in Hrun6. run Hrun6. simpl in *.
  apply (for_each_members (fun y : string * MemberRow => (c, y.1))) in Hrun7 as (_ & m' & Hr & Hm & _); cycle 1.
  { intros [b row] t1 u t2 E. by apply member_and_event in E. }
  simpl in *. rewrite Hr. clear Hr. bool_to_prop. unfold exists_in in *. bool_to_prop.
  unfold account_conversations, communityMemberCount in *.
  rewrite scopes_of_card, ?rows_of_card in *. setoid_rewrite scopes_of_card in Hother.
  eapply (inv_new_conversation _ R _ c); try done; simpl.
  - by apply eq_None_not_Some.
  - intros ? ([b row] & -> & _)%elem_of_list_to_set%list_elem_of_fmap. done.
  - etrans; [apply card_list_to_set|]. rewrite rows_of_card. lia.
  - intros b ([b' row] & [= ->] & Hin)%elem_of_list_to_set%list_elem_of_fmap.
    destruct (Hother _ Hin) as [Hb|Hb]; simpl in Hb; [by subst|done].
  - by intros k' [= <-].
  - intros _. exists k. split; [done|]. intros b. rewrite elem_of_list_to_set, list_elem_of_fmap, elem_of_dom. split.
    + intros ([b' row] & [= ->] & Hin%elem_of_rows_of). eauto.
    + intros [row Hrow]. exists (b, row). split; [done|]. by apply elem_of_rows_of.
  - intros ch'. rewrite lookup_insert_is_Some'. intros [<-|?]; [by right|by left].
Qed.

Lemma ManageCommunityMember_inv now k a t role x :
  ManageCommunityMember now k a t role s = (Ok x, s') -> rooms_inv L R'.
Proof.
  intros H. unfold ManageCommunityMember in H. run H.
  apply insert_comm_member_dom in Hrun5 as (Hl5 & Href & mk & Hr5 & Hmk).
  apply join_channels_ok in H as (Hl & mc & Hr & Hmc & _). rewrite Hr, Hr5. rewrite Hr5 in Hmc. simpl in Hmc. clear Hr Hr5.
  unfold community_role in Hrun4. destruct (comm_members R !! (k, t)) as [row|] eqn:Ek; simpl in Hrun4.
  - run Hrun4. assert ((k, t) ∈ dom (comm_members R)) as Hin by (apply elem_of_dom; eauto).
    apply (inv_ext _ R); simpl; try done; [|rewrite Hmk; set_solver].
    rewrite Hmc. apply subseteq_union_1_L. intros ? (c & -> & Hc)%elem_of_list_to_set%list_elem_of_fmap.
    apply elem_of_channel_conversations in Hc as (cv & Hc & Hkind & Hk).
    destruct (inv_channel _ _ Hinv c cv Hc Hkind) as (k' & Hk' & Hiff). apply Hiff. congruence.
  - unfold checkNewCommunityMember in Hrun4. run Hrun4.
    apply checkMembers_ok in Hrun5 as [-> Hc1]. apply checkMembers_ok in Hrun6 as [-> Hc2].
    apply checkOther_ok in Hrun4 as [-> Hc3].
    unfold account_conversations, communityMemberCount in *. rewrite rows_of_card, scopes_of_card in *.
    assert ((k, t) ∉ dom (comm_members R)) as Hout by (by apply not_elem_of_dom).
    destruct Href as [?|Href]; [done|].
    eapply (inv_new_community_member _ R k t (channel_conversations (db s) k)); try done.
    + apply elem_of_channel_conversations.
    + intros c Hc. rewrite <- rows_of_card. pose proof (largestChannel_ge (db s) k c Hc).
      unfold conversationMemberCount in *. lia.
Qed.

Lemma CreateOrGetConversation_inv id now input x :
  CreateOrGetConversation id now input s = (Ok x, s') -> rooms_inv L R'.
Proof.
  intros H. apply CreateOrGetConversation_ok in H as [? ? ? ? ? ? ? -> ?|members title _ _ Hch _ _ _ _ Hcr]; [done|].
  destruct Hcr as [_ Hnew Hk Hc Hfree Hsize Hroom (m' & dmp & Hr & [Hm _] & _)]. simpl in *.
  apply (inv_ext _ (upd_conv_members (fun _ => m') (upd_conversations (insert id (mkConversationRow
    (in_Kind input) (nullableString title) (nullableString (in_CommunityID input)) (nullableString (in_ChannelID input))
    (in_CreatedBy input) (in_RetentionSeconds input) now "everyone")) (upd_channels (fun _ => channels R) R))));
    [by rewrite Hr..|].
  eapply inv_new_conversation; try done; simpl.
  - intros [c u]. rewrite elem_of_union, elem_of_singleton, elem_of_list_to_set, list_elem_of_fmap. naive_solver.
  - pose proof (card_union_le {[(id, in_CreatedBy input)]} (list_to_set ((fun a => (id, a)) <$> members))).
    pose proof (card_list_to_set (fun a => (id, a)) members). rewrite card_singleton in *. lia.
  - intros u. rewrite elem_of_union, elem_of_singleton, elem_of_list_to_set, list_elem_of_fmap.
    intros Hu. apply Hroom. naive_solver.
  - intros k Ek. rewrite Ek in Hk. simpl in Hk. unfold exists_in in Hk. by bool_to_prop.
  - intros Ek. exfalso. destruct (Hch Ek) as (ch & Hch' & Hin).
    destruct (inv_taken _ _ Hinv ch Hin) as (Htrim & Htaken). rewrite Hch' in Hfree. rewrite Htrim in Hfree.
    apply channel_taken_true in Htaken. congruence.
  - intros ch Hin. by left.
Qed.

Lemma ManageConversationMember_inv now c a t role x :
  ManageConversationMember now c a t role s = (Ok x, s') -> rooms_inv L R'.
Proof.
  intros H. unfold ManageConversationMember in H. run H.
  apply insertSyncEvent_frame in H as [-> _]. apply conv_only_adds in Hrun6 as (_ & m' & Hr & Hm & _).
  unfold member_role in Hrun5. destruct (conv_members R !! (c, t)) as [row|] eqn:Et; simpl in Hrun5.
  - run Hrun5. assert ((c, t) ∈ dom (conv_members R)) by (apply elem_of_dom; eauto).
    apply (inv_ext _ R); rewrite ?Hr; simpl; try done. rewrite Hm. set_solver.
  - run Hrun5. unfold checkNewConversationMember in Hrun5. run Hrun5.
    assert (s2 = s /\ cv_kind a1 <> "community_channel"%string) as [-> Hkind].
    { destruct (cv_kind a1 =s? "community_channel") eqn:Ek.
      - apply str_eqb_true in Ek. run Hrun6. exfalso.
        destruct (inv_channel _ _ Hinv c a1 Hrun0 Ek) as (k & Hk & Hiff). rewrite Hk in Hrun8. injection Hrun8 as <-.
        bool_to_prop. apply not_elem_of_dom in Et. apply Et, Hiff, elem_of_dom.
        unfold community_role in Hrun6. by rewrite fmap_is_Some in Hrun6.
      - run Hrun6. split; [done|]. intros E. by rewrite E, str_eqb_refl in Ek. }
    apply checkMembers_ok in Hrun7 as [-> Hc1]. apply checkOther_ok in Hrun5 as [-> Hc2].
    unfold conversationMemberCount, account_conversations in *. rewrite rows_of_card, scopes_of_card in *.
    rewrite Hr. by eapply inv_add_member.
Qed.

Lemma RemoveConversationMember_inv now c a t x :
  RemoveConversationMember now c a t s = (Ok x, s') -> rooms_inv L R'.
Proof.
  intros (ar & tr & cv & _ & _ & Hc & Hkind & _ & _ & Hr & _)%RemoveConversationMember_ok.
  eapply (inv_remove _ R); rewrite ?Hr; simpl; try done; [set_solver|].
  intros c' cv' k Hc' Hk' _ Hiff u. rewrite dom_delete_L, elem_of_difference, Hiff, elem_of_singleton.
  split; [by intros [? _]|]. intros Hin. split; [done|]. intros [= -> _]. congruence.
Qed.

(** Changing a setting keeps the shape of the conversation. *)
Lemma set_conversation_inv r' c f :
  (forall cv, cv_kind (f cv) = cv_kind cv /\ cv_community_id (f cv) = cv_community_id cv /\
              cv_channel_id (f cv) = cv_channel_id cv) ->
  r'.(conversations) = alter f c R.(conversations) -> r'.(conv_members) = R.(conv_members) ->
  r'.(comm_members) = R.(comm_members) -> r'.(channels) = R.(channels) -> r'.(communities) = R.(communities) ->
  rooms_inv L r'.
Proof.
  intros Hf E1 E2 E3 E4 E5. constructor; rewrite ?E1, ?E2, ?E3, ?E4, ?E5; try apply Hinv.
  - intros c' u Hin. pose proof (inv_conv_ref _ _ Hinv c' u Hin) as Hcv.
    rewrite lookup_alter. case_decide; [subst; by apply fmap_is_Some|done].
  - intros c' cv k. rewrite lookup_alter. case_decide; [|by apply Hinv].
    intros (cv0 & Hcv & ->)%fmap_Some_1. rewrite (proj1 (proj2 (Hf cv0))). by eapply (inv_conv_comm _ _ Hinv).
  - intros c' cv. rewrite lookup_alter. case_decide; [subst c'|by apply Hinv].
    intros (cv0 & Hcv & ->)%fmap_Some_1. rewrite (proj1 (proj2 (Hf cv0))), (proj1 (Hf cv0)). by eapply (inv_channel _ _ Hinv c cv0).
  - intros ch Hch. destruct (inv_taken _ _ Hinv ch Hch) as (Ht & c' & cv & Hcv & Hcc). split; [done|].
    destruct (decide (c' = c)) as [->|Hne].
    + exists c, (f cv). rewrite lookup_alter_eq, Hcv. by rewrite (proj2 (proj2 (Hf cv))).
    + exists c', cv. by rewrite lookup_alter_ne.
Qed.

Lemma updateConversationRetention_inv now c by_ ret ty x :
  updateConversationRetention now c by_ ret ty s = (Ok x, s') -> rooms_inv L R'.
Proof.
  intros H. unfold updateConversationRetention, set_conversation in H. run H.
  match goal with Hi : insertOptionalSyncEvent _ _ _ _ _ _ = _ |- _ => apply insertOptionalSyncEvent_frame in Hi as [-> _] end.
  apply (set_conversation_inv _ c (fun cv => mkConversationRow cv.(cv_kind) cv.(cv_title) cv.(cv_community_id)
    cv.(cv_channel_id) cv.(cv_created_by) ret cv.(cv_created_at) cv.(cv_posting_policy))); try done;
    by destruct ret; run Hrun1.
Qed.

Lemma SetConversationPostingPolicy_inv now c by_ p x :
  SetConversationPostingPolicy now c by_ p s = (Ok x, s') -> rooms_inv L R'.
Proof.
  intros H. unfold SetConversationPostingPolicy, set_conversation in H. run H.
  match goal with Hi : insertSyncEvent _ _ _ _ _ _ = _ |- _ => apply insertSyncEvent_frame in Hi as [-> _] end.
  simpl. eapply (set_conversation_inv _ c (fun cv => mkConversationRow cv.(cv_kind) cv.(cv_title) cv.(cv_community_id)
    cv.(cv_channel_id) cv.(cv_created_by) cv.(cv_retention_seconds) cv.(cv_created_at) p)); done.
Qed.

End preservation.

(** ** The limits hold in every reachable state *)

Lemma discard_ok {A} (m : Tx A) s x s' : discard m s = (Ok x, s') -> exists a, m s = (Ok a, s').
Proof. unfold discard. intros H. run H. eauto. Qed.

Lemma discard_err {A} (m : Tx A) s e s' : discard m s = (Err e, s') -> m s = (Err e, s').
Proof. unfold discard, mbind, Tx_bind. destruct (m s) as [[]]; [by intros [=]|by intros [= <- <-]]. Qed.

Lemma serve_keeps_limits r : keeps_limits (serve r).
Proof.
  destruct r; unfold serve, discard, CreateCommunity, CreateChannelWithConversation, ManageCommunityMember,
    CreateOrGetConversation, ManageConversationMember, RemoveConversationMember, updateConversationRetention,
    SetConversationPostingPolicy, insert_channel, insert_conversation, create_conversation, validate_channel,
    validate_member, insert_dm_pair, checkNewCommunityMember, checkNewConversationMember, set_conversation,
    insertOptionalSyncEvent, insertSyncEvent, on_rooms, on_content.
  all: tx_auto.
  all: match goal with |- keeps_limits (join_channels _ _ _ _ ?l) => induction l; simpl; tx_auto end.
Qed.

Lemma serve_rolls_back r : rolls_back (serve r).
Proof.
  intros s e s' H. revert s e s' H.
  destruct r; intros s e s' H; apply discard_err in H; revert s e s' H;
    unfold CreateCommunity, CreateChannelWithConversation, ManageCommunityMember,
    CreateOrGetConversation, ManageConversationMember, RemoveConversationMember, updateConversationRetention,
    SetConversationPostingPolicy.
  all: match goal with |- forall s e s', ?m s = _ -> _ => change (rolls_back m) end.
  all: tx_auto.
Qed.

Lemma serve_inv r s :
  limits_ok s.(limits) -> rooms_inv s.(limits) s.(db).(rooms) ->
  rooms_inv (serve r s).2.(limits) (serve r s).2.(db).(rooms).
Proof.
  intros Hl Hinv. rewrite serve_keeps_limits. destruct (serve r s) as [[u|e] s'] eqn:E; simpl.
  - destruct r; simpl in E; apply discard_ok in E as [x E].
    + by eapply CreateCommunity_inv.
    + eapply CreateChannelWithConversation_inv; [done| |exact E]. unfold nullableString.
      rewrite NewID_chan_trim. done.
    + by eapply ManageCommunityMember_inv.
    + by eapply CreateOrGetConversation_inv.
    + by eapply ManageConversationMember_inv.
    + by eapply RemoveConversationMember_inv.
    + by eapply updateConversationRetention_inv.
    + by eapply SetConversationPostingPolicy_inv.
  - by rewrite (serve_rolls_back r s e s' E).
Qed.

Lemma dom_drop (a : string) (m : gmap (string * string) MemberRow) (c u : string) :
  (c, u) ∈ dom (filter (fun kv : (string * string) * MemberRow => kv.1.2 <> a) m) <-> (c, u) ∈ dom m /\ u <> a.
Proof.
  rewrite !elem_of_dom. unfold is_Some. setoid_rewrite map_lookup_filter_Some. simpl. naive_solver.
Qed.

Lemma drop_account_inv a l r : rooms_inv l r -> rooms_inv l (drop_account a r).
Proof.
  intros Hinv. eapply (inv_remove _ r); try done; simpl.
  - intros [c u] [? _]%dom_drop. done.
  - intros [c u] [? _]%dom_drop. done.
  - intros c cv k _ _ _ Hiff u. by rewrite !dom_drop, Hiff.
Qed.

Lemma room_step_inv s s' :
  room_step s s' -> limits_ok s.(limits) -> rooms_inv s.(limits) s.(db).(rooms) ->
  limits_ok s'.(limits) /\ rooms_inv s'.(limits) s'.(db).(rooms).
Proof.
  intros [r s0|a s0 s1 El Er|s0 s1 El E1 E2 E3 E4 E5] Hl Hinv.
  - split; [by rewrite serve_keeps_limits|by apply serve_inv].
  - rewrite El, Er. split; [done|by apply drop_account_inv].
  - rewrite El. split; [done|]. eapply (inv_ext _ (rooms (db s0))); congruence || done.
Qed.

(** A store before any community or conversation exists. *)
Definition no_rooms (s : Store) : Prop :=
  s.(db).(rooms).(communities) = ∅ /\ s.(db).(rooms).(channels) = ∅ /\
  s.(db).(rooms).(conversations) = ∅ /\ s.(db).(rooms).(conv_members) = ∅ /\
  s.(db).(rooms).(comm_members) = ∅.

Lemma no_rooms_inv s : limits_ok s.(limits) -> no_rooms s -> rooms_inv s.(limits) s.(db).(rooms).
Proof.
  intros [Hl1 Hl2] (E1 & E2 & E3 & E4 & E5).
  assert (forall c, scope c ∅ = ∅) as Hs by (intros; apply set_eq; intros ?; rewrite elem_of_scope; set_solver).
  assert (forall c, of_account c ∅ = ∅) as Ha by (intros; apply set_eq; intros ?; rewrite elem_of_of_account; set_solver).
  constructor; rewrite ?E1, ?E2, ?E3, ?E4, ?E5, ?dom_empty_L; try (intros; rewrite ?Hs, ?Ha, ?card_empty; lia);
    try (intros ? ? ?%elem_of_empty; done).
  - intros c cv k. by rewrite lookup_empty.
  - intros c cv. by rewrite lookup_empty.
  - intros ch [? Hc]. by rewrite lookup_empty in Hc.
Qed.

Lemma reachable_inv s0 s :
  limits_ok s0.(limits) -> no_rooms s0 -> rtc room_step s0 s ->
  limits_ok s.(limits) /\ s.(limits) = s0.(limits) /\ rooms_inv s.(limits) s.(db).(rooms).
Proof.
  intros Hl H0 Hr. assert (rooms_inv s0.(limits) s0.(db).(rooms)) as Hinv by by apply no_rooms_inv.
  clear H0. induction Hr as [s|s1 s2 s3 Hstep _ IH]; [done|].
  destruct (room_step_inv _ _ Hstep Hl Hinv) as [Hl2 Hinv2].
  destruct (IH Hl2 Hinv2) as (? & El & ?). split_and!; try done. rewrite El.
  destruct Hstep as [r s|a s s'|s s']; [apply serve_keeps_limits|done|done].
Qed.

(** From an empty instance, after any sequence of requests (refused ones
    included), account deletions and unrelated writes, no conversation or
    community has more members than the limit and no account belongs to more
    conversations than its limit. *)
Theorem membership_limits_hold s0 s :
  limits_ok s0.(limits) -> no_rooms s0 -> rtc room_step s0 s ->
  forall c a k,
    conversationMemberCount s.(db) c <= s0.(limits).(ConversationMembers) /\
    account_conversations s.(db) a <= s0.(limits).(ConversationsPerAccount) /\
    communityMemberCount s.(db) k <= s0.(limits).(ConversationMembers).
Proof.
  intros Hl H0 Hr c a k. destruct (reachable_inv _ _ Hl H0 Hr) as (_ & <- & Hinv).
  unfold conversationMemberCount, account_conversations, communityMemberCount.
  rewrite !rows_of_card, scopes_of_card. split_and!; apply Hinv.
Qed.

(** C26: in every reachable state a channel conversation has exactly the
    members of its community. *)
Theorem channel_members_are_community s0 s c cv :
  limits_ok s0.(limits) -> no_rooms s0 -> rtc room_step s0 s ->
  s.(db).(rooms).(conversations) !! c = Some cv -> cv.(cv_kind) = "community_channel"%string ->
  exists k, cv.(cv_community_id) = Some k /\
    forall a, is_member s.(db) c a = bool_decide (is_Some (community_role s.(db) k a)).
Proof.
  intros Hl H0 Hr Hc Hk. destruct (reachable_inv _ _ Hl H0 Hr) as (_ & _ & Hinv).
  destruct (inv_channel _ _ Hinv c cv Hc Hk) as (k & Hk' & Hiff). exists k. split; [done|].
  intros a. apply bool_decide_ext. rewrite <- elem_of_dom, Hiff, elem_of_dom.
  unfold community_role. by rewrite fmap_is_Some.
Qed.

(** ** An example instance: three accounts and a community with a channel *)

Definition ex_acct (n : nat) : string := NewID "acct" (replicate 16 (Ascii.ascii_of_nat n)).
Definition ex_alice : string := ex_acct 1.
Definition ex_bob : string := ex_acct 2.
Definition ex_carol : string := ex_acct 3.
Definition ex_active (name : string) : AccountRow := mkAccountRow name "member" "active" None true "" None 1.
Definition ex_store : Store :=
  mkStore (new_db (<[ex_alice := ex_active "alice"]> (<[ex_bob := ex_active "bob"]> {[ex_carol := ex_active "carol"]}))
                  {["dev_a" := mkDeviceRow ex_alice None 1 None None "phone" "" None]})
          (mkLimits 250 1000 536870912 10737418240 10000 20 60 10) NewCounters 0 (mkSessionPolicy 1209600000000000 2592000000000000).

Definition ex_requests : list request :=
  [RCreateCommunity "comm_1" 10 "home" ex_alice;
   RCreateChannel (replicate 16 (Ascii.ascii_of_nat 9)) "conv_ch" 11 "comm_1" "general" "" ex_alice;
   RManageCommunity 12 "comm_1" ex_alice ex_bob "member";
   RCreateConversation "conv_g" 13 (mkInput "group" (Some "trip"%string) None None ex_alice None [ex_carol])].
Definition ex_run (s : Store) (l : list request) : Store := foldl (fun s r => (serve r s).2) s l.
Definition ex_rooms : Store := ex_run ex_store ex_requests.

Lemma ex_run_steps s l : rtc room_step s (ex_run s l).
Proof.
  revert s. induction l as [|r l IH]; intros s; [apply rtc_refl|].
  unfold ex_run. simpl. eapply rtc_l; [apply rs_serve|]. apply IH.
Defined.

Lemma ex_store_empty : limits_ok ex_store.(limits) /\ no_rooms ex_store.
Proof. split; [split; apply (bool_decide_unpack _); vm_compute; exact I|split_and!; reflexivity]. Defined.

Lemma membership_limits_hold_witness :
  conversationMemberCount ex_rooms.(db) "conv_ch" = 2 /\
  conversationMemberCount ex_rooms.(db) "conv_ch" <= 250.
Proof.
  split; [vm_compute; reflexivity|].
  apply (membership_limits_hold ex_store ex_rooms (proj1 ex_store_empty) (proj2 ex_store_empty)
           (ex_run_steps _ _) "conv_ch"%string ex_alice "comm_1"%string).
Defined.

Lemma channel_members_are_community_witness :
  is_member ex_rooms.(db) "conv_ch" ex_bob = true /\
  exists k, Some k = Some "comm_1"%string /\
    forall a, is_member ex_rooms.(db) "conv_ch" a = bool_decide (is_Some (community_role ex_rooms.(db) k a)).
Proof.
  split; [vm_compute; reflexivity|].
  destruct (channel_members_are_community ex_store ex_rooms "conv_ch"
    (mkConversationRow "community_channel" (Some "general"%string) (Some "comm_1"%string)
       (Some (NewID "chan" (replicate 16 (Ascii.ascii_of_nat 9)))) ex_alice None 11 "everyone")
    (proj1 ex_store_empty) (proj2 ex_store_empty) (ex_run_steps _ _)) as (k & Hk & H).
  - vm_compute. reflexivity.
  - reflexivity.
  - exists k. split; [symmetry; exact Hk|exact H].
Defined.
