(* ===== verification/MembershipRules.v ===== *)
(** * Who may change a membership

    Role changes respect rank and blocks, a group never loses its last owner
    to a request, and the two parties of a direct conversation share one. *)

From S2P Require Import Prelude GoStrings Domain Admission Database Conversations Memberships.
From stdpp Require Import base numbers list strings gmap fin_maps sorting.
From Stdlib Require Import Ascii ZArith ZifyBool Lia.
Open Scope Z_scope.

(** ** Role changes *)

Lemma ManageConversationMember_ok now c a t role s x s' :
  ManageConversationMember now c a t role s = (Ok x, s') ->
  let role := if role =s? "" then RoleMember else role in
  exists actorRole cv m',
    member_role s.(db) c a = Some actorRole /\
    s.(db).(rooms).(conversations) !! c = Some cv /\ cv.(cv_kind) <> "dm"%string /\
    CanManageMembers actorRole = true /\ RoleRank role <= RoleRank actorRole /\ ValidRole role = true /\
    account_active s.(db) t = true /\ blocked_either s.(db) a t = false /\
    (forall old, member_role s.(db) c t = Some old -> RoleRank old < RoleRank actorRole) /\
    s'.(db).(rooms) = upd_conv_members (fun _ => m') s.(db).(rooms) /\
    mb_role <$> m' !! (c, t) = Some role /\
    forall k, k <> (c, t) -> m' !! k = s.(db).(rooms).(conv_members) !! k.
Proof.
  intros H. unfold ManageConversationMember in H. run H.
  apply insertSyncEvent_frame in H as [Hr' _].
  assert (s0.(db) = s.(db) /\ forall old, member_role s.(db) c t = Some old -> RoleRank old < RoleRank a0) as [Ed Hold].
  { destruct (member_role (db s) c t) as [r|] eqn:E.
    - run Hrun5. split; [done|]. intros old [= <-]. lia.
    - split; [|done]. run Hrun5. unfold checkNewConversationMember in Hrun5. run Hrun5.
      apply checkOther_ok in Hrun5 as [-> _]. apply checkMembers_ok in Hrun8 as [-> _].
      destruct (cv_kind a1 =s? "community_channel"); run Hrun7; done. }
  apply insert_conv_member_ok in Hrun6 as (Hv & _ & _ & _ & _ & m' & Hr & Hm). rewrite Ed in *.
  exists a0, a1, m'. bool_to_prop. split_and!; try done.
  - intros E. rewrite E in *. done.
  - by rewrite Hr', Hr.
  - rewrite Hm. destruct (conv_members _ !! _); by rewrite lookup_insert_eq.
  - intros k Hk. rewrite Hm. destruct (conv_members _ !! _); by rewrite lookup_insert_ne.
Qed.

Lemma member_role_rooms d d' c u :
  d'.(rooms).(conv_members) !! (c, u) = d.(rooms).(conv_members) !! (c, u) ->
  member_role d' c u = member_role d c u.
Proof. unfold member_role. by intros ->. Qed.

(** A role change in a conversation is made by a manager of it, on an
    account that ranks below the manager (or is not yet a member) and is not
    in a block with them; the new role is valid and does not outrank the
    manager's, no other membership changes, and a direct conversation never
    changes. *)
Theorem role_changes_respect_rank now c actor t role s x s' :
  ManageConversationMember now c actor t role s = (Ok x, s') ->
  exists actorRole new,
    member_role s.(db) c actor = Some actorRole /\ 2 <= RoleRank actorRole /\
    (forall old, member_role s.(db) c t = Some old -> RoleRank old < RoleRank actorRole) /\
    member_role s'.(db) c t = Some new /\ 1 <= RoleRank new <= RoleRank actorRole /\
    (forall c' u, (c', u) <> (c, t) -> member_role s'.(db) c' u = member_role s.(db) c' u) /\
    blocked_by s.(db) actor t = false /\ blocked_by s.(db) t actor = false /\
    forall cv, s.(db).(rooms).(conversations) !! c = Some cv -> cv.(cv_kind) <> "dm"%string.
Proof.
  intros (ar & cv & m' & Har & Hcv & Hkind & Hmg & Hrank & Hvalid & _ & Hblk & Hold & Hr & Hnew & Hoth)%ManageConversationMember_ok.
  rewrite CanManageMembers_rank in Hmg. unfold ValidRole in Hvalid. bool_to_prop.
  unfold blocked_either in Hblk. bool_to_prop.
  eexists ar, _. split_and!; try done.
  - unfold member_role. rewrite Hr. exact Hnew.
  - lia.
  - intros c' u Hne. apply member_role_rooms. rewrite Hr. by apply Hoth.
  - intros cv' Hcv'. congruence.
Qed.

(** ** The last owner *)

Definition has_owner (r : Rooms) (c : string) : Prop :=
  exists u row, r.(conv_members) !! (c, u) = Some row /\ row.(mb_role) = RoleOwner.

Definition groups_owned (r : Rooms) : Prop :=
  forall c cv, r.(conversations) !! c = Some cv -> cv.(cv_kind) = "group"%string -> has_owner r c.

(** An owner row survives when it is not rewritten. *)
Lemma has_owner_keep (r r' : Rooms) (c : string) (K : gset (string * string)) :
  has_owner r c -> (forall u, (c, u) ∉ K) ->
  (forall k, k ∉ K -> r'.(conv_members) !! k = r.(conv_members) !! k) -> has_owner r' c.
Proof. intros (u & row & Hrow & Ho) HK Hsame. exists u, row. by rewrite Hsame. Qed.

Lemma other_owner d c t :
  2 <= owners d c -> exists u row, u <> t /\ d.(rooms).(conv_members) !! (c, u) = Some row /\ row.(mb_role) = RoleOwner.
Proof.
  unfold owners, len. intros Hlen.
  destruct (decide (Exists (fun ur : string * MemberRow => ur.1 <> t)
    (List.filter (fun '(_, r) => mb_role r =s? RoleOwner) (rows_of (conv_members (rooms d)) c)))) as [Hex|Hall].
  - apply Exists_exists in Hex as ([u row] & Hin & Hu). exists u, row. split; [done|].
    apply list_elem_of_In, filter_In in Hin as [Hin Ho]. apply list_elem_of_In, elem_of_rows_of in Hin.
    split; [done|]. by apply str_eqb_true.
  - apply not_Exists_Forall in Hall; [|intros ?; apply _].
    assert (forall ur, In ur (List.filter (fun '(_, r) => mb_role r =s? RoleOwner) (rows_of (conv_members (rooms d)) c)) ->
      ur.1 = t /\ conv_members (rooms d) !! (c, ur.1) = Some ur.2) as Hone.
    { intros [u row] Hin. rewrite Forall_forall in Hall. specialize (Hall _ (proj2 (list_elem_of_In _ _) Hin)).
      apply filter_In in Hin as [Hin _]. apply list_elem_of_In, elem_of_rows_of in Hin.
      split; [|done]. by apply dec_stable. }
    assert (NoDup (List.filter (fun '(_, r) => mb_role r =s? RoleOwner) (rows_of (conv_members (rooms d)) c))) as Hnd.
    { apply NoDup_ListNoDup, List.NoDup_filter, NoDup_ListNoDup. apply NoDup_rows_of. }
    destruct (List.filter _ _) as [|x [|y l]]; simpl in Hlen; try lia.
    destruct (Hone x) as [Hx Hx']; [by left|]. destruct (Hone y) as [Hy Hy']; [by right; left|].
    apply NoDup_cons in Hnd as [Hnd _]. destruct Hnd.
    destruct x, y; simpl in *; subst. rewrite Hx' in Hy'. injection Hy' as ->. apply list_elem_of_here.
Qed.

Lemma normalize_members_fresh seen ids l : normalize_members seen ids = Some l -> forall a, a ∈ seen -> a ∉ l.
Proof.
  revert seen l. induction ids as [|i ids IH]; intros seen l; simpl; [intros [= <-]; by intros ? _ ?%not_elem_of_nil|].
  destruct (negb _); [done|]. case_bool_decide as Hin; [by apply IH|].
  destruct (normalize_members _ ids) as [l'|] eqn:E; [|done]. intros [= <-] a Ha.
  rewrite not_elem_of_cons. split; [by intros ->|]. apply (IH _ _ E). by right.
Qed.

Lemma settings_owned (r r' : Rooms) (c : string) (f : ConversationRow -> ConversationRow) :
  groups_owned r -> (forall cv, cv_kind (f cv) = cv_kind cv) ->
  r'.(conversations) = alter f c r.(conversations) -> r'.(conv_members) = r.(conv_members) -> groups_owned r'.
Proof.
  intros Hown Hf E1 E2 g cv. unfold has_owner. rewrite E1, E2, lookup_alter.
  case_decide; [subst|apply Hown]. intros (cv0 & Hcv & ->)%fmap_Some_1. rewrite Hf. by apply Hown.
Qed.

Section owners.
Context (s s' : Store).
Abbreviation R := s.(db).(rooms).
Abbreviation R' := s'.(db).(rooms).
Hypothesis Hown : groups_owned R.

Lemma owned_same : R'.(conversations) = R.(conversations) -> R'.(conv_members) = R.(conv_members) -> groups_owned R'.
Proof. intros E1 E2 c cv. unfold has_owner. rewrite E1, E2. apply Hown. Qed.

Lemma CreateChannel_owned ch c now k name kind by_ x :
  CreateChannelWithConversation ch c now k name kind by_ s = (Ok x, s') -> groups_owned R'.
Proof.
  intros H. unfold CreateChannelWithConversation in H. run H.
  apply checkMembers_ok in Hrun2 as [-> _]. apply checkOwn_ok in Hrun3 as [-> _].
  apply (check_each_ok _ (fun _ _ => True)) in Hrun4 as [-> _]; cycle 1.
  { intros [b r] t1 u t2 E. split; [|done]. destruct (b =s? by_); [by run E|]. by apply checkOther_ok in E as [-> _]. }
  unfold insert_channel in Hrun5. run Hrun5. apply insert_conversation_ok in Hrun6 as (-> & Hnew & _). simpl in *.
  apply (for_each_members (fun y : string * MemberRow => (c, y.1))) in Hrun7 as (_ & m' & Hr & _ & Hsame); cycle 1.
  { intros [b row] t1 u t2 E. by apply member_and_event in E. }
  intros g cv. rewrite Hr. simpl. rewrite lookup_insert_Some. intros [[-> <-]|[Hne Hg]] Hk; [done|].
  eapply (has_owner_keep R _ g _ (Hown g cv Hg Hk)); [|exact Hsame].
  intros u. rewrite elem_of_list_to_set, list_elem_of_fmap. intros (? & [= ? _] & _). done.
Qed.

Lemma ManageCommunity_owned now k a t role x :
  ManageCommunityMember now k a t role s = (Ok x, s') -> groups_owned R'.
Proof.
  intros H. unfold ManageCommunityMember in H. run H.
  apply insert_comm_member_dom in Hrun5 as (_ & _ & mk & Hr5 & _).
  apply join_channels_ok in H as (_ & mc & Hr & _ & Hsame).
  assert (s0.(db) = s.(db)) as Ed.
  { destruct (community_role (db s) k t); [by run Hrun4|]. unfold checkNewCommunityMember in Hrun4. run Hrun4.
    apply checkMembers_ok in Hrun5 as [-> _]. apply checkMembers_ok in Hrun6 as [-> _].
    by apply checkOther_ok in Hrun4 as [-> _]. }
  rewrite Ed in *. intros g cv. rewrite Hr, Hr5. simpl. intros Hg Hk. rewrite Hr5 in Hsame. simpl in Hsame.
  eapply (has_owner_keep R _ g _ (Hown g cv Hg Hk)); [|exact Hsame].
  intros u. rewrite elem_of_list_to_set, list_elem_of_fmap.
  intros (? & [= <- _] & (cv' & Hg' & Hk' & _)%elem_of_channel_conversations). congruence.
Qed.

Lemma CreateOrGet_owned id now input x :
  CreateOrGetConversation id now input s = (Ok x, s') -> groups_owned R'.
Proof.
  intros H. apply CreateOrGetConversation_ok in H as [? ? ? ? ? ? ? -> ?|members title Hm _ _ _ _ _ _ Hcr]; [done|].
  destruct Hcr as [_ Hnew _ _ _ _ _ (m' & dmp & Hr & [_ Hsame] & Howner & _)].
  intros g cv'. unfold has_owner. rewrite Hr. simpl. rewrite lookup_insert_Some.
  intros [[<- <-]|[Hne Hg]] Hk.
  - assert (in_CreatedBy input ∉ members) as Hby by (eapply normalize_members_fresh; [done|apply list_elem_of_here]).
    specialize (Howner Hby). apply fmap_Some_1 in Howner as (row & Hrow & Hro). eauto.
  - destruct (Hown g cv' Hg Hk) as (u & row & Hrow & Ho). exists u, row. split; [|done]. rewrite Hsame; [done|].
    rewrite elem_of_union, elem_of_singleton, elem_of_list_to_set, list_elem_of_fmap. naive_solver.
Qed.

Lemma ManageMember_owned now c a t role x :
  ManageConversationMember now c a t role s = (Ok x, s') -> groups_owned R'.
Proof.
  intros (ar & cv0 & m' & _ & _ & _ & _ & _ & _ & _ & _ & Hold & Hr & _ & Hoth)%ManageConversationMember_ok.
  intros g cv. rewrite Hr. simpl. intros Hg Hk. destruct (Hown g cv Hg Hk) as (u & row & Hrow & Ho).
  exists u, row. split; [|done]. simpl. rewrite Hoth; [done|]. intros [= -> ->].
  specialize (Hold RoleOwner). unfold member_role in Hold. rewrite Hrow in Hold. simpl in Hold. rewrite Ho in Hold.
  specialize (Hold eq_refl). pose proof (RoleRank_range ar). change (RoleRank RoleOwner) with 4 in Hold. lia.
Qed.

Lemma RemoveMember_owned now c a t x :
  RemoveConversationMember now c a t s = (Ok x, s') -> groups_owned R'.
Proof.
  intros (ar & tr & cv0 & Har & Htr & _ & _ & Hguard & _ & Hr & _)%RemoveConversationMember_ok.
  intros g cv. rewrite Hr. simpl. intros Hg Hk. unfold has_owner. simpl.
  destruct (Hown g cv Hg Hk) as (u & row & Hrow & Ho).
  destruct (decide ((g, u) = (c, t))) as [[= -> ->]|Hne]; cycle 1.
  { exists u, row. by rewrite lookup_delete_ne. }
  unfold member_role in Htr. rewrite Hrow in Htr. simpl in Htr. rewrite Ho in Htr. injection Htr as <-.
  destruct (a =s? t) eqn:Eat.
  - change (RoleOwner =s? RoleOwner) with true in Hguard. simpl in Hguard. bool_to_prop.
    destruct (other_owner (db s) c t) as (v & row' & Hv & Hrow' & Ho'); [lia|].
    exists v, row'. rewrite lookup_delete_ne; [done|congruence].
  - pose proof (RoleRank_range ar). change (RoleRank RoleOwner) with 4 in Hguard. lia.
Qed.

Lemma retention_owned now c by_ ret ty x :
  updateConversationRetention now c by_ ret ty s = (Ok x, s') -> groups_owned R'.
Proof.
  intros H. unfold updateConversationRetention, set_conversation in H. run H.
  match goal with Hi : insertOptionalSyncEvent _ _ _ _ _ _ = _ |- _ => apply insertOptionalSyncEvent_frame in Hi as [Hr _] end.
  eapply (settings_owned _ _ c (fun cv => mkConversationRow cv.(cv_kind) cv.(cv_title) cv.(cv_community_id)
    cv.(cv_channel_id) cv.(cv_created_by) ret cv.(cv_created_at) cv.(cv_posting_policy))); rewrite ?Hr; try done;
    by destruct ret; run Hrun1.
Qed.

Lemma posting_owned now c by_ p x :
  SetConversationPostingPolicy now c by_ p s = (Ok x, s') -> groups_owned R'.
Proof.
  intros H. unfold SetConversationPostingPolicy, set_conversation in H. run H.
  match goal with Hi : insertSyncEvent _ _ _ _ _ _ = _ |- _ => apply insertSyncEvent_frame in Hi as [Hr _] end.
  by eapply (settings_owned _ _ c (fun cv => mkConversationRow cv.(cv_kind) cv.(cv_title) cv.(cv_community_id)
    cv.(cv_channel_id) cv.(cv_created_by) cv.(cv_retention_seconds) cv.(cv_created_at) p)); rewrite ?Hr.
Qed.

End owners.

Lemma serve_owned r s : groups_owned s.(db).(rooms) -> groups_owned (serve r s).2.(db).(rooms).
Proof.
  intros Hown. destruct (serve r s) as [[u|e] s'] eqn:E; simpl; [|by rewrite (serve_rolls_back r s e s' E)].
  destruct r; simpl in E; apply discard_ok in E as [x E].
  - apply (owned_same s s' Hown); unfold CreateCommunity in E; run E;
      apply insert_comm_member_dom in Hrun0 as (_ & _ & m & -> & _); done.
  - by eapply CreateChannel_owned.
  - by eapply ManageCommunity_owned.
  - by eapply CreateOrGet_owned.
  - by eapply ManageMember_owned.
  - by eapply RemoveMember_owned.
  - by eapply retention_owned.
  - by eapply posting_owned.
Qed.

(** No sequence of requests leaves a group without an owner: the creator
    owns a new group, and neither a role change, a removal nor leaving takes
    the last owner away. *)
Theorem groups_keep_an_owner requests s c cv :
  groups_owned s.(db).(rooms) ->
  let s' := foldl (fun s r => (serve r s).2) s requests in
  s'.(db).(rooms).(conversations) !! c = Some cv -> cv.(cv_kind) = "group"%string ->
  exists u, member_role s'.(db) c u = Some RoleOwner.
Proof.
  revert s. induction requests as [|r requests IH]; intros s Hown; simpl.
  - intros Hc Hk. destruct (Hown c cv Hc Hk) as (u & row & Hrow & Ho). exists u. unfold member_role.
    rewrite Hrow. simpl. by rewrite Ho.
  - apply IH. by apply serve_owned.
Qed.

(** ** Direct conversations *)

Lemma string_ltb_asym a b : a <> b -> String.ltb b a = negb (String.ltb a b).
Proof.
  intros Hne. unfold String.ltb. rewrite String.compare_antisym.
  destruct (String.compare a b) eqn:E; try done. by apply String.compare_eq_iff in E.
Qed.

Lemma dmAccountPair_sym a b : dmAccountPair a b = dmAccountPair b a.
Proof.
  unfold dmAccountPair. destruct (decide (a = b)) as [->|Hne]; [done|].
  rewrite (string_ltb_asym a b Hne). by destruct (String.ltb a b).
Qed.

Lemma hex_no_space c : is_hex c = true -> is_space c = false.
Proof. destruct c as [[] [] [] [] [] [] [] []]; vm_compute; done. Qed.

Lemma ValidID_acct_trim a : ValidID "acct" a = true -> TrimSpace a = a.
Proof.
  unfold ValidID. destruct (HasPrefix a _) eqn:Hp; [|done]. simpl negb. rewrite orb_false_l.
  destruct (negb _); [done|]. intros H. apply andb_prop in H as [H _].
  apply HasPrefix_spec in Hp as [r ->]. apply TrimSpace_id.
  rewrite (chars_app ("acct" +:+ "_") r) in *.
  rewrite drop_app_length in H. unfold hex_decodable in H. apply andb_prop in H as [_ H].
  rewrite forallb_app. apply andb_true_intro. split; [done|].
  apply forallb_forall. intros c Hc. rewrite forallb_forall in H. by rewrite (hex_no_space c (H c Hc)).
Qed.

Lemma normalize_one by_ a l : normalize_members [by_] [a] = Some l -> a <> by_ -> ValidID "acct" a = true -> l = [a].
Proof.
  simpl. intros H Hne Hv. rewrite (ValidID_acct_trim a Hv) in H. destruct (negb _); [done|].
  case_bool_decide as Hin; [set_solver|]. by injection H as <-.
Qed.

Definition dm_input (by_ other : string) : CreateConversationInput :=
  mkInput "dm" None None None by_ None [other].

(** Opening a direct conversation gives the pair exactly two members the
    first time, and whoever of the two opens it again gets the same
    conversation, unchanged. *)
Theorem dm_conversation_is_shared id now a b s conv made s1 id' now' conv' made' s2 :
  ValidID "acct" a = true -> ValidID "acct" b = true -> a <> b ->
  CreateOrGetConversation id now (dm_input a b) s = (Ok (conv, made), s1) ->
  CreateOrGetConversation id' now' (dm_input b a) s1 = (Ok (conv', made'), s2) ->
  conv_ID conv' = conv_ID conv /\ made' = false /\ s2 = s1 /\
  (made = true -> rooms_inv s.(limits) s.(db).(rooms) ->
   forall u, is_member s1.(db) (conv_ID conv) u = true <-> u = a \/ u = b).
Proof.
  intros Ha Hb Hne H1 H2.
  apply CreateOrGetConversation_ok in H1. apply CreateOrGetConversation_ok in H2.
  assert (exists cid, conv_ID conv = cid /\ s1.(db).(rooms).(dm_pairs) !! dmAccountPair a b = Some cid /\
    (made = true -> rooms_inv s.(limits) s.(db).(rooms) ->
     forall u, is_member s1.(db) cid u = true <-> u = a \/ u = b)) as (cid & Ecid & Hpair & Hmem).
  { destruct H1 as [members cid cv Hm _ Hp Hc -> [= -> ->]|members title Hm _ _ _ _ Eid _ Hcr].
    - apply normalize_one in Hm as ->; [|done..]. by exists cid.
    - apply normalize_one in Hm as ->; [|done..]. exists id.
      destruct Hcr as [_ Hnew _ _ _ _ _ (m' & dmp & Hr & [Hd _] & _ & Hdm)]. simpl in *.
      split_and!; [done| |].
      + rewrite Hr. simpl. by rewrite Hdm, lookup_insert_eq.
      + intros _ Hinv u. unfold is_member. rewrite bool_decide_eq_true, <- elem_of_dom, Hr. simpl. rewrite Hd.
        rewrite !elem_of_union, !elem_of_singleton, elem_of_empty. split; [|naive_solver].
        intros [[[= ->]|[[= ->]|[]]]|Hin]; [by left|by right|].
        destruct (inv_conv_ref _ _ Hinv id u Hin) as [? E]. congruence. }
  rewrite dmAccountPair_sym in Hpair.
  destruct H2 as [members cid' cv Hm _ Hp Hc -> [= -> ->]|members title Hm _ _ Hnone _ _ _ _].
  - apply normalize_one in Hm as ->; [|done..]. unfold dm_key in Hp. simpl in Hp. rewrite Hpair in Hp.
    injection Hp as <-. simpl. by rewrite Ecid.
  - apply normalize_one in Hm as ->; [|done..]. unfold dm_key in Hnone. simpl in Hnone.
    rewrite Hpair in Hnone. by specialize (Hnone eq_refl).
Qed.

(** ** Witnesses *)

Lemma role_changes_respect_rank_witness :
  exists s', ManageConversationMember 14 "conv_g" ex_alice ex_carol "admin" ex_rooms = (Ok 4, s') /\
    member_role s'.(db) "conv_g" ex_carol = Some "admin"%string /\
    exists new, member_role s'.(db) "conv_g" ex_carol = Some new /\ 1 <= RoleRank new <= 4.
Proof.
  pose (r := ManageConversationMember 14 "conv_g" ex_alice ex_carol "admin" ex_rooms).
  assert (r.1 = Ok 4) as E by (vm_compute; reflexivity).
  exists r.2. split; [|split; [vm_compute; reflexivity|]].
  - unfold r in *. rewrite <- E. apply surjective_pairing.
  - destruct (role_changes_respect_rank 14 "conv_g" ex_alice ex_carol "admin" ex_rooms 4 r.2)
      as (ar & new & _ & _ & _ & Hnew & Hrank & _).
    + unfold r in *. rewrite <- E. apply surjective_pairing.
    + exists new. pose proof (RoleRank_range ar). split; [exact Hnew|lia].
Defined.

Lemma groups_keep_an_owner_witness :
  (RemoveConversationMember 15 "conv_g" ex_alice ex_alice ex_rooms).1 = Err ErrLastOwner /\
  exists u, member_role (ex_run ex_store ex_requests).(db) "conv_g" u = Some RoleOwner.
Proof.
  split; [vm_compute; reflexivity|].
  apply (groups_keep_an_owner ex_requests ex_store "conv_g"
    (mkConversationRow "group" (Some "trip"%string) None None ex_alice None 13 "everyone")).
  - intros c cv H. vm_compute in H. discriminate H.
  - vm_compute. reflexivity.
  - reflexivity.
Defined.

Definition ex_dm : result store_error (Conversation * bool) * Store :=
  CreateOrGetConversation "conv_dm" 20 (dm_input ex_alice ex_bob) ex_rooms.
Definition ex_dm_again : result store_error (Conversation * bool) * Store :=
  CreateOrGetConversation "conv_dm2" 21 (dm_input ex_bob ex_alice) ex_dm.2.

Lemma dm_conversation_is_shared_witness :
  exists conv conv' made', ex_dm.1 = Ok (conv, true) /\ ex_dm_again.1 = Ok (conv', made') /\
    conv_ID conv' = "conv_dm"%string /\ made' = false.
Proof.
  destruct ex_dm.1 as [[conv made]|] eqn:E1; [|vm_compute in E1; discriminate E1].
  destruct ex_dm_again.1 as [[conv' made']|] eqn:E2; [|vm_compute in E2; discriminate E2].
  assert (made = true) as -> by (vm_compute in E1; congruence).
  exists conv, conv', made'. split; [reflexivity|]. split; [reflexivity|].
  destruct (dm_conversation_is_shared "conv_dm" 20 ex_alice ex_bob ex_rooms conv true ex_dm.2
    "conv_dm2" 21 conv' made' ex_dm_again.2) as (Hid & Hm & _).
  - vm_compute. reflexivity.
  - vm_compute. reflexivity.
  - apply (bool_decide_unpack _). vm_compute. exact I.
  - rewrite <- E1. apply surjective_pairing.
  - rewrite <- E2. apply surjective_pairing.
  - split; [|exact Hm]. rewrite Hid. vm_compute in E1. injection E1 as <-. reflexivity.
Defined.
