(* ===== verification/Messages.v ===== *)
(** * Message envelopes and their sync events

    [internal/storage/message_store.go] up to the event log, with
    [enqueuePushWakeJobs] and [enqueueBlobDeletion].  The clock is read once
    per call and is an argument, as is the identifier of a new message. *)

From S2P Require Import Prelude GoStrings GoJson Domain Admission Database Conversations.
From stdpp Require Import base numbers list strings gmap fin_maps sorting.
From Stdlib Require Import ZArith ZifyBool Lia.
Open Scope Z_scope.

(** ** Payloads *)

Fixpoint p_lookup (p : Payload) (k : string) : option Value :=
  match p with
  | [] => None
  | (k', v) :: p => if k' =s? k then Some v else p_lookup p k
  end.

(** [json_extract] of a text member. *)
Definition p_str (p : Payload) (k : string) : option string :=
  match p_lookup p k with Some (VStr s) => Some s | _ => None end.

Definition p_envelope (p : Payload) : option MessageEnvelope :=
  match p_lookup p "envelope" with Some (VEnvelope e) => Some e | _ => None end.

Definition or_else {A} (x y : option A) : option A := match x with Some _ => x | None => y end.
Definition value_of (s : option string) : Value := match s with Some s => VStr s | None => VNull end.

Definition messageSyncEventPayload (e : MessageEnvelope) : Payload :=
  [("message_id", VStr e.(m_ID)); ("conversation_id", VStr e.(m_ConversationID)); ("envelope", VEnvelope e)]%string.

(** [json.Marshal] of a payload with an envelope fails when one of its raw
    JSON members is not JSON. *)
Definition marshals (e : MessageEnvelope) : bool :=
  Json.Valid e.(m_CryptoMetadata) && Json.Valid e.(m_AttachmentRefs).

Definition redact (e : SyncEventRow) : SyncEventRow :=
  let p := e.(se_payload) in
  mkSyncEventRow e.(se_type) e.(se_account_id) e.(se_conversation_id) e.(se_device_id)
    [("message_id", value_of (p_str p "message_id"));
     ("conversation_id", value_of (or_else (p_str p "conversation_id") e.(se_conversation_id)));
     ("sender_account_id", value_of (or_else (m_SenderAccountID <$> p_envelope p) (p_str p "sender_account_id")));
     ("redacted", VInt 1)]%string
    e.(se_created_at).

Definition redact_where (P : Z -> SyncEventRow -> bool) (m : gmap Z SyncEventRow) : gmap Z SyncEventRow :=
  map_imap (fun id e => Some (if P id e then redact e else e)) m.

Definition message_version_type (t : string) : bool :=
  (t =s? "message.envelope.created") || (t =s? "message.envelope.edited").
Definition message_envelope_type (t : string) : bool :=
  message_version_type t || (t =s? "message.envelope.deleted").

Definition has_envelope (e : SyncEventRow) : bool := bool_decide (is_Some (p_envelope e.(se_payload))).

(** An event that copies the envelope of message [id] of conversation [c]. *)
Definition copies_message (types : string -> bool) (c id : string) (e : SyncEventRow) : bool :=
  bool_decide (e.(se_conversation_id) = Some c) && types e.(se_type) &&
  bool_decide (p_str e.(se_payload) "message_id" = Some id) && has_envelope e.

(** ** Queries *)

Definition unexpired (now : Z) (m : MessageEnvelope) : bool :=
  match m.(m_ExpiresAt) with None => true | Some t => now <? t end.

Definition message_by_key (d : DB) (deviceID key : string) : option MessageEnvelope :=
  head (List.filter (fun m => (m.(m_SenderDeviceID) =s? deviceID) && (m.(m_IdempotencyKey) =s? key))
          (map_to_list d.(content).(messages)).*2).

(** ** Statements *)

(** [DELETE FROM message_envelopes] of the ids [ids], with the foreign keys'
    cascades. *)
Definition clear_ref (ids : string -> bool) (r : option string) : option string :=
  match r with Some i => if ids i then None else r | None => None end.

Definition clear_refs (ids : string -> bool) (m : MessageEnvelope) : MessageEnvelope :=
  mkMessageEnvelope m.(m_ID) m.(m_ConversationID) m.(m_SenderAccountID) m.(m_SenderDeviceID) m.(m_IdempotencyKey)
    m.(m_Ciphertext) m.(m_CryptoProtocol) m.(m_CryptoMetadata) m.(m_AttachmentRefs)
    (clear_ref ids m.(m_ReplyToID)) (clear_ref ids m.(m_ThreadRootID)) m.(m_CreatedAt) m.(m_EditedAt)
    m.(m_DeletedAt) m.(m_ExpiresAt).

Definition delete_messages (ids : string -> bool) (c : Content) : Content :=
  mkContent
    (clear_refs ids <$> filter (fun kv => ids kv.1 = false) c.(messages))
    c.(attachments)
    (filter (fun kv => ids kv.2 = false) c.(message_attachments))
    (filter (fun kv => ids kv.1.1 = false) c.(reactions))
    ((fun r => mkReadReceiptRow (clear_ref ids r.(rr_message_id)) (clear_ref ids r.(rr_shared_message_id)) r.(rr_read_at))
       <$> c.(read_receipts))
    (filter (fun kv => ids kv.2 = false) c.(delivery_receipts))
    c.(blob_queue).

(** [DELETE FROM attachment_envelopes]: its message link goes with it. *)
Definition delete_attachments (ids : string -> bool) (c : Content) : Content :=
  upd_message_attachments (filter (fun kv => ids kv.1 = false))
    (upd_attachments (filter (fun kv => ids kv.1 = false)) c).

Definition enqueueBlobDeletion (now : Z) (storageKey : string) : Tx unit :=
  on_content (upd_blob_queue (fun q =>
    match q !! storageKey with Some _ => q | None => <[storageKey := mkBlobDeletionRow 0 now None]> q end)).

Definition deleteExpiredMessageByIdempotency (deviceID key : string) (now : Z) : Tx unit :=
  d ← read (fun d => d);
  match message_by_key d deviceID key with
  | Some m =>
      if unexpired now m then mret tt
      else
        on_events (upd_sync_events (redact_where (fun _ e =>
          copies_message message_envelope_type m.(m_ConversationID) m.(m_ID) e))) ≫= fun _ =>
        on_content (delete_messages (fun i => i =s? m.(m_ID)))
  | None => mret tt
  end.

(** ** Attachment references *)

Definition ref_id (v : Json.json) : string :=
  TrimSpace match v with
            | Json.JStr s => s
            | Json.JObj l => match Json.go_member l "id" with Some (Json.JStr s) => s | _ => "" end
            | _ => ""
            end.

Fixpoint ref_ids (seen : list string) (l : list Json.json) : option (list string) :=
  match l with
  | [] => Some []
  | v :: l =>
      let id := ref_id v in
      if (id =s? "") || bool_decide (id ∈ seen) then None
      else match ref_ids (id :: seen) l with Some ids => Some (id :: ids) | None => None end
  end.

Definition parseAttachmentIDs (raw : string) : option (list string) :=
  match Json.Unmarshal raw with
  | Some (Json.JArr l) => if 20 <? len l then None else ref_ids [] l
  | Some Json.JNull => Some []
  | _ => None
  end.

(** ** Push wake jobs *)

Definition pushWakeJobTTL : Z := 24 * hour.

Definition device_live (d : DB) (ps : PushSubscriptionRow) : bool :=
  match ps.(ps_device_id) with
  | None => true
  | Some dev => match d.(rooms).(devices) !! dev with
                | Some r => (r.(dev_account_id) =s? ps.(ps_account_id)) && bool_decide (r.(dev_revoked_at) = None)
                | None => false
                end
  end.

(** A mute in force at [now]: SQLite's clock in whole seconds. *)
Definition muted_now (d : DB) (now : Z) (accountID conversationID : string) : bool :=
  match d.(rooms).(mutes) !! (accountID, conversationID) with
  | Some r => r.(mu_muted) && match r.(mu_until) with None => true | Some u => unix_of now <? u end
  | None => false
  end.

Definition wakes (d : DB) (now : Z) (conversationID senderAccountID : string) (ps : PushSubscriptionRow) : bool :=
  is_member d conversationID ps.(ps_account_id) && negb (ps.(ps_account_id) =s? senderAccountID) &&
  ((ps.(ps_provider) =s? "webpush") || (ps.(ps_provider) =s? "fcm") || (ps.(ps_provider) =s? "apns")) &&
  bool_decide (ps.(ps_disabled_at) = None) && device_live d ps &&
  negb (blocked_by d ps.(ps_account_id) senderAccountID) &&
  ((ps.(ps_notification_mode) =s? PushNotificationLocalDecrypt) ||
   negb (muted_now d now ps.(ps_account_id) conversationID)).

Definition enqueuePushWakeJobs (now eventID : Z) (conversationID senderAccountID : string)
    (createdAt expiresAt : Z) : Tx unit :=
  modify (fun d => upd_push (upd_push_wake_jobs (fun jobs =>
    foldr (fun '(sub, ps) jobs =>
      if wakes d now conversationID senderAccountID ps
      then let key := (eventID, ps.(ps_account_id), sub) in
           match jobs !! key with
           | Some _ => jobs
           | None => <[key := mkPushWakeRow conversationID senderAccountID createdAt createdAt 0 None None expiresAt]> jobs
           end
      else jobs) jobs (map_to_list d.(push).(push_subscriptions)))) d).

(** ** Saving a message *)

Definition empty_json (raw dflt : string) : string := if raw =s? "" then dflt else raw.

Definition with_defaults (e : MessageEnvelope) : MessageEnvelope :=
  mkMessageEnvelope e.(m_ID) e.(m_ConversationID) e.(m_SenderAccountID) e.(m_SenderDeviceID) e.(m_IdempotencyKey)
    e.(m_Ciphertext) e.(m_CryptoProtocol) (empty_json e.(m_CryptoMetadata) "{}")
    (empty_json e.(m_AttachmentRefs) "[]") e.(m_ReplyToID) e.(m_ThreadRootID) e.(m_CreatedAt) e.(m_EditedAt)
    e.(m_DeletedAt) e.(m_ExpiresAt).

Definition equalOptionalString (l r : option string) : bool := bool_decide (l = r).

Definition sameIdempotentMessage (x r : MessageEnvelope) : bool :=
  (x.(m_ConversationID) =s? r.(m_ConversationID)) && (x.(m_SenderAccountID) =s? r.(m_SenderAccountID)) &&
  (x.(m_SenderDeviceID) =s? r.(m_SenderDeviceID)) && (x.(m_CryptoProtocol) =s? r.(m_CryptoProtocol)) &&
  (x.(m_Ciphertext) =s? r.(m_Ciphertext)) && (x.(m_CryptoMetadata) =s? r.(m_CryptoMetadata)) &&
  (x.(m_AttachmentRefs) =s? r.(m_AttachmentRefs)) &&
  equalOptionalString x.(m_ReplyToID) r.(m_ReplyToID) && equalOptionalString x.(m_ThreadRootID) r.(m_ThreadRootID).

Definition owned_attachment (d : DB) (e : MessageEnvelope) (id : string) : bool :=
  match d.(content).(attachments) !! id with
  | Some a => (a.(at_owner) =s? e.(m_SenderAccountID)) && bool_decide (a.(at_conversation_id) = Some e.(m_ConversationID))
  | None => false
  end.

(** A reply or thread reference names a live message of the conversation. *)
Definition reference_ok (d : DB) (now : Z) (conversationID : string) (r : option string) : bool :=
  match r with
  | None => true
  | Some id =>
      (TrimSpace id =s? "") ||
      match d.(content).(messages) !! id with
      | Some m => bool_decide (m.(m_DeletedAt) = None) && unexpired now m && (m.(m_ConversationID) =s? conversationID)
      | None => false
      end
  end.

(** The earlier of the requested expiry and the conversation's retention;
    the product of the retention and a second is an [int64]. *)
Definition effective_expiry (now : Z) (retention requested : option Z) : option Z :=
  match retention with
  | None => requested
  | Some r =>
      let limit := time_add now (wrap64 (r * second)) in
      match requested with
      | Some t => if time_after t limit then Some limit else Some t
      | None => Some limit
      end
  end.

Definition insert_message (m : MessageEnvelope) : Tx unit :=
  d ← read (fun d => d);
  guard_tx (negb (exists_in d.(content).(messages) m.(m_ID)) && negb (m.(m_Ciphertext) =s? "") &&
            bool_decide (message_by_key d m.(m_SenderDeviceID) m.(m_IdempotencyKey) = None) &&
            exists_in d.(rooms).(conversations) m.(m_ConversationID) &&
            exists_in d.(rooms).(accounts) m.(m_SenderAccountID) &&
            exists_in d.(rooms).(devices) m.(m_SenderDeviceID) &&
            ref_ok d.(content).(messages) m.(m_ReplyToID) && ref_ok d.(content).(messages) m.(m_ThreadRootID))
    ErrConstraint ≫= fun _ =>
  on_content (upd_messages (insert m.(m_ID) m)).

Definition link_attachment (messageID attachmentID : string) : Tx unit :=
  d ← read (fun d => d);
  guard_tx (negb (exists_in d.(content).(message_attachments) attachmentID) &&
            exists_in d.(content).(attachments) attachmentID) ErrInvalidInput ≫= fun _ =>
  on_content (upd_message_attachments (insert attachmentID messageID)).

Record Saved := mkSaved {
  sv_envelope : MessageEnvelope; sv_duplicate : bool; sv_event : Z; sv_recipients : list string }.

(** The envelope as it is stored. *)
Definition stored (m : MessageEnvelope) : MessageEnvelope :=
  mkMessageEnvelope m.(m_ID) m.(m_ConversationID) m.(m_SenderAccountID) m.(m_SenderDeviceID) m.(m_IdempotencyKey)
    m.(m_Ciphertext) m.(m_CryptoProtocol) m.(m_CryptoMetadata) m.(m_AttachmentRefs)
    (nullableString m.(m_ReplyToID)) (nullableString m.(m_ThreadRootID)) m.(m_CreatedAt) None None m.(m_ExpiresAt).

(** The created event, its push wake jobs and the event's id. *)
Definition announce (now : Z) (m : MessageEnvelope) : Tx Z :=
  guard_tx (marshals m) ErrEncoding ≫= fun _ =>
  eventID ← insert_event (mkSyncEventRow "message.envelope.created" None (Some m.(m_ConversationID)) None
              (messageSyncEventPayload m) now);
  let ttl := time_add now pushWakeJobTTL in
  let wakeExpiresAt := match m.(m_ExpiresAt) with
                       | Some t => if time_before t ttl then t else ttl
                       | None => ttl
                       end in
  enqueuePushWakeJobs now eventID m.(m_ConversationID) m.(m_SenderAccountID) now wakeExpiresAt ≫= fun _ =>
  mret eventID.

Definition saveMessageEnvelope (newID : string) (now : Z) (envelope : MessageEnvelope)
    (withSyncEvent wantRecipients : bool) : Tx Saved :=
  let envelope := with_defaults envelope in
  attachmentIDs ← require (parseAttachmentIDs envelope.(m_AttachmentRefs)) ErrInvalidInput;
  transaction (
    d0 ← read (fun d => d);
    guard_tx (forallb (owned_attachment d0 envelope) attachmentIDs) ErrInvalidInput ≫= fun _ =>
    deleteExpiredMessageByIdempotency envelope.(m_SenderDeviceID) envelope.(m_IdempotencyKey) now ≫= fun _ =>
    d ← read (fun d => d);
    match message_by_key d envelope.(m_SenderDeviceID) envelope.(m_IdempotencyKey) with
    | Some existing =>
        guard_tx (sameIdempotentMessage existing envelope) ErrIdempotencyConflict ≫= fun _ =>
        mret (mkSaved existing true 0 [])
    | None =>
        senderRole ← require (member_role d envelope.(m_ConversationID) envelope.(m_SenderAccountID)) ErrNotMember;
        cv ← require (d.(rooms).(conversations) !! envelope.(m_ConversationID)) ErrNotFound;
        guard_tx (negb (posting_restricted d cv) || CanPostRestricted senderRole) ErrPostingRestricted ≫= fun _ =>
        guard_tx (reference_ok d now envelope.(m_ConversationID) envelope.(m_ReplyToID) &&
                  reference_ok d now envelope.(m_ConversationID) envelope.(m_ThreadRootID)) ErrInvalidInput ≫= fun _ =>
        let m := mkMessageEnvelope (if envelope.(m_ID) =s? "" then newID else envelope.(m_ID))
          envelope.(m_ConversationID) envelope.(m_SenderAccountID) envelope.(m_SenderDeviceID)
          envelope.(m_IdempotencyKey) envelope.(m_Ciphertext) envelope.(m_CryptoProtocol)
          envelope.(m_CryptoMetadata) envelope.(m_AttachmentRefs) envelope.(m_ReplyToID) envelope.(m_ThreadRootID)
          now envelope.(m_EditedAt) envelope.(m_DeletedAt)
          (effective_expiry now cv.(cv_retention_seconds) envelope.(m_ExpiresAt)) in
        insert_message (stored m) ≫= fun _ =>
        for_each attachmentIDs (link_attachment m.(m_ID)) ≫= fun _ =>
        eventID ← (if withSyncEvent then announce now m else mret 0);
        recipients ← read (fun d => if wantRecipients && withSyncEvent
                                    then ConversationRecipientsForSender d m.(m_ConversationID) m.(m_SenderAccountID)
                                    else []);
        mret (mkSaved m false eventID recipients)
    end).

Definition SaveMessageEnvelope (newID : string) (now : Z) (e : MessageEnvelope) : Tx (MessageEnvelope * bool) :=
  r ← saveMessageEnvelope newID now e false false;
  mret (r.(sv_envelope), r.(sv_duplicate)).

Definition SaveMessageEnvelopeWithSyncEvent (newID : string) (now : Z) (e : MessageEnvelope)
    : Tx (MessageEnvelope * bool * Z) :=
  r ← saveMessageEnvelope newID now e true false;
  mret (r.(sv_envelope), r.(sv_duplicate), r.(sv_event)).

Definition SaveMessageEnvelopeWithSyncEventAndRecipients (newID : string) (now : Z) (e : MessageEnvelope) : Tx Saved :=
  saveMessageEnvelope newID now e true true.

(** ** Editing and deleting *)

Definition live_owned (d : DB) (now : Z) (messageID accountID : string) : option MessageEnvelope :=
  match d.(content).(messages) !! messageID with
  | Some m => if (m.(m_SenderAccountID) =s? accountID) && bool_decide (m.(m_DeletedAt) = None) &&
                 unexpired now m && is_member d m.(m_ConversationID) accountID
              then Some m else None
  | None => None
  end.

(** [messageAfterOwnedMutationTx] on zero affected rows. *)
Definition mutation_error (d : DB) (now : Z) (messageID : string) : store_error :=
  match d.(content).(messages) !! messageID with
  | Some m => if unexpired now m then ErrForbidden else ErrNotFound
  | None => ErrNotFound
  end.

Definition updateMessageEnvelope (now : Z) (messageID accountID ciphertext cryptoProtocol cryptoMetadata : string)
    (eventType : string) : Tx (MessageEnvelope * Z) :=
  guard_tx (negb (ciphertext =s? "") && negb (TrimSpace cryptoProtocol =s? "")) ErrForbidden ≫= fun _ =>
  let cryptoMetadata := empty_json cryptoMetadata "{}" in
  transaction (
    d ← read (fun d => d);
    m ← require (live_owned d now messageID accountID) (mutation_error d now messageID);
    let m' := mkMessageEnvelope m.(m_ID) m.(m_ConversationID) m.(m_SenderAccountID) m.(m_SenderDeviceID)
      m.(m_IdempotencyKey) ciphertext cryptoProtocol cryptoMetadata m.(m_AttachmentRefs) m.(m_ReplyToID)
      m.(m_ThreadRootID) m.(m_CreatedAt) (Some now) m.(m_DeletedAt) m.(m_ExpiresAt) in
    on_content (upd_messages (insert messageID m')) ≫= fun _ =>
    (if eventType =s? "" then mret tt else guard_tx (marshals m') ErrEncoding) ≫= fun _ =>
    eventID ← insertOptionalSyncEvent eventType None m'.(m_ConversationID) (messageSyncEventPayload m') now;
    mret (m', eventID)).

Definition UpdateMessageEnvelopeWithSyncEvent (now : Z) (messageID accountID ciphertext cryptoProtocol cryptoMetadata : string)
    : Tx (MessageEnvelope * Z) :=
  updateMessageEnvelope now messageID accountID ciphertext cryptoProtocol cryptoMetadata "message.envelope.edited".

(** [releaseMessageAttachments]: the links of the message go, and with them
    the attachments nothing links, whose blobs are queued. *)
Definition linked_attachments (c : Content) (messageID : string) : list (string * string) :=
  omap (fun '(aid, mid) => if mid =s? messageID
                           then (fun a => (aid, a.(at_storage_key))) <$> c.(attachments) !! aid else None)
       (map_to_list c.(message_attachments)).

Definition release_one (now : Z) (item : string * string) : Tx unit :=
  d ← read (fun d => d);
  if exists_in d.(content).(attachments) item.1 && negb (exists_in d.(content).(message_attachments) item.1)
  then on_content (upd_attachments (delete item.1)) ≫= fun _ => enqueueBlobDeletion now item.2
  else mret tt.

Definition releaseMessageAttachments (now : Z) (messageID : string) : Tx unit :=
  items ← read (fun d => linked_attachments d.(content) messageID);
  match items with
  | [] => mret tt
  | _ => on_content (upd_message_attachments (filter (fun kv => kv.2 <> messageID))) ≫= fun _ =>
         for_each items (release_one now)
  end.

Definition messageCreatedEventID (d : DB) (conversationID messageID : string) (createdAt : Z) : Z :=
  foldr Z.max 0 (omap (fun '(id, e) =>
    if bool_decide (e.(se_conversation_id) = Some conversationID) && (e.(se_type) =s? "message.envelope.created") &&
       (e.(se_created_at) =? createdAt) && bool_decide (p_str e.(se_payload) "message_id" = Some messageID)
    then Some id else None) (map_to_list d.(events).(sync_events))).

Definition deleteMessageEnvelope (now : Z) (messageID accountID markerCiphertext cryptoProtocol cryptoMetadata : string)
    (eventType : string) : Tx (MessageEnvelope * Z) :=
  guard_tx (negb (markerCiphertext =s? "") && negb (TrimSpace cryptoProtocol =s? "")) ErrForbidden ≫= fun _ =>
  let cryptoMetadata := empty_json cryptoMetadata
    ("{" +:+ Json.quote +:+ "deleted" +:+ Json.quote +:+ ":true}") in
  transaction (
    d ← read (fun d => d);
    m ← require (live_owned d now messageID accountID) (mutation_error d now messageID);
    let m' := mkMessageEnvelope m.(m_ID) m.(m_ConversationID) m.(m_SenderAccountID) m.(m_SenderDeviceID)
      m.(m_IdempotencyKey) markerCiphertext cryptoProtocol cryptoMetadata "[]" m.(m_ReplyToID)
      m.(m_ThreadRootID) m.(m_CreatedAt) m.(m_EditedAt) (Some now) m.(m_ExpiresAt) in
    on_content (upd_messages (insert messageID m')) ≫= fun _ =>
    releaseMessageAttachments now messageID ≫= fun _ =>
    from ← read (fun d => messageCreatedEventID d m'.(m_ConversationID) messageID m'.(m_CreatedAt));
    on_events (upd_sync_events (redact_where (fun id e =>
      (from <=? id) && copies_message message_version_type m'.(m_ConversationID) messageID e))) ≫= fun _ =>
    (if eventType =s? "" then mret tt else guard_tx (marshals m') ErrEncoding) ≫= fun _ =>
    eventID ← insertOptionalSyncEvent eventType None m'.(m_ConversationID) (messageSyncEventPayload m') now;
    mret (m', eventID)).

Definition DeleteMessageEnvelopeWithSyncEvent (now : Z)
    (messageID accountID markerCiphertext cryptoProtocol cryptoMetadata : string) : Tx (MessageEnvelope * Z) :=
  deleteMessageEnvelope now messageID accountID markerCiphertext cryptoProtocol cryptoMetadata "message.envelope.deleted".

(** ** Reading *)

Definition MessageByID (now : Z) (messageID : string) : Tx MessageEnvelope :=
  d ← read (fun d => d);
  m ← require (d.(content).(messages) !! messageID) ErrNotFound;
  guard_tx (unexpired now m) ErrNotFound ≫= fun _ =>
  mret m.

Definition messageByIdempotency (now : Z) (deviceID key : string) : Tx MessageEnvelope :=
  d ← read (fun d => d);
  m ← require (message_by_key d deviceID key) ErrNotFound;
  guard_tx (unexpired now m) ErrNotFound ≫= fun _ =>
  mret m.

Definition MessageForAccount (now : Z) (messageID accountID : string) : Tx MessageEnvelope :=
  d ← read (fun d => d);
  m ← require (d.(content).(messages) !! messageID) ErrNotFound;
  guard_tx (is_member d m.(m_ConversationID) accountID && negb (blocked_by d accountID m.(m_SenderAccountID)))
    ErrNotFound ≫= fun _ =>
  guard_tx (unexpired now m) ErrMessageExpired ≫= fun _ =>
  mret m.

Definition messageCursor (d : DB) (now : Z) (conversationID messageID : string) : option Z :=
  match d.(content).(messages) !! messageID with
  | Some m => if (m.(m_ConversationID) =s? conversationID) && unexpired now m then Some m.(m_CreatedAt) else None
  | None => None
  end.

Definition conversationRetention (conversationID : string) : Tx (option Z) :=
  d ← read (fun d => d);
  cv ← require (d.(rooms).(conversations) !! conversationID) ErrNotFound;
  mret cv.(cv_retention_seconds).

Record ListMessagesOptions := mkListOptions { lo_Limit : Z; lo_BeforeID : string; lo_AfterID : string }.

Definition stamp (m : MessageEnvelope) : Z * string := (m.(m_CreatedAt), m.(m_ID)).

Definition visible_messages (d : DB) (now : Z) (conversationID accountID : string) : list MessageEnvelope :=
  List.filter (fun m => (m.(m_ConversationID) =s? conversationID) && unexpired now m &&
                        negb (blocked_by d accountID m.(m_SenderAccountID)))
    (map_to_list d.(content).(messages)).*2.

Definition newest_first (l : list MessageEnvelope) : list MessageEnvelope :=
  order_by (fun a b => stamp_le (stamp b) (stamp a)) l.
Definition oldest_first (l : list MessageEnvelope) : list MessageEnvelope :=
  order_by (fun a b => stamp_le (stamp a) (stamp b)) l.

Definition page_limit (limit : Z) : Z := if (limit <=? 0) || (200 <? limit) then 100 else limit.

Definition ListMessages (now : Z) (conversationID accountID : string) (opts : ListMessagesOptions)
    : Tx (list MessageEnvelope) :=
  d ← read (fun d => d);
  guard_tx (is_member d conversationID accountID) ErrNotMember ≫= fun _ =>
  let limit := Z.to_nat (page_limit opts.(lo_Limit)) in
  guard_tx ((opts.(lo_BeforeID) =s? "") || (opts.(lo_AfterID) =s? "")) ErrCursorsExclusive ≫= fun _ =>
  if negb (opts.(lo_BeforeID) =s? "") then
    at_ ← require (messageCursor d now conversationID opts.(lo_BeforeID)) ErrNotFound;
    mret (take limit (newest_first (List.filter (fun m => stamp_lt (stamp m) (at_, opts.(lo_BeforeID)))
                                     (visible_messages d now conversationID accountID))))
  else if negb (opts.(lo_AfterID) =s? "") then
    at_ ← require (messageCursor d now conversationID opts.(lo_AfterID)) ErrNotFound;
    mret (take limit (oldest_first (List.filter (fun m => stamp_lt (at_, opts.(lo_AfterID)) (stamp m))
                                     (visible_messages d now conversationID accountID))))
  else mret (take limit (newest_first (visible_messages d now conversationID accountID))).
