(* ===== verification/Retention.v ===== *)
(** * Retention: expired content and old events

    [PruneExpiredContent], [redactOrphanedMessageEvents] and
    [PruneSyncEvents] of [internal/storage/message_store.go], the blob
    deletion queue, and the triggers of migration 0044 that mark what was
    pruned. *)

From S2P Require Import Prelude GoStrings GoJson Domain Admission Database Conversations Messages.
From stdpp Require Import base numbers list strings gmap fin_maps sorting.
From Stdlib Require Import ZArith ZifyBool Lia.
Open Scope Z_scope.

(** ** Expired content *)

Definition prune_batch : nat := 500.

(** [SELECT id ... WHERE expires_at <= ? ORDER BY expires_at, id LIMIT 500] *)
Definition expired_page (d : DB) (now : Z) : list string :=
  map snd (take prune_batch (order_by stamp_le
    (omap (fun '(id, m) => match m.(m_ExpiresAt) with
                           | Some t => if t <=? now then Some (t, id) else None
                           | None => None
                           end) (map_to_list d.(content).(messages))))).

Definition mem (l : list string) (x : string) : bool := bool_decide (x ∈ l).
Definition mem_opt (l : list string) (x : option string) : bool :=
  match x with Some x => mem l x | None => false end.

(** The attachments of the page and their storage keys. *)
Definition page_attachments (c : Content) (ids : list string) : list string :=
  omap (fun '(aid, mid) => if mem ids mid then Some aid else None) (map_to_list c.(message_attachments)).
Definition storage_keys (c : Content) (aids : list string) : list string :=
  omap (fun aid => at_storage_key <$> c.(attachments) !! aid) aids.

Definition OrphanedAttachmentGrace : Z := 24 * hour.

(** Unlinked uploads past their grace, oldest first. *)
Definition orphan_page (c : Content) (cutoff : Z) : list (string * AttachmentRow) :=
  take prune_batch (order_by (fun a b => stamp_le (at_created_at a.2, a.1) (at_created_at b.2, b.1))
    (List.filter (fun '(aid, a) => (a.(at_created_at) <? cutoff) && negb (exists_in c.(message_attachments) aid))
       (map_to_list c.(attachments)))).

Definition redactBackfillWindow : Z := 2000.

Definition minimum (l : list Z) : option Z :=
  foldr (fun x acc => match acc with Some y => Some (Z.min x y) | None => Some x end) None l.

(** The window starts at the first event after the cursor; the cursor wraps
    to the start when nothing is left after it. *)
Definition redactOrphanedMessageEvents : Tx Z := fun s =>
  let from := s.(redactCursor) in
  match minimum (List.filter (fun id => from <? id) (map_to_list s.(db).(events).(sync_events)).*1) with
  | None => (Ok 0, s)
  | Some first =>
      let to := first + redactBackfillWindow - 1 in
      let live e := match p_str e.(se_payload) "message_id" with
                    | Some mid => match s.(db).(content).(messages) !! mid with
                                  | Some me => bool_decide (me.(m_DeletedAt) = None) ||
                                               (e.(se_type) =s? "message.envelope.deleted")
                                  | None => false
                                  end
                    | None => false
                    end in
      (Ok to, with_db s (upd_events (upd_sync_events (redact_where (fun id e =>
         (first <=? id) && (id <=? to) && message_envelope_type e.(se_type) && has_envelope e && negb (live e))))
         s.(db)))
  end.

Definition set_redact_cursor (c : Z) : Tx unit := fun s =>
  (Ok tt, mkStore s.(db) s.(limits) s.(admission) c s.(session_policy)).

Definition PruneExpiredContent (now : Z) : Tx (Z * list string) :=
  r ← transaction (
    d ← read (fun d => d);
    let ids := expired_page d now in
    let aids := page_attachments d.(content) ids in
    let keys := storage_keys d.(content) aids in
    on_content (upd_message_attachments (filter (fun kv => mem ids kv.2 = false))) ≫= fun _ =>
    on_content (fun c => upd_attachments (filter (fun kv =>
      mem aids kv.1 && negb (exists_in c.(message_attachments) kv.1) = false)) c) ≫= fun _ =>
    free ← read (fun d => List.filter (fun k =>
      negb (existsb (fun '(_, a) => a.(at_storage_key) =s? k) (map_to_list d.(content).(attachments)))) keys);
    let conversations := omap (fun i => m_ConversationID <$> d.(content).(messages) !! i) ids in
    on_events (upd_sync_events (redact_where (fun _ e =>
      mem_opt conversations e.(se_conversation_id) && message_envelope_type e.(se_type) &&
      mem_opt ids (p_str e.(se_payload) "message_id") && has_envelope e))) ≫= fun _ =>
    backfillTo ← redactOrphanedMessageEvents;
    on_content (delete_messages (mem ids)) ≫= fun _ =>
    orphans ← read (fun d => orphan_page d.(content) (time_add now (- OrphanedAttachmentGrace)));
    on_content (fun c => delete_attachments (mem orphans.*1) c) ≫= fun _ =>
    let storageKeys := free ++ map (fun o => at_storage_key o.2) orphans in
    for_each storageKeys (enqueueBlobDeletion now) ≫= fun _ =>
    mret (len ids, storageKeys, backfillTo));
  set_redact_cursor r.2 ≫= fun _ =>
  mret r.1.

Definition PruneExpiredMessages (now : Z) : Tx Z :=
  r ← PruneExpiredContent now;
  mret r.1.

(** ** Old events *)

(** SQLite's clock in the stored layout: to the millisecond. *)
Definition sql_now (now : Z) : Z := now - now mod millisecond.

(** [t LIKE p || '%'], case-insensitive in ASCII, for a lower-case [p] without wildcards. *)
Definition HasPrefixLike (t p : string) : bool := HasPrefix (ToLower t) p.

Definition roster_filtered_type (t : string) : bool :=
  (t =s? "mls.message.created") || HasPrefixLike t "message.envelope." || HasPrefixLike t "call.".

(** [syncEventEnvelopeLive] *)
Definition envelope_live (d : DB) (now : Z) (e : SyncEventRow) : bool :=
  negb (HasPrefixLike e.(se_type) "message.envelope.") ||
  match p_str e.(se_payload) "message_id" with
  | Some mid => match d.(content).(messages) !! mid with
                | Some m => unexpired (sql_now now) m &&
                            (bool_decide (m.(m_DeletedAt) = None) || (e.(se_type) =s? "message.envelope.deleted"))
                | None => false
                end
  | None => false
  end.

Definition raise_mark {K} `{Countable K} (k : K) (id : Z) (m : gmap K Z) : gmap K Z :=
  <[k := match m !! k with Some old => Z.max old id | None => id end]> m.

(** The three AFTER DELETE triggers. *)
Definition mark_deleted (d : DB) (now id : Z) (e : SyncEventRow) (ev : Events) : Events :=
  let ev := upd_prune_state (fmap (fun st => mkPruneState st.(legacy_through) (Z.max st.(pruned_through) id))) ev in
  match e.(se_account_id), e.(se_conversation_id) with
  | Some a, _ => upd_account_marks (raise_mark (a, default ""%string e.(se_device_id)) id) ev
  | None, Some c => if envelope_live d now e
                    then upd_conversation_marks (raise_mark (c, roster_filtered_type e.(se_type)) id) ev
                    else ev
  | None, None => ev
  end.

(** Deleting an event removes its push wake jobs and MLS messages with it. *)
Definition delete_event (now : Z) (d : DB) (id : Z) : DB :=
  match d.(events).(sync_events) !! id with
  | None => d
  | Some e =>
      upd_events (fun ev => mark_deleted d now id e (upd_sync_events (delete id) ev))
        (upd_mls (upd_mls_messages (filter (fun kv => kv.2.(mm_sync_event_id) <> Some id)))
          (upd_push (upd_push_wake_jobs (filter (fun kv => kv.1.1.1 <> id))) d))
  end.

(** [SELECT id FROM sync_events WHERE created_at < ? ORDER BY id LIMIT 500] *)
Definition old_page (d : DB) (cutoff : Z) : list Z :=
  take prune_batch (order_by Z.leb
    (omap (fun '(id, e) => if e.(se_created_at) <? cutoff then Some id else None)
       (map_to_list d.(events).(sync_events)))).

(** [mls_revocations.commit_message_id REFERENCES conversation_mls_messages(id)]
    has no delete action: a statement that leaves a dangling reference fails
    and changes nothing. *)
Definition commit_exists (d : DB) (r : RevocationRow) : bool :=
  match r.(rv_commit_message_id) with Some m => exists_in d.(mls).(mls_messages) m | None => true end.
Definition commits_exist (d : DB) : bool :=
  forallb (fun '(_, r) => commit_exists d r) (map_to_list d.(mls).(mls_revocations)).

(** [pruneEventRows]: pages until a short one, or until a page fails.  Every
    full page removes 500 rows, so the size of the table bounds the number of
    pages.  The result is the number of rows removed and the error. *)
Fixpoint prune_loop (fuel : nat) (now cutoff total : Z) (d : DB) : option (Z * option store_error * DB) :=
  match fuel with
  | O => None
  | S fuel =>
      let ids := old_page d cutoff in
      let d' := foldl (delete_event now) d ids in
      if negb (commits_exist d') then Some (total, Some ErrConstraint, d)
      else
        let total := total + len ids in
        if len ids <? Z.of_nat prune_batch then Some (total, None, d') else prune_loop fuel now cutoff total d'
  end.

Definition PruneSyncEvents (now olderThan : Z) (d : DB) : option (Z * option store_error * DB) :=
  prune_loop (S (size d.(events).(sync_events))) now olderThan 0 d.

(** ** The blob deletion queue *)

Definition QueueBlobDeletion (now : Z) (storageKey : string) : Tx unit := enqueueBlobDeletion now storageKey.

Definition deletions_limit (limit : Z) : Z := if limit <=? 0 then 100 else if 500 <? limit then 500 else limit.

Definition PendingBlobDeletions (d : DB) (limit : Z) : list string :=
  map fst (take (Z.to_nat (deletions_limit limit))
    (order_by (fun a b : string * BlobDeletionRow =>
        (bd_attempts a.2 <? bd_attempts b.2) ||
        ((bd_attempts a.2 =? bd_attempts b.2) && stamp_le (bd_created_at a.2, a.1) (bd_created_at b.2, b.1)))
      (map_to_list d.(content).(blob_queue)))).

Definition CompleteBlobDeletion (storageKey : string) : Tx unit :=
  on_content (upd_blob_queue (delete storageKey)).

Definition RecordBlobDeletionFailure (now : Z) (storageKey : string) : Tx unit :=
  on_content (upd_blob_queue (alter (fun r =>
    mkBlobDeletionRow (r.(bd_attempts) + 1) r.(bd_created_at) (Some now)) storageKey)).
