(* ===== verification/MessageEvents.v ===== *)
(** * The event log never keeps what a message no longer says

    Every message event carries a copy of the envelope, so a message that was
    deleted, expired or pruned would live on in the log.  The store redacts
    those copies; the invariant here says it misses none, over every
    operation that touches messages, events or conversations. *)

From S2P Require Import Prelude GoStrings GoJson Domain Admission Database Conversations Memberships Messages Retention.
From stdpp Require Import base numbers list strings gmap fin_maps sorting.
From Stdlib Require Import ZArith ZifyBool Lia.
Open Scope Z_scope.

(** ** The invariant *)

Definition deleted_type : string := "message.envelope.deleted".

(** What an event that holds an envelope says about the message's row. *)
Definition copy_ok (M : gmap string MessageEnvelope) (e : SyncEventRow) : Prop :=
  forall env, p_envelope e.(se_payload) = Some env ->
  exists mid row,
    p_str e.(se_payload) "message_id" = Some mid /\ M !! mid = Some row /\
    message_envelope_type e.(se_type) = true /\
    e.(se_conversation_id) = Some row.(m_ConversationID) /\
    (e.(se_type) = deleted_type -> row.(m_DeletedAt) <> None /\ env.(m_Ciphertext) = row.(m_Ciphertext)) /\
    (row.(m_DeletedAt) <> None -> e.(se_type) = deleted_type).

Definition about (mid : string) (e : SyncEventRow) : Prop := p_str e.(se_payload) "message_id" = Some mid.
Definition holds_copy (mid : string) (e : SyncEventRow) : Prop := has_envelope e = true /\ about mid e.
Definition created_for (mid : string) (e : SyncEventRow) : Prop :=
  e.(se_type) = "message.envelope.created"%string /\ about mid e.

Definition no_copy (E : Events) (mid : string) : Prop :=
  forall id e, E.(sync_events) !! id = Some e -> ~ holds_copy mid e.

Record log_inv (M : gmap string MessageEnvelope) (E : Events) : Prop := {
  log_nonneg : 0 <= E.(sync_seq);
  log_seq : forall id e, E.(sync_events) !! id = Some e -> 0 < id <= E.(sync_seq);
  log_copy : forall id e, E.(sync_events) !! id = Some e -> copy_ok M e;
  log_created : forall id e id' e' mid, E.(sync_events) !! id = Some e -> holds_copy mid e ->
    E.(sync_events) !! id' = Some e' -> created_for mid e' -> id' <= id }.

Record content_inv (d : DB) : Prop := {
  ci_log : log_inv d.(content).(messages) d.(events);
  ci_clean : forall c, is_Some (d.(rooms).(conversations) !! c) -> nullableEmptyString c = Some c;
  ci_row : forall mid m, d.(content).(messages) !! mid = Some m ->
    m.(m_ID) = mid /\ is_Some (d.(rooms).(conversations) !! m.(m_ConversationID)) }.

Ltac str_to_prop :=
  repeat match goal with H : (_ =s? _) = true |- _ => apply str_eqb_true in H end.

(** ** Redaction *)

Lemma lookup_redact_where P m id :
  redact_where P m !! id = (fun e => if P id e : bool then redact e else e) <$> m !! id.
Proof. unfold redact_where. rewrite map_lookup_imap. by destruct (m !! id). Qed.

Lemma redact_no_envelope e : has_envelope (redact e) = false.
Proof. by unfold has_envelope, redact; simpl. Qed.

Lemma redact_about mid e : about mid (redact e) <-> about mid e.
Proof. unfold about, redact. simpl. unfold p_str at 1. simpl. by destruct (p_str (se_payload e) _). Qed.

Lemma has_envelope_true e : has_envelope e = true <-> exists env, p_envelope e.(se_payload) = Some env.
Proof. apply bool_decide_eq_true. Qed.

Lemma holds_copy_redact mid e : ~ holds_copy mid (redact e).
Proof. intros [H _]. by rewrite redact_no_envelope in H. Qed.

Lemma copy_ok_redact M e : copy_ok M (redact e).
Proof.
  intros env H. assert (has_envelope (redact e) = true) as H' by (apply has_envelope_true; eauto).
  by rewrite redact_no_envelope in H'.
Qed.

Lemma log_redact M E P : log_inv M E -> log_inv M (upd_sync_events (redact_where P) E).
Proof.
  intros [H0 Hs Hc Hcr]. constructor; simpl; [done|..].
  - intros id e. rewrite lookup_redact_where. intros (e0 & He & _)%fmap_Some_1. by eapply Hs.
  - intros id e. rewrite lookup_redact_where. intros (e0 & He & ->)%fmap_Some_1.
    destruct (P id e0); [apply copy_ok_redact|by eapply Hc].
  - intros id e id' e' mid. rewrite !lookup_redact_where.
    intros (e0 & He & ->)%fmap_Some_1 Hcopy (e1 & He' & ->)%fmap_Some_1 [Ht Hm].
    destruct (P id e0); [by apply holds_copy_redact in Hcopy|].
    apply (Hcr id e0 id' e1 mid He Hcopy He'). destruct (P id' e1); [|done].
    split; [exact Ht|by apply redact_about].
Qed.

Lemma redact_no_copy E P mid :
  (forall id e, E.(sync_events) !! id = Some e -> holds_copy mid e -> P id e = true) ->
  no_copy (upd_sync_events (redact_where P) E) mid.
Proof.
  intros HP id e. simpl. rewrite lookup_redact_where. intros (e0 & He & ->)%fmap_Some_1 Hc.
  destruct (P id e0) eqn:Ep; [by apply holds_copy_redact in Hc|]. by rewrite (HP id e0 He Hc) in Ep.
Qed.

Lemma redact_keeps_no_copy E P mid : no_copy E mid -> no_copy (upd_sync_events (redact_where P) E) mid.
Proof. intros H. apply redact_no_copy. intros id e He Hc. by destruct (H id e He). Qed.

(** ** Other changes of the log and of the rows *)

Lemma log_subset M E E' :
  (forall id e, E'.(sync_events) !! id = Some e -> E.(sync_events) !! id = Some e) ->
  E'.(sync_seq) = E.(sync_seq) -> log_inv M E -> log_inv M E'.
Proof.
  intros Hsub Hseq [H0 Hs Hc Hcr]. constructor; [by rewrite Hseq|..].
  - intros id e He. rewrite Hseq. eauto.
  - intros id e He. eauto.
  - intros id e id' e' mid He Hcp He'. eauto.
Qed.

Definition append (row : SyncEventRow) (E : Events) : Events :=
  let id := E.(sync_seq) + 1 in upd_sync_seq (fun _ => id) (upd_sync_events (insert id row) E).

Lemma log_append M E row :
  copy_ok M row -> (forall mid, created_for mid row -> no_copy E mid) ->
  log_inv M E -> log_inv M (append row E).
Proof.
  intros Hok Hnew [H0 Hs Hc Hcr]. constructor; simpl; [lia|..].
  - intros id e. rewrite lookup_insert_Some. intros [[<- _]|[_ He]]; [lia|]. apply Hs in He. lia.
  - intros id e. rewrite lookup_insert_Some. intros [[_ <-]|[_ He]]; [done|]. eauto.
  - intros id e id' e' mid. rewrite !lookup_insert_Some.
    intros [[<- <-]|[_ He]] Hcopy [[<- <-]|[_ He']] Hcre; [lia| |by destruct (Hnew mid Hcre id e He)|by eapply Hcr].
    apply Hs in He'. lia.
Qed.

Lemma log_plain M E row :
  p_envelope row.(se_payload) = None ->
  (row.(se_type) <> "message.envelope.created"%string) -> log_inv M E -> log_inv M (append row E).
Proof.
  intros Hp Ht. apply log_append; [|by intros mid [? _]].
  intros env H. congruence.
Qed.

(** The rows may change as long as those with a copy keep what the copy
    relies on. *)
Lemma log_rows M M' E :
  (forall mid row, M !! mid = Some row -> no_copy E mid \/ exists row', M' !! mid = Some row' /\
     row'.(m_ConversationID) = row.(m_ConversationID) /\ row'.(m_DeletedAt) = row.(m_DeletedAt) /\
     (row.(m_DeletedAt) <> None -> row'.(m_Ciphertext) = row.(m_Ciphertext))) ->
  log_inv M E -> log_inv M' E.
Proof.
  intros HM [H0 Hs Hc Hcr]. constructor; [done|done| |done].
  intros id e He env Henv. destruct (Hc id e He env Henv) as (mid & row & Hm & Hrow & Ht & Hcv & Hdel & Hty).
  destruct (HM mid row Hrow) as [Hno|(row' & Hrow' & E1 & E2 & E3)].
  - destruct (Hno id e He). split; [apply has_envelope_true; eauto|done].
  - exists mid, row'. rewrite E1, E2. split_and!; try done. intros Hd. destruct (Hdel Hd) as [Hd1 Hd2].
    split; [done|]. rewrite E3; done.
Qed.

(** ** Steps that leave messages, events and conversations alone *)

Definition same_log (d d' : DB) : Prop :=
  d'.(content).(messages) = d.(content).(messages) /\ d'.(events) = d.(events) /\
  d'.(rooms).(conversations) = d.(rooms).(conversations).

#[export] Instance same_log_preorder : PreOrder same_log.
Proof. split; [done|]. intros d1 d2 d3 (? & ? & ?) (? & ? & ?). split_and!; congruence. Qed.

Definition frames {A} (m : Tx A) : Prop := forall s x s', m s = (Ok x, s') -> same_log s.(db) s'.(db).

Lemma content_inv_same d d' : same_log d d' -> content_inv d -> content_inv d'.
Proof. intros (E1 & E2 & E3) [H1 H2 H3]. constructor; rewrite ?E1, ?E2, ?E3; done. Qed.

Lemma frames_for_each {A} (l : list A) f : (forall x, frames (f x)) -> frames (for_each l f).
Proof.
  intros Hf. induction l as [|x l IH]; intros s u s' H; simpl in H; run H; [done|].
  etrans; [by eapply Hf|by eapply IH].
Qed.

Lemma frames_link mid a : frames (link_attachment mid a).
Proof. unfold link_attachment. intros s x s' H. by run H. Qed.

Lemma frames_enqueue_blob now k : frames (enqueueBlobDeletion now k).
Proof. unfold enqueueBlobDeletion. intros s x s' H. by run H. Qed.

Lemma frames_wakes now id c a t1 t2 : frames (enqueuePushWakeJobs now id c a t1 t2).
Proof. unfold enqueuePushWakeJobs. intros s x s' H. by run H. Qed.

Lemma frames_release now mid : frames (releaseMessageAttachments now mid).
Proof.
  unfold releaseMessageAttachments. intros s x s' H. run H.
  destruct (linked_attachments _ _) as [|i l]; run H; [done|].
  etrans; [|eapply frames_for_each; [|exact H]]; [done|]. clear.
  intros i s x s' H. unfold release_one in H. run H. destruct (_ && _); run H; [|done].
  etrans; [|by eapply frames_enqueue_blob]. done.
Qed.

Lemma insertSyncEvent_append ty a c p now s id s' :
  insertSyncEvent ty a c p now s = (Ok id, s') ->
  s' = with_db s (upd_events (append (mkSyncEventRow ty (nullableString a) (nullableEmptyString c) None p now)) s.(db)).
Proof. unfold insertSyncEvent. by intros [-> ->]%insert_event_ok. Qed.

(** ** Saving *)

Lemma message_by_key_some d dev key m :
  message_by_key d dev key = Some m -> exists k, d.(content).(messages) !! k = Some m.
Proof.
  unfold message_by_key. intros H. apply head_Some_elem_of in H.
  apply list_elem_of_In, List.filter_In in H as [H _]. apply list_elem_of_In in H.
  apply list_elem_of_fmap in H as ([k m'] & -> & Hin%elem_of_map_to_list). eauto.
Qed.

Lemma lookup_delete_messages ids c mid m' :
  (delete_messages ids c).(messages) !! mid = Some m' ->
  ids mid = false /\ exists m, c.(messages) !! mid = Some m /\ m' = clear_refs ids m.
Proof.
  simpl. rewrite lookup_fmap. intros (m & H & ->)%fmap_Some_1.
  apply map_lookup_filter_Some in H as [H Hid]. simpl in Hid. eauto.
Qed.

Lemma lookup_delete_messages_kept ids c mid m :
  c.(messages) !! mid = Some m -> ids mid = false ->
  (delete_messages ids c).(messages) !! mid = Some (clear_refs ids m).
Proof.
  intros H Hid. simpl. rewrite lookup_fmap.
  by rewrite (map_lookup_filter_Some_2 _ _ _ m); simpl.
Qed.

Lemma content_inv_redact d P :
  content_inv d -> content_inv (upd_events (upd_sync_events (redact_where P)) d).
Proof. intros [Hlog Hclean Hrow]. constructor; [by apply log_redact|done|done]. Qed.

(** Deleting rows whose copies are all redacted. *)
Lemma content_inv_delete d ids :
  (forall mid, ids mid = true -> no_copy d.(events) mid) ->
  content_inv d -> content_inv (upd_content (delete_messages ids) d).
Proof.
  intros Hno [Hlog Hclean Hrow]. constructor; [|done|].
  - apply (log_rows (messages (content d))); [|done]. intros mid row Hm.
    destruct (ids mid) eqn:E; [left; by apply Hno|].
    right. eexists. split; [by apply lookup_delete_messages_kept|done].
  - intros mid m' Hm. apply lookup_delete_messages in Hm as (_ & m & Hm & ->). apply (Hrow mid m Hm).
Qed.

(** The copies of a stored message are found by conversation, type and id. *)
Lemma copy_found d mid row id e :
  content_inv d -> d.(content).(messages) !! mid = Some row -> d.(events).(sync_events) !! id = Some e ->
  holds_copy mid e -> copies_message message_envelope_type row.(m_ConversationID) mid e = true.
Proof.
  intros Hinv Hm He [Hc Ha]. pose proof Hc as Hc'. apply has_envelope_true in Hc' as [env Henv].
  destruct (log_copy _ _ (ci_log _ Hinv) id e He env Henv) as (mid' & row' & Hm' & Hrow & Ht & Hcv & _).
  assert (mid' = mid) as -> by (unfold about in Ha; congruence). assert (row' = row) as -> by congruence.
  unfold copies_message. unfold about in Ha. rewrite Hcv, Ht, Ha, Hc, !bool_decide_true; done.
Qed.

Lemma deleteExpired_inv dev key now s x s' :
  deleteExpiredMessageByIdempotency dev key now s = (Ok x, s') -> content_inv s.(db) -> content_inv s'.(db).
Proof.
  unfold deleteExpiredMessageByIdempotency. intros H Hinv. run H.
  destruct (message_by_key (db s) dev key) as [m|] eqn:Em; [|by run H].
  destruct (unexpired now m); run H; [done|].
  apply message_by_key_some in Em as [k Hk]. destruct (ci_row _ Hinv k m Hk) as [<- _].
  apply (content_inv_delete (upd_events _ _)); [|by apply content_inv_redact].
  intros mid ->%str_eqb_true. apply redact_no_copy. intros id e. by apply copy_found.
Qed.

Lemma log_fresh M E mid : log_inv M E -> M !! mid = None -> no_copy E mid.
Proof.
  intros Hinv Hm id e He [Hc Ha]. apply has_envelope_true in Hc as [env Henv].
  destruct (log_copy _ _ Hinv id e He env Henv) as (mid' & row & Hm' & Hrow & _). unfold about in Ha. congruence.
Qed.

Lemma insert_message_inv m s x s' :
  insert_message m s = (Ok x, s') -> content_inv s.(db) ->
  content_inv s'.(db) /\ no_copy s'.(db).(events) m.(m_ID) /\ s'.(db).(content).(messages) !! m.(m_ID) = Some m.
Proof.
  unfold insert_message. intros H [Hlog Hclean Hrow]. run H. unfold exists_in in *. bool_to_prop.
  assert (messages (content (db s)) !! m_ID m = None) as Hnew by (by apply eq_None_not_Some).
  simpl. rewrite lookup_insert_eq. split_and!; [|by eapply log_fresh|done]. constructor; simpl; [|done|].
  - apply (log_rows (messages (content (db s)))); [|done]. intros mid row Hm. right. exists row.
    rewrite lookup_insert_ne; [done|congruence].
  - intros mid m'. rewrite lookup_insert_Some. intros [[<- <-]|[_ Hm]]; [done|by apply Hrow].
Qed.

(** Events of the messages' own types: the copy is of the stored row. *)
Lemma content_inv_append d row :
  copy_ok d.(content).(messages) row -> (forall mid, created_for mid row -> no_copy d.(events) mid) ->
  content_inv d -> content_inv (upd_events (append row) d).
Proof. intros Hc Hn [Hlog Hclean Hrow]. constructor; [by apply log_append|done|done]. Qed.

Lemma payload_about m : about m.(m_ID) (mkSyncEventRow "" None None None (messageSyncEventPayload m) 0).
Proof. done. Qed.

Lemma copy_ok_message M m row ty acc c now :
  M !! m.(m_ID) = Some row -> row.(m_ConversationID) = c -> message_envelope_type ty = true ->
  (ty = deleted_type <-> row.(m_DeletedAt) <> None) ->
  (ty = deleted_type -> m.(m_Ciphertext) = row.(m_Ciphertext)) ->
  copy_ok M (mkSyncEventRow ty acc (Some c) None (messageSyncEventPayload m) now).
Proof.
  intros Hm <- Ht Hd Hc env [= <-]. exists m.(m_ID), row. simpl. split_and!; try done; [|by apply Hd].
  intros E. split; [by apply Hd|by apply Hc].
Qed.

Lemma announce_inv now m s id s' :
  announce now m s = (Ok id, s') -> content_inv s.(db) -> no_copy s.(db).(events) m.(m_ID) ->
  s.(db).(content).(messages) !! m.(m_ID) = Some (stored m) -> content_inv s'.(db).
Proof.
  unfold announce. intros H Hinv Hno Hm. run H. apply insert_event_ok in Hrun0 as [-> ->].
  apply frames_wakes in Hrun1. eapply content_inv_same; [exact Hrun1|].
  apply content_inv_append; [|by intros mid [_ [= <-]]|done].
  by apply (copy_ok_message _ _ (stored m)).
Qed.

Lemma saveMessageEnvelope_inv newID now e b w s x s' :
  saveMessageEnvelope newID now e b w s = (Ok x, s') -> content_inv s.(db) -> content_inv s'.(db).
Proof.
  unfold saveMessageEnvelope. intros H Hinv. run H.
  match goal with Hd : deleteExpiredMessageByIdempotency _ _ _ _ = _ |- _ =>
    apply deleteExpired_inv in Hd; [|done]; rename Hd into Hinv1 end.
  destruct (message_by_key _ _ _) as [x0|]; run H; [done|].
  match goal with Hi : insert_message _ _ = _ |- _ => apply insert_message_inv in Hi as (Hinv2 & Hno & Hm); [|done] end.
  match goal with Hf : for_each _ _ _ = _ |- _ =>
    apply (frames_for_each _ _ (frames_link _)) in Hf; destruct (Hf) as (E1 & E2 & E3);
    apply (content_inv_same _ _ Hf) in Hinv2 end.
  match goal with Hb : (if b then _ else _) _ = _ |- _ => destruct b; [|by run Hb] end.
  eapply announce_inv; [eassumption|done| |]; simpl in *; rewrite ?E1, ?E2; done.
Qed.

(** ** Editing and deleting *)

Lemma live_owned_some d now mid a m :
  live_owned d now mid a = Some m ->
  d.(content).(messages) !! mid = Some m /\ m.(m_SenderAccountID) = a /\ m.(m_DeletedAt) = None /\
  unexpired now m = true /\ is_member d m.(m_ConversationID) a = true.
Proof.
  unfold live_owned. destruct (_ !! mid) as [m0|] eqn:E; [|done].
  destruct (_ && _) eqn:Eb; [|done]. intros [= ->]. bool_to_prop. str_to_prop. by split_and!.
Qed.

(** A live row has no [deleted] copy, so only version copies. *)
Lemma live_copy M E mid row id e :
  log_inv M E -> M !! mid = Some row -> row.(m_DeletedAt) = None ->
  E.(sync_events) !! id = Some e -> holds_copy mid e ->
  message_version_type e.(se_type) = true /\ e.(se_conversation_id) = Some row.(m_ConversationID).
Proof.
  intros Hinv Hm Hd He [Hc Ha]. apply has_envelope_true in Hc as [env Henv].
  destruct (log_copy _ _ Hinv id e He env Henv) as (mid' & row' & Hm' & Hrow & Ht & Hcv & Hdel & _).
  assert (mid' = mid) as -> by (unfold about in Ha; congruence). assert (row' = row) as -> by congruence.
  split; [|done]. unfold message_envelope_type in Ht. apply orb_prop in Ht as [?|Ht]; [done|].
  apply str_eqb_true in Ht. destruct (Hdel Ht). congruence.
Qed.

Lemma content_inv_row d mid row row' :
  d.(content).(messages) !! mid = Some row -> row'.(m_ID) = row.(m_ID) ->
  row'.(m_ConversationID) = row.(m_ConversationID) ->
  no_copy d.(events) mid \/ row.(m_DeletedAt) = None /\ row'.(m_DeletedAt) = None ->
  content_inv d -> content_inv (upd_content (upd_messages (insert mid row')) d).
Proof.
  intros Hm Ei Ec Hno [Hlog Hclean Hrow]. constructor; [|done|]; simpl.
  - apply (log_rows (messages (content d))); [|done]. intros mid' r Hr.
    destruct (decide (mid' = mid)) as [->|Hne].
    + destruct Hno as [Hno|[Hd Hd']]; [by left|]. right. exists row'. rewrite lookup_insert_eq.
      assert (r = row) as -> by congruence. split_and!; congruence.
    + right. exists r. by rewrite lookup_insert_ne.
  - intros mid' r. rewrite lookup_insert_Some. intros [[<- <-]|[_ Hr]]; [|by apply Hrow].
    rewrite Ei, Ec. by apply Hrow.
Qed.

Lemma event_checked ty m' s u s1 :
  (if ty =s? "" then mret tt else guard_tx (marshals m') ErrEncoding) s = (Ok u, s1) -> s1 = s.
Proof. destruct (ty =s? ""); intros H; by run H. Qed.

(** The event of a changed row. *)
Lemma mutation_event_inv ty m now s id s' :
  insertOptionalSyncEvent ty None m.(m_ConversationID) (messageSyncEventPayload m) now s = (Ok id, s') ->
  content_inv s.(db) -> s.(db).(content).(messages) !! m.(m_ID) = Some m ->
  (ty <> ""%string -> message_envelope_type ty = true /\ ty <> "message.envelope.created"%string /\
                      (ty = deleted_type <-> m.(m_DeletedAt) <> None)) ->
  content_inv s'.(db).
Proof.
  unfold insertOptionalSyncEvent. intros H Hinv Hm Hty. destruct (ty =s? "") eqn:E; [by run H|].
  apply str_eqb_false in E. destruct (Hty E) as (Ht & Hc & Hd).
  apply insertSyncEvent_append in H as ->. destruct (ci_row _ Hinv _ _ Hm) as [_ Hcv].
  apply content_inv_append; [|by intros mid [? _]|done].
  rewrite (ci_clean _ Hinv _ Hcv). by apply (copy_ok_message _ m m).
Qed.

Lemma updateMessageEnvelope_inv now mid a ct cp cm ty s x s' :
  ty = ""%string \/ ty = "message.envelope.edited"%string ->
  updateMessageEnvelope now mid a ct cp cm ty s = (Ok x, s') -> content_inv s.(db) -> content_inv s'.(db).
Proof.
  unfold updateMessageEnvelope. intros Hty H Hinv. run H.
  match goal with Hl : live_owned _ _ _ _ = _ |- _ => apply live_owned_some in Hl as (Hm & _ & Hd & _) end.
  destruct (ci_row _ Hinv mid _ Hm) as [<- Hcv]. apply event_checked in Hrun1 as ->.
  eapply mutation_event_inv; [exact Hrun2| | |]; simpl.
  - eapply content_inv_row; [exact Hm|done..|by right|done].
  - by rewrite lookup_insert_eq.
  - intros Hne. destruct Hty as [->| ->]; [done|]. by rewrite Hd.
Qed.

Lemma foldr_max_le l b : 0 <= b -> (forall x, x ∈ l -> x <= b) -> foldr Z.max 0 l <= b.
Proof. intros Hb. induction l as [|x l IH]; simpl; intros H; [done|].
  apply Z.max_lub; [apply H; constructor|]. apply IH. intros y Hy. apply H. by constructor.
Qed.

(** No copy is older than the created event the redaction starts from. *)
Lemma messageCreatedEventID_le M d c mid t id e :
  log_inv M d.(events) -> d.(events).(sync_events) !! id = Some e -> holds_copy mid e ->
  messageCreatedEventID d c mid t <= id.
Proof.
  intros Hinv He Hc. unfold messageCreatedEventID.
  apply foldr_max_le; [pose proof (log_seq _ _ Hinv id e He); lia|]. intros id'.
  rewrite list_elem_of_omap. intros ([id0 e0] & Hin%elem_of_map_to_list & Heq).
  destruct (_ && _) eqn:Eb; [|done]. injection Heq as ->. bool_to_prop. str_to_prop.
  by eapply (log_created _ _ Hinv id e id' e0 mid).
Qed.

Lemma deleteMessageEnvelope_inv now mid a ct cp cm ty s x s' :
  ty = ""%string \/ ty = deleted_type ->
  deleteMessageEnvelope now mid a ct cp cm ty s = (Ok x, s') -> content_inv s.(db) -> content_inv s'.(db).
Proof.
  unfold deleteMessageEnvelope. intros Hty H Hinv. run H.
  match goal with Hl : live_owned _ _ _ _ = _ |- _ => apply live_owned_some in Hl as (Hm & _ & Hd & _) end.
  destruct (ci_row _ Hinv mid _ Hm) as [<- Hcv]. apply event_checked in Hrun2 as ->.
  apply frames_release in Hrun1 as (E1 & E2 & E3). simpl in E1, E2, E3.
  match goal with Hi : insertOptionalSyncEvent _ _ _ _ _ _ = _ |- _ => rename Hi into Hev end.
  set (P := fun id e => _) in Hev.
  set (d1 := upd_events (upd_sync_events (redact_where P)) s.(db)).
  assert (content_inv d1) as Hinv1.
  { by apply content_inv_redact. }
  assert (no_copy d1.(events) a1.(m_ID)) as Hno.
  { apply redact_no_copy. intros id e He Hc. unfold P.
    destruct (live_copy _ _ _ _ id e (ci_log _ Hinv) Hm Hd He Hc) as [Ht Hcv'].
    unfold copies_message. rewrite Ht, Hcv'. destruct Hc as [Hc Ha]. unfold about in Ha. rewrite Ha, Hc.
    rewrite !bool_decide_true by done. rewrite !andb_true_r. apply Z.leb_le.
    apply (messageCreatedEventID_le (messages (content (db s))) _ _ _ _ id e); rewrite ?E2; [apply Hinv|done|done]. }
  eapply mutation_event_inv; [exact Hev| | |]; simpl.
  - match type of Hev with context [messageSyncEventPayload ?m] => pose (m' := m) end.
    eapply content_inv_same; [|apply (content_inv_row d1 _ _ m' Hm); [done|done|by left|done]].
    split_and!; simpl; [by rewrite E1|by rewrite E2|by rewrite E3].
  - by rewrite E1, lookup_insert_eq.
  - intros Hne. destruct Hty as [->| ->]; [done|]. split_and!; [done|done|by split].
Qed.

(** ** Retention *)

Lemma expired_page_stored d now mid :
  mid ∈ expired_page d now -> exists row, d.(content).(messages) !! mid = Some row.
Proof.
  unfold expired_page. intros ([t i] & -> & H)%list_elem_of_fmap. apply elem_of_take in H as (n & H & _).
  apply list_elem_of_lookup_2 in H. rewrite order_by_perm, list_elem_of_omap in H.
  destruct H as ([i' m] & Hin%elem_of_map_to_list & Heq).
  destruct (m_ExpiresAt m); [|done]. destruct (_ <=? _); [|done]. injection Heq as _ ->. eauto.
Qed.

Lemma redactOrphaned_inv s x s' :
  redactOrphanedMessageEvents s = (Ok x, s') -> content_inv s.(db) ->
  content_inv s'.(db) /\ (forall mid, no_copy s.(db).(events) mid -> no_copy s'.(db).(events) mid).
Proof.
  unfold redactOrphanedMessageEvents. destruct (minimum _); intros [= <- <-] Hinv; [|done].
  split; [by apply content_inv_redact|]. intros mid. apply redact_keeps_no_copy.
Qed.

Lemma PruneExpiredContent_inv now s x s' :
  PruneExpiredContent now s = (Ok x, s') -> content_inv s.(db) -> content_inv s'.(db).
Proof.
  unfold PruneExpiredContent. intros H Hinv. run H. run Hrun.
  unfold set_redact_cursor in *. match goal with Hc : (Ok _, _) = (Ok _, _) |- _ => injection Hc as <- <- end. simpl.
  match goal with Hf : for_each _ _ _ = _ |- _ => apply (frames_for_each _ _ (frames_enqueue_blob _)) in Hf;
    eapply content_inv_same; [exact Hf|] end.
  match goal with Hr : redactOrphanedMessageEvents _ = _ |- _ => apply redactOrphaned_inv in Hr as [Hinv2 Hkeep] end.
  - eapply (content_inv_same (upd_content (delete_messages (mem (expired_page (db s) now))) s2.(db))); [done|].
    apply content_inv_delete; [|exact Hinv2]. intros mid Hid. apply Hkeep. simpl.
    apply bool_decide_eq_true in Hid. destruct (expired_page_stored _ _ _ Hid) as [row Hrow].
    apply (redact_no_copy (events (db s))). intros id e He Hc.
    pose proof (copy_found _ _ _ _ _ Hinv Hrow He Hc) as Hf. unfold copies_message in Hf. bool_to_prop.
    unfold mem_opt, mem. repeat match goal with Ex : _ = Some _ |- _ => rewrite Ex end.
    rewrite !andb_true_iff. split_and!; [apply bool_decide_eq_true|done|by apply bool_decide_eq_true|done].
    apply list_elem_of_omap. exists mid. by rewrite Hrow.
  - unfold with_db. cbn [db]. apply content_inv_redact. by apply (content_inv_same (db s)).
Qed.

Lemma delete_event_sub now d id :
  (delete_event now d id).(content) = d.(content) /\ (delete_event now d id).(rooms) = d.(rooms) /\
  (delete_event now d id).(events).(sync_seq) = d.(events).(sync_seq) /\
  (delete_event now d id).(events).(sync_events) = delete id d.(events).(sync_events).
Proof.
  unfold delete_event. destruct (_ !! id) as [e|] eqn:E.
  - unfold mark_deleted. simpl. by repeat case_match.
  - by rewrite delete_id.
Qed.

Lemma delete_events_inv now l d : content_inv d -> content_inv (foldl (delete_event now) d l).
Proof.
  revert d. induction l as [|id l IH]; intros d Hinv; simpl; [done|]. apply IH.
  destruct (delete_event_sub now d id) as (E1 & E2 & E3 & E4). destruct Hinv as [H1 H2 H3].
  constructor; rewrite ?E1, ?E2; try done. eapply log_subset; [|done|exact H1]. rewrite E4.
  intros id' e. by rewrite lookup_delete_Some; intros [_ ?].
Qed.

(** ** The requests on rooms keep the invariant *)

Definition preserves {A} (P : DB -> Prop) (m : Tx A) : Prop := forall s, P s.(db) -> P (m s).2.(db).

Section preserves.
Context (P : DB -> Prop).

Lemma pv_read_only {A} (m : Tx A) : read_only m -> preserves P m.
Proof. intros H s Hs. by rewrite H. Qed.
Lemma pv_refuse {A} l e : preserves P (refuse (A := A) l e).
Proof. by intros s. Qed.
Lemma pv_throw {A} e : preserves P (throw (A := A) e).
Proof. by intros s. Qed.
Lemma pv_limits : preserves P get_limits.
Proof. by intros s. Qed.
Lemma pv_transaction {A} (m : Tx A) : preserves P m -> preserves P (transaction m).
Proof. intros H s Hs. specialize (H s Hs). unfold transaction. by destruct (m s) as [[]]. Qed.
Lemma pv_bind {A B} (m : Tx A) (k : A -> Tx B) :
  preserves P m -> (forall a, preserves P (k a)) -> preserves P (m ≫= k).
Proof.
  intros Hm Hk s Hs. specialize (Hm s Hs). unfold mbind, Tx_bind.
  destruct (m s) as [[a|e] s1]; simpl in *; [by apply Hk|done].
Qed.
Lemma pv_for_each {A} (l : list A) f : (forall x, preserves P (f x)) -> preserves P (for_each l f).
Proof. intros Hf. induction l; simpl; [by intros s|by apply pv_bind]. Qed.
End preserves.

#[export] Hint Resolve pv_read_only pv_refuse pv_throw pv_limits pv_transaction pv_for_each : txs.

Definition plain_event (row : SyncEventRow) : Prop :=
  p_envelope row.(se_payload) = None /\ row.(se_type) <> "message.envelope.created"%string.

Lemma pv_event row : plain_event row -> preserves content_inv (insert_event row).
Proof.
  intros [Hp Ht] s [Hlog Hclean Hrow]. constructor; [by apply log_plain|done|done].
Qed.

Lemma pv_rooms f :
  (forall r, (forall c, is_Some (r.(conversations) !! c) <-> is_Some ((f r).(conversations) !! c))) ->
  preserves content_inv (on_rooms f).
Proof.
  intros Hf s [Hlog Hclean Hrow]. constructor; simpl; [done|..].
  - intros c Hc. apply Hclean. by apply (Hf (rooms (db s)) c).
  - intros mid m Hm. destruct (Hrow mid m Hm). split; [done|]. by apply (Hf (rooms (db s))).
Qed.

Lemma pv_content f :
  (forall c, (f c).(messages) = c.(messages)) -> preserves content_inv (on_content f).
Proof.
  intros Hf s [Hlog Hclean Hrow]. constructor; simpl; [by rewrite Hf|done|]. intros mid m. rewrite Hf. apply Hrow.
Qed.

Lemma pv_insert_conversation id cv :
  nullableEmptyString id = Some id -> preserves content_inv (insert_conversation id cv).
Proof.
  intros Hid. unfold insert_conversation. apply pv_bind; [by intros s|]. intros d.
  apply pv_bind; [apply pv_read_only, ro_guard|]. intros _ s [Hlog Hclean Hrow]. constructor; simpl; [done|..].
  - intros c. rewrite lookup_insert_is_Some'. intros [<-|?]; [done|by apply Hclean].
  - intros mid m Hm. destruct (Hrow mid m Hm). split; [done|]. rewrite lookup_insert_is_Some'. by right.
Qed.

Lemma str_payload_plain l : p_envelope (str_payload l) = None.
Proof.
  unfold p_envelope. induction l as [|[k v] l IH]; simpl; [done|]. by destruct (k =s? "envelope").
Qed.

Lemma conversation_payload_plain c : p_envelope (conversation_payload c) = None.
Proof.
  destruct c as [i k [t|] [cm|] [ch|] cb [r|] ca []]; vm_compute; reflexivity.
Qed.
#[export] Hint Resolve str_payload_plain conversation_payload_plain : txs.

Lemma pv_member (put : MemberRow -> Tx unit) cf old b role now :
  (forall row, preserves content_inv (put row)) -> preserves content_inv (put_member cf old b put role now).
Proof.
  intros Hp. unfold put_member. apply pv_bind; [apply pv_read_only, ro_guard|]. intros _.
  destruct old as [row|]; [destruct cf; [by intros s|by intros s|apply Hp]|].
  apply pv_bind; [apply pv_read_only, ro_guard|]. intros _. apply Hp.
Qed.

Lemma pv_conv_member cf c a role now : preserves content_inv (insert_conv_member cf c a role now).
Proof. apply pv_bind; [by intros s|]. intros d. apply pv_member. intros row. by apply pv_rooms. Qed.

Lemma pv_comm_member cf c a role now : preserves content_inv (insert_comm_member cf c a role now).
Proof. apply pv_bind; [by intros s|]. intros d. apply pv_member. intros row. by apply pv_rooms. Qed.

Lemma pv_set_conversation id f : preserves content_inv (set_conversation id f).
Proof.
  apply pv_rooms. intros r c. simpl. rewrite lookup_alter. case_decide; [subst|done]. by rewrite fmap_is_Some.
Qed.
#[export] Hint Resolve pv_conv_member pv_comm_member pv_set_conversation : txs.

Definition request_ok (r : request) : Prop :=
  match r with
  | RCreateChannel _ c _ _ _ _ _ => nullableEmptyString c = Some c
  | RCreateConversation id _ _ => nullableEmptyString id = Some id
  | RRetention _ _ _ _ ty => ty = ""%string \/ ty = "retention.updated"%string
  | _ => True
  end.

Ltac pv_auto :=
  repeat first
    [ progress intros
    | solve [eauto 3 with txs]
    | apply pv_transaction | apply pv_for_each
    | apply pv_insert_conversation; done
    | apply pv_bind
    | apply pv_event; split; [first [done|apply str_payload_plain|apply conversation_payload_plain]|done]
    | apply pv_rooms; done | apply pv_content; done
    | case_match ].

Lemma pv_join_channels now k a role l : preserves content_inv (join_channels now k a role l).
Proof. induction l as [|c l IH]; simpl; pv_auto. Qed.
#[export] Hint Resolve pv_join_channels : txs.

Lemma serve_content_inv r : request_ok r -> preserves content_inv (serve r).
Proof.
  destruct r; intros Hok; unfold serve, discard, CreateCommunity, CreateChannelWithConversation, ManageCommunityMember,
    CreateOrGetConversation, ManageConversationMember, RemoveConversationMember, updateConversationRetention,
    SetConversationPostingPolicy, insert_channel, create_conversation, validate_channel,
    validate_member, insert_dm_pair, checkNewCommunityMember, checkNewConversationMember, checkMembers,
    checkOwnConversations, checkOtherConversations, insertOptionalSyncEvent, insertSyncEvent.
  all: simpl in Hok; try (destruct Hok as [-> | ->]).
  all: pv_auto.
Qed.

(** ** Every reachable log *)

Lemma rb_require {A B} (o : option A) e (k : A -> Tx B) : (forall a, rolls_back (k a)) -> rolls_back (require o e ≫= k).
Proof. intros. by apply rb_bind; [apply ro_require|]. Qed.

Lemma rolls_back_inv {A} (m : Tx A) s :
  rolls_back m -> (forall x s', m s = (Ok x, s') -> content_inv s'.(db)) -> content_inv s.(db) ->
  content_inv (m s).2.(db).
Proof.
  intros Hrb Hok Hinv. destruct (m s) as [[x|e] s'] eqn:E; simpl; [by eapply Hok|]. by rewrite (Hrb s e s' E).
Qed.

(** A step of the server: an operation on messages, whether it succeeds or
    not, a page of either pruning loop, a request on rooms, an event of
    another kind, or a write elsewhere. *)
Inductive message_step : Store -> Store -> Prop :=
| ms_save newID now e b w s : message_step s (saveMessageEnvelope newID now e b w s).2
| ms_update now mid a ct cp cm ty s :
    ty = ""%string \/ ty = "message.envelope.edited"%string ->
    message_step s (updateMessageEnvelope now mid a ct cp cm ty s).2
| ms_delete now mid a ct cp cm ty s :
    ty = ""%string \/ ty = deleted_type -> message_step s (deleteMessageEnvelope now mid a ct cp cm ty s).2
| ms_prune_content now s : message_step s (PruneExpiredContent now s).2
| ms_prune_events now cutoff s :
    message_step s (with_db s (foldl (delete_event now) s.(db) (old_page s.(db) cutoff)))
| ms_room r s : request_ok r -> message_step s (serve r s).2
| ms_event row s : plain_event row -> message_step s (insert_event row s).2
| ms_elsewhere s s' : same_log s.(db) s'.(db) -> message_step s s'.

Lemma rb_bind_total {A B} (m : Tx A) (k : A -> Tx B) :
  rolls_back m -> (forall a t e t', k a t <> (Err e, t')) -> rolls_back (m ≫= k).
Proof.
  intros Hm Hk s e s'. unfold mbind, Tx_bind. destruct (m s) as [[a|e'] s1] eqn:E; [|by intros [= <- <-]; eapply Hm].
  intros H. by apply Hk in H.
Qed.

Lemma message_step_inv s s' : message_step s s' -> content_inv s.(db) -> content_inv s'.(db).
Proof.
  intros [newID now e b w t|now mid a ct cp cm ty t Hty|now mid a ct cp cm ty t Hty|now t|now cutoff t|r t Hr|row t Hr|t t' Hs] Hinv.
  - apply rolls_back_inv; [unfold saveMessageEnvelope; tx_auto| |done].
    intros x s1 H. by eapply saveMessageEnvelope_inv.
  - apply rolls_back_inv; [unfold updateMessageEnvelope; tx_auto| |done].
    intros x s1 H. by eapply updateMessageEnvelope_inv.
  - apply rolls_back_inv; [unfold deleteMessageEnvelope; tx_auto| |done].
    intros x s1 H. by eapply deleteMessageEnvelope_inv.
  - apply rolls_back_inv; [by apply rb_bind_total; [apply rb_transaction|]| |done].
    intros x s1 H. by eapply PruneExpiredContent_inv.
  - by apply delete_events_inv.
  - by apply serve_content_inv.
  - by apply pv_event.
  - by eapply content_inv_same.
Qed.

Definition empty_log (s : Store) : Prop :=
  s.(db).(content).(messages) = ∅ /\ s.(db).(rooms).(conversations) = ∅ /\
  s.(db).(events).(sync_events) = ∅ /\ s.(db).(events).(sync_seq) = 0.

Lemma empty_log_inv s : empty_log s -> content_inv s.(db).
Proof.
  intros (E1 & E2 & E3 & E4). constructor; rewrite ?E1, ?E2.
  - constructor; rewrite ?E3, ?E4; try done; intros *; by rewrite lookup_empty.
  - intros c. rewrite lookup_empty. by intros [? [=]].
  - intros mid m. by rewrite lookup_empty.
Qed.

Lemma reachable_content_inv s0 s : empty_log s0 -> rtc message_step s0 s -> content_inv s.(db).
Proof.
  intros H0 Hr. apply empty_log_inv in H0. induction Hr as [s|s1 s2 s3 Hstep _ IH]; [done|].
  apply IH. by eapply message_step_inv.
Qed.

(** C1: whatever sequence of sends, edits, deletes, prunes and other requests
    led to a state, an event that still holds an envelope is about a message
    that still exists in the event's conversation, and when that message was
    deleted by its sender the event holds the deletion marker's ciphertext,
    never the original.  So neither deletion nor expiry leaves the old
    ciphertext in the log. *)
Theorem no_stale_ciphertext s0 s id e env :
  empty_log s0 -> rtc message_step s0 s ->
  s.(db).(events).(sync_events) !! id = Some e -> p_envelope e.(se_payload) = Some env ->
  exists mid row,
    p_str e.(se_payload) "message_id" = Some mid /\ s.(db).(content).(messages) !! mid = Some row /\
    e.(se_conversation_id) = Some row.(m_ConversationID) /\
    (row.(m_DeletedAt) <> None -> env.(m_Ciphertext) = row.(m_Ciphertext)).
Proof.
  intros H0 Hr He Henv. pose proof (reachable_content_inv s0 s H0 Hr) as Hinv.
  destruct (log_copy _ _ (ci_log _ Hinv) id e He env Henv) as (mid & row & Hm & Hrow & _ & Hcv & Hd1 & Hd2).
  exists mid, row. split_and!; try done. intros Hd. by apply Hd1, Hd2.
Qed.

(** ** An example: a message is sent, edited and deleted *)

Definition ex_draft : MessageEnvelope :=
  mkMessageEnvelope "" "conv_g" ex_alice "dev_a" "key1" "secret" "mls" "" "" None None 0 None None None.
Definition ex_sent : Store := (saveMessageEnvelope "msg_1" 20 ex_draft true true ex_rooms).2.
Definition ex_edited : Store :=
  (updateMessageEnvelope 21 "msg_1" ex_alice "better secret" "mls" "" "message.envelope.edited" ex_sent).2.
Definition ex_deleted : Store :=
  (deleteMessageEnvelope 22 "msg_1" ex_alice "gone" "mls" "" deleted_type ex_edited).2.

Lemma room_requests_steps s l : Forall request_ok l -> rtc message_step s (ex_run s l).
Proof.
  intros Hl. revert s. induction Hl as [|r l Hr _ IH]; intros s; [apply rtc_refl|].
  unfold ex_run. simpl. eapply rtc_l; [by apply ms_room|]. apply IH.
Qed.

Lemma ex_deleted_steps : empty_log ex_store /\ rtc message_step ex_store ex_deleted.
Proof.
  split; [split_and!; reflexivity|].
  eapply rtc_r; [eapply rtc_r; [eapply rtc_r; [apply (room_requests_steps ex_store ex_requests)|]|]|].
  - repeat (apply Forall_cons; split; [exact I || (vm_compute; reflexivity)|]). by apply Forall_nil.
  - apply (ms_save "msg_1" 20 ex_draft true true).
  - apply (ms_update 21 "msg_1" ex_alice "better secret" "mls" ""). by right.
  - apply (ms_delete 22 "msg_1" ex_alice "gone" "mls" ""). by right.
Qed.

Lemma no_stale_ciphertext_witness :
  (exists e, ex_sent.(db).(events).(sync_events) !! 4 = Some e /\ has_envelope e = true) /\
  (exists e, ex_deleted.(db).(events).(sync_events) !! 4 = Some e /\ has_envelope e = false) /\
  exists e env row, ex_deleted.(db).(events).(sync_events) !! 6 = Some e /\ p_envelope e.(se_payload) = Some env /\
    row.(m_DeletedAt) = Some 22 /\ env.(m_Ciphertext) = row.(m_Ciphertext) /\ row.(m_Ciphertext) = "gone"%string.
Proof.
  split; [eexists; split; vm_compute; reflexivity|]. split; [eexists; split; vm_compute; reflexivity|].
  destruct (ex_deleted.(db).(events).(sync_events) !! 6) as [e|] eqn:He; [|vm_compute in He; discriminate He].
  destruct (p_envelope e.(se_payload)) as [env|] eqn:Henv;
    [|vm_compute in He; injection He as <-; vm_compute in Henv; discriminate Henv].
  destruct (no_stale_ciphertext ex_store ex_deleted 6 e env (proj1 ex_deleted_steps) (proj2 ex_deleted_steps) He Henv)
    as (mid & row & Hmid & Hrow & _ & Hc).
  assert (mid = "msg_1"%string) as -> by (vm_compute in He; injection He as <-; vm_compute in Hmid; congruence).
  assert (row.(m_DeletedAt) = Some 22 /\ row.(m_Ciphertext) = "gone"%string) as [Hd Hg]
    by (vm_compute in Hrow; injection Hrow as <-; split; reflexivity).
  exists e, env, row. split; [reflexivity|]. split; [exact Henv|]. split; [exact Hd|]. split; [|exact Hg].
  apply Hc. rewrite Hd. discriminate.
Defined.
