(* ===== verification/MessageRules.v ===== *)
(** * What sending and listing messages guarantee

    A send is authorised, announced and delivered to the right accounts; a
    retried send returns the stored message; listings page through exactly
    the visible messages. *)

From S2P Require Import Prelude GoStrings GoJson Domain Admission Database Conversations Memberships Messages Retention MessageEvents.
From stdpp Require Import base numbers list strings gmap fin_maps sorting.
From Stdlib Require Import ZArith ZifyBool Lia.
Open Scope Z_scope.

(** ** A successful send, taken apart *)

(** The envelope a new message gets. *)
Definition new_message (newID : string) (now : Z) (retention : option Z) (e : MessageEnvelope) : MessageEnvelope :=
  mkMessageEnvelope (if e.(m_ID) =s? "" then newID else e.(m_ID))
    e.(m_ConversationID) e.(m_SenderAccountID) e.(m_SenderDeviceID) e.(m_IdempotencyKey) e.(m_Ciphertext)
    e.(m_CryptoProtocol) e.(m_CryptoMetadata) e.(m_AttachmentRefs) e.(m_ReplyToID) e.(m_ThreadRootID)
    now e.(m_EditedAt) e.(m_DeletedAt) (effective_expiry now retention e.(m_ExpiresAt)).

(** Tables that sending leaves alone. *)
Definition same_rest (d d' : DB) : Prop :=
  d'.(rooms) = d.(rooms) /\ d'.(content).(attachments) = d.(content).(attachments) /\
  d'.(push).(push_subscriptions) = d.(push).(push_subscriptions).

#[export] Instance same_rest_preorder : PreOrder same_rest.
Proof. split; [done|]. intros d1 d2 d3 (? & ? & ?) (? & ? & ?). split_and!; congruence. Qed.

Lemma link_rest mid l s u s' :
  for_each l (link_attachment mid) s = (Ok u, s') ->
  same_rest s.(db) s'.(db) /\ s'.(db).(push) = s.(db).(push) /\ same_log s.(db) s'.(db).
Proof.
  intros H. split_and!; [| |by eapply frames_for_each; [apply frames_link|exact H]].
  all: revert s H; induction l as [|a l IH]; intros s H; simpl in H; run H; try done.
  all: unfold link_attachment in Hrun; run Hrun.
  - etrans; [|by eapply IH]. done.
  - by rewrite (IH _ H).
Qed.

Lemma deleteExpired_rest dev key now s u s' :
  deleteExpiredMessageByIdempotency dev key now s = (Ok u, s') ->
  same_rest s.(db) s'.(db) /\ s'.(db).(push) = s.(db).(push) /\
  s'.(db).(events).(sync_seq) = s.(db).(events).(sync_seq).
Proof.
  unfold deleteExpiredMessageByIdempotency. intros H. run H.
  destruct (message_by_key (db s) dev key); [|by run H]. by destruct (unexpired now m); run H.
Qed.

Lemma insert_message_ok m s x s' :
  insert_message m s = (Ok x, s') ->
  s.(db).(content).(messages) !! m.(m_ID) = None /\
  s' = with_db s (upd_content (upd_messages (insert m.(m_ID) m)) s.(db)).
Proof.
  unfold insert_message. intros H. run H. unfold exists_in in *. bool_to_prop. split; [|done]. by apply eq_None_not_Some.
Qed.

Section send.
Context (newID : string) (now : Z) (e0 : MessageEnvelope) (b w : bool) (s s' : Store) (r : Saved).
Context (Hsave : saveMessageEnvelope newID now e0 b w s = (Ok r, s')) (Hfresh : r.(sv_duplicate) = false).

Let e : MessageEnvelope := with_defaults e0.
Let m : MessageEnvelope := r.(sv_envelope).

Lemma send_ok : exists ids role cv s1 s2,
  parseAttachmentIDs e.(m_AttachmentRefs) = Some ids /\ forallb (owned_attachment s.(db) e) ids = true /\
  deleteExpiredMessageByIdempotency e.(m_SenderDeviceID) e.(m_IdempotencyKey) now s = (Ok tt, s1) /\
  message_by_key s1.(db) e.(m_SenderDeviceID) e.(m_IdempotencyKey) = None /\
  member_role s.(db) e.(m_ConversationID) e.(m_SenderAccountID) = Some role /\
  s.(db).(rooms).(conversations) !! e.(m_ConversationID) = Some cv /\
  negb (posting_restricted s.(db) cv) || CanPostRestricted role = true /\
  m = new_message newID now cv.(cv_retention_seconds) e /\
  s1.(db).(content).(messages) !! m.(m_ID) = None /\
  same_rest s.(db) s2.(db) /\ s2.(db).(push) = s.(db).(push) /\
  s2.(db).(events).(sync_seq) = s.(db).(events).(sync_seq) /\
  s2.(db).(content).(messages) = <[m.(m_ID) := stored m]> s1.(db).(content).(messages) /\
  (if b then announce now m s2 = (Ok r.(sv_event), s') else s' = s2) /\
  r.(sv_recipients) = (if w && b then ConversationRecipientsForSender s'.(db) m.(m_ConversationID) m.(m_SenderAccountID)
                       else []).
Proof.
  subst m. pose proof Hsave as H. unfold saveMessageEnvelope in H. fold e in H. run H.
  match goal with Hd : deleteExpiredMessageByIdempotency _ _ _ _ = _ |- _ => rename Hd into Hdel end.
  destruct (message_by_key _ _ _) as [x|] eqn:Ekey; run H; [done|].
  match goal with Hf : for_each _ _ _ = _ |- _ => rename Hf into Hlink end.
  match goal with Hi : insert_message _ _ = _ |- _ => apply insert_message_ok in Hi as [Hnone ->] end.
  destruct (link_rest _ _ _ _ _ Hlink) as (Hrest & Hpush & Hlog & Hev & _).
  destruct (deleteExpired_rest _ _ _ _ _ _ Hdel) as (Hrest1 & Hpush1 & Hseq1).
  destruct (Hrest1) as (Hr1 & _ & _). simpl in Hlog, Hev, Hpush.
  destruct a1.
  exists a, a2, a3, s0, s2. unfold member_role, posting_restricted in *. rewrite <- Hr1.
  split_and!; try done.
  - etrans; [exact Hrest1|]. exact Hrest.
  - by rewrite Hpush.
  - by rewrite Hev.
  - match goal with Hb : (if b then _ else _) _ = _ |- _ => destruct b; run Hb; done end.
Qed.
End send.

(** ** Retries *)

Lemma head_filter_None {A} (p : A -> bool) l : head (List.filter p l) = None -> List.filter p l = [].
Proof. by destruct (List.filter p l). Qed.

Lemma message_by_key_insert (d d' : DB) (x : MessageEnvelope) (id dev key : string) :
  d.(content).(messages) !! id = None -> message_by_key d dev key = None ->
  d'.(content).(messages) = <[id := x]> d.(content).(messages) ->
  x.(m_SenderDeviceID) = dev -> x.(m_IdempotencyKey) = key -> message_by_key d' dev key = Some x.
Proof.
  intros Hid Hnone Hd <- <-. unfold message_by_key in *. rewrite Hd. apply head_filter_None in Hnone.
  set (p := fun y : MessageEnvelope => _) in *.
  assert (List.filter p (map_to_list (<[id:=x]> (messages (content d)))).*2 ≡ₚ [x]) as Hp.
  { rewrite (filter_perm p _ ((id, x) :: map_to_list (messages (content d))).*2)
      by (apply fmap_Permutation, map_to_list_insert; done).
    rewrite fmap_cons. cbn [List.filter snd]. rewrite Hnone. subst p. cbn beta. by rewrite !str_eqb_refl. }
  apply Permutation_singleton_r in Hp. by rewrite Hp.
Qed.

(** A send whose key is taken by an unexpired equal message. *)
Lemma save_duplicate newID now e0 b w s ids x :
  let e := with_defaults e0 in
  parseAttachmentIDs e.(m_AttachmentRefs) = Some ids -> forallb (owned_attachment s.(db) e) ids = true ->
  message_by_key s.(db) e.(m_SenderDeviceID) e.(m_IdempotencyKey) = Some x -> unexpired now x = true ->
  saveMessageEnvelope newID now e0 b w s =
    if sameIdempotentMessage x e then (Ok (mkSaved x true 0 []), s) else (Err ErrIdempotencyConflict, s).
Proof.
  intros e Hp Ho Hk Hu. unfold saveMessageEnvelope. fold e. clearbody e.
  unfold mbind, Tx_bind, require. rewrite Hp. simpl. unfold transaction. simpl. rewrite Ho. simpl.
  unfold deleteExpiredMessageByIdempotency, mbind, Tx_bind. simpl. rewrite Hk, Hu. simpl. rewrite Hk.
  destruct (sameIdempotentMessage x e); simpl; [done|]. by rewrite with_db_id.
Qed.

Lemma owned_attachment_ext d d' e id :
  d'.(content).(attachments) = d.(content).(attachments) -> owned_attachment d' e id = owned_attachment d e id.
Proof. intros E. unfold owned_attachment. by rewrite E. Qed.

Lemma forallb_ext {A} (f g : A -> bool) l : (forall x, f x = g x) -> forallb f l = forallb g l.
Proof. intros H. induction l as [|x l IH]; simpl; [done|]. by rewrite H, IH. Qed.

Section retry.
Context (newID : string) (now : Z) (e : MessageEnvelope) (b w : bool) (s s' : Store) (r : Saved).
Context (Hsave : saveMessageEnvelope newID now e b w s = (Ok r, s')) (Hfresh : r.(sv_duplicate) = false).

(** What a retry of the send finds. *)
Lemma retry_finds newID' now' b' w' :
  unexpired now' r.(sv_envelope) = true ->
  saveMessageEnvelope newID' now' e b' w' s' =
    if sameIdempotentMessage (stored r.(sv_envelope)) (with_defaults e)
    then (Ok (mkSaved (stored r.(sv_envelope)) true 0 []), s') else (Err ErrIdempotencyConflict, s').
Proof.
  intros Hu.
  destruct (send_ok _ _ _ _ _ _ _ _ Hsave Hfresh)
    as (ids & role & cv & s1 & s2 & Hp & Ho & Hdel & Hk & _ & _ & _ & Hm & Hnew & Hrest & Hpush & Hseq & Hms & Hann & _).
  assert (s'.(db).(content) = s2.(db).(content)) as Hc.
  { destruct b; [|by subst]. unfold announce in Hann. run Hann. injection Hann as _ <-.
    apply insert_event_ok in Hrun0 as [_ ->]. unfold enqueuePushWakeJobs in Hrun1. by run Hrun1. }
  eapply save_duplicate; [exact Hp| | |done].
  - rewrite <- Ho. apply forallb_ext. intros id. apply owned_attachment_ext. rewrite Hc. apply Hrest.
  - eapply (message_by_key_insert s1.(db)); [exact Hnew|exact Hk|by rewrite Hc|by rewrite Hm|by rewrite Hm].
Qed.

Lemma stored_same :
  sameIdempotentMessage (stored r.(sv_envelope)) (with_defaults e) =
  bool_decide (nullableString e.(m_ReplyToID) = e.(m_ReplyToID)) &&
  bool_decide (nullableString e.(m_ThreadRootID) = e.(m_ThreadRootID)).
Proof.
  destruct (send_ok _ _ _ _ _ _ _ _ Hsave Hfresh)
    as (ids & role & cv & s1 & s2 & _ & _ & _ & _ & _ & _ & _ & Hm & _).
  unfold sameIdempotentMessage. rewrite Hm. simpl. rewrite !str_eqb_refl. done.
Qed.
End retry.

(** A send that is retried before the message expires, with whatever new
    message id the handler minted, returns the message stored the first time
    as a duplicate and changes nothing: no second message, no second event.
    (References to other messages are trimmed when stored, so the envelope's
    own references must be in that form; a blank one conflicts instead.) *)
Theorem retry_returns_stored newID now e b w s r s' newID' now' b' w' :
  saveMessageEnvelope newID now e b w s = (Ok r, s') -> r.(sv_duplicate) = false ->
  unexpired now' r.(sv_envelope) = true ->
  nullableString e.(m_ReplyToID) = e.(m_ReplyToID) -> nullableString e.(m_ThreadRootID) = e.(m_ThreadRootID) ->
  saveMessageEnvelope newID' now' e b' w' s' = (Ok (mkSaved (stored r.(sv_envelope)) true 0 []), s').
Proof.
  intros Hsave Hfresh Hu Hr Ht. rewrite (retry_finds _ _ _ _ _ _ _ _ Hsave Hfresh) by done.
  rewrite (stored_same _ _ _ _ _ _ _ _ Hsave Hfresh), !bool_decide_true; done.
Qed.

(** The first attempt of an example send succeeds and does not expire. *)
Definition sent_fresh (e : MessageEnvelope) : Prop :=
  match (saveMessageEnvelope "msg_1" 20 e true true ex_rooms).1 with
  | Ok r => r.(sv_duplicate) = false /\ unexpired 30 r.(sv_envelope) = true
  | Err _ => False
  end.

Lemma sent_fresh_run e : sent_fresh e -> exists r s',
  saveMessageEnvelope "msg_1" 20 e true true ex_rooms = (Ok r, s') /\ r.(sv_duplicate) = false /\
  unexpired 30 r.(sv_envelope) = true.
Proof.
  unfold sent_fresh. destruct (saveMessageEnvelope _ _ _ _ _ _) as [[r|err] s']; [|done]. eauto.
Qed.

Lemma retry_returns_stored_witness :
  exists r s', saveMessageEnvelope "msg_1" 20 ex_draft true true ex_rooms = (Ok r, s') /\
    saveMessageEnvelope "msg_2" 30 ex_draft true true s' = (Ok (mkSaved (stored r.(sv_envelope)) true 0 []), s').
Proof.
  destruct (sent_fresh_run ex_draft ltac:(vm_compute; split; reflexivity)) as (r & s' & H & Hd & Hu).
  exists r, s'. split; [exact H|].
  apply (retry_returns_stored "msg_1" 20 ex_draft true true ex_rooms r s' "msg_2" 30 true true H Hd Hu); reflexivity.
Defined.

(** C39: a reply reference that is blank or padded is stored as NULL or
    trimmed, but a retry is compared with the reference as it was sent: the
    retry of such a message is refused as a conflict although nothing
    differs. *)
Theorem blank_reply_retry_conflicts newID now e b w s r s' newID' now' b' w' :
  saveMessageEnvelope newID now e b w s = (Ok r, s') -> r.(sv_duplicate) = false ->
  unexpired now' r.(sv_envelope) = true ->
  nullableString e.(m_ReplyToID) <> e.(m_ReplyToID) ->
  saveMessageEnvelope newID' now' e b' w' s' = (Err ErrIdempotencyConflict, s').
Proof.
  intros Hsave Hfresh Hu Hr. rewrite (retry_finds _ _ _ _ _ _ _ _ Hsave Hfresh) by done.
  by rewrite (stored_same _ _ _ _ _ _ _ _ Hsave Hfresh), bool_decide_false.
Qed.

Definition ex_blank_reply : MessageEnvelope :=
  mkMessageEnvelope "" "conv_g" ex_alice "dev_a" "key1" "secret" "mls" "" "" (Some " "%string) None 0 None None None.

Lemma blank_reply_retry_conflicts_witness :
  exists r s', saveMessageEnvelope "msg_1" 20 ex_blank_reply true true ex_rooms = (Ok r, s') /\
    saveMessageEnvelope "msg_2" 30 ex_blank_reply true true s' = (Err ErrIdempotencyConflict, s').
Proof.
  destruct (sent_fresh_run ex_blank_reply ltac:(vm_compute; split; reflexivity)) as (r & s' & H & Hd & Hu).
  exists r, s'. split; [exact H|].
  apply (blank_reply_retry_conflicts "msg_1" 20 ex_blank_reply true true ex_rooms r s' "msg_2" 30 true true H Hd Hu).
  vm_compute. discriminate.
Defined.

(** ** Who is told about a new message *)

Lemma elem_of_recipients d c sender a :
  a ∈ ConversationRecipientsForSender d c sender <-> is_member d c a = true /\ blocked_by d a sender = false.
Proof.
  unfold ConversationRecipientsForSender. rewrite order_by_perm, list_elem_of_In, List.filter_In, <- list_elem_of_In.
  rewrite negb_true_iff, is_member_true, list_elem_of_fmap. split.
  - intros (([a' row] & -> & Hin%elem_of_rows_of) & Hb). split; [by eexists|done].
  - intros ([row Hr] & Hb). split; [|done]. exists (a, row). split; [done|by apply elem_of_rows_of].
Qed.

Section wake_jobs.
Context (now eventID : Z) (c sender : string) (created expires : Z) (d : DB).

Let add_job : string * PushSubscriptionRow -> gmap (Z * string * string) PushWakeRow -> gmap (Z * string * string) PushWakeRow := fun '(sub, ps) jobs =>
  if wakes d now c sender ps
  then let key := (eventID, ps.(ps_account_id), sub) in
       match jobs !! key with
       | Some _ => jobs
       | None => <[key := mkPushWakeRow c sender created created 0 None None expires]> jobs
       end
  else jobs.

Lemma add_jobs_some l jobs k :
  is_Some (foldr add_job jobs l !! k) <->
  is_Some (jobs !! k) \/ exists sub ps, (sub, ps) ∈ l /\ wakes d now c sender ps = true /\ k = (eventID, ps.(ps_account_id), sub).
Proof.
  induction l as [|[sub ps] l IH]; simpl.
  - split; [by left|]. intros [?|(sub & ps & ?%elem_of_nil & _)]; done.
  - setoid_rewrite elem_of_cons. destruct (wakes d now c sender ps) eqn:Ew.
    + set (key := (eventID, ps_account_id ps, sub)).
      assert (is_Some (match foldr add_job jobs l !! key with
              | Some _ => foldr add_job jobs l
              | None => <[key := mkPushWakeRow c sender created created 0 None None expires]> (foldr add_job jobs l) end !! k)
              <-> key = k \/ is_Some (foldr add_job jobs l !! k)) as ->.
      { destruct (foldr add_job jobs l !! key) eqn:Ek.
        - split; [by right|]. intros [<-|?]; [by eexists|done].
        - apply lookup_insert_is_Some'. }
      rewrite IH. split.
      * intros [<-|[?|(sub' & ps' & ? & ? & ->)]]; [right; exists sub, ps; by auto|by left|right; exists sub', ps'; by auto].
      * intros [?|(sub' & ps' & [[= -> ->]|?] & ? & ->)]; [by auto|by left|right; right; by eauto].
    + rewrite IH. split.
      * intros [?|(sub' & ps' & ? & ? & ->)]; [by left|right; exists sub', ps'; by auto].
      * intros [?|(sub' & ps' & [[= -> ->]|?] & ? & ->)]; [by left|congruence|right; by eauto].
Qed.
End wake_jobs.

Lemma enqueuePushWakeJobs_jobs now id c a t1 t2 s u s' k :
  enqueuePushWakeJobs now id c a t1 t2 s = (Ok u, s') ->
  is_Some (s'.(db).(push).(push_wake_jobs) !! k) <->
  is_Some (s.(db).(push).(push_wake_jobs) !! k) \/
  exists sub ps, s.(db).(push).(push_subscriptions) !! sub = Some ps /\ wakes s.(db) now c a ps = true /\
                 k = (id, ps.(ps_account_id), sub).
Proof.
  unfold enqueuePushWakeJobs. intros H. run H.
  etrans; [exact (add_jobs_some now id c a t1 t2 s.(db) (map_to_list s.(db).(push).(push_subscriptions))
                    s.(db).(push).(push_wake_jobs) k)|].
  by setoid_rewrite elem_of_map_to_list.
Qed.

Lemma wakes_ext d d' now c a ps : d'.(rooms) = d.(rooms) -> wakes d' now c a ps = wakes d now c a ps.
Proof. intros E. unfold wakes, device_live, blocked_by, muted_now, is_member. by rewrite E. Qed.

Lemma effective_expiry_bound now r req :
  exists t, effective_expiry now (Some r) req = Some t /\ t <= time_add now (wrap64 (r * second)).
Proof.
  unfold effective_expiry. destruct req as [t|]; [|by eexists].
  unfold time_after. destruct (_ <? t) eqn:E; [by eexists|]. eexists. split; [done|]. lia.
Qed.

(** C27: a send that stores a new message was made by a member allowed to post
    in the conversation; the message expires no later than the conversation's
    retention; its event is the next of the log and carries the envelope; the
    accounts to notify are exactly the members who have not blocked the
    sender; and the push wake jobs added are exactly those of enabled
    subscriptions of other members, on live devices, who neither blocked the
    sender nor (unless the device decrypts to decide) muted the
    conversation. *)
Theorem send_authorised_and_announced newID now e s r s' :
  SaveMessageEnvelopeWithSyncEventAndRecipients newID now e s = (Ok r, s') -> r.(sv_duplicate) = false ->
  let m := r.(sv_envelope) in let c := e.(m_ConversationID) in let a := e.(m_SenderAccountID) in
  (exists role cv, member_role s.(db) c a = Some role /\ s.(db).(rooms).(conversations) !! c = Some cv /\
     (posting_restricted s.(db) cv = true -> CanPostRestricted role = true) /\
     forall seconds, cv.(cv_retention_seconds) = Some seconds ->
       exists t, m.(m_ExpiresAt) = Some t /\ t <= time_add now (wrap64 (seconds * second))) /\
  s'.(db).(content).(messages) !! m.(m_ID) = Some (stored m) /\
  r.(sv_event) = s.(db).(events).(sync_seq) + 1 /\
  s'.(db).(events).(sync_events) !! r.(sv_event) =
    Some (mkSyncEventRow "message.envelope.created" None (Some c) None (messageSyncEventPayload m) now) /\
  (forall x, x ∈ r.(sv_recipients) <-> is_member s.(db) c x = true /\ blocked_by s.(db) x a = false) /\
  (forall k, is_Some (s'.(db).(push).(push_wake_jobs) !! k) <->
     is_Some (s.(db).(push).(push_wake_jobs) !! k) \/
     exists sub ps, s.(db).(push).(push_subscriptions) !! sub = Some ps /\ wakes s.(db) now c a ps = true /\
                    k = (r.(sv_event), ps.(ps_account_id), sub)).
Proof.
  intros Hsave Hfresh m c a.
  unfold SaveMessageEnvelopeWithSyncEventAndRecipients in Hsave.
  destruct (send_ok _ _ _ _ _ _ _ _ Hsave Hfresh) as (ids & role & cv & s1 & s2 & _ & _ & _ & _ & Hrole & Hcv & Hpost
    & Hm & Hnew & (Hr & Ha & Hsub) & Hpush & Hseq & Hms & Hann & Hrec).
  subst m c a. assert (r.(sv_envelope).(m_ConversationID) = e.(m_ConversationID)) as Hmc by by rewrite Hm.
  assert (r.(sv_envelope).(m_SenderAccountID) = e.(m_SenderAccountID)) as Hma by by rewrite Hm.
  unfold announce in Hann. run Hann. rewrite Hmc in *. rewrite Hma in *.
  apply insert_event_ok in Hrun0 as [-> ->].
  pose proof Hrun1 as Hw. unfold enqueuePushWakeJobs in Hrun1. run Hrun1.
  split_and!.
  - exists role, cv. split_and!; try done.
    + intros E. rewrite E in Hpost. done.
    + intros secs Hs. rewrite Hm, Hs. apply effective_expiry_bound.
  - simpl. by rewrite Hms, lookup_insert_eq.
  - by rewrite Hseq.
  - simpl. by rewrite lookup_insert_eq.
  - intros x. rewrite Hrec. simpl. rewrite elem_of_recipients. unfold is_member, blocked_by. simpl. by rewrite Hr.
  - intros k. rewrite (enqueuePushWakeJobs_jobs _ _ _ _ _ _ _ _ _ k Hw). simpl. rewrite Hpush.
    setoid_rewrite (wakes_ext s.(db)); [|exact Hr]. done.
Qed.

Lemma send_authorised_and_announced_witness :
  exists r s', SaveMessageEnvelopeWithSyncEventAndRecipients "msg_1" 20 ex_draft ex_rooms = (Ok r, s') /\
    r.(sv_event) = ex_rooms.(db).(events).(sync_seq) + 1 /\
    (ex_carol ∈ r.(sv_recipients) <-> is_member ex_rooms.(db) "conv_g" ex_carol = true /\
                                     blocked_by ex_rooms.(db) ex_carol ex_alice = false).
Proof.
  destruct (sent_fresh_run ex_draft ltac:(vm_compute; split; reflexivity)) as (r & s' & H & Hd & Hu).
  exists r, s'. split; [exact H|].
  destruct (send_authorised_and_announced "msg_1" 20 ex_draft ex_rooms r s' H Hd) as (_ & _ & He & _ & Hrec & _).
  split; [exact He|]. apply (Hrec ex_carol).
Defined.

(** ** Listings *)

Definition rows_keyed (d : DB) : Prop :=
  forall k m, d.(content).(messages) !! k = Some m -> m.(m_ID) = k.

Section listing.
Context (d : DB) (now : Z) (c a : string) (Hkeyed : rows_keyed d).

Let V : list MessageEnvelope := visible_messages d now c a.

Lemma elem_of_visible m :
  m ∈ V <-> d.(content).(messages) !! m.(m_ID) = Some m /\ m.(m_ConversationID) = c /\
            unexpired now m = true /\ blocked_by d a m.(m_SenderAccountID) = false.
Proof.
  unfold V, visible_messages. rewrite list_elem_of_In, List.filter_In, <- list_elem_of_In, list_elem_of_fmap.
  rewrite !andb_true_iff, negb_true_iff, str_eqb_true. split.
  - intros (([k m'] & -> & Hin%elem_of_map_to_list) & ?). simpl in *. rewrite (Hkeyed k m' Hin). tauto.
  - intros (Hm & ?). split; [|tauto]. exists (m.(m_ID), m). split; [done|by apply elem_of_map_to_list].
Qed.

Lemma visible_stamp m1 m2 : m1 ∈ V -> m2 ∈ V -> stamp m1 = stamp m2 -> m1 = m2.
Proof.
  intros [H1 _]%elem_of_visible [H2 _]%elem_of_visible [= _ E]. rewrite E in H1. congruence.
Qed.

Lemma NoDup_visible : NoDup V.
Proof.
  unfold V, visible_messages.
  assert (NoDup (map_to_list (messages (content d))).*2) as Hnd.
  { apply NoDup_fmap_2_strong; [|apply NoDup_map_to_list].
    intros [k1 m1] [k2 m2] H1%elem_of_map_to_list H2%elem_of_map_to_list E. simpl in E. subst m2.
    by rewrite <- (Hkeyed _ _ H1), <- (Hkeyed _ _ H2). }
  generalize dependent (map_to_list (messages (content d))).*2. intros l Hnd. induction Hnd as [|x l Hx _ IH]; simpl; [constructor|].
  destruct (_ && _); [|done]. constructor; [|done].
  rewrite list_elem_of_In, List.filter_In, <- list_elem_of_In. tauto.
Qed.

Lemma newest_trans : Transitive (fun x y => stamp_le (stamp y) (stamp x) = true).
Proof. intros x y z H1 H2. by apply (stamp_le_trans _ _ _ H2). Qed.
Lemma newest_total : Total (fun x y => stamp_le (stamp y) (stamp x) = true).
Proof. intros x y. destruct (stamp_le_total (stamp y) (stamp x)); [by left|by right]. Qed.
Lemma oldest_trans : Transitive (fun x y => stamp_le (stamp x) (stamp y) = true).
Proof. intros x y z. apply stamp_le_trans. Qed.
Lemma oldest_total : Total (fun x y => stamp_le (stamp x) (stamp y) = true).
Proof. intros x y. apply stamp_le_total. Qed.

Lemma before_page i x :
  newest_first V !! i = Some x ->
  newest_first (List.filter (fun m => stamp_lt (stamp m) (stamp x)) V) = drop (S i) (newest_first V).
Proof.
  intros Hi. unfold newest_first.
  rewrite (order_by_filter _ stamp V newest_trans newest_total visible_stamp)
    by (intros; by apply stamp_le_antisym).
  by apply (filter_after _ stamp V newest_trans newest_total visible_stamp);
    [intros; apply stamp_le_antisym|apply NoDup_visible|].
Qed.

Lemma after_page i x :
  oldest_first V !! i = Some x ->
  oldest_first (List.filter (fun m => stamp_lt (stamp x) (stamp m)) V) = drop (S i) (oldest_first V).
Proof.
  intros Hi. unfold oldest_first.
  rewrite (order_by_filter _ stamp V oldest_trans oldest_total visible_stamp)
    by (intros; by apply stamp_le_antisym).
  rewrite <- (filter_after _ stamp V oldest_trans oldest_total visible_stamp) with (x := x);
    [|intros; by apply stamp_le_antisym|apply NoDup_visible|done].
  apply List.filter_ext. intros m. unfold stamp_lt. f_equal. f_equal. apply bool_decide_ext. split; congruence.
Qed.
End listing.

Lemma page_limit_bounds limit : 0 < page_limit limit <= 200.
Proof. unfold page_limit. destruct (_ || _) eqn:E; [lia|]. apply orb_false_iff in E. lia. Qed.

Lemma messageCursor_visible d now c a m :
  rows_keyed d -> m ∈ visible_messages d now c a -> messageCursor d now c m.(m_ID) = Some m.(m_CreatedAt).
Proof.
  intros Hk Hm. apply (elem_of_visible _ _ _ _ Hk) in Hm as (Hm & Hc & Hu & _).
  unfold messageCursor. by rewrite Hm, Hc, Hu, str_eqb_refl.
Qed.

(** For a member, the listing without a cursor starts the list of the
    conversation's messages that have not expired and whose sender the member
    has not blocked, newest first; asking before (or after) the i-th message
    of that list (or of its reverse order) returns what follows it.  So
    following the last message of each page visits every visible message once
    and nothing else, at most 200 at a time. *)
Theorem ListMessages_pages now c a limit s :
  rows_keyed s.(db) -> is_member s.(db) c a = true ->
  let all := visible_messages s.(db) now c a in
  let n := Z.to_nat (page_limit limit) in
  let get before after := ListMessages now c a (mkListOptions limit before after) s in
  (forall m, m ∈ all <-> s.(db).(content).(messages) !! m.(m_ID) = Some m /\ m.(m_ConversationID) = c /\
                         unexpired now m = true /\ blocked_by s.(db) a m.(m_SenderAccountID) = false) /\
  newest_first all ≡ₚ all /\ NoDup all /\
  StronglySorted (fun x y => stamp_le (stamp y) (stamp x) = true) (newest_first all) /\ (0 < n <= 200)%nat /\
  get ""%string ""%string = (Ok (take n (newest_first all)), s) /\
  (forall i m, newest_first all !! i = Some m -> m.(m_ID) <> ""%string ->
     get m.(m_ID) ""%string = (Ok (take n (drop (S i) (newest_first all))), s)) /\
  (forall i m, oldest_first all !! i = Some m -> m.(m_ID) <> ""%string ->
     get ""%string m.(m_ID) = (Ok (take n (drop (S i) (oldest_first all))), s)).
Proof.
  intros Hk Hmem all n get. subst get all n. cbn beta.
  split_and!.
  - intros m. apply (elem_of_visible _ _ _ _ Hk).
  - apply order_by_perm.
  - by apply NoDup_visible.
  - apply ordered_sorted; [apply newest_trans|apply newest_total].
  - pose proof (page_limit_bounds limit). lia.
  - pose proof (page_limit_bounds limit). lia.
  - unfold ListMessages, mbind, Tx_bind. simpl. by rewrite Hmem.
  - intros i m Hi Hne. rewrite <- (before_page _ _ _ _ Hk i m Hi). apply str_eqb_false in Hne. unfold ListMessages, mbind, Tx_bind. simpl. rewrite Hmem. simpl.
    rewrite Hne. simpl. rewrite (messageCursor_visible _ _ _ a _ Hk).
    + done.
    + rewrite <- (order_by_perm (fun x y => stamp_le (stamp y) (stamp x))). by eapply list_elem_of_lookup_2.
  - intros i m Hi Hne. rewrite <- (after_page _ _ _ _ Hk i m Hi). apply str_eqb_false in Hne. unfold ListMessages, mbind, Tx_bind. simpl. rewrite Hmem. simpl.
    rewrite Hne. simpl. rewrite (messageCursor_visible _ _ _ a _ Hk).
    + done.
    + rewrite <- (order_by_perm (fun x y => stamp_le (stamp x) (stamp y))). by eapply list_elem_of_lookup_2.
Qed.

(** Two messages of the example conversation, listed one at a time. *)
Definition ex_second : MessageEnvelope :=
  mkMessageEnvelope "" "conv_g" ex_alice "dev_a" "key2" "more" "mls" "" "" None None 0 None None None.
Definition ex_two : Store := (saveMessageEnvelope "msg_2" 25 ex_second true true ex_sent).2.

Lemma ex_two_keyed : rows_keyed ex_two.(db).
Proof.
  assert (empty_log ex_store /\ rtc message_step ex_store ex_two) as [H0 Hr].
  { split; [split_and!; reflexivity|].
    eapply rtc_r; [eapply rtc_r; [apply (room_requests_steps ex_store ex_requests)|]|].
    - repeat (apply Forall_cons; split; [exact I || (vm_compute; reflexivity)|]). by apply Forall_nil.
    - apply (ms_save "msg_1" 20 ex_draft true true).
    - apply (ms_save "msg_2" 25 ex_second true true). }
  pose proof (reachable_content_inv _ _ H0 Hr) as Hinv. intros k m Hm. apply (ci_row _ Hinv k m Hm).
Qed.

Definition ids_of (r : result store_error (list MessageEnvelope) * Store) : list string :=
  match r.1 with Ok l => map m_ID l | Err _ => [] end.

Lemma ListMessages_pages_witness :
  ids_of (ListMessages 30 "conv_g" ex_carol (mkListOptions 1 "" "") ex_two) = ["msg_2"%string] /\
  ids_of (ListMessages 30 "conv_g" ex_carol (mkListOptions 1 "msg_2" "") ex_two) = ["msg_1"%string] /\
  ListMessages 30 "conv_g" ex_carol (mkListOptions 1 "" "") ex_two =
    (Ok (take 1 (newest_first (visible_messages ex_two.(db) 30 "conv_g" ex_carol))), ex_two).
Proof.
  split; [vm_compute; reflexivity|]. split; [vm_compute; reflexivity|].
  destruct (ListMessages_pages 30 "conv_g" ex_carol 1 ex_two ex_two_keyed ltac:(vm_compute; reflexivity))
    as (_ & _ & _ & _ & _ & H & _). exact H.
Defined.
