(* ===== verification/Sync.v ===== *)
(** * The sync event stream

    [ListSyncEvents] and its queries ([internal/storage/message_store.go]
    from line 960, [mlsJoinFilterEventFor] of [mls_group_store.go]) and the
    scoped streams of [scoped_sync_store.go].  The k-way merge of
    [listSyncEventsQuery] is modelled as the recursive query runs it: a queue
    with one entry per chain, the least id taken out and the next event of
    its chain queued.  The clock of the queries is an argument. *)

From S2P Require Import Prelude GoStrings GoJson Domain Admission Database Conversations Messages Retention.
From stdpp Require Import base numbers list strings gmap fin_maps sorting.
From Stdlib Require Import ZArith ZifyBool Lia.
Open Scope Z_scope.

Record SyncEvent := mkSyncEvent {
  ev_ID : Z; ev_Type : string; ev_AccountID : option string; ev_ConversationID : string;
  ev_Payload : Payload; ev_CreatedAt : Z }.

Definition scanSyncEvent (id : Z) (e : SyncEventRow) : SyncEvent :=
  mkSyncEvent id e.(se_type) e.(se_account_id) (default ""%string e.(se_conversation_id)) e.(se_payload) e.(se_created_at).

(** ** What a device may see *)

(** [json_extract(payload, '$.envelope.crypto_metadata.mls_epoch')] when it
    is an integer. *)
Definition envelope_epoch (e : SyncEventRow) : option Z :=
  match p_envelope e.(se_payload) with
  | Some env => match Json.Unmarshal env.(m_CryptoMetadata) with
                | Some (Json.JObj l) => match Json.sql_member l "mls_epoch" with
                                        | Some (Json.JNum lit) => Json.int_literal lit
                                        | _ => None
                                        end
                | _ => None
                end
  | None => None
  end.

Definition mls_window (id : Z) (jd : MlsDeviceRow) : bool :=
  (jd.(md_joined_after_event_id) <? id) &&
  match jd.(md_removed_after_event_id) with None => true | Some r => id <=? r end.

Definition mlsJoinFilterEventFor (d : DB) (device : string) (id : Z) (e : SyncEventRow) : bool :=
  match e.(se_conversation_id) with
  | None => true
  | Some c =>
      negb (exists_in d.(mls).(mls_groups) c) ||
      match d.(mls).(mls_devices) !! (c, device) with
      | None => false
      | Some jd => mls_window id jd &&
                   (negb (HasPrefixLike e.(se_type) "message.envelope.") ||
                    match envelope_epoch e with None => true | Some ep => jd.(md_joined_epoch) <=? ep end)
      end
  end.

(** The account an event is from, as blocks see it. *)
Definition event_sender (d : DB) (e : SyncEventRow) : option string :=
  let p := e.(se_payload) in
  if HasPrefixLike e.(se_type) "message." then
    or_else (match p_str p "message_id" with
             | Some mid => m_SenderAccountID <$> d.(content).(messages) !! mid
             | None => None
             end)
      (or_else (m_SenderAccountID <$> p_envelope p) (p_str p "sender_account_id"))
  else if HasPrefixLike e.(se_type) "reaction." || (e.(se_type) =s? "read_receipt.updated") then p_str p "account_id"
  else if HasPrefixLike e.(se_type) "call." then p_str p "created_by"
  else None.

Definition syncEventBlockedFor (d : DB) (blocker : string) (e : SyncEventRow) : bool :=
  match event_sender d e with Some a => blocked_by d blocker a | None => false end ||
  ((e.(se_type) =s? "read_receipt.updated") &&
   match p_str e.(se_payload) "account_id" with Some a => blocked_by d a blocker | None => false end).

Definition syncEventVisibleTo (d : DB) (now : Z) (account device : string) (id : Z) (e : SyncEventRow) : bool :=
  (negb (roster_filtered_type e.(se_type)) || mlsJoinFilterEventFor d device id e) &&
  negb (syncEventBlockedFor d account e) && envelope_live d now e.

(** ** The merge *)

(** One chain per membership and one ([None]) for the account's own events. *)
Definition Chain := option string.

Definition in_chain (account device : string) (ch : Chain) (e : SyncEventRow) : bool :=
  match ch with
  | Some c => bool_decide (e.(se_conversation_id) = Some c) && bool_decide (e.(se_account_id) = None)
  | None => bool_decide (e.(se_account_id) = Some account) &&
            match e.(se_device_id) with None => true | Some dv => dv =s? device end
  end.

Definition chains (d : DB) (account : string) : list Chain :=
  (Some <$> scopes_of d.(rooms).(conv_members) account) ++ [None].

(** [... AND id > ? ORDER BY id ASC LIMIT 1] on a chain. *)
Definition chain_next (d : DB) (account device : string) (ch : Chain) (after : Z) : option Z :=
  minimum (omap (fun '(id, e) => if (after <? id) && in_chain account device ch e then Some id else None)
             (map_to_list d.(events).(sync_events))).

Definition queue_at (d : DB) (account device : string) (chs : list Chain) (after : Z) : list (Z * Chain) :=
  omap (fun ch => (fun id => (id, ch)) <$> chain_next d account device ch after) chs.

Fixpoint pop_min (q : list (Z * Chain)) : option ((Z * Chain) * list (Z * Chain)) :=
  match q with
  | [] => None
  | x :: q => match pop_min q with
              | None => Some (x, [])
              | Some (y, r) => if x.1 <=? y.1 then Some (x, q) else Some (y, x :: r)
              end
  end.

Fixpoint merge_chains (fuel : nat) (d : DB) (account device : string) (q : list (Z * Chain)) : list (Z * Chain) :=
  match fuel with
  | O => []
  | S fuel =>
      match pop_min q with
      | None => []
      | Some ((id, ch), rest) =>
          (id, ch) :: merge_chains fuel d account device
            match chain_next d account device ch id with Some n => (n, ch) :: rest | None => rest end
      end
  end.

(** The rows of [listSyncEventsQuery]: every event is taken out at most
    once, so the size of the table bounds the merge. *)
Definition listSyncEventsQuery (d : DB) (now : Z) (account device : string) (after : Z) : list (bool * Z * SyncEventRow) :=
  omap (fun '(id, ch) =>
    (fun e => (match ch with None => true | Some _ => syncEventVisibleTo d now account device id e end, id, e))
      <$> d.(events).(sync_events) !! id)
    (merge_chains (S (size d.(events).(sync_events))) d account device
       (queue_at d account device (chains d account) after)).

(** The loop over the rows: it stops after [limit] visible events and fails
    on a row out of order. *)
Fixpoint page_loop (limit : nat) (last : Z) (rows : list (bool * Z * SyncEventRow)) : result store_error (list SyncEvent) :=
  match limit, rows with
  | O, _ => Ok []
  | _, [] => Ok []
  | S n, (visible, id, e) :: rows =>
      if id <=? last then Err ErrSyncOrder
      else if visible then
        match page_loop n id rows with Ok l => Ok (scanSyncEvent id e :: l) | Err x => Err x end
      else page_loop limit id rows
  end.

Definition listSyncEventsPage (d : DB) (now : Z) (account device : string) (after : Z) (limit : nat)
    : result store_error (list SyncEvent) :=
  page_loop limit after (listSyncEventsQuery d now account device after).

(** ** Expired cursors *)

Definition account_marks_expired (d : DB) (account device : string) (after : Z) : bool :=
  existsb (fun dev => match d.(events).(account_marks) !! (account, dev) with
                      | Some m => after <? m
                      | None => false
                      end) [""%string; device].

Definition conversation_mark_expired (d : DB) (device : string) (after : Z) (c : string) (roster_filtered : bool) : bool :=
  match d.(events).(conversation_marks) !! (c, roster_filtered) with
  | None => false
  | Some k =>
      (after <? k) &&
      (negb roster_filtered || negb (exists_in d.(mls).(mls_groups) c) ||
       match d.(mls).(mls_devices) !! (c, device) with
       | None => false
       | Some jd => (jd.(md_joined_after_event_id) <? k) &&
                    match jd.(md_removed_after_event_id) with
                    | None => true
                    | Some r => (after <? r) && (jd.(md_joined_after_event_id) <? r)
                    end
       end)
  end.

Definition syncPruneMarksExpiredQuery (d : DB) (account device : string) (after : Z) : bool :=
  account_marks_expired d account device after ||
  existsb (fun c => conversation_mark_expired d device after c false || conversation_mark_expired d device after c true)
    (scopes_of d.(rooms).(conv_members) account).

(** The ids of the account's events and of the unblocked events of its
    conversations. *)
Definition bounded_event (d : DB) (account : string) (e : SyncEventRow) : bool :=
  match e.(se_account_id), e.(se_conversation_id) with
  | Some a, _ => a =s? account
  | None, Some c => is_member d c account && negb (syncEventBlockedFor d account e)
  | None, None => false
  end.

Definition ids_where (d : DB) (P : SyncEventRow -> bool) : list Z :=
  omap (fun '(id, e) => if P e then Some id else None) (map_to_list d.(events).(sync_events)).

Definition syncOldestExpr (d : DB) (account : string) : option Z :=
  minimum (ids_where d (bounded_event d account)).

Definition maximum (l : list Z) : option Z :=
  foldr (fun x acc => match acc with Some y => Some (Z.max x y) | None => Some x end) None l.

Definition syncVisibleLatestExpr (d : DB) (now : Z) (account : string) : option Z :=
  maximum (ids_where d (fun e => bounded_event d account e &&
    (bool_decide (is_Some e.(se_account_id)) || envelope_live d now e))).

Definition legacySyncCursorExpiredQuery (d : DB) (account : string) (after : Z) : bool :=
  match d.(events).(sync_events) !! after with
  | Some e => if bounded_event d account e then false
              else match syncOldestExpr d account with Some o => after <? o - 1 | None => false end
  | None => match syncOldestExpr d account with Some o => after <? o - 1 | None => false end
  end.

Definition cursor_expired (d : DB) (marks : bool) (account : string) (after : Z) : bool :=
  match d.(events).(prune_state) with
  | Some st => if st.(pruned_through) <=? after then false
               else if marks || (st.(legacy_through) <=? after) then marks
               else legacySyncCursorExpiredQuery d account after
  | None => if marks then true else legacySyncCursorExpiredQuery d account after
  end.

Definition syncCursorExpired (d : DB) (account device : string) (after : Z) : bool :=
  cursor_expired d (syncPruneMarksExpiredQuery d account device after) account after.

Definition ListSyncEvents (d : DB) (now : Z) (account device : string) (after limit : Z)
    : result store_error (list SyncEvent) :=
  let limit := page_limit limit in
  let? evs := listSyncEventsPage d now account device after (Z.to_nat limit) in
  if (0 <? after) && syncCursorExpired d account device after then Err ErrSyncCursorExpired else Ok evs.

(** The stream epoch is read from [sync_state], which only this query
    uses; a missing bound reads as 0. *)
Definition SyncBounds (epoch : string) (d : DB) (now : Z) (account : string) : string * Z * Z :=
  (epoch, default 0 (syncOldestExpr d account), default 0 (syncVisibleLatestExpr d now account)).

(** ** Scoped streams *)

Definition rows_by_id (d : DB) (P : Z -> SyncEventRow -> bool) : list (Z * SyncEventRow) :=
  order_by (fun a b => a.1 <=? b.1) (List.filter (fun '(id, e) => P id e) (map_to_list d.(events).(sync_events))).

Definition scoped_marks_expired (d : DB) (account device conversationID : string) (after : Z) : bool :=
  account_marks_expired d account device after ||
  (negb (conversationID =s? "") &&
   (conversation_mark_expired d device after conversationID false ||
    conversation_mark_expired d device after conversationID true)).

Definition scopedSyncCursorExpired (d : DB) (account device conversationID : string) (after : Z) : bool :=
  cursor_expired d (scoped_marks_expired d account device conversationID after) account after.

Definition ListAccountSyncEvents (d : DB) (account device : string) (after limit : Z)
    : result store_error (list SyncEvent) :=
  let limit := page_limit limit in
  let evs := map (fun '(id, e) => scanSyncEvent id e) (take (Z.to_nat limit)
    (rows_by_id d (fun id e => in_chain account device None e && bool_decide (e.(se_conversation_id) = None) &&
                               (after <? id)))) in
  if (0 <? after) && scopedSyncCursorExpired d account device "" after then Err ErrSyncCursorExpired else Ok evs.

Definition scoped_event (account device conversationID : string) (e : SyncEventRow) : bool :=
  bool_decide (e.(se_conversation_id) = Some conversationID) &&
  (bool_decide (e.(se_account_id) = None) || in_chain account device None e).

Definition ListConversationSyncEvents (d : DB) (now : Z) (account device conversationID : string) (after limit : Z)
    : result store_error (list SyncEvent) :=
  let limit := page_limit limit in
  if negb (is_member d conversationID account) then Err ErrForbidden
  else
    let rows := map (fun '(id, e) => (bool_decide (is_Some e.(se_account_id)) ||
                                      syncEventVisibleTo d now account device id e, id, e))
      (rows_by_id d (fun id e => (after <? id) && scoped_event account device conversationID e)) in
    let? evs := page_loop (Z.to_nat limit) after rows in
    if (0 <? after) && scopedSyncCursorExpired d account device conversationID after
    then Err ErrSyncCursorExpired else Ok evs.
