(* ===== verification/SyncRules.v ===== *)
(** * The merge is the sorted scan, and pruning is never silent

    [listSyncEventsPage] returns exactly the first events after the cursor
    that the device may see, in id order; and when retention prunes one of
    them, the cursor is reported expired. *)

From S2P Require Import Prelude GoStrings GoJson Domain Admission Database Conversations Memberships Messages Retention MessageEvents Sync.
From stdpp Require Import base numbers list strings gmap fin_maps sorting.
From Stdlib Require Import ZArith ZifyBool Lia.
Open Scope Z_scope.

(** ** Minima *)

Lemma minimum_some l n : minimum l = Some n <-> n ∈ l /\ forall x, x ∈ l -> n <= x.
Proof.
  revert n. induction l as [|y l IH]; intros n; simpl.
  - split; [done|]. intros [[]%elem_of_nil _].
  - destruct (minimum l) as [m|] eqn:E.
    + destruct (proj1 (IH m) eq_refl) as [Hm Hle]. split.
      * intros [= <-]. split; [|intros x [->|Hx]%elem_of_cons; [lia|specialize (Hle x Hx); lia]].
        destruct (Z.min_spec y m) as [[_ ->]|[_ ->]]; [by left|by right].
      * intros [Hin Hmin]. f_equal. pose proof (Hmin y (list_elem_of_here _ _)).
        pose proof (Hmin m (list_elem_of_further _ _ _ Hm)).
        apply elem_of_cons in Hin as [->|Hin]; [lia|]. specialize (Hle n Hin). lia.
    + assert (l = []) as ->.
      { destruct l as [|z l]; [done|]. simpl in E. destruct (minimum l); done. }
      split; [intros [= <-]; split; [by left|intros x [->|[]%elem_of_nil]%elem_of_cons; lia]|].
      intros [[->|[]%elem_of_nil]%elem_of_cons _]. done.
Qed.

Lemma minimum_none l : minimum l = None <-> l = [].
Proof. split; [|by intros ->]. destruct l; [done|]. simpl. by destruct (minimum l). Qed.

Lemma pop_min_none q : pop_min q = None -> q = [].
Proof. destruct q as [|x q]; [done|]. simpl. destruct (pop_min q) as [[y r]|]; [by destruct (_ <=? _)|done]. Qed.

Lemma pop_min_some q x r : pop_min q = Some (x, r) -> q ≡ₚ x :: r /\ forall y, y ∈ r -> x.1 <= y.1.
Proof.
  revert x r. induction q as [|z q IH]; intros x r; simpl; [done|].
  destruct (pop_min q) as [[y s]|] eqn:E.
  - destruct (IH y s eq_refl) as [Hp Hle]. destruct (z.1 <=? y.1) eqn:Ez; intros [= <- <-].
    + split; [done|]. intros w. rewrite Hp, elem_of_cons. intros [->|Hw]; [lia|]. specialize (Hle w Hw). lia.
    + split; [rewrite Hp; apply perm_swap|]. intros w [->|Hw]%elem_of_cons; [lia|by apply Hle].
  - apply pop_min_none in E as ->. intros [= <- <-]. split; [done|]. by intros y []%elem_of_nil.
Qed.

(** ** Strictly sorted rows *)

Definition id_lt (x y : Z * SyncEventRow) : Prop := x.1 < y.1.

Lemma filter_gt_cons (L : list (Z * SyncEventRow)) (a : Z) x :
  StronglySorted id_lt L -> x ∈ L -> a < x.1 -> (forall y, y ∈ L -> a < y.1 -> x.1 <= y.1) ->
  List.filter (fun y => a <? y.1) L = x :: List.filter (fun y => x.1 <? y.1) L.
Proof.
  intros HL. induction HL as [|y L HL IH Hy]; intros Hx Ha Hmin; [by apply elem_of_nil in Hx|].
  rewrite Forall_forall in Hy. cbn [List.filter]. apply elem_of_cons in Hx as [->|Hx].
  - rewrite (proj2 (Z.ltb_lt a y.1)) by done. rewrite (proj2 (Z.ltb_ge y.1 y.1)) by lia. f_equal.
    rewrite !List.forallb_filter_id; [done|..]; apply forallb_forall; intros z Hz%list_elem_of_In;
      specialize (Hy z Hz); unfold id_lt in Hy; lia.
  - pose proof (Hy x Hx) as Hlt. unfold id_lt in Hlt.
    destruct (Z.ltb_spec a y.1); [pose proof (Hmin y (list_elem_of_here _ _)); lia|].
    rewrite (proj2 (Z.ltb_ge x.1 y.1)) by lia. apply IH; [done..|]. intros z Hz. apply Hmin. by right.
Qed.

Lemma rows_by_id_spec d P :
  StronglySorted id_lt (rows_by_id d P) /\
  (forall id e, (id, e) ∈ rows_by_id d P <-> d.(events).(sync_events) !! id = Some e /\ P id e = true) /\
  rows_by_id d P = List.filter (fun '(id, e) => P id e) (rows_by_id d (fun _ _ => true)) /\
  (length (rows_by_id d P) <= size d.(events).(sync_events))%nat.
Proof.
  set (le := fun a b : Z * SyncEventRow => a.1 <=? b.1). set (M := map_to_list d.(events).(sync_events)).
  assert (Transitive (fun x y => le x y = true)) as Ht by (intros x y z; unfold le; lia).
  assert (Total (fun x y => le x y = true)) as Hto by (intros x y; unfold le; lia).
  assert (forall x y, x ∈ M -> y ∈ M -> x.1 = y.1 -> x = y) as Hkey.
  { intros [i e] [j e'] H1%elem_of_map_to_list H2%elem_of_map_to_list E. simpl in E. congruence. }
  assert (forall x y, x ∈ M -> y ∈ M -> le x y = true -> le y x = true -> x.1 = y.1) as Hanti
    by (intros x y _ _; unfold le; lia).
  pose proof (NoDup_map_to_list d.(events).(sync_events)) as HND.
  pose proof (order_by_filter le fst M Ht Hto Hkey Hanti) as Hfil.
  assert (rows_by_id d P = List.filter (fun '(id, e) => P id e) (order_by le M)) as E1 by apply Hfil.
  assert (rows_by_id d (fun _ _ => true) = order_by le M) as E2.
  { unfold rows_by_id. fold M. f_equal. apply List.forallb_filter_id. apply forallb_forall. by intros []. }
  assert (StronglySorted id_lt (order_by le M)) as Hs.
  { pose proof (ordered_sorted le M Ht Hto) as Hs. pose proof (ordered_nodup le M HND) as Hnd.
    assert (forall x, x ∈ order_by le M -> x ∈ M) as Hin by (intros x; by rewrite order_by_perm).
    clear -Hs Hnd Hin Hkey. induction Hs as [|x l Hl IH Hx]; constructor.
    - apply IH; [by apply NoDup_cons in Hnd as [_ ?]|]. intros y Hy. apply Hin. by right.
    - rewrite Forall_forall in *. intros y Hy. specialize (Hx y Hy). unfold le in Hx. unfold id_lt.
      assert (x.1 <> y.1); [|lia]. intros E. apply NoDup_cons in Hnd as [Hno _]. apply Hno.
      by rewrite (Hkey x y (Hin x ltac:(by left)) (Hin y ltac:(by right)) E). }
  split_and!.
  - rewrite E1. clear -Hs. induction Hs as [|x l Hl IH Hx]; simpl; [constructor|]. destruct x as [i e].
    destruct (P i e); [|done]. constructor; [done|]. rewrite Forall_forall in *.
    intros y. rewrite list_elem_of_In, List.filter_In, <- list_elem_of_In. intros [? _]. auto.
  - intros id e. unfold rows_by_id. rewrite order_by_perm, list_elem_of_In, List.filter_In, <- list_elem_of_In.
    by rewrite elem_of_map_to_list.
  - by rewrite E2.
  - unfold rows_by_id. rewrite order_by_perm. etrans; [apply List.filter_length_le|]. by rewrite length_map_to_list.
Qed.

(** ** The merge *)

Section merge.
Context (d : DB) (account device : string).

Let chs : list Chain := chains d account.
Let E : gmap Z SyncEventRow := d.(events).(sync_events).

Definition chain_of (e : SyncEventRow) : Chain :=
  match e.(se_account_id) with Some _ => None | None => e.(se_conversation_id) end.

(** The event belongs to one of the account's chains. *)
Definition candidate (e : SyncEventRow) : bool :=
  existsb (fun ch => in_chain account device ch e) chs.

Lemma in_chain_of ch e : in_chain account device ch e = true -> chain_of e = ch.
Proof.
  unfold in_chain, chain_of. destruct ch as [c|]; intros H; bool_to_prop.
  - by repeat match goal with Hx : _ = _ |- _ => rewrite Hx; clear Hx end.
  - by match goal with Hx : se_account_id e = _ |- _ => rewrite Hx end.
Qed.

Lemma candidate_true e : candidate e = true <-> chain_of e ∈ chs /\ in_chain account device (chain_of e) e = true.
Proof.
  unfold candidate. rewrite existsb_exists. split.
  - intros (ch & Hin%list_elem_of_In & Hch). by rewrite (in_chain_of _ _ Hch).
  - intros [Hin Hch]. exists (chain_of e). split; [by apply list_elem_of_In|done].
Qed.

Lemma NoDup_chains : NoDup chs.
Proof.
  unfold chs, chains. apply NoDup_app. split_and!.
  - apply NoDup_fmap; [by intros ?? [=]|]. apply NoDup_omap_inj; [|apply NoDup_map_to_list].
    intros [[c a] r] [[c' a'] r'] b H1%elem_of_map_to_list H2%elem_of_map_to_list.
    destruct (a =s? account) eqn:E1; [|done]. destruct (a' =s? account) eqn:E2; [|done].
    apply str_eqb_true in E1 as ->. apply str_eqb_true in E2 as ->. intros [= ->] [= ->]. congruence.
  - intros ch (c & -> & _)%list_elem_of_fmap [=]%list_elem_of_singleton.
  - apply NoDup_singleton.
Qed.

Lemma elem_of_chain_ids ch a n :
  n ∈ omap (fun '(id, e) => if (a <? id) && in_chain account device ch e then Some id else None) (map_to_list E) <->
  exists e, E !! n = Some e /\ in_chain account device ch e = true /\ a < n.
Proof.
  rewrite list_elem_of_omap. split.
  - intros ([id e] & Hin%elem_of_map_to_list & Heq). destruct (_ && _) eqn:Eb; [|done].
    injection Heq as ->. apply andb_prop in Eb as [? ?]. exists e. split_and!; [done|done|lia].
  - intros (e & He & Hch & Ha). exists (n, e). split; [by apply elem_of_map_to_list|].
    by rewrite Hch, (proj2 (Z.ltb_lt a n)).
Qed.

Lemma chain_next_some ch a n :
  chain_next d account device ch a = Some n <->
  (exists e, E !! n = Some e /\ in_chain account device ch e = true /\ a < n) /\
  forall n' e', E !! n' = Some e' -> in_chain account device ch e' = true -> a < n' -> n <= n'.
Proof.
  unfold chain_next. fold E. rewrite minimum_some, elem_of_chain_ids. setoid_rewrite elem_of_chain_ids. naive_solver.
Qed.

Lemma chain_next_none ch a :
  chain_next d account device ch a = None <->
  forall n e, E !! n = Some e -> in_chain account device ch e = true -> n <= a.
Proof.
  unfold chain_next. fold E. rewrite minimum_none. split.
  - intros Hnil n e He Hch. destruct (Z.le_gt_cases n a) as [|Ha]; [done|].
    assert (n ∈ omap (fun '(id, e) => if (a <? id) && in_chain account device ch e then Some id else None) (map_to_list E))
      as Hin by (apply elem_of_chain_ids; eauto). rewrite Hnil in Hin. by apply elem_of_nil in Hin.
  - intros H. apply elem_of_nil_inv. intros n (e & He & Hch & Ha)%elem_of_chain_ids.
    specialize (H n e He Hch). lia.
Qed.

Lemma chain_next_ex ch a n e :
  E !! n = Some e -> in_chain account device ch e = true -> a < n ->
  exists m, chain_next d account device ch a = Some m /\ m <= n.
Proof.
  intros He Hch Ha. destruct (chain_next d account device ch a) as [m|] eqn:En.
  - exists m. split; [done|]. apply chain_next_some in En as [_ Hmin]. by eapply Hmin.
  - rewrite chain_next_none in En. specialize (En n e He Hch). lia.
Qed.

Lemma elem_of_queue q a n ch :
  (n, ch) ∈ queue_at d account device q a <-> ch ∈ q /\ chain_next d account device ch a = Some n.
Proof.
  unfold queue_at. rewrite list_elem_of_omap. split.
  - intros (ch' & Hin & (n' & Hn & [= <- <-])%fmap_Some_1). done.
  - intros [Hin Hn]. exists ch. by rewrite Hn.
Qed.

(** Taking out the least entry advances its chain and leaves the others. *)
Lemma queue_step a id ch rest :
  queue_at d account device chs a ≡ₚ (id, ch) :: rest -> (forall y, y ∈ rest -> id <= y.1) ->
  queue_at d account device chs id ≡ₚ
    match chain_next d account device ch id with Some n => (n, ch) :: rest | None => rest end.
Proof.
  intros Hq Hmin.
  assert ((id, ch) ∈ queue_at d account device chs a) as Hin by (rewrite Hq; by left).
  apply elem_of_queue in Hin as [Hch Hid]. apply elem_of_Permutation in Hch as [chs' Hperm].
  pose proof NoDup_chains as Hnd. rewrite Hperm in Hnd. apply NoDup_cons in Hnd as [Hno _].
  assert (forall x, queue_at d account device chs x ≡ₚ queue_at d account device (ch :: chs') x) as Hqp.
  { intros x. unfold queue_at. by apply omap_Permutation. }
  rewrite Hqp in Hq. unfold queue_at in Hq at 1. cbn [omap list_omap] in Hq. rewrite Hid in Hq. simpl in Hq.
  apply Permutation.Permutation_cons_inv in Hq. fold (queue_at d account device chs' a) in Hq.
  assert (queue_at d account device chs' id = queue_at d account device chs' a) as Heq.
  { unfold queue_at. apply list_omap_ext. apply Forall2_same_length_lookup_2; [done|]. intros i x y Hx Hy.
    assert (x = y) as <- by congruence. apply list_elem_of_lookup_2 in Hx. f_equal.
    destruct (chain_next d account device x a) as [n|] eqn:En.
    - assert ((n, x) ∈ rest) as Hr by (rewrite <- Hq; by apply elem_of_queue). specialize (Hmin _ Hr). simpl in Hmin.
      apply chain_next_some in En as [(e & He & Hxe & Ha) Hle]. apply chain_next_some in Hid as [(e0 & He0 & Hce & Ha0) _].
      assert (id <> n). { intros ->. apply Hno. replace e0 with e in Hce by congruence.
        rewrite <- (in_chain_of _ _ Hce), (in_chain_of _ _ Hxe). done. }
      apply chain_next_some. split; [exists e; split_and!; [done|done|lia]|]. intros n' e' He' Hx' Hn'. eapply Hle; [done|done|lia].
    - apply chain_next_none. intros n e He Hxe. rewrite chain_next_none in En. specialize (En n e He Hxe).
      apply chain_next_some in Hid as [(_ & _ & _ & ?) _]. lia. }
  rewrite Hqp. unfold queue_at at 1. cbn [omap list_omap]. fold (queue_at d account device chs' id). rewrite Heq.
  destruct (chain_next d account device ch id); simpl; by rewrite Hq.
Qed.

(** The candidates in id order. *)
Let L : list (Z * SyncEventRow) := rows_by_id d (fun _ e => candidate e).

Lemma merge_spec fuel q a :
  q ≡ₚ queue_at d account device chs a -> (length (List.filter (fun y => (a <? y.1)%Z) L) < fuel)%nat ->
  merge_chains fuel d account device q = map (fun '(id, e) => (id, chain_of e)) (List.filter (fun y => a <? y.1) L).
Proof.
  destruct (rows_by_id_spec d (fun _ e => candidate e)) as (Hsort & Helem & _). fold L in Hsort, Helem.
  revert q a. induction fuel as [|fuel IH]; intros q a Hq Hlen; [lia|]. cbn [merge_chains].
  destruct (pop_min q) as [[[id ch] rest]|] eqn:Ep.
  - apply pop_min_some in Ep as [Hp Hmin]. rewrite Hp in Hq. symmetry in Hq. pose proof (queue_step _ _ _ _ Hq Hmin) as Hstep.
    assert ((id, ch) ∈ queue_at d account device chs a) as Hin by (rewrite Hq; by left).
    apply elem_of_queue in Hin as [Hch Hid]. pose proof Hid as Hid'. apply chain_next_some in Hid as [(e & He & Hce & Ha) _].
    assert (candidate e = true) as Hcand by (apply candidate_true; by rewrite (in_chain_of _ _ Hce)).
    assert (forall y, y ∈ L -> a < y.1 -> (id, e).1 <= y.1) as Hleast.
    { intros [n e'] [He' Hc']%Helem Hn. apply candidate_true in Hc' as [Hin' Hch'].
      destruct (chain_next_ex _ a n e' He' Hch' Hn) as (m & Hm & Hle).
      assert ((m, chain_of e') ∈ (id, ch) :: rest) as Hmr by (rewrite <- Hq; by apply elem_of_queue).
      apply elem_of_cons in Hmr as [[= -> _]|Hmr]; [done|]. specialize (Hmin _ Hmr). simpl in *. lia. }
    assert ((id, e) ∈ L) as HinL by by apply Helem.
    pose proof (filter_gt_cons L a (id, e) Hsort HinL Ha Hleast) as Hcons. rewrite Hcons in Hlen |- *.
    cbn [map fst] in *. rewrite (in_chain_of _ _ Hce). f_equal. apply IH; [by symmetry|]. simpl in Hlen. lia.
  - apply pop_min_none in Ep as ->. apply Permutation_nil_l in Hq.
    replace (List.filter (fun y => a <? y.1) L) with (@nil (Z * SyncEventRow)); [done|]. symmetry.
    apply elem_of_nil_inv. intros [n e]. rewrite list_elem_of_In, List.filter_In, <- list_elem_of_In.
    intros [[He Hc]%Helem Hn]. apply candidate_true in Hc as [Hin Hch]. simpl in Hn.
    destruct (chain_next_ex _ a n e He Hch) as (m & Hm & _); [lia|].
    assert ((m, chain_of e) ∈ queue_at d account device chs a) as Hmq by by apply elem_of_queue.
    rewrite <- Hq in Hmq. by apply elem_of_nil in Hmq.
Qed.
End merge.

(** ** The page *)

Definition sent_to (d : DB) (now : Z) (account device : string) (id : Z) (e : SyncEventRow) : bool :=
  match chain_of e with
  | None => in_chain account device None e
  | Some c => is_member d c account && syncEventVisibleTo d now account device id e
  end.

Lemma page_loop_sorted limit last (rows : list (bool * Z * SyncEventRow)) :
  StronglySorted (fun x y => x.1.2 < y.1.2) rows -> Forall (fun x => last < x.1.2) rows ->
  page_loop limit last rows =
    Ok (take limit (map (fun '(_, id, e) => scanSyncEvent id e) (List.filter (fun x => x.1.1) rows))).
Proof.
  intros Hs. revert limit last. induction Hs as [|[[v id] e] rows Hr IH Hx]; intros limit last Hl.
  - by destruct limit.
  - apply Forall_cons in Hl as [Hid Hl]. simpl in Hid. destruct limit as [|n]; [done|]. cbn [page_loop].
    rewrite (proj2 (Z.leb_gt id last)) by done. destruct v; simpl.
    + by rewrite IH.
    + by rewrite IH.
Qed.

Lemma elem_of_chains d account c : Some c ∈ chains d account <-> is_member d c account = true.
Proof.
  unfold chains. rewrite elem_of_app, list_elem_of_fmap. rewrite is_member_true, <- elem_of_scopes_of.
  split; [intros [(x & [= ->] & ?)|[=]%list_elem_of_singleton]; done|]. intros H. left. by exists c.
Qed.

Lemma None_in_chains d account : None ∈ chains d account.
Proof. unfold chains. rewrite elem_of_app. right. by apply list_elem_of_singleton. Qed.

Lemma filter_filter {A} (p q : A -> bool) l : List.filter p (List.filter q l) = List.filter (fun x => q x && p x) l.
Proof. induction l as [|x l IH]; simpl; [done|]. destruct (q x); simpl; by rewrite IH. Qed.

Lemma filter_map {A B} (f : A -> B) (p : B -> bool) l : List.filter p (map f l) = map f (List.filter (fun x => p (f x)) l).
Proof. induction l as [|x l IH]; simpl; [done|]. destruct (p (f x)); simpl; by rewrite IH. Qed.

Lemma sent_to_candidate d now account device id e :
  sent_to d now account device id e =
  candidate d account device e &&
  match chain_of e with None => true | Some _ => syncEventVisibleTo d now account device id e end.
Proof.
  apply eq_true_iff_eq. rewrite andb_true_iff, candidate_true. unfold sent_to.
  destruct (chain_of e) as [c|] eqn:Ec.
  - rewrite andb_true_iff, elem_of_chains. unfold in_chain. split; [|tauto]. intros [Hm Hv]. split_and!; try done.
    unfold chain_of in Ec. destruct (se_account_id e); [done|]. by rewrite Ec, !bool_decide_true.
  - split; [|tauto]. intros H. split_and!; [apply None_in_chains|done|done].
Qed.

Section page.
Context (d : DB) (now : Z) (account device : string) (after : Z).

Let L : list (Z * SyncEventRow) := rows_by_id d (fun _ e => candidate d account device e).
Let row (x : Z * SyncEventRow) : bool * Z * SyncEventRow :=
  (match chain_of x.2 with None => true | Some _ => syncEventVisibleTo d now account device x.1 x.2 end, x.1, x.2).

Lemma listSyncEventsQuery_rows :
  listSyncEventsQuery d now account device after = map row (List.filter (fun y => after <? y.1) L).
Proof.
  destruct (rows_by_id_spec d (fun _ e => candidate d account device e)) as (_ & Helem & _ & Hsize). fold L in Helem, Hsize.
  unfold listSyncEventsQuery. rewrite (merge_spec d account device _ _ after); [|done|].
  - fold L. assert (forall x, x ∈ List.filter (fun y => after <? y.1) L -> sync_events (events d) !! x.1 = Some x.2) as Hin.
    { intros [id e]. rewrite list_elem_of_In, List.filter_In, <- list_elem_of_In. by intros [[? _]%Helem _]. }
    induction (List.filter (fun y => after <? y.1) L) as [|[id e] l IH]; [done|]. cbn [map omap list_omap].
    pose proof (Hin (id, e) (list_elem_of_here _ _)) as He. simpl in He. rewrite He. simpl. f_equal.
    apply IH. intros x Hx. apply Hin. by right.
  - fold L. eapply Nat.le_lt_trans; [apply List.filter_length_le|]. lia.
Qed.
End page.

Lemma page_is_scan d now account device after limit :
  listSyncEventsPage d now account device after limit =
  Ok (take limit (map (fun '(id, e) => scanSyncEvent id e)
        (rows_by_id d (fun id e => (after <? id) && sent_to d now account device id e)))).
Proof.
  unfold listSyncEventsPage. rewrite listSyncEventsQuery_rows.
  destruct (rows_by_id_spec d (fun _ e => candidate d account device e)) as (Hsort & _ & Hcand & _).
  set (L := rows_by_id d (fun _ e => candidate d account device e)) in *.
  rewrite page_loop_sorted.
  - do 2 f_equal.
    destruct (rows_by_id_spec d (fun id e => (after <? id) && sent_to d now account device id e)) as (_ & _ & -> & _).
    rewrite filter_map, map_map, filter_filter, Hcand, filter_filter. simpl.
    erewrite (List.filter_ext _ (fun '(id, e) => _)); [apply map_ext; by intros []|].
    intros [id e]. simpl. rewrite sent_to_candidate. destruct (candidate d account device e), (after <? id); done.
  - clear Hcand. induction Hsort as [|x l Hl IH Hx]; simpl; [constructor|]. destruct (after <? x.1); [|done]. simpl.
    constructor; [done|]. rewrite Forall_forall in Hx. apply Forall_forall. intros y. rewrite list_elem_of_In, in_map_iff.
    intros (z & <- & [Hz _]%List.filter_In). apply list_elem_of_In in Hz. specialize (Hx z Hz). done.
  - rewrite Forall_forall. intros y. rewrite list_elem_of_In, in_map_iff. intros (z & <- & [_ Hz]%List.filter_In).
    simpl. lia.
Qed.

(** C2: a page of the merge query, however the account's chains interleave
    and however many hidden events lie between, is the plain ordered scan of
    the log: the first [limit] events after the cursor that are addressed to
    the account's device, or belong to a conversation it is a member of and
    pass the visibility rules.  The order check never fails and the merge
    always ends. *)
Theorem sync_page_exact d now account device after limit :
  listSyncEventsPage d now account device after limit =
  Ok (take limit (map (fun '(id, e) => scanSyncEvent id e)
        (rows_by_id d (fun id e => (after <? id) && sent_to d now account device id e)))).
Proof. apply page_is_scan. Qed.

(** ** Pruning old events *)

Definition kept_tables (d d' : DB) : Prop :=
  d'.(content) = d.(content) /\ d'.(rooms) = d.(rooms) /\ d'.(mls).(mls_groups) = d.(mls).(mls_groups) /\
  d'.(mls).(mls_devices) = d.(mls).(mls_devices) /\ d'.(mls).(mls_revocations) = d.(mls).(mls_revocations).

#[export] Instance kept_tables_preorder : PreOrder kept_tables.
Proof. split; [done|]. intros d1 d2 d3 (? & ? & ? & ? & ?) (? & ? & ? & ? & ?). split_and!; congruence. Qed.

(** The marks record that event [id] was pruned. *)
Definition marked (d : DB) (id : Z) (e : SyncEventRow) : Prop :=
  (forall st, d.(events).(prune_state) = Some st -> id <= st.(pruned_through)) /\
  match e.(se_account_id), e.(se_conversation_id) with
  | Some a, _ => exists m, d.(events).(account_marks) !! (a, default ""%string e.(se_device_id)) = Some m /\ id <= m
  | None, Some c => exists m, d.(events).(conversation_marks) !! (c, roster_filtered_type e.(se_type)) = Some m /\ id <= m
  | None, None => True
  end.

Lemma raise_mark_some {K} `{Countable K} (k k' : K) id (m : gmap K Z) x :
  (exists y, m !! k' = Some y /\ x <= y) \/ (k = k' /\ x <= id) -> exists y, raise_mark k id m !! k' = Some y /\ x <= y.
Proof.
  unfold raise_mark. intros Hx. destruct (decide (k = k')) as [<-|Hne].
  - rewrite lookup_insert_eq. destruct Hx as [(y & -> & ?)|[_ ?]]; [eexists; split; [done|lia]|].
    eexists; split; [done|]. destruct (m !! k); lia.
  - rewrite lookup_insert_ne by done. destruct Hx as [?|[? _]]; done.
Qed.

Lemma marked_mono now d i id e : marked d id e -> marked (delete_event now d i) id e.
Proof.
  unfold delete_event. destruct (_ !! i) as [e'|]; [|done]. intros [Hp Hm].
  unfold mark_deleted, marked. simpl. split.
  - intros st. destruct (se_account_id e'), (se_conversation_id e'); try destruct (envelope_live _ _ _); simpl;
      intros (st0 & Hst & ->)%fmap_Some_1; specialize (Hp st0 Hst); simpl; lia.
  - destruct (se_account_id e) as [a|]; [|destruct (se_conversation_id e) as [c|]; [|done]].
    all: destruct (se_account_id e'), (se_conversation_id e'); try destruct (envelope_live _ _ _); simpl;
      try done; apply raise_mark_some; by left.
Qed.

Lemma delete_marks now d id e :
  d.(events).(sync_events) !! id = Some e -> (e.(se_account_id) = None -> envelope_live d now e = true) ->
  marked (delete_event now d id) id e.
Proof.
  intros He Hlive. unfold delete_event. rewrite He. unfold mark_deleted, marked. simpl.
  destruct (se_account_id e) as [a|]; [|rewrite Hlive by done; destruct (se_conversation_id e)]; simpl.
  all: split; [intros st (st0 & Hst & ->)%fmap_Some_1; simpl; lia|].
  - apply raise_mark_some. by right.
  - apply raise_mark_some. by right.
  - done.
Qed.

Lemma delete_event_kept now d i : kept_tables d (delete_event now d i).
Proof.
  unfold delete_event. destruct (_ !! i) as [e|]; [|done]. unfold mark_deleted. by repeat case_match.
Qed.

(** The MLS messages of a deleted event go with it. *)
Lemma delete_event_cascade now d i m row :
  (delete_event now d i).(mls).(mls_messages) !! m = Some row <-> d.(mls).(mls_messages) !! m = Some row /\
    (forall j, row.(mm_sync_event_id) = Some j -> is_Some (d.(events).(sync_events) !! j) ->
       is_Some ((delete_event now d i).(events).(sync_events) !! j)).
Proof.
  destruct (delete_event_sub now d i) as (_ & _ & _ & ->). unfold delete_event.
  destruct (sync_events (events d) !! i) as [e|] eqn:E; simpl.
  - rewrite map_lookup_filter_Some. simpl. split; intros [Hm H]; (split; [done|]).
    + intros j Hj Hs. rewrite lookup_delete_ne; [done|]. congruence.
    + intros Hi. destruct (H i Hi) as [x Hx]; [by eexists|]. by rewrite lookup_delete_eq in Hx.
  - rewrite delete_id by done. naive_solver.
Qed.

Lemma envelope_live_ext d d' now e : d'.(content) = d.(content) -> envelope_live d' now e = envelope_live d now e.
Proof. intros E. unfold envelope_live. by rewrite E. Qed.

Definition pruned (now : Z) (d d' : DB) : Prop :=
  kept_tables d d' /\
  (forall id e, d'.(events).(sync_events) !! id = Some e -> d.(events).(sync_events) !! id = Some e) /\
  (forall id e, marked d id e -> marked d' id e) /\
  (forall id e, d.(events).(sync_events) !! id = Some e -> d'.(events).(sync_events) !! id = None ->
     (e.(se_account_id) = None -> envelope_live d now e = true) -> marked d' id e) /\
  (forall m row, d'.(mls).(mls_messages) !! m = Some row <-> d.(mls).(mls_messages) !! m = Some row /\
     (forall i, row.(mm_sync_event_id) = Some i -> is_Some (d.(events).(sync_events) !! i) ->
        is_Some (d'.(events).(sync_events) !! i))).

Lemma pruned_refl now d : pruned now d d.
Proof. split_and!; try done; [intros id e H1 H2; congruence|]. intros m row. naive_solver. Qed.

Lemma pruned_trans now d1 d2 d3 : pruned now d1 d2 -> pruned now d2 d3 -> pruned now d1 d3.
Proof.
  intros (K1 & S1 & M1 & P1 & C1) (K2 & S2 & M2 & P2 & C2). split_and!; [by etrans|auto|auto| |].
  2: { intros m row. rewrite C2, C1. split.
       - intros [[Hm H12] H23]. split; [done|]. intros i Hi He. by apply H23, H12.
       - intros [Hm H13]. split; [split; [done|]|]; intros i Hi He.
         + destruct (H13 i Hi He) as [e He3]. exists e. by apply S2.
         + apply H13; [done|]. destruct He as [e He]. exists e. by apply S1. }
  intros id e H1 H3 Hl. destruct (d2.(events).(sync_events) !! id) as [e2|] eqn:H2; [|by apply M2, P1].
  pose proof (S1 _ _ H2) as H1'. assert (e2 = e) as -> by congruence. apply P2; [done..|].
  intros Ha. rewrite (envelope_live_ext d1); [auto|apply K1].
Qed.

Lemma delete_event_pruned now d i : pruned now d (delete_event now d i).
Proof.
  destruct (delete_event_sub now d i) as (_ & _ & _ & Hs). split_and!; [apply delete_event_kept| | | |apply delete_event_cascade].
  - intros id e. rewrite Hs, lookup_delete_Some. tauto.
  - intros id e. apply marked_mono.
  - intros id e He Hn Hl. rewrite Hs, lookup_delete_None in Hn. destruct Hn as [->|Hn]; [by apply delete_marks|congruence].
Qed.

Lemma delete_events_pruned now l d :
  pruned now d (foldl (delete_event now) d l) /\
  (foldl (delete_event now) d l).(events).(sync_events) = foldr delete d.(events).(sync_events) l /\
  (NoDup l -> (forall i, i ∈ l -> is_Some (d.(events).(sync_events) !! i)) ->
   size d.(events).(sync_events) = (length l + size (foldl (delete_event now) d l).(events).(sync_events))%nat).
Proof.
  revert d. induction l as [|i l IH]; intros d; simpl; [split_and!; [apply pruned_refl|done|done]|].
  destruct (IH (delete_event now d i)) as (Hp & Hs & Hsz).
  destruct (delete_event_sub now d i) as (_ & _ & _ & Hd). split_and!.
  - eapply pruned_trans; [apply delete_event_pruned|done].
  - rewrite Hs, Hd. clear. induction l as [|j l IH]; simpl; [done|]. rewrite IH. apply delete_delete.
  - intros [Hni Hnd]%NoDup_cons Hin. destruct (Hin i (list_elem_of_here _ _)) as [e He].
    specialize (Hsz Hnd). rewrite Hd in Hsz. rewrite map_size_delete_Some in Hsz by by eexists.
    rewrite <- Hsz.
    + assert (size (sync_events (events d)) <> 0)%nat; [|lia]. intros H0. apply map_size_empty_inv in H0.
      by rewrite H0, lookup_empty in He.
    + intros j Hj. rewrite lookup_delete_ne by congruence. apply Hin. by right.
Qed.

Lemma lookup_foldr_delete {A} (m : gmap Z A) l i :
  foldr delete m l !! i = if decide (i ∈ l) then None else m !! i.
Proof.
  induction l as [|j l IH]; [by destruct (decide (i ∈ [])) as [[]%elem_of_nil|]|]. cbn [foldr].
  destruct (decide (j = i)) as [->|Hne].
  - rewrite lookup_delete_eq, decide_True; [done|by left].
  - rewrite lookup_delete_ne, IH by done. destruct (decide (i ∈ l)) as [H|H].
    + rewrite decide_True; [done|by right].
    + rewrite decide_False; [done|]. intros [->|?]%elem_of_cons; done.
Qed.

Lemma old_page_spec d cutoff :
  NoDup (old_page d cutoff) /\
  (forall i, i ∈ old_page d cutoff -> exists e, d.(events).(sync_events) !! i = Some e /\ e.(se_created_at) < cutoff) /\
  (len (old_page d cutoff) < Z.of_nat prune_batch -> forall i e, d.(events).(sync_events) !! i = Some e ->
     e.(se_created_at) < cutoff -> i ∈ old_page d cutoff).
Proof.
  unfold old_page. set (olds := omap _ _). set (W := order_by Z.leb olds).
  assert (forall i, i ∈ W <-> exists e, d.(events).(sync_events) !! i = Some e /\ e.(se_created_at) < cutoff) as HW.
  { intros i. unfold W. rewrite order_by_perm. unfold olds. rewrite list_elem_of_omap. split.
    - intros ([j e] & Hin%elem_of_map_to_list & Heq). destruct (_ <? _) eqn:Eb; [|done]. injection Heq as ->.
      exists e. split; [done|lia].
    - intros (e & He & Hlt). exists (i, e). split; [by apply elem_of_map_to_list|].
      by rewrite (proj2 (Z.ltb_lt _ _)). }
  split_and!.
  - assert (NoDup W) as Hnd; [|rewrite <- (take_drop prune_batch W) in Hnd; by apply NoDup_app in Hnd as [? _]].
    unfold W. rewrite order_by_perm. apply NoDup_omap_inj; [|apply NoDup_map_to_list].
    intros [i e] [j e'] b H1%elem_of_map_to_list H2%elem_of_map_to_list.
    destruct (_ <? _); [|done]. destruct (_ <? _); [|done]. congruence.
  - intros i Hi. apply HW. apply elem_of_take in Hi as (k & Hk & _). by eapply list_elem_of_lookup_2.
  - unfold len. rewrite length_take. intros Hlen i e He Hlt. rewrite take_ge by lia. apply HW. eauto.
Qed.

Lemma commits_exist_true d :
  commits_exist d = true <-> forall k r m, d.(mls).(mls_revocations) !! k = Some r -> r.(rv_commit_message_id) = Some m ->
    is_Some (d.(mls).(mls_messages) !! m).
Proof.
  unfold commits_exist. rewrite forallb_forall. split.
  - intros H k r m Hk Hm. specialize (H (k, r)). rewrite <- list_elem_of_In, elem_of_map_to_list in H. specialize (H Hk).
    unfold commit_exists in H. rewrite Hm in H. by apply bool_decide_eq_true in H.
  - intros H [k r] Hin. rewrite <- list_elem_of_In, elem_of_map_to_list in Hin.
    unfold commit_exists. destruct (rv_commit_message_id r) as [m|] eqn:E; [|done]. apply bool_decide_eq_true. by eapply H.
Qed.

(** Event [i] of [d] is older than the cutoff and carries the commit a
    revocation refers to. *)
Definition held_event (d : DB) (cutoff i : Z) : Prop :=
  exists k r m row e, d.(mls).(mls_revocations) !! k = Some r /\ r.(rv_commit_message_id) = Some m /\
    d.(mls).(mls_messages) !! m = Some row /\ row.(mm_sync_event_id) = Some i /\
    d.(events).(sync_events) !! i = Some e /\ e.(se_created_at) < cutoff.

(** While the references hold, the events they keep are not removed. *)
Lemma held_event_kept now d d' cutoff i :
  pruned now d d' -> commits_exist d' = true -> held_event d cutoff i -> is_Some (d'.(events).(sync_events) !! i).
Proof.
  intros ((_ & _ & _ & _ & Kr) & _ & _ & _ & C) Hc (k & r & m & row & e & Hk & Hm & Hrow & Hi & He & _).
  pose proof (proj1 (commits_exist_true d') Hc k r m) as [row' Hrow']; [by rewrite Kr|done|].
  apply C in Hrow' as [Hrow'' H]. assert (row' = row) as -> by congruence. apply H; [done|by eexists].
Qed.

(** A page fails only when it would remove such an event. *)
Lemma page_fails now d cutoff :
  commits_exist d = true -> commits_exist (foldl (delete_event now) d (old_page d cutoff)) = false ->
  exists i, held_event d cutoff i.
Proof.
  intros Hc Hf. set (d1 := foldl _ _ _) in *. destruct (delete_events_pruned now (old_page d cutoff) d) as ((Hk & _ & _ & _ & C) & Hs & _).
  fold d1 in Hk, C, Hs. destruct Hk as (_ & _ & _ & _ & Kr). apply not_true_iff_false in Hf. rewrite commits_exist_true in Hc.
  destruct (decide (map_Forall (fun _ r => commit_exists d1 r = true) d.(mls).(mls_revocations))) as [Hall|Hno].
  { destruct Hf. apply forallb_forall. intros [k r] Hin. rewrite <- list_elem_of_In, elem_of_map_to_list, Kr in Hin.
    by apply (Hall k). }
  apply map_not_Forall in Hno as (k & r & Hk & Hr); [|apply _]. unfold commit_exists in Hr.
  destruct (rv_commit_message_id r) as [m|] eqn:Em; [|by destruct Hr].
  assert (~ is_Some (d1.(mls).(mls_messages) !! m)) as Hgone by (intros Hs'; apply Hr; unfold exists_in; by apply bool_decide_eq_true).
  clear Hr. rename Hgone into Hr.
  destruct (Hc _ _ _ Hk Em) as [row Hrow].
  destruct (mm_sync_event_id row) as [i|] eqn:Ei.
  - exists i. destruct (decide (i ∈ old_page d cutoff)) as [Hin|Hni].
    + destruct (old_page_spec d cutoff) as (_ & Hold & _). destruct (Hold i Hin) as (e & He & Ho). by exists k, r, m, row, e.
    + destruct Hr. exists row. apply C. split; [done|]. intros j Hj He. assert (j = i) as -> by congruence.
      by rewrite Hs, lookup_foldr_delete, decide_False.
  - destruct Hr. exists row. apply C. split; [done|]. congruence.
Qed.

Definition young_kept (d d' : DB) (cutoff : Z) : Prop :=
  forall i e, d.(events).(sync_events) !! i = Some e -> cutoff <= e.(se_created_at) -> d'.(events).(sync_events) !! i = Some e.

Lemma held_event_mono now d d' cutoff i : pruned now d d' -> held_event d' cutoff i -> held_event d cutoff i.
Proof.
  intros ((_ & _ & _ & _ & Kr) & S & _ & _ & C) (k & r & m & row & e & Hk & Hm & Hrow & Hi & He & Ho).
  apply C in Hrow as [Hrow _]. rewrite Kr in Hk. exists k, r, m, row, e. by split_and!; [..|apply S|].
Qed.

Lemma prune_loop_spec now cutoff fuel total d :
  (size d.(events).(sync_events) < fuel)%nat -> commits_exist d = true ->
  exists n err d', prune_loop fuel now cutoff total d = Some (total + n, err, d') /\ pruned now d d' /\
    Z.of_nat (size d.(events).(sync_events)) = n + Z.of_nat (size d'.(events).(sync_events)) /\
    young_kept d d' cutoff /\ commits_exist d' = true /\
    match err with
    | None => forall i e, d'.(events).(sync_events) !! i = Some e -> cutoff <= e.(se_created_at)
    | Some e => e = ErrConstraint /\ exists i, held_event d cutoff i
    end.
Proof.
  revert total d. induction fuel as [|fuel IH]; intros total d Hf Hc; [lia|]. cbn [prune_loop].
  destruct (old_page_spec d cutoff) as (Hnd & Hold & Hall).
  pose proof (page_fails now d cutoff Hc) as Hfail. set (ids := old_page d cutoff) in *.
  destruct (delete_events_pruned now ids d) as (Hp & Hs & Hsz).
  specialize (Hsz Hnd ltac:(intros i Hi; destruct (Hold i Hi) as (e & ? & _); by eexists)).
  set (d1 := foldl (delete_event now) d ids) in *.
  destruct (commits_exist d1) eqn:Hc1; cbn [negb].
  2: { exists 0, (Some ErrConstraint), d. rewrite Z.add_0_r. split_and!; [done|apply pruned_refl|lia|by intros ? ?|done|done|by apply Hfail]. }
  assert (forall i e, d1.(events).(sync_events) !! i = Some e <-> d.(events).(sync_events) !! i = Some e /\ i ∉ ids) as Hd1.
  { intros i e. rewrite Hs, lookup_foldr_delete. destruct (decide (i ∈ ids)); naive_solver. }
  assert (young_kept d d1 cutoff) as Hy.
  { intros i e He Hge. apply Hd1. split; [done|]. intros Hi. destruct (Hold i Hi) as (e' & He' & ?).
    assert (e' = e) as -> by congruence. lia. }
  destruct (len ids <? Z.of_nat prune_batch) eqn:El.
  - exists (len ids), None, d1. split_and!; [done|done|unfold len; lia|done|done|]. intros i e [He Hni]%Hd1.
    destruct (Z.lt_ge_cases (se_created_at e) cutoff) as [Hlt|]; [|done]. destruct Hni. apply (Hall ltac:(lia) i e He Hlt).
  - destruct (IH (total + len ids) d1) as (n & err & d' & Hrun & Hp' & Hsz' & Hy' & Hc' & Hend);
      [unfold len, prune_batch in El; lia|done|].
    exists (len ids + n), err, d'. split_and!; [by rewrite Z.add_assoc|by eapply pruned_trans|unfold len; lia| |done|].
    + intros i e He Hge. apply Hy'; [by apply Hy|done].
    + destruct err; [|done]. destruct Hend as [-> [i Hi]]. split; [done|]. exists i. by eapply held_event_mono.
Qed.

(** C28: pruning the event log always finishes, whatever the number of pages,
    and touches no message, membership or group.  It never removes an event
    younger than the cutoff.  It succeeds exactly when no revocation refers to
    a commit older than the cutoff; then every older event is gone and the
    count is right.  Otherwise it answers the foreign-key error and the event
    of that commit stays. *)
Theorem PruneSyncEvents_exact now cutoff d :
  commits_exist d = true ->
  exists n err d', PruneSyncEvents now cutoff d = Some (n, err, d') /\
    n = Z.of_nat (size d.(events).(sync_events)) - Z.of_nat (size d'.(events).(sync_events)) /\
    d'.(content) = d.(content) /\ d'.(rooms) = d.(rooms) /\ young_kept d d' cutoff /\
    (err = None -> forall i e, d'.(events).(sync_events) !! i = Some e <->
       d.(events).(sync_events) !! i = Some e /\ cutoff <= e.(se_created_at)) /\
    (err = Some ErrConstraint <-> exists i, held_event d cutoff i) /\ (err = None \/ err = Some ErrConstraint) /\
    (forall i, held_event d cutoff i -> is_Some (d'.(events).(sync_events) !! i)).
Proof.
  intros Hc. unfold PruneSyncEvents. destruct (prune_loop_spec now cutoff (S (size d.(events).(sync_events))) 0 d)
    as (n & err & d' & Hrun & Hp & Hsz & Hy & Hc' & Hend); [lia|done|].
  pose proof (fun i => held_event_kept now d d' cutoff i Hp Hc') as Hheld. destruct Hp as (Hk & Hsub & _).
  exists n, err, d'. split_and!; [done|lia|apply Hk|apply Hk|done| | | |done].
  - intros ->. intros i e. split; [intros He; split; [by apply Hsub|by eapply Hend]|]. intros [He Hge]. by apply Hy.
  - split; [intros ->; apply Hend|]. intros [i Hi]. destruct err as [x|]; [by destruct Hend as [-> _]|].
    destruct (Hheld i Hi) as [e He]. specialize (Hend _ _ He).
    destruct Hi as (k & r & m & row & e' & _ & _ & _ & _ & He' & Ho). pose proof (Hsub _ _ He). assert (e' = e) as -> by congruence. lia.
  - destruct err as [x|]; [right; by destruct Hend as [-> _]|by left].
Qed.

(** ** A pruned event expires the cursors it is missing from *)

Section expired.
Context (d : DB) (account device : string) (after id : Z) (e : SyncEventRow).
Context (Hafter : after < id) (Hmark : marked d id e).

Lemma account_mark_expires :
  in_chain account device None e = true -> account_marks_expired d account device after = true.
Proof.
  unfold in_chain. intros [Ha%bool_decide_eq_true Hd]%andb_prop. destruct Hmark as [_ Hm].
  rewrite Ha in Hm. destruct Hm as (m & Hm & Hle).
  apply existsb_exists. exists (default ""%string e.(se_device_id)). split.
  - destruct (se_device_id e) as [dv|]; simpl; [right; left; by apply str_eqb_true in Hd|by left].
  - rewrite Hm. lia.
Qed.

Lemma conversation_mark_expires now c :
  e.(se_account_id) = None -> e.(se_conversation_id) = Some c ->
  syncEventVisibleTo d now account device id e = true ->
  conversation_mark_expired d device after c (roster_filtered_type e.(se_type)) = true.
Proof.
  intros Ha Hc Hv. destruct Hmark as [_ Hm]. rewrite Ha, Hc in Hm. destruct Hm as (m & Hm & Hle).
  unfold conversation_mark_expired. rewrite Hm. unfold syncEventVisibleTo, mlsJoinFilterEventFor in Hv. rewrite Hc in Hv.
  apply andb_prop in Hv as [Hv _]. apply andb_prop in Hv as [Hv _].
  rewrite (proj2 (Z.ltb_lt after m)) by lia. simpl. destruct (roster_filtered_type (se_type e)); [|done]. simpl in *.
  destruct (exists_in (mls_groups (mls d)) c); [|done]. simpl in *.
  destruct (mls_devices (mls d) !! (c, device)) as [jd|]; [|done].
  apply andb_prop in Hv as [Hw _]. unfold mls_window in Hw. apply andb_prop in Hw as [Hj Hr].
  rewrite (proj2 (Z.ltb_lt _ m)) by lia. simpl. destruct (md_removed_after_event_id jd) as [r|]; [|done].
  rewrite andb_true_iff. lia.
Qed.

Lemma cursor_expired_marks marks : marks = true -> cursor_expired d marks account after = true.
Proof.
  intros ->. unfold cursor_expired. destruct (prune_state (events d)) as [st|] eqn:Est; [|done].
  destruct Hmark as [Hp _]. specialize (Hp st Est). by rewrite (proj2 (Z.leb_gt _ _)) by lia.
Qed.

Lemma syncCursorExpired_sent now : sent_to d now account device id e = true -> syncCursorExpired d account device after = true.
Proof.
  unfold sent_to. intros Hs. apply cursor_expired_marks. unfold syncPruneMarksExpiredQuery.
  destruct (chain_of e) as [c|] eqn:Ec; [|by rewrite account_mark_expires].
  apply andb_prop in Hs as [Hmem Hv]. rewrite orb_true_iff. right. apply existsb_exists. exists c. split.
  - apply list_elem_of_In, elem_of_scopes_of. by apply is_member_true.
  - unfold chain_of in Ec. destruct (se_account_id e) eqn:Ea; [done|].
    pose proof (conversation_mark_expires now c Ea Ec Hv) as Hx.
    destruct (roster_filtered_type (se_type e)); rewrite Hx; [apply orb_true_r|done].
Qed.

Lemma scopedSyncCursorExpired_sent now c :
  c <> ""%string -> e.(se_conversation_id) = Some c -> e.(se_account_id) = None ->
  syncEventVisibleTo d now account device id e = true ->
  scopedSyncCursorExpired d account device c after = true.
Proof.
  intros Hne Hc Ha Hv. apply cursor_expired_marks. unfold scoped_marks_expired. rewrite (proj2 (str_eqb_false c "")) by done.
  pose proof (conversation_mark_expires now c Ha Hc Hv) as Hx. simpl. rewrite orb_true_iff. right.
  destruct (roster_filtered_type (se_type e)); rewrite Hx; [apply orb_true_r|done].
Qed.
End expired.

Lemma sent_to_ext d d' now account device id e :
  kept_tables d d' -> sent_to d' now account device id e = sent_to d now account device id e.
Proof.
  intros (Ec & Er & Eg & Em & _). unfold sent_to, is_member, syncEventVisibleTo, syncEventBlockedFor, event_sender, blocked_by,
    mlsJoinFilterEventFor. by rewrite Er, Eg, Em, (envelope_live_ext d), Ec.
Qed.

Lemma sent_live d now account device id e :
  sent_to d now account device id e = true -> e.(se_account_id) = None -> envelope_live d now e = true.
Proof.
  unfold sent_to, chain_of. intros Hs Ha. rewrite Ha in Hs. destruct (se_conversation_id e) as [c|].
  - apply andb_prop in Hs as [_ Hv]. unfold syncEventVisibleTo in Hv. by apply andb_prop in Hv as [_ ?].
  - unfold in_chain in Hs. rewrite Ha in Hs. done.
Qed.

(** C3: pruning is never silent.  If the retention sweep removed an event
    that a device of the account was still to be sent at that moment (after
    its cursor), then every later read from that cursor is refused with
    [ErrSyncCursorExpired], so the client resynchronises instead of
    continuing past a gap. *)
Theorem pruning_expires_cursors now cutoff d n err d' account device after id e now' limit :
  PruneSyncEvents now cutoff d = Some (n, err, d') -> commits_exist d = true ->
  d.(events).(sync_events) !! id = Some e -> d'.(events).(sync_events) !! id = None ->
  sent_to d now account device id e = true -> 0 < after < id ->
  ListSyncEvents d' now' account device after limit = Err ErrSyncCursorExpired.
Proof.
  intros Hrun Hc He Hgone Hsent [H0 Ha]. unfold PruneSyncEvents in Hrun.
  destruct (prune_loop_spec now cutoff (S (size d.(events).(sync_events))) 0 d) as (n' & err' & d2 & Hrun' & Hp & _); [lia|done|].
  assert (d2 = d') as -> by congruence. destruct Hp as (Hk & _ & _ & Hm & _).
  assert (marked d' id e) as Hmark by (apply Hm; [done..|]; by eapply sent_live).
  unfold ListSyncEvents. rewrite page_is_scan. simpl. rewrite (proj2 (Z.ltb_lt 0 after)) by done. simpl.
  rewrite (syncCursorExpired_sent d' account device after id e Ha Hmark now); [done|]. by rewrite (sent_to_ext d).
Qed.

(** Conversely a cursor at or past everything ever pruned is served: the
    page is exactly the visible events after it. *)
Theorem fresh_cursor_served d now account device after limit st :
  d.(events).(prune_state) = Some st -> st.(pruned_through) <= after ->
  ListSyncEvents d now account device after limit =
  Ok (take (Z.to_nat (page_limit limit)) (map (fun '(id, e) => scanSyncEvent id e)
        (rows_by_id d (fun id e => (after <? id) && sent_to d now account device id e)))).
Proof.
  intros Hst Hle. unfold ListSyncEvents. rewrite page_is_scan. simpl. unfold syncCursorExpired, cursor_expired.
  rewrite Hst, (proj2 (Z.leb_le _ _)) by done. by rewrite andb_false_r.
Qed.

(** ** The scoped streams *)

Lemma scoped_sent d now account device c id e :
  is_member d c account = true ->
  scoped_event account device c e && (bool_decide (is_Some e.(se_account_id)) || syncEventVisibleTo d now account device id e) =
  bool_decide (e.(se_conversation_id) = Some c) && sent_to d now account device id e.
Proof.
  intros Hm. unfold scoped_event, sent_to, chain_of. destruct (bool_decide (se_conversation_id e = Some c)) eqn:Ec; [|done].
  apply bool_decide_eq_true in Ec. simpl. destruct (se_account_id e) as [a|] eqn:Ea.
  - rewrite bool_decide_false by done. rewrite (bool_decide_true (is_Some (Some a))) by done. simpl. apply andb_true_r.
  - rewrite bool_decide_true by done. rewrite (bool_decide_false (is_Some None)) by by intros [? [=]]. simpl. by rewrite Ec, Hm.
Qed.

Lemma sorted_rows_page d limit after (P : Z -> SyncEventRow -> bool) (v : Z -> SyncEventRow -> bool) :
  page_loop limit after (map (fun '(id, e) => (v id e, id, e)) (rows_by_id d (fun id e => (after <? id) && P id e))) =
  Ok (take limit (map (fun '(id, e) => scanSyncEvent id e) (rows_by_id d (fun id e => (after <? id) && (P id e && v id e))))).
Proof.
  destruct (rows_by_id_spec d (fun id e => (after <? id) && P id e)) as (Hs & Hel & Hrows & _).
  destruct (rows_by_id_spec d (fun id e => (after <? id) && (P id e && v id e))) as (_ & _ & Hrows' & _).
  rewrite page_loop_sorted.
  - do 2 f_equal. rewrite filter_map, map_map, Hrows', Hrows, filter_filter.
    erewrite List.filter_ext; [apply map_ext; by intros []|]. intros [id e]. simpl. by rewrite andb_assoc.
  - clear -Hs. induction Hs as [|[id e] l Hl IH Hx]; simpl; constructor; [done|].
    rewrite Forall_forall in Hx. apply Forall_forall. intros y. rewrite list_elem_of_In, in_map_iff.
    intros ([id' e'] & <- & Hz%list_elem_of_In). apply (Hx _ Hz).
  - apply Forall_forall. intros y. rewrite list_elem_of_In, in_map_iff.
    intros ([id e] & <- & [_ Hz]%list_elem_of_In%Hel). simpl. lia.
Qed.

(** A conversation's own stream, with its own cursor, serves a member's
    device exactly the events of that conversation that the global stream
    would, in the same order; only the account's marks and that
    conversation's marks can expire its cursor, and a non-member is
    refused. *)
Theorem scoped_stream_agrees d now account device c after limit :
  ListConversationSyncEvents d now account device c after limit =
  if negb (is_member d c account) then Err ErrForbidden
  else if (0 <? after) && scopedSyncCursorExpired d account device c after then Err ErrSyncCursorExpired
  else Ok (take (Z.to_nat (page_limit limit)) (map (fun '(id, e) => scanSyncEvent id e)
         (rows_by_id d (fun id e => (after <? id) && (bool_decide (e.(se_conversation_id) = Some c) &&
                                                      sent_to d now account device id e))))).
Proof.
  unfold ListConversationSyncEvents. destruct (is_member d c account) eqn:Hm; [|done]. cbn [negb].
  rewrite (sorted_rows_page d _ after (fun _ e => scoped_event account device c e)
             (fun id e => bool_decide (is_Some e.(se_account_id)) || syncEventVisibleTo d now account device id e)).
  cbn [result_bind]. destruct (_ && _); [done|]. do 3 f_equal. unfold rows_by_id. f_equal. apply List.filter_ext.
  intros [id e]. by rewrite (scoped_sent d now account device c id e Hm).
Qed.

(** ** The example store's stream *)

Lemma fresh_cursor_served_witness :
  match ListSyncEvents ex_sent.(db) 21 ex_carol "dev_c" 2 0 with
  | Ok l => map ev_ID l = [3; 4] /\ map ev_Type l = ["membership.updated"; "message.envelope.created"]%string
  | Err _ => False
  end /\
  ListSyncEvents ex_sent.(db) 21 ex_carol "dev_c" 2 0 =
  Ok (take 100 (map (fun '(id, e) => scanSyncEvent id e)
        (rows_by_id ex_sent.(db) (fun id e => (2 <? id) && sent_to ex_sent.(db) 21 ex_carol "dev_c" id e)))).
Proof.
  split; [vm_compute; split; reflexivity|].
  apply (fresh_cursor_served ex_sent.(db) 21 ex_carol "dev_c" 2 0 (mkPruneState 0 0)); [vm_compute; reflexivity|discriminate].
Defined.

Lemma pruning_expires_cursors_witness :
  exists n err d', PruneSyncEvents 30 25 ex_sent.(db) = Some (n, err, d') /\ n = 4 /\
    ListSyncEvents d' 40 ex_carol "dev_c" 2 0 = Err ErrSyncCursorExpired.
Proof.
  assert (match PruneSyncEvents 30 25 ex_sent.(db) with
          | Some (n, err, d') => n = 4 /\ d'.(events).(sync_events) !! 4 = None
          | None => False
          end) as Hc by (vm_compute; split; reflexivity).
  destruct (PruneSyncEvents 30 25 ex_sent.(db)) as [[[n err] d']|] eqn:Hrun; [|destruct Hc]. destruct Hc as [Hn Hg].
  exists n, err, d'. split; [reflexivity|]. split; [exact Hn|].
  destruct (ex_sent.(db).(events).(sync_events) !! 4) as [e|] eqn:He; [|vm_compute in He; discriminate He].
  apply (pruning_expires_cursors 30 25 ex_sent.(db) n err d' ex_carol "dev_c" 2 4 e 40 0 Hrun ltac:(vm_compute; reflexivity) He Hg);
    [|split; reflexivity].
  assert (sent_to ex_sent.(db) 30 ex_carol "dev_c" 4 (default e (ex_sent.(db).(events).(sync_events) !! 4)) = true) as Hs
    by (vm_compute; reflexivity).
  rewrite He in Hs. exact Hs.
Defined.

Lemma PruneSyncEvents_exact_witness :
  exists n err d', PruneSyncEvents 30 25 ex_sent.(db) = Some (n, err, d') /\ young_kept ex_sent.(db) d' 25.
Proof.
  destruct (PruneSyncEvents_exact 30 25 ex_sent.(db) ltac:(vm_compute; reflexivity)) as (n & err & d' & Hrun & _ & _ & _ & Hy & _).
  exists n, err, d'. split; [exact Hrun|exact Hy].
Defined.
