(* ===== verification/Calls.v ===== *)
(** * Call sessions

    The call part of [internal/storage/content_store.go]: creating a call in
    a direct conversation, its state machine with optimistic versions and
    idempotent actions, and pruning.  SHA-256 is a parameter; the call
    identifier and the clock (read twice by a transition) are arguments. *)

From S2P Require Import Prelude GoStrings GoJson Domain Admission Database Conversations Memberships MembershipRules Messages Retention MessageEvents.
From stdpp Require Import base numbers list strings gmap fin_maps sorting pretty.
From Stdlib Require Import ZArith ZifyBool Lia.
Open Scope Z_scope.

(** ** Actions *)

(** [json.Unmarshal] of an object into [struct{ActionID string}]: names match
    case-insensitively, [null] leaves the field, any other type is an error. *)
Fixpoint action_member (l : list (string * Json.json)) (acc : string) : option string :=
  match l with
  | [] => Some acc
  | (k, v) :: l =>
      if ToLower k =s? "action_id" then
        match v with
        | Json.JStr s => action_member l s
        | Json.JNull => action_member l acc
        | _ => None
        end
      else action_member l acc
  end.

Definition callActionID (metadata : string) : string :=
  match Json.Unmarshal metadata with
  | Some (Json.JObj l) => default ""%string (action_member l "")
  | _ => ""
  end.

Definition nul : string := of_chars [Ascii.ascii_of_nat 0].

Section calls.
Context (sha256hex : string -> string).

Definition callActionHash (actionID accountID state : string) (expectedVersion : Z) (metadata : string) : string :=
  sha256hex (actionID +:+ nul +:+ accountID +:+ nul +:+ state +:+ nul +:+ pretty expectedVersion +:+ nul +:+ metadata).

Definition isTerminalCallState (state : string) : bool :=
  (state =s? "rejected") || (state =s? "missed") || (state =s? "ended").

(** ** Participants *)

Definition account_live (d : DB) (a : string) : bool :=
  match d.(rooms).(accounts) !! a with
  | Some r => (r.(acc_status) =s? "active") && bool_decide (r.(acc_deleted_at) = None)
  | None => false
  end.

(** The active members of a conversation. *)
Definition active_members (d : DB) (conversationID : string) : list string :=
  List.filter (account_live d) (rows_of d.(rooms).(conv_members) conversationID).*1.

(** [COALESCE(MAX(CASE WHEN a.id != ? THEN a.id END), '')] *)
Definition other_member (d : DB) (conversationID accountID : string) : string :=
  foldr (fun a acc => if String.ltb acc a then a else acc) ""%string
    (List.filter (fun a => negb (a =s? accountID)) (active_members d conversationID)).

(** The JSON object of a [domain.CallSession]. *)
Definition opt_time (k : string) (t : option Z) : Payload :=
  match t with Some t => [(k, VTime t)] | None => [] end.

Definition call_payload (c : CallSession) : Payload :=
  [("id", VStr c.(call_ID)); ("conversation_id", VStr c.(call_ConversationID)); ("created_by", VStr c.(call_CreatedBy));
   ("invited_account_id", VStr c.(call_InvitedAccountID)); ("state", VStr c.(call_State));
   ("version", VInt c.(call_Version)); ("metadata", VRaw c.(call_Metadata));
   ("created_at", VTime c.(call_CreatedAt))]%string ++
  opt_time "ended_at" c.(call_EndedAt) ++ opt_time "expires_at" c.(call_ExpiresAt).

Definition insert_call_event (eventType : string) (c : CallSession) (now : Z) : Tx Z :=
  if eventType =s? "" then mret 0
  else guard_tx (Json.Valid c.(call_Metadata)) ErrEncoding ≫= fun _ =>
       insertSyncEvent eventType None c.(call_ConversationID) (call_payload c) now.

(** ** Creating *)

Definition call_by_action (d : DB) (conversationID accountID actionID : string) : option CallSession :=
  head (List.filter (fun c => (c.(call_ConversationID) =s? conversationID) && (c.(call_CreatedBy) =s? accountID) &&
                              (c.(call_CreateActionID) =s? actionID)) (map_to_list d.(calls)).*2).

Definition insert_call (c : CallSession) : Tx unit :=
  d ← read (fun d => d);
  guard_tx (negb (exists_in d.(calls) c.(call_ID)) && exists_in d.(rooms).(conversations) c.(call_ConversationID) &&
            exists_in d.(rooms).(accounts) c.(call_CreatedBy) &&
            ((c.(call_CreateActionID) =s? "") ||
             bool_decide (call_by_action d c.(call_ConversationID) c.(call_CreatedBy) c.(call_CreateActionID) = None)))
    ErrConstraint ≫= fun _ =>
  modify (upd_calls (insert c.(call_ID) c)).

Definition createCallSession (newID : string) (now : Z) (conversationID accountID metadata eventType : string)
    : Tx (CallSession * Z) :=
  transaction (
    d ← read (fun d => d);
    cv ← require (d.(rooms).(conversations) !! conversationID) ErrNotMember;
    let members := active_members d conversationID in
    let invitedAccountID := other_member d conversationID accountID in
    guard_tx (bool_decide (accountID ∈ members)) ErrNotMember ≫= fun _ =>
    guard_tx ((cv.(cv_kind) =s? "dm") && (len members =? 2) && negb (invitedAccountID =s? "")) ErrInvalidInput ≫= fun _ =>
    let metadata := empty_json metadata "{}" in
    let actionID := callActionID metadata in
    let actionHash := callActionHash actionID accountID "ringing" 0 metadata in
    match (if actionID =s? "" then None else call_by_action d conversationID accountID actionID) with
    | Some existing =>
        guard_tx (existing.(call_CreateActionHash) =s? actionHash) ErrIdempotencyConflict ≫= fun _ =>
        mret (existing, 0)
    | None =>
        let call := mkCallSession newID conversationID accountID invitedAccountID "ringing" 1 metadata now None
          (Some (time_add now (2 * minute))) actionID actionHash "" "" in
        insert_call call ≫= fun _ =>
        eventID ← insert_call_event eventType call now;
        mret (call, eventID)
    end).

Definition CreateCallSession (newID : string) (now : Z) (conversationID accountID metadata : string) : Tx CallSession :=
  r ← createCallSession newID now conversationID accountID metadata "";
  mret r.1.

Definition CreateCallSessionWithSyncEvent (newID : string) (now : Z) (conversationID accountID metadata : string)
    : Tx (CallSession * Z) :=
  createCallSession newID now conversationID accountID metadata "call.signaling".

(** ** Transitions *)

Definition call_live (now : Z) (c : CallSession) : bool :=
  match c.(call_ExpiresAt) with None => true | Some t => time_after t now end.

(** The switch of [transitionCallSession]. *)
Definition allowed (c : CallSession) (accountID nextState : string) : bool :=
  (nextState =s? c.(call_State)) ||
  ((accountID =s? c.(call_CreatedBy)) && (c.(call_State) =s? "ringing") && (nextState =s? "ended")) ||
  ((accountID =s? c.(call_CreatedBy)) && (c.(call_State) =s? "active") && (nextState =s? "ended")) ||
  ((accountID =s? c.(call_InvitedAccountID)) && (c.(call_State) =s? "ringing") &&
   ((nextState =s? "active") || (nextState =s? "rejected") || (nextState =s? "missed"))) ||
  ((accountID =s? c.(call_InvitedAccountID)) && (c.(call_State) =s? "active") && (nextState =s? "ended")).

(** The call after an allowed transition. *)
Definition transitioned (c : CallSession) (now : Z) (nextState metadata actionID actionHash : string) : CallSession :=
  let ends := isTerminalCallState nextState && bool_decide (c.(call_EndedAt) = None) in
  mkCallSession c.(call_ID) c.(call_ConversationID) c.(call_CreatedBy) c.(call_InvitedAccountID)
    nextState (c.(call_Version) + 1) (if metadata =s? "" then c.(call_Metadata) else metadata) c.(call_CreatedAt)
    (if ends then Some now else c.(call_EndedAt))
    (if ends then Some (time_add now (7 * 24 * hour))
     else if nextState =s? "active" then Some (time_add now (4 * hour)) else c.(call_ExpiresAt))
    c.(call_CreateActionID) c.(call_CreateActionHash) actionID actionHash.

Definition transitionCallSession (checkedAt now : Z) (callID accountID : string) (expectedVersion : Z)
    (nextState metadata eventType : string) : Tx (CallSession * Z) :=
  guard_tx (0 <? expectedVersion) ErrInvalidInput ≫= fun _ =>
  transaction (
    d ← read (fun d => d);
    call ← require (d.(calls) !! callID) ErrNotFound;
    guard_tx (call_live checkedAt call) ErrNotFound ≫= fun _ =>
    cv ← require (d.(rooms).(conversations) !! call.(call_ConversationID)) ErrNotFound;
    let members := active_members d call.(call_ConversationID) in
    guard_tx ((cv.(cv_kind) =s? "dm") && (len members =? 2) && negb (call.(call_InvitedAccountID) =s? ""))
      ErrInvalidInput ≫= fun _ =>
    guard_tx (bool_decide (accountID ∈ members)) ErrNotMember ≫= fun _ =>
    guard_tx ((accountID =s? call.(call_CreatedBy)) || (accountID =s? call.(call_InvitedAccountID)))
      (if is_member d call.(call_ConversationID) accountID then ErrForbidden else ErrNotMember) ≫= fun _ =>
    let actionID := callActionID metadata in
    let actionHash := callActionHash actionID accountID nextState expectedVersion metadata in
    if negb (actionID =s? "") && (actionID =s? call.(call_LastActionID)) then
      guard_tx (actionHash =s? call.(call_LastActionHash)) ErrIdempotencyConflict ≫= fun _ =>
      mret (call, 0)
    else
      guard_tx (expectedVersion =? call.(call_Version)) ErrCallVersion ≫= fun _ =>
      if (nextState =s? call.(call_State)) && (metadata =s? "") then mret (call, 0)
      else
        guard_tx (negb ((nextState =s? call.(call_State)) && isTerminalCallState call.(call_State)) &&
                  allowed call accountID nextState) ErrInvalidInput ≫= fun _ =>
        let call' := transitioned call now nextState metadata actionID actionHash in
        modify (upd_calls (insert call.(call_ID) call')) ≫= fun _ =>
        eventID ← insert_call_event eventType call' now;
        mret (call', eventID)).

Definition TransitionCallSession (checkedAt now : Z) (callID accountID : string) (expectedVersion : Z)
    (nextState metadata : string) : Tx CallSession :=
  r ← transitionCallSession checkedAt now callID accountID expectedVersion nextState metadata "";
  mret r.1.

Definition TransitionCallSessionWithSyncEvent (checkedAt now : Z) (callID accountID : string) (expectedVersion : Z)
    (nextState metadata : string) : Tx (CallSession * Z) :=
  transitionCallSession checkedAt now callID accountID expectedVersion nextState metadata "call.state".

(** ** Listing and pruning *)

Definition calls_limit (limit : Z) : Z := if (limit <=? 0) || (100 <? limit) then 50 else limit.

Definition ListCallSessions (conversationID accountID : string) (limit : Z) : Tx (list CallSession) :=
  d ← read (fun d => d);
  guard_tx (is_member d conversationID accountID) ErrNotMember ≫= fun _ =>
  cv ← require (d.(rooms).(conversations) !! conversationID) ErrNotFound;
  let members := active_members d conversationID in
  guard_tx (negb (len members =? 0)) ErrNotFound ≫= fun _ =>
  guard_tx ((cv.(cv_kind) =s? "dm") && (len members =? 2)) ErrInvalidInput ≫= fun _ =>
  mret (take (Z.to_nat (calls_limit limit))
    (order_by (fun a b => stamp_le (b.(call_CreatedAt), b.(call_ID)) (a.(call_CreatedAt), a.(call_ID)))
      (List.filter (fun c => (c.(call_ConversationID) =s? conversationID) && negb (blocked_by d accountID c.(call_CreatedBy)))
        (map_to_list d.(calls)).*2))).

(** [... WHERE expires_at <= ? ORDER BY expires_at, id LIMIT 500] *)
Definition expired_calls (d : DB) (now : Z) : list string :=
  map snd (take prune_batch (order_by stamp_le
    (omap (fun '(id, c) => match c.(call_ExpiresAt) with
                           | Some t => if t <=? now then Some (t, id) else None
                           | None => None
                           end) (map_to_list d.(calls))))).

Definition PruneCallSessions (now : Z) : Tx Z :=
  ids ← read (fun d => expired_calls d now);
  modify (upd_calls (filter (fun kv => mem ids kv.1 = false))) ≫= fun _ =>
  mret (len ids).

End calls.

(** ** What a transition may do *)

Definition calls_keyed (d : DB) : Prop := forall k c, d.(calls) !! k = Some c -> c.(call_ID) = k.

Definition in_progress (state : string) : Prop := state = "ringing"%string \/ state = "active"%string.
Definition valid_state (state : string) : Prop := in_progress state \/ isTerminalCallState state = true.

(** The protocol: the creator may hang up, the invited account may answer,
    decline or miss a ringing call, and both may update or end an active
    one. *)
Definition protocol (c : CallSession) (actor next : string) : Prop :=
  (next = c.(call_State) /\ isTerminalCallState next = false) \/
  (actor = c.(call_CreatedBy) /\ in_progress c.(call_State) /\ next = "ended"%string) \/
  (actor = c.(call_InvitedAccountID) /\ c.(call_State) = "ringing"%string /\
     (next = "active" \/ next = "rejected" \/ next = "missed")%string) \/
  (actor = c.(call_InvitedAccountID) /\ c.(call_State) = "active"%string /\ next = "ended"%string).

Lemma allowed_protocol c actor next :
  negb ((next =s? c.(call_State)) && isTerminalCallState c.(call_State)) && allowed c actor next = true ->
  protocol c actor next.
Proof.
  rewrite andb_true_iff, negb_true_iff. intros [Hnt Ha]. unfold allowed in Ha. unfold protocol, in_progress.
  destruct (next =s? call_State c) eqn:En.
  - apply str_eqb_true in En as ->. left. split; [done|]. done.
  - repeat rewrite ?orb_true_iff, ?andb_true_iff, ?str_eqb_true in Ha. destruct Ha as [[[[Ha|Ha]|Ha]|Ha]|Ha]; [discriminate Ha|tauto..].
Qed.

Lemma insert_call_event_frame ty c now s ev s' :
  insert_call_event ty c now s = (Ok ev, s') -> s'.(db).(calls) = s.(db).(calls) /\ s'.(db).(rooms) = s.(db).(rooms).
Proof.
  unfold insert_call_event. intros H. destruct (ty =s? ""); run H; [done|].
  by apply insertSyncEvent_append in H as ->.
Qed.

Lemma insert_call_ok c s u s' :
  insert_call c s = (Ok u, s') ->
  s.(db).(calls) !! c.(call_ID) = None /\ s' = with_db s (upd_calls (insert c.(call_ID) c) s.(db)).
Proof.
  unfold insert_call. intros H. run H. unfold exists_in in *. bool_to_prop. split; [|done]. by apply eq_None_not_Some.
Qed.

Section transitions.
Context (sha256hex : string -> string).

(** A transition that succeeds either replays what is stored or moves the
    call by one step of the protocol and one version. *)
Lemma transition_ok checkedAt now id actor v next meta ty s call' ev s' :
  transitionCallSession sha256hex checkedAt now id actor v next meta ty s = (Ok (call', ev), s') ->
  exists call, s.(db).(calls) !! id = Some call /\ actor ∈ active_members s.(db) call.(call_ConversationID) /\
    (actor = call.(call_CreatedBy) \/ actor = call.(call_InvitedAccountID)) /\ call_live checkedAt call = true /\
    ((call' = call /\ ev = 0 /\ s' = s) \/
     (v = call.(call_Version) /\ protocol call actor next /\ call'.(call_State) = next /\
      call'.(call_Version) = v + 1 /\
      call' = transitioned call now next meta (callActionID meta)
                (callActionHash sha256hex (callActionID meta) actor next v meta) /\
      s'.(db).(calls) = <[call.(call_ID) := call']> s.(db).(calls))).
Proof.
  unfold transitionCallSession. intros H. run H. exists a0.
  match goal with Ho : (actor =s? _) || _ = true |- _ => rewrite orb_true_iff, !str_eqb_true in Ho end.
  match goal with Ho : bool_decide (actor ∈ _) = true |- _ => apply bool_decide_eq_true in Ho end.
  split_and!; try done. set (aid := callActionID meta) in *.
  destruct (negb (aid =s? "") && _); [run H; by left|].
  run H. destruct ((next =s? call_State a0) && (meta =s? "")); [run H; by left|].
  run H. match goal with Hi : insert_call_event _ _ _ _ = _ |- _ => apply insert_call_event_frame in Hi as [Hc _] end.
  match goal with Hv : (v =? _) = true |- _ => apply Z.eqb_eq in Hv as -> end.
  right. subst. split_and!; try done. by apply allowed_protocol.
Qed.
End transitions.

(** ** Histories of a call *)

Definition rank (state : string) : Z :=
  if isTerminalCallState state then 2 else if state =s? "active" then 1 else 0.

(** [c'] is a later version of the call [c]. *)
Record evolves (c c' : CallSession) : Prop := {
  ev_same : call_ID c' = call_ID c /\ call_ConversationID c' = call_ConversationID c /\
            call_CreatedBy c' = call_CreatedBy c /\ call_InvitedAccountID c' = call_InvitedAccountID c /\
            call_CreatedAt c' = call_CreatedAt c;
  ev_version : call_Version c <= call_Version c';
  ev_once : call_Version c' = call_Version c -> c' = c;
  ev_rank : rank (call_State c) <= rank (call_State c');
  ev_final : isTerminalCallState (call_State c) = true -> c' = c }.

#[export] Instance evolves_preorder : PreOrder evolves.
Proof.
  split.
  - intros c. split; [done|lia|done|lia|done].
  - intros c1 c2 c3 [S1 V1 O1 R1 F1] [S2 V2 O2 R2 F2]. split.
    + destruct S1 as (? & ? & ? & ? & ?), S2 as (? & ? & ? & ? & ?). split_and!; congruence.
    + lia.
    + intros E. rewrite O2 by lia. apply O1. lia.
    + lia.
    + intros T. rewrite F2; [by apply F1|]. by rewrite F1.
Qed.

Lemma protocol_evolves c actor next now meta aid hash :
  protocol c actor next -> evolves c (transitioned c now next meta aid hash).
Proof.
  intros Hp. split; simpl; [done|lia|lia| |].
  - unfold protocol, in_progress in Hp.
    destruct Hp as [[-> _]|[(_ & Hs & ->)|[(_ & Hs & Hn)|(_ & Hs & ->)]]]; [lia|..].
    + by destruct Hs as [-> | ->].
    + rewrite Hs. by destruct Hn as [->|[-> | ->]].
    + by rewrite Hs.
  - intros Ht. exfalso. unfold protocol, in_progress in Hp.
    destruct Hp as [[-> Hn]|[(_ & Hs & ->)|[(_ & Hs & Hn)|(_ & Hs & ->)]]]; [congruence|..].
    + by destruct Hs as [E|E]; rewrite E in Ht.
    + by rewrite Hs in Ht.
    + by rewrite Hs in Ht.
Qed.

Section histories.
Context (sha256hex : string -> string).

(** The server's steps as call [id] sees them: calls with other identifiers
    are created, any call is moved or pruned, and other tables change. *)
Inductive call_step (id : string) : Store -> Store -> Prop :=
| cs_create newID now c a meta ty s :
    newID <> id -> call_step id s (createCallSession sha256hex newID now c a meta ty s).2
| cs_transition checkedAt now callID a v next meta ty s :
    call_step id s (transitionCallSession sha256hex checkedAt now callID a v next meta ty s).2
| cs_prune now s : call_step id s (PruneCallSessions now s).2
| cs_elsewhere s s' : s'.(db).(calls) = s.(db).(calls) -> call_step id s s'.

Lemma create_ok newID now c a meta ty s x s' :
  createCallSession sha256hex newID now c a meta ty s = (Ok x, s') ->
  s' = s \/ exists call, call_ID call = newID /\ call_State call = "ringing"%string /\
    s.(db).(calls) !! newID = None /\ s'.(db).(calls) = <[newID := call]> s.(db).(calls).
Proof.
  unfold createCallSession. intros H. run H.
  match type of H with context [match ?o with Some _ => _ | None => _ end] => destruct o end; run H; [by left|].
  right. match goal with Hi : insert_call _ _ = _ |- _ => apply insert_call_ok in Hi as [Hnone ->] end.
  match goal with Hi : insert_call_event _ _ _ _ = _ |- _ => apply insert_call_event_frame in Hi as [Hc _] end.
  eexists. by split_and!; [| |exact Hnone|exact Hc].
Qed.

Lemma create_rolls_back newID now c a meta ty : rolls_back (createCallSession sha256hex newID now c a meta ty).
Proof. unfold createCallSession. tx_auto. Qed.
Lemma transition_rolls_back t now id a v next meta ty :
  rolls_back (transitionCallSession sha256hex t now id a v next meta ty).
Proof. unfold transitionCallSession. tx_auto. Qed.

(** One step of the server, seen from call [id]. *)
Lemma call_step_evolves id s s' :
  call_step id s s' -> calls_keyed s.(db) ->
  calls_keyed s'.(db) /\
  match s.(db).(calls) !! id, s'.(db).(calls) !! id with
  | Some c, Some c' => evolves c c'
  | _, None => True
  | None, Some _ => False
  end.
Proof.
  assert (forall d : DB, match d.(calls) !! id, d.(calls) !! id with
          | Some c, Some c' => evolves c c' | _, None => True | None, Some _ => False end) as Hrefl.
  { intros d. by destruct (d.(calls) !! id). }
  intros [newID now c a meta ty t Hne|t0 now cid a v next meta ty t|now t|t t' E] Hk.
  - destruct (createCallSession _ _ _ _ _ _ _ t) as [[x|e] t'] eqn:Er; simpl.
    + apply create_ok in Er as [->|(call & Hid & _ & Hnone & Hs)]; [split; [done|apply Hrefl]|]. unfold calls_keyed. rewrite Hs. split.
      * intros k c0. rewrite lookup_insert_Some. intros [[<- <-]|[_ H]]; [done|by apply Hk].
      * rewrite lookup_insert_ne by done. apply Hrefl.
    + rewrite (create_rolls_back _ _ _ _ _ _ _ _ _ Er). split; [done|apply Hrefl].
  - destruct (transitionCallSession _ _ _ _ _ _ _ _ _ t) as [[[call' ev]|e] t'] eqn:Er; simpl.
    + apply transition_ok in Er as (call & Hc & _ & _ & _ & [(-> & _ & ->)|(_ & Hp & _ & _ & Hcall & Hs)]); [split; [done|apply Hrefl]|]. unfold calls_keyed.
      pose proof (Hk _ _ Hc) as Hid. rewrite Hs, Hid. split.
      * intros k c0. rewrite lookup_insert_Some. intros [[<- <-]|[_ H]]; [by rewrite Hcall|by apply Hk].
      * destruct (decide (cid = id)) as [->|Hne].
        -- rewrite lookup_insert_eq, Hc, Hcall. by eapply protocol_evolves.
        -- rewrite lookup_insert_ne by done. apply Hrefl.
    + rewrite (transition_rolls_back _ _ _ _ _ _ _ _ _ _ _ Er). split; [done|apply Hrefl].
  - simpl. split.
    + intros k c0 [H _]%map_lookup_filter_Some. by apply Hk.
    + destruct (filter _ (calls (db t)) !! id) as [c'|] eqn:Ef; [|by destruct (calls (db t) !! id)].
      apply map_lookup_filter_Some in Ef as [H _]. by rewrite H.
  - rewrite E. split; [intros k c0; rewrite E; apply Hk|apply Hrefl].
Qed.

End histories.

(** Whatever requests, prunes and other writes happen, a call only moves
    forward: its participants never change, each version is written once, its
    state never goes back from active to ringing, and once rejected, missed
    or ended it is frozen until it is pruned, after which it does not
    return. *)
Theorem calls_only_move_forward (sha256hex : string -> string) (id : string) (s0 s : Store) :
  calls_keyed s0.(db) -> rtc (call_step sha256hex id) s0 s ->
  match s0.(db).(calls) !! id, s.(db).(calls) !! id with
  | Some c, Some c' => evolves c c'
  | _, None => True
  | None, Some _ => False
  end.
Proof.
  intros Hk Hr. revert Hk. induction Hr as [s|s1 s2 s3 Hstep _ IH]; intros Hk; [by destruct (calls (db s) !! id)|].
  destruct (call_step_evolves _ _ _ _ Hstep Hk) as [Hk2 H12]. specialize (IH Hk2).
  destruct (calls (db s1) !! id), (calls (db s2) !! id), (calls (db s3) !! id); try done. by etrans.
Qed.

(** A transition that succeeds was asked for by the caller or the invited
    account, as an active member of the conversation, of a call that has not
    expired; it either replays the stored call without writing or takes one
    step the protocol allows that account, from exactly the version the
    caller named, and stores the result as the next version.  So of two
    clients that race from the same version at most one succeeds. *)
Theorem transition_follows_protocol (sha256hex : string -> string) checkedAt now id actor v next meta ty s call' ev s' :
  transitionCallSession sha256hex checkedAt now id actor v next meta ty s = (Ok (call', ev), s') -> calls_keyed s.(db) ->
  exists call, s.(db).(calls) !! id = Some call /\ actor ∈ active_members s.(db) call.(call_ConversationID) /\
    (actor = call.(call_CreatedBy) \/ actor = call.(call_InvitedAccountID)) /\ call_live checkedAt call = true /\
    ((call' = call /\ ev = 0 /\ s' = s) \/
     (v = call.(call_Version) /\ protocol call actor next /\ call'.(call_State) = next /\
      call'.(call_Version) = v + 1 /\ s'.(db).(calls) = <[id := call']> s.(db).(calls) /\
      forall actor' next' meta' now',
        callActionID meta' <> callActionID meta \/ callActionID meta' = ""%string ->
        forall r s2, transitionCallSession sha256hex checkedAt now' id actor' v next' meta' ty s' <> (Ok r, s2))).
Proof.
  intros Hrun Hk. destruct (transition_ok _ _ _ _ _ _ _ _ _ _ _ _ _ Hrun) as (call & Hc & Hm & Ha & Hl & Hcase).
  exists call. split_and!; try done. destruct Hcase as [?|(Hv & Hp & Hn & Hv' & Hcall & Hs)]; [by left|right].
  rewrite (Hk _ _ Hc) in Hs. split_and!; try done. intros actor' next' meta' now' Hact [call2 ev2] s2 H2.
  unfold transitionCallSession in H2. run H2.
  match goal with Hx : calls (db s') !! id = Some ?x |- _ => rewrite Hs, lookup_insert_eq in Hx; injection Hx as <- end.
  destruct (negb (callActionID meta' =s? "") && _) eqn:Eact.
  - apply andb_prop in Eact as [E1 E2]. apply negb_true_iff, str_eqb_false in E1. apply str_eqb_true in E2.
    rewrite Hcall in E2. simpl in E2. naive_solver.
  - run H2. match goal with Hx : (v =? _) = true |- _ => apply Z.eqb_eq in Hx; rewrite Hv' in Hx end. lia.
Qed.

(** ** A call on a concrete server: alice rings, bob answers, alice hangs up. *)

Definition ex_hash (s : string) : string := s.
Definition ex_ring : result store_error (CallSession * Z) * Store :=
  createCallSession ex_hash "call_1" 30 "conv_dm" ex_alice "" "call.signaling" ex_dm.2.
Definition ex_answer : result store_error (CallSession * Z) * Store :=
  transitionCallSession ex_hash 31 31 "call_1" ex_bob 1 "active" "" "call.state" ex_ring.2.
Definition ex_hangup : result store_error (CallSession * Z) * Store :=
  transitionCallSession ex_hash 32 32 "call_1" ex_alice 2 "ended" "" "call.state" ex_answer.2.

Lemma ex_ring_keyed : calls_keyed ex_ring.2.(db).
Proof.
  destruct (call_step_evolves ex_hash "" ex_dm.2 ex_ring.2) as [H _]; [by apply cs_create| |done].
  intros k c. assert (calls (db ex_dm.2) = ∅) as -> by (vm_compute; reflexivity). by rewrite lookup_empty.
Qed.

Lemma ex_calls_steps : rtc (call_step ex_hash "call_1") ex_ring.2 ex_hangup.2.
Proof.
  apply (rtc_l _ _ ex_answer.2); [exact (cs_transition ex_hash "call_1" 31 31 "call_1" ex_bob 1 "active" "" "call.state" ex_ring.2)|].
  apply rtc_once. exact (cs_transition ex_hash "call_1" 32 32 "call_1" ex_alice 2 "ended" "" "call.state" ex_answer.2).
Qed.

Definition ex_call_in (s : Store) : option (string * Z) :=
  option_map (fun c => (call_State c, call_Version c)) (s.(db).(calls) !! "call_1"%string).

Lemma calls_only_move_forward_witness :
  ex_call_in ex_ring.2 = Some ("ringing"%string, 1) /\ ex_call_in ex_hangup.2 = Some ("ended"%string, 3) /\
  match ex_ring.2.(db).(calls) !! "call_1"%string, ex_hangup.2.(db).(calls) !! "call_1"%string with
  | Some c, Some c' => evolves c c'
  | _, None => True
  | None, Some _ => False
  end.
Proof.
  split_and!; [vm_compute; reflexivity|vm_compute; reflexivity|].
  exact (calls_only_move_forward ex_hash "call_1" ex_ring.2 ex_hangup.2 ex_ring_keyed ex_calls_steps).
Defined.

(** The answer as a run, with the event it logs. *)
Lemma ex_answer_run :
  exists call', transitionCallSession ex_hash 31 31 "call_1" ex_bob 1 "active" "" "call.state" ex_ring.2 = (Ok (call', 6), ex_answer.2) /\
    call_State call' = "active"%string.
Proof.
  assert (match ex_answer.1 with Ok r => r.2 = 6 /\ call_State r.1 = "active"%string | Err _ => False end) as Hok
    by (vm_compute; split; reflexivity).
  revert Hok. unfold ex_answer. generalize (transitionCallSession ex_hash 31 31 "call_1" ex_bob 1 "active" "" "call.state" ex_ring.2).
  intros [[[call' ev]|e] s'] Hok; [|destruct Hok].
  simpl in Hok. destruct Hok as [-> Hst]. by exists call'.
Qed.

Lemma transition_follows_protocol_witness :
  exists call', transitionCallSession ex_hash 31 31 "call_1" ex_bob 1 "active" "" "call.state" ex_ring.2 = (Ok (call', 6), ex_answer.2) /\
    forall r s2, transitionCallSession ex_hash 31 33 "call_1" ex_alice 1 "ended" "" "call.state" ex_answer.2 <> (Ok r, s2).
Proof.
  destruct ex_answer_run as (call' & Hrun & _). exists call'. split; [exact Hrun|].
  destruct (transition_follows_protocol _ _ _ _ _ _ _ _ _ _ _ _ _ Hrun ex_ring_keyed)
    as (call & _ & _ & _ & _ & [(_ & He & _)|(_ & _ & _ & _ & _ & Hrace)]); [discriminate He|].
  apply Hrace. right. vm_compute. reflexivity.
Defined.
