(* ===== verification/PushWake.v ===== *)
(** * The push wake queue and push subscriptions

    The worker's side of [internal/storage/push_wake_store.go] (claiming a
    batch under a lease, rechecking, completing, retrying and retiring) and
    the subscription part of [internal/storage/content_store.go].  Fresh
    identifiers and the clock are arguments.  A credential column that is
    NULL reads as the empty string, as the queries coalesce it. *)

From S2P Require Import Prelude GoStrings GoJson Domain Admission Database Conversations Memberships MembershipRules Messages Retention MessageEvents.
From stdpp Require Import base numbers list strings gmap fin_maps sorting.
From Stdlib Require Import ZArith ZifyBool Lia.
Open Scope Z_scope.

Definition pushWakeBatchLimit : Z := 64.

Record PushWakeJob := mkPushWakeJob {
  pj_NotificationMode : string; pj_EventID : Z; pj_RecipientAccountID : string; pj_SubscriptionID : string;
  pj_Provider : string; pj_Endpoint : string; pj_PublicKey : string; pj_AuthSecret : string;
  pj_Attempts : Z; pj_LeaseToken : string }.

Record PushWakeBacklogRow := mkPushWakeBacklogRow { pb_Provider : string; pb_Rows : Z; pb_OldestCreatedAt : Z }.

(** ** Eligibility *)

(** The key of a job: event, recipient, subscription. *)
Abbreviation wake_key := (Z * string * string)%type.

Definition pushWakeEligible (d : DB) (now : Z) (k : wake_key) (w : PushWakeRow) (ps : PushSubscriptionRow) : bool :=
  is_member d w.(pw_conversation_id) k.1.2 && device_live d ps && negb (blocked_by d k.1.2 w.(pw_sender_account_id)) &&
  ((ps.(ps_notification_mode) =s? PushNotificationLocalDecrypt) || negb (muted_now d now k.1.2 w.(pw_conversation_id))).

(** [JOIN push_subscriptions ps ON ps.id = w.subscription_id AND
    ps.account_id = w.recipient_account_id] *)
Definition subscription_of (d : DB) (k : wake_key) : option PushSubscriptionRow :=
  match d.(push).(push_subscriptions) !! k.2 with
  | Some ps => if ps.(ps_account_id) =s? k.1.2 then Some ps else None
  | None => None
  end.

(** A condition on the joined row. *)
Definition joined (d : DB) (p : PushWakeRow -> PushSubscriptionRow -> bool) (k : wake_key) (w : PushWakeRow) : bool :=
  match subscription_of d k with Some ps => p w ps | None => false end.

(** [ORDER BY <time>, sync_event_id, subscription_id] *)
Definition wake_le (time : PushWakeRow -> Z) (a b : wake_key * PushWakeRow) : bool :=
  (time a.2 <? time b.2) ||
  ((time a.2 =? time b.2) && ((a.1.1.1 <? b.1.1.1) || ((a.1.1.1 =? b.1.1.1) && str_le a.1.2 b.1.2))).

(** [SELECT ... WHERE sel ORDER BY time, sync_event_id, subscription_id LIMIT n] *)
Definition select_jobs (d : DB) (time : PushWakeRow -> Z) (n : nat) (sel : wake_key -> PushWakeRow -> bool)
    : list wake_key :=
  (take n (order_by (wake_le time)
     (List.filter (fun kw => sel kw.1 kw.2) (map_to_list d.(push).(push_wake_jobs))))).*1.

Definition on_jobs (f : gmap wake_key PushWakeRow -> gmap wake_key PushWakeRow) : Tx unit :=
  modify (upd_push (upd_push_wake_jobs f)).

(** [DELETE FROM push_wake_jobs WHERE rowid IN (SELECT ...)] *)
Definition delete_jobs (sel : DB -> wake_key -> PushWakeRow -> bool) (n : nat) : Tx Z :=
  ks ← read (fun d => select_jobs d pw_expires_at n (sel d));
  on_jobs (filter (fun kw => kw.1 ∉ ks)) ≫= fun _ =>
  mret (len ks).

(** ** Claiming *)

Definition unleased (now : Z) (w : PushWakeRow) : bool :=
  match w.(pw_lease_expires_at) with None => true | Some t => t <=? now end.

(** The claim's WHERE clause. *)
Definition claimable (provider : string) (now : Z) (d : DB) (k : wake_key) (w : PushWakeRow) : bool :=
  joined d (fun w ps => (ps.(ps_provider) =s? provider) && bool_decide (ps.(ps_disabled_at) = None) &&
                        pushWakeEligible d now k w ps) k w &&
  (now <? w.(pw_expires_at)) && (w.(pw_next_attempt_at) <=? now) && unleased now w.

Definition abandoned (provider : string) (now : Z) (d : DB) (k : wake_key) (w : PushWakeRow) : bool :=
  joined d (fun w ps => (ps.(ps_provider) =s? provider) && (w.(pw_expires_at) <=? now) &&
                        pushWakeEligible d now k w ps) k w.

Definition ineligible (provider : string) (now : Z) (d : DB) (k : wake_key) (w : PushWakeRow) : bool :=
  joined d (fun w ps => (ps.(ps_provider) =s? provider) && negb (pushWakeEligible d now k w ps)) k w.

Definition of_disabled (provider : string) (d : DB) (k : wake_key) (w : PushWakeRow) : bool :=
  match d.(push).(push_subscriptions) !! k.2 with
  | Some ps => negb (bool_decide (ps.(ps_disabled_at) = None)) && (ps.(ps_provider) =s? provider)
  | None => false
  end.

Definition lease_row (token : string) (until : Z) (w : PushWakeRow) : PushWakeRow :=
  mkPushWakeRow w.(pw_conversation_id) w.(pw_sender_account_id) w.(pw_created_at) w.(pw_next_attempt_at)
    (w.(pw_attempts) + 1) (Some token) (Some until) w.(pw_expires_at).

Definition leased (token : string) (until now : Z) (w : PushWakeRow) : PushWakeRow :=
  if unleased now w && (w.(pw_next_attempt_at) <=? now) && (now <? w.(pw_expires_at)) then lease_row token until w else w.

Definition job_of (k : wake_key) (w : PushWakeRow) (ps : PushSubscriptionRow) (token : string) : PushWakeJob :=
  mkPushWakeJob ps.(ps_notification_mode) k.1.1 k.1.2 k.2 ps.(ps_provider) ps.(ps_endpoint) ps.(ps_public_key)
    ps.(ps_auth_secret) w.(pw_attempts) token.

(** The rows that carry the token, by event and subscription. *)
Definition claimed_jobs (d : DB) (provider token : string) : list PushWakeJob :=
  omap (fun kw => ps ← subscription_of d kw.1; Some (job_of kw.1 kw.2 ps token))
    (order_by (wake_le (fun _ => 0))
      (List.filter (fun kw => bool_decide (kw.2.(pw_lease_token) = Some token) &&
         joined d (fun _ ps => (ps.(ps_provider) =s? provider) && bool_decide (ps.(ps_disabled_at) = None)) kw.1 kw.2)
        (map_to_list d.(push).(push_wake_jobs)))).

Definition claim_limit (limit : Z) : Z := if (limit <=? 0) || (pushWakeBatchLimit <? limit) then pushWakeBatchLimit else limit.
Definition claim_lease (leaseDuration : Z) : Z := if leaseDuration <=? 0 then 30 * second else leaseDuration.

Definition ClaimPushWakeJobs (newToken provider : string) (limit now leaseDuration : Z) : Tx (list PushWakeJob * Z) :=
  let batch := Z.to_nat pushWakeBatchLimit in
  transaction (
    abandonedRows ← delete_jobs (abandoned provider now) batch;
    delete_jobs (ineligible provider now) batch ≫= fun _ =>
    delete_jobs (of_disabled provider) batch ≫= fun _ =>
    ks ← read (fun d => select_jobs d pw_next_attempt_at (Z.to_nat (claim_limit limit)) (claimable provider now d));
    if len ks =? 0 then mret ([], abandonedRows)
    else
      for_each ks (fun k => on_jobs (alter (leased newToken (time_add now (claim_lease leaseDuration)) now) k)) ≫= fun _ =>
      jobs ← read (fun d => claimed_jobs d provider newToken);
      mret (jobs, abandonedRows)).

(** ** The worker *)

Definition job_key (job : PushWakeJob) : wake_key := (job.(pj_EventID), job.(pj_RecipientAccountID), job.(pj_SubscriptionID)).
Definition held_by (job : PushWakeJob) (w : PushWakeRow) : bool := bool_decide (w.(pw_lease_token) = Some job.(pj_LeaseToken)).

Definition RefreshPushWakeJob (job : PushWakeJob) (now : Z) : Tx PushWakeJob :=
  d ← read (fun d => d);
  w ← require (d.(push).(push_wake_jobs) !! job_key job) ErrNotFound;
  ps ← require (subscription_of d (job_key job)) ErrNotFound;
  guard_tx (held_by job w && (now <? w.(pw_expires_at)) && bool_decide (ps.(ps_disabled_at) = None) &&
            pushWakeEligible d now (job_key job) w ps) ErrNotFound ≫= fun _ =>
  mret (job_of (job_key job) w ps job.(pj_LeaseToken)).



Definition released (nextAttemptAt : Z) (w : PushWakeRow) : PushWakeRow :=
  mkPushWakeRow w.(pw_conversation_id) w.(pw_sender_account_id) w.(pw_created_at) nextAttemptAt w.(pw_attempts)
    None None w.(pw_expires_at).


(** The subscription still has the credentials the target was read with. *)
Definition same_target (ps : PushSubscriptionRow) (provider endpoint publicKey authSecret : string) : bool :=
  (ps.(ps_provider) =s? provider) && (ps.(ps_endpoint) =s? endpoint) && (ps.(ps_public_key) =s? publicKey) &&
  (ps.(ps_auth_secret) =s? authSecret).

Definition disabled_row (now : Z) (ps : PushSubscriptionRow) : PushSubscriptionRow :=
  mkPushSubscriptionRow ps.(ps_account_id) ps.(ps_device_id) ps.(ps_provider) (Some now) ps.(ps_notification_mode)
    ps.(ps_endpoint) ps.(ps_public_key) ps.(ps_auth_secret) ps.(ps_created_at).

(** [SET disabled_at = COALESCE(disabled_at, ?)] *)
Definition retire_row (now : Z) (ps : PushSubscriptionRow) : PushSubscriptionRow :=
  disabled_row (default now ps.(ps_disabled_at)) ps.

Definition on_subscriptions (f : gmap string PushSubscriptionRow -> gmap string PushSubscriptionRow) : Tx unit :=
  modify (upd_push (upd_push_subscriptions f)).

Definition RetirePushWakeSubscription (now : Z) (job : PushWakeJob) : Tx unit :=
  transaction (
    d ← read (fun d => d);
    if match d.(push).(push_subscriptions) !! job.(pj_SubscriptionID) with
       | Some ps => same_target ps job.(pj_Provider) job.(pj_Endpoint) job.(pj_PublicKey) job.(pj_AuthSecret)
       | None => false
       end then
      on_subscriptions (alter (retire_row now) job.(pj_SubscriptionID)) ≫= fun _ =>
      on_jobs (filter (fun kw => kw.1.2 <> job.(pj_SubscriptionID)))
    else
      on_jobs (alter (fun w => if held_by job w then released now w else w) (job_key job))).

(** ** Backlog and pruning *)

Definition backlog_jobs (d : DB) (now : Z) : list (string * Z) :=
  omap (fun kw : wake_key * PushWakeRow =>
    ps ← subscription_of d kw.1;
    if (now <? kw.2.(pw_expires_at)) && bool_decide (ps.(ps_disabled_at) = None) && pushWakeEligible d now kw.1 kw.2 ps
    then Some (ps.(ps_provider), kw.2.(pw_created_at)) else None) (map_to_list d.(push).(push_wake_jobs)).

Definition PushWakeBacklog (d : DB) (now : Z) : list PushWakeBacklogRow :=
  let rows := backlog_jobs d now in
  map (fun provider =>
         let times := omap (fun r : string * Z => if r.1 =s? provider then Some r.2 else None) rows in
         mkPushWakeBacklogRow provider (len times) (default 0 (minimum times)))
    (order_by str_le (remove_dups rows.*1)).


(** ** Subscriptions *)

Record PushTarget := mkPushTarget {
  pt_NotificationMode : string; pt_ID : string; pt_Provider : string; pt_Endpoint : string;
  pt_PublicKey : string; pt_AuthSecret : string }.

Record DevicePushSubscription := mkDevicePushSubscription {
  dp_NotificationMode : string; dp_ID : string; dp_Provider : string; dp_CreatedAt : Z; Target : PushTarget }.

(** [account_id = ? AND device_id IS ? AND disabled_at IS NULL] *)
Definition in_scope (accountID : string) (device : option string) (ps : PushSubscriptionRow) : bool :=
  (ps.(ps_account_id) =s? accountID) && bool_decide (ps.(ps_device_id) = device) &&
  bool_decide (ps.(ps_disabled_at) = None).

(** [... AND provider = ? ORDER BY created_at DESC LIMIT 1] *)
Definition active_subscription (d : DB) (accountID : string) (device : option string) (provider : string) : option string :=
  fst <$> head (order_by (fun a b => b.2.(ps_created_at) <=? a.2.(ps_created_at))
    (List.filter (fun '(_, ps) => in_scope accountID device ps && (ps.(ps_provider) =s? provider))
       (map_to_list d.(push).(push_subscriptions)))).

Definition device_of_active_account (d : DB) (deviceID accountID : string) : bool :=
  match d.(rooms).(devices) !! deviceID, d.(rooms).(accounts) !! accountID with
  | Some dev, Some a => (dev.(dev_account_id) =s? accountID) && bool_decide (dev.(dev_revoked_at) = None) &&
                        (a.(acc_status) =s? "active") && bool_decide (a.(acc_deleted_at) = None)
  | _, _ => false
  end.

Definition CreatePushSubscriptionWithMode (newID : string) (now : Z)
    (accountID deviceID provider endpoint publicKey authSecret mode : string) : Tx string :=
  guard_tx (ValidPushNotificationMode mode) ErrInvalidInput ≫= fun _ =>
  transaction (
    d ← read (fun d => d);
    guard_tx (negb (mode =s? PushNotificationLocalDecrypt) || device_of_active_account d deviceID accountID)
      ErrUnauthorized ≫= fun _ =>
    let device := nullableEmptyString deviceID in
    let row := mkPushSubscriptionRow accountID device provider None mode endpoint publicKey authSecret now in
    activeID ← match active_subscription d accountID device provider with
               | None =>
                   guard_tx (negb (exists_in d.(push).(push_subscriptions) newID) && exists_in d.(rooms).(accounts) accountID &&
                             match device with None => true | Some dev => exists_in d.(rooms).(devices) dev end)
                     ErrConstraint ≫= fun _ =>
                   on_subscriptions (insert newID row) ≫= fun _ => mret newID
               | Some id => on_subscriptions (insert id row) ≫= fun _ => mret id
               end;
    on_subscriptions (fmap (fun ps => if in_scope accountID device ps && negb (ps.(ps_provider) =s? provider)
                                      then disabled_row now ps else ps)) ≫= fun _ =>
    mret activeID).

Definition CreatePushSubscription (newID : string) (now : Z)
    (accountID deviceID provider endpoint publicKey authSecret : string) : Tx string :=
  CreatePushSubscriptionWithMode newID now accountID deviceID provider endpoint publicKey authSecret PushNotificationLegacy.

Definition target_of (id : string) (ps : PushSubscriptionRow) : PushTarget :=
  mkPushTarget ps.(ps_notification_mode) id ps.(ps_provider) ps.(ps_endpoint) ps.(ps_public_key) ps.(ps_auth_secret).
Definition device_subscription (id : string) (ps : PushSubscriptionRow) : DevicePushSubscription :=
  mkDevicePushSubscription ps.(ps_notification_mode) id ps.(ps_provider) ps.(ps_created_at) (target_of id ps).

Definition ListDevicePushSubscriptions (d : DB) (accountID deviceID : string) : list DevicePushSubscription :=
  take 10 (map (fun '(id, ps) => device_subscription id ps)
    (order_by (fun a b => b.2.(ps_created_at) <=? a.2.(ps_created_at))
      (List.filter (fun '(_, ps) => in_scope accountID (Some deviceID) ps) (map_to_list d.(push).(push_subscriptions))))).

Definition PushTargetsForConversation (d : DB) (now : Z) (conversationID excludeAccountID : string) : list PushTarget :=
  take 500 (map (fun '(id, ps) => target_of id ps)
    (order_by (fun a b => str_le a.1 b.1)
      (List.filter (fun '(_, ps) =>
          is_member d conversationID ps.(ps_account_id) && negb (ps.(ps_account_id) =s? excludeAccountID) &&
          ((ps.(ps_provider) =s? "webpush") || (ps.(ps_provider) =s? "fcm") || (ps.(ps_provider) =s? "apns")) &&
          bool_decide (ps.(ps_disabled_at) = None) && negb (blocked_by d ps.(ps_account_id) excludeAccountID) &&
          ((ps.(ps_notification_mode) =s? PushNotificationLocalDecrypt) ||
           negb (muted_now d now ps.(ps_account_id) conversationID)))
        (map_to_list d.(push).(push_subscriptions))))).

Definition DevicePushSubscriptionForDevice (id accountID deviceID : string) : Tx DevicePushSubscription :=
  d ← read (fun d => d);
  ps ← require (d.(push).(push_subscriptions) !! id) ErrNotFound;
  guard_tx (in_scope accountID (Some deviceID) ps && device_of_active_account d deviceID accountID) ErrNotFound ≫= fun _ =>
  mret (device_subscription id ps).

Definition DisablePushTarget (now : Z) (target : PushTarget) : Tx unit :=
  on_subscriptions (alter (fun ps =>
    if same_target ps target.(pt_Provider) target.(pt_Endpoint) target.(pt_PublicKey) target.(pt_AuthSecret)
    then retire_row now ps else ps) target.(pt_ID)).

Definition DisablePushSubscription (now : Z) (subscriptionID accountID : string) : Tx unit :=
  d ← read (fun d => d);
  guard_tx match d.(push).(push_subscriptions) !! subscriptionID with
           | Some ps => (ps.(ps_account_id) =s? accountID) && bool_decide (ps.(ps_disabled_at) = None)
           | None => false
           end ErrNotFound ≫= fun _ =>
  on_subscriptions (alter (disabled_row now) subscriptionID).

(** ** Lemmas: selecting and deleting *)

Section wake_order.
Context (time : PushWakeRow -> Z).

Lemma wake_le_spec a b :
  wake_le time a b = true <->
  time a.2 < time b.2 \/ (time a.2 = time b.2 /\
    (a.1.1.1 < b.1.1.1 \/ (a.1.1.1 = b.1.1.1 /\ String.le a.1.2 b.1.2))).
Proof.
  unfold wake_le, str_le. rewrite !orb_true_iff, !andb_true_iff, !orb_true_iff, !andb_true_iff, bool_decide_eq_true.
  rewrite !Z.ltb_lt, !Z.eqb_eq. tauto.
Qed.

#[export] Instance wake_le_trans : Transitive (fun a b => wake_le time a b = true).
Proof.
  intros a b c. rewrite !wake_le_spec. intros H1 H2.
  destruct H1 as [?|[? [?|[? ?]]]], H2 as [?|[? [?|[? ?]]]]; (left; lia) || (right; split; [lia|]);
    (left; lia) || (right; split; [lia|by etrans]).
Qed.

#[export] Instance wake_le_total : Total (fun a b => wake_le time a b = true).
Proof.
  intros a b. rewrite !wake_le_spec. destruct (Z.lt_trichotomy (time a.2) (time b.2)) as [?|[Et|?]]; [lia| |lia].
  destruct (Z.lt_trichotomy a.1.1.1 b.1.1.1) as [?|[Ee|?]]; [lia| |lia].
  destruct (total String.le a.1.2 b.1.2); [left|right]; right; (split; [lia|right; split; [lia|done]]).
Qed.

Lemma wake_le_antisym a b :
  wake_le time a b = true -> wake_le time b a = true -> a.1.1.1 = b.1.1.1 /\ a.1.2 = b.1.2.
Proof.
  rewrite !wake_le_spec. intros H1 H2.
  destruct H1 as [?|[? [?|[? ?]]]], H2 as [?|[? [?|[? ?]]]]; try lia. split; [done|by apply (anti_symm String.le)].
Qed.
End wake_order.

(** The rows a selection ranges over. *)
Definition selected (d : DB) (sel : wake_key -> PushWakeRow -> bool) : list (wake_key * PushWakeRow) :=
  List.filter (fun kw => sel kw.1 kw.2) (map_to_list d.(push).(push_wake_jobs)).

Lemma elem_of_selected d sel k w :
  (k, w) ∈ selected d sel <-> d.(push).(push_wake_jobs) !! k = Some w /\ sel k w = true.
Proof. unfold selected. by rewrite list_elem_of_In, List.filter_In, <- list_elem_of_In, elem_of_map_to_list. Qed.

Lemma filter_fst_nodup {K A} (p : K * A -> bool) (l : list (K * A)) : NoDup l.*1 -> NoDup (List.filter p l).*1.
Proof.
  induction l as [|x l IH]; simpl; [done|]. rewrite NoDup_cons. intros [Hx Hl]. destruct (p x); [|by apply IH].
  simpl. rewrite NoDup_cons. split; [|by apply IH]. intros Hin. apply Hx.
  apply list_elem_of_fmap in Hin as (y & -> & Hy). apply list_elem_of_fmap. exists y. split; [done|].
  rewrite list_elem_of_In, List.filter_In, <- list_elem_of_In in Hy. tauto.
Qed.

Lemma selected_nodup d sel : NoDup (selected d sel).*1.
Proof. apply filter_fst_nodup, NoDup_fst_map_to_list. Qed.

Lemma select_jobs_nodup d time n sel : NoDup (select_jobs d time n sel).
Proof.
  unfold select_jobs. rewrite <- firstn_map. eapply sublist_NoDup; [|apply sublist_take].
  change (NoDup (order_by (wake_le time) (selected d sel)).*1). rewrite order_by_perm. apply selected_nodup.
Qed.

Lemma select_jobs_elem d time n sel k :
  k ∈ select_jobs d time n sel -> exists w, d.(push).(push_wake_jobs) !! k = Some w /\ sel k w = true.
Proof.
  unfold select_jobs. intros Hk. apply list_elem_of_fmap in Hk as ([k' w] & -> & Hin). exists w.
  apply elem_of_selected. rewrite <- (order_by_perm (wake_le time)).
  apply elem_of_take in Hin as (i & Hi & _). by eapply list_elem_of_lookup_2.
Qed.

Lemma select_jobs_len d time n sel : (length (select_jobs d time n sel) <= n)%nat.
Proof. unfold select_jobs. rewrite length_fmap, length_take. lia. Qed.

(** The store after the jobs of [ks] are gone. *)
Definition without (d : DB) (ks : list wake_key) : DB :=
  upd_push (upd_push_wake_jobs (filter (fun kw => kw.1 ∉ ks))) d.

Lemma delete_jobs_ok sel n s :
  let ks := select_jobs s.(db) pw_expires_at n (sel s.(db)) in
  delete_jobs sel n s = (Ok (len ks), with_db s (without s.(db) ks)).
Proof. done. Qed.

(** A selection that no deleted row satisfies is not changed by the
    deletion. *)
Lemma select_jobs_without d time n sel ks :
  (forall k w, k ∈ ks -> d.(push).(push_wake_jobs) !! k = Some w -> sel k w = false) ->
  (forall k1 w1 k2 w2, (k1, w1) ∈ selected d sel -> (k2, w2) ∈ selected d sel -> k1.1.1 = k2.1.1 -> k1.2 = k2.2 -> k1 = k2) ->
  select_jobs (without d ks) time n sel = select_jobs d time n sel.
Proof.
  intros Hks Hkey. unfold select_jobs. do 2 f_equal. fold (selected d sel).
  assert (selected (without d ks) sel ≡ₚ selected d sel) as Hp.
  { apply NoDup_Permutation; [eapply NoDup_fmap_1, selected_nodup..|].
    intros [k w]. rewrite !elem_of_selected. simpl. rewrite map_lookup_filter_Some. simpl. split; [tauto|].
    intros [Hk Hs]. split_and!; try done. intros Hin. rewrite (Hks _ _ Hin Hk) in Hs. discriminate Hs. }
  fold (selected (without d ks) sel). apply (StronglySorted_unique_strong (fun x y => wake_le time x y = true)).
  - intros [k1 w1] [k2 w2]. rewrite !order_by_perm, Hp. intros H1 H2 L1 L2.
    destruct (wake_le_antisym _ _ _ L1 L2) as [E1 E2]. pose proof (Hkey _ _ _ _ H1 H2 E1 E2) as ->.
    apply elem_of_selected in H1 as [H1 _], H2 as [H2 _]. by rewrite H1 in H2; injection H2 as ->.
  - unfold order_by. by apply (StronglySorted_merge_sort _).
  - unfold order_by. by apply (StronglySorted_merge_sort _).
  - by rewrite !order_by_perm.
Qed.

(** ** Lemmas: the claim *)

Lemma for_each_alter f ks s :
  NoDup ks ->
  exists m, for_each ks (fun k => on_jobs (alter f k)) s =
              (Ok tt, with_db s (upd_push (upd_push_wake_jobs (fun _ => m)) s.(db))) /\
    forall k, m !! k = if decide (k ∈ ks) then f <$> s.(db).(push).(push_wake_jobs) !! k
                       else s.(db).(push).(push_wake_jobs) !! k.
Proof.
  intros Hnd. revert s. induction Hnd as [|k ks Hk _ IH]; intros s.
  - exists s.(db).(push).(push_wake_jobs). split; [by destruct s as [[? ? ? [] ? ? ? ? ? ?] ? ? ?]|done].
  - cbn [for_each]. unfold mbind at 1, Tx_bind at 1. cbn [on_jobs modify].
    destruct (IH (with_db s (upd_push (upd_push_wake_jobs (alter f k)) (db s)))) as (m & -> & Hm).
    exists m. split; [done|]. intros k'. rewrite Hm. simpl.
    destruct (decide (k' = k)) as [->|Hne].
    + rewrite decide_False by done. rewrite decide_True by by left. by rewrite lookup_alter_eq.
    + rewrite lookup_alter_ne by done. destruct (decide (k' ∈ ks)) as [?|?].
      * rewrite decide_True by by right. done.
      * rewrite decide_False; [done|]. by apply not_elem_of_cons.
Qed.

(** The rows a claim takes: the due, eligible, unleased jobs of the provider,
    longest due first. *)
Definition claim_keys (d : DB) (provider : string) (limit now : Z) : list wake_key :=
  select_jobs d pw_next_attempt_at (Z.to_nat (claim_limit limit)) (claimable provider now d).

Lemma claim_keys_elem d provider limit now k :
  k ∈ claim_keys d provider limit now ->
  exists w, d.(push).(push_wake_jobs) !! k = Some w /\ claimable provider now d k w = true.
Proof. apply select_jobs_elem. Qed.

Lemma claim_keys_len d provider limit now : len (claim_keys d provider limit now) <= claim_limit limit.
Proof.
  unfold claim_keys. set (n := Z.to_nat _).
  pose proof (select_jobs_len d pw_next_attempt_at n (claimable provider now d)) as H. unfold len.
  assert (0 < claim_limit limit) by (unfold claim_limit, pushWakeBatchLimit; destruct (_ || _) eqn:E; lia). subst n. lia.
Qed.

Lemma subscription_of_account d k ps : subscription_of d k = Some ps -> ps.(ps_account_id) = k.1.2 /\ d.(push).(push_subscriptions) !! k.2 = Some ps.
Proof.
  unfold subscription_of. destruct (push_subscriptions (push d) !! k.2) as [ps'|] eqn:E; [|done].
  destruct (_ =s? _) eqn:Ea; intros [= <-]. by apply str_eqb_true in Ea.
Qed.

Lemma claimable_sub provider now d k w :
  claimable provider now d k w = true ->
  exists ps, subscription_of d k = Some ps /\ ps.(ps_provider) = provider /\ ps.(ps_disabled_at) = None /\
    pushWakeEligible d now k w ps = true /\ now < w.(pw_expires_at) /\ leased "" 0 now w = lease_row "" 0 w /\ unleased now w = true.
Proof.
  unfold claimable, joined, leased. destruct (subscription_of d k) as [ps|]; [|done].
  destruct (unleased now w); [|by rewrite andb_false_r]. intros H. bool_to_prop.
  match goal with Hp : (_ =s? _) = true |- _ => apply str_eqb_true in Hp end.
  exists ps. split_and!; try done. simpl. rewrite (proj2 (Z.leb_le _ _)), (proj2 (Z.ltb_lt _ _)) by done. done.
Qed.

Lemma leased_claimable token until provider now d k w :
  claimable provider now d k w = true -> leased token until now w = lease_row token until w.
Proof.
  intros H. apply claimable_sub in H as (_ & _ & _ & _ & _ & _ & Hl & _). unfold leased in *.
  destruct (_ && _); [done|]. destruct w; unfold lease_row in Hl; injection Hl. simpl. lia.
Qed.

(** The three deletions of a claim spare every claimable job. *)
Lemma claimable_spared provider now d k w :
  claimable provider now d k w = true ->
  abandoned provider now d k w = false /\ ineligible provider now d k w = false /\ of_disabled provider d k w = false.
Proof.
  intros H. apply claimable_sub in H as (ps & Hps & Hp & Hd & He & Hexp & _).
  unfold abandoned, ineligible, of_disabled, joined. rewrite Hps, He, (proj2 (subscription_of_account _ _ _ Hps)), Hd.
  rewrite (proj2 (Z.leb_gt _ _)) by lia. by rewrite !andb_false_r.
Qed.

Lemma claimable_key provider now d k1 w1 k2 w2 :
  (k1, w1) ∈ selected d (claimable provider now d) -> (k2, w2) ∈ selected d (claimable provider now d) ->
  k1.1.1 = k2.1.1 -> k1.2 = k2.2 -> k1 = k2.
Proof.
  rewrite !elem_of_selected. intros [_ H1] [_ H2] E1 E2.
  apply claimable_sub in H1 as (p1 & H1 & _), H2 as (p2 & H2 & _).
  apply subscription_of_account in H1 as [A1 L1], H2 as [A2 L2]. rewrite E2, L2 in L1. injection L1 as ->.
  destruct k1 as [[? ?] ?], k2 as [[? ?] ?]; simpl in *. congruence.
Qed.

Lemma without_lookup d ks k : (without d ks).(push).(push_wake_jobs) !! k =
  if decide (k ∈ ks) then None else d.(push).(push_wake_jobs) !! k.
Proof.
  simpl. case_decide.
  - apply map_lookup_filter_None. right. intros x _ Hn. by apply Hn.
  - destruct (push_wake_jobs (push d) !! k) as [w|] eqn:E.
    + by apply map_lookup_filter_Some.
    + apply map_lookup_filter_None. by left.
Qed.

(** The deletions that open a claim. *)
Definition clean_with (sel : DB -> wake_key -> PushWakeRow -> bool) (d : DB) : DB :=
  without d (select_jobs d pw_expires_at (Z.to_nat pushWakeBatchLimit) (sel d)).
Definition cleaned (provider : string) (now : Z) (d : DB) : DB :=
  clean_with (of_disabled provider) (clean_with (ineligible provider now) (clean_with (abandoned provider now) d)).

Lemma clean_with_claim sel provider limit now d :
  (forall k w, claimable provider now d k w = true -> sel d k w = false) ->
  claim_keys (clean_with sel d) provider limit now = claim_keys d provider limit now.
Proof.
  intros Hsel. unfold claim_keys, clean_with.
  change (claimable provider now (without d ?ks)) with (claimable provider now d).
  apply select_jobs_without; [|apply claimable_key].
  intros k w Hk Hw. apply select_jobs_elem in Hk as (w' & Hw' & Hs). rewrite Hw in Hw'. injection Hw' as <-.
  destruct (claimable provider now d k w) eqn:E; [|done]. by rewrite (Hsel _ _ E) in Hs.
Qed.

Lemma cleaned_claim provider limit now d : claim_keys (cleaned provider now d) provider limit now = claim_keys d provider limit now.
Proof.
  unfold cleaned. rewrite !clean_with_claim; [done|..]; intros k w H; apply (claimable_spared _ _ d) in H; apply H.
Qed.

Lemma clean_with_lookup sel d k :
  (clean_with sel d).(push).(push_wake_jobs) !! k = d.(push).(push_wake_jobs) !! k \/
  ((clean_with sel d).(push).(push_wake_jobs) !! k = None /\
   exists w, d.(push).(push_wake_jobs) !! k = Some w /\ sel d k w = true).
Proof.
  unfold clean_with. rewrite without_lookup. case_decide as Hk; [right|by left]. split; [done|].
  by apply select_jobs_elem in Hk.
Qed.

Lemma cleaned_lookup provider now d k :
  (cleaned provider now d).(push).(push_wake_jobs) !! k = d.(push).(push_wake_jobs) !! k \/
  ((cleaned provider now d).(push).(push_wake_jobs) !! k = None /\ exists w, d.(push).(push_wake_jobs) !! k = Some w /\
     (abandoned provider now d k w || ineligible provider now d k w || of_disabled provider d k w) = true).
Proof.
  unfold cleaned.
  destruct (clean_with_lookup (abandoned provider now) d k) as [E1|(E1 & w & Hw & Hs)];
  destruct (clean_with_lookup (ineligible provider now) (clean_with (abandoned provider now) d) k) as [E2|(E2 & w2 & Hw2 & Hs2)];
  destruct (clean_with_lookup (of_disabled provider)
              (clean_with (ineligible provider now) (clean_with (abandoned provider now) d)) k) as [E3|(E3 & w3 & Hw3 & Hs3)];
  rewrite ?E1, ?E2, ?E3 in *; try done; [by left|right..].
  - split; [done|]. exists w3. split; [congruence|]. change (of_disabled provider d k w3 = true) in Hs3. by rewrite Hs3, orb_true_r.
  - split; [done|]. exists w2. split; [congruence|]. change (ineligible provider now d k w2 = true) in Hs2. by rewrite Hs2, orb_true_r.
  - split; [done|]. exists w. by rewrite Hs.
Qed.

Lemma cleaned_some provider now d k w :
  (cleaned provider now d).(push).(push_wake_jobs) !! k = Some w -> d.(push).(push_wake_jobs) !! k = Some w.
Proof. destruct (cleaned_lookup provider now d k) as [->|(-> & _)]; [done|discriminate]. Qed.

(** What a claim returns and stores. *)
Lemma claim_run token provider limit now lease s :
  (forall k w, s.(db).(push).(push_wake_jobs) !! k = Some w -> w.(pw_lease_token) <> Some token) ->
  let ks := claim_keys s.(db) provider limit now in
  exists jobs n s', ClaimPushWakeJobs token provider limit now lease s = (Ok (jobs, n), s') /\
    jobs = claimed_jobs s'.(db) provider token /\
    s'.(db).(push).(push_subscriptions) = s.(db).(push).(push_subscriptions) /\
    forall k, s'.(db).(push).(push_wake_jobs) !! k =
      (if decide (k ∈ ks) then lease_row token (time_add now (claim_lease lease)) <$> s.(db).(push).(push_wake_jobs) !! k
       else (cleaned provider now s.(db)).(push).(push_wake_jobs) !! k).
Proof.
  intros Hfresh ks. unfold ClaimPushWakeJobs, transaction. unfold mbind, Tx_bind. rewrite !delete_jobs_ok. cbn beta iota.
  set (s3 := with_db _ (without (db (with_db _ (without (db (with_db s _)) _))) _)).
  assert (s3 = with_db s (cleaned provider now s.(db))) as -> by done. unfold read. cbn beta iota.
  change (select_jobs _ pw_next_attempt_at _ _) with (claim_keys (cleaned provider now (db s)) provider limit now).
  rewrite cleaned_claim. fold ks.
  pose proof (claim_keys_elem s.(db) provider limit now) as Hks. fold ks in Hks.
  assert (forall k w, k ∈ ks -> s.(db).(push).(push_wake_jobs) !! k = Some w ->
            (cleaned provider now s.(db)).(push).(push_wake_jobs) !! k = Some w /\ claimable provider now s.(db) k w = true) as Hkept.
  { intros k w Hk Hw. destruct (Hks _ Hk) as (w' & Hw' & Hc). rewrite Hw in Hw'. injection Hw' as <-. split; [|done].
    destruct (cleaned_lookup provider now s.(db) k) as [->|(_ & w' & Hw' & Hd)]; [done|].
    rewrite Hw in Hw'. injection Hw' as <-. destruct (claimable_spared _ _ _ _ _ Hc) as (E1 & E2 & E3).
    by rewrite E1, E2, E3 in Hd. }
  destruct (len ks =? 0) eqn:El.
  - exists [], (len (select_jobs (db s) pw_expires_at (Z.to_nat pushWakeBatchLimit) (abandoned provider now (db s)))), (with_db s (cleaned provider now s.(db))).
    assert (ks = []) as Hnil by (apply Z.eqb_eq in El; apply length_zero_iff_nil; unfold len in El; lia).
    split_and!; [done| |done|].
    + unfold claimed_jobs. cbn [db with_db]. rewrite filter_all_false; [done|]. apply Forall_forall. intros [k w] Hin.
      apply elem_of_map_to_list, cleaned_some in Hin. rewrite bool_decide_false; [done|]. by apply (Hfresh k).
    + intros k. rewrite Hnil. rewrite decide_False by apply not_elem_of_nil. done.
  - destruct (for_each_alter (leased token (time_add now (claim_lease lease)) now) ks (with_db s (cleaned provider now s.(db))))
      as (m & -> & Hm); [apply select_jobs_nodup|].
    eexists _, _, _. split; [reflexivity|]. split_and!; [done..|]. intros k. etrans; [exact (Hm k)|].
    change (push (db (with_db s ?d))) with (push d). case_decide as Hk; [|done].
    destruct (Hks _ Hk) as (w & Hw & _). destruct (Hkept _ _ Hk Hw) as [E Hc]. rewrite E, Hw. cbn [fmap option_fmap option_map].
    f_equal. by eapply leased_claimable.
Qed.

Lemma job_key_of k w ps token : job_key (job_of k w ps token) = k.
Proof. by destruct k as [[? ?] ?]. Qed.

Lemma elem_of_claimed d provider token j :
  j ∈ claimed_jobs d provider token <->
  exists k w ps, d.(push).(push_wake_jobs) !! k = Some w /\ subscription_of d k = Some ps /\ j = job_of k w ps token /\
    w.(pw_lease_token) = Some token /\ ps.(ps_provider) = provider /\ ps.(ps_disabled_at) = None.
Proof.
  unfold claimed_jobs. rewrite list_elem_of_omap. setoid_rewrite order_by_perm.
  setoid_rewrite list_elem_of_In at 1. setoid_rewrite List.filter_In. setoid_rewrite <- list_elem_of_In. split.
  - intros ([k w] & [Hin Hc] & Hj). apply elem_of_map_to_list in Hin. simpl in *. unfold joined in Hc.
    destruct (subscription_of d k) as [ps|] eqn:Eps; [|discriminate Hj]. injection Hj as <-. bool_to_prop.
    exists k, w, ps. split_and!; try done. by apply str_eqb_true.
  - intros (k & w & ps & Hin & Hps & -> & Ht & Hp & Hd). exists (k, w). rewrite elem_of_map_to_list. simpl.
    unfold joined. rewrite Hps. simpl. split_and!; [done| |done]. rewrite Ht, Hp, Hd, str_eqb_refl. by rewrite !bool_decide_true.
Qed.

Lemma job_keys_sub d token (l : list (wake_key * PushWakeRow)) k :
  k ∈ map job_key (omap (fun kw => ps ← subscription_of d kw.1; Some (job_of kw.1 kw.2 ps token)) l) -> k ∈ l.*1.
Proof.
  intros (j & -> & Hj)%list_elem_of_fmap. apply list_elem_of_omap in Hj as ([k' w] & Hin & Hj). simpl in Hj.
  destruct (subscription_of d k'); [|discriminate Hj]. injection Hj as <-. rewrite job_key_of.
  by apply (list_elem_of_fmap_2 fst _ (k', w)).
Qed.

Lemma claimed_nodup d provider token : NoDup (map job_key (claimed_jobs d provider token)).
Proof.
  unfold claimed_jobs. set (l := List.filter _ _).
  assert (NoDup (order_by (wake_le (fun _ => 0)) l).*1) as Hnd
    by (rewrite order_by_perm; apply filter_fst_nodup, NoDup_fst_map_to_list).
  revert Hnd. generalize (order_by (wake_le (fun _ => 0)) l). clear l. intros l.
  induction l as [|[k w] l IH]; simpl; [constructor|]. rewrite NoDup_cons. intros [Hk Hl].
  destruct (subscription_of d k); simpl; [|by apply IH]. rewrite NoDup_cons. split; [|by apply IH].
  rewrite job_key_of. intros Hin. by apply job_keys_sub in Hin.
Qed.

(** Claiming wake jobs never fails and takes exactly the due, eligible,
    unleased jobs of the provider, the longest due first, up to the limit.
    Each is returned once, with its subscription's current credentials, and
    stored under the new lease with one more attempt.  Every other job stays
    as it was, except that jobs which expired unsent, may no longer be sent
    or belong to a disabled subscription may be removed. *)
Theorem claim_takes_due_jobs token provider limit now lease s :
  (forall k w, s.(db).(push).(push_wake_jobs) !! k = Some w -> w.(pw_lease_token) <> Some token) ->
  let ks := claim_keys s.(db) provider limit now in
  exists jobs n s', ClaimPushWakeJobs token provider limit now lease s = (Ok (jobs, n), s') /\
    map job_key jobs ≡ₚ ks /\ len jobs <= claim_limit limit /\
    (forall j, j ∈ jobs -> exists w ps, s.(db).(push).(push_wake_jobs) !! job_key j = Some w /\
       subscription_of s.(db) (job_key j) = Some ps /\ pushWakeEligible s.(db) now (job_key j) w ps = true /\
       j = job_of (job_key j) (lease_row token (now + claim_lease lease) w) ps token) /\
    forall k, match s.(db).(push).(push_wake_jobs) !! k, s'.(db).(push).(push_wake_jobs) !! k with
              | Some w, Some w' => w' = if decide (k ∈ ks) then lease_row token (now + claim_lease lease) w else w
              | Some w, None => k ∉ ks /\ (abandoned provider now s.(db) k w || ineligible provider now s.(db) k w ||
                                           of_disabled provider s.(db) k w) = true
              | None, Some _ => False
              | None, None => True
              end.
Proof.
  intros Hfresh ks. destruct (claim_run token provider limit now lease s Hfresh) as (jobs & n & s' & Hrun & Hjobs & Hsubs & Hrows).
  fold ks in Hrows. exists jobs, n, s'. split; [done|].
  pose proof (claim_keys_elem s.(db) provider limit now) as Hks. fold ks in Hks.
  assert (forall k, subscription_of s'.(db) k = subscription_of s.(db) k) as Hsub
    by (intros k; unfold subscription_of; by rewrite Hsubs).
  assert (map job_key jobs ≡ₚ ks) as Hperm.
  { apply NoDup_Permutation; [subst jobs; apply claimed_nodup|apply select_jobs_nodup|]. intros k. subst jobs. split.
    - intros (j & -> & Hj)%list_elem_of_fmap. apply elem_of_claimed in Hj as (k & w & ps & Hw & _ & -> & Ht & _).
      rewrite job_key_of. rewrite Hrows in Hw. case_decide as Hk; [done|]. apply cleaned_some in Hw. by destruct (Hfresh _ _ Hw).
    - intros Hk. destruct (Hks _ Hk) as (w & Hw & Hc). apply claimable_sub in Hc as (ps & Hps & Hp & Hd & _).
      apply list_elem_of_fmap. exists (job_of k (lease_row token (time_add now (claim_lease lease)) w) ps token).
      rewrite job_key_of. split; [done|]. apply elem_of_claimed. exists k, (lease_row token (time_add now (claim_lease lease)) w), ps.
      rewrite Hrows, decide_True, Hw, Hsub by done. done. }
  split_and!; [done| | |].
  - apply Permutation_length in Hperm. rewrite length_map in Hperm. unfold len. rewrite Hperm. apply claim_keys_len.
  - intros j Hj. assert (job_key j ∈ ks) as Hk by (rewrite <- Hperm; by apply (list_elem_of_fmap_2 job_key)).
    subst jobs. apply elem_of_claimed in Hj as (k & w' & ps & Hw' & Hps & -> & _). rewrite job_key_of in *.
    rewrite Hrows, decide_True in Hw' by done. rewrite Hsub in Hps.
    destruct (Hks _ Hk) as (w & Hw & Hc). rewrite Hw in Hw'. injection Hw' as <-.
    apply claimable_sub in Hc as (ps' & Hps' & _ & _ & He & _). rewrite Hps in Hps'. injection Hps' as <-. by exists w, ps.
  - intros k. rewrite Hrows. case_decide as Hk.
    + destruct (Hks _ Hk) as (w & -> & _). done.
    + destruct (cleaned_lookup provider now s.(db) k) as [->|(-> & w & -> & Hd)]; [|done].
      by destruct (push_wake_jobs _ !! k).
Qed.

(** ** Leases over a history *)










(** ** One registration per device *)

Definition one_active (d : DB) : Prop :=
  forall id1 id2 p1 p2,
    d.(push).(push_subscriptions) !! id1 = Some p1 -> d.(push).(push_subscriptions) !! id2 = Some p2 ->
    p1.(ps_disabled_at) = None -> p2.(ps_disabled_at) = None ->
    p1.(ps_account_id) = p2.(ps_account_id) -> p1.(ps_device_id) = p2.(ps_device_id) -> id1 = id2.

Lemma in_scope_true a dev ps :
  in_scope a dev ps = true <-> ps.(ps_account_id) = a /\ ps.(ps_device_id) = dev /\ ps.(ps_disabled_at) = None.
Proof. unfold in_scope. rewrite !andb_true_iff, !bool_decide_eq_true, str_eqb_true. tauto. Qed.

Lemma active_subscription_spec d a dev provider :
  match active_subscription d a dev provider with
  | Some id => exists ps, d.(push).(push_subscriptions) !! id = Some ps /\ in_scope a dev ps = true /\ ps.(ps_provider) = provider
  | None => forall id ps, d.(push).(push_subscriptions) !! id = Some ps -> in_scope a dev ps = true -> ps.(ps_provider) <> provider
  end.
Proof.
  unfold active_subscription. set (l := List.filter _ _).
  assert (forall id ps, (id, ps) ∈ l <-> d.(push).(push_subscriptions) !! id = Some ps /\ in_scope a dev ps = true /\ ps.(ps_provider) = provider) as Hl.
  { intros id ps. unfold l. rewrite list_elem_of_In, List.filter_In, <- list_elem_of_In, elem_of_map_to_list.
    by rewrite andb_true_iff, str_eqb_true. }
  pose proof (order_by_perm (fun a b : string * PushSubscriptionRow => b.2.(ps_created_at) <=? a.2.(ps_created_at)) l) as Hp.
  destruct (order_by _ l) as [|[id ps] l'].
  - simpl. intros id ps H1 H2 H3. apply Permutation_nil in Hp. apply (not_elem_of_nil (id, ps)). rewrite <- Hp. by apply Hl.
  - simpl. exists ps. apply Hl. rewrite <- Hp. by left.
Qed.

(** Registering writes one row and disables the device's other providers. *)
Lemma create_subscription_ok newID now a deviceID provider endpoint pk secret mode s id s' :
  CreatePushSubscriptionWithMode newID now a deviceID provider endpoint pk secret mode s = (Ok id, s') ->
  let dev := nullableEmptyString deviceID in
  let row := mkPushSubscriptionRow a dev provider None mode endpoint pk secret now in
  s'.(db).(push).(push_subscriptions) =
    (fun ps => if in_scope a dev ps && negb (ps.(ps_provider) =s? provider) then disabled_row now ps else ps) <$>
      <[id := row]> s.(db).(push).(push_subscriptions) /\
  s'.(db).(push).(push_wake_jobs) = s.(db).(push).(push_wake_jobs) /\
  ((s.(db).(push).(push_subscriptions) !! id = None /\
      forall id' ps, s.(db).(push).(push_subscriptions) !! id' = Some ps -> in_scope a dev ps = true -> ps.(ps_provider) <> provider) \/
   exists ps, s.(db).(push).(push_subscriptions) !! id = Some ps /\ in_scope a dev ps = true /\ ps.(ps_provider) = provider).
Proof.
  unfold CreatePushSubscriptionWithMode, on_subscriptions. intros H. run H. subst. clear Hrun.
  pose proof (active_subscription_spec s.(db) a (nullableEmptyString deviceID) provider) as Hs.
  destruct (active_subscription _ _ _ _) as [id0|];
    (match goal with Hr : (_ ≫= _) s = (Ok _, _) |- _ => run Hr end).
  - split_and!; [done..|]. by right.
  - split_and!; [done..|]. left. split; [|done]. unfold exists_in in *. bool_to_prop. by apply eq_None_not_Some.
Qed.

(** The active rows of the scope after registering. *)
Lemma create_sole newID now a deviceID provider endpoint pk secret mode s id s' :
  CreatePushSubscriptionWithMode newID now a deviceID provider endpoint pk secret mode s = (Ok id, s') -> one_active s.(db) ->
  let dev := nullableEmptyString deviceID in
  s'.(db).(push).(push_subscriptions) !! id = Some (mkPushSubscriptionRow a dev provider None mode endpoint pk secret now) /\
  (forall id' ps', s'.(db).(push).(push_subscriptions) !! id' = Some ps' -> in_scope a dev ps' = true -> id' = id) /\
  (forall id' ps', s'.(db).(push).(push_subscriptions) !! id' = Some ps' -> ps'.(ps_disabled_at) = None -> id' <> id ->
     s.(db).(push).(push_subscriptions) !! id' = Some ps').
Proof.
  intros H Hone dev. apply create_subscription_ok in H as (Hsubs & _ & Hcase). fold dev in Hsubs, Hcase. rewrite Hsubs.
  assert (forall id' ps', ((fun ps => if in_scope a dev ps && negb (ps.(ps_provider) =s? provider) then disabled_row now ps else ps) <$>
            <[id := mkPushSubscriptionRow a dev provider None mode endpoint pk secret now]> s.(db).(push).(push_subscriptions)) !! id' = Some ps' ->
          ps'.(ps_disabled_at) = None -> id' <> id ->
          s.(db).(push).(push_subscriptions) !! id' = Some ps' /\ (in_scope a dev ps' = true -> ps'.(ps_provider) = provider)) as Hold.
  { intros id' ps'. rewrite lookup_fmap, fmap_Some. intros (q & Hq & ->) Hd Hne. rewrite lookup_insert_ne in Hq by done.
    destruct (in_scope a dev q) eqn:Es; [|simpl; by rewrite Es].
    destruct (ps_provider q =s? provider) eqn:Ep; [|discriminate Hd]. by apply str_eqb_true in Ep. }
  split_and!.
  - rewrite lookup_fmap, lookup_insert_eq. simpl. by rewrite str_eqb_refl, andb_false_r.
  - intros id' ps' Hl Hs. destruct (decide (id' = id)) as [|Hne]; [done|].
    pose proof (proj1 (in_scope_true _ _ _) Hs) as (Ha & Hdev & Hd).
    destruct (Hold _ _ Hl Hd Hne) as [Hq Hp]. specialize (Hp Hs). destruct Hcase as [[_ Hnone]|(ps & Hps & Hs2 & _)].
    + by destruct (Hnone _ _ Hq Hs).
    + apply in_scope_true in Hs2 as (Ha2 & Hdev2 & Hd2). eapply Hone; [exact Hq|exact Hps|done..| |]; congruence.
  - intros id' ps' Hl Hd Hne. by apply Hold.
Qed.

(** Registrations change by registering, disabling and retiring; other
    requests keep the rows or remove some. *)
Inductive sub_step : Store -> Store -> Prop :=
| ss_create newID now a dev provider endpoint pk secret mode s :
    sub_step s (CreatePushSubscriptionWithMode newID now a dev provider endpoint pk secret mode s).2
| ss_disable now id a s : sub_step s (DisablePushSubscription now id a s).2
| ss_disable_target now t s : sub_step s (DisablePushTarget now t s).2
| ss_retire now job s : sub_step s (RetirePushWakeSubscription now job s).2
| ss_elsewhere s s' : s'.(db).(push).(push_subscriptions) ⊆ s.(db).(push).(push_subscriptions) -> sub_step s s'.

(** Disabling more rows keeps the invariant. *)
Lemma one_active_sub d d' :
  (forall id ps, d'.(push).(push_subscriptions) !! id = Some ps -> ps.(ps_disabled_at) = None ->
     d.(push).(push_subscriptions) !! id = Some ps) ->
  one_active d -> one_active d'.
Proof. intros Hs Hone id1 id2 p1 p2 H1 H2 D1 D2. apply (Hone _ _ p1 p2 (Hs _ _ H1 D1) (Hs _ _ H2 D2) D1 D2). Qed.

Lemma alter_disables (m : gmap string PushSubscriptionRow) f id id' ps :
  (forall q, f q = q \/ (f q).(ps_disabled_at) <> None) ->
  alter f id m !! id' = Some ps -> ps.(ps_disabled_at) = None -> m !! id' = Some ps.
Proof.
  intros Hf Hl Hd. destruct (decide (id' = id)) as [->|Hne]; [|by rewrite lookup_alter_ne in Hl].
  rewrite lookup_alter_eq in Hl. destruct (m !! id) as [q|]; [|discriminate Hl]. injection Hl as <-.
  by destruct (Hf q) as [->|].
Qed.

Lemma sub_step_one_active s s' : sub_step s s' -> one_active s.(db) -> one_active s'.(db).
Proof.
  intros Hstep Hone. destruct Hstep as [nid now a dev p e pk se mo s|now id a s|now t s|now job s|s s' Hsub].
  - destruct (CreatePushSubscriptionWithMode _ _ _ _ _ _ _ _ _ s) as [[id|e'] s'] eqn:E; simpl.
    + destruct (create_sole _ _ _ _ _ _ _ _ _ _ _ _ E Hone) as (Hid & Hsole & Hother).
      intros id1 id2 p1 p2 H1 H2 D1 D2 Ea Ed.
      destruct (decide (id1 = id)) as [->|N1], (decide (id2 = id)) as [->|N2]; [done|symmetry|..].
      * eapply Hsole; [exact H2|]. rewrite Hid in H1. injection H1 as <-. simpl in *. by apply in_scope_true.
      * eapply Hsole; [exact H1|]. rewrite Hid in H2. injection H2 as <-. simpl in *. by apply in_scope_true.
      * eapply Hone; eauto.
    + assert (rolls_back (CreatePushSubscriptionWithMode nid now a dev p e pk se mo)) as Hrb
        by (unfold CreatePushSubscriptionWithMode; tx_auto).
      by rewrite (Hrb _ _ _ E).
  - unfold DisablePushSubscription, mbind, Tx_bind, read, guard_tx. destruct (match _ with Some _ => _ | None => _ end); [|done].
    eapply one_active_sub, Hone. simpl. intros id' ps. apply alter_disables. intros q. by right.
  - eapply one_active_sub, Hone. simpl. intros id' ps. apply alter_disables. intros q.
    destruct (same_target _ _ _ _ _); [by right|by left].
  - unfold RetirePushWakeSubscription, transaction, mbind, Tx_bind, read. destruct (match _ with Some _ => _ | None => _ end); [|done].
    eapply one_active_sub, Hone. simpl. intros id' ps. apply alter_disables. intros q. by right.
  - eapply one_active_sub, Hone. intros id ps H _. by eapply lookup_weaken.
Qed.

Lemma sub_steps_one_active s s' : rtc sub_step s s' -> one_active s.(db) -> one_active s'.(db).
Proof. induction 1; eauto using sub_step_one_active. Qed.

(** A device has one active push registration.  In every reachable state
    no account has two for the same device; registering replaces whatever the
    device had, provider changes included; and the late failure of a
    registration with other credentials neither disables the new one nor
    drops any queued wake. *)
Theorem registering_replaces s0 s newID now a deviceID provider endpoint pk secret mode id s' :
  s0.(db).(push).(push_subscriptions) = ∅ -> rtc sub_step s0 s ->
  CreatePushSubscriptionWithMode newID now a deviceID provider endpoint pk secret mode s = (Ok id, s') ->
  one_active s'.(db) /\
  (forall id' ps, s'.(db).(push).(push_subscriptions) !! id' = Some ps -> in_scope a (nullableEmptyString deviceID) ps = true ->
     id' = id /\ ps = mkPushSubscriptionRow a (nullableEmptyString deviceID) provider None mode endpoint pk secret now) /\
  (forall job t, job.(pj_SubscriptionID) = id ->
     (job.(pj_Provider), job.(pj_Endpoint), job.(pj_PublicKey), job.(pj_AuthSecret)) <> (provider, endpoint, pk, secret) ->
     let s2 := (RetirePushWakeSubscription t job s').2 in
     s2.(db).(push).(push_subscriptions) = s'.(db).(push).(push_subscriptions) /\
     dom s2.(db).(push).(push_wake_jobs) = dom s'.(db).(push).(push_wake_jobs)).
Proof.
  intros H0 Hr Hc.
  assert (one_active s.(db)) as Hone
    by (apply (sub_steps_one_active _ _ Hr); intros id1 id2 p1 p2; by rewrite H0, lookup_empty).
  destruct (create_sole _ _ _ _ _ _ _ _ _ _ _ _ Hc Hone) as (Hid & Hsole & _).
  split_and!.
  - replace s' with (CreatePushSubscriptionWithMode newID now a deviceID provider endpoint pk secret mode s).2 by by rewrite Hc.
    eapply sub_step_one_active, Hone. apply ss_create.
  - intros id' ps Hl Hs. pose proof (Hsole _ _ Hl Hs) as ->. rewrite Hid in Hl. by injection Hl as <-.
  - intros job t Hj Hne. unfold RetirePushWakeSubscription, transaction, mbind, Tx_bind, read. rewrite Hj, Hid.
    destruct (same_target _ _ _ _ _) eqn:Et; [|split; [done|simpl; apply dom_alter_L]].
    unfold same_target in Et. simpl in Et. rewrite !andb_true_iff, !str_eqb_true in Et. destruct Et as [[[-> ->] ->] ->]. done.
Qed.

(** ** A concrete queue: carol reads on one device and alice writes. *)

Definition ex_registered : result store_error string * Store :=
  CreatePushSubscriptionWithMode "push_1" 15 ex_carol "" "webpush" "https://a" "k" "s" PushNotificationLegacy ex_rooms.
Definition ex_waiting : Store := (saveMessageEnvelope "msg_1" 20 ex_draft true true ex_registered.2).2.
Definition ex_wake : wake_key := (4, ex_carol, "push_1"%string).

(** No job of [s] is leased under [token]; decidable for a concrete queue. *)
Definition token_free (s : Store) (token : string) : bool :=
  forallb (fun kw => negb (bool_decide (kw.2.(pw_lease_token) = Some token))) (map_to_list s.(db).(push).(push_wake_jobs)).

Lemma token_free_spec s token :
  token_free s token = true -> forall k w, s.(db).(push).(push_wake_jobs) !! k = Some w -> w.(pw_lease_token) <> Some token.
Proof.
  unfold token_free. rewrite forallb_forall. intros H k w Hw.
  specialize (H (k, w)). rewrite <- list_elem_of_In, elem_of_map_to_list in H. specialize (H Hw). by bool_to_prop.
Qed.

Lemma claim_takes_due_jobs_witness :
  claim_keys ex_waiting.(db) "webpush" 10 21 = [ex_wake] /\
  exists jobs n s', ClaimPushWakeJobs "wake_1" "webpush" 10 21 (30 * second) ex_waiting = (Ok (jobs, n), s') /\
    map job_key jobs ≡ₚ [ex_wake].
Proof.
  assert (claim_keys ex_waiting.(db) "webpush" 10 21 = [ex_wake]) as Hk by (vm_compute; reflexivity).
  split; [exact Hk|].
  assert (token_free ex_waiting "wake_1" = true) as Hf by (vm_compute; reflexivity).
  destruct (claim_takes_due_jobs "wake_1" "webpush" 10 21 (30 * second) ex_waiting (token_free_spec _ _ Hf))
    as (jobs & n & s' & Hrun & Hp & _).
  exists jobs, n, s'. split; [exact Hrun|]. rewrite <- Hk. exact Hp.
Defined.



Lemma ex_reregister :
  CreatePushSubscriptionWithMode "push_2" 16 ex_carol "" "webpush" "https://b" "k" "s" PushNotificationLegacy ex_registered.2 =
  (Ok "push_1"%string, (CreatePushSubscriptionWithMode "push_2" 16 ex_carol "" "webpush" "https://b" "k" "s" PushNotificationLegacy ex_registered.2).2).
Proof.
  assert ((CreatePushSubscriptionWithMode "push_2" 16 ex_carol "" "webpush" "https://b" "k" "s" PushNotificationLegacy ex_registered.2).1
          = Ok "push_1"%string) as H by (vm_compute; reflexivity).
  revert H. generalize (CreatePushSubscriptionWithMode "push_2" 16 ex_carol "" "webpush" "https://b" "k" "s" PushNotificationLegacy ex_registered.2).
  intros [r s]. simpl. by intros ->.
Qed.

Lemma registering_replaces_witness :
  exists s', CreatePushSubscriptionWithMode "push_2" 16 ex_carol "" "webpush" "https://b" "k" "s" PushNotificationLegacy ex_registered.2 = (Ok "push_1"%string, s') /\
    one_active s'.(db) /\
    (RetirePushWakeSubscription 17 (mkPushWakeJob "" 4 ex_carol "push_1" "webpush" "https://a" "k" "s" 1 "wake_1") s').2.(db).(push).(push_subscriptions)
      = s'.(db).(push).(push_subscriptions).
Proof.
  eexists. split; [exact ex_reregister|].
  destruct (registering_replaces ex_rooms ex_registered.2 _ _ _ _ _ _ _ _ _ _ _ (ltac:(vm_compute; reflexivity))
    (rtc_once _ _ (ss_create _ _ _ _ _ _ _ _ _ _)) ex_reregister) as (Hone & _ & Hlate).
  split; [exact Hone|]. apply (Hlate (mkPushWakeJob "" 4 ex_carol "push_1" "webpush" "https://a" "k" "s" 1 "wake_1") 17); [reflexivity|discriminate].
Defined.
