(* ===== verification/Receipts.v ===== *)
(** * Reactions, read receipts and delivery receipts

    The reaction and read-cursor part of [internal/storage/content_store.go]
    and [internal/storage/receipt_store.go].  The clock is an argument (two
    readings where the code reads it twice), and so is the order in which Go
    ranges over a map. *)

From S2P Require Import Prelude GoStrings GoJson Domain Admission Database Conversations Memberships MembershipRules Messages Retention MessageEvents Sync.
From stdpp Require Import base numbers list strings gmap fin_maps sorting.
From Stdlib Require Import ZArith ZifyBool Lia.
Open Scope Z_scope.

(** ** Reactions *)

Record Reaction := mkReaction {
  rx_ID : string; rx_MessageID : string; rx_AccountID : string; rx_ReactionCiphertext : string; rx_CreatedAt : Z }.

(** [SELECT conversation_id FROM message_envelopes WHERE id = ? AND
    (expires_at IS NULL OR expires_at > ?)] *)
Definition live_conversation (d : DB) (now : Z) (messageID : string) : option string :=
  match d.(content).(messages) !! messageID with
  | Some m => if unexpired now m then Some m.(m_ConversationID) else None
  | None => None
  end.

Definition reaction_payload (messageID accountID : string) : Payload :=
  [("message_id", VStr messageID); ("account_id", VStr accountID)]%string.

(** [INSERT ... ON CONFLICT(message_id, account_id) DO UPDATE]: the row keeps
    its id. *)
Definition upsert_reaction (newID messageID accountID ciphertext : string) (now : Z) : Tx unit :=
  d ← read (fun d => d);
  let taken := existsb (fun r => r.(re_id) =s? newID) (map_to_list d.(content).(reactions)).*2 in
  guard_tx (negb taken && exists_in d.(rooms).(accounts) accountID) ErrConstraint ≫= fun _ =>
  on_content (upd_reactions (fun m =>
    let id := match m !! (messageID, accountID) with Some r => r.(re_id) | None => newID end in
    <[(messageID, accountID) := mkReactionRow id ciphertext now]> m)).

Definition createReaction (newID : string) (checkedAt now : Z) (messageID accountID reactionCiphertext eventType : string)
    : Tx (string * Z) :=
  transaction (
    d ← read (fun d => d);
    conversationID ← require (live_conversation d checkedAt messageID) ErrNotFound;
    guard_tx (is_member d conversationID accountID) ErrNotMember ≫= fun _ =>
    upsert_reaction newID messageID accountID reactionCiphertext now ≫= fun _ =>
    eventID ← insertOptionalSyncEvent eventType None conversationID (reaction_payload messageID accountID) now;
    mret (conversationID, eventID)).

Definition CreateReaction (newID : string) (checkedAt now : Z) (messageID accountID reactionCiphertext : string) : Tx unit :=
  createReaction newID checkedAt now messageID accountID reactionCiphertext "" ≫= fun _ => mret tt.

Definition CreateReactionWithSyncEvent (newID : string) (checkedAt now : Z)
    (messageID accountID reactionCiphertext : string) : Tx (string * Z) :=
  createReaction newID checkedAt now messageID accountID reactionCiphertext "reaction.created".

Definition ListReactions (now : Z) (messageID accountID : string) : Tx (list Reaction) :=
  message ← MessageByID now messageID;
  member ← IsConversationMember message.(m_ConversationID) accountID;
  guard_tx member ErrNotMember ≫= fun _ =>
  read (fun d =>
    order_by (fun a b => stamp_le (a.(rx_CreatedAt), a.(rx_ID)) (b.(rx_CreatedAt), b.(rx_ID)))
      (omap (fun '((mid, acct), r) =>
               if (mid =s? messageID) && negb (blocked_by d accountID acct)
               then Some (mkReaction r.(re_id) mid acct r.(re_ciphertext) r.(re_created_at)) else None)
         (map_to_list d.(content).(reactions)))).

Definition deleteReaction (checkedAt now : Z) (messageID accountID eventType : string) : Tx (string * Z) :=
  transaction (
    d ← read (fun d => d);
    conversationID ← require (live_conversation d checkedAt messageID) ErrNotFound;
    guard_tx (bool_decide (is_Some (d.(content).(reactions) !! (messageID, accountID)))) ErrNotFound ≫= fun _ =>
    on_content (upd_reactions (delete (messageID, accountID))) ≫= fun _ =>
    eventID ← insertOptionalSyncEvent eventType None conversationID (reaction_payload messageID accountID) now;
    mret (conversationID, eventID)).

Definition DeleteReaction (checkedAt now : Z) (messageID accountID : string) : Tx string :=
  r ← deleteReaction checkedAt now messageID accountID "";
  mret r.1.

Definition DeleteReactionWithSyncEvent (checkedAt now : Z) (messageID accountID : string) : Tx (string * Z) :=
  deleteReaction checkedAt now messageID accountID "reaction.deleted".

(** ** Read cursors *)

(** [(SELECT created_at FROM message_envelopes WHERE id = ?)], NULL when the
    message is gone. *)
Definition created_at (d : DB) (messageID : string) : option Z := m_CreatedAt <$> d.(content).(messages) !! messageID.

(** SQL comparison: NULL is not true. *)
Definition sql_le (a b : option Z) : bool :=
  match a, b with Some a, Some b => a <=? b | _, _ => false end.
Definition sql_lt (a b : option Z) : bool :=
  match a, b with Some a, Some b => a <? b | _, _ => false end.

(** The WHERE clause of the upsert. *)
Definition read_advances (d : DB) (row : ReadReceiptRow) (messageID : string) : bool :=
  match row.(rr_message_id) with
  | None => true
  | Some cur => negb (messageID =s? cur) && sql_le (created_at d cur) (created_at d messageID)
  end.

Definition upsert_read (d : DB) (messageID : string) (now : Z) (row : option ReadReceiptRow) : ReadReceiptRow :=
  match row with
  | None => mkReadReceiptRow (Some messageID) None now
  | Some r => if read_advances d r messageID then mkReadReceiptRow (Some messageID) r.(rr_shared_message_id) now else r
  end.

(** [(created_at(?3), ?3) > (created_at(shared), shared)] *)
Definition later (d : DB) (messageID shared : string) : bool :=
  match created_at d messageID, created_at d shared with
  | Some t, Some u => stamp_lt (u, shared) (t, messageID)
  | _, _ => false
  end.

Definition shared_moves (d : DB) (row : ReadReceiptRow) (messageID : string) : bool :=
  match row.(rr_shared_message_id) with
  | None => match row.(rr_message_id) with None => true | Some cur => cur =s? messageID end
  | Some shared => negb (shared =s? messageID) && later d messageID shared
  end.

Definition put_read (accountID conversationID : string) (row : ReadReceiptRow) : Tx unit :=
  on_content (upd_read_receipts (insert (accountID, conversationID) row)).

Definition markRead (now : Z) (conversationID accountID messageID eventType : string) (private : bool) : Tx Z :=
  transaction (
    d ← read (fun d => d);
    guard_tx (is_member d conversationID accountID) ErrNotMember ≫= fun _ =>
    private ← (if private then mret true
               else a ← require (d.(rooms).(accounts) !! accountID) ErrNoRows;
                    mret (negb a.(acc_send_read_receipts)));
    guard_tx (bool_decide (live_conversation d now messageID = Some conversationID)) ErrNotFound ≫= fun _ =>
    let row := upsert_read d messageID now (d.(content).(read_receipts) !! (accountID, conversationID)) in
    put_read accountID conversationID row ≫= fun _ =>
    if negb private && shared_moves d row messageID then
      put_read accountID conversationID (mkReadReceiptRow row.(rr_message_id) (Some messageID) row.(rr_read_at)) ≫= fun _ =>
      insertOptionalSyncEvent eventType None conversationID
        [("account_id", VStr accountID); ("message_id", VStr messageID)]%string now
    else mret 0).

Definition MarkRead (now : Z) (conversationID accountID messageID : string) : Tx unit :=
  markRead now conversationID accountID messageID "" false ≫= fun _ => mret tt.
Definition MarkReadPrivate (now : Z) (conversationID accountID messageID : string) : Tx unit :=
  markRead now conversationID accountID messageID "" true ≫= fun _ => mret tt.
Definition MarkReadWithSyncEvent (now : Z) (conversationID accountID messageID : string) : Tx Z :=
  markRead now conversationID accountID messageID "read_receipt.updated" false.

Definition ReadReceiptsEnabled (accountID : string) : Tx bool :=
  d ← read (fun d => d);
  a ← require (d.(rooms).(accounts) !! accountID) ErrNoRows;
  mret a.(acc_send_read_receipts).

Definition SetReadReceiptsEnabled (accountID : string) (enabled : bool) : Tx unit :=
  on_rooms (upd_accounts (alter (fun a =>
    mkAccountRow a.(acc_username) a.(acc_role) a.(acc_status) a.(acc_deleted_at) enabled
      a.(acc_password_hash) a.(acc_email) a.(acc_created_at)) accountID)).

(** ** Delivery cursors *)

Definition ReceiptMaxMembers : Z := 20.

Definition receiptsApplyTo (d : DB) (conversationID : string) : bool :=
  match d.(rooms).(conversations) !! conversationID with
  | Some cv => (cv.(cv_kind) =s? "dm") || (cv.(cv_kind) =s? "group")
  | None => false
  end && (len (rows_of d.(rooms).(conv_members) conversationID) <=? ReceiptMaxMembers).

Definition ReceiptsApply (conversationID : string) : Tx bool := read (fun d => receiptsApplyTo d conversationID).

Record DeliveryAdvance := mkDeliveryAdvance { da_ConversationID : string; da_MessageID : string; da_CreatedAt : Z }.

(** The newest created message per conversation of a page of events that the
    account did not send; an envelope that was redacted decodes to zero
    values. *)
Definition latest_step (accountID : string) (latest : gmap string (string * Z)) (event : SyncEvent) : gmap string (string * Z) :=
  if negb (event.(ev_Type) =s? "message.envelope.created") || (event.(ev_ConversationID) =s? "") then latest
  else
    let messageID := default ""%string (p_str event.(ev_Payload) "message_id") in
    let '(sender, created) := match p_envelope event.(ev_Payload) with
                              | Some e => (e.(m_SenderAccountID), e.(m_CreatedAt))
                              | None => (""%string, 0)
                              end in
    if (messageID =s? "") || (sender =s? accountID) then latest
    else match latest !! event.(ev_ConversationID) with
         | Some cur => if time_after created cur.2 then <[event.(ev_ConversationID) := (messageID, created)]> latest else latest
         | None => <[event.(ev_ConversationID) := (messageID, created)]> latest
         end.

(** The candidate query. *)
Definition delivery_moves (d : DB) (accountID conversationID messageID : string) : bool :=
  receiptsApplyTo d conversationID &&
  match d.(content).(messages) !! messageID with
  | Some m => m.(m_ConversationID) =s? conversationID
  | None => false
  end &&
  negb match d.(content).(delivery_receipts) !! (accountID, conversationID) with
       | Some cur => sql_le (created_at d messageID) (created_at d cur)
       | None => false
       end.

(** [order] is the order in which the keys of [latest] are visited. *)
Definition DeliveryCandidates (order : gmap string (string * Z) -> list string) (d : DB) (accountID : string)
    (events : list SyncEvent) : list DeliveryAdvance :=
  let latest := foldl (latest_step accountID) ∅ events in
  omap (fun c => match latest !! c with
                 | Some (mid, created) => if delivery_moves d accountID c mid then Some (mkDeliveryAdvance c mid created) else None
                 | None => None
                 end) (order latest).

(** The upsert of one advance and whether it moved the cursor. *)
Definition delivery_applies (d : DB) (accountID : string) (a : DeliveryAdvance) : bool :=
  match d.(content).(messages) !! a.(da_MessageID) with
  | Some m => m.(m_ConversationID) =s? a.(da_ConversationID)
  | None => false
  end && is_member d a.(da_ConversationID) accountID && receiptsApplyTo d a.(da_ConversationID) &&
  match d.(content).(delivery_receipts) !! (accountID, a.(da_ConversationID)) with
  | None => true
  | Some cur => sql_lt (created_at d cur) (created_at d a.(da_MessageID))
  end.

Definition apply_one (accountID : string) (a : DeliveryAdvance) : Tx bool :=
  d ← read (fun d => d);
  if delivery_applies d accountID a
  then on_content (upd_delivery_receipts (insert (accountID, a.(da_ConversationID)) a.(da_MessageID))) ≫= fun _ => mret true
  else mret false.

Fixpoint apply_advances (accountID : string) (advances : list DeliveryAdvance) : Tx (list DeliveryAdvance) :=
  match advances with
  | [] => mret []
  | a :: advances =>
      apply_one accountID a ≫= fun moves : bool =>
      moved ← apply_advances accountID advances;
      mret (if moves then a :: moved else moved)
  end.

Definition ApplyDeliveries (accountID : string) (advances : list DeliveryAdvance) : Tx (list DeliveryAdvance) :=
  match advances with
  | [] => mret []
  | _ => transaction (apply_advances accountID advances)
  end.

(** ** Listing receipts *)

Record MemberReceipt := mkMemberReceipt {
  mr_AccountID : string; mr_MemberSince : Z; mr_DeliveredThrough : option Z; mr_ReadThrough : option Z }.

(** Members other than the account that are in no block with it. *)
Definition receipt_members (d : DB) (conversationID accountID : string) : list (string * MemberRow) :=
  order_by (fun a b => str_le a.1 b.1)
    (List.filter (fun '(a, _) => negb (a =s? accountID) && negb (blocked_either d a accountID))
       (rows_of d.(rooms).(conv_members) conversationID)).

Definition ReceiptRecipients (d : DB) (conversationID accountID : string) : list string :=
  (receipt_members d conversationID accountID).*1.

Definition delivered_through (d : DB) (accountID conversationID : string) : option Z :=
  match d.(content).(delivery_receipts) !! (accountID, conversationID) with
  | Some mid => created_at d mid
  | None => None
  end.
Definition read_through (d : DB) (accountID conversationID : string) : option Z :=
  match d.(content).(read_receipts) !! (accountID, conversationID) with
  | Some (mkReadReceiptRow _ (Some shared) _) => created_at d shared
  | _ => None
  end.

Definition member_receipt (d : DB) (conversationID : string) (m : string * MemberRow) : MemberReceipt :=
  let delivered := delivered_through d m.1 conversationID in
  let readThrough := read_through d m.1 conversationID in
  mkMemberReceipt m.1 m.2.(mb_created_at)
    (match readThrough with
     | None => delivered
     | Some t => match delivered with
                 | Some u => if time_after t u then Some t else Some u
                 | None => Some t
                 end
     end) readThrough.

Definition ConversationReceipts (conversationID accountID : string) : Tx (list MemberReceipt) :=
  member ← IsConversationMember conversationID accountID;
  guard_tx member ErrNotMember ≫= fun _ =>
  applies ← ReceiptsApply conversationID;
  if negb applies then mret []
  else read (fun d => map (member_receipt d conversationID) (receipt_members d conversationID accountID)).

(** ** Lemmas: cursors *)

Lemma stamp_lt_spec a b : stamp_lt a b = true <-> stamp_le a b = true /\ a <> b.
Proof. unfold stamp_lt. by rewrite andb_true_iff, negb_true_iff, bool_decide_eq_false. Qed.

(** The read is not shared: it is private or the account keeps receipts off. *)
Definition receipts_off (d : DB) (a : string) (private : bool) : bool :=
  private || match d.(rooms).(accounts) !! a with Some acct => negb acct.(acc_send_read_receipts) | None => false end.

(** The row [markRead] leaves, and whether the shared cursor moved. *)
Definition read_row (d : DB) (now : Z) (c a mid : string) : ReadReceiptRow :=
  upsert_read d mid now (d.(content).(read_receipts) !! (a, c)).
Definition announces (d : DB) (now : Z) (c a mid : string) (private : bool) : bool :=
  negb (receipts_off d a private) && shared_moves d (read_row d now c a mid) mid.
Definition marked_row (d : DB) (now : Z) (c a mid : string) (private : bool) : ReadReceiptRow :=
  let row := read_row d now c a mid in
  if announces d now c a mid private then mkReadReceiptRow row.(rr_message_id) (Some mid) row.(rr_read_at) else row.

(** What a successful [markRead] stores: the account's row and, when the
    shared cursor moved, one event. *)
Lemma markRead_ok now c a mid ty private s ev s' :
  markRead now c a mid ty private s = (Ok ev, s') ->
  is_member s.(db) c a = true /\ live_conversation s.(db) now mid = Some c /\
  s'.(db).(content) = upd_read_receipts (insert (a, c) (marked_row s.(db) now c a mid private)) s.(db).(content) /\
  s'.(db).(rooms) = s.(db).(rooms) /\
  (if announces s.(db) now c a mid private && negb (ty =s? "")
   then ev = s.(db).(events).(sync_seq) + 1 /\
        s'.(db).(events).(sync_events) = <[ev := mkSyncEventRow ty None (nullableEmptyString c) None
          [("account_id", VStr a); ("message_id", VStr mid)]%string now]> s.(db).(events).(sync_events)
   else ev = 0 /\ s'.(db).(events) = s.(db).(events)).
Proof.
  unfold markRead, put_read. intros H. run H. bool_to_prop. split; [done|]. split; [done|].
  assert (a1 = receipts_off s.(db) a private /\ s0 = s) as [-> ->].
  { match goal with Hr : (if private then _ else _) s = _ |- _ => rename Hr into Hp end. unfold receipts_off.
    destruct private; run Hp; [done|]. match goal with Ha : accounts _ !! a = _ |- _ => by rewrite Ha end. }
  fold (read_row s.(db) now c a mid) in H. fold (announces s.(db) now c a mid private) in H. unfold marked_row.
  destruct (announces s.(db) now c a mid private); simpl.
  - run H. unfold insertOptionalSyncEvent, insertSyncEvent in H. destruct (ty =s? ""); run H.
    + split; [|done]. unfold upd_read_receipts. simpl. by rewrite insert_insert_eq.
    + apply insert_event_ok in H as [-> ->]. split; [|done]. unfold upd_read_receipts. simpl. by rewrite insert_insert_eq.
  - run H. done.
Qed.

Definition own_row (s : Store) (a c : string) : ReadReceiptRow :=
  default (mkReadReceiptRow None None 0) (s.(db).(content).(read_receipts) !! (a, c)).

Lemma read_row_shared d now c a mid :
  rr_shared_message_id (read_row d now c a mid) =
  rr_shared_message_id (default (mkReadReceiptRow None None 0) (d.(content).(read_receipts) !! (a, c))).
Proof. unfold read_row, upsert_read. destruct (_ !! (a, c)) as [r|]; [|done]. simpl. by destruct (read_advances d r mid). Qed.

(** The read cursor advances to [mid] or stays. *)
Lemma read_row_message d now c a mid :
  let r := default (mkReadReceiptRow None None 0) (d.(content).(read_receipts) !! (a, c)) in
  (rr_message_id (read_row d now c a mid) = Some mid /\ read_advances d r mid = true) \/
  rr_message_id (read_row d now c a mid) = rr_message_id r.
Proof.
  unfold read_row, upsert_read. destruct (_ !! (a, c)) as [r|]; simpl; [|by left].
  destruct (read_advances d r mid) eqn:E; [by left|by right].
Qed.

(** The shared cursor of the stored row. *)
Lemma marked_shared d now c a mid private :
  let sh := rr_shared_message_id (default (mkReadReceiptRow None None 0) (d.(content).(read_receipts) !! (a, c))) in
  if announces d now c a mid private
  then rr_shared_message_id (marked_row d now c a mid private) = Some mid /\ receipts_off d a private = false /\
       (sh = None \/ exists u, sh = Some u /\ u <> mid /\ later d mid u = true)
  else rr_shared_message_id (marked_row d now c a mid private) = sh.
Proof.
  unfold marked_row. destruct (announces d now c a mid private) eqn:E; simpl; [|apply read_row_shared].
  unfold announces in E. apply andb_prop in E as [Eo Em]. apply negb_true_iff in Eo. split; [done|]. split; [done|].
  unfold shared_moves in Em. rewrite read_row_shared in Em.
  destruct (rr_shared_message_id _) as [u|]; [right|by left]. exists u. bool_to_prop. split; [done|]. split; [|done].
  by apply str_eqb_false.
Qed.

Lemma marked_message d now c a mid private :
  rr_message_id (marked_row d now c a mid private) = rr_message_id (read_row d now c a mid).
Proof. unfold marked_row. by destruct (announces d now c a mid private). Qed.

(** Marking a message read touches the caller's own row only, and its
    cursors never move back: the read cursor moves to a message at least as
    new as the one it was at, the cursor other members see moves strictly
    forward in (time, id) order.  The read is announced exactly when that
    shared cursor moved, and an account that keeps receipts off, or a private
    read, neither moves it nor announces anything. *)
Theorem reads_move_forward now c a mid ty private s ev s' :
  markRead now c a mid ty private s = (Ok ev, s') ->
  let r := own_row s a c in let r' := own_row s' a c in
  (forall k, k <> (a, c) -> s'.(db).(content).(read_receipts) !! k = s.(db).(content).(read_receipts) !! k) /\
  (forall cur, rr_message_id r = Some cur -> rr_message_id r' = Some cur \/
     (rr_message_id r' = Some mid /\ sql_le (created_at s.(db) cur) (created_at s.(db) mid) = true)) /\
  (forall sh, rr_shared_message_id r = Some sh -> rr_shared_message_id r' = Some sh \/
     (rr_shared_message_id r' = Some mid /\ later s.(db) mid sh = true)) /\
  (receipts_off s.(db) a private = true -> rr_shared_message_id r' = rr_shared_message_id r) /\
  (if decide (rr_shared_message_id r' = rr_shared_message_id r) then ev = 0 /\ s'.(db).(events) = s.(db).(events)
   else ty <> ""%string ->
     ev = s.(db).(events).(sync_seq) + 1 /\ exists e, s'.(db).(events).(sync_events) !! ev = Some e /\ se_type e = ty /\
       p_str e.(se_payload) "account_id" = Some a /\ p_str e.(se_payload) "message_id" = Some mid).
Proof.
  intros H. apply markRead_ok in H as (_ & _ & Hc & _ & Hev). unfold own_row. rewrite Hc.
  pose proof (marked_shared s.(db) now c a mid private) as Hsh. pose proof (read_row_message s.(db) now c a mid) as Hm.
  set (r := default _ _) in *.
  change (read_receipts (upd_read_receipts ?f ?x)) with (f (read_receipts x)). rewrite lookup_insert_eq.
  cbn [default from_option id] in *. rewrite marked_message. split_and!.
  - intros k Hk. by rewrite lookup_insert_ne.
  - intros cur Hcur. destruct Hm as [[-> Ha]| ->]; [right; split; [done|]|by left].
    unfold read_advances in Ha. rewrite Hcur in Ha. by bool_to_prop.
  - intros sh E. destruct (announces _ _ _ _ _ _); [|left; congruence].
    destruct Hsh as (-> & _ & [Hn|(u & Hu & _ & Hl)]); [congruence|right]. rewrite E in Hu. by injection Hu as <-.
  - intros Ho. destruct (announces _ _ _ _ _ _); [|done]. destruct Hsh as (_ & Ho' & _). congruence.
  - destruct (announces _ _ _ _ _ _).
    + destruct Hsh as (-> & _ & Hcase). rewrite decide_False.
      * intros Hty. simpl in Hev. rewrite (proj2 (str_eqb_false _ _) Hty) in Hev. destruct Hev as [-> ->]. split; [done|].
        eexists. split; [apply lookup_insert_eq|done].
      * destruct Hcase as [->|(u & -> & Hne & _)]; congruence.
    + rewrite decide_True by done. exact Hev.
Qed.

Lemma conversation_receipts_frame s s' :
  s'.(db).(rooms) = s.(db).(rooms) -> s'.(db).(content).(messages) = s.(db).(content).(messages) ->
  s'.(db).(content).(delivery_receipts) = s.(db).(content).(delivery_receipts) ->
  (forall a c, read_through s'.(db) a c = read_through s.(db) a c) ->
  forall c a, (ConversationReceipts c a s').1 = (ConversationReceipts c a s).1.
Proof.
  intros Hr Hm Hd Hread c a. unfold ConversationReceipts, IsConversationMember, ReceiptsApply, mbind, Tx_bind, read, guard_tx.
  unfold is_member, receiptsApplyTo. rewrite Hr. destruct (bool_decide _); [|done].
  unfold mret, Tx_ret. rewrite Hr. destruct (negb _); [done|]. simpl. f_equal.
  unfold receipt_members, blocked_either, blocked_by. rewrite Hr. apply map_ext. intros [b row].
  unfold member_receipt, delivered_through, created_at. simpl. by rewrite Hread, Hd, Hm.
Qed.

(** A read that is not shared is invisible: when the account keeps
    receipts off or the read is private, no member of any conversation is
    listed different receipts afterwards, and no event is logged. *)
Theorem unshared_reads_invisible now c a mid ty private s ev s' :
  markRead now c a mid ty private s = (Ok ev, s') -> receipts_off s.(db) a private = true ->
  (forall c' b, (ConversationReceipts c' b s').1 = (ConversationReceipts c' b s).1) /\ s'.(db).(events) = s.(db).(events).
Proof.
  intros H Ho. apply markRead_ok in H as (_ & _ & Hc & Hr & Hev).
  pose proof (marked_shared s.(db) now c a mid private) as Hsh.
  assert (announces s.(db) now c a mid private = false) as Hn by (unfold announces; by rewrite Ho).
  rewrite Hn in Hsh, Hev. split; [|apply Hev].
  apply conversation_receipts_frame; [done|by rewrite Hc..|]. intros b c'. unfold read_through, created_at. rewrite Hc. simpl.
  destruct (decide ((b, c') = (a, c))) as [[= -> ->]|Hne]; [|by rewrite lookup_insert_ne].
  rewrite lookup_insert_eq. destruct (marked_row _ _ _ _ _ _) as [m sh t]. simpl in Hsh. subst sh.
  destruct (read_receipts _ !! (a, c)) as [[m' [sh'|] t']|]; done.
Qed.

(** ** Lemmas: deliveries *)

Definition cursors_exist (d : DB) : Prop :=
  forall k mid, d.(content).(delivery_receipts) !! k = Some mid -> is_Some (d.(content).(messages) !! mid).

Lemma applies_iff_moves d a adv :
  cursors_exist d ->
  delivery_applies d a adv = is_member d adv.(da_ConversationID) a && delivery_moves d a adv.(da_ConversationID) adv.(da_MessageID).
Proof.
  intros Hfk. unfold delivery_applies, delivery_moves. destruct (receiptsApplyTo d _); [|by rewrite !andb_false_r].
  destruct (is_member d _ a); [|by rewrite andb_false_r]. rewrite !andb_true_r. simpl.
  destruct (messages (content d) !! da_MessageID adv) as [m|] eqn:Em; [|done]. f_equal.
  destruct (delivery_receipts (content d) !! _) as [cur|] eqn:Ec; [|done].
  destruct (Hfk _ _ Ec) as [mc Hmc]. unfold created_at. rewrite Em, Hmc. simpl. lia.
Qed.

(** Applying advances of distinct conversations. *)
Lemma apply_advances_run a l s :
  NoDup (map da_ConversationID l) ->
  exists s', apply_advances a l s = (Ok (List.filter (delivery_applies s.(db) a) l), s') /\
    s'.(db).(rooms) = s.(db).(rooms) /\ s'.(db).(content).(messages) = s.(db).(content).(messages) /\
    (forall adv, adv ∈ l -> delivery_applies s.(db) a adv = true ->
       s'.(db).(content).(delivery_receipts) !! (a, adv.(da_ConversationID)) = Some adv.(da_MessageID)) /\
    (forall k, (forall adv, adv ∈ l -> delivery_applies s.(db) a adv = true -> k <> (a, adv.(da_ConversationID))) ->
       s'.(db).(content).(delivery_receipts) !! k = s.(db).(content).(delivery_receipts) !! k).
Proof.
  revert s. induction l as [|adv l IH]; intros s Hnd.
  { exists s. split_and!; [done..| |done]. intros ? H. by apply not_elem_of_nil in H. }
  simpl in Hnd. apply NoDup_cons in Hnd as [Hc Hnd]. cbn [apply_advances].
  destruct (delivery_applies s.(db) a adv) eqn:E.
  - set (s1 := with_db s (upd_content (upd_delivery_receipts (insert (a, adv.(da_ConversationID)) adv.(da_MessageID))) s.(db))).
    assert (apply_one a adv s = (Ok true, s1)) as H1 by (unfold apply_one, mbind, Tx_bind, read; by rewrite E).
    assert (forall x, x ∈ l -> delivery_applies s1.(db) a x = delivery_applies s.(db) a x) as Happ.
    { intros x Hx. unfold delivery_applies. f_equal. cbn [s1 with_db db upd_content content upd_delivery_receipts delivery_receipts].
      rewrite lookup_insert_ne; [done|]. intros [= Heq]. apply Hc. rewrite Heq. by apply list_elem_of_fmap_2. }
    destruct (IH s1 Hnd) as (s' & Hrun & Hr & Hm & Hin & Hout). exists s'. split_and!; try done.
    + assert (List.filter (delivery_applies s1.(db) a) l = List.filter (delivery_applies s.(db) a) l) as Hf
        by (apply filter_ext_in; intros x Hx; apply Happ; by apply list_elem_of_In).
      rewrite Hf in Hrun. unfold mbind, Tx_bind. rewrite H1, Hrun. cbn [List.filter]. by rewrite E.
    + intros x [->|Hx]%elem_of_cons Ha; [|apply Hin; [done|by rewrite Happ]].
      rewrite Hout; [apply lookup_insert_eq|]. intros y Hy _ [= Heq]. apply Hc. rewrite Heq. by apply list_elem_of_fmap_2.
    + intros k Hk. rewrite Hout; [apply lookup_insert_ne; intros Heq; apply (Hk adv); [by left|done..]|].
      intros x Hx Ha. apply Hk; [by right|by rewrite <- Happ].
  - assert (apply_one a adv s = (Ok false, s)) as H1 by (unfold apply_one, mbind, Tx_bind, read; by rewrite E).
    destruct (IH s Hnd) as (s' & Hrun & Hr & Hm & Hin & Hout). exists s'. split_and!; try done.
    + unfold mbind, Tx_bind. rewrite H1, Hrun. simpl. by rewrite E.
    + intros x [->|Hx]%elem_of_cons Ha; [congruence|by apply Hin].
    + intros k Hk. apply Hout. intros x Hx. apply Hk. by right.
Qed.

Section candidates.
Context (order : gmap string (string * Z) -> list string).
Context (Horder : forall m, order m ≡ₚ (map_to_list m).*1).

Lemma elem_of_candidates d a events adv :
  adv ∈ DeliveryCandidates order d a events <->
  foldl (latest_step a) ∅ events !! adv.(da_ConversationID) = Some (adv.(da_MessageID), adv.(da_CreatedAt)) /\
  delivery_moves d a adv.(da_ConversationID) adv.(da_MessageID) = true.
Proof.
  unfold DeliveryCandidates. set (latest := foldl _ _ _). rewrite list_elem_of_omap. split.
  - intros (c & _ & H). destruct (latest !! c) as [[mid t]|] eqn:E; [|done].
    destruct (delivery_moves d a c mid) eqn:Em; [|done]. by injection H as <-.
  - intros [Hl Hm]. exists adv.(da_ConversationID). rewrite Hl, Hm. split; [|by destruct adv].
    rewrite Horder. apply list_elem_of_fmap. eexists (_, _). split; [|by apply elem_of_map_to_list]. done.
Qed.

Lemma candidates_distinct d a events : NoDup (map da_ConversationID (DeliveryCandidates order d a events)).
Proof.
  unfold DeliveryCandidates. set (latest := foldl _ _ _).
  assert (NoDup (order latest)) as Hnd by (rewrite Horder; apply NoDup_fst_map_to_list).
  induction Hnd as [|c l Hc _ IH]; simpl; [constructor|].
  destruct (latest !! c) as [[mid t]|]; [|done]. destruct (delivery_moves d a c mid); [|done].
  simpl. apply NoDup_cons. split; [|done]. intros (adv & -> & Hin)%list_elem_of_fmap. apply Hc.
  apply list_elem_of_omap in Hin as (c' & Hc' & H). destruct (latest !! c') as [[mid' t']|]; [|done].
  destruct (delivery_moves d a c' mid'); [|done]. by injection H as <-.
Qed.
End candidates.

(** Serving a page of events settles its deliveries.  For whatever order
    the candidates come in, applying them moves exactly those in conversations
    the account is a member of, every cursor only forward in time, and the
    same page yields no candidate of the account's conversations again. *)
Theorem deliveries_settle (order : gmap string (string * Z) -> list string) (a : string) (events : list SyncEvent) (s : Store) :
  (forall m, order m ≡ₚ (map_to_list m).*1) -> cursors_exist s.(db) ->
  let member adv := is_member s.(db) adv.(da_ConversationID) a in
  let advs := DeliveryCandidates order s.(db) a events in
  exists s', ApplyDeliveries a advs s = (Ok (List.filter member advs), s') /\ s'.(db).(rooms) = s.(db).(rooms) /\
    (forall k cur, s.(db).(content).(delivery_receipts) !! k = Some cur ->
       s'.(db).(content).(delivery_receipts) !! k = Some cur \/
       exists mid, s'.(db).(content).(delivery_receipts) !! k = Some mid /\
         sql_lt (created_at s.(db) cur) (created_at s.(db) mid) = true) /\
    List.filter member (DeliveryCandidates order s'.(db) a events) = [].
Proof.
  intros Horder Hfk member advs.
  assert (forall adv, adv ∈ advs -> delivery_applies s.(db) a adv = member adv) as Happ.
  { intros adv Hin. apply elem_of_candidates in Hin as [_ Hm]; [|done]. by rewrite applies_iff_moves, Hm, andb_true_r. }
  destruct (apply_advances_run a advs s) as (s' & Hrun & Hr & Hmsg & Hin & Hout); [by apply candidates_distinct|].
  rewrite (filter_ext_in _ member) in Hrun by (intros x Hx; apply Happ; by apply list_elem_of_In).
  exists s'. split_and!; [| done | |].
  - unfold ApplyDeliveries. destruct advs; [|unfold transaction; by rewrite Hrun]. by injection Hrun as <-.
  - intros k cur Hk.
    destruct (decide (Exists (fun adv => delivery_applies s.(db) a adv = true /\ k = (a, adv.(da_ConversationID))) advs)) as [Hex|Hno].
    + apply Exists_exists in Hex as (adv & Hadv & Ha & ->). right. exists adv.(da_MessageID). split; [by apply Hin|].
      unfold delivery_applies in Ha. rewrite Hk in Ha. by bool_to_prop.
    + left. rewrite Hout; [done|]. intros adv Hadv Ha ->. apply Hno, Exists_exists. by exists adv.
  - apply filter_all_false, Forall_forall. intros adv Hadv. apply elem_of_candidates in Hadv as [Hl Hm]; [|done].
    destruct (member adv) eqn:Em; [exfalso|done].
    destruct (delivery_moves s.(db) a adv.(da_ConversationID) adv.(da_MessageID)) eqn:E0.
    + assert (adv ∈ advs) as Hadv by by apply elem_of_candidates.
      unfold delivery_moves in Hm. rewrite (Hin adv) in Hm by (rewrite ?Happ; done). bool_to_prop.
      match goal with Hs : sql_le ?x ?x = false |- _ => destruct x eqn:Ex; simpl in Hs; [lia|] end.
      match goal with Hs : match ?x with Some _ => _ | None => _ end = true |- _ => unfold created_at in Ex; destruct x; [discriminate Ex|discriminate Hs] end.
    + unfold delivery_moves in E0, Hm. unfold receiptsApplyTo, created_at in *. rewrite Hr, Hmsg, Hout in Hm; [congruence|].
      intros x Hx _ [= Hc]. apply elem_of_candidates in Hx as [Hlx Hmx]; [|done]. rewrite <- Hc, Hl in Hlx.
      injection Hlx as Hmid _. unfold delivery_moves, receiptsApplyTo, created_at in Hmx. rewrite <- Hc, <- Hmid in Hmx. congruence.
Qed.

(** ** Carol reads alice's message *)

Lemma reads_move_forward_witness :
  exists s', markRead 23 "conv_g" ex_carol "msg_1" "read_receipt.updated" false ex_sent = (Ok 5, s') /\
    (own_row ex_sent ex_carol "conv_g").(rr_shared_message_id) = None /\
    (own_row s' ex_carol "conv_g").(rr_shared_message_id) = Some "msg_1"%string /\
    exists e, s'.(db).(events).(sync_events) !! 5 = Some e /\ se_type e = "read_receipt.updated"%string.
Proof.
  pose (x := markRead 23 "conv_g" ex_carol "msg_1" "read_receipt.updated" false ex_sent).
  assert (x.1 = Ok 5) as H1 by (vm_compute; reflexivity).
  assert ((own_row ex_sent ex_carol "conv_g").(rr_shared_message_id) = None) as H2 by (vm_compute; reflexivity).
  assert ((own_row x.2 ex_carol "conv_g").(rr_shared_message_id) = Some "msg_1"%string) as H3 by (vm_compute; reflexivity).
  exists x.2. split; [exact (run_answer x _ H1)|]. split; [exact H2|]. split; [exact H3|].
  destruct (reads_move_forward 23 "conv_g" ex_carol "msg_1" "read_receipt.updated" false ex_sent 5 x.2 (run_answer x _ H1))
    as (_ & _ & _ & _ & Hev).
  rewrite H2, H3 in Hev. cbn in Hev. destruct (Hev ltac:(discriminate)) as (_ & e & He & Hty & _). exists e. split; [exact He|exact Hty].
Defined.

Lemma unshared_reads_invisible_witness :
  exists s', markRead 23 "conv_g" ex_carol "msg_1" "" true ex_sent = (Ok 0, s') /\
    (own_row s' ex_carol "conv_g").(rr_message_id) = Some "msg_1"%string /\
    (ConversationReceipts "conv_g" ex_alice s').1 = (ConversationReceipts "conv_g" ex_alice ex_sent).1.
Proof.
  pose (x := markRead 23 "conv_g" ex_carol "msg_1" "" true ex_sent).
  assert (x.1 = Ok 0) as H1 by (vm_compute; reflexivity).
  exists x.2. split; [exact (run_answer x _ H1)|]. split; [vm_compute; reflexivity|].
  apply (unshared_reads_invisible 23 "conv_g" ex_carol "msg_1" "" true ex_sent 0 x.2 (run_answer x _ H1)). reflexivity.
Defined.

Lemma deliveries_settle_witness :
  let order := fun m : gmap string (string * Z) => (map_to_list m).*1 in
  let events := [scanSyncEvent 4 (default (mkSyncEventRow "" None None None [] 0) (ex_sent.(db).(events).(sync_events) !! 4))] in
  let advs := DeliveryCandidates order ex_sent.(db) ex_carol events in
  map da_MessageID advs = ["msg_1"%string] /\
  exists s', ApplyDeliveries ex_carol advs ex_sent = (Ok (List.filter (fun adv => is_member ex_sent.(db) adv.(da_ConversationID) ex_carol) advs), s').
Proof.
  intros order events advs. split; [vm_compute; reflexivity|].
  destruct (deliveries_settle order ex_carol events ex_sent) as (s' & Hrun & _).
  - intros m. reflexivity.
  - intros k mid H. assert (delivery_receipts (content (db ex_sent)) = ∅) as E by (vm_compute; reflexivity).
    rewrite E, lookup_empty in H. discriminate H.
  - exists s'. exact Hrun.
Defined.
