(* ===== verification/Deliveries.v ===== *)
(** * The queue of delivery cursors

    [deliveryQueue] of [internal/httpapi/receipts.go].  A sync page hands the
    cursors it moved to the queue and returns; up to four workers write them.
    Every method of the queue runs under its mutex and is one atomic step;
    [queue_step] interleaves the pages, the steps of the workers and the
    shutdown.  The write itself is [writeDeliveries] in [SyncHandlers]. *)

From S2P Require Import Prelude Domain Receipts.
From stdpp Require Import base numbers list strings gmap fin_maps relations.
From Stdlib Require Import ZArith ZifyBool Lia.
Open Scope Z_scope.

Definition maxDeliveryWriters : Z := 4.
Definition deliveryRetryBase : Z := 100 * (second / 1000).
Definition deliveryRetryCap : Z := 2 * second.
Definition maxDeliveryRetries : Z := 6.

(** The account and the conversation. *)
Abbreviation deliveryKey := (string * string)%type (only parsing).

Record deliveryQueue := mkDeliveryQueue { dq_pending : gmap deliveryKey DeliveryAdvance; dq_workers : Z; dq_stopped : bool }.

Definition emptyQueue : deliveryQueue := mkDeliveryQueue ∅ 0 false.

Definition mergeLocked (accountID : string) (advance : DeliveryAdvance) (q : deliveryQueue) : deliveryQueue :=
  let key := (accountID, advance.(da_ConversationID)) in
  match q.(dq_pending) !! key with
  | Some current =>
    if time_before advance.(da_CreatedAt) current.(da_CreatedAt) then q
    else mkDeliveryQueue (<[key := advance]> q.(dq_pending)) q.(dq_workers) q.(dq_stopped)
  | None => mkDeliveryQueue (<[key := advance]> q.(dq_pending)) q.(dq_workers) q.(dq_stopped)
  end.

Definition merge_all (accountID : string) (advances : list DeliveryAdvance) (q : deliveryQueue) : deliveryQueue :=
  foldl (fun q advance => mergeLocked accountID advance q) q advances.

(** The part under the lock: whether a worker is to be started. *)
Definition recordDeliveredAsync (accountID : string) (candidates : list DeliveryAdvance) (q : deliveryQueue) : bool * deliveryQueue :=
  if bool_decide (candidates = []) then (false, q)
  else
    let q := merge_all accountID candidates q in
    if q.(dq_workers) <? maxDeliveryWriters
    then (true, mkDeliveryQueue q.(dq_pending) (q.(dq_workers) + 1) q.(dq_stopped)) else (false, q).

Abbreviation batch := (gmap string (list DeliveryAdvance)) (only parsing).

(** [range q.pending] in the order it visits the keys. *)
Definition group (order : list deliveryKey) (pending : gmap deliveryKey DeliveryAdvance) : batch :=
  foldl (fun b key => match pending !! key with
                      | Some advance => <[key.1 := default [] (b !! key.1) ++ [advance]]> b
                      | None => b
                      end) ∅ order.

Definition take (order : list deliveryKey) (q : deliveryQueue) : option batch * deliveryQueue :=
  if bool_decide (q.(dq_pending) = ∅) then (None, mkDeliveryQueue q.(dq_pending) (q.(dq_workers) - 1) q.(dq_stopped))
  else (Some (group order q.(dq_pending)), mkDeliveryQueue ∅ q.(dq_workers) q.(dq_stopped)).

Definition requeue (accountID : string) (advances : list DeliveryAdvance) (q : deliveryQueue) : deliveryQueue := merge_all accountID advances q.

(** The end of [WaitDeliveryWrites] when the deadline has passed. *)
Definition stop (q : deliveryQueue) : deliveryQueue := mkDeliveryQueue q.(dq_pending) q.(dq_workers) true.

(** The pause before a retry: [min(deliveryRetryBase<<(failures-1), deliveryRetryCap)]. *)
Definition retry_pause (failures : Z) : Z := Z.min (Z.shiftl deliveryRetryBase (failures - 1)) deliveryRetryCap.

(** ** A worker *)

(** A cursor queued for an account, and the advances of an account. *)
Abbreviation cursor := (string * DeliveryAdvance)%type (only parsing).
Abbreviation share := (string * list DeliveryAdvance)%type (only parsing).

(** Where [runDeliveryWorker] is: about to take a batch, in the loop over the
    batch with what is left of it and what the store has refused, or putting
    the refused advances back; each with the count of failures. *)
Inductive worker :=
| Taking (failures : Z)
| Writing (failures : Z) (todo failed : list share)
| Requeueing (failures : Z) (rest : list share).

(** A refused cursor that is dropped, with the count of failures and whether
    the queue was stopped. *)
Record drop := mkDrop { dr_cursor : cursor; dr_failures : Z; dr_stopped : bool }.

Definition cursors (l : list share) : list cursor := List.flat_map (fun '(acc, advances) => map (pair acc) advances) l.

(** One step of [runDeliveryWorker]: the worker after it ([None] when it has
    returned), the queue, the cursors written and those dropped.  [order] and
    [visit] are the orders of the two loops over maps, [accepted] is what
    [writeDeliveries] returns. *)
Definition runDeliveryWorker (order : list deliveryKey) (visit : batch -> list share) (accepted : bool) (w : worker) (q : deliveryQueue)
    : option worker * deliveryQueue * list cursor * list drop :=
  match w with
  | Taking failures =>
    match take order q with
    | (None, q) => (None, q, [], [])
    | (Some b, q) => (Some (Writing failures (visit b) []), q, [], [])
    end
  | Writing failures ((accountID, candidates) :: todo) failed =>
    if accepted then (Some (Writing failures todo failed), q, cursors [(accountID, candidates)], [])
    else (Some (Writing failures todo (failed ++ [(accountID, candidates)])), q, [], [])
  | Writing failures [] [] => (Some (Taking 0), q, [], [])
  | Writing failures [] failed =>
    let failures := failures + 1 in
    if (maxDeliveryRetries <? failures) || q.(dq_stopped)
    then (Some (Taking 0), q, [], map (fun c => mkDrop c failures q.(dq_stopped)) (cursors failed))
    else (Some (Requeueing failures failed), q, [], [])
  | Requeueing failures ((accountID, candidates) :: rest) => (Some (Requeueing failures rest), requeue accountID candidates q, [], [])
  | Requeueing failures [] => (Some (Taking failures), q, [], [])
  end.

(** ** Interleaving *)

(** The queue and its workers and (for the statement only) the cursors queued,
    written and dropped so far. *)
Record queue_state := mkQueueState {
  qs_queue : deliveryQueue; qs_workers : list worker; qs_queued : list cursor; qs_written : list cursor; qs_dropped : list drop }.

Definition queue_start : queue_state := mkQueueState emptyQueue [] [] [] [].

Definition still (w : option worker) : list worker := match w with Some w => [w] | None => [] end.

Inductive queue_step : queue_state -> queue_state -> Prop :=
| page_queues acc candidates st q started :
    recordDeliveredAsync acc candidates st.(qs_queue) = (started, q) ->
    queue_step st (mkQueueState q (st.(qs_workers) ++ if started : bool then [Taking 0] else []) (st.(qs_queued) ++ map (pair acc) candidates)
      st.(qs_written) st.(qs_dropped))
| worker_moves ws1 w ws2 st order visit accepted w' q written dropped :
    st.(qs_workers) = ws1 ++ w :: ws2 -> order ≡ₚ (map_to_list st.(qs_queue).(dq_pending)).*1 -> (forall b : batch, visit b ≡ₚ map_to_list b) ->
    runDeliveryWorker order visit accepted w st.(qs_queue) = (w', q, written, dropped) ->
    queue_step st (mkQueueState q (ws1 ++ still w' ++ ws2) st.(qs_queued) (written ++ st.(qs_written)) (dropped ++ st.(qs_dropped)))
| deadline_passes st :
    queue_step st (mkQueueState (stop st.(qs_queue)) st.(qs_workers) st.(qs_queued) st.(qs_written) st.(qs_dropped)).

(** ** No cursor is lost *)

(** A cursor at least as far along in the same conversation of the account. *)
Definition reaches (c c' : cursor) : Prop :=
  c'.1 = c.1 /\ c'.2.(da_ConversationID) = c.2.(da_ConversationID) /\ c.2.(da_CreatedAt) <= c'.2.(da_CreatedAt).

Definition waits (q : deliveryQueue) (c : cursor) : Prop :=
  exists a, q.(dq_pending) !! (c.1, c.2.(da_ConversationID)) = Some a /\ reaches c (c.1, a).

(** Pending entries are filed under their own conversation. *)
Definition filed (q : deliveryQueue) : Prop := forall k a, q.(dq_pending) !! k = Some a -> k.2 = a.(da_ConversationID).

Definition held (w : worker) : list cursor :=
  match w with Taking _ => [] | Writing _ todo failed => cursors todo ++ cursors failed | Requeueing _ rest => cursors rest end.
Definition failures_of (w : worker) : Z := match w with Taking n | Writing n _ _ | Requeueing n _ => n end.

(** Where a cursor queued earlier is now, itself or one further along. *)
Definition in_hands (ws : list worker) (c : cursor) : Prop := exists w c', w ∈ ws /\ c' ∈ held w /\ reaches c c'.
Definition is_written (st : queue_state) (c : cursor) : Prop := exists c', c' ∈ st.(qs_written) /\ reaches c c'.
Definition is_dropped (st : queue_state) (c : cursor) : Prop := exists d, d ∈ st.(qs_dropped) /\ reaches c d.(dr_cursor).
Definition covered (st : queue_state) (c : cursor) : Prop :=
  waits st.(qs_queue) c \/ in_hands st.(qs_workers) c \/ is_written st c \/ is_dropped st c.

Lemma merge_cons acc a l q : merge_all acc (a :: l) q = merge_all acc l (mergeLocked acc a q).
Proof. done. Qed.

Lemma merge_workers acc l q : (merge_all acc l q).(dq_workers) = q.(dq_workers).
Proof. revert q. induction l as [|a l IH]; intros q; [done|]. rewrite merge_cons, IH. unfold mergeLocked. by repeat case_match. Qed.

Lemma merge_filed acc a q : filed q -> filed (mergeLocked acc a q).
Proof.
  intros Hf. unfold mergeLocked. repeat case_match; try done; intros k x; cbn [dq_pending]; rewrite lookup_insert_Some; intros [[<- <-]|[_ ?]]; eauto.
Qed.

Lemma merge_waits acc a q c : waits q c -> waits (mergeLocked acc a q) c.
Proof.
  intros (x & E & Hr). unfold mergeLocked, waits, reaches in *. cbn [fst snd] in *. destruct (decide ((acc, a.(da_ConversationID)) = (c.1, c.2.(da_ConversationID)))) as [Ek|Ek].
  - rewrite Ek, E. unfold time_before. destruct (a.(da_CreatedAt) <? x.(da_CreatedAt)) eqn:Eb; [by exists x|].
    exists a. cbn [dq_pending]. rewrite lookup_insert_eq. split; [done|]. injection Ek as _ Ek. split_and!; [done|done|lia].
  - exists x. split; [|done]. repeat case_match; try done; cbn [dq_pending]; by rewrite lookup_insert_ne.
Qed.

Lemma merge_queued acc a q : filed q -> waits (mergeLocked acc a q) (acc, a).
Proof.
  intros Hf. unfold mergeLocked, waits, reaches, time_before. cbn [fst snd]. destruct (q.(dq_pending) !! _) as [x|] eqn:E.
  - destruct (_ <? _) eqn:Eb; [exists x|exists a; cbn [dq_pending]; by rewrite lookup_insert_eq].
    split; [done|]. apply Hf in E as Ef. cbn [snd] in Ef. split_and!; [done|done|lia].
  - exists a. cbn [dq_pending]. by rewrite lookup_insert_eq.
Qed.

Lemma merge_all_spec acc l q :
  filed q -> filed (merge_all acc l q) /\ (forall c, waits q c -> waits (merge_all acc l q) c) /\ (forall a, a ∈ l -> waits (merge_all acc l q) (acc, a)).
Proof.
  revert q. induction l as [|a l IH]; intros q Hf; [split_and!; [done|done|by intros a ?%not_elem_of_nil]|].
  rewrite merge_cons. destruct (IH _ (merge_filed acc a q Hf)) as (H1 & H2 & H3). split_and!; [done|eauto using merge_waits|].
  intros x [->|Hx]%elem_of_cons; [apply H2, merge_queued; done|eauto].
Qed.

Lemma merge_pending acc l q : q.(dq_pending) <> ∅ -> (merge_all acc l q).(dq_pending) <> ∅.
Proof.
  revert q. induction l as [|a l IH]; intros q Hq; [done|]. rewrite merge_cons. apply IH. unfold mergeLocked. repeat case_match; try done; cbn [dq_pending]; apply insert_non_empty.
Qed.

Lemma elem_cursors acc a l : (acc, a) ∈ cursors l <-> exists advances, (acc, advances) ∈ l /\ a ∈ advances.
Proof.
  unfold cursors. rewrite list_elem_of_In, in_flat_map. split.
  - intros ((acc' & x) & Hin & Hc). apply list_elem_of_In in Hin, Hc. apply list_elem_of_fmap in Hc as (a' & [= -> ->] & Ha). by exists x.
  - intros (x & Hin & Ha). exists (acc, x). split; [by apply list_elem_of_In|]. apply list_elem_of_In, list_elem_of_fmap. by exists a.
Qed.

Lemma cursors_app l1 l2 : cursors (l1 ++ l2) = cursors l1 ++ cursors l2.
Proof. apply flat_map_app. Qed.

Lemma cursors_one acc advances : cursors [(acc, advances)] = map (pair acc) advances.
Proof. apply app_nil_r. Qed.

(** What [take] hands to a worker is what was pending. *)
Lemma group_snoc order k pending :
  group (order ++ [k]) pending =
  match pending !! k with
  | Some advance => <[k.1 := default [] (group order pending !! k.1) ++ [advance]]> (group order pending)
  | None => group order pending
  end.
Proof. unfold group. by rewrite foldl_app. Qed.

Definition files (b : batch) (acc : string) (a : DeliveryAdvance) : Prop := exists l, b !! acc = Some l /\ a ∈ l.

Lemma files_snoc (b : batch) k acc a x :
  files (<[k := default [] (b !! k) ++ [x]]> b) acc a <-> files b acc a \/ k = acc /\ x = a.
Proof.
  unfold files. destruct (decide (k = acc)) as [->|Hk].
  - rewrite lookup_insert_eq. split.
    + intros (l & [= <-] & [Hl|<-%list_elem_of_singleton]%elem_of_app); [left|by right].
      destruct (b !! acc) as [y|]; [by exists y|by apply not_elem_of_nil in Hl].
    + intros [(l & -> & Hl)|[_ ->]]; eexists; (split; [done|]); apply elem_of_app; [by left|right; by apply list_elem_of_singleton].
  - rewrite lookup_insert_ne by done. naive_solver.
Qed.

Lemma group_spec order pending acc a : files (group order pending) acc a <-> exists k, k ∈ order /\ k.1 = acc /\ pending !! k = Some a.
Proof.
  induction order as [|k order IH] using rev_ind.
  - split; [intros (x & E & _)|intros (k & Hk & _)]; [done|by apply not_elem_of_nil in Hk].
  - rewrite group_snoc. setoid_rewrite elem_of_app. setoid_rewrite list_elem_of_singleton.
    destruct (pending !! k) as [x|] eqn:E; [rewrite files_snoc|]; rewrite IH; naive_solver congruence.
Qed.

Lemma group_waits order (q : deliveryQueue) (visit : batch -> list share) c :
  order ≡ₚ (map_to_list q.(dq_pending)).*1 -> (forall b : batch, visit b ≡ₚ map_to_list b) -> waits q c ->
  exists c', c' ∈ cursors (visit (group order q.(dq_pending))) /\ reaches c c'.
Proof.
  intros Ho Hv (a & E & Hr). exists (c.1, a). split; [|done]. apply elem_cursors.
  assert (files (group order q.(dq_pending)) c.1 a) as (l & El & Hl).
  { apply group_spec. exists (c.1, c.2.(da_ConversationID)). split; [|done]. rewrite Ho. apply list_elem_of_fmap.
    exists (c.1, c.2.(da_ConversationID), a). split; [done|]. by apply elem_of_map_to_list. }
  exists l. split; [|done]. rewrite Hv. by apply elem_of_map_to_list.
Qed.

(** Where the cursors of one worker and the queue go in a step. *)
Definition lands (w : option worker) (q : deliveryQueue) (written : list cursor) (dropped : list drop) (c : cursor) : Prop :=
  waits q c \/ in_hands (still w) c \/ (exists c', c' ∈ written /\ reaches c c') \/ exists d, d ∈ dropped /\ reaches c d.(dr_cursor).

Lemma in_hands_one w c : in_hands [w] c <-> exists c', c' ∈ held w /\ reaches c c'.
Proof. unfold in_hands. setoid_rewrite list_elem_of_singleton. naive_solver. Qed.

Lemma in_hands_app ws1 ws2 c : in_hands (ws1 ++ ws2) c <-> in_hands ws1 c \/ in_hands ws2 c.
Proof. unfold in_hands. setoid_rewrite elem_of_app. naive_solver. Qed.

Lemma reaches_trans c1 c2 c3 : reaches c1 c2 -> reaches c2 c3 -> reaches c1 c3.
Proof. unfold reaches. intros (-> & -> & ?) (-> & -> & ?). split_and!; [done|done|lia]. Qed.

Lemma waits_reaches q c c' : reaches c c' -> waits q c' -> waits q c.
Proof.
  intros Hr (a & E & Hr'). destruct (id Hr) as (E1 & E2 & _). exists a. rewrite <- E1, <- E2. split; [done|]. by eapply reaches_trans.
Qed.

Lemma pending_none q c : q.(dq_pending) = ∅ -> ~ waits q c.
Proof. intros E (a & Ea & _). by rewrite E in Ea. Qed.

Lemma take_lands failures order (visit : batch -> list share) accepted q w' q' written dropped c :
  order ≡ₚ (map_to_list q.(dq_pending)).*1 -> (forall b : batch, visit b ≡ₚ map_to_list b) ->
  runDeliveryWorker order visit accepted (Taking failures) q = (w', q', written, dropped) ->
  waits q c -> lands w' q' written dropped c.
Proof.
  intros Ho Hv E Hw. cbn [runDeliveryWorker] in E. unfold take in E. destruct (bool_decide _) eqn:Ep.
  { apply bool_decide_eq_true in Ep. by apply pending_none with (c := c) in Ep. }
  injection E as <- <- <- <-. right. left. apply in_hands_one. destruct (group_waits order q visit c Ho Hv Hw) as (c' & Hin & Hr).
  exists c'. split; [|done]. cbn [held]. apply elem_of_app. by left.
Qed.

Lemma requeue_lands acc advances q c : filed q -> waits q c \/ (exists c', c' ∈ cursors [(acc, advances)] /\ reaches c c') -> waits (requeue acc advances q) c.
Proof.
  intros Hf. destruct (merge_all_spec acc advances q Hf) as (_ & H1 & H2). intros [Hw|(c' & Hin & Hr)]; [by apply H1|].
  rewrite cursors_one in Hin. apply list_elem_of_fmap in Hin as (a & -> & Ha). eapply waits_reaches; [done|]. by apply H2.
Qed.

Lemma worker_lands order (visit : batch -> list share) accepted w q w' q' written dropped c :
  order ≡ₚ (map_to_list q.(dq_pending)).*1 -> (forall b : batch, visit b ≡ₚ map_to_list b) -> filed q ->
  runDeliveryWorker order visit accepted w q = (w', q', written, dropped) ->
  waits q c \/ in_hands [w] c -> lands w' q' written dropped c.
Proof.
  intros Ho Hv Hf E Hc. rewrite in_hands_one in Hc. unfold lands. destruct w as [n|n todo failed|n rest].
  - destruct Hc as [Hc|(c' & Hin & _)]; [by eapply take_lands|by apply not_elem_of_nil in Hin].
  - destruct Hc as [Hc|(c' & Hin & Hr)].
    { left. destruct todo as [|[acc l] todo]; [destruct failed|]; cbn [runDeliveryWorker] in E; repeat case_match; by simplify_eq. }
    cbn [held] in Hin. destruct todo as [|[acc l] todo].
    + destruct failed as [|f failed]; [by apply not_elem_of_nil in Hin|]. cbn [runDeliveryWorker] in E.
      destruct (_ || _) in E; injection E as <- <- <- <-.
      * do 3 right. exists (mkDrop c' (n + 1) q.(dq_stopped)). split; [|done]. apply list_elem_of_fmap. by exists c'.
      * right. left. apply in_hands_one. by exists c'.
    + change (cursors ((acc, l) :: todo)) with (cursors ([(acc, l)] ++ todo)) in Hin. rewrite cursors_app, !elem_of_app in Hin. cbn [runDeliveryWorker] in E.
      destruct accepted; injection E as <- <- <- <-; cbn [still]; rewrite in_hands_one; cbn [held].
      * destruct Hin as [[Hin|Hin]|Hin]; [do 2 right; left|right; left|right; left]; exists c'; (split; [|done]); [done|apply elem_of_app; auto..].
      * right. left. exists c'. split; [|done]. rewrite cursors_app, !elem_of_app. tauto.
  - destruct rest as [|[acc l] rest]; cbn [runDeliveryWorker] in E; injection E as <- <- <- <-; cbn [still]; rewrite in_hands_one; cbn [held] in *.
    + destruct Hc as [Hc|(c' & Hin & _)]; [by left|by apply not_elem_of_nil in Hin].
    + change (cursors ((acc, l) :: rest)) with (cursors ([(acc, l)] ++ rest)) in Hc. rewrite cursors_app in Hc.
      destruct Hc as [Hc|(c' & [Hin|Hin]%elem_of_app & Hr)]; [left|left|right; left; by exists c']; apply requeue_lands; eauto.
Qed.

(** ** The invariant *)

Definition worker_ok (w : worker) : Prop := 0 <= failures_of w <= maxDeliveryRetries /\ match w with Requeueing n _ => 1 <= n | _ => True end.

Record queue_ok (st : queue_state) : Prop := {
  qo_count : st.(qs_queue).(dq_workers) = Z.of_nat (length st.(qs_workers));
  qo_bound : Z.of_nat (length st.(qs_workers)) <= maxDeliveryWriters;
  qo_served : st.(qs_queue).(dq_pending) <> ∅ -> st.(qs_workers) <> [];
  qo_filed : filed st.(qs_queue);
  qo_workers : Forall worker_ok st.(qs_workers);
  qo_dropped : Forall (fun d => maxDeliveryRetries < d.(dr_failures) \/ d.(dr_stopped) = true) st.(qs_dropped);
  qo_covered : forall c, c ∈ st.(qs_queued) -> covered st c }.

Lemma queue_start_ok : queue_ok queue_start.
Proof. split; try done. intros c Hc. by apply not_elem_of_nil in Hc. Qed.

Lemma enqueue_spec acc l q started q' :
  recordDeliveredAsync acc l q = (started, q') -> filed q ->
  filed q' /\ (forall c, waits q c -> waits q' c) /\ (forall a, a ∈ l -> waits q' (acc, a)) /\
  q'.(dq_workers) = q.(dq_workers) + (if started then 1 else 0) /\
  (started = true -> q.(dq_workers) < maxDeliveryWriters) /\
  (started = false -> q'.(dq_pending) = q.(dq_pending) \/ maxDeliveryWriters <= q.(dq_workers)).
Proof.
  intros E Hf. unfold recordDeliveredAsync in E. case_bool_decide as El.
  { injection E as <- <-. subst l. split_and!; try done; [|lia|by left]. intros a Ha. by apply not_elem_of_nil in Ha. }
  destruct (merge_all_spec acc l q Hf) as (H1 & H2 & H3). rewrite merge_workers in E.
  destruct (_ <? _) eqn:Eb; injection E as <- <-; cbn [dq_workers]; rewrite ?merge_workers; split_and!; try done; intros; try right; lia.
Qed.

Lemma lands_covered ws1 ws2 w st q' written dropped c :
  lands w q' written dropped c ->
  covered (mkQueueState q' (ws1 ++ still w ++ ws2) st.(qs_queued) (written ++ st.(qs_written)) (dropped ++ st.(qs_dropped))) c.
Proof.
  intros [Hw|[Hh|[(c' & Hin & Hr)|(d & Hin & Hr)]]].
  - by left.
  - right. left. cbn [qs_workers]. rewrite !in_hands_app. tauto.
  - do 2 right. left. exists c'. split; [|done]. apply elem_of_app. by left.
  - do 3 right. exists d. split; [|done]. apply elem_of_app. by left.
Qed.

Lemma worker_count order visit accepted w q w' q' written dropped :
  runDeliveryWorker order visit accepted w q = (w', q', written, dropped) ->
  q'.(dq_workers) - q.(dq_workers) = Z.of_nat (length (still w')) - 1 /\ (w' = None -> q'.(dq_pending) = ∅).
Proof.
  intros E. destruct w as [n|n [|[acc l] todo] [|f failed]|n [|[acc l] rest]]; cbn [runDeliveryWorker] in E; unfold take in E; repeat case_match; simplify_eq;
    cbn [still length dq_workers dq_pending]; unfold requeue; rewrite ?merge_workers; (split; [lia|]); try done.
  intros _. by eapply bool_decide_eq_true_1.
Qed.

Lemma worker_filed order visit accepted w q w' q' written dropped :
  runDeliveryWorker order visit accepted w q = (w', q', written, dropped) -> filed q -> filed q'.
Proof.
  intros E Hf. destruct w as [n|n [|[acc l] todo] [|f failed]|n [|[acc l] rest]]; cbn [runDeliveryWorker] in E; unfold take in E; repeat case_match; simplify_eq;
    try done. by apply merge_all_spec.
Qed.

Lemma worker_keeps_ok order visit accepted w q w' q' written dropped :
  runDeliveryWorker order visit accepted w q = (w', q', written, dropped) -> worker_ok w ->
  Forall worker_ok (still w') /\ Forall (fun d => maxDeliveryRetries < d.(dr_failures) \/ d.(dr_stopped) = true) dropped.
Proof.
  intros E Hw. unfold worker_ok in *. destruct w as [n|n [|[acc l] todo] [|f failed]|n [|[acc l] rest]]; cbn [runDeliveryWorker] in E; unfold take in E;
    cbn [failures_of] in Hw; repeat case_match; simplify_eq; cbn [still]; (split; [repeat constructor; cbn [failures_of]; unfold maxDeliveryRetries in *; lia|]);
    try constructor.
  all: apply Forall_forall; intros d (c & -> & _)%list_elem_of_fmap; cbn [dr_failures dr_stopped]; destruct q'.(dq_stopped); [by right|left; lia].
Qed.

Lemma queue_step_ok st st' : queue_step st st' -> queue_ok st -> queue_ok st'.
Proof.
  intros Hstep [Hc Hb Hs Hf Hw Hd Hcov]. destruct Hstep as [acc l st q started E|ws1 w ws2 st order visit accepted w' q written dropped Ews Ho Hv E|st].
  - destruct (enqueue_spec _ _ _ _ _ E Hf) as (F1 & F2 & F3 & F4 & F5 & F6).
    split; cbn [qs_queue qs_workers qs_queued qs_written qs_dropped]; rewrite ?length_app.
    + destruct started; cbn [length] in *; lia.
    + destruct started; cbn [length] in *; [specialize (F5 eq_refl)|]; lia.
    + intros Hp. destruct started; [by destruct (qs_workers st)|]. rewrite app_nil_r. destruct (F6 eq_refl) as [Ep|Ep]; [apply Hs; by rewrite <- Ep|].
      intros Hn. rewrite Hn in Hc. unfold maxDeliveryWriters in Ep. cbn in Hc. lia.
    + done.
    + apply Forall_app. split; [done|]. destruct started; repeat constructor; cbn; unfold maxDeliveryRetries; lia.
    + done.
    + intros c [Hin|Hin]%elem_of_app.
      * destruct (Hcov c Hin) as [Hcw|[Hh|[?|?]]]; [left; by apply F2|right; left|by do 2 right; left|by do 3 right].
        cbn [qs_workers]. apply in_hands_app. by left.
      * apply list_elem_of_fmap in Hin as (a & -> & Ha). left. by apply F3.
  - rewrite Ews in *. apply Forall_app in Hw as [Hw1 [Hww Hw2]%Forall_cons].
    destruct (worker_count _ _ _ _ _ _ _ _ _ E) as [Hn Hp]. destruct (worker_keeps_ok _ _ _ _ _ _ _ _ _ E Hww) as [Hk1 Hk2].
    split; cbn [qs_queue qs_workers qs_queued qs_written qs_dropped]; rewrite ?length_app in *; cbn [length] in *.
    + destruct w'; cbn [still length] in *; lia.
    + destruct w'; cbn [still length] in *; lia.
    + intros Hne. destruct w'; [by destruct ws1|]. by rewrite Hp in Hne.
    + by eapply worker_filed.
    + rewrite !Forall_app. done.
    + by apply Forall_app.
    + intros c Hin. destruct (Hcov c Hin) as [Hcw|[Hh|[(c' & Hin' & ?)|(d & Hin' & ?)]]].
      * apply lands_covered. eapply worker_lands; eauto.
      * rewrite Ews, (in_hands_app ws1 (w :: ws2)), (in_hands_app [w] ws2) in Hh. destruct Hh as [Hh|[Hh|Hh]];
          [right; left; cbn [qs_workers]; rewrite !in_hands_app; tauto| |right; left; cbn [qs_workers]; rewrite !in_hands_app; tauto].
        apply lands_covered. eapply worker_lands; eauto.
      * do 2 right. left. exists c'. split; [|done]. apply elem_of_app. by right.
      * do 3 right. exists d. split; [|done]. apply elem_of_app. by right.
  - split; done.
Qed.

(** C33: whatever sync pages queue and however the workers, their retries, the
    loops over maps and the shutdown interleave: at most four workers run and
    the counter says how many; no worker retries more than six times in a row,
    so its pause is between 0.1 s and 2 s; while anything is pending a worker
    runs; and every cursor ever queued is, itself or one at least as far along
    in the same conversation of the account, still pending, in a worker's
    hands, written, or dropped, and dropped only after more refusals in a row
    than are retried or once the shutdown has stopped waiting. *)
Theorem deliveries_not_lost st :
  rtc queue_step queue_start st ->
  st.(qs_queue).(dq_workers) = Z.of_nat (length st.(qs_workers)) /\ Z.of_nat (length st.(qs_workers)) <= maxDeliveryWriters /\
  (st.(qs_queue).(dq_pending) <> ∅ -> st.(qs_workers) <> []) /\
  (forall n rest, Requeueing n rest ∈ st.(qs_workers) -> n <= maxDeliveryRetries /\ deliveryRetryBase <= retry_pause n <= deliveryRetryCap) /\
  (forall d, d ∈ st.(qs_dropped) -> maxDeliveryRetries < d.(dr_failures) \/ d.(dr_stopped) = true) /\
  (forall c, c ∈ st.(qs_queued) -> covered st c).
Proof.
  intros Hr. assert (queue_ok st) as [Hc Hb Hs Hf Hw Hd Hcov].
  { remember queue_start as st0. assert (queue_ok st0) as Hok by (subst; apply queue_start_ok). clear Heqst0. induction Hr; eauto using queue_step_ok. }
  rewrite Forall_forall in Hw. rewrite Forall_forall in Hd. split_and!; try done. intros n rest [Hn H1]%Hw. cbn [failures_of] in Hn. split; [lia|].
  unfold maxDeliveryRetries in Hn. assert (n = 1 \/ n = 2 \/ n = 3 \/ n = 4 \/ n = 5 \/ n = 6) as Hcases by lia.
  by destruct Hcases as [->|[->|[->|[->|[->| ->]]]]].
Qed.

Definition ex_advance (msg : string) (t : Z) : DeliveryAdvance := mkDeliveryAdvance "room" msg t.

(** A write is refused and meanwhile an older cursor is queued: putting the
    refused one back replaces it. *)
Definition ex_queue_end : queue_state :=
  mkQueueState (mkDeliveryQueue {[("bob", "room")%string := ex_advance "m2" 20]} 2 false)
    [Requeueing 1 []; Taking 0] [("bob"%string, ex_advance "m2" 20); ("bob"%string, ex_advance "m1" 10)] [] [].

Lemma ex_queue_run : rtc queue_step queue_start ex_queue_end.
Proof.
  eapply rtc_l; [apply (page_queues "bob" [ex_advance "m2" 20] queue_start); vm_compute; reflexivity|].
  eapply rtc_l; [apply (worker_moves [] (Taking 0) [] _ [("bob", "room")%string] map_to_list false); [reflexivity|by vm_compute|done|vm_compute; reflexivity]|].
  eapply rtc_l; [eapply (worker_moves [] _ [] _ [] map_to_list false); [reflexivity|by vm_compute|done|vm_compute; reflexivity]|].
  eapply rtc_l; [eapply (page_queues "bob" [ex_advance "m1" 10]); vm_compute; reflexivity|].
  eapply rtc_l; [eapply (worker_moves [] _ [Taking 0] _ [("bob", "room")%string] map_to_list false); [reflexivity|by vm_compute|done|vm_compute; reflexivity]|].
  eapply rtc_l; [eapply (worker_moves [] _ [Taking 0] _ [("bob", "room")%string] map_to_list false); [reflexivity|by vm_compute|done|vm_compute; reflexivity]|].
  apply rtc_refl.
Qed.

Lemma deliveries_not_lost_witness :
  rtc queue_step queue_start ex_queue_end /\ covered ex_queue_end ("bob"%string, ex_advance "m1" 10).
Proof.
  split; [apply ex_queue_run|]. apply (deliveries_not_lost ex_queue_end ex_queue_run). apply elem_of_cons. right. apply elem_of_cons. by left.
Defined.
