(* ===== verification/Mls.v ===== *)
(** * MLS groups, handshake messages and revocations

    [internal/storage/mls_group_store.go], [mls_message_store.go],
    [mls_revocation_store.go], [key_package_store.go] and the queueing of
    revocations in [identity_store.go].  Payloads are opaque bytes.  Fresh
    identifiers and the clock are arguments; a bundle takes [newID 0] for its
    commit and [newID i] for its [i]-th Welcome. *)

From S2P Require Import Prelude GoStrings GoJson Domain Admission Database Conversations Messages Retention Sync.
From stdpp Require Import base numbers list strings gmap fin_maps sorting.
From Stdlib Require Import ZArith ZifyBool Lia.
Open Scope Z_scope.

Definition slen (s : string) : Z := Z.of_nat (String.length s).

(** [SELECT MIN(...)] over text, NULL for no row. *)
Definition min_string (l : list string) : option string :=
  foldr (fun x acc => match acc with Some y => Some (if String.ltb x y then x else y) | None => Some x end) None l.

Definition on_mls (f : Mls -> Mls) : Tx unit := modify (upd_mls f).

(** ** Devices and rosters *)

Definition device_account (d : DB) (deviceID : string) : option string :=
  match d.(rooms).(devices) !! deviceID with
  | Some r => if bool_decide (r.(dev_revoked_at) = None) then Some r.(dev_account_id) else None
  | None => None
  end.

(** The unrevoked device belongs to the account. *)
Definition live_device (d : DB) (deviceID accountID : string) : bool := bool_decide (device_account d deviceID = Some accountID).

(** The unrevoked device belongs to some member of the conversation. *)
Definition member_device (d : DB) (conversationID deviceID : string) : bool :=
  match device_account d deviceID with Some a => is_member d conversationID a | None => false end.

Definition mlsGroupEpoch (d : DB) (conversationID : string) : option Z := d.(mls).(mls_groups) !! conversationID.

Definition roster_row (d : DB) (conversationID deviceID : string) : option MlsDeviceRow :=
  match d.(mls).(mls_devices) !! (conversationID, deviceID) with
  | Some r => if bool_decide (r.(md_removed_after_event_id) = None) then Some r else None
  | None => None
  end.

Definition activeMLSDevice (d : DB) (conversationID deviceID : string) : bool :=
  bool_decide (is_Some (roster_row d conversationID deviceID)).

(** The active devices of a group. *)
Definition roster (d : DB) (conversationID : string) : list (string * MlsDeviceRow) :=
  omap (fun '((c, dev), r) => if (c =s? conversationID) && bool_decide (r.(md_removed_after_event_id) = None)
                              then Some (dev, r) else None) (map_to_list d.(mls).(mls_devices)).

Definition has_messages (d : DB) (conversationID : string) : bool :=
  existsb (fun '(_, m) => m.(mm_conversation_id) =s? conversationID) (map_to_list d.(mls).(mls_messages)).

(** ** Messages *)

Record MLSMessage := mkMLSMessage {
  ml_ID : string; ml_ConversationID : string; ml_SenderAccountID : string; ml_SenderDeviceID : string;
  ml_RecipientDeviceID : string; ml_RevocationDeviceID : string; ml_Kind : string; ml_Payload : string;
  ml_IdempotencyKey : string; ml_SyncEventID : Z; ml_CreatedAt : Z; ml_RevocationCompletedEventID : Z }.

(** The columns an existing message is read with; [sync_event_id] is set in
    the transaction that inserts the row. *)
Definition scanMLSMessage (id : string) (m : MlsMessageRow) : MLSMessage :=
  mkMLSMessage id m.(mm_conversation_id) m.(mm_sender_account_id) m.(mm_sender_device_id)
    (default ""%string m.(mm_recipient_device_id)) (default ""%string m.(mm_revocation_device_id)) m.(mm_kind) m.(mm_payload)
    m.(mm_idempotency_key) (default 0 m.(mm_sync_event_id)) m.(mm_created_at) 0.

Definition message_by_mls_key (d : DB) (deviceID key : string) : option (string * MlsMessageRow) :=
  head (List.filter (fun '(_, m) => (m.(mm_sender_device_id) =s? deviceID) && (m.(mm_idempotency_key) =s? key))
          (map_to_list d.(mls).(mls_messages))).

Record mlsMessageRow := mkmlsMessageRow {
  row_conversationID : string; row_senderAccountID : string; row_senderDeviceID : string;
  row_recipientAccountID : string; row_recipientDeviceID : string; row_revocationDeviceID : string;
  row_kind : string; row_payload : string; row_idempotencyKey : string; row_createdAt : Z }.

Definition opt_exists (d : DB) (device : option string) : bool :=
  match device with Some dev => exists_in d.(rooms).(devices) dev | None => true end.

(** The row's key, foreign-key, check and uniqueness constraints. *)
Definition mls_row_ok (d : DB) (id : string) (m : MlsMessageRow) : bool :=
  negb (exists_in d.(mls).(mls_messages) id) && exists_in d.(rooms).(conversations) m.(mm_conversation_id) &&
  exists_in d.(rooms).(accounts) m.(mm_sender_account_id) && exists_in d.(rooms).(devices) m.(mm_sender_device_id) &&
  opt_exists d m.(mm_recipient_device_id) && opt_exists d m.(mm_revocation_device_id) &&
  (0 <? slen m.(mm_payload)) && (slen m.(mm_payload) <=? 4194304) &&
  bool_decide (message_by_mls_key d m.(mm_sender_device_id) m.(mm_idempotency_key) = None).

Definition insert_mls_row (id : string) (m : MlsMessageRow) : Tx unit :=
  d ← read (fun d => d);
  guard_tx (mls_row_ok d id m) ErrConstraint ≫= fun _ =>
  on_mls (upd_mls_messages (insert id m)).

Definition set_event_device (eventID : Z) (deviceID : string) : Tx unit :=
  on_events (upd_sync_events (alter (fun e =>
    mkSyncEventRow e.(se_type) e.(se_account_id) e.(se_conversation_id) (Some deviceID) e.(se_payload) e.(se_created_at)) eventID)).

Definition set_mls_event (id : string) (eventID : Z) : Tx unit :=
  on_mls (upd_mls_messages (alter (fun m =>
    mkMlsMessageRow m.(mm_conversation_id) m.(mm_sender_account_id) m.(mm_sender_device_id) m.(mm_recipient_device_id)
      m.(mm_revocation_device_id) m.(mm_kind) m.(mm_payload) m.(mm_idempotency_key) (Some eventID) m.(mm_created_at)) id)).

Definition mls_payload (id kind : string) : Payload := [("mls_message_id", VStr id); ("kind", VStr kind)]%string.

Definition insertMLSMessage (id : string) (row : mlsMessageRow) : Tx MLSMessage :=
  insert_mls_row id (mkMlsMessageRow row.(row_conversationID) row.(row_senderAccountID) row.(row_senderDeviceID)
    (nullableEmptyString row.(row_recipientDeviceID)) (nullableEmptyString row.(row_revocationDeviceID)) row.(row_kind)
    row.(row_payload) row.(row_idempotencyKey) None row.(row_createdAt)) ≫= fun _ =>
  let accountID := if row.(row_recipientAccountID) =s? "" then None else Some row.(row_recipientAccountID) in
  eventID ← insertSyncEvent "mls.message.created" accountID row.(row_conversationID) (mls_payload id row.(row_kind)) row.(row_createdAt);
  (if row.(row_recipientDeviceID) =s? "" then mret tt else set_event_device eventID row.(row_recipientDeviceID)) ≫= fun _ =>
  set_mls_event id eventID ≫= fun _ =>
  mret (mkMLSMessage id row.(row_conversationID) row.(row_senderAccountID) row.(row_senderDeviceID) row.(row_recipientDeviceID)
    row.(row_revocationDeviceID) row.(row_kind) row.(row_payload) row.(row_idempotencyKey) eventID row.(row_createdAt) 0).

(** ** Revocations *)

(** [SELECT MIN(created_at)] of the conversation's messages. *)
Definition oldest_message (d : DB) (conversationID : string) : option Z :=
  minimum (omap (fun '(_, m) => if m.(mm_conversation_id) =s? conversationID then Some m.(mm_created_at) else None)
             (map_to_list d.(mls).(mls_messages))).

Definition mlsLegacyLeafEvidence (d : DB) (conversationID deviceID : string) (createdAt : Z) : bool :=
  existsb (fun '(_, m) => (m.(mm_conversation_id) =s? conversationID) &&
     ((m.(mm_sender_device_id) =s? deviceID) ||
      ((m.(mm_kind) =s? "welcome") && bool_decide (m.(mm_recipient_device_id) = Some deviceID))))
    (map_to_list d.(mls).(mls_messages)) ||
  match oldest_message d conversationID with Some t => createdAt <=? t | None => false end.

Definition mlsRevocationEligibleDevice (d : DB) (conversationID revokedDeviceID deviceID : string) : bool :=
  match d.(rooms).(devices) !! deviceID with
  | Some ed =>
      bool_decide (ed.(dev_revoked_at) = None) && is_member d conversationID ed.(dev_account_id) &&
      negb (deviceID =s? revokedDeviceID) &&
      (activeMLSDevice d conversationID deviceID ||
       (bool_decide (mlsGroupEpoch d conversationID = None) && mlsLegacyLeafEvidence d conversationID deviceID ed.(dev_created_at)))
  | None => false
  end.

Definition mlsRevocationTargetInGroup (d : DB) (conversationID revokedDeviceID : string) : bool :=
  if bool_decide (is_Some (mlsGroupEpoch d conversationID)) then activeMLSDevice d conversationID revokedDeviceID
  else has_messages d conversationID.

Definition mlsRevocationCoordinator (d : DB) (conversationID revokedDeviceID : string) (r : RevocationRow) : option string :=
  if negb (mlsRevocationTargetInGroup d conversationID revokedDeviceID) then None
  else if mlsRevocationEligibleDevice d conversationID revokedDeviceID r.(rv_coordinator_device_id)
  then Some r.(rv_coordinator_device_id)
  else min_string (List.filter (mlsRevocationEligibleDevice d conversationID revokedDeviceID) (map_to_list d.(rooms).(devices)).*1).

Definition mlsRevocationCommitAllowed (d : DB) (conversationID revokedDeviceID deviceID : string) : bool :=
  match d.(mls).(mls_revocations) !! (conversationID, revokedDeviceID) with
  | Some r => (r.(rv_state) =s? "pending") &&
              bool_decide (mlsRevocationCoordinator d conversationID revokedDeviceID r = Some deviceID)
  | None => false
  end.

(** Revocations of the keys [gone] go with their required devices. *)
Definition delete_revocations (gone : string * string -> bool) : Tx unit :=
  on_mls (fun m => upd_mls_required (filter (fun kv => gone kv.1.1 = false))
                     (upd_mls_revocations (filter (fun kv => gone kv.1 = false)) m)).

Definition stale_revocation (d : DB) (conversationID : string) (k : string * string) : bool :=
  (k.1 =s? conversationID) &&
  match d.(mls).(mls_revocations) !! k with Some r => r.(rv_state) =s? "pending" | None => false end &&
  bool_decide (is_Some (mlsGroupEpoch d k.1)) && negb (activeMLSDevice d k.1 k.2).

Definition dropStaleMLSRevocations (conversationID : string) : Tx unit :=
  d ← read (fun d => d);
  delete_revocations (stale_revocation d conversationID).

Definition set_revocation (k : string * string) (f : RevocationRow -> RevocationRow) : Tx unit :=
  on_mls (upd_mls_revocations (alter f k)).

Definition unconfirmed (d : DB) (conversationID revokedDeviceID : string) : Z :=
  len (List.filter (fun '(k, confirmed) => (k.1.1 =s? conversationID) && (k.1.2 =s? revokedDeviceID) && bool_decide (confirmed = None))
         (map_to_list d.(mls).(mls_required))).

Definition revocation_state (d : DB) (conversationID revokedDeviceID : string) : option string :=
  rv_state <$> d.(mls).(mls_revocations) !! (conversationID, revokedDeviceID).

Definition completed (now : Z) (r : RevocationRow) : RevocationRow :=
  mkRevocationRow r.(rv_account_id) r.(rv_coordinator_device_id) "completed" r.(rv_commit_message_id) r.(rv_requested_at) (Some now).
Definition submitted (commitID : string) (r : RevocationRow) : RevocationRow :=
  mkRevocationRow r.(rv_account_id) r.(rv_coordinator_device_id) "commit_submitted" (Some commitID) r.(rv_requested_at) r.(rv_completed_at).

Definition completeMLSRevocationIfConfirmed (conversationID revokedDeviceID : string) (now : Z) : Tx Z :=
  d ← read (fun d => d);
  if negb (unconfirmed d conversationID revokedDeviceID =? 0) then mret 0
  else if bool_decide (revocation_state d conversationID revokedDeviceID = Some "commit_submitted"%string) then
    set_revocation (conversationID, revokedDeviceID) (completed now) ≫= fun _ =>
    insertSyncEvent "mls.revocation.completed" None conversationID [("device_id", VStr revokedDeviceID)]%string now
  else mret 0.

(** The commit of a revocation: pending becomes submitted, the committer has
    confirmed. *)
Definition submit_revocation (commitID conversationID revokedDeviceID senderDeviceID : string) (now : Z) : Tx Z :=
  set_revocation (conversationID, revokedDeviceID) (fun r => if r.(rv_state) =s? "pending" then submitted commitID r else r) ≫= fun _ =>
  on_mls (upd_mls_required (alter (fun _ => Some now) (conversationID, revokedDeviceID, senderDeviceID))) ≫= fun _ =>
  completeMLSRevocationIfConfirmed conversationID revokedDeviceID now.

(** The revocations an unconfirmed device holds up, in order. *)
Definition waiting_on (d : DB) (deviceID : string) : list (string * string) :=
  order_by (fun a b => str_le a.1 b.1 && (negb (a.1 =s? b.1) || str_le a.2 b.2))
    (omap (fun '(k, confirmed) => if (k.2 =s? deviceID) && bool_decide (confirmed = None) then Some k.1 else None)
       (map_to_list d.(mls).(mls_required))).

Definition releaseMLSRevocationConfirmations (deviceID : string) (now : Z) : Tx unit :=
  released ← read (fun d => waiting_on d deviceID);
  if len released =? 0 then mret tt
  else
    on_mls (upd_mls_required (map_imap (fun k confirmed =>
      Some (if (k.2 =s? deviceID) && bool_decide (confirmed = None) then Some now else confirmed)))) ≫= fun _ =>
    for_each released (fun k => completeMLSRevocationIfConfirmed k.1 k.2 now ≫= fun _ => mret tt).

Definition ConfirmMLSRevocation (confirmedAt now : Z) (conversationID revokedDeviceID accountID deviceID : string) : Tx Z :=
  transaction (
    d ← read (fun d => d);
    let row := d.(mls).(mls_required) !! (conversationID, revokedDeviceID, deviceID) in
    if bool_decide (row = Some None) && is_member d conversationID accountID &&
       bool_decide (revocation_state d conversationID revokedDeviceID = Some "commit_submitted"%string) then
      on_mls (upd_mls_required (insert (conversationID, revokedDeviceID, deviceID) (Some confirmedAt))) ≫= fun _ =>
      completeMLSRevocationIfConfirmed conversationID revokedDeviceID now
    else
      guard_tx match row with Some (Some _) => true | _ => false end ErrForbidden ≫= fun _ =>
      mret 0).

Record MLSRevocation := mkMLSRevocation {
  mv_ConversationID : string; mv_RevokedDeviceID : string; mv_RevokedAccountID : string; mv_CoordinatorDeviceID : string;
  mv_State : string; mv_CommitMessageID : option string; mv_RequestedAt : Z; mv_CompletedAt : option Z }.

Definition ListMLSRevocations (d : DB) (accountID deviceID : string) : list MLSRevocation :=
  order_by (fun a b => stamp_le (a.(mv_RequestedAt), a.(mv_ConversationID)) (b.(mv_RequestedAt), b.(mv_ConversationID)))
    (omap (fun '((c, revoked), r) =>
       let pending := r.(rv_state) =s? "pending" in
       let coordinator := if pending then mlsRevocationCoordinator d c revoked r else None in
       if is_member d c accountID && negb (r.(rv_state) =s? "completed") &&
          (bool_decide (d.(mls).(mls_required) !! (c, revoked, deviceID) = Some None) ||
           (pending && bool_decide (coordinator = Some deviceID)))
       then Some (mkMLSRevocation c revoked r.(rv_account_id)
                    (if pending then default ""%string coordinator else r.(rv_coordinator_device_id))
                    r.(rv_state) r.(rv_commit_message_id) r.(rv_requested_at) r.(rv_completed_at))
       else None) (map_to_list d.(mls).(mls_revocations))).
