(* ===== verification/MlsGroups.v ===== *)
(** * MLS group membership and key packages

    Commit bundles, pending changes and claims of
    [internal/storage/mls_group_store.go], the legacy messages of
    [mls_message_store.go], [key_package_store.go] and
    [queueMLSRevocations] of [identity_store.go]. *)

From S2P Require Import Prelude GoStrings GoJson Domain Admission Database Conversations Messages Retention Sync Mls.
From stdpp Require Import base numbers list strings gmap fin_maps sorting.
From Stdlib Require Import ZArith ZifyBool Lia.
Open Scope Z_scope.

(** ** Commit bundles *)

Definition maxMLSBundleChanges : Z := 256.
Definition maxMLSHandshake : Z := 4 * 1024 * 1024.

Record MLSDeviceRef := mkMLSDeviceRef { ref_AccountID : string; ref_DeviceID : string }.

Record MLSCommitBundleInput := mkBundle {
  in_ConversationID : string; in_SenderAccountID : string; in_SenderDeviceID : string; in_Epoch : Z;
  in_IdempotencyKey : string; in_Commit : string; in_Welcome : string; in_Added : list MLSDeviceRef;
  in_Removed : list MLSDeviceRef; in_RevocationDeviceID : string }.

Record MLSCommitBundleResult := mkBundleResult {
  br_Commit : option MLSMessage; br_Welcomes : list MLSMessage; br_Epoch : Z; br_Duplicate : bool;
  br_RevocationCompletedEventID : Z }.

(** The loop of [validMLSDeviceRefs] with the devices seen so far. *)
Fixpoint valid_refs (seen : list string) (refs : list MLSDeviceRef) : bool :=
  match refs with
  | [] => true
  | ref :: refs =>
      if (TrimSpace ref.(ref_AccountID) =s? "") || (TrimSpace ref.(ref_DeviceID) =s? "") ||
         (128 <? slen ref.(ref_AccountID)) || (128 <? slen ref.(ref_DeviceID)) || mem seen ref.(ref_DeviceID)
      then false
      else valid_refs (ref.(ref_DeviceID) :: seen) refs
  end.

Definition validMLSDeviceRefs (refs : list MLSDeviceRef) : bool :=
  (len refs <=? maxMLSBundleChanges) && valid_refs [] refs.

Definition trim_bundle (i : MLSCommitBundleInput) : MLSCommitBundleInput :=
  mkBundle (TrimSpace i.(in_ConversationID)) i.(in_SenderAccountID) i.(in_SenderDeviceID) i.(in_Epoch)
    (TrimSpace i.(in_IdempotencyKey)) i.(in_Commit) i.(in_Welcome) i.(in_Added) i.(in_Removed) (TrimSpace i.(in_RevocationDeviceID)).

Definition hasCommit (i : MLSCommitBundleInput) : bool := 0 <? slen i.(in_Commit).
Definition updateOnly (i : MLSCommitBundleInput) : bool :=
  hasCommit i && (len i.(in_Added) =? 0) && (len i.(in_Removed) =? 0).

Definition names (refs : list MLSDeviceRef) (deviceID : string) : bool := existsb (fun r => r.(ref_DeviceID) =s? deviceID) refs.

(** The checks before the transaction, on the trimmed input. *)
Definition bundle_valid (i : MLSCommitBundleInput) : bool :=
  negb ((i.(in_ConversationID) =s? "") || (i.(in_SenderAccountID) =s? "") || (i.(in_SenderDeviceID) =s? "") ||
        (i.(in_Epoch) <? 0) || (i.(in_IdempotencyKey) =s? "") || (96 <? slen i.(in_IdempotencyKey)) ||
        (maxMLSHandshake <? slen i.(in_Commit)) || (maxMLSHandshake <? slen i.(in_Welcome)) ||
        negb (validMLSDeviceRefs i.(in_Added)) || negb (validMLSDeviceRefs i.(in_Removed)) ||
        negb (Bool.eqb (0 <? len i.(in_Added)) (0 <? slen i.(in_Welcome))) ||
        (negb (hasCommit i) && ((0 <? len i.(in_Added)) || (0 <? len i.(in_Removed)) || negb (i.(in_Epoch) =? 0)))) &&
  negb (names i.(in_Removed) i.(in_SenderDeviceID)) &&
  ((i.(in_RevocationDeviceID) =s? "") || names i.(in_Removed) i.(in_RevocationDeviceID)).

Definition checkMLSSelfUpdate (conversationID deviceID : string) (now : Z) : Tx unit :=
  d ← read (fun d => d);
  let pending :=
    existsb (fun '(k, r) => (k.1 =s? conversationID) && (r.(rv_state) =s? "pending")) (map_to_list d.(mls).(mls_revocations)) ||
    existsb (fun '(dev, r) => bool_decide (is_Some (device_account d dev)) && negb (is_member d conversationID r.(md_account_id)))
      (roster d conversationID) in
  guard_tx (negb pending) ErrMLSChangePending ≫= fun _ =>
  row ← require (d.(mls).(mls_devices) !! (conversationID, deviceID)) ErrNoRows;
  match row.(md_last_self_update_at) with
  | None => mret tt
  | Some last =>
      l ← get_limits;
      let next := time_add last (wrap64 (l.(MLSSelfUpdateMinutes) * minute)) in
      if time_before now next then refuse Admission.SelfUpdates (ErrMLSSelfUpdateLimit (time_sub next now)) else mret tt
  end.

Definition put_device (conversationID deviceID : string) (r : MlsDeviceRow) : Tx unit :=
  on_mls (upd_mls_devices (insert (conversationID, deviceID) r)).

(** The added device may join: it is an unrevoked device of the named member
    and not in the group. *)
Definition addable (d : DB) (conversationID : string) (ref : MLSDeviceRef) : bool :=
  live_device d ref.(ref_DeviceID) ref.(ref_AccountID) && is_member d conversationID ref.(ref_AccountID) &&
  negb (activeMLSDevice d conversationID ref.(ref_DeviceID)).

(** The removed device is in the group under the named account, the server
    itself wants it gone, and a pending revocation is respected. *)
Definition removable (d : DB) (conversationID revocationDeviceID : string) (ref : MLSDeviceRef) : bool :=
  match roster_row d conversationID ref.(ref_DeviceID) with
  | Some r =>
      (r.(md_account_id) =s? ref.(ref_AccountID)) &&
      (negb (is_member d conversationID r.(md_account_id)) || bool_decide (device_account d ref.(ref_DeviceID) = None)) &&
      (negb (bool_decide (revocation_state d conversationID ref.(ref_DeviceID) = Some "pending"%string)) ||
       (ref.(ref_DeviceID) =s? revocationDeviceID))
  | None => false
  end.

(** A new group, with the sender as its only device. *)
Definition create_group (i : MLSCommitBundleInput) : Tx unit :=
  d ← read (fun d => d);
  guard_tx (negb (has_messages d i.(in_ConversationID))) ErrMLSGroupLegacy ≫= fun _ =>
  guard_tx ((i.(in_Epoch) =? 0) && (len i.(in_Removed) =? 0) && (i.(in_RevocationDeviceID) =s? "")) ErrMLSEpochConflict ≫= fun _ =>
  guard_tx (exists_in d.(rooms).(conversations) i.(in_ConversationID)) ErrConstraint ≫= fun _ =>
  on_mls (upd_mls_groups (insert i.(in_ConversationID) 0)) ≫= fun _ =>
  guard_tx (bool_decide (d.(mls).(mls_devices) !! (i.(in_ConversationID), i.(in_SenderDeviceID)) = None)) ErrConstraint ≫= fun _ =>
  put_device i.(in_ConversationID) i.(in_SenderDeviceID) (mkMlsDeviceRow i.(in_SenderAccountID) 0 0 None None) ≫= fun _ =>
  dropStaleMLSRevocations i.(in_ConversationID).

Definition commit_row (i : MLSCommitBundleInput) (now : Z) : mlsMessageRow :=
  mkmlsMessageRow i.(in_ConversationID) i.(in_SenderAccountID) i.(in_SenderDeviceID) "" "" i.(in_RevocationDeviceID)
    "commit" i.(in_Commit) i.(in_IdempotencyKey) now.
Definition welcome_row (i : MLSCommitBundleInput) (now : Z) (ref : MLSDeviceRef) : mlsMessageRow :=
  mkmlsMessageRow i.(in_ConversationID) i.(in_SenderAccountID) i.(in_SenderDeviceID) ref.(ref_AccountID) ref.(ref_DeviceID) ""
    "welcome" i.(in_Welcome) (i.(in_IdempotencyKey) +:+ ":welcome:" +:+ ref.(ref_DeviceID)) now.

Definition mark_removed (conversationID : string) (eventID : Z) (ref : MLSDeviceRef) : Tx unit :=
  on_mls (upd_mls_devices (alter (fun r =>
    if bool_decide (r.(md_removed_after_event_id) = None)
    then mkMlsDeviceRow r.(md_account_id) r.(md_joined_after_event_id) r.(md_joined_epoch) (Some eventID) r.(md_last_self_update_at)
    else r) (conversationID, ref.(ref_DeviceID)))).

(** [INSERT ... ON CONFLICT DO UPDATE]: a device that returns keeps its
    self-update time. *)
Definition join_device (conversationID : string) (eventID epoch : Z) (ref : MLSDeviceRef) : Tx unit :=
  d ← read (fun d => d);
  put_device conversationID ref.(ref_DeviceID) (mkMlsDeviceRow ref.(ref_AccountID) eventID epoch None
    (match d.(mls).(mls_devices) !! (conversationID, ref.(ref_DeviceID)) with Some r => r.(md_last_self_update_at) | None => None end)).

Fixpoint welcome_all (newID : Z -> string) (n : Z) (i : MLSCommitBundleInput) (now eventID epoch : Z) (refs : list MLSDeviceRef)
    : Tx (list MLSMessage) :=
  match refs with
  | [] => mret []
  | ref :: refs =>
      join_device i.(in_ConversationID) eventID epoch ref ≫= fun _ =>
      welcome ← insertMLSMessage (newID n) (welcome_row i now ref);
      rest ← welcome_all newID (n + 1) i now eventID epoch refs;
      mret (welcome :: rest)
  end.

(** Storing an accepted commit built on [epoch]. *)
Definition apply_bundle (newID : Z -> string) (now epoch : Z) (i : MLSCommitBundleInput) : Tx MLSCommitBundleResult :=
  let c := i.(in_ConversationID) in
  commit ← insertMLSMessage (newID 0) (commit_row i now);
  on_mls (upd_mls_groups (alter (fun e => e + 1) c)) ≫= fun _ =>
  (if updateOnly i then
     on_mls (upd_mls_devices (alter (fun r => mkMlsDeviceRow r.(md_account_id) r.(md_joined_after_event_id) r.(md_joined_epoch)
       r.(md_removed_after_event_id) (Some now)) (c, i.(in_SenderDeviceID))))
   else mret tt) ≫= fun _ =>
  for_each i.(in_Removed) (mark_removed c commit.(ml_SyncEventID)) ≫= fun _ =>
  welcomes ← welcome_all newID 1 i now commit.(ml_SyncEventID) (epoch + 1) i.(in_Added);
  completedEventID ← (if i.(in_RevocationDeviceID) =s? "" then mret 0
                      else submit_revocation commit.(ml_ID) c i.(in_RevocationDeviceID) i.(in_SenderDeviceID) now);
  dropStaleMLSRevocations c ≫= fun _ =>
  mret (mkBundleResult (Some commit) welcomes (epoch + 1) false completedEventID).

(** An earlier bundle of the device under the same idempotency key. *)
Definition existing_commit (d : DB) (i : MLSCommitBundleInput) : option (string * MlsMessageRow) :=
  if hasCommit i then message_by_mls_key d i.(in_SenderDeviceID) i.(in_IdempotencyKey) else None.

Definition same_commit (i : MLSCommitBundleInput) (m : MlsMessageRow) : bool :=
  (m.(mm_conversation_id) =s? i.(in_ConversationID)) && (m.(mm_kind) =s? "commit") && (m.(mm_payload) =s? i.(in_Commit)).

(** Checks on the roster change, and the commit when they pass. *)
Definition commit_bundle (newID : Z -> string) (now epoch : Z) (i : MLSCommitBundleInput) : Tx MLSCommitBundleResult :=
  let c := i.(in_ConversationID) in
  (if updateOnly i then checkMLSSelfUpdate c i.(in_SenderDeviceID) now else mret tt) ≫= fun _ =>
  d ← read (fun d => d);
  guard_tx (forallb (addable d c) i.(in_Added) && forallb (removable d c i.(in_RevocationDeviceID)) i.(in_Removed)) ErrForbidden ≫= fun _ =>
  guard_tx ((i.(in_RevocationDeviceID) =s? "") || mlsRevocationCommitAllowed d c i.(in_RevocationDeviceID) i.(in_SenderDeviceID))
    ErrForbidden ≫= fun _ =>
  apply_bundle newID now epoch i.

Definition CreateMLSCommitBundle (newID : Z -> string) (now : Z) (input : MLSCommitBundleInput) : Tx MLSCommitBundleResult :=
  let i := trim_bundle input in
  let c := i.(in_ConversationID) in
  guard_tx (bundle_valid i) ErrInvalidInput ≫= fun _ =>
  transaction (
    d ← read (fun d => d);
    guard_tx (is_member d c i.(in_SenderAccountID) && live_device d i.(in_SenderDeviceID) i.(in_SenderAccountID)) ErrNotMember ≫= fun _ =>
    match existing_commit d i with
    | Some (id, m) =>
        guard_tx (same_commit i m) ErrIdempotencyConflict ≫= fun _ =>
        mret (mkBundleResult (Some (scanMLSMessage id m)) [] (default 0 (mlsGroupEpoch d c)) true 0)
    | None =>
        match mlsGroupEpoch d c with
        | None =>
            guard_tx (negb (updateOnly i)) ErrMLSNotInGroup ≫= fun _ =>
            create_group i ≫= fun _ =>
            if hasCommit i then commit_bundle newID now 0 i else mret (mkBundleResult None [] 0 false 0)
        | Some epoch =>
            guard_tx (activeMLSDevice d c i.(in_SenderDeviceID)) ErrMLSNotInGroup ≫= fun _ =>
            if negb (hasCommit i) then mret (mkBundleResult None [] epoch true 0)
            else guard_tx (i.(in_Epoch) =? epoch) ErrMLSEpochConflict ≫= fun _ => commit_bundle newID now epoch i
        end
    end).

(** ** Legacy messages *)

Record CreateMLSMessageInput := mkMLSInput {
  mi_ConversationID : string; mi_SenderAccountID : string; mi_SenderDeviceID : string; mi_RecipientDeviceID : string;
  mi_RevocationDeviceID : string; mi_Kind : string; mi_Payload : string; mi_IdempotencyKey : string }.

Definition trim_message (i : CreateMLSMessageInput) : CreateMLSMessageInput :=
  mkMLSInput (TrimSpace i.(mi_ConversationID)) i.(mi_SenderAccountID) i.(mi_SenderDeviceID) (TrimSpace i.(mi_RecipientDeviceID))
    (TrimSpace i.(mi_RevocationDeviceID)) (TrimSpace i.(mi_Kind)) i.(mi_Payload) (TrimSpace i.(mi_IdempotencyKey)).

Definition message_valid (i : CreateMLSMessageInput) : bool :=
  negb ((i.(mi_ConversationID) =s? "") || (i.(mi_SenderAccountID) =s? "") || (i.(mi_SenderDeviceID) =s? "") ||
        (negb (i.(mi_Kind) =s? "welcome") && negb (i.(mi_Kind) =s? "commit")) || (slen i.(mi_Payload) =? 0) ||
        (4 * 1024 * 1024 <? slen i.(mi_Payload)) || (i.(mi_IdempotencyKey) =s? "") || (128 <? slen i.(mi_IdempotencyKey)) ||
        ((i.(mi_Kind) =s? "welcome") && (i.(mi_RecipientDeviceID) =s? "")) || (i.(mi_RecipientDeviceID) =s? i.(mi_SenderDeviceID)) ||
        (negb (i.(mi_RevocationDeviceID) =s? "") && (negb (i.(mi_Kind) =s? "commit") || negb (i.(mi_RecipientDeviceID) =s? "")))).

Definition same_message (i : CreateMLSMessageInput) (m : MlsMessageRow) : bool :=
  (m.(mm_conversation_id) =s? i.(mi_ConversationID)) && (m.(mm_kind) =s? i.(mi_Kind)) &&
  (default ""%string m.(mm_recipient_device_id) =s? i.(mi_RecipientDeviceID)) &&
  (default ""%string m.(mm_revocation_device_id) =s? i.(mi_RevocationDeviceID)) && (m.(mm_payload) =s? i.(mi_Payload)).

(** The account the message is for, an unrevoked device of a member. *)
Definition recipient_account (d : DB) (conversationID recipientDeviceID : string) : option string :=
  match device_account d recipientDeviceID with
  | Some a => if is_member d conversationID a then Some a else None
  | None => None
  end.

(** Storing the message, its event and the revocation it commits. *)
Definition store_message (newID : string) (now : Z) (i : CreateMLSMessageInput) (recipient : option string) : Tx (MLSMessage * bool) :=
  insert_mls_row newID (mkMlsMessageRow i.(mi_ConversationID) i.(mi_SenderAccountID) i.(mi_SenderDeviceID)
    (nullableEmptyString i.(mi_RecipientDeviceID)) (nullableEmptyString i.(mi_RevocationDeviceID)) i.(mi_Kind) i.(mi_Payload)
    i.(mi_IdempotencyKey) None now) ≫= fun _ =>
  eventID ← insertSyncEvent "mls.message.created" recipient i.(mi_ConversationID) (mls_payload newID i.(mi_Kind)) now;
  set_mls_event newID eventID ≫= fun _ =>
  completedEventID ← (if i.(mi_RevocationDeviceID) =s? "" then mret 0
                      else submit_revocation newID i.(mi_ConversationID) i.(mi_RevocationDeviceID) i.(mi_SenderDeviceID) now);
  mret (mkMLSMessage newID i.(mi_ConversationID) i.(mi_SenderAccountID) i.(mi_SenderDeviceID) i.(mi_RecipientDeviceID)
    i.(mi_RevocationDeviceID) i.(mi_Kind) i.(mi_Payload) i.(mi_IdempotencyKey) eventID now completedEventID, false).

Definition CreateMLSMessage (newID : string) (now : Z) (input : CreateMLSMessageInput) : Tx (MLSMessage * bool) :=
  let i := trim_message input in
  let c := i.(mi_ConversationID) in
  guard_tx (message_valid i) ErrInvalidInput ≫= fun _ =>
  transaction (
    d ← read (fun d => d);
    guard_tx (is_member d c i.(mi_SenderAccountID) && live_device d i.(mi_SenderDeviceID) i.(mi_SenderAccountID)) ErrNotMember ≫= fun _ =>
    guard_tx (bool_decide (mlsGroupEpoch d c = None)) ErrMLSBundleRequired ≫= fun _ =>
    match message_by_mls_key d i.(mi_SenderDeviceID) i.(mi_IdempotencyKey) with
    | Some (id, m) =>
        guard_tx (same_message i m) ErrIdempotencyConflict ≫= fun _ => mret (scanMLSMessage id m, true)
    | None =>
        guard_tx ((i.(mi_RevocationDeviceID) =s? "") || mlsRevocationCommitAllowed d c i.(mi_RevocationDeviceID) i.(mi_SenderDeviceID))
          ErrForbidden ≫= fun _ =>
        if i.(mi_RecipientDeviceID) =s? "" then store_message newID now i None
        else a ← require (recipient_account d c i.(mi_RecipientDeviceID)) ErrForbidden; store_message newID now i (Some a)
    end).

(** The rows of one device: its own Welcomes, and undirected messages inside
    its window of the group. *)
Definition mlsJoinFilterMessage (d : DB) (deviceID : string) (m : MlsMessageRow) : bool :=
  negb (exists_in d.(mls).(mls_groups) m.(mm_conversation_id)) ||
  match d.(mls).(mls_devices) !! (m.(mm_conversation_id), deviceID), m.(mm_sync_event_id) with
  | Some jd, Some id => mls_window id jd
  | _, _ => false
  end.

Definition mls_visible (d : DB) (accountID deviceID : string) (m : MlsMessageRow) : bool :=
  is_member d m.(mm_conversation_id) accountID &&
  (bool_decide (m.(mm_recipient_device_id) = Some deviceID) ||
   (bool_decide (m.(mm_recipient_device_id) = None) && mlsJoinFilterMessage d deviceID m)).

Definition MLSMessage_get (id accountID deviceID : string) : Tx MLSMessage :=
  d ← read (fun d => d);
  m ← require (d.(mls).(mls_messages) !! id) ErrNotFound;
  guard_tx (mls_visible d accountID deviceID m) ErrNotFound ≫= fun _ =>
  mret (scanMLSMessage id m).

Definition mls_list_limit (limit : Z) : Z := if (limit <=? 0) || (200 <? limit) then 100 else limit.

Definition ListMLSMessages (d : DB) (accountID deviceID : string) (afterEventID limit : Z) : list MLSMessage :=
  take (Z.to_nat (mls_list_limit limit))
    (order_by (fun a b => a.(ml_SyncEventID) <=? b.(ml_SyncEventID))
      (omap (fun '(id, m) => match m.(mm_sync_event_id) with
                             | Some ev => if (afterEventID <? ev) && mls_visible d accountID deviceID m
                                          then Some (scanMLSMessage id m) else None
                             | None => None
                             end) (map_to_list d.(mls).(mls_messages)))).

(** ** Key packages *)

Record DeviceKeyPackage := mkDeviceKeyPackage {
  dk_ID : string; dk_DeviceID : string; dk_AccountID : string; dk_KeyPackage : string; dk_Ciphersuite : string;
  dk_CreatedAt : Z; dk_ExpiresAt : Z }.
Record NewDeviceKeyPackage := mkNewDeviceKeyPackage { nk_KeyPackage : string; nk_Ciphersuite : string; nk_ExpiresAt : Z }.

Definition openMLSCiphersuite : string := "MLS_128_DHKEMX25519_AES128GCM_SHA256_Ed25519".
Definition KeyPackageClaimWindow : Z := 24 * hour.

(** The packages of the device that devices of the requester have claimed
    within the window. *)
Definition recent_claims (d : DB) (targetDeviceID requesterAccountID : string) (now : Z) : Z :=
  len (List.filter (fun '(_, k) => (k.(kp_device_id) =s? targetDeviceID) &&
    match k.(kp_claimed_at), k.(kp_claimed_by_device_id) with
    | Some t, Some dev => (time_add now (- KeyPackageClaimWindow) <? t) &&
                          bool_decide (dev_account_id <$> d.(rooms).(devices) !! dev = Some requesterAccountID)
    | _, _ => false
    end) (map_to_list d.(mls).(key_packages))).

Definition keyPackageClaimAllowed (l : Limits) (d : DB) (targetDeviceID targetAccountID requesterAccountID : string) (now : Z) : bool :=
  (targetAccountID =s? requesterAccountID) || (recent_claims d targetDeviceID requesterAccountID now <? l.(KeyPackageClaimsPerTarget)).

Definition insert_key_package (id : string) (k : KeyPackageRow) : Tx unit :=
  d ← read (fun d => d);
  guard_tx (negb (exists_in d.(mls).(key_packages) id) && exists_in d.(rooms).(devices) k.(kp_device_id)) ErrConstraint ≫= fun _ =>
  on_mls (upd_key_packages (insert id k)).

Definition insertInitialDeviceKeyPackage (newID deviceID keyPackage : string) (createdAt : Z) : Tx unit :=
  insert_key_package newID (mkKeyPackageRow deviceID keyPackage openMLSCiphersuite createdAt (time_add createdAt (30 * 24 * hour)) None None).

Definition unclaimed (now : Z) (deviceID : string) (k : KeyPackageRow) : bool :=
  (k.(kp_device_id) =s? deviceID) && bool_decide (k.(kp_claimed_at) = None) && (now <? k.(kp_expires_at)).

Fixpoint publish_all (newID : Z -> string) (n : Z) (deviceID : string) (createdAt : Z) (packages : list NewDeviceKeyPackage)
    : Tx (list DeviceKeyPackage) :=
  match packages with
  | [] => mret []
  | p :: packages =>
      insert_key_package (newID n) (mkKeyPackageRow deviceID p.(nk_KeyPackage) p.(nk_Ciphersuite) createdAt p.(nk_ExpiresAt) None None) ≫= fun _ =>
      rest ← publish_all newID (n + 1) deviceID createdAt packages;
      mret (mkDeviceKeyPackage (newID n) deviceID "" p.(nk_KeyPackage) p.(nk_Ciphersuite) createdAt p.(nk_ExpiresAt) :: rest)
  end.

Definition PublishDeviceKeyPackages (newID : Z -> string) (checkedAt now : Z) (deviceID : string) (packages : list NewDeviceKeyPackage)
    : Tx (list DeviceKeyPackage) :=
  transaction (
    d ← read (fun d => d);
    guard_tx (bool_decide (is_Some (device_account d deviceID))) ErrForbidden ≫= fun _ =>
    let available := len (List.filter (fun '(_, k) => unclaimed checkedAt deviceID k) (map_to_list d.(mls).(key_packages))) in
    guard_tx (available + len packages <=? 50) ErrStorageQuota ≫= fun _ =>
    publish_all newID 0 deviceID now packages).

(** [ORDER BY created_at, id LIMIT 1] *)
Definition next_package (d : DB) (now : Z) (deviceID : string) : option (string * KeyPackageRow) :=
  head (order_by (fun a b => stamp_le (a.2.(kp_created_at), a.1) (b.2.(kp_created_at), b.1))
    (List.filter (fun '(_, k) => unclaimed now deviceID k) (map_to_list d.(mls).(key_packages)))).

Definition claimed_row (now : Z) (requesterDeviceID : string) (k : KeyPackageRow) : KeyPackageRow :=
  mkKeyPackageRow k.(kp_device_id) k.(kp_key_package) k.(kp_ciphersuite) k.(kp_created_at) k.(kp_expires_at) (Some now) (Some requesterDeviceID).

(** [UPDATE ... SET claimed_at = ?, claimed_by_device_id = ? WHERE id = ?];
    the claimer is a device of the table. *)
Definition take_package (now : Z) (requesterDeviceID deviceID accountID : string) (id : string) (k : KeyPackageRow) : Tx DeviceKeyPackage :=
  d ← read (fun d => d);
  guard_tx (exists_in d.(rooms).(devices) requesterDeviceID) ErrConstraint ≫= fun _ =>
  on_mls (upd_key_packages (insert id (claimed_row now requesterDeviceID k))) ≫= fun _ =>
  mret (mkDeviceKeyPackage id deviceID accountID k.(kp_key_package) k.(kp_ciphersuite) k.(kp_created_at) k.(kp_expires_at)).

(** The other devices of the conversation's members, by account and id. *)
Definition claim_targets (d : DB) (conversationID requesterDeviceID : string) : list (string * string) :=
  order_by (fun a b => str_le a.2 b.2 && (negb (a.2 =s? b.2) || str_le a.1 b.1))
    (omap (fun '(dev, r) => if bool_decide (r.(dev_revoked_at) = None) && is_member d conversationID r.(dev_account_id) &&
                               negb (dev =s? requesterDeviceID) then Some (dev, r.(dev_account_id)) else None)
       (map_to_list d.(rooms).(devices))).

Fixpoint claim_all (now : Z) (requesterAccountID requesterDeviceID : string) (targets : list (string * string)) : Tx (list DeviceKeyPackage) :=
  match targets with
  | [] => mret []
  | (deviceID, accountID) :: targets =>
      d ← read (fun d => d);
      l ← get_limits;
      (if keyPackageClaimAllowed l d deviceID accountID requesterAccountID now then mret tt
       else refuse Admission.KeyPackages ErrKeyPackageClaimLimit) ≫= fun _ =>
      p ← require (next_package d now deviceID) ErrKeyPackageUnavailable;
      item ← take_package now requesterDeviceID deviceID accountID p.1 p.2;
      rest ← claim_all now requesterAccountID requesterDeviceID targets;
      mret (item :: rest)
  end.

Definition ClaimConversationKeyPackages (now : Z) (conversationID requesterAccountID requesterDeviceID : string) : Tx (list DeviceKeyPackage) :=
  transaction (
    d ← read (fun d => d);
    guard_tx (is_member d conversationID requesterAccountID) ErrNotMember ≫= fun _ =>
    claim_all now requesterAccountID requesterDeviceID (claim_targets d conversationID requesterDeviceID)).

(** A refusal that the caller ignores only counts. *)
Definition count_refusal (limit : string) : Tx unit := fun s =>
  (Ok tt, mkStore s.(db) s.(limits) (Reject limit s.(admission)) s.(redactCursor) s.(session_policy)).

Fixpoint claim_each (now : Z) (conversationID requesterAccountID requesterDeviceID : string) (seen deviceIDs : list string)
    : Tx (list DeviceKeyPackage) :=
  match deviceIDs with
  | [] => mret []
  | raw :: deviceIDs =>
      let deviceID := TrimSpace raw in
      guard_tx (negb ((deviceID =s? "") || (deviceID =s? requesterDeviceID) || mem seen deviceID)) ErrInvalidInput ≫= fun _ =>
      d ← read (fun d => d);
      accountID ← require (recipient_account d conversationID deviceID) ErrForbidden;
      l ← get_limits;
      let continue := claim_each now conversationID requesterAccountID requesterDeviceID (deviceID :: seen) deviceIDs in
      if negb (keyPackageClaimAllowed l d deviceID accountID requesterAccountID now) then
        count_refusal Admission.KeyPackages ≫= fun _ => continue
      else match next_package d now deviceID with
           | None => continue
           | Some (id, k) =>
               item ← take_package now requesterDeviceID deviceID accountID id k;
               rest ← continue;
               mret (item :: rest)
           end
  end.

Definition ClaimDeviceKeyPackages (now : Z) (conversationID requesterAccountID requesterDeviceID : string) (deviceIDs : list string)
    : Tx (list DeviceKeyPackage) :=
  guard_tx (negb (len deviceIDs =? 0) && (len deviceIDs <=? maxMLSBundleChanges)) ErrInvalidInput ≫= fun _ =>
  transaction (
    d ← read (fun d => d);
    guard_tx (is_member d conversationID requesterAccountID) ErrNotMember ≫= fun _ =>
    guard_tx (activeMLSDevice d conversationID requesterDeviceID) ErrMLSNotInGroup ≫= fun _ =>
    claim_each now conversationID requesterAccountID requesterDeviceID [] deviceIDs).

(** ** Pending changes *)

Record MLSPendingChange := mkPendingChange {
  pc_ConversationID : string; pc_Epoch : Z; pc_Add : list MLSDeviceRef; pc_Remove : list MLSDeviceRef;
  pc_CoordinatorDeviceID : string; pc_Truncated : bool }.

Definition mlsPendingChangeLimit : Z := 2000.

(** The groups the requester's device is in, by conversation id. *)
Definition my_groups (d : DB) (accountID deviceID : string) : list (string * Z) :=
  order_by (fun a b => str_le a.1 b.1)
    (List.filter (fun '(c, _) => activeMLSDevice d c deviceID && is_member d c accountID) (map_to_list d.(mls).(mls_groups))).

(** Group devices whose account left, by device id. *)
Definition to_remove (d : DB) (c : string) : list MLSDeviceRef :=
  map (fun '(dev, r) => mkMLSDeviceRef r.(md_account_id) dev)
    (order_by (fun a b => str_le a.1 b.1)
      (List.filter (fun '(dev, r) => bool_decide (is_Some (device_account d dev)) && negb (is_member d c r.(md_account_id))) (roster d c))).

Definition claimable_device (d : DB) (now : Z) (dev : string) : bool :=
  existsb (fun '(_, k) => unclaimed now dev k) (map_to_list d.(mls).(key_packages)).

(** Member devices outside the group: those with a usable key package first,
    then by device id. *)
Definition to_add (d : DB) (now : Z) (c : string) : list MLSDeviceRef :=
  map (fun '(dev, r) => mkMLSDeviceRef r.(dev_account_id) dev)
    (order_by (fun a b => (claimable_device d now a.1 && negb (claimable_device d now b.1)) ||
                          (Bool.eqb (claimable_device d now a.1) (claimable_device d now b.1) && str_le a.1 b.1))
      (List.filter (fun '(dev, r) => bool_decide (r.(dev_revoked_at) = None) && is_member d c r.(dev_account_id) &&
                                     negb (activeMLSDevice d c dev)) (map_to_list d.(rooms).(devices)))).

Record pendingChangeRow := mkPendingRow { pr_conversationID : string; pr_epoch : Z; pr_ref : MLSDeviceRef }.

(** At most 257 rows per conversation and 2001 in all. *)
Definition queryPendingChanges (changes : string -> list MLSDeviceRef) (groups : list (string * Z)) : list pendingChangeRow :=
  take (Z.to_nat (mlsPendingChangeLimit + 1))
    (concat (map (fun '(c, epoch) => map (mkPendingRow c epoch) (take (Z.to_nat (maxMLSBundleChanges + 1)) (changes c))) groups)).

Definition add_pending (remove : bool) (byConversation : gmap string MLSPendingChange) (row : pendingChangeRow) : gmap string MLSPendingChange :=
  let item := default (mkPendingChange row.(pr_conversationID) row.(pr_epoch) [] [] "" false) (byConversation !! row.(pr_conversationID)) in
  let full := maxMLSBundleChanges <=? len (if remove then item.(pc_Remove) else item.(pc_Add)) in
  <[row.(pr_conversationID) :=
      mkPendingChange item.(pc_ConversationID) item.(pc_Epoch)
        (if full || remove then item.(pc_Add) else item.(pc_Add) ++ [row.(pr_ref)])
        (if full || negb remove then item.(pc_Remove) else item.(pc_Remove) ++ [row.(pr_ref)])
        item.(pc_CoordinatorDeviceID) (item.(pc_Truncated) || full)]> byConversation.

(** [SELECT MIN(r.device_id)] of the unrevoked group devices of members; a
    group the requester is in has one, the requester's own. *)
Definition coordinator_of (d : DB) (c : string) : option string :=
  min_string (List.filter (fun dev => match roster_row d c dev with
                                      | Some r => bool_decide (is_Some (device_account d dev)) && is_member d c r.(md_account_id)
                                      | None => false
                                      end) (roster d c).*1).

Definition ListMLSPendingChangesRead (now : Z) (accountID deviceID : string) : Tx (list MLSPendingChange * bool) :=
  d ← read (fun d => d);
  let groups := my_groups d accountID deviceID in
  let removes := queryPendingChanges (to_remove d) groups in
  let adds := queryPendingChanges (to_add d now) groups in
  let overall := (mlsPendingChangeLimit <? len removes) || (mlsPendingChangeLimit <? len adds) in
  let cut := take (Z.to_nat mlsPendingChangeLimit) in
  let byConversation := foldl (add_pending false) (foldl (add_pending true) ∅ (cut removes)) (cut adds) in
  let items := order_by (fun a b => str_le a.(pc_ConversationID) b.(pc_ConversationID)) (map_to_list byConversation).*2 in
  guard_tx (forallb (fun item => bool_decide (is_Some (coordinator_of d item.(pc_ConversationID)))) items) ErrEncoding ≫= fun _ =>
  mret (map (fun item => mkPendingChange item.(pc_ConversationID) item.(pc_Epoch) item.(pc_Add) item.(pc_Remove)
               (default ""%string (coordinator_of d item.(pc_ConversationID))) (item.(pc_Truncated) || overall)) items, overall).

Definition ListMLSPendingChanges (now : Z) (accountID deviceID : string) : Tx (list MLSPendingChange) :=
  r ← ListMLSPendingChangesRead now accountID deviceID;
  mret r.1.

(** ** Queueing revocations *)

(** The conversations of the account, each once. *)
Definition account_conversations (d : DB) (accountID : string) : list string := scopes_of d.(rooms).(conv_members) accountID.

(** Unrevoked devices of the members of a conversation, except one. *)
Definition member_devices (d : DB) (c except : string) : list (string * DeviceRow) :=
  List.filter (fun '(dev, r) => bool_decide (r.(dev_revoked_at) = None) && is_member d c r.(dev_account_id) && negb (dev =s? except))
    (map_to_list d.(rooms).(devices)).

(** Legacy groups of the account's conversations with their coordinator: the
    lowest device with evidence of a leaf, else the lowest device. *)
Definition legacy_revocations (d : DB) (accountID deviceID : string) : list (string * string) :=
  omap (fun c =>
    if bool_decide (mlsGroupEpoch d c = None) && has_messages d c then
      let ds := member_devices d c deviceID in
      let coordinator := or_else (min_string (List.filter (fun '(dev, r) => mlsLegacyLeafEvidence d c dev r.(dev_created_at)) ds).*1)
                                 (min_string ds.*1) in
      (fun co => (c, co)) <$> coordinator
    else None) (account_conversations d accountID).

(** Rostered groups the device is in, with the lowest other active device. *)
Definition roster_revocations (d : DB) (deviceID : string) : list (string * string) :=
  omap (fun '((c, dev), r) =>
    if (dev =s? deviceID) && bool_decide (r.(md_removed_after_event_id) = None) then
      (fun co => (c, co)) <$> min_string (List.filter (fun other => negb (other =s? deviceID) && bool_decide (is_Some (device_account d other)))
                                            (roster d c).*1)
    else None) (map_to_list d.(mls).(mls_devices)).

(** The devices that must confirm a revocation. *)
Definition required_devices (d : DB) (c deviceID : string) : list string :=
  (List.filter (fun '(dev, r) =>
     (bool_decide (mlsGroupEpoch d c = None) && mlsLegacyLeafEvidence d c dev r.(dev_created_at)) || activeMLSDevice d c dev)
    (member_devices d c deviceID)).*1.

Definition queue_revocation (accountID deviceID : string) (now : Z) (item : string * string) : Tx unit :=
  let '(c, coordinator) := item in
  d ← read (fun d => d);
  if bool_decide (is_Some (d.(mls).(mls_revocations) !! (c, deviceID))) then mret tt
  else
    guard_tx (exists_in d.(rooms).(conversations) c && exists_in d.(rooms).(devices) deviceID &&
              exists_in d.(rooms).(accounts) accountID && exists_in d.(rooms).(devices) coordinator) ErrConstraint ≫= fun _ =>
    on_mls (upd_mls_revocations (insert (c, deviceID) (mkRevocationRow accountID coordinator "pending" None now None))) ≫= fun _ =>
    on_mls (upd_mls_required (fun m => foldr (fun dev m => match m !! (c, deviceID, dev) with
                                                          | Some _ => m
                                                          | None => <[(c, deviceID, dev) := None]> m
                                                          end) m (required_devices d c deviceID))) ≫= fun _ =>
    insertSyncEvent "mls.revocation.pending" None c [("device_id", VStr deviceID); ("account_id", VStr accountID)]%string now ≫= fun _ =>
    mret tt.

Definition queueMLSRevocations (accountID deviceID : string) (now : Z) : Tx unit :=
  pending ← read (fun d => legacy_revocations d accountID deviceID ++ roster_revocations d deviceID);
  for_each pending (queue_revocation accountID deviceID now).
