(* ===== verification/MlsRules.v ===== *)
(** * Rules of MLS groups

    What the operations of [Mls] and [MlsGroups] guarantee over every
    history: commits are ordered by their epoch, no device is shown events
    from outside its window of a group, revocations move forward and finish,
    and a key package is handed out once. *)

From S2P Require Import Prelude GoStrings GoJson Domain Admission Database Conversations Memberships Messages Retention MessageEvents Sync SyncRules Mls MlsGroups.
From stdpp Require Import base numbers list strings gmap fin_maps sorting.
From Stdlib Require Import ZArith ZifyBool Lia.
Open Scope Z_scope.

(** ** Frames *)

(** A bind whose continuation relies on what the first part returns. *)
Lemma pv_bind_post {A B} (P : DB -> Prop) (Q : A -> Prop) (m : Tx A) (k : A -> Tx B) :
  preserves P m -> (forall s a s', P s.(db) -> m s = (Ok a, s') -> Q a) -> (forall a, Q a -> preserves P (k a)) ->
  preserves P (m ≫= k).
Proof.
  intros Hm HQ Hk s Hs. pose proof (Hm s Hs) as Hs1. unfold mbind, Tx_bind.
  destruct (m s) as [[a|e] s1] eqn:E; simpl in *; [|done]. apply (Hk a); eauto.
Qed.

(** A bind after reading the database. *)
Lemma pv_read {A B} (P : DB -> Prop) (f : DB -> A) (k : A -> Tx B) :
  (forall d, P d -> preserves (fun d' => P d') (fun s => k (f d) s)) -> preserves P (read f ≫= k).
Proof. intros H s Hs. exact (H s.(db) Hs s Hs). Qed.

Lemma pv_ok {A} (P : DB -> Prop) (m : Tx A) s a s' : preserves P m -> m s = (Ok a, s') -> P s.(db) -> P s'.(db).
Proof. intros Hm E Hs. specialize (Hm s Hs). by rewrite E in Hm. Qed.

Lemma pv_modify (P : DB -> Prop) f : (forall d, P d -> P (f d)) -> preserves P (modify f).
Proof. intros H s Hs. by apply H. Qed.
Lemma pv_mls (P : DB -> Prop) f : (forall d, P d -> P (upd_mls f d)) -> preserves P (on_mls f).
Proof. apply pv_modify. Qed.
Lemma pv_ret {A} (P : DB -> Prop) (a : A) : preserves P (mret a).
Proof. by intros s. Qed.
Lemma pv_guard (P : DB -> Prop) b e : preserves P (guard_tx b e).
Proof. apply pv_read_only, ro_guard. Qed.
Lemma pv_require {A} (P : DB -> Prop) (o : option A) e : preserves P (require o e).
Proof. apply pv_read_only, ro_require. Qed.
Lemma pv_count (P : DB -> Prop) l : preserves P (count_refusal l).
Proof. by intros s. Qed.
#[export] Hint Resolve pv_ret pv_guard pv_require pv_count : txs.

(** Take every successful run apart. *)
Ltac run_all :=
  repeat match goal with
  | H : on_mls _ _ = (Ok _, _) |- _ => unfold on_mls, modify in H; injection H as <- <-
  | H : insert_event _ _ = (Ok _, _) |- _ => apply insert_event_ok in H as [-> ->]
  | H : _ = (Ok _, _) |- _ => progress (run_step H)
  end.

(** A property that only the MLS tables, the devices and the event counter
    bear on, and that a growing counter keeps. *)
Class MlsFrame (P : DB -> Prop) : Prop :=
  mls_frame : forall d d', d'.(mls) = d.(mls) -> d'.(rooms).(devices) = d.(rooms).(devices) ->
    d.(events).(sync_seq) <= d'.(events).(sync_seq) -> P d -> P d'.

Section frame.
Context (P : DB -> Prop) {HP : MlsFrame P}.

Lemma pv_mls_event row : preserves P (insert_event row).
Proof. intros s Hs. eapply mls_frame, Hs; simpl; [done..|lia]. Qed.
Lemma pv_mls_rooms f : (forall r, (f r).(devices) = r.(devices)) -> preserves P (on_rooms f).
Proof. intros Hf s Hs. eapply mls_frame, Hs; simpl; [done|by rewrite Hf|done]. Qed.
Lemma pv_mls_content f : preserves P (on_content f).
Proof. intros s Hs. by eapply mls_frame, Hs. Qed.
Lemma pv_event_device id dev : preserves P (set_event_device id dev).
Proof. intros s Hs. by eapply mls_frame, Hs. Qed.
Lemma pv_mls_log f : preserves P (on_events (upd_sync_events f)).
Proof. intros s Hs. by eapply mls_frame, Hs. Qed.
Lemma pv_mls_enqueue now ev c a t u : preserves P (enqueuePushWakeJobs now ev c a t u).
Proof. intros s Hs. by eapply mls_frame, Hs. Qed.
End frame.
Ltac mls_auto :=
  repeat first
    [ progress intros
    | solve [eauto 3 with txs]
    | apply pv_transaction | apply pv_for_each | apply pv_bind
    | apply (pv_mls_event _) | apply (pv_mls_rooms _); done | apply (pv_mls_content _) | apply (pv_event_device _)
    | apply (pv_mls_log _) | apply (pv_mls_enqueue _)
    | case_match ].


(** Requests on rooms and messages leave the MLS tables alone. *)
Section elsewhere.
Context (P : DB -> Prop) {HP : MlsFrame P}.

Lemma serve_mls r : preserves P (serve r).
Proof.
  destruct r; unfold serve, discard, CreateCommunity, CreateChannelWithConversation, ManageCommunityMember,
    CreateOrGetConversation, ManageConversationMember, RemoveConversationMember, updateConversationRetention,
    SetConversationPostingPolicy, insert_channel, create_conversation, validate_channel, validate_member, insert_dm_pair,
    checkNewCommunityMember, checkNewConversationMember, checkMembers, checkOwnConversations, checkOtherConversations,
    insertOptionalSyncEvent, insertSyncEvent, insert_conversation, insert_conv_member, insert_comm_member, put_member,
    set_conversation.
  all: mls_auto.
  all: match goal with |- preserves _ (join_channels _ _ _ _ ?l) => induction l; simpl end.
  all: unfold insert_conv_member, put_member; mls_auto.
Qed.

Lemma save_mls newID now e b w : preserves P (saveMessageEnvelope newID now e b w).
Proof.
  unfold saveMessageEnvelope, deleteExpiredMessageByIdempotency, insert_message, link_attachment, announce. mls_auto.
Qed.

Lemma update_mls now mid a ct cp cm ty : preserves P (updateMessageEnvelope now mid a ct cp cm ty).
Proof. unfold updateMessageEnvelope, insertOptionalSyncEvent, insertSyncEvent. mls_auto. Qed.

Lemma delete_mls now mid a ct cp cm ty : preserves P (deleteMessageEnvelope now mid a ct cp cm ty).
Proof.
  unfold deleteMessageEnvelope, releaseMessageAttachments, release_one, enqueueBlobDeletion, insertOptionalSyncEvent,
    insertSyncEvent. mls_auto.
Qed.
End elsewhere.

(** Key packages, and pruning the log: they touch a table each. *)
Section tables.
Context (P : DB -> Prop) {HP : MlsFrame P}.
Context (Hpackages : forall f d, P d -> P (upd_mls (upd_key_packages f) d)).
Context (Hmessages : forall f d, P d -> P (upd_mls (upd_mls_messages f) d)).

Lemma packages_update f : preserves P (on_mls (upd_key_packages f)).
Proof. apply pv_mls, Hpackages. Qed.
#[local] Hint Resolve packages_update : txs.

Lemma publish_frame newID t now dev ps : preserves P (PublishDeviceKeyPackages newID t now dev ps).
Proof.
  unfold PublishDeviceKeyPackages. mls_auto.
  match goal with |- preserves _ (publish_all _ ?n _ _ _) => generalize n end.
  induction ps as [|p ps IH]; intros n; simpl; unfold insert_key_package; mls_auto.
Qed.
Lemma claim_frame now c a dev : preserves P (ClaimConversationKeyPackages now c a dev).
Proof.
  unfold ClaimConversationKeyPackages. mls_auto. generalize (claim_targets a0 c dev). intros l.
  induction l as [|[d2 a2] l IH]; simpl; unfold take_package; mls_auto.
Qed.
Lemma claim_each_frame now c a dev ids : preserves P (ClaimDeviceKeyPackages now c a dev ids).
Proof.
  unfold ClaimDeviceKeyPackages. mls_auto. generalize (@nil string).
  induction ids as [|id ids IH]; intros seen; simpl; unfold take_package; mls_auto.
Qed.

Lemma delete_event_frame now d id : P d -> P (delete_event now d id).
Proof.
  intros H. unfold delete_event. destruct (sync_events _ !! id) as [e|]; [|done].
  eapply mls_frame, (Hmessages (filter (fun kv => kv.2.(mm_sync_event_id) <> Some id))), H; [done..|].
  unfold mark_deleted. simpl. by repeat case_match.
Qed.

Lemma prune_frame now cutoff d n err d' : PruneSyncEvents now cutoff d = Some (n, err, d') -> P d -> P d'.
Proof.
  unfold PruneSyncEvents. generalize (S (size d.(events).(sync_events))) 0. intros fuel. revert d.
  assert (forall l d, P d -> P (foldl (delete_event now) d l)) as Hl by (induction l; simpl; eauto using delete_event_frame).
  induction fuel as [|fuel IH]; intros d total; simpl; [done|].
  destruct (commits_exist _); simpl; [destruct (_ <? _)|]; intros [= <- <- <-] || intros H; eauto.
Qed.
End tables.

(** ** Epochs and windows over a history *)

(** The device may be shown the group event [id] of the conversation. *)
Definition in_window (d : DB) (c device : string) (id : Z) : bool :=
  match d.(mls).(mls_devices) !! (c, device) with Some jd => mls_window id jd | None => false end.

(** [d] is a later state than [d0]: the log grew, epochs did not go back, and
    in a group that existed no device gained an event already logged. *)
Record grown (d0 d : DB) : Prop := {
  gr_seq : d0.(events).(sync_seq) <= d.(events).(sync_seq);
  gr_epoch : forall c e, mlsGroupEpoch d0 c = Some e -> exists e', mlsGroupEpoch d c = Some e' /\ e <= e';
  gr_window : forall c device id, is_Some (mlsGroupEpoch d0 c) -> id <= d0.(events).(sync_seq) ->
    in_window d c device id = true -> in_window d0 c device id = true }.

#[export] Instance grown_preorder : PreOrder grown.
Proof.
  split.
  - intros d. split; [lia| |done]. intros c e He. by exists e.
  - intros d1 d2 d3 [S1 E1 W1] [S2 E2 W2]. split; [lia| |].
    + intros c e He. destruct (E1 c e He) as (e2 & He2 & ?). destruct (E2 c e2 He2) as (e3 & ? & ?). exists e3. split; [done|lia].
    + intros c dev id Hc Hid Hw. apply W1; [done..|]. apply W2; [|lia|done].
      destruct Hc as [e He]. destruct (E1 c e He) as (e2 & ? & _). by exists e2.
Qed.

#[export] Instance grown_frame d0 : MlsFrame (grown d0).
Proof.
  intros d d' Hm _ Hs [S E W]. split; [lia| |]; unfold in_window, mlsGroupEpoch in *; by rewrite Hm.
Qed.

Section grown.
Context (d0 : DB).

(** Tables other than the groups and their rosters. *)
Lemma grown_other f :
  (forall m, mls_groups (f m) = mls_groups m /\ mls_devices (f m) = mls_devices m) -> preserves (grown d0) (on_mls f).
Proof.
  intros Hf. apply pv_mls. intros d [S E W]. destruct (Hf d.(mls)) as [Hg Hd].
  split; [done| |]; unfold in_window, mlsGroupEpoch in *; simpl; by rewrite ?Hg, ?Hd.
Qed.

Lemma grown_messages f : preserves (grown d0) (on_mls (upd_mls_messages f)).
Proof. by apply grown_other. Qed.
Lemma grown_revocations f : preserves (grown d0) (on_mls (upd_mls_revocations f)).
Proof. by apply grown_other. Qed.
Lemma grown_required f : preserves (grown d0) (on_mls (upd_mls_required f)).
Proof. by apply grown_other. Qed.
Lemma grown_messages_in f d : grown d0 d -> grown d0 (upd_mls (upd_mls_messages f) d).
Proof. by intros [S E W]; split. Qed.
Lemma grown_packages_in f d : grown d0 d -> grown d0 (upd_mls (upd_key_packages f) d).
Proof. by intros [S E W]; split. Qed.
Lemma grown_packages f : preserves (grown d0) (on_mls (upd_key_packages f)).
Proof. by apply grown_other. Qed.
Lemma grown_delete gone : preserves (grown d0) (delete_revocations gone).
Proof. by apply grown_other. Qed.

(** Roster updates that open no window onto the past. *)
Lemma grown_devices f :
  (forall d c dev id, is_Some (mlsGroupEpoch d0 c) -> id <= d0.(events).(sync_seq) ->
     in_window (upd_mls (upd_mls_devices f) d) c dev id = true -> in_window d c dev id = true) ->
  preserves (grown d0) (on_mls (upd_mls_devices f)).
Proof. intros Hf. apply pv_mls. intros d [S E W]. split; [done..|]. intros c dev id Hc Hid Hw. by apply W, Hf. Qed.

Lemma grown_alter_device k f :
  (forall r id, mls_window id (f r) = true -> mls_window id r = true) ->
  preserves (grown d0) (on_mls (upd_mls_devices (alter f k))).
Proof.
  intros Hf. apply grown_devices. intros d c dev id _ _. unfold in_window. simpl. rewrite lookup_alter.
  case_decide; [subst k|done]. destruct (mls_devices _ !! _); [apply Hf|done].
Qed.

Lemma grown_removed c ev ref : preserves (grown d0) (mark_removed c ev ref).
Proof.
  apply grown_alter_device. intros r id. case_bool_decide as E; [|done]. unfold mls_window. rewrite E. simpl.
  intros [-> _]%andb_prop. done.
Qed.

Lemma grown_put c dev ev epoch a u :
  d0.(events).(sync_seq) < ev -> preserves (grown d0) (put_device c dev (mkMlsDeviceRow a ev epoch None u)).
Proof.
  intros Hev. apply grown_devices. intros d c' dev' id _ Hid. unfold in_window. simpl. rewrite lookup_insert.
  case_decide; [|done]. unfold mls_window. simpl. intros [?%Z.ltb_lt _]%andb_prop. lia.
Qed.

Lemma grown_bump c : preserves (grown d0) (on_mls (upd_mls_groups (alter (fun e => e + 1) c))).
Proof.
  apply pv_mls. intros d [S E W]. split; [done| |done]. intros c' e He. destruct (E c' e He) as (e' & He' & ?).
  unfold mlsGroupEpoch in *. simpl. rewrite lookup_alter.
  case_decide; subst; rewrite He'; [exists (e' + 1)|exists e']; (split; [done|lia]).
Qed.
End grown.
#[export] Hint Resolve grown_messages grown_revocations grown_required grown_packages grown_delete grown_removed grown_put grown_bump : txs.

Lemma grown_insert d0 id row : preserves (grown d0) (insertMLSMessage id row).
Proof. unfold insertMLSMessage, insert_mls_row, insertSyncEvent, set_mls_event. mls_auto. Qed.

Lemma insertMLSMessage_event id row s m s' :
  insertMLSMessage id row s = (Ok m, s') -> m.(ml_ID) = id /\ m.(ml_SyncEventID) = s.(db).(events).(sync_seq) + 1.
Proof.
  unfold insertMLSMessage, insert_mls_row, insertSyncEvent, set_mls_event, on_mls. intros H.
  run_all. done.
Qed.

Lemma grown_complete d0 c dev now : preserves (grown d0) (completeMLSRevocationIfConfirmed c dev now).
Proof. unfold completeMLSRevocationIfConfirmed, set_revocation, insertSyncEvent. mls_auto. Qed.
#[export] Hint Resolve grown_insert grown_complete : txs.

Lemma grown_submit d0 id c dev sender now : preserves (grown d0) (submit_revocation id c dev sender now).
Proof. unfold submit_revocation, set_revocation. mls_auto. Qed.
#[export] Hint Resolve grown_submit : txs.

Lemma grown_welcomes d0 newID n i now ev epoch refs :
  d0.(events).(sync_seq) < ev -> preserves (grown d0) (welcome_all newID n i now ev epoch refs).
Proof. intros Hev. revert n. induction refs as [|ref refs IH]; intros n; simpl; unfold join_device; mls_auto. Qed.

Lemma grown_apply d0 newID now epoch i : preserves (grown d0) (apply_bundle newID now epoch i).
Proof.
  unfold apply_bundle. apply (pv_bind_post _ (fun m => d0.(events).(sync_seq) < m.(ml_SyncEventID))); [apply grown_insert| |].
  - intros s m s' [Hseq _ _] H. apply insertMLSMessage_event in H as [_ ->]. lia.
  - intros m Hm. unfold dropStaleMLSRevocations. mls_auto; [by apply grown_alter_device|by apply grown_welcomes].
Qed.
#[export] Hint Resolve grown_apply : txs.

Lemma grown_drop d0 c : preserves (grown d0) (dropStaleMLSRevocations c).
Proof. unfold dropStaleMLSRevocations. mls_auto. Qed.

Lemma grown_self_update d0 c dev now : preserves (grown d0) (checkMLSSelfUpdate c dev now).
Proof. unfold checkMLSSelfUpdate. mls_auto. Qed.
#[export] Hint Resolve grown_drop grown_self_update : txs.

Lemma grown_commit d0 newID now epoch i : preserves (grown d0) (commit_bundle newID now epoch i).
Proof. unfold commit_bundle. mls_auto. Qed.


(** A new group has its creator as the only device. *)
Lemma create_group_ok i s x s' :
  create_group i s = (Ok x, s') ->
  let c := i.(in_ConversationID) in
  has_messages s.(db) c = false /\ i.(in_Epoch) = 0 /\ i.(in_Removed) = [] /\ i.(in_RevocationDeviceID) = ""%string /\
  s.(db).(mls).(mls_devices) !! (c, i.(in_SenderDeviceID)) = None /\
  s'.(db).(mls).(mls_groups) = <[c := 0]> s.(db).(mls).(mls_groups) /\
  s'.(db).(mls).(mls_devices) = <[(c, i.(in_SenderDeviceID)) := mkMlsDeviceRow i.(in_SenderAccountID) 0 0 None None]> s.(db).(mls).(mls_devices) /\
  s'.(db).(mls).(mls_messages) = s.(db).(mls).(mls_messages) /\
  s'.(db).(rooms) = s.(db).(rooms) /\ s'.(db).(events) = s.(db).(events).
Proof.
  unfold create_group, put_device, dropStaleMLSRevocations, delete_revocations. intros H. run_all. bool_to_prop.
  split_and!; try done; [by destruct (in_Removed i)|by apply str_eqb_true].
Qed.

Lemma create_group_grown i s x s' :
  create_group i s = (Ok x, s') -> mlsGroupEpoch s.(db) i.(in_ConversationID) = None -> grown s.(db) s'.(db).
Proof.
  intros H Hc. apply create_group_ok in H as (_ & _ & _ & _ & _ & Hg & Hd & _ & _ & He). set (c := in_ConversationID i) in *.
  split; unfold mlsGroupEpoch, in_window in *; rewrite ?He, ?Hg, ?Hd; [done| |].
  - intros c' e Hc'. exists e. split; [|done]. rewrite lookup_insert_ne; [done|]. intros <-. congruence.
  - intros c' dev id [e Hc'] _. rewrite lookup_insert_ne; [done|]. intros [= <- _]. congruence.
Qed.


(** The store a commit of the bundle starts from: the group's, or the one
    with the group just created. *)
Definition group_ready (i : MLSCommitBundleInput) (s s1 : Store) : Prop :=
  (mlsGroupEpoch s.(db) i.(in_ConversationID) = Some i.(in_Epoch) /\ s1 = s /\
   activeMLSDevice s.(db) i.(in_ConversationID) i.(in_SenderDeviceID) = true) \/
  (mlsGroupEpoch s.(db) i.(in_ConversationID) = None /\ updateOnly i = false /\ create_group i s = (Ok tt, s1)).

(** A bundle is a retry that changes nothing, the creation of a group, or a
    commit built on the group's epoch. *)
Lemma bundle_cases newID now input s r s' :
  CreateMLSCommitBundle newID now input s = (Ok r, s') ->
  let i := trim_bundle input in
  bundle_valid i = true /\ is_member s.(db) i.(in_ConversationID) i.(in_SenderAccountID) = true /\
  live_device s.(db) i.(in_SenderDeviceID) i.(in_SenderAccountID) = true /\
  ((r.(br_Duplicate) = true /\ s' = s) \/
   (hasCommit i = false /\ r = mkBundleResult None [] 0 false 0 /\ group_ready i s s') \/
   (hasCommit i = true /\ existing_commit s.(db) i = None /\
    exists s1, group_ready i s s1 /\ commit_bundle newID now i.(in_Epoch) i s1 = (Ok r, s'))).
Proof.
  unfold CreateMLSCommitBundle. intros H. set (i := trim_bundle input) in *. run_all.
  match goal with Hm : _ && _ = true |- _ => apply andb_prop in Hm as [Hm Hl] end. split_and!; try done.
  destruct (existing_commit _ _) as [[id m]|] eqn:Ex; [run_all; by left|].
  destruct (mlsGroupEpoch _ _) as [epoch|] eqn:Ee; [run_all; destruct (hasCommit i) eqn:Eh; cbn [negb] in H; run_all; [|by left]|].
  - bool_to_prop. subst epoch. right. right. split_and!; try done. exists s. split; [by left|done].
  - run_all. match goal with Hg : create_group _ _ = (Ok ?a, _) |- _ => destruct a; pose proof Hg as (_ & He & _)%create_group_ok end.
    right. destruct (hasCommit i) eqn:Eh; run_all; [right|left]; split_and!; try done.
    + eexists. split; [by right; bool_to_prop|]. by rewrite He.
    + by right; bool_to_prop.
Qed.

Lemma group_ready_grown i s s1 : group_ready i s s1 -> grown s.(db) s1.(db).
Proof. intros [(_ & -> & _)|(Hc & _ & H)]; [done|by eapply create_group_grown]. Qed.

Lemma bundle_grown newID now i s r s' : CreateMLSCommitBundle newID now i s = (Ok r, s') -> grown s.(db) s'.(db).
Proof.
  intros H. apply bundle_cases in H as (_ & _ & _ & [[_ ->]|[(_ & _ & H)|(_ & _ & s1 & H1 & H)]]);
    [done|by eapply group_ready_grown|].
  eapply (pv_ok (grown s.(db))); [apply grown_commit|exact H|by eapply group_ready_grown].
Qed.

Lemma grown_message d0 newID now i : preserves (grown d0) (CreateMLSMessage newID now i).
Proof. unfold CreateMLSMessage, store_message, insert_mls_row, insertSyncEvent, set_mls_event. mls_auto. Qed.
Lemma grown_confirm d0 t now c rev a dev : preserves (grown d0) (ConfirmMLSRevocation t now c rev a dev).
Proof. unfold ConfirmMLSRevocation. mls_auto. Qed.
Lemma grown_queue d0 a dev now : preserves (grown d0) (queueMLSRevocations a dev now).
Proof. unfold queueMLSRevocations, queue_revocation, insertSyncEvent. mls_auto. Qed.
Lemma grown_release d0 dev now : preserves (grown d0) (releaseMLSRevocationConfirmations dev now).
Proof. unfold releaseMLSRevocationConfirmations. mls_auto. Qed.

Definition revoked (d : DB) (device : string) : Prop :=
  exists r, d.(rooms).(devices) !! device = Some r /\ r.(dev_revoked_at) <> None.

(** A step of the server: an MLS operation, the parts of a device's
    revocation (the device is marked first), pruning the log, a request on
    rooms or messages, or another write that leaves the MLS tables alone and
    no revoked device in use.  Operations may fail. *)
Inductive mls_step : Store -> Store -> Prop :=
| mst_bundle newID now i s : mls_step s (CreateMLSCommitBundle newID now i s).2
| mst_message newID now i s : mls_step s (CreateMLSMessage newID now i s).2
| mst_confirm t now c rev a dev s : mls_step s (ConfirmMLSRevocation t now c rev a dev s).2
| mst_queue a dev now s : revoked s.(db) dev -> mls_step s (queueMLSRevocations a dev now s).2
| mst_release dev now s : mls_step s (releaseMLSRevocationConfirmations dev now s).2
| mst_publish newID t now dev ps s : mls_step s (PublishDeviceKeyPackages newID t now dev ps s).2
| mst_claim now c a dev s : mls_step s (ClaimConversationKeyPackages now c a dev s).2
| mst_claim_each now c a dev ids s : mls_step s (ClaimDeviceKeyPackages now c a dev ids s).2
| mst_prune now cutoff s n err d' : PruneSyncEvents now cutoff s.(db) = Some (n, err, d') -> mls_step s (with_db s d')
| mst_room r s : mls_step s (serve r s).2
| mst_save newID now e b w s : mls_step s (saveMessageEnvelope newID now e b w s).2
| mst_update now mid a ct cp cm ty s : mls_step s (updateMessageEnvelope now mid a ct cp cm ty s).2
| mst_delete now mid a ct cp cm ty s : mls_step s (deleteMessageEnvelope now mid a ct cp cm ty s).2
| mst_elsewhere s s' : s'.(db).(mls) = s.(db).(mls) -> s.(db).(events).(sync_seq) <= s'.(db).(events).(sync_seq) ->
    (forall dev, revoked s.(db) dev -> revoked s'.(db) dev) -> mls_step s s'.

Lemma mls_step_grown s s' : mls_step s s' -> grown s.(db) s'.(db).
Proof.
  intros [newID now i t|newID now i t|t0 now c rev a dev t|a dev now t Hrev|dev now t|newID t0 now dev ps t|now c a dev t|now c a dev ids t
    |now cutoff t n err d' H|r t|newID now e b w t|now mid a ct cp cm ty t|now mid a ct cp cm ty t|t t' Hm Hs Hd].
  - destruct (CreateMLSCommitBundle _ _ _ _) as [[r|e] t'] eqn:E; simpl; [by eapply bundle_grown|].
    assert (rolls_back (CreateMLSCommitBundle newID now i)) as Hrb by (unfold CreateMLSCommitBundle; tx_auto).
    by rewrite (Hrb _ _ _ E).
  - by apply grown_message.
  - by apply grown_confirm.
  - by apply grown_queue.
  - by apply grown_release.
  - by apply (publish_frame (grown _) (grown_packages_in _)).
  - by apply (claim_frame (grown _) (grown_packages_in _)).
  - by apply (claim_each_frame (grown _) (grown_packages_in _)).
  - by eapply (prune_frame (grown _) (grown_messages_in _)); [exact H|].
  - by apply (serve_mls (grown _)).
  - by apply (save_mls (grown _)).
  - by apply (update_mls (grown _)).
  - by apply (delete_mls (grown _)).
  - split; [done|..]; unfold mlsGroupEpoch, in_window; rewrite Hm; naive_solver lia.
Qed.

Lemma mls_steps_grown s s' : rtc mls_step s s' -> grown s.(db) s'.(db).
Proof. induction 1; [done|]. etrans; [by apply mls_step_grown|done]. Qed.

(** ** What a commit does *)

(** A roster row without the time of its last self-update. *)
Definition core (r : MlsDeviceRow) : string * Z * Z * option Z :=
  (r.(md_account_id), r.(md_joined_after_event_id), r.(md_joined_epoch), r.(md_removed_after_event_id)).

Definition close (ev : Z) (r : string * Z * Z * option Z) : string * Z * Z * option Z :=
  let '(a, j, e, removed) := r in (a, j, e, match removed with None => Some ev | Some x => Some x end).

Definition named (refs : list MLSDeviceRef) (device : string) : option string :=
  ref_AccountID <$> List.find (fun r => r.(ref_DeviceID) =s? device) refs.

(** The roster a commit with event [ev] built on [epoch] leaves. *)
Definition roster_after (i : MLSCommitBundleInput) (ev epoch : Z) (old : string -> string -> option (string * Z * Z * option Z))
    (c device : string) : option (string * Z * Z * option Z) :=
  if decide (c = i.(in_ConversationID)) then
    match named i.(in_Added) device with
    | Some a => Some (a, ev, epoch + 1, None)
    | None => if names i.(in_Removed) device then close ev <$> old c device else old c device
    end
  else old c device.

Definition cores (d : DB) (c device : string) : option (string * Z * Z * option Z) :=
  core <$> d.(mls).(mls_devices) !! (c, device).

Lemma names_named refs device : names refs device = bool_decide (is_Some (named refs device)).
Proof.
  unfold named, names. induction refs as [|r refs IH]; simpl; [done|].
  by destruct (r.(ref_DeviceID) =s? device).
Qed.

Lemma mark_all_ok c ev refs s x s' :
  for_each refs (mark_removed c ev) s = (Ok x, s') ->
  (forall c' dev, cores s'.(db) c' dev =
     if decide (c' = c) then if names refs dev then close ev <$> cores s.(db) c' dev else cores s.(db) c' dev
     else cores s.(db) c' dev) /\
  s'.(db).(mls).(mls_groups) = s.(db).(mls).(mls_groups) /\ s'.(db).(events) = s.(db).(events) /\ s'.(db).(rooms) = s.(db).(rooms).
Proof.
  revert s. induction refs as [|ref refs IH]; intros s H; simpl in H.
  { run_all. split; [|done]. intros c' dev. simpl. by case_decide. }
  apply bind_ok in H as (u & s1 & H1 & H). apply IH in H as (Hl & Hg & He & Hr). clear IH.
  unfold mark_removed in H1. run_all. simpl in *. split_and!; try done. intros c' dev. rewrite Hl. clear -s.
  unfold cores. simpl. rewrite !lookup_alter. destruct (decide (c' = c)) as [->|Hne].
  - destruct (ref_DeviceID ref =s? dev) eqn:E; simpl.
    + apply str_eqb_true in E as ->. rewrite decide_True by done.
      destruct (mls_devices _ !! _) as [[a j e [r|] u0]|]; simpl; by destruct (names refs dev).
    + apply str_eqb_false in E. by rewrite decide_False by congruence.
  - by rewrite decide_False by congruence.
Qed.

Definition stored_row (row : mlsMessageRow) (ev : Z) : MlsMessageRow :=
  mkMlsMessageRow row.(row_conversationID) row.(row_senderAccountID) row.(row_senderDeviceID)
    (nullableEmptyString row.(row_recipientDeviceID)) (nullableEmptyString row.(row_revocationDeviceID)) row.(row_kind)
    row.(row_payload) row.(row_idempotencyKey) (Some ev) row.(row_createdAt).

(** Storing a message adds its row and one event. *)
Lemma insertMLSMessage_ok id row s m s' :
  insertMLSMessage id row s = (Ok m, s') ->
  let ev := s.(db).(events).(sync_seq) + 1 in
  m.(ml_ID) = id /\ m.(ml_SyncEventID) = ev /\ mls_row_ok s.(db) id (stored_row row ev) = true /\
  s'.(db).(mls) = upd_mls_messages (insert id (stored_row row ev)) s.(db).(mls) /\
  s'.(db).(rooms) = s.(db).(rooms) /\ s'.(db).(events).(sync_seq) = ev /\
  s'.(db).(events).(sync_events) =
    <[ev := mkSyncEventRow "mls.message.created"
              (nullableString (if row.(row_recipientAccountID) =s? "" then None else Some row.(row_recipientAccountID)))
              (nullableEmptyString row.(row_conversationID))
              (if row.(row_recipientDeviceID) =s? "" then None else Some row.(row_recipientDeviceID))
              (mls_payload id row.(row_kind)) row.(row_createdAt)]> s.(db).(events).(sync_events).
Proof.
  unfold insertMLSMessage, insert_mls_row, insertSyncEvent, set_mls_event, set_event_device. intros H.
  destruct (row_recipientDeviceID row =s? "") eqn:Er; run_all; simpl.
  all: split_and!; try done; destruct s as [[? ? [] ? [] ? ? ? ? ?] ? ? ?]; unfold upd_mls_messages; simpl; by rewrite ?alter_insert_eq.
Qed.

Lemma valid_refs_distinct seen refs :
  valid_refs seen refs = true -> NoDup (map ref_DeviceID refs) /\ forall x, x ∈ map ref_DeviceID refs -> x ∉ seen.
Proof.
  revert seen. induction refs as [|r refs IH]; intros seen H; simpl in *; [split; [constructor|set_solver]|].
  destruct (_ || _) eqn:E; [done|]. bool_to_prop. apply IH in H as [Hnd Hs]. split.
  - constructor; [|done]. intros Hin. apply (Hs _ Hin). by left.
  - intros x [->|Hx]%elem_of_cons; [by eapply bool_decide_eq_false_1|]. intros ?. apply (Hs x Hx). by right.
Qed.

Lemma named_None refs dev : dev ∉ map ref_DeviceID refs -> named refs dev = None.
Proof.
  unfold named. induction refs as [|r refs IH]; simpl; [done|]. intros [Hne Hx]%not_elem_of_cons.
  destruct (_ =s? _) eqn:E; [by apply str_eqb_true in E|by apply IH].
Qed.

Lemma welcome_all_ok newID n i now ev epoch refs s ws s' :
  welcome_all newID n i now ev epoch refs s = (Ok ws, s') -> NoDup (map ref_DeviceID refs) ->
  (forall c dev, cores s'.(db) c dev =
     if decide (c = i.(in_ConversationID)) then
       match named refs dev with Some a => Some (a, ev, epoch, None) | None => cores s.(db) c dev end
     else cores s.(db) c dev) /\
  s'.(db).(mls).(mls_groups) = s.(db).(mls).(mls_groups) /\ s'.(db).(rooms) = s.(db).(rooms).
Proof.
  revert n s ws s'. induction refs as [|ref refs IH]; intros n s ws s' H Hnd; simpl in H.
  { run_all. split; [|done]. intros c dev. by case_decide. }
  apply NoDup_cons in Hnd as [Hx Hnd]. unfold join_device, put_device in H. run_all.
  match goal with Hw : insertMLSMessage _ _ _ = _ |- _ => apply insertMLSMessage_ok in Hw as (_ & _ & _ & Hm & Hr & _) end.
  match goal with Hw : welcome_all _ _ _ _ _ _ _ _ = _ |- _ => apply IH in Hw as (Hl & Hg & Hr2); [|done] end.
  rewrite Hg, Hr2, Hr, Hm. split; [|done]. intros c dev. rewrite Hl. unfold cores. rewrite Hm. simpl. rewrite lookup_insert.
  destruct (decide (c = in_ConversationID i)) as [->|Hne]; [|by rewrite decide_False by congruence].
  unfold named in *. simpl. destruct (ref_DeviceID ref =s? dev) eqn:E; simpl.
  - apply str_eqb_true in E as <-. fold (named refs (ref_DeviceID ref)). by rewrite named_None, decide_True.
  - apply str_eqb_false in E. by rewrite decide_False by congruence.
Qed.

(** Revocations and the clean-up after them leave the roster alone. *)
Lemma submit_drop_roster (b : bool) id c dev sender now s x s1 y s' :
  (if b then mret 0 else submit_revocation id c dev sender now) s = (Ok x, s1) ->
  dropStaleMLSRevocations c s1 = (Ok y, s') ->
  s'.(db).(mls).(mls_groups) = s.(db).(mls).(mls_groups) /\ (forall c' dev', cores s'.(db) c' dev' = cores s.(db) c' dev') /\
  s'.(db).(rooms) = s.(db).(rooms).
Proof.
  unfold dropStaleMLSRevocations, delete_revocations, submit_revocation, completeMLSRevocationIfConfirmed, set_revocation,
    insertSyncEvent. intros H1 H2. run_all. destruct b; run_all; [done|].
  repeat match goal with H : (if ?x then _ else _) _ = (Ok _, _) |- _ => destruct x; run_all end; done.
Qed.

Lemma bundle_valid_distinct i : bundle_valid i = true -> NoDup (map ref_DeviceID i.(in_Added)).
Proof.
  unfold bundle_valid. intros H. apply andb_prop in H as [H _]. apply andb_prop in H as [H _].
  apply negb_true_iff in H. bool_to_prop. unfold validMLSDeviceRefs in *. bool_to_prop. by eapply valid_refs_distinct.
Qed.

Lemma sender_kept i : bundle_valid i = true -> names i.(in_Removed) i.(in_SenderDeviceID) = false.
Proof. unfold bundle_valid. intros [[_ H]%andb_prop _]%andb_prop. by apply negb_true_iff. Qed.

Lemma self_update_reads (b : bool) c dev now s x s' :
  (if b then checkMLSSelfUpdate c dev now else mret tt) s = (Ok x, s') -> s' = s.
Proof. unfold checkMLSSelfUpdate. destruct b; intros H; run_all; [|done]. by repeat (case_match; run_all). Qed.

Lemma commit_ok newID now epoch i s r s' :
  commit_bundle newID now epoch i s = (Ok r, s') -> NoDup (map ref_DeviceID i.(in_Added)) ->
  let c := i.(in_ConversationID) in let ev := s.(db).(events).(sync_seq) + 1 in
  (exists m, r.(br_Commit) = Some m /\ m.(ml_SyncEventID) = ev) /\ r.(br_Duplicate) = false /\ r.(br_Epoch) = epoch + 1 /\
  forallb (addable s.(db) c) i.(in_Added) = true /\ forallb (removable s.(db) c i.(in_RevocationDeviceID)) i.(in_Removed) = true /\
  s'.(db).(mls).(mls_groups) = alter (fun e => e + 1) c s.(db).(mls).(mls_groups) /\ s'.(db).(rooms) = s.(db).(rooms) /\
  forall c' dev, cores s'.(db) c' dev = roster_after i ev epoch (cores s.(db)) c' dev.
Proof.
  unfold commit_bundle, apply_bundle. intros H Hnd.
  apply bind_ok in H as (u & s1 & H1 & H).
  assert (s1 = s) as -> by (by eapply self_update_reads). clear H1.
  run_all.
  match goal with Hi : insertMLSMessage _ _ _ = _, Hu : (if updateOnly _ then _ else _) _ = (Ok _, ?s2), Hm : for_each _ _ _ = _,
    Hw : welcome_all _ _ _ _ _ _ _ _ = _, Hc : (if _ =s? _ then _ else _) _ = _, Hd : dropStaleMLSRevocations _ _ = _ |- _ =>
    apply insertMLSMessage_ok in Hi as (_ & Hev & _ & Hmls & Hr1 & _);
    apply mark_all_ok in Hm as (Hrem & Hg2 & _ & Hr2); apply welcome_all_ok in Hw as (Hadd & Hg3 & Hr3); [|done];
    destruct (submit_drop_roster _ _ _ _ _ _ _ _ _ _ _ Hc Hd) as (Hg4 & Hcores & Hr4);
    assert (s2.(db).(mls).(mls_groups) = alter (fun e => e + 1) i.(in_ConversationID) s.(db).(mls).(mls_groups) /\
            s2.(db).(rooms) = s.(db).(rooms) /\ forall c' dev, cores s2.(db) c' dev = cores s.(db) c' dev) as (Hg1 & Hr5 & Hsame)
      by (rewrite <- Hr1; destruct (updateOnly i); run_all; unfold cores; simpl; rewrite Hmls; simpl; split_and!; try done;
          intros c' dev; rewrite lookup_alter; case_decide as E; [rewrite <- E; by destruct (_ !! _)|done])
  end.
  bool_to_prop. split_and!; try done; [by eexists|congruence..|].
  intros c' dev. rewrite Hcores, Hadd. unfold roster_after. destruct (decide _); [destruct (named _ _); [by rewrite Hev|]|];
    rewrite Hrem, Hsame, ?Hev; [by rewrite decide_True|by rewrite decide_False].
Qed.

Lemma active_cores d c dev :
  activeMLSDevice d c dev = match cores d c dev with Some (_, _, _, None) => true | _ => false end.
Proof.
  unfold activeMLSDevice, roster_row, cores. destruct (mls_devices _ !! _) as [[a j e [r|] u]|]; simpl; done.
Qed.

Lemma window_cores d c dev id :
  in_window d c dev id = match cores d c dev with
                         | Some (_, j, _, removed) => (j <? id) && match removed with None => true | Some r => id <=? r end
                         | None => false
                         end.
Proof. unfold in_window, cores. by destruct (mls_devices _ !! _). Qed.

Lemma roster_row_cores d c dev r :
  roster_row d c dev = Some r -> cores d c dev = Some (r.(md_account_id), r.(md_joined_after_event_id), r.(md_joined_epoch), None).
Proof.
  unfold roster_row, cores. destruct (mls_devices _ !! _) as [r'|]; [|done]. case_bool_decide as E; [|done].
  intros [= <-]. simpl. unfold core. by rewrite E.
Qed.

Lemma forallb_names {f : MLSDeviceRef -> bool} {refs dev} :
  forallb f refs = true -> names refs dev = true -> exists ref, ref.(ref_DeviceID) = dev /\ f ref = true.
Proof.
  unfold names. rewrite forallb_forall, existsb_exists. intros Hf (ref & Hin & E%str_eqb_true). exists ref. by split; [|apply Hf].
Qed.

Lemma added_member d c refs dev : forallb (addable d c) refs = true -> names refs dev = true -> member_device d c dev = true.
Proof.
  intros Hf Hn. destruct (forallb_names Hf Hn) as (ref & <- & Hx). unfold addable, live_device, member_device in *.
  bool_to_prop. by case_match; simplify_eq.
Qed.

Lemma removed_active d c rev refs dev :
  forallb (removable d c rev) refs = true -> names refs dev = true ->
  exists row, roster_row d c dev = Some row /\ (is_member d c row.(md_account_id) = false \/ device_account d dev = None).
Proof.
  intros Hf Hn. destruct (forallb_names Hf Hn) as (ref & <- & Hx). unfold removable in Hx.
  destruct (roster_row d c _) as [row|]; [|done]. exists row. split; [done|]. bool_to_prop.
  match goal with H : _ \/ bool_decide (device_account _ _ = _) = true |- _ => destruct H end; bool_to_prop; first [by left|by right].
Qed.

Lemma removed_unentitled d c rev refs dev row :
  forallb (removable d c rev) refs = true -> names refs dev = true -> cores d c dev = Some row ->
  is_member d c row.1.1.1 = false \/ device_account d dev = None.
Proof. intros Hf Hn Hc. destruct (removed_active _ _ _ _ _ Hf Hn) as (r & Hr%roster_row_cores & ?). by simplify_eq. Qed.

Lemma added_not_removed d c rev added removed dev :
  forallb (addable d c) added = true -> forallb (removable d c rev) removed = true ->
  names removed dev = true -> named added dev = None.
Proof.
  intros Hadd Hrem Hr. destruct (removed_active _ _ _ _ _ Hrem Hr) as (row & Hrow & _).
  destruct (named added dev) eqn:E; [exfalso|done].
  assert (names added dev = true) as Ha by (rewrite names_named, E; by apply bool_decide_eq_true; eexists).
  destruct (forallb_names Hadd Ha) as (ref & <- & [_ Hn]%andb_prop). unfold activeMLSDevice in Hn. by rewrite Hrow in Hn.
Qed.

(** The roster before the commit: the group's, or the creator alone beside
    what the table held. *)
Lemma group_ready_ok i s s1 :
  group_ready i s s1 ->
  mlsGroupEpoch s1.(db) i.(in_ConversationID) = Some i.(in_Epoch) /\ s1.(db).(rooms) = s.(db).(rooms) /\
  s1.(db).(events) = s.(db).(events) /\
  (forall c dev, (c, dev) <> (i.(in_ConversationID), i.(in_SenderDeviceID)) -> cores s1.(db) c dev = cores s.(db) c dev) /\
  activeMLSDevice s1.(db) i.(in_ConversationID) i.(in_SenderDeviceID) = true.
Proof.
  intros [(He & -> & Ha)|(_ & _ & (_ & He & _ & _ & _ & Hg & Hd & _ & Hr & Hev)%create_group_ok)]; [done|].
  rewrite active_cores. unfold mlsGroupEpoch, cores. rewrite Hg, Hd, He, !lookup_insert_eq. split_and!; try done.
  intros c dev Hne. by rewrite lookup_insert_ne.
Qed.

(** C6: a commit that is accepted for the first time changes the roster of its
    own group exactly as it says.  Its event is the next of the log and the
    group moves to the next epoch.  The devices in the group afterwards are
    those before it, the creator of a new group among them, without the
    removed and with the added ones; the added are unrevoked devices of
    members and may see exactly what follows the commit, the removed nothing
    past it.  No device that is still entitled to the group is evicted: one
    whose account is a member and that is not revoked stays. *)
Theorem bundle_changes_roster newID now input s r s' :
  CreateMLSCommitBundle newID now input s = (Ok r, s') ->
  let i := trim_bundle input in let c := i.(in_ConversationID) in let ev := s.(db).(events).(sync_seq) + 1 in
  r.(br_Duplicate) = false -> hasCommit i = true ->
  (exists m, r.(br_Commit) = Some m /\ m.(ml_SyncEventID) = ev) /\
  mlsGroupEpoch s'.(db) c = Some (i.(in_Epoch) + 1) /\
  (forall c' dev, c' <> c -> cores s'.(db) c' dev = cores s.(db) c' dev) /\
  (forall dev, activeMLSDevice s'.(db) c dev =
     ((activeMLSDevice s.(db) c dev || (dev =s? i.(in_SenderDeviceID))) && negb (names i.(in_Removed) dev)) || names i.(in_Added) dev) /\
  (forall dev, names i.(in_Added) dev = true ->
     member_device s.(db) c dev = true /\ forall id, in_window s'.(db) c dev id = (ev <? id)) /\
  (forall dev id, names i.(in_Removed) dev = true -> in_window s'.(db) c dev id = true -> id <= ev) /\
  (forall dev row, roster_row s.(db) c dev = Some row -> is_member s.(db) c row.(md_account_id) = true ->
     device_account s.(db) dev <> None -> activeMLSDevice s'.(db) c dev = true).
Proof.
  intros H i c ev Hdup Hc. apply bundle_cases in H as (Hv & _ & _ & [[? _]|[(? & _)|(_ & _ & s1 & Hready & H)]]);
    [congruence|subst i; congruence|]. fold i in Hv, Hready, H. clearbody i.
  apply group_ready_ok in Hready as (Hepoch & Hrooms & Hev & Hold & Hsender).
  apply commit_ok in H as (Hm & _ & _ & Hadd & Hrem & Hg & _ & Hcores); [|by apply bundle_valid_distinct].
  rewrite Hev in Hm, Hcores. fold c in Hadd, Hrem, Hg, Hepoch, Hold, Hsender. fold ev in Hm, Hcores.
  assert (forall dev, cores s'.(db) c dev = match named i.(in_Added) dev with
            | Some a => Some (a, ev, i.(in_Epoch) + 1, None)
            | None => if names i.(in_Removed) dev then close ev <$> cores s1.(db) c dev else cores s1.(db) c dev
            end) as Hafter by (intros dev; rewrite Hcores; unfold roster_after; by rewrite decide_True).
  assert (forall dev, names i.(in_Removed) dev = true -> named i.(in_Added) dev = None) as Hdisj
    by (intros dev; by eapply added_not_removed).
  split_and!; try done.
  - unfold mlsGroupEpoch in *. rewrite Hg, lookup_alter, decide_True by done. by rewrite Hepoch.
  - intros c' dev Hne. rewrite Hcores. unfold roster_after. rewrite decide_False by done. apply Hold. congruence.
  - intros dev. rewrite active_cores, Hafter, (names_named (in_Added i)).
    replace (activeMLSDevice s.(db) c dev || (dev =s? in_SenderDeviceID i)) with (activeMLSDevice s1.(db) c dev).
    + rewrite active_cores. destruct (named (in_Added i) dev); simpl; [by rewrite ?orb_true_r|rewrite ?orb_false_r].
      destruct (names (in_Removed i) dev); simpl; destruct (cores s1.(db) c dev) as [[[[a j] e] [x|]]|]; done.
    + destruct (dev =s? in_SenderDeviceID i) eqn:E; [apply str_eqb_true in E as ->; by rewrite orb_true_r|].
      apply str_eqb_false in E. rewrite orb_false_r, !active_cores, Hold by congruence. done.
  - intros dev Ha. split.
    + apply (added_member _ _ _ _ Hadd) in Ha. unfold member_device, device_account, is_member in *. by rewrite Hrooms in Ha.
    + intros id. rewrite window_cores, Hafter. rewrite names_named in Ha. apply bool_decide_eq_true in Ha as [a ->]. by rewrite andb_true_r.
  - intros dev id Hr. rewrite window_cores, Hafter, Hdisj, Hr by done.
    destruct (cores s1.(db) c dev) as [[[[a j] e] [x|]]|] eqn:E; simpl; [|lia|done].
    destruct (removed_active _ _ _ _ _ Hrem Hr) as (row & Er%roster_row_cores & _). congruence.
  - intros dev row Hrow Hmem Hdev. rewrite active_cores, Hafter. destruct (named _ _); [done|].
    assert (cores s1.(db) c dev = Some (row.(md_account_id), row.(md_joined_after_event_id), row.(md_joined_epoch), None)
            \/ dev = i.(in_SenderDeviceID)) as Hin.
    { destruct (decide (dev = i.(in_SenderDeviceID))); [by right|left]. rewrite Hold by congruence. by apply roster_row_cores. }
    destruct (names (in_Removed i) dev) eqn:Er.
    + exfalso. destruct Hin as [Hin| ->]; [|by rewrite (sender_kept _ Hv) in Er].
      destruct (removed_unentitled _ _ _ _ _ _ Hrem Er Hin) as [Hx|Hx]; unfold is_member, device_account in *; rewrite Hrooms in Hx; simpl in Hx; congruence.
    + destruct Hin as [-> | ->]; [done|]. by rewrite <- active_cores.
Qed.

Lemma bundle_epoch newID now input s r s' :
  CreateMLSCommitBundle newID now input s = (Ok r, s') -> r.(br_Duplicate) = false -> hasCommit (trim_bundle input) = true ->
  let i := trim_bundle input in let c := i.(in_ConversationID) in
  (mlsGroupEpoch s.(db) c = Some i.(in_Epoch) \/ (mlsGroupEpoch s.(db) c = None /\ i.(in_Epoch) = 0)) /\
  mlsGroupEpoch s'.(db) c = Some (i.(in_Epoch) + 1) /\ r.(br_Epoch) = i.(in_Epoch) + 1.
Proof.
  intros H Hdup Hc. apply bundle_cases in H as (Hv & _ & _ & [[? _]|[(? & _)|(_ & _ & s1 & Hready & H)]]); [congruence..|].
  pose proof Hready as (Hepoch & _)%group_ready_ok.
  apply commit_ok in H as (_ & _ & He & _ & _ & Hg & _); [|by apply bundle_valid_distinct]. split_and!; [|..|done].
  - destruct Hready as [(? & _)|(? & _ & Hcr)]; [by left|right]. split; [done|]. by apply create_group_ok in Hcr as (_ & -> & _).
  - unfold mlsGroupEpoch in *. by rewrite Hg, lookup_alter, decide_True, Hepoch.
Qed.

(** C4: the commits of a group form one line.  A commit is accepted only when
    it was built on the group's epoch (0 for a new group) and moves the group
    to the next; whatever happens afterwards, a later commit to the same
    conversation is accepted only as a retry of one already stored or on a
    strictly later epoch.  So of two clients that commit on the same epoch at
    most one succeeds, and every device applies the commits in one order. *)
Theorem commits_are_linear newID now i s r s1 s2 newID' now' i' r' s3 :
  CreateMLSCommitBundle newID now i s = (Ok r, s1) -> r.(br_Duplicate) = false -> hasCommit (trim_bundle i) = true ->
  rtc mls_step s1 s2 ->
  CreateMLSCommitBundle newID' now' i' s2 = (Ok r', s3) -> hasCommit (trim_bundle i') = true ->
  (trim_bundle i').(in_ConversationID) = (trim_bundle i).(in_ConversationID) ->
  let c := (trim_bundle i).(in_ConversationID) in
  default 0 (mlsGroupEpoch s.(db) c) = (trim_bundle i).(in_Epoch) /\
  mlsGroupEpoch s1.(db) c = Some (default 0 (mlsGroupEpoch s.(db) c) + 1) /\
  (r'.(br_Duplicate) = true \/ (trim_bundle i).(in_Epoch) < (trim_bundle i').(in_Epoch)).
Proof.
  intros H Hd Hc Hr H' Hc' Hsame. apply bundle_epoch in H as (He & He1 & _); [|done..].
  assert (default 0 (mlsGroupEpoch s.(db) (trim_bundle i).(in_ConversationID)) = (trim_bundle i).(in_Epoch)) as E
    by (destruct He as [-> |[-> ->]]; done).
  cbv zeta. rewrite E. split_and!; try done. destruct r'.(br_Duplicate) eqn:Ed; [by left|right].
  apply bundle_epoch in H' as (He' & _); [|done..]. rewrite Hsame in He'.
  destruct (gr_epoch _ _ (mls_steps_grown _ _ Hr) _ _ He1) as (e2 & He2 & Hle). rewrite He2 in He'.
  destruct He' as [He'|[? _]]; [|done]. assert (e2 = (trim_bundle i').(in_Epoch)) by congruence. lia.
Qed.

(** C5: a group hides what happened outside it.  Take a conversation with a
    group and an event of it that a device may not see: it was logged before
    the device joined, or after it was removed.  Whatever happens later,
    re-adding the device included, no page of the event stream shows the
    device that event: every group event it is ever sent was within its
    window when it was logged, or was logged since. *)
Theorem groups_hide_the_past s s' c now account device after limit page ev :
  is_Some (mlsGroupEpoch s.(db) c) -> rtc mls_step s s' ->
  ListSyncEvents s'.(db) now account device after limit = Ok page -> ev ∈ page ->
  ev.(ev_ConversationID) = c -> ev.(ev_AccountID) = None -> roster_filtered_type ev.(ev_Type) = true ->
  in_window s.(db) c device ev.(ev_ID) = true \/ s.(db).(events).(sync_seq) < ev.(ev_ID).
Proof.
  intros Hg Hr Hpage Hin Hc Ha Ht. apply mls_steps_grown in Hr as [_ Hepoch Hwin].
  destruct (Z_lt_le_dec s.(db).(events).(sync_seq) ev.(ev_ID)) as [?|Hid]; [by right|left]. apply Hwin; [done..|].
  unfold ListSyncEvents in Hpage. rewrite page_is_scan in Hpage. simpl in Hpage. destruct (_ && _); [done|].
  injection Hpage as <-. apply elem_of_take in Hin as (k & Hk & _). apply list_elem_of_lookup_2 in Hk.
  apply list_elem_of_fmap in Hk as ([id e] & -> & Hrow). simpl in *.
  apply rows_by_id_spec in Hrow as [He Hsent]. apply andb_prop in Hsent as [_ Hsent].
  unfold sent_to, chain_of in Hsent. rewrite Ha in Hsent. destruct (se_conversation_id e) as [c'|] eqn:Ec; simpl in *.
  - subst c'. apply andb_prop in Hsent as [_ Hv]. unfold syncEventVisibleTo, mlsJoinFilterEventFor in Hv. rewrite Ht, Ec in Hv.
    destruct Hg as [e0 He0]. destruct (Hepoch _ _ He0) as (e1 & He1 & _). unfold in_window.
    unfold exists_in in Hv. unfold mlsGroupEpoch in He1. rewrite bool_decide_true in Hv by by eexists. simpl in Hv.
    bool_to_prop. destruct (mls_devices _ !! _) as [jd|]; [|done]. by bool_to_prop.
  - rewrite Ha in Hsent. by case_bool_decide.
Qed.
