(* ===== verification/RevocationRules.v ===== *)
(** * Rules of device revocations

    The state machine of [mls_revocations] over every history: a submitted
    revocation stays, its device is out of the group and does not come back,
    it completes exactly when every device that had to confirm has, and
    confirming is enough to complete it. *)

From S2P Require Import Prelude GoStrings GoJson Domain Admission Database Conversations Memberships Messages Retention MessageEvents Sync SyncRules Mls MlsGroups MlsRules.
From stdpp Require Import base numbers list strings gmap fin_maps sorting.
From Stdlib Require Import ZArith ZifyBool Lia.
Open Scope Z_scope.

(** ** The invariant *)

Definition rv_pending (r : RevocationRow) : Prop := r.(rv_state) = "pending"%string.
Definition rv_completed (r : RevocationRow) : Prop := r.(rv_state) = "completed"%string.

Record rv_row_ok (d : DB) (c dev : string) (r : RevocationRow) : Prop := {
  ro_revoked : revoked d dev;
  ro_state : rv_pending r \/ r.(rv_state) = "commit_submitted"%string \/ rv_completed r;
  ro_out : ~ rv_pending r -> activeMLSDevice d c dev = false /\ r.(rv_commit_message_id) <> None;
  ro_done : rv_completed r -> forall x, d.(mls).(mls_required) !! (c, dev, x) <> Some None }.

Record rv_inv (d : DB) : Prop := {
  ri_rows : forall c dev r, d.(mls).(mls_revocations) !! (c, dev) = Some r -> rv_row_ok d c dev r;
  ri_groups : forall c dev, activeMLSDevice d c dev = true -> is_Some (mlsGroupEpoch d c) }.

(** A submitted revocation is kept, a completed one unchanged. *)
Definition rv_kept (d0 d : DB) : Prop :=
  forall k r, d0.(mls).(mls_revocations) !! k = Some r -> ~ rv_pending r ->
    exists r', d.(mls).(mls_revocations) !! k = Some r' /\ ~ rv_pending r' /\
      r'.(rv_commit_message_id) = r.(rv_commit_message_id) /\ (rv_completed r -> r' = r).

(** What a history from [d0] to [d] maintains. *)
Record rv_since (d0 d : DB) : Prop := {
  rs_devices : d.(rooms).(devices) = d0.(rooms).(devices);
  rs_inv : rv_inv d;
  rs_kept : rv_kept d0 d }.

Lemma rv_kept_refl d : rv_kept d d.
Proof. intros k r Hr Hp. by exists r. Qed.

Lemma rv_kept_trans d1 d2 d3 : rv_kept d1 d2 -> rv_kept d2 d3 -> rv_kept d1 d3.
Proof.
  intros H12 H23 k r Hr Hp. destruct (H12 k r Hr Hp) as (r2 & Hr2 & Hp2 & Hc2 & Hd2).
  destruct (H23 k r2 Hr2 Hp2) as (r3 & Hr3 & Hp3 & Hc3 & Hd3). exists r3. split_and!; try done; [congruence|].
  intros Hx. pose proof (Hd2 Hx) as ->. by apply Hd3.
Qed.

Lemma rv_since_refl d : rv_inv d -> rv_since d d.
Proof. intros H. split; [done..|apply rv_kept_refl]. Qed.

#[export] Instance rv_since_frame d0 : MlsFrame (rv_since d0).
Proof.
  intros d d' Hm Hd _ [H1 [Hrows Hgr] H3]. split; [congruence| |].
  - split; unfold mlsGroupEpoch, activeMLSDevice, roster_row in *; rewrite Hm; [|done].
    intros c dev r Hr. destruct (Hrows c dev r Hr) as [R1 R2 R3 R4]. split; try done; [unfold revoked; by rewrite Hd| |].
    + unfold activeMLSDevice, roster_row in *. by rewrite Hm.
    + by rewrite Hm.
  - unfold rv_kept in *. by rewrite Hm.
Qed.

Lemma active_true d c dev :
  activeMLSDevice d c dev = true <-> exists r, d.(mls).(mls_devices) !! (c, dev) = Some r /\ md_removed_after_event_id r = None.
Proof.
  unfold activeMLSDevice, roster_row. rewrite bool_decide_eq_true. destruct (_ !! _) as [r|]; [|by split; [intros [? [=]]|naive_solver]].
  case_bool_decide; split; naive_solver.
Qed.

(** ** Statements *)

Section since.
Context (d0 : DB).

(** Updates that keep the revocations and put no device in a group. *)
Lemma rv_other f :
  (forall m, mls_revocations (f m) = mls_revocations m /\
     (forall k, is_Some (mls_groups m !! k) -> is_Some (mls_groups (f m) !! k)) /\
     (forall k, mls_required (f m) !! k = Some None -> mls_required m !! k = Some None) /\
     (forall k r, mls_devices (f m) !! k = Some r -> md_removed_after_event_id r = None ->
        exists r', mls_devices m !! k = Some r' /\ md_removed_after_event_id r' = None)) ->
  preserves (rv_since d0) (on_mls f).
Proof.
  intros Hf. apply pv_mls. intros d [H1 [Hrows Hgr] H3]. destruct (Hf d.(mls)) as (Hr & Hg & Hq & Hd).
  assert (forall c dev, activeMLSDevice (upd_mls f d) c dev = true -> activeMLSDevice d c dev = true) as Hact.
  { intros c dev. rewrite !active_true. intros (r & E & Er). by eapply Hd. }
  split; [done| |unfold rv_kept in *; simpl; by rewrite Hr]. split.
  - intros c dev r Hrow. simpl in Hrow. rewrite Hr in Hrow. destruct (Hrows c dev r Hrow) as [R1 R2 R3 R4]. split; try done.
    + intros Hp. destruct (R3 Hp) as [Ha ?]. split; [|done]. apply not_true_is_false. intros ?%Hact. congruence.
    + intros Hc x Hx. by eapply (R4 Hc x), Hq.
  - intros c dev Ha%Hact%Hgr. by apply Hg.
Qed.

Lemma rv_messages f : preserves (rv_since d0) (on_mls (upd_mls_messages f)).
Proof. apply rv_other. intros m. split_and!; try done. naive_solver. Qed.
Lemma rv_packages f : preserves (rv_since d0) (on_mls (upd_key_packages f)).
Proof. apply rv_other. intros m. split_and!; try done. naive_solver. Qed.
Lemma rv_bump c : preserves (rv_since d0) (on_mls (upd_mls_groups (alter (fun e => e + 1) c))).
Proof.
  apply rv_other. intros m. split_and!; try done; [|naive_solver]. intros k [e He]. simpl. rewrite lookup_alter.
  case_decide; subst; rewrite He; by eexists.
Qed.
Lemma rv_alter_device k f :
  (forall r, md_removed_after_event_id (f r) = None -> md_removed_after_event_id r = None) ->
  preserves (rv_since d0) (on_mls (upd_mls_devices (alter f k))).
Proof.
  intros Hf. apply rv_other. intros m. split_and!; try done. intros k' r. simpl. rewrite lookup_alter_Some.
  intros [(<- & y & Hy & ->)|[_ Hy]] Hr; naive_solver.
Qed.
Lemma rv_removed c ev ref : preserves (rv_since d0) (mark_removed c ev ref).
Proof. apply rv_alter_device. intros r. by case_bool_decide. Qed.

(** Confirmations are only ever given. *)
Lemma rv_required f :
  (forall m k, f m !! k = Some None -> m !! k = Some None) -> preserves (rv_since d0) (on_mls (upd_mls_required f)).
Proof. intros Hf. apply rv_other. intros m. split_and!; try done; [apply Hf|naive_solver]. Qed.

Lemma rv_confirm_required k now : preserves (rv_since d0) (on_mls (upd_mls_required (insert k (Some now)))).
Proof. apply rv_required. intros m k'. rewrite lookup_insert_Some. naive_solver. Qed.
Lemma rv_commit_required k now : preserves (rv_since d0) (on_mls (upd_mls_required (alter (fun _ => Some now) k))).
Proof. apply rv_required. intros m k'. rewrite lookup_alter_Some. naive_solver. Qed.

(** Only a live device joins. *)
Lemma rv_put c dev row :
  (forall r, d0.(rooms).(devices) !! dev = Some r -> r.(dev_revoked_at) = None) ->
  preserves (fun d => rv_since d0 d /\ is_Some (mlsGroupEpoch d c)) (put_device c dev row).
Proof.
  intros Hlive s [[H1 [Hrows Hgr] H3] Hc]. split; [|done]. split; [done| |done].
  assert (forall c' dev', (c', dev') <> (c, dev) ->
    activeMLSDevice (upd_mls (upd_mls_devices (insert (c, dev) row)) s.(db)) c' dev' = activeMLSDevice s.(db) c' dev') as Hact.
  { intros c' dev' Hne. unfold activeMLSDevice, roster_row. simpl. by rewrite lookup_insert_ne. }
  split.
  - intros c' dev' r Hr. destruct (Hrows c' dev' r Hr) as [R1 R2 R3 R4]. split; try done. intros Hp.
    destruct R1 as (rw & Hrw & Hx). simpl in Hact |- *. unfold put_device. rewrite <- (Hact c' dev') in R3; [by apply R3|].
    intros [= -> ->]. rewrite H1 in Hrw. by apply Hx, Hlive.
  - intros c' dev' Ha. destruct (decide ((c', dev') = (c, dev))) as [[= -> ->]|Hne]; [done|].
    apply (Hgr c' dev'). rewrite <- Hact; done.
Qed.
End since.
#[export] Hint Resolve rv_messages rv_packages rv_bump rv_removed rv_confirm_required rv_commit_required : txs.

(** ** Transitions *)

(** A transition of one revocation. *)
Record rv_moves (d : DB) (c dev : string) (r r' : RevocationRow) : Prop := {
  mv_state : rv_pending r' \/ r'.(rv_state) = "commit_submitted"%string \/ rv_completed r';
  mv_out : ~ rv_pending r' -> activeMLSDevice d c dev = false /\ r'.(rv_commit_message_id) <> None;
  mv_done : rv_completed r' -> forall x, d.(mls).(mls_required) !! (c, dev, x) <> Some None;
  mv_kept : ~ rv_pending r -> ~ rv_pending r' /\ r'.(rv_commit_message_id) = r.(rv_commit_message_id) /\ (rv_completed r -> r' = r) }.

Lemma rv_set d0 d c dev f :
  rv_since d0 d -> (forall r, d.(mls).(mls_revocations) !! (c, dev) = Some r -> rv_moves d c dev r (f r)) ->
  rv_since d0 (upd_mls (upd_mls_revocations (alter f (c, dev))) d).
Proof.
  intros [H1 [Hrows Hgr] H3] Hf. split; [done|split; [|done]|].
  - intros c' dev' r. simpl. rewrite lookup_alter_Some. intros [([= <- <-] & y & Hy & ->)|[Hne Hr]].
    + destruct (Hf y Hy) as [M1 M2 M3 M4], (Hrows _ _ _ Hy) as [R1 R2 R3 R4]. by split.
    + by destruct (Hrows _ _ _ Hr) as [R1 R2 R3 R4]; split.
  - eapply rv_kept_trans; [exact H3|]. intros k r Hr Hp. simpl. rewrite lookup_alter.
    destruct (decide _) as [<-|]; rewrite Hr; [|by exists r]. destruct (mv_kept _ _ _ _ _ (Hf r Hr) Hp) as (? & ? & ?). by exists (f r).
Qed.

Lemma unconfirmed_zero d c dev x : unconfirmed d c dev = 0 -> d.(mls).(mls_required) !! (c, dev, x) <> Some None.
Proof.
  unfold unconfirmed. intros H Hx. destruct (List.filter _ _) eqn:E; [|unfold len in H; simpl in H; lia].
  assert (((c, dev, x), None) ∈ @nil (string * string * string * option Z)) as Hn; [|by apply elem_of_nil in Hn].
  rewrite <- E, list_elem_of_In, List.filter_In, <- list_elem_of_In. split; [by apply elem_of_map_to_list|].
  simpl. by rewrite !str_eqb_refl.
Qed.

Lemma rv_complete d0 c dev now : preserves (rv_since d0) (completeMLSRevocationIfConfirmed c dev now).
Proof.
  intros s Hs. unfold completeMLSRevocationIfConfirmed, mbind, Tx_bind, read.
  destruct (negb _) eqn:Eu; [done|]. apply negb_false_iff, Z.eqb_eq in Eu. case_bool_decide as Est; [|done].
  unfold insertSyncEvent. apply (pv_mls_event (rv_since d0)). apply rv_set; [done|]. intros r Hr.
  unfold revocation_state in Est. rewrite Hr in Est. injection Est as Est. destruct Hs as [_ [Hrows _] _].
  destruct (Hrows _ _ _ Hr) as [R1 R2 R3 R4]. assert (~ rv_pending r) as Hp by (unfold rv_pending; rewrite Est; done).
  split; [by right; right|..]; simpl.
  - intros _. by apply R3.
  - intros _ x. by apply unconfirmed_zero.
  - intros _. split_and!; [done..|]. unfold rv_completed. by rewrite Est.
Qed.
#[export] Hint Resolve rv_complete : txs.

Lemma rv_submit d0 id c dev sender now s :
  rv_since d0 s.(db) -> activeMLSDevice s.(db) c dev = false ->
  rv_since d0 (submit_revocation id c dev sender now s).2.(db).
Proof.
  intros Hs Hout. unfold submit_revocation.
  change (rv_since d0 ((on_mls (upd_mls_required (alter (fun _ => Some now) (c, dev, sender))) ≫= fun _ =>
    completeMLSRevocationIfConfirmed c dev now) (set_revocation (c, dev)
      (fun r => if r.(rv_state) =s? "pending" then submitted id r else r) s).2).2.(db)).
  apply (pv_bind (rv_since d0)); [apply rv_commit_required|intros; apply rv_complete|]. apply rv_set; [done|]. intros r Hr.
  destruct Hs as [_ [Hrows _] _]. destruct (Hrows _ _ _ Hr) as [R1 R2 R3 R4].
  destruct (rv_state r =s? "pending") eqn:E; [|by split].
  apply str_eqb_true in E. split; simpl; [by right; left|done|by intros [=]|]. intros Hp. by destruct Hp.
Qed.

(** Only pending revocations are dropped. *)
Lemma rv_drop d0 c : preserves (rv_since d0) (dropStaleMLSRevocations c).
Proof.
  intros s [H1 [Hrows Hgr] H3]. split; [done|split; [|done]|].
  - intros c' dev' r. simpl. rewrite map_lookup_filter_Some. intros [Hr Hg].
    destruct (Hrows _ _ _ Hr) as [R1 R2 R3 R4]. split; try done. intros Hc x. simpl.
    rewrite map_lookup_filter_Some. intros [Hx _]. by eapply R4.
  - eapply rv_kept_trans; [exact H3|]. intros k r Hr Hp. exists r. split_and!; try done. simpl. rewrite map_lookup_filter_Some.
    split; [done|]. simpl. unfold stale_revocation. rewrite Hr. destruct (rv_state r =s? "pending") eqn:E; [|by rewrite andb_false_r].
    by apply str_eqb_true in E.
Qed.

Lemma rv_insert d0 id row : preserves (rv_since d0) (insertMLSMessage id row).
Proof. unfold insertMLSMessage, insert_mls_row, insertSyncEvent, set_mls_event. mls_auto. Qed.
#[export] Hint Resolve rv_drop rv_insert : txs.

Lemma rv_confirm d0 t now c rev a dev : preserves (rv_since d0) (ConfirmMLSRevocation t now c rev a dev).
Proof. unfold ConfirmMLSRevocation. mls_auto. Qed.

Lemma rv_release d0 dev now : preserves (rv_since d0) (releaseMLSRevocationConfirmations dev now).
Proof.
  unfold releaseMLSRevocationConfirmations. mls_auto. apply rv_required. intros m k. rewrite map_lookup_imap.
  destruct (m !! k) as [[t|]|]; simpl; [|by destruct (_ && _)|done]. by rewrite andb_false_r.
Qed.

(** ** Operations *)

Lemma foldr_required (c dev : string) (l : list string) (m : gmap (string * string * string) (option Z)) (c' dev' x : string) :
  (c', dev') <> (c, dev) ->
  foldr (fun y m => match m !! (c, dev, y) with Some _ => m | None => <[(c, dev, y) := None]> m end) m l !! (c', dev', x) =
  m !! (c', dev', x).
Proof.
  intros Hne. induction l as [|y l IH]; simpl; [done|]. destruct (foldr _ _ _ !! (c, dev, y)); [done|]. rewrite lookup_insert_ne; [done|].
  intros [= ? ? _]. congruence.
Qed.

Lemma rv_queue_one d0 a dev now item : revoked d0 dev -> preserves (rv_since d0) (queue_revocation a dev now item).
Proof.
  intros Hrev s Hs. destruct item as [c co]. unfold queue_revocation, read, mbind, Tx_bind. case_bool_decide as Ex; [done|].
  destruct (guard_tx _ _ s) as [[u|e] s1] eqn:Eg; [apply guard_ok in Eg as [_ ->]|].
  2: { unfold guard_tx in Eg. destruct (_ && _); by injection Eg as <- <-. }
  unfold insertSyncEvent. simpl. eapply (mls_frame (P := rv_since d0)); [reflexivity|reflexivity|simpl; lia|].
  destruct Hs as [H1 [Hrows Hgr] H3]. split; [done|split; [|done]|].
  - intros c' dev' r. simpl. rewrite lookup_insert_Some. intros [[[= <- <-] <-]|[Hne Hr]].
    + split; [|by left|by intros []|by intros [=]]. destruct Hrev as (rw & Hrw & ?). exists rw. split; [|done]. simpl. by rewrite H1.
    + destruct (Hrows _ _ _ Hr) as [R1 R2 R3 R4]. split; try done. intros Hc x. simpl. rewrite foldr_required by congruence. by apply R4.
  - eapply rv_kept_trans; [exact H3|]. intros k r Hr Hp. exists r. split_and!; try done. simpl. rewrite lookup_insert_ne; [done|].
    intros <-. by destruct Ex; eexists.
Qed.

Lemma rv_queue d0 a dev now : revoked d0 dev -> preserves (rv_since d0) (queueMLSRevocations a dev now).
Proof. intros Hrev. unfold queueMLSRevocations. mls_auto. by apply rv_queue_one. Qed.

(** A bind whose first part keeps more than the whole. *)
Lemma pv_then {A B} (Q R P : DB -> Prop) (m : Tx A) (k : A -> Tx B) :
  (forall s, Q s.(db) -> R (m s).2.(db)) -> (forall a s, R s.(db) -> P (k a s).2.(db)) -> (forall d, R d -> P d) ->
  forall s, Q s.(db) -> P ((m ≫= k) s).2.(db).
Proof.
  intros Hm Hk HR s Hs. specialize (Hm s Hs). unfold mbind, Tx_bind. destruct (m s) as [[a|e] s1]; simpl in *; [by apply Hk|by apply HR].
Qed.

Definition rv_out (d0 : DB) (c dev : string) (d : DB) : Prop := rv_since d0 d /\ activeMLSDevice d c dev = false.

#[export] Instance rv_out_frame d0 c dev : MlsFrame (rv_out d0 c dev).
Proof.
  intros d d' Hm Hd Hs [H Ha]. split; [by eapply mls_frame|]. unfold activeMLSDevice, roster_row in *. by rewrite Hm.
Qed.

Lemma rv_out_messages d0 c dev f : preserves (rv_out d0 c dev) (on_mls (upd_mls_messages f)).
Proof. intros s [H Ha]. split; [by apply rv_messages|done]. Qed.
#[export] Hint Resolve rv_out_messages : txs.

Lemma rv_store d0 newID now i recipient s :
  rv_out d0 i.(mi_ConversationID) i.(mi_RevocationDeviceID) s.(db) -> rv_since d0 (store_message newID now i recipient s).2.(db).
Proof.
  set (Q := rv_out d0 i.(mi_ConversationID) i.(mi_RevocationDeviceID)). revert s.
  assert (forall d, Q d -> rv_since d0 d) as HQ by by intros d [].
  unfold store_message, insert_mls_row, insertSyncEvent, set_mls_event.
  apply (pv_then Q Q); [apply (pv_bind Q); mls_auto|intros _|done]. apply (pv_then Q Q); [apply (pv_mls_event Q)|intros ev|done].
  apply (pv_then Q Q); [apply rv_out_messages|intros _|done].
  apply (pv_then Q (rv_since d0)); [|by intros|done]. intros s Hs. destruct (_ =s? _); [by apply HQ|].
  by apply rv_submit; apply Hs.
Qed.

Lemma rv_message d0 newID now i s :
  rv_since d0 s.(db) -> rv_since d0 (CreateMLSMessage newID now i s).2.(db).
Proof.
  intros Hs. unfold CreateMLSMessage, transaction, guard_tx, mbind, Tx_bind, read.
  destruct (message_valid _); simpl; [|done]. destruct (_ && _); simpl; [|done].
  case_bool_decide as Eg; simpl; [|done]. destruct (message_by_mls_key _ _ _) as [[id m]|]; [by destruct (same_message _ _)|].
  destruct (_ || _); simpl; [|done]. set (i' := trim_message i) in *.
  assert (rv_out d0 i'.(mi_ConversationID) i'.(mi_RevocationDeviceID) s.(db)) as Hout.
  { split; [done|]. apply not_true_is_false. intros Ha. destruct Hs as [_ [_ Hgr] _]. apply Hgr in Ha as [e He].
    unfold i' in He. simpl in He. congruence. }
  clearbody i'. destruct (_ =s? _); [|destruct (recipient_account _ _ _) as [acc|]; simpl; [|done]].
  all: match goal with |- context [store_message ?n ?t ?i ?r ?s] =>
         pose proof (rv_store d0 n t i r s Hout) as Hr; by destruct (store_message n t i r s) as [[]] end.
Qed.

Definition rv_group (d0 : DB) (c : string) (d : DB) : Prop := rv_since d0 d /\ is_Some (mlsGroupEpoch d c).

#[export] Instance rv_group_frame d0 c : MlsFrame (rv_group d0 c).
Proof. intros d d' Hm Hd Hs [H Hg]. split; [by eapply mls_frame|]. unfold mlsGroupEpoch in *. by rewrite Hm. Qed.

Lemma rv_group_messages d0 c f : preserves (rv_group d0 c) (on_mls (upd_mls_messages f)).
Proof. intros s [H Hg]. split; [by apply rv_messages|done]. Qed.
#[export] Hint Resolve rv_group_messages : txs.

Lemma rv_group_insert d0 c id row : preserves (rv_group d0 c) (insertMLSMessage id row).
Proof. unfold insertMLSMessage, insert_mls_row, insertSyncEvent, set_mls_event. mls_auto. Qed.
Lemma rv_group_bump d0 c : preserves (rv_group d0 c) (on_mls (upd_mls_groups (alter (fun e => e + 1) c))).
Proof.
  intros t [Ht [e He]]. split; [by apply rv_bump|]. unfold mlsGroupEpoch in *. simpl. rewrite lookup_alter, decide_True, He by done.
  by eexists.
Qed.
Lemma rv_group_devices d0 c f :
  preserves (rv_since d0) (on_mls (upd_mls_devices f)) -> preserves (rv_group d0 c) (on_mls (upd_mls_devices f)).
Proof. intros Hf s [H Hg]. split; [by apply Hf|done]. Qed.
Lemma rv_group_self_update d0 c (b : bool) f k :
  (forall r, md_removed_after_event_id (f r) = md_removed_after_event_id r) ->
  preserves (rv_group d0 c) (if b then on_mls (upd_mls_devices (alter f k)) else mret tt).
Proof. intros Hf. destruct b; [|by apply pv_ret]. apply rv_group_devices, rv_alter_device. intros r. by rewrite Hf. Qed.

Definition unrevoked (d : DB) (dev : string) : Prop :=
  forall r, d.(rooms).(devices) !! dev = Some r -> r.(dev_revoked_at) = None.

Lemma live_unrevoked d dev a : live_device d dev a = true -> unrevoked d dev.
Proof.
  unfold live_device, device_account. intros H r Hr. rewrite Hr in H. apply bool_decide_eq_true in H.
  destruct (bool_decide (dev_revoked_at r = None)) eqn:E; [by apply bool_decide_eq_true in E|done].
Qed.

Lemma rv_welcomes d0 newID n i now ev epoch refs :
  (forall ref, ref ∈ refs -> unrevoked d0 ref.(ref_DeviceID)) ->
  preserves (rv_group d0 i.(in_ConversationID)) (welcome_all newID n i now ev epoch refs).
Proof.
  revert n. induction refs as [|ref refs IH]; intros n Hl; simpl; [by apply pv_ret|].
  apply pv_bind.
  - unfold join_device. apply pv_bind; [by apply pv_read_only|]. intros d. apply rv_put. apply Hl. by left.
  - intros _. apply pv_bind; [apply rv_group_insert|].
    intros w. apply pv_bind; [apply IH; intros r Hr; apply Hl; by right|]. mls_auto.
Qed.

(** The revoked device is out of the roster when its revocation is
    submitted. *)
Lemma revocation_leaves i d ev epoch old :
  bundle_valid i = true -> i.(in_RevocationDeviceID) <> ""%string ->
  forallb (addable d i.(in_ConversationID)) i.(in_Added) = true ->
  forallb (removable d i.(in_ConversationID) i.(in_RevocationDeviceID)) i.(in_Removed) = true ->
  match roster_after i ev epoch old i.(in_ConversationID) i.(in_RevocationDeviceID) with Some (_, _, _, None) => false | _ => true end = true.
Proof.
  intros Hv Hne Hadd Hrem. assert (names i.(in_Removed) i.(in_RevocationDeviceID) = true) as Hn.
  { unfold bundle_valid in Hv. apply andb_prop in Hv as [_ [H|H]%orb_true_iff]; [by apply str_eqb_true in H|done]. }
  unfold roster_after. rewrite decide_True, (added_not_removed _ _ _ _ _ _ Hadd Hrem Hn), Hn by done.
  by destruct (old _ _) as [[[[a j] e] [x|]]|].
Qed.

Lemma rv_commit d0 newID now epoch i s r s' :
  commit_bundle newID now epoch i s = (Ok r, s') -> bundle_valid i = true ->
  rv_group d0 i.(in_ConversationID) s.(db) -> rv_since d0 s'.(db).
Proof.
  intros H Hv Hs. pose proof (commit_ok _ _ _ _ _ _ _ H (bundle_valid_distinct _ Hv)) as (_ & _ & _ & Hadd & Hrem & _ & _ & Hcores).
  assert (forall ref, ref ∈ i.(in_Added) -> unrevoked d0 ref.(ref_DeviceID)) as Hlive.
  { intros ref Hin%list_elem_of_In. rewrite forallb_forall in Hadd. specialize (Hadd ref Hin). unfold addable in Hadd. bool_to_prop.
    destruct Hs as [[Hd _ _] _]. unfold unrevoked. rewrite <- Hd. by eapply live_unrevoked. }
  unfold commit_bundle, apply_bundle in H. apply bind_ok in H as (u & s1 & H1 & H).
  assert (s1 = s) as -> by (by eapply self_update_reads). clear H1. run_all.
  match goal with Hi : insertMLSMessage _ _ _ = _, Hu : (if updateOnly _ then _ else _) _ = (Ok _, ?s2), Hm : for_each _ _ _ = _,
    Hw : welcome_all _ _ _ _ _ _ _ _ = _, Hc : (if _ =s? _ then _ else _) _ = _, Hd : dropStaleMLSRevocations _ _ = _ |- _ =>
    eapply (pv_ok (rv_since d0)); [apply rv_drop|exact Hd|];
    destruct (submit_drop_roster _ _ _ _ _ _ _ _ _ _ _ Hc Hd) as (_ & Hsame & _);
    apply (pv_ok (rv_group d0 i.(in_ConversationID))) in Hi; [|apply rv_group_insert|exact Hs];
    apply (pv_ok (rv_group d0 i.(in_ConversationID)) (on_mls (upd_mls_groups (alter (fun e => e + 1) i.(in_ConversationID)))) _ tt _
      (rv_group_bump _ _) eq_refl) in Hi;
    apply (pv_ok (rv_group d0 i.(in_ConversationID))) in Hu; [|by apply rv_group_self_update|exact Hi];
    apply (pv_ok (rv_group d0 i.(in_ConversationID))) in Hm; [|apply pv_for_each; intros; by apply rv_group_devices, rv_removed|exact Hu];
    apply (pv_ok (rv_group d0 i.(in_ConversationID))) in Hw; [|by apply rv_welcomes|exact Hm];
    destruct (in_RevocationDeviceID i =s? "") eqn:Er; [run_all; apply Hw|]; destruct Hw as [Hw _];
    rename Hc into Hsub
  end.
  apply str_eqb_false in Er. eapply (f_equal (fun x => x.2)) in Hsub. simpl in Hsub. subst. apply rv_submit; [done|].
  rewrite active_cores, <- Hsame, Hcores. pose proof (revocation_leaves i _ (sync_seq (events (db s)) + 1) epoch (cores (db s)) Hv Er Hadd Hrem) as Hl.
  by destruct (roster_after _ _ _ _ _ _) as [[[[a' j] e] [x|]]|].
Qed.

Lemma rv_create d0 i s x s' :
  create_group i s = (Ok x, s') -> unrevoked d0 i.(in_SenderDeviceID) -> rv_since d0 s.(db) ->
  rv_group d0 i.(in_ConversationID) s'.(db).
Proof.
  unfold create_group. intros H Hl Hs. run_all. set (c := in_ConversationID i) in *.
  assert (rv_group d0 c (upd_mls (upd_mls_groups <[c := 0]>) s.(db))) as H1.
  { split; [|unfold mlsGroupEpoch; simpl; rewrite lookup_insert_eq; by eexists].
    apply (rv_other d0 (upd_mls_groups <[c := 0]>)); [|done]. intros m. split_and!; try done; [|naive_solver].
    intros k [e He]. simpl. rewrite lookup_insert. case_decide; [by eexists|]. rewrite He. by eexists. }
  match goal with Hp : put_device _ _ _ _ = _ |- _ => apply (pv_ok (rv_group d0 c)) in Hp; [|by apply rv_put|exact H1] end.
  destruct (pv_ok (rv_group d0 c) _ _ _ _ (fun s Hs => conj (rv_drop d0 c s (proj1 Hs)) (proj2 Hs)) H) as [? ?]; [done|]. by split.
Qed.

Lemma rv_bundle d0 newID now i s r s' :
  CreateMLSCommitBundle newID now i s = (Ok r, s') -> rv_since d0 s.(db) -> rv_since d0 s'.(db).
Proof.
  intros H Hs. apply bundle_cases in H as (Hv & _ & Hl & Hcase).
  assert (forall s1, group_ready (trim_bundle i) s s1 -> rv_group d0 (trim_bundle i).(in_ConversationID) s1.(db)) as Hready.
  { intros s1 [(He & -> & _)|(_ & _ & Hc)]; [by split; [|eexists]|]. eapply rv_create; [exact Hc| |done].
    unfold unrevoked. destruct Hs as [<- _ _]. by eapply live_unrevoked. }
  destruct Hcase as [[_ ->]|[(_ & _ & H)|(_ & _ & s1 & H1 & H)]]; [done|by apply Hready|].
  by eapply rv_commit; [exact H| |apply Hready].
Qed.

(** ** Histories *)

Lemma rv_messages_in d0 f d : rv_since d0 d -> rv_since d0 (upd_mls (upd_mls_messages f) d).
Proof.
  intros [H1 [Hrows Hgr] H3]. split; [done|split; [|done]|done].
  intros c dev r Hr. by destruct (Hrows c dev r Hr) as [R1 R2 R3 R4]; split.
Qed.
Lemma rv_packages_in d0 f d : rv_since d0 d -> rv_since d0 (upd_mls (upd_key_packages f) d).
Proof.
  intros [H1 [Hrows Hgr] H3]. split; [done|split; [|done]|done].
  intros c dev r Hr. by destruct (Hrows c dev r Hr) as [R1 R2 R3 R4]; split.
Qed.

Lemma mls_step_revocations s s' : mls_step s s' -> rv_inv s.(db) -> rv_inv s'.(db) /\ rv_kept s.(db) s'.(db).
Proof.
  intros Hstep Hinv. pose proof (rv_since_refl _ Hinv) as H0.
  assert (rv_since s.(db) s'.(db) -> rv_inv s'.(db) /\ rv_kept s.(db) s'.(db)) as Hend by (intros [_ ? ?]; done).
  destruct Hstep as [newID now i t|newID now i t|t0 now c rev a dev t|a dev now t Hrev|dev now t|newID t0 now dev ps t|now c a dev t
    |now c a dev ids t|now cutoff t n err d' H|r t|newID now e b w t|now mid a ct cp cm ty t|now mid a ct cp cm ty t|t t' Hm Hs Hd].
  - apply Hend. destruct (CreateMLSCommitBundle _ _ _ _) as [[r|e] t'] eqn:E; simpl; [by eapply rv_bundle|].
    assert (rolls_back (CreateMLSCommitBundle newID now i)) as Hrb by (unfold CreateMLSCommitBundle; tx_auto).
    by rewrite (Hrb _ _ _ E).
  - by apply Hend, rv_message.
  - by apply Hend, rv_confirm.
  - by apply Hend, rv_queue.
  - by apply Hend, rv_release.
  - by apply Hend, (publish_frame (rv_since _) (rv_packages_in _)).
  - by apply Hend, (claim_frame (rv_since _) (rv_packages_in _)).
  - by apply Hend, (claim_each_frame (rv_since _) (rv_packages_in _)).
  - apply Hend. by eapply (prune_frame (rv_since _) (rv_messages_in _)); [exact H|].
  - by apply Hend, (serve_mls (rv_since _)).
  - by apply Hend, (save_mls (rv_since _)).
  - by apply Hend, (update_mls (rv_since _)).
  - by apply Hend, (delete_mls (rv_since _)).
  - destruct Hinv as [Hrows Hgr]. split; [|unfold rv_kept; rewrite Hm; apply rv_kept_refl].
    split; unfold mlsGroupEpoch, activeMLSDevice, roster_row in *; rewrite Hm; [|done].
    intros c dev r Hr. destruct (Hrows c dev r Hr) as [R1 R2 R3 R4].
    split; [by apply Hd|done|unfold activeMLSDevice, roster_row in *; by rewrite Hm|by rewrite Hm].
Qed.

Lemma mls_steps_revocations s s' : rtc mls_step s s' -> rv_inv s.(db) -> rv_inv s'.(db) /\ rv_kept s.(db) s'.(db).
Proof.
  induction 1 as [s|s1 s2 s3 Hstep _ IH]; intros Hinv; [split; [done|apply rv_kept_refl]|].
  destruct (mls_step_revocations _ _ Hstep Hinv) as [H2 Hk]. destruct (IH H2) as [H3 Hk3].
  split; [done|by eapply rv_kept_trans].
Qed.

(** No revocation and no group yet. *)
Definition no_groups (d : DB) : Prop := d.(mls).(mls_revocations) = ∅ /\ d.(mls).(mls_devices) = ∅.

Lemma no_groups_inv d : no_groups d -> rv_inv d.
Proof.
  intros [Hr Hd]. split; [intros c dev r; by rewrite Hr, lookup_empty|]. intros c dev. rewrite active_true, Hd.
  intros (r & Hx & _). by rewrite lookup_empty in Hx.
Qed.

(** C7: revocations only move forward and mean what they say.  Start without
    groups and take any history.  Once the commit of a revocation is in, the
    revocation is kept with that commit, the revoked device is out of the
    group and no later commit brings it back; and a revocation is completed
    only when every device that had to confirm it has, after which it never
    changes. *)
Theorem revocations_hold s0 s s' c dev r :
  no_groups s0.(db) -> rtc mls_step s0 s -> rtc mls_step s s' ->
  s.(db).(mls).(mls_revocations) !! (c, dev) = Some r -> r.(rv_state) <> "pending"%string ->
  exists r', s'.(db).(mls).(mls_revocations) !! (c, dev) = Some r' /\ r'.(rv_state) <> "pending"%string /\
    r'.(rv_commit_message_id) = r.(rv_commit_message_id) /\ activeMLSDevice s'.(db) c dev = false /\
    (r.(rv_state) = "completed"%string -> r' = r) /\
    (r'.(rv_state) = "completed"%string -> forall x, s'.(db).(mls).(mls_required) !! (c, dev, x) <> Some None).
Proof.
  intros H0 H1 H2 Hr Hp. destruct (mls_steps_revocations _ _ H1 (no_groups_inv _ H0)) as [Hi _].
  destruct (mls_steps_revocations _ _ H2 Hi) as [[Hrows _] Hk]. destruct (Hk _ _ Hr Hp) as (r' & Hr' & Hp' & Hc & Hd).
  exists r'. destruct (Hrows _ _ _ Hr') as [R1 R2 R3 R4]. split_and!; try done. by apply R3.
Qed.

(** ** Confirming *)

(** Every required device has confirmed a completed revocation; a submitted
    one waits for a device of [l]. *)
Definition awaits (c dev : string) (l : list string) (d : DB) : Prop :=
  (revocation_state d c dev = Some "completed"%string /\ forall x, d.(mls).(mls_required) !! (c, dev, x) <> Some None) \/
  (revocation_state d c dev = Some "commit_submitted"%string /\
   (exists x, d.(mls).(mls_required) !! (c, dev, x) = Some None) /\
   forall x, d.(mls).(mls_required) !! (c, dev, x) = Some None -> x ∈ l).

Lemma unconfirmed_exists d c dev : unconfirmed d c dev <> 0 -> exists x, d.(mls).(mls_required) !! (c, dev, x) = Some None.
Proof.
  unfold unconfirmed. intros H. destruct (List.filter _ _) as [|[[[c' dev'] x] v] l] eqn:E; [done|]. exists x.
  assert (((c', dev', x), v) ∈ (c', dev', x, v) :: l) as Hin by by left.
  rewrite <- E, list_elem_of_In, List.filter_In, <- list_elem_of_In in Hin. destruct Hin as [Hin Hp]. simpl in Hp. bool_to_prop.
  apply elem_of_map_to_list in Hin. subst v.
  match goal with H1 : (c' =s? c) = true, H2 : (dev' =s? dev) = true |- _ => apply str_eqb_true in H1 as <-; by apply str_eqb_true in H2 as <- end.
Qed.

Lemma confirm_step t now c dev a x l s :
  is_member s.(db) c a = true -> is_Some (s.(db).(mls).(mls_required) !! (c, dev, x)) -> awaits c dev (x :: l) s.(db) ->
  exists id s', ConfirmMLSRevocation t now c dev a x s = (Ok id, s') /\ awaits c dev l s'.(db) /\
    s'.(db).(rooms) = s.(db).(rooms) /\
    (forall y, is_Some (s.(db).(mls).(mls_required) !! (c, dev, y)) -> is_Some (s'.(db).(mls).(mls_required) !! (c, dev, y))).
Proof.
  intros Hm [v Hv] Haw. unfold ConfirmMLSRevocation, transaction, mbind, Tx_bind, read. rewrite Hv, Hm.
  destruct v as [t0|].
  - rewrite bool_decide_false by done. simpl. do 2 eexists. split; [reflexivity|]. split_and!; try done.
    destruct Haw as [?|(Hs & Hex & Hin)]; [by left|right]. split_and!; try done. intros y Hy. apply Hin in Hy as Hy'.
    apply elem_of_cons in Hy' as [->|?]; [congruence|done].
  - destruct Haw as [[_ Hn]|(Hs & Hex & Hin)]; [by destruct (Hn x)|]. rewrite Hs, !bool_decide_true by done. cbn [andb].
    set (s1 := with_db s (upd_mls (upd_mls_required <[(c, dev, x) := Some t]>) s.(db))).
    assert (forall y, s1.(db).(mls).(mls_required) !! (c, dev, y) =
      if decide (y = x) then Some (Some t) else s.(db).(mls).(mls_required) !! (c, dev, y)) as Hreq.
    { intros y. simpl. rewrite lookup_insert. repeat case_decide; congruence. }
    change (on_mls _ s) with (Ok (E := store_error) tt, s1). cbv iota beta.
    unfold completeMLSRevocationIfConfirmed, mbind, Tx_bind, read.
    assert (forall y, is_Some (s.(db).(mls).(mls_required) !! (c, dev, y)) -> is_Some (s1.(db).(mls).(mls_required) !! (c, dev, y))) as Hk.
    { intros y Hy. rewrite Hreq. case_decide; [by eexists|done]. }
    destruct (negb _) eqn:Eu; [|destruct (bool_decide (revocation_state s1.(db) c dev = _)) eqn:Eb].
    + do 2 eexists. split; [reflexivity|]. split_and!; try done. right. split_and!; try done.
      * apply unconfirmed_exists. by apply negb_true_iff, Z.eqb_neq in Eu.
      * intros y. rewrite Hreq. case_decide; [done|]. intros Hy. by apply Hin, elem_of_cons in Hy as [?|?].
    + apply negb_false_iff, Z.eqb_eq in Eu. do 2 eexists. split; [reflexivity|]. split_and!; try done.
      left. split; [|intros y; by apply unconfirmed_zero]. unfold revocation_state in *. simpl. rewrite lookup_alter, decide_True by done.
      by destruct (mls_revocations _ !! (c, dev)).
    + apply bool_decide_eq_false in Eb. by destruct Eb.
Qed.

(** C8: confirming is enough.  A submitted revocation that waits for devices
    is completed once each of them confirms through an account that is a
    member, in any order, repetitions included: every call succeeds and the
    last one needed completes it. *)
Theorem confirmations_complete t now c dev (l : list (string * string)) s :
  (forall a x, (a, x) ∈ l -> is_member s.(db) c a = true /\ is_Some (s.(db).(mls).(mls_required) !! (c, dev, x))) ->
  revocation_state s.(db) c dev = Some "commit_submitted"%string ->
  (exists x, s.(db).(mls).(mls_required) !! (c, dev, x) = Some None) ->
  (forall x, s.(db).(mls).(mls_required) !! (c, dev, x) = Some None -> x ∈ l.*2) ->
  exists s', for_each l (fun '(a, x) => ConfirmMLSRevocation t now c dev a x ≫= fun _ => mret tt) s = (Ok tt, s') /\
    revocation_state s'.(db) c dev = Some "completed"%string /\
    forall x, s'.(db).(mls).(mls_required) !! (c, dev, x) <> Some None.
Proof.
  intros Hl Hs Hex Hin. assert (awaits c dev l.*2 s.(db)) as Haw by by right. clear Hs Hex Hin.
  revert s Hl Haw. induction l as [|[a x] l IH]; intros s Hl Haw.
  - exists s. split; [done|]. destruct Haw as [?|(_ & [x Hx] & Hin)]; [done|]. by apply Hin, elem_of_nil in Hx.
  - destruct (Hl a x) as [Hm Hreq]; [by left|]. destruct (confirm_step t now c dev a x l.*2 s Hm Hreq Haw) as (id & s1 & Hrun & Haw1 & Hr & Hk).
    destruct (IH s1) as (s' & Hrun' & ?); [|done|].
    + intros b y Hy. destruct (Hl b y) as [? ?]; [by right|]. split; [unfold is_member in *; by rewrite Hr|by apply Hk].
    + exists s'. split; [|done]. cbn [for_each]. unfold mbind, Tx_bind at 1. unfold mbind, Tx_bind at 1. by rewrite Hrun.
Qed.
