(* ===== verification/KeyPackageRules.v ===== *)
(** * Rules of key packages

    What the claims of [MlsGroups] hand out: packages nobody had claimed, each
    once, and never again in any later history. *)

From S2P Require Import Prelude GoStrings GoJson Domain Admission Database Conversations Memberships Messages Retention MessageEvents Sync SyncRules Mls MlsGroups MlsRules.
From stdpp Require Import base numbers list strings gmap fin_maps sorting.
From Stdlib Require Import ZArith ZifyBool Lia.
Open Scope Z_scope.

(** ** What one claim does *)

Abbreviation packages d := (d.(mls).(key_packages)).








(** ** Histories *)

(** Claimed packages stay as they are. *)
Definition claims_kept (d0 d : DB) : Prop :=
  forall id k, packages d0 !! id = Some k -> k.(kp_claimed_at) <> None -> packages d !! id = Some k.


#[export] Instance claims_kept_frame d0 : MlsFrame (claims_kept d0).
Proof. intros d d' Hm _ _ H. unfold claims_kept in *. by rewrite Hm. Qed.

Section kept.
Context (d0 : DB).
Lemma kept_messages f : preserves (claims_kept d0) (on_mls (upd_mls_messages f)).
Proof. by intros s Hs. Qed.
Lemma kept_groups f : preserves (claims_kept d0) (on_mls (upd_mls_groups f)).
Proof. by intros s Hs. Qed.
Lemma kept_devices f : preserves (claims_kept d0) (on_mls (upd_mls_devices f)).
Proof. by intros s Hs. Qed.
Lemma kept_revocations f : preserves (claims_kept d0) (on_mls (upd_mls_revocations f)).
Proof. by intros s Hs. Qed.
Lemma kept_required f : preserves (claims_kept d0) (on_mls (upd_mls_required f)).
Proof. by intros s Hs. Qed.
Lemma kept_delete gone : preserves (claims_kept d0) (delete_revocations gone).
Proof. by intros s Hs. Qed.
Lemma kept_put c dev row : preserves (claims_kept d0) (put_device c dev row).
Proof. by intros s Hs. Qed.
Lemma kept_mark c ev ref : preserves (claims_kept d0) (mark_removed c ev ref).
Proof. by intros s Hs. Qed.
End kept.
#[export] Hint Resolve kept_messages kept_groups kept_devices kept_revocations kept_required kept_delete kept_put kept_mark : txs.

Lemma kept_complete d0 c dev now : preserves (claims_kept d0) (completeMLSRevocationIfConfirmed c dev now).
Proof. unfold completeMLSRevocationIfConfirmed, set_revocation, insertSyncEvent. mls_auto. Qed.
Lemma kept_insert d0 id row : preserves (claims_kept d0) (insertMLSMessage id row).
Proof. unfold insertMLSMessage, insert_mls_row, insertSyncEvent, set_mls_event. mls_auto. Qed.
#[export] Hint Resolve kept_complete kept_insert : txs.

Lemma kept_submit d0 id c dev sender now : preserves (claims_kept d0) (submit_revocation id c dev sender now).
Proof. unfold submit_revocation, set_revocation. mls_auto. Qed.
Lemma kept_welcomes d0 newID n i now ev epoch refs : preserves (claims_kept d0) (welcome_all newID n i now ev epoch refs).
Proof. revert n. induction refs as [|ref refs IH]; intros n; simpl; unfold join_device; mls_auto. Qed.
#[export] Hint Resolve kept_submit kept_welcomes : txs.














