(* ===== verification/MlsExample.v ===== *)
(** * An MLS group on a concrete server

    Alice creates a group with her phone and adds Bob's; Bob's phone adds her
    laptop; the laptop is revoked, removed by a commit and the removal
    confirmed.  The states witness the rules of [MlsRules],
    [RevocationRules] and [KeyPackageRules]. *)

From S2P Require Import Prelude GoStrings GoJson Domain Admission Database Conversations Memberships Messages Retention MessageEvents Sync SyncRules Mls MlsGroups MlsRules RevocationRules KeyPackageRules.
From stdpp Require Import base numbers list strings gmap fin_maps sorting.
From Stdlib Require Import ZArith ZifyBool Lia.
Open Scope Z_scope.

Definition mx_device (a : string) : DeviceRow := mkDeviceRow a None 1 None None "phone" "" None.
Definition mx_start : Store :=
  (serve (RCreateConversation "conv_m" 13 (mkInput "group" (Some "trip"%string) None None ex_alice None [ex_bob]))
    (mkStore (new_db (<[ex_alice := ex_active "alice"]> {[ex_bob := ex_active "bob"]})
                (<["phone_a" := mx_device ex_alice]> (<["laptop_a" := mx_device ex_alice]> {["phone_b" := mx_device ex_bob]})))
       (mkLimits 250 1000 536870912 10737418240 10000 20 60 10) NewCounters 0 (mkSessionPolicy 1209600000000000 2592000000000000))).2.

Definition mx_new (p : string) (n : Z) : string := (p +:+ pretty.pretty n)%string.

Definition mx_create : MLSCommitBundleInput :=
  mkBundle "conv_m" ex_alice "phone_a" 0 "k1" "commit-1" "welcome-1" [mkMLSDeviceRef ex_bob "phone_b"] [] "".
Definition mx_add : MLSCommitBundleInput :=
  mkBundle "conv_m" ex_bob "phone_b" 1 "k2" "commit-2" "welcome-2" [mkMLSDeviceRef ex_alice "laptop_a"] [] "".
Definition mx_remove : MLSCommitBundleInput :=
  mkBundle "conv_m" ex_alice "phone_a" 2 "k3" "commit-3" "" [] [mkMLSDeviceRef ex_alice "laptop_a"] "laptop_a".

Definition mx_created := CreateMLSCommitBundle (mx_new "mls_a") 20 mx_create mx_start.
Definition mx_added := CreateMLSCommitBundle (mx_new "mls_b") 30 mx_add mx_created.2.
Definition mx_marked : Store :=
  with_db mx_added.2 (upd_rooms (upd_devices (insert "laptop_a" (mkDeviceRow ex_alice (Some 40) 1 None None "phone" "" None))) mx_added.2.(db)).
Definition mx_queued := queueMLSRevocations ex_alice "laptop_a" 40 mx_marked.
Definition mx_removed := CreateMLSCommitBundle (mx_new "mls_c") 50 mx_remove mx_queued.2.
Definition mx_confirmed := ConfirmMLSRevocation 60 60 "conv_m" "laptop_a" ex_bob "phone_b" mx_removed.2.
Definition mx_none : MLSCommitBundleResult := mkBundleResult None [] 0 false 0.


(** ** The history *)

Lemma mx_start_clean : no_groups mx_start.(db).
Proof. split; vm_compute; reflexivity. Qed.

Lemma mx_marked_step : mls_step mx_added.2 mx_marked.
Proof.
  unfold mx_marked. generalize mx_added.2. intros s. apply mst_elsewhere; [reflexivity|simpl; lia|].
  intros dev (r & Hr & Hx). unfold revoked. simpl. rewrite lookup_insert. case_decide; [by eexists|by exists r].
Qed.

Lemma mx_to_removed : rtc mls_step mx_start mx_removed.2.
Proof.
  eapply rtc_l; [apply (mst_bundle (mx_new "mls_a") 20 mx_create mx_start)|]. fold mx_created.
  eapply rtc_l; [apply (mst_bundle (mx_new "mls_b") 30 mx_add mx_created.2)|]. fold mx_added.
  eapply rtc_l; [apply mx_marked_step|]. eapply rtc_l; [apply (mst_queue ex_alice "laptop_a" 40 mx_marked)|].
  - unfold mx_marked. generalize mx_added.2. intros s. exists (mkDeviceRow ex_alice (Some 40) 1 None None "phone" "" None).
    split; [apply lookup_insert_eq|done].
  - fold mx_queued. apply rtc_once, (mst_bundle (mx_new "mls_c") 50 mx_remove mx_queued.2).
Qed.

Lemma mx_created_run :
  CreateMLSCommitBundle (mx_new "mls_a") 20 mx_create mx_start = (Ok (answer mx_none mx_created), mx_created.2).
Proof. apply run_ok. vm_compute. reflexivity. Qed.
Lemma mx_added_run :
  CreateMLSCommitBundle (mx_new "mls_b") 30 mx_add mx_created.2 = (Ok (answer mx_none mx_added), mx_added.2).
Proof. apply run_ok. vm_compute. reflexivity. Qed.
Lemma mx_removed_run :
  CreateMLSCommitBundle (mx_new "mls_c") 50 mx_remove mx_queued.2 = (Ok (answer mx_none mx_removed), mx_removed.2).
Proof. apply run_ok. vm_compute. reflexivity. Qed.

(** ** Witnesses *)

Lemma bundle_changes_roster_witness :
  activeMLSDevice mx_queued.2.(db) "conv_m" "laptop_a" = true /\ activeMLSDevice mx_removed.2.(db) "conv_m" "phone_b" = true /\
  forall id, in_window mx_removed.2.(db) "conv_m" "laptop_a" id = true -> id <= mx_queued.2.(db).(events).(sync_seq) + 1.
Proof.
  split; [vm_compute; reflexivity|split; [vm_compute; reflexivity|]].
  destruct (bundle_changes_roster _ _ _ _ _ _ mx_removed_run) as (_ & _ & _ & _ & _ & H & _);
    [vm_compute; reflexivity|vm_compute; reflexivity|].
  intros id. apply (H "laptop_a"%string id). vm_compute. reflexivity.
Defined.

Lemma commits_are_linear_witness :
  mlsGroupEpoch mx_created.2.(db) "conv_m" = Some 1 /\ (answer mx_none mx_added).(br_Duplicate) = false /\
  ((answer mx_none mx_added).(br_Duplicate) = true \/ 0 < 1).
Proof.
  split; [vm_compute; reflexivity|split; [vm_compute; reflexivity|]].
  destruct (commits_are_linear _ _ _ _ _ _ _ _ _ _ _ _ mx_created_run ltac:(vm_compute; reflexivity) ltac:(vm_compute; reflexivity)
    (rtc_refl _ _) mx_added_run ltac:(vm_compute; reflexivity) ltac:(vm_compute; reflexivity)) as (_ & _ & H). exact H.
Defined.

(** Bob's phone reads the commit that added the laptop. *)
Definition mx_page : result store_error (list SyncEvent) := ListSyncEvents mx_added.2.(db) 35 ex_bob "phone_b" 0 100.
Definition mx_seen : SyncEvent := mkSyncEvent 4 "mls.message.created" None "conv_m" (mls_payload "mls_b0" "commit") 30.

Lemma mx_page_run : exists page, ListSyncEvents mx_added.2.(db) 35 ex_bob "phone_b" 0 100 = Ok page /\ mx_seen ∈ page.
Proof. eexists. split; [vm_compute; reflexivity|]. apply list_elem_of_In. simpl. tauto. Qed.

Lemma groups_hide_the_past_witness :
  in_window mx_created.2.(db) "conv_m" "phone_b" 4 = true \/ mx_created.2.(db).(events).(sync_seq) < 4.
Proof.
  destruct mx_page_run as (page & Hpage & Hin).
  exact (groups_hide_the_past mx_created.2 mx_added.2 "conv_m" 35 ex_bob "phone_b" 0 100 page mx_seen
    ltac:(exists 1; vm_compute; reflexivity) (rtc_once _ _ (mst_bundle (mx_new "mls_b") 30 mx_add mx_created.2))
    Hpage Hin ltac:(reflexivity) ltac:(reflexivity) ltac:(vm_compute; reflexivity)).
Defined.

Definition mx_revocation : RevocationRow :=
  mkRevocationRow ex_alice "phone_a" "commit_submitted" (Some "mls_c0"%string) 40 None.

Lemma revocations_hold_witness :
  exists r', mx_confirmed.2.(db).(mls).(mls_revocations) !! ("conv_m", "laptop_a")%string = Some r' /\
    activeMLSDevice mx_confirmed.2.(db) "conv_m" "laptop_a" = false.
Proof.
  destruct (revocations_hold mx_start mx_removed.2 mx_confirmed.2 "conv_m" "laptop_a" mx_revocation mx_start_clean mx_to_removed
    (rtc_once _ _ (mst_confirm 60 60 "conv_m" "laptop_a" ex_bob "phone_b" mx_removed.2))
    ltac:(vm_compute; reflexivity) ltac:(discriminate)) as (r' & Hr & _ & _ & Ha & _).
  exists r'. split; [exact Hr|exact Ha].
Defined.

Lemma mx_waits x :
  mx_removed.2.(db).(mls).(mls_required) !! ("conv_m", "laptop_a", x)%string = Some None -> x ∈ ["phone_b"%string].
Proof.
  assert (forallb (fun '(k, v) => bool_decide (v <> None) || bool_decide (k.2 ∈ ["phone_b"%string]))
    (map_to_list mx_removed.2.(db).(mls).(mls_required)) = true) as H by (vm_compute; reflexivity).
  intros Hx. rewrite forallb_forall in H. specialize (H (("conv_m", "laptop_a", x)%string, None)).
  rewrite <- list_elem_of_In, elem_of_map_to_list in H. specialize (H Hx). by apply bool_decide_eq_true in H.
Qed.

Lemma confirmations_complete_witness :
  exists s', for_each [(ex_bob, "phone_b"%string)]
      (fun '(a, x) => ConfirmMLSRevocation 60 60 "conv_m" "laptop_a" a x ≫= fun _ => mret tt) mx_removed.2 = (Ok tt, s') /\
    revocation_state s'.(db) "conv_m" "laptop_a" = Some "completed"%string.
Proof.
  destruct (confirmations_complete 60 60 "conv_m" "laptop_a" [(ex_bob, "phone_b"%string)] mx_removed.2) as (s' & Hrun & Hs & _).
  - intros a x Hin. apply list_elem_of_singleton in Hin. injection Hin as -> ->.
    split; [vm_compute; reflexivity|]. exists None. vm_compute. reflexivity.
  - vm_compute. reflexivity.
  - exists "phone_b"%string. vm_compute. reflexivity.
  - exact mx_waits.
  - exists s'. split; [exact Hrun|exact Hs].
Defined.



(** ** Pruning after a revocation *)

(** Once the commit of a completed revocation is older than the retention,
    pruning answers the foreign-key error, removes nothing, and does so at
    every later sweep. *)
Lemma completed_revocation_stops_pruning :
  revocation_state mx_confirmed.2.(db) "conv_m" "laptop_a" = Some "completed"%string /\
  (fun r => (r.1, size r.2.(events).(sync_events))) <$> PruneSyncEvents 2000 1000 mx_confirmed.2.(db) =
    Some ((0, Some ErrConstraint), size mx_confirmed.2.(db).(events).(sync_events)) /\
  (fun r => r.1) <$> PruneSyncEvents 900000 800000 mx_confirmed.2.(db) = Some (0, Some ErrConstraint).
Proof. split_and!; vm_compute; reflexivity. Qed.
