(* ===== verification/Blobs.v ===== *)
(** * Attachments, backups and recovery transfers

    [internal/storage/content_store.go]: attachment envelopes and backups
    under the storage quota, and the recovery capability of a backup with its
    leased, resumable transfers.  The blobs themselves are files the store
    only names; their digests are opaque.  A capability is known by the hash
    of its token.  The clock and fresh identifiers are arguments. *)

From S2P Require Import Prelude GoStrings GoJson Domain Admission Database Conversations Memberships Messages Retention.
From stdpp Require Import base numbers list strings gmap fin_maps sorting.
From Stdlib Require Import ZArith ZifyBool Lia.
Open Scope Z_scope.


Record AttachmentEnvelope := mkAttachmentEnvelope {
  ae_ID : string; ae_OwnerAccountID : string; ae_ConversationID : option string; ae_StorageKey : string;
  ae_CiphertextSHA256 : string; ae_SizeBytes : Z; ae_CryptoMetadata : string; ae_CreatedAt : Z; ae_ChunkDigests : string }.

Record BackupBlob := mkBackupBlob {
  bb_ID : string; bb_AccountID : string; bb_DeviceID : option string; bb_StorageKey : string; bb_CiphertextSHA256 : string;
  bb_SizeBytes : Z; bb_KeyDerivationMetadata : string; bb_CreatedAt : Z; bb_ChunkDigests : string }.

Definition scanAttachment (id : string) (r : AttachmentRow) (digests : string) : AttachmentEnvelope :=
  mkAttachmentEnvelope id r.(at_owner) r.(at_conversation_id) r.(at_storage_key) r.(at_sha256) r.(at_size) r.(at_metadata)
    r.(at_created_at) digests.
Definition scanBackup (id : string) (r : BackupRow) (digests : string) : BackupBlob :=
  mkBackupBlob id r.(bk_account_id) r.(bk_device_id) r.(bk_storage_key) r.(bk_sha256) r.(bk_size_bytes) r.(bk_metadata)
    r.(bk_created_at) digests.

(** [nullableBytes]: no bytes are stored as NULL. *)
Definition nullableBytes (b : string) : option string := if b =s? "" then None else Some b.

(** ** The storage quota *)

(** [f] over the rows of a table. *)
Definition sum_rows {A} (f : A -> Z) (m : gmap string A) : Z := foldr (fun kv acc => f kv.2 + acc) 0 (map_to_list m).

Definition if_owner (a : option string) (owner : string) (n : Z) : Z :=
  match a with Some a => if owner =s? a then n else 0 | None => n end.

(** The bytes an account ([None]: the instance) holds, as the triggers of
    migrations 0031 and 0039 keep them in [blob_usage_accounts] and
    [blob_usage_instance]: attachments, backups, active history transfers
    and upload intents. *)
Definition blob_usage (d : DB) (a : option string) : Z :=
  sum_rows (fun r => if_owner a r.(at_owner) r.(at_size)) d.(content).(attachments) +
  sum_rows (fun r => if_owner a r.(bk_account_id) r.(bk_size_bytes)) d.(backups) +
  sum_rows (fun r => if r.(ht_state) =s? "active" then if_owner a r.(ht_account_id) r.(ht_size_bytes) else 0) d.(history_transfers) +
  sum_rows (fun r => if_owner a r.(ui_account_id) r.(ui_size_bytes)) d.(upload_intents).

Definition blob_count (d : DB) (a : string) : Z :=
  sum_rows (fun r => if_owner (Some a) r.(at_owner) 1) d.(content).(attachments) +
  sum_rows (fun r => if_owner (Some a) r.(bk_account_id) 1) d.(backups) +
  sum_rows (fun r => if r.(ht_state) =s? "active" then if_owner (Some a) r.(ht_account_id) 1 else 0) d.(history_transfers) +
  sum_rows (fun r => if_owner (Some a) r.(ui_account_id) 1) d.(upload_intents).

Definition enforceBlobQuota (accountID : string) (incoming : Z) : Tx unit :=
  d ← read (fun d => d);
  l ← get_limits;
  if (incoming <? 0) || (l.(AccountStorageBytes) - incoming <? blob_usage d (Some accountID)) ||
     (l.(InstanceStorageBytes) - incoming <? blob_usage d None)
  then refuse Admission.Storage ErrStorageQuota
  else if l.(AccountBlobs) <=? blob_count d accountID then refuse Admission.Blobs ErrStorageQuota
  else mret tt.

(** ** Attachments *)

Definition storage_key_free (d : DB) (key : string) : bool :=
  forallb (fun '(_, r) => negb (r.(at_storage_key) =s? key)) (map_to_list d.(content).(attachments)).

Definition insert_attachment (id : string) (r : AttachmentRow) : Tx unit :=
  d ← read (fun d => d);
  guard_tx (negb (exists_in d.(content).(attachments) id) && storage_key_free d r.(at_storage_key) &&
            exists_in d.(rooms).(accounts) r.(at_owner) &&
            match r.(at_conversation_id) with Some c => exists_in d.(rooms).(conversations) c | None => true end) ErrConstraint ≫= fun _ =>
  on_content (upd_attachments (insert id r)).

Definition CreateAttachmentEnvelope (newID : string) (now : Z) (a : AttachmentEnvelope) : Tx AttachmentEnvelope :=
  d ← read (fun d => d);
  guard_tx match a.(ae_ConversationID) with Some c => is_member d c a.(ae_OwnerAccountID) | None => true end ErrNotMember ≫= fun _ =>
  let a := mkAttachmentEnvelope (if a.(ae_ID) =s? "" then newID else a.(ae_ID)) a.(ae_OwnerAccountID) a.(ae_ConversationID)
    a.(ae_StorageKey) a.(ae_CiphertextSHA256) a.(ae_SizeBytes)
    (if a.(ae_CryptoMetadata) =s? "" then "{}"%string else a.(ae_CryptoMetadata)) now a.(ae_ChunkDigests) in
  transaction (
    enforceBlobQuota a.(ae_OwnerAccountID) a.(ae_SizeBytes) ≫= fun _ =>
    insert_attachment a.(ae_ID) (mkAttachmentRow a.(ae_OwnerAccountID) (nullableString a.(ae_ConversationID)) a.(ae_StorageKey)
      a.(ae_SizeBytes) a.(ae_CreatedAt) a.(ae_CiphertextSHA256) a.(ae_CryptoMetadata)
      (nullableBytes a.(ae_ChunkDigests))) ≫= fun _ =>
    mret a).

(** The owner and the members of the attachment's conversation read it. *)
Definition attachment_readable (d : DB) (accountID : string) (r : AttachmentRow) : bool :=
  (r.(at_owner) =s? accountID) || match r.(at_conversation_id) with Some c => is_member d c accountID | None => false end.

Definition attachments_limit (limit : Z) : Z := if (limit <=? 0) || (500 <? limit) then 100 else limit.

Definition ListAttachments (d : DB) (accountID : string) (limit : Z) : list AttachmentEnvelope :=
  take (Z.to_nat (attachments_limit limit))
    (order_by (fun a b => stamp_le (b.(ae_CreatedAt), b.(ae_ID)) (a.(ae_CreatedAt), a.(ae_ID)))
      (omap (fun '(id, r) => if attachment_readable d accountID r then Some (scanAttachment id r "") else None)
         (map_to_list d.(content).(attachments)))).

Definition AttachmentForAccount (id accountID : string) : Tx AttachmentEnvelope :=
  d ← read (fun d => d);
  r ← require (d.(content).(attachments) !! id) ErrNotFound;
  guard_tx (attachment_readable d accountID r) ErrNotFound ≫= fun _ =>
  mret (scanAttachment id r (default ""%string r.(at_chunk_digests))).

Definition DeleteAttachment (now : Z) (id accountID : string) : Tx AttachmentEnvelope :=
  transaction (
    d ← read (fun d => d);
    r ← require (d.(content).(attachments) !! id) ErrNotFound;
    guard_tx (attachment_readable d accountID r) ErrNotFound ≫= fun _ =>
    guard_tx (r.(at_owner) =s? accountID) ErrForbidden ≫= fun _ =>
    on_content (delete_attachments (fun i => i =s? id)) ≫= fun _ =>
    enqueueBlobDeletion now r.(at_storage_key) ≫= fun _ =>
    mret (scanAttachment id r "")).

(** ** Backups *)

Definition RecoveryCapabilityLifetime : Z := 15 * minute.
Definition RecoveryLeaseLifetime : Z := 2 * minute.

Definition on_backups (f : gmap string BackupRow -> gmap string BackupRow) : Tx unit := modify (upd_backups f).

(** [json_type] and [json_extract] of [$.state_counter] in a valid document:
    its value when it is an integer. *)
Definition state_counter (metadata : string) : option Z :=
  match Json.Unmarshal metadata with
  | Some (Json.JObj l) => match Json.sql_member l "state_counter" with
                          | Some (Json.JNum lit) => Json.int_literal lit
                          | _ => None
                          end
  | _ => None
  end.

Definition of_device (accountID : string) (device : option string) (r : BackupRow) : bool :=
  (r.(bk_account_id) =s? accountID) && bool_decide (r.(bk_device_id) = device).

(** [SELECT MAX(CAST(json_extract(...) AS INTEGER))] over the device's
    backups; every stored document has passed the check of its counter. *)
Definition previous_counter (d : DB) (accountID : string) (device : option string) : option Z :=
  foldr (fun '(_, r) acc => if of_device accountID device r
                            then match state_counter r.(bk_metadata), acc with
                                 | Some n, Some m => Some (Z.max n m)
                                 | Some n, None => Some n
                                 | None, acc => acc
                                 end
                            else acc) None (map_to_list d.(backups)).

(** The capability of a backup is withdrawn. *)
Definition withdrawn (r : BackupRow) : BackupRow :=
  mkBackupRow r.(bk_account_id) r.(bk_device_id) r.(bk_storage_key) r.(bk_sha256) r.(bk_size_bytes) r.(bk_metadata) r.(bk_created_at)
    None None 0 None None r.(bk_chunk_digests).

Definition insert_backup (id : string) (r : BackupRow) : Tx unit :=
  d ← read (fun d => d);
  guard_tx (negb (exists_in d.(backups) id) && exists_in d.(rooms).(accounts) r.(bk_account_id) &&
            match r.(bk_device_id) with Some dev => exists_in d.(rooms).(devices) dev | None => true end &&
            forallb (fun '(_, x) => negb (x.(bk_storage_key) =s? r.(bk_storage_key)) &&
                                    negb (bool_decide (x.(bk_recovery_token_hash) = r.(bk_recovery_token_hash))))
              (map_to_list d.(backups))) ErrConstraint ≫= fun _ =>
  on_backups (insert id r).

Definition CreateBackupBlobWithChunkDigests (newID : string) (now : Z) (accountID deviceID storageKey ciphertextSHA256 : string)
    (sizeBytes : Z) (chunkDigests keyDerivationMetadata recoveryTokenHash : string) : Tx unit :=
  let metadata := if keyDerivationMetadata =s? "" then "{}"%string else keyDerivationMetadata in
  transaction (
    enforceBlobQuota accountID sizeBytes ≫= fun _ =>
    guard_tx (blen recoveryTokenHash =? 32) ErrInvalidInput ≫= fun _ =>
    guard_tx (bool_decide (is_Some (Json.Unmarshal metadata))) ErrInvalidInput ≫= fun _ =>
    counter ← require (state_counter metadata) ErrInvalidInput;
    guard_tx ((min_int64 <=? counter) && (counter <=? max_int64)) ErrEncoding ≫= fun _ =>
    guard_tx (0 <? counter) ErrInvalidInput ≫= fun _ =>
    let device := nullableEmptyString deviceID in
    d ← read (fun d => d);
    guard_tx match previous_counter d accountID device with Some p => p <? counter | None => true end ErrInvalidInput ≫= fun _ =>
    on_backups (fmap (fun r => if of_device accountID device r then withdrawn r else r)) ≫= fun _ =>
    insert_backup newID (mkBackupRow accountID device storageKey ciphertextSHA256 sizeBytes metadata now (Some recoveryTokenHash)
      (Some (time_add now RecoveryCapabilityLifetime)) 0 None None (nullableBytes chunkDigests))).

Definition CreateBackupBlob (newID : string) (now : Z) (accountID deviceID storageKey ciphertextSHA256 : string) (sizeBytes : Z)
    (keyDerivationMetadata recoveryTokenHash : string) : Tx unit :=
  CreateBackupBlobWithChunkDigests newID now accountID deviceID storageKey ciphertextSHA256 sizeBytes "" keyDerivationMetadata
    recoveryTokenHash.

Definition backups_limit (limit : Z) : Z := if (limit <=? 0) || (100 <? limit) then 25 else limit.

Definition ListBackups (d : DB) (accountID : string) (limit : Z) : list BackupBlob :=
  take (Z.to_nat (backups_limit limit))
    (order_by (fun a b => stamp_le (b.(bb_CreatedAt), b.(bb_ID)) (a.(bb_CreatedAt), a.(bb_ID)))
      (omap (fun '(id, r) => if r.(bk_account_id) =s? accountID then Some (scanBackup id r "") else None) (map_to_list d.(backups)))).

Definition BackupForAccount (id accountID : string) : Tx BackupBlob :=
  d ← read (fun d => d);
  r ← require (d.(backups) !! id) ErrNotFound;
  guard_tx (r.(bk_account_id) =s? accountID) ErrNotFound ≫= fun _ =>
  mret (scanBackup id r (default ""%string r.(bk_chunk_digests))).

Definition DeleteBackup (now : Z) (id accountID : string) : Tx BackupBlob :=
  transaction (
    d ← read (fun d => d);
    r ← require (d.(backups) !! id) ErrNotFound;
    guard_tx (r.(bk_account_id) =s? accountID) ErrNotFound ≫= fun _ =>
    on_backups (delete id) ≫= fun _ =>
    enqueueBlobDeletion now r.(bk_storage_key) ≫= fun _ =>
    mret (scanBackup id r "")).

(** A record is stored only for a row that has none and still holds the
    verified digest and size. *)
Definition missing_digests (storageKey sha256 : string) (sizeBytes : Z) (key : option string) (sha : string) (size : Z)
    (digests : option string) : bool :=
  bool_decide (key = Some storageKey) && (sha =s? sha256) && (size =? sizeBytes) && bool_decide (digests = None).

Definition RecordBlobChunkDigests (storageKey ciphertextSHA256 : string) (sizeBytes : Z) (chunkDigests : string) : Tx unit :=
  guard_tx (negb (storageKey =s? "") && negb (chunkDigests =s? "")) ErrInvalidInput ≫= fun _ =>
  let missing := missing_digests storageKey ciphertextSHA256 sizeBytes in
  transaction (
    on_content (upd_attachments (fmap (fun r =>
      if missing (Some r.(at_storage_key)) r.(at_sha256) r.(at_size) r.(at_chunk_digests)
      then mkAttachmentRow r.(at_owner) r.(at_conversation_id) r.(at_storage_key) r.(at_size) r.(at_created_at) r.(at_sha256)
             r.(at_metadata) (Some chunkDigests)
      else r))) ≫= fun _ =>
    on_backups (fmap (fun r =>
      if missing (Some r.(bk_storage_key)) r.(bk_sha256) r.(bk_size_bytes) r.(bk_chunk_digests)
      then mkBackupRow r.(bk_account_id) r.(bk_device_id) r.(bk_storage_key) r.(bk_sha256) r.(bk_size_bytes) r.(bk_metadata)
             r.(bk_created_at) r.(bk_recovery_token_hash) r.(bk_recovery_expires_at) r.(bk_recovery_next_offset) r.(bk_lease_id)
             r.(bk_lease_expires_at) (Some chunkDigests)
      else r)) ≫= fun _ =>
    modify (upd_history_transfers (fmap (fun r =>
      if missing r.(ht_storage_key) r.(ht_sha256) r.(ht_size_bytes) r.(ht_chunk_digests)
      then mkHistoryTransferRow r.(ht_transfer_id) r.(ht_account_id) r.(ht_source_device_id) r.(ht_recipient_device_id)
             r.(ht_claim_request_hash) r.(ht_transcript_hash) r.(ht_sha256) r.(ht_size_bytes) r.(ht_handoff) r.(ht_handoff_sha256)
             r.(ht_storage_key) (Some chunkDigests) r.(ht_state) r.(ht_created_at) r.(ht_expires_at) r.(ht_terminal_at)
      else r)))).

(** ** Recovery transfers *)

Record RecoveryTransfer := mkRecoveryTransfer { rt_Backup : BackupBlob; rt_LeaseID : string; rt_StartOffset : Z }.

Definition find_backup (d : DB) (p : BackupRow -> bool) : option (string * BackupRow) :=
  head (List.filter (fun '(_, r) => p r) (map_to_list d.(backups))).

(** The row with its transfer state replaced. *)
Definition with_transfer (r : BackupRow) (token : option string) (offset : Z) (lease : option string) (until : option Z) : BackupRow :=
  mkBackupRow r.(bk_account_id) r.(bk_device_id) r.(bk_storage_key) r.(bk_sha256) r.(bk_size_bytes) r.(bk_metadata) r.(bk_created_at)
    token r.(bk_recovery_expires_at) offset lease until r.(bk_chunk_digests).

Definition lease_runs (now : Z) (r : BackupRow) : bool :=
  match r.(bk_lease_expires_at) with Some t => now <? t | None => false end.

Definition BeginRecoveryTransfer (newLease : string) (now : Z) (recoveryTokenHash : string) (start : Z) : Tx RecoveryTransfer :=
  guard_tx ((blen recoveryTokenHash =? 32) && (0 <=? start)) ErrRecoveryRange ≫= fun _ =>
  transaction (
    d ← read (fun d => d);
    row ← require (find_backup d (fun r => bool_decide (r.(bk_recovery_token_hash) = Some recoveryTokenHash))) ErrNotFound;
    let '(id, r) := row in
    expiresAt ← require r.(bk_recovery_expires_at) ErrEncoding;
    guard_tx (time_after expiresAt now) ErrNotFound ≫= fun _ =>
    guard_tx (negb (bool_decide (is_Some r.(bk_lease_id)) && lease_runs now r)) ErrRecoveryBusy ≫= fun _ =>
    guard_tx (start <=? r.(bk_recovery_next_offset)) ErrRecoveryRange ≫= fun _ =>
    guard_tx (bool_decide (r.(bk_lease_id) = None) || match r.(bk_lease_expires_at) with Some t => t <=? now | None => false end)
      ErrRecoveryBusy ≫= fun _ =>
    on_backups (insert id (with_transfer r r.(bk_recovery_token_hash) r.(bk_recovery_next_offset) (Some newLease)
      (Some (time_add now RecoveryLeaseLifetime)))) ≫= fun _ =>
    mret (mkRecoveryTransfer (scanBackup id r (default ""%string r.(bk_chunk_digests))) newLease start)).

Definition holds_lease (leaseID : string) (now : Z) (r : BackupRow) : bool :=
  bool_decide (r.(bk_lease_id) = Some leaseID) && lease_runs now r.

(** [UPDATE backup_blobs SET ... WHERE p], with the number of rows. *)
Definition update_backups (p : BackupRow -> bool) (f : BackupRow -> BackupRow) : Tx Z :=
  d ← read (fun d => d);
  on_backups (fmap (fun r => if p r then f r else r)) ≫= fun _ =>
  mret (len (List.filter (fun '(_, r) => p r) (map_to_list d.(backups)))).

Definition RenewRecoveryTransfer (now : Z) (leaseID : string) : Tx unit :=
  guard_tx (negb (leaseID =s? "")) ErrInvalidInput ≫= fun _ =>
  rows ← update_backups (holds_lease leaseID now) (fun r =>
    with_transfer r r.(bk_recovery_token_hash) r.(bk_recovery_next_offset) r.(bk_lease_id) (Some (time_add now RecoveryLeaseLifetime)));
  guard_tx (rows =? 1) ErrRecoveryBusy.

Definition CompleteRecoveryTransfer (now : Z) (leaseID : string) (startOffset bytesWritten expected : Z) : Tx unit :=
  guard_tx (negb ((leaseID =s? "") || (startOffset <? 0) || (bytesWritten <? 0) || (expected <? 0) || (expected <? bytesWritten)))
    ErrInvalidInput ≫= fun _ =>
  transaction (
    d ← read (fun d => d);
    row ← require (find_backup d (fun r => holds_lease leaseID now r && (startOffset <=? r.(bk_recovery_next_offset)))) ErrRecoveryBusy;
    let nextOffset := row.2.(bk_recovery_next_offset) in
    let sizeBytes := row.2.(bk_size_bytes) in
    guard_tx (negb ((sizeBytes <? nextOffset) || (sizeBytes <? startOffset) || (sizeBytes - startOffset <? bytesWritten)))
      ErrInvalidInput ≫= fun _ =>
    let reached := startOffset + bytesWritten in
    let newOffset := if nextOffset <? reached then reached else nextOffset in
    let finished := (bytesWritten =? expected) && (reached =? sizeBytes) in
    rows ← update_backups (fun r => holds_lease leaseID now r && (r.(bk_recovery_next_offset) =? nextOffset)) (fun r =>
      with_transfer r (if finished then None else r.(bk_recovery_token_hash)) newOffset None None);
    guard_tx (rows =? 1) ErrRecoveryBusy).

Definition BackupForRecoveryToken (now : Z) (recoveryTokenHash : string) : Tx BackupBlob :=
  guard_tx (blen recoveryTokenHash =? 32) ErrNotFound ≫= fun _ =>
  d ← read (fun d => d);
  row ← require (find_backup d (fun r => bool_decide (r.(bk_recovery_token_hash) = Some recoveryTokenHash) &&
    match r.(bk_recovery_expires_at) with Some t => now <? t | None => false end)) ErrNotFound;
  mret (scanBackup row.1 row.2 "").
