(* ===== verification/Identity.v ===== *)
(** * Enrollment, invites and accounts

    [internal/storage]: [enrollment_store.go], the invites, owner set-up and
    registration of [identity_store.go], the audit log of [message_store.go],
    the cancellation of waiting recovery requests of
    [account_recovery_store.go] and the account administration of
    [admin_store.go].  Keys, tokens and hashes are opaque strings of bytes.
    Where a method reads the clock several times it takes the list of readings
    as a function [clock], numbered from 0 in the order of the reads. *)

From S2P Require Import Prelude GoStrings GoJson Domain Admission Database Conversations Memberships Messages Retention PushWake Mls MlsGroups.
From stdpp Require Import base numbers list strings gmap fin_maps sorting.
From Stdlib Require Import ZArith ZifyBool Lia.
Open Scope Z_scope.

(** ** Statements *)

(** [INSERT INTO accounts], [devices] and [sessions]: their keys, UNIQUE
    columns and references. *)
Definition insert_account (id : string) (r : AccountRow) : Tx unit :=
  d ← read (fun d => d);
  guard_tx (negb (exists_in d.(rooms).(accounts) id) &&
            forallb (fun '(_, x) => negb (x.(acc_username) =s? r.(acc_username))) (map_to_list d.(rooms).(accounts))) ErrConstraint ≫= fun _ =>
  on_rooms (upd_accounts (insert id r)).

Definition insert_device (id : string) (r : DeviceRow) : Tx unit :=
  d ← read (fun d => d);
  guard_tx (negb (exists_in d.(rooms).(devices) id) && exists_in d.(rooms).(accounts) r.(dev_account_id)) ErrConstraint ≫= fun _ =>
  on_rooms (upd_devices (insert id r)).

Definition insert_session (tokenHash : string) (r : SessionRow) : Tx unit :=
  d ← read (fun d => d);
  guard_tx (negb (exists_in d.(sessions) tokenHash) && exists_in d.(rooms).(accounts) r.(ss_account_id) &&
            match r.(ss_device_id) with Some dev => exists_in d.(rooms).(devices) dev | None => true end) ErrConstraint ≫= fun _ =>
  on_sessions (insert tokenHash r).

(** A session starts authenticated, used and unrotated. *)
Definition new_session (accountID : string) (deviceID : option string) (expiresAt createdAt : Z) (recentAuthAt : option Z)
    (absoluteExpiresAt : Z) : SessionRow :=
  mkSessionRow accountID deviceID expiresAt createdAt recentAuthAt createdAt absoluteExpiresAt None None.

(** [RowsAffected] of an [UPDATE ... WHERE id = ? AND p]. *)
Definition update_row {A} (m : gmap string A) (id : string) (p : A -> bool) (f : A -> A) : gmap string A * Z :=
  match m !! id with
  | Some r => if p r then (<[id := f r]> m, 1) else (m, 0)
  | None => (m, 0)
  end.

(** ** The audit log *)

Record AuditEvent := mkAuditEvent { ae_Type : string; ae_Metadata : Payload }.

Definition insertAuditEvent (now : Z) (actorAccountID : option string) (eventType : string) (metadata : Payload) : Tx unit :=
  d ← read (fun d => d);
  let actor := nullableString actorAccountID in
  guard_tx match actor with Some a => exists_in d.(rooms).(accounts) a | None => true end ErrConstraint ≫= fun _ =>
  on_ident (upd_audit_events (fun l => l ++ [mkAuditRow actor eventType metadata now])).

Definition RecordAuditEvent := insertAuditEvent.

(** ** Session lifetimes *)

(** [sessionLifetime]: the idle and the absolute expiry of a session
    authenticated at [authenticatedAt]. *)
Definition sessionLifetime (p : sessionPolicy) (authenticatedAt requestedExpiry : Z) : Z * Z :=
  let idleExpiry := time_add authenticatedAt p.(idle) in
  let idleExpiry := if negb (time_is_zero requestedExpiry) && time_before requestedExpiry idleExpiry then requestedExpiry else idleExpiry in
  (idleExpiry, time_add authenticatedAt p.(absolute)).

Definition SessionIdleLifetime : Z := 14 * 24 * hour.
Definition SessionAbsoluteLifetime : Z := 30 * 24 * hour.

Definition newSessionPolicy (cfgIdle cfgAbsolute : Z) : sessionPolicy :=
  let i := if cfgIdle <=? 0 then SessionIdleLifetime else cfgIdle in
  let a := if cfgAbsolute <=? 0 then SessionAbsoluteLifetime else cfgAbsolute in
  mkSessionPolicy (if a <? i then a else i) a.

(** ** Enrollment reservations *)

Definition enrollmentLifetime : Z := 10 * minute.

Record EnrollmentReservationT := mkEnrollmentReservation {
  en_ID : string; en_Kind : string; en_AccountID : string; en_DeviceID : string; en_InviteID : option string; en_Challenge : string;
  en_ExpiresAt : Z; en_ProtocolVersion : string; en_LinkNonce : string; en_ExistingDeviceID : string; en_ExistingSigningKey : string }.

(** [binary.BigEndian.PutUint16] of [uint16(n)]. *)
Definition u16be (n : Z) : string :=
  of_chars [Ascii.ascii_of_N (Z.to_N (n mod 65536 / 256)); Ascii.ascii_of_N (Z.to_N (n mod 256))].


(** A field behind its length. *)
Definition lp (field : string) : string := (u16be (blen field) +:+ field)%string.

Definition encodeEnrollmentChallenge (reservationID accountID deviceID nonce : string) : string :=
  ("veritra-enrollment-v1" +:+ lp reservationID +:+ lp accountID +:+ lp deviceID +:+ lp nonce)%string.

(** [INSERT INTO enrollment_reservations]: a challenge has 32 to 1024 bytes,
    a device is reserved once, and an account once outside recovery. *)
Definition insert_reservation (id : string) (r : ReservationRow) : Tx unit :=
  d ← read (fun d => d);
  guard_tx (negb (exists_in d.(ident).(reservations) id) && (32 <=? blen r.(er_challenge)) && (blen r.(er_challenge) <=? 1024) &&
            match r.(er_invite_id) with Some i => exists_in d.(ident).(invites) i | None => true end &&
            forallb (fun '(_, x) => negb (x.(er_device_id) =s? r.(er_device_id)) &&
                       ((x.(er_kind) =s? "recovery") || (r.(er_kind) =s? "recovery") || negb (x.(er_account_id) =s? r.(er_account_id))))
              (map_to_list d.(ident).(reservations))) ErrConstraint ≫= fun _ =>
  on_ident (upd_reservations (insert id r)).

Definition createEnrollmentReservationFor (id deviceID nonce : string) (now : Z) (kind : string) (inviteID : option string)
    (accountID : string) : Tx EnrollmentReservationT :=
  let challenge := encodeEnrollmentChallenge id accountID deviceID nonce in
  let expiresAt := time_add now enrollmentLifetime in
  insert_reservation id (mkReservationRow kind accountID deviceID (nullableString inviteID) challenge now expiresAt None) ≫= fun _ =>
  mret (mkEnrollmentReservation id kind accountID deviceID inviteID challenge expiresAt "" "" "" "").

Definition createEnrollmentReservation (newAccount id deviceID nonce : string) (now : Z) (kind : string) (inviteID : option string)
    : Tx EnrollmentReservationT :=
  createEnrollmentReservationFor id deviceID nonce now kind inviteID newAccount.

Definition ReserveOwnerEnrollment (newAccount id deviceID nonce : string) (now : Z) : Tx EnrollmentReservationT :=
  d ← read (fun d => d);
  guard_tx (len (map_to_list d.(rooms).(accounts)) =? 0) ErrAlreadySetup ≫= fun _ =>
  createEnrollmentReservation newAccount id deviceID nonce now "owner" None.

(** An invite that still admits someone. *)
Definition invite_open (now : Z) (r : InviteRow) : bool :=
  bool_decide (r.(iv_revoked_at) = None) && (r.(iv_uses) <? r.(iv_max_uses)) &&
  match r.(iv_expires_at) with Some t => now <? t | None => true end.

Definition invite_by_code (d : DB) (now : Z) (code : string) : option string :=
  fst <$> head (List.filter (fun '(_, r) => (r.(iv_code) =s? code) && invite_open now r) (map_to_list d.(ident).(invites))).

Definition ReserveRegistrationEnrollment (newAccount id deviceID nonce : string) (checkedAt now : Z) (inviteCode : string)
    : Tx EnrollmentReservationT :=
  d ← read (fun d => d);
  inviteID ← require (invite_by_code d checkedAt (TrimSpace inviteCode)) ErrInviteInvalid;
  createEnrollmentReservation newAccount id deviceID nonce now "register" (Some inviteID).

Definition reservation_open (now : Z) (r : ReservationRow) : bool := bool_decide (r.(er_consumed_at) = None) && (now <? r.(er_expires_at)).

Definition scanEnrollmentReservation (id : string) (r : ReservationRow) : EnrollmentReservationT :=
  mkEnrollmentReservation id r.(er_kind) r.(er_account_id) r.(er_device_id) r.(er_invite_id) r.(er_challenge) r.(er_expires_at) "" "" "" "".

Definition EnrollmentReservation (now : Z) (id : string) : Tx EnrollmentReservationT :=
  d ← read (fun d => d);
  r ← require (d.(ident).(reservations) !! TrimSpace id) ErrEnrollmentInvalid;
  guard_tx (reservation_open now r) ErrEnrollmentInvalid ≫= fun _ =>
  mret (scanEnrollmentReservation (TrimSpace id) r).

Definition enrollmentReservationForTx (now : Z) (id kind : string) : Tx EnrollmentReservationT :=
  d ← read (fun d => d);
  r ← require (d.(ident).(reservations) !! TrimSpace id) ErrEnrollmentInvalid;
  guard_tx ((r.(er_kind) =s? kind) && reservation_open now r) ErrEnrollmentInvalid ≫= fun _ =>
  mret (scanEnrollmentReservation (TrimSpace id) r).

Definition consumed (now : Z) (r : ReservationRow) : ReservationRow :=
  mkReservationRow r.(er_kind) r.(er_account_id) r.(er_device_id) r.(er_invite_id) r.(er_challenge) r.(er_created_at) r.(er_expires_at)
    (Some now).

Definition consumeEnrollmentReservation (now checkedAt : Z) (id : string) : Tx unit :=
  d ← read (fun d => d);
  let '(m, rows) := update_row d.(ident).(reservations) id (reservation_open checkedAt) (consumed now) in
  on_ident (upd_reservations (fun _ => m)) ≫= fun _ =>
  guard_tx (rows =? 1) ErrEnrollmentInvalid.

(** ** Owner set-up and registration *)

Record RegisterInput := mkRegisterInput {
  ri_EnrollmentReservationID : string; ri_InviteCode : string; ri_Username : string; ri_Email : option string;
  ri_PasswordHash : string; ri_DeviceName : string; ri_KeyPackage : string; ri_SigningKey : string; ri_DeviceAuthHash : string;
  ri_SessionHash : string; ri_SessionExpiry : Z }.

(** [CreateOwnerInput] has an instance name where [RegisterInput] has an
    invite code. *)
Record CreateOwnerInput := mkCreateOwnerInput { co_InstanceName : string; co_Register : RegisterInput }.

Record AccountDevice := mkAccountDevice { ad_Account : Account; ad_Device : Device }.

(** The account, its first device and key package, as both enrollments
    insert them. *)
Definition insert_enrolled (newPackage accountID deviceID role : string) (createdAt : Z) (input : RegisterInput) : Tx unit :=
  insert_account accountID (mkAccountRow (NormalizeUsername input.(ri_Username)) role "active" None true input.(ri_PasswordHash)
    (nullableString input.(ri_Email)) createdAt) ≫= fun _ =>
  insert_device deviceID (mkDeviceRow accountID None createdAt None (Some input.(ri_DeviceAuthHash)) (TrimSpace input.(ri_DeviceName))
    input.(ri_KeyPackage) (Some input.(ri_SigningKey))) ≫= fun _ =>
  insertInitialDeviceKeyPackage newPackage deviceID input.(ri_KeyPackage) createdAt.

Definition insert_first_session (accountID deviceID : string) (createdAt : Z) (input : RegisterInput) : Tx unit :=
  p ← get_policy;
  let '(expiresAt, absoluteExpiresAt) := sessionLifetime p createdAt input.(ri_SessionExpiry) in
  if input.(ri_SessionHash) =s? "" then mret tt
  else insert_session input.(ri_SessionHash) (new_session accountID (Some deviceID) expiresAt createdAt (Some createdAt) absoluteExpiresAt).

Definition enrolled (accountID deviceID role : string) (createdAt : Z) (input : RegisterInput) : AccountDevice :=
  mkAccountDevice (mkAccount accountID (NormalizeUsername input.(ri_Username)) input.(ri_Email) role "active" createdAt None)
    (mkDevice deviceID accountID (TrimSpace input.(ri_DeviceName)) input.(ri_KeyPackage) input.(ri_SigningKey) createdAt None None).

Definition CreateOwner (newPackage : string) (clock : nat -> Z) (input : CreateOwnerInput) : Tx AccountDevice :=
  transaction (
    d ← read (fun d => d);
    guard_tx (negb (0 <? len (map_to_list d.(rooms).(accounts)))) ErrAlreadySetup ≫= fun _ =>
    reservation ← enrollmentReservationForTx (clock 0%nat) input.(co_Register).(ri_EnrollmentReservationID) "owner";
    let accountID := reservation.(en_AccountID) in
    let deviceID := reservation.(en_DeviceID) in
    let createdAt := clock 1%nat in
    let instanceName := TrimSpace input.(co_InstanceName) in
    let instanceName := if instanceName =s? "" then "Veritra"%string else instanceName in
    guard_tx (bool_decide (d.(ident).(instance) = None)) ErrConstraint ≫= fun _ =>
    on_ident (upd_instance (fun _ => Some (mkInstanceRow instanceName createdAt None))) ≫= fun _ =>
    insert_enrolled newPackage accountID deviceID RoleOwner createdAt input.(co_Register) ≫= fun _ =>
    insert_first_session accountID deviceID createdAt input.(co_Register) ≫= fun _ =>
    consumeEnrollmentReservation (clock 2%nat) (clock 3%nat) reservation.(en_ID) ≫= fun _ =>
    mret (enrolled accountID deviceID RoleOwner createdAt input.(co_Register))).

Definition use_invite (id : string) : Tx unit :=
  on_ident (upd_invites (alter (fun r => mkInviteRow r.(iv_code) r.(iv_created_by) r.(iv_max_uses) (r.(iv_uses) + 1) r.(iv_expires_at)
    r.(iv_created_at) r.(iv_revoked_at)) id)).

Definition RegisterWithInvite (newPackage : string) (clock : nat -> Z) (input : RegisterInput) : Tx AccountDevice :=
  transaction (
    d ← read (fun d => d);
    inviteID ← require (invite_by_code d (clock 0%nat) (TrimSpace input.(ri_InviteCode))) ErrInviteInvalid;
    reservation ← enrollmentReservationForTx (clock 1%nat) input.(ri_EnrollmentReservationID) "register";
    guard_tx (bool_decide (reservation.(en_InviteID) = Some inviteID)) ErrEnrollmentInvalid ≫= fun _ =>
    let accountID := reservation.(en_AccountID) in
    let deviceID := reservation.(en_DeviceID) in
    let createdAt := clock 2%nat in
    insert_enrolled newPackage accountID deviceID RoleMember createdAt input ≫= fun _ =>
    use_invite inviteID ≫= fun _ =>
    insert_first_session accountID deviceID createdAt input ≫= fun _ =>
    consumeEnrollmentReservation (clock 3%nat) (clock 4%nat) reservation.(en_ID) ≫= fun _ =>
    mret (enrolled accountID deviceID RoleMember createdAt input)).

(** ** Invites *)

Definition scanInvite (id : string) (r : InviteRow) : Invite :=
  mkInvite id r.(iv_code) r.(iv_created_by) r.(iv_max_uses) r.(iv_uses) r.(iv_expires_at) r.(iv_created_at) r.(iv_revoked_at).

Definition CreateInvite (id code : string) (now : Z) (createdBy : string) (maxUses : Z) (expiresAt : option Z) : Tx Invite :=
  let maxUses := if maxUses <=? 0 then 1 else maxUses in
  d ← read (fun d => d);
  guard_tx (negb (exists_in d.(ident).(invites) id) && exists_in d.(rooms).(accounts) createdBy &&
            forallb (fun '(_, r) => negb (r.(iv_code) =s? code)) (map_to_list d.(ident).(invites))) ErrConstraint ≫= fun _ =>
  on_ident (upd_invites (insert id (mkInviteRow code createdBy maxUses 0 expiresAt now None))) ≫= fun _ =>
  mret (mkInvite id code createdBy maxUses 0 expiresAt now None).

(** [ORDER BY created_at DESC]: equal stamps come in any order. *)
Definition ListInvites (d : DB) (now : Z) (createdBy : string) : list Invite :=
  order_by (fun a b => b.(inv_CreatedAt) <=? a.(inv_CreatedAt))
    (omap (fun '(id, r) => if (r.(iv_created_by) =s? createdBy) && invite_open now r then Some (scanInvite id r) else None)
       (map_to_list d.(ident).(invites))).

Definition revoked_invite (now : Z) (r : InviteRow) : InviteRow :=
  mkInviteRow r.(iv_code) r.(iv_created_by) r.(iv_max_uses) r.(iv_uses) r.(iv_expires_at) r.(iv_created_at) (Some now).

Definition revoke_invite (now : Z) (inviteID : string) (p : InviteRow -> bool) : Tx unit :=
  d ← read (fun d => d);
  let '(m, rows) := update_row d.(ident).(invites) inviteID (fun r => p r && bool_decide (r.(iv_revoked_at) = None)) (revoked_invite now) in
  on_ident (upd_invites (fun _ => m)) ≫= fun _ =>
  guard_tx (negb (rows =? 0)) ErrNotFound.

Definition RevokeInvite (now : Z) (createdBy inviteID : string) : Tx unit :=
  revoke_invite now inviteID (fun r => r.(iv_created_by) =s? createdBy).

Definition AdminRevokeInvite (now auditAt : Z) (actorAccountID inviteID : string) (audit : AuditEvent) : Tx unit :=
  transaction (
    revoke_invite now inviteID (fun _ => true) ≫= fun _ =>
    insertAuditEvent auditAt (Some actorAccountID) audit.(ae_Type) audit.(ae_Metadata)).

(** ** Accounts *)

Definition account_live (a : AccountRow) : bool := (a.(acc_status) =s? "active") && bool_decide (a.(acc_deleted_at) = None).
Definition device_live (d : DeviceRow) : bool := bool_decide (d.(dev_revoked_at) = None).

Record LoginRecordT := mkLoginRecord {
  lr_AccountID : string; lr_Username : string; lr_PasswordHash : string; lr_Role : string; lr_DeviceID : string;
  lr_DeviceAuthHash : string }.

(** The device's account, as the query joins them. *)
Definition LoginRecord (username deviceID : string) : Tx LoginRecordT :=
  let username := NormalizeUsername username in
  let deviceID := TrimSpace deviceID in
  guard_tx (negb (deviceID =s? "")) ErrUnauthorized ≫= fun _ =>
  d ← read (fun d => d);
  dev ← require (d.(rooms).(devices) !! deviceID) ErrUnauthorized;
  a ← require (d.(rooms).(accounts) !! dev.(dev_account_id)) ErrUnauthorized;
  guard_tx ((a.(acc_username) =s? username) && account_live a && device_live dev) ErrUnauthorized ≫= fun _ =>
  mret (mkLoginRecord dev.(dev_account_id) a.(acc_username) a.(acc_password_hash) a.(acc_role) deviceID
          (default ""%string dev.(dev_auth_secret_hash))).

Definition ReauthenticationRecord (accountID deviceID : string) : Tx (string * string) :=
  d ← read (fun d => d);
  dev ← require (d.(rooms).(devices) !! deviceID) ErrUnauthorized;
  guard_tx (dev.(dev_account_id) =s? accountID) ErrUnauthorized ≫= fun _ =>
  a ← require (d.(rooms).(accounts) !! accountID) ErrUnauthorized;
  guard_tx (account_live a && device_live dev) ErrUnauthorized ≫= fun _ =>
  mret (a.(acc_password_hash), default ""%string dev.(dev_auth_secret_hash)).

Definition legacy_hash (h : string) : bool :=
  let p := of_chars (take 4 (chars h)) in (p =s? "$2a$") || (p =s? "$2b$") || (p =s? "$2y$").

Definition HasLegacyPasswordHashes (d : DB) : bool :=
  existsb (fun '(_, a) => bool_decide (a.(acc_deleted_at) = None) && legacy_hash a.(acc_password_hash)) (map_to_list d.(rooms).(accounts)).

Definition scanAccount (id : string) (a : AccountRow) : Account :=
  mkAccount id a.(acc_username) a.(acc_email) a.(acc_role) a.(acc_status) a.(acc_created_at) a.(acc_deleted_at).

Definition accountByID (accountID : string) : Tx Account :=
  d ← read (fun d => d);
  a ← require (d.(rooms).(accounts) !! accountID) ErrNotFound;
  mret (scanAccount accountID a).

Definition set_status (status : string) (a : AccountRow) : AccountRow :=
  mkAccountRow a.(acc_username) a.(acc_role) status a.(acc_deleted_at) a.(acc_send_read_receipts) a.(acc_password_hash) a.(acc_email)
    a.(acc_created_at).
Definition set_password (hash : string) (a : AccountRow) : AccountRow :=
  mkAccountRow a.(acc_username) a.(acc_role) a.(acc_status) a.(acc_deleted_at) a.(acc_send_read_receipts) hash a.(acc_email)
    a.(acc_created_at).

Definition delete_sessions (gone : string -> SessionRow -> bool) : Tx unit :=
  on_sessions (filter (fun '(t, r) => gone t r = false)).

Definition disable_subscriptions (now : Z) (accountID : string) : Tx unit :=
  modify (upd_push (upd_push_subscriptions (fmap (fun r =>
    if r.(ps_account_id) =s? accountID
    then mkPushSubscriptionRow r.(ps_account_id) r.(ps_device_id) r.(ps_provider) (Some (default now r.(ps_disabled_at)))
           r.(ps_notification_mode) r.(ps_endpoint) r.(ps_public_key) r.(ps_auth_secret) r.(ps_created_at)
    else r)))).

Definition SetAccountStatus (now auditAt : Z) (actorAccountID targetAccountID status : string) (audit : AuditEvent) : Tx unit :=
  guard_tx ((status =s? "active") || (status =s? "suspended")) ErrInvalidInput ≫= fun _ =>
  guard_tx (negb (actorAccountID =s? targetAccountID)) ErrForbidden ≫= fun _ =>
  transaction (
    d ← read (fun d => d);
    actor ← require (d.(rooms).(accounts) !! actorAccountID) ErrForbidden;
    guard_tx (account_live actor) ErrForbidden ≫= fun _ =>
    target ← require (d.(rooms).(accounts) !! targetAccountID) ErrNotFound;
    guard_tx (bool_decide (target.(acc_deleted_at) = None)) ErrNotFound ≫= fun _ =>
    guard_tx (negb (negb (CanManageInvites actor.(acc_role)) || (RoleRank actor.(acc_role) <=? RoleRank target.(acc_role)))) ErrForbidden ≫= fun _ =>
    on_rooms (upd_accounts (alter (set_status status) targetAccountID)) ≫= fun _ =>
    (if status =s? "suspended" then
       delete_sessions (fun _ r => r.(ss_account_id) =s? targetAccountID) ≫= fun _ =>
       disable_subscriptions now targetAccountID
     else mret tt) ≫= fun _ =>
    insertAuditEvent auditAt (Some actorAccountID) audit.(ae_Type) audit.(ae_Metadata)).

(** ** Waiting recovery requests *)

Definition recoveryCancelledEventType : string := "account.recovery.cancelled".

Definition waiting_request (d : DB) (accountID : string) : option string :=
  fst <$> head (List.filter (fun '(_, r) => (r.(rq_account_id) =s? accountID) && (r.(rq_state) =s? "waiting"))
                  (map_to_list d.(ident).(recovery_requests))).

(** [UPDATE account_recovery_requests SET state = ...] *)
Definition with_request_state (state : string) (cancelledBy : option string) (completedAt : option Z) (r : RecoveryRequestRow)
    : RecoveryRequestRow :=
  mkRecoveryRequestRow r.(rq_account_id) r.(rq_device_id) r.(rq_device_name) r.(rq_key_package) r.(rq_signing_key)
    r.(rq_device_auth_hash) r.(rq_claim_token_hash) r.(rq_verified_password_hash) r.(rq_verified_auth_key) state
    r.(rq_created_at) r.(rq_ready_at) r.(rq_expires_at) cancelledBy completedAt.

Definition set_waiting (id : string) (f : RecoveryRequestRow -> RecoveryRequestRow) : Tx unit :=
  on_ident (upd_recovery_requests (alter (fun r => if r.(rq_state) =s? "waiting" then f r else r) id)).

Definition cancelWaitingRecoveryRequestTx (now : Z) (accountID reason : string) : Tx (string * Z) :=
  d ← read (fun d => d);
  match waiting_request d accountID with
  | None => mret (""%string, 0)
  | Some requestID =>
      set_waiting requestID (fun r => with_request_state "cancelled" (Some reason) r.(rq_completed_at) r) ≫= fun _ =>
      eventID ← insertSyncEvent recoveryCancelledEventType (Some accountID) ""
        [("request_id", VStr requestID); ("reason", VStr reason)]%string now;
      mret (requestID, eventID)
  end.

Definition cancelWaitingRecoveryTx (now auditAt : Z) (accountID reason : string) : Tx (string * Z) :=
  c ← cancelWaitingRecoveryRequestTx now accountID reason;
  if c.1 =s? "" then mret (""%string, 0)
  else insertAuditEvent auditAt (Some accountID) "account.recovery_cancelled" [("request_id", VStr c.1); ("reason", VStr reason)]%string ≫= fun _ =>
       mret c.
