(* ===== verification/Sessions.v ===== *)
(** * Sessions

    The sessions of [internal/storage/identity_store.go]: a row per session,
    keyed by the hash of its current token, with at most one rotated-out
    token that works for a short grace.  Tokens are known by their hashes.
    The account and device of a session come from the tables the query joins. *)

From S2P Require Import Prelude GoStrings GoJson Domain Admission Database Conversations Identity.
From stdpp Require Import base numbers list strings gmap fin_maps sorting.
From Stdlib Require Import ZArith ZifyBool Lia.
Open Scope Z_scope.

Definition SessionRotationGrace : Z := 2 * minute.
Definition SessionTouchInterval : Z := minute.
Definition DeviceSeenInterval : Z := 5 * minute.

Record SessionActivity := mkSessionActivity { sa_LastUsedAt : Z; sa_DeviceLastSeenAt : option Z; sa_RotatedOut : bool }.

Definition SessionTouchDue (a : SessionActivity) (now : Z) : bool :=
  negb a.(sa_RotatedOut) && negb (time_after a.(sa_LastUsedAt) (time_add now (- SessionTouchInterval))).

Definition DeviceSeenDue (a : SessionActivity) (now : Z) : bool :=
  match a.(sa_DeviceLastSeenAt) with
  | None => true
  | Some t => negb (time_after t (time_add now (- DeviceSeenInterval)))
  end.

Definition idleCutoff (p : sessionPolicy) (now : Z) : Z := time_add now (- p.(idle)).

(** ** Creation *)

Definition CreateSession (now authenticatedAt : Z) (tokenHash accountID deviceID : string) (expiresAt : Z) : Tx unit :=
  let deviceID := TrimSpace deviceID in
  guard_tx (negb (deviceID =s? "")) ErrForbidden ≫= fun _ =>
  p ← get_policy;
  let '(idleExpiresAt, absoluteExpiresAt) := sessionLifetime p authenticatedAt expiresAt in
  insert_session tokenHash (new_session accountID (nullableEmptyString deviceID) idleExpiresAt now (Some now) absoluteExpiresAt).

Definition CreateLoginSession (now authenticatedAt : Z) (tokenHash accountID deviceID verifiedPasswordHash : string) : Tx unit :=
  let deviceID := TrimSpace deviceID in
  guard_tx (negb ((deviceID =s? "") || (verifiedPasswordHash =s? ""))) ErrForbidden ≫= fun _ =>
  p ← get_policy;
  let '(idleExpiresAt, absoluteExpiresAt) := sessionLifetime p authenticatedAt 0 in
  d ← read (fun d => d);
  a ← require (d.(rooms).(accounts) !! accountID) ErrUnauthorized;
  guard_tx ((a.(acc_password_hash) =s? verifiedPasswordHash) && account_live a) ErrUnauthorized ≫= fun _ =>
  insert_session tokenHash (new_session accountID (Some deviceID) idleExpiresAt now (Some now) absoluteExpiresAt).

(** ** Lookup *)

(** The session has not expired, absolutely or by disuse. *)
Definition unexpired (p : sessionPolicy) (now : Z) (r : SessionRow) : bool :=
  (now <? r.(ss_expires_at)) && (now <? r.(ss_absolute_expires_at)) && (idleCutoff p now <? r.(ss_last_used_at)).

(** [sessionValidity]: and its account is active and its device not revoked. *)
Definition sessionValidity (p : sessionPolicy) (d : DB) (now : Z) (r : SessionRow) : bool :=
  unexpired p now r &&
  match d.(rooms).(accounts) !! r.(ss_account_id) with Some a => account_live a | None => false end &&
  match r.(ss_device_id) with
  | None => true
  | Some dev => match d.(rooms).(devices) !! dev with Some x => device_live x | None => false end
  end.

(** [previous_token_hash = ? AND previous_expires_at > ?] *)
Definition in_grace (now : Z) (tokenHash : string) (r : SessionRow) : bool :=
  bool_decide (r.(ss_previous_token_hash) = Some tokenHash) &&
  match r.(ss_previous_expires_at) with Some t => now <? t | None => false end.

Definition previous_session (p : sessionPolicy) (d : DB) (now : Z) (tokenHash : string) : option SessionRow :=
  snd <$> head (List.filter (fun '(_, r) => in_grace now tokenHash r && sessionValidity p d now r) (map_to_list d.(sessions))).

Definition scanSessionPrincipal (d : DB) (r : SessionRow) (rotatedOut : bool) : Principal * SessionActivity :=
  let deviceID := default ""%string r.(ss_device_id) in
  let a := d.(rooms).(accounts) !! r.(ss_account_id) in
  let graceEnd := default 0 r.(ss_previous_expires_at) in
  (mkPrincipal r.(ss_account_id) deviceID (default ""%string (acc_username <$> a)) (default ""%string (acc_role <$> a))
     (if rotatedOut && time_before graceEnd r.(ss_expires_at) then graceEnd else r.(ss_expires_at))
     (if rotatedOut then None else r.(ss_recent_auth_at)),
   mkSessionActivity r.(ss_last_used_at)
     (if deviceID =s? "" then None else d.(rooms).(devices) !! deviceID ≫= dev_last_seen_at) rotatedOut).

Definition SessionPrincipal (now : Z) (tokenHash : string) : Tx (Principal * SessionActivity) :=
  p ← get_policy;
  d ← read (fun d => d);
  match d.(sessions) !! tokenHash ≫= (fun r => if sessionValidity p d now r then Some r else None) with
  | Some r => mret (scanSessionPrincipal d r false)
  | None => r ← require (previous_session p d now tokenHash) ErrUnauthorized;
            mret (scanSessionPrincipal d r true)
  end.

Definition PrincipalByTokenHash (now : Z) (tokenHash : string) : Tx Principal :=
  x ← SessionPrincipal now tokenHash; mret x.1.

Definition MarkDeviceSeen (now : Z) (deviceID : string) : Tx unit :=
  let deviceID := TrimSpace deviceID in
  if deviceID =s? "" then mret tt
  else on_rooms (upd_devices (alter (fun r =>
    if device_live r && match r.(dev_last_seen_at) with None => true | Some t => t <=? time_add now (- DeviceSeenInterval) end
    then mkDeviceRow r.(dev_account_id) r.(dev_revoked_at) r.(dev_created_at) (Some now) r.(dev_auth_secret_hash) r.(dev_name)
           r.(dev_key_package) r.(dev_signing_key)
    else r) deviceID)).

(** ** Use *)

Definition touched (p : sessionPolicy) (now : Z) (r : SessionRow) : SessionRow :=
  let idleExpiry := time_add now p.(idle) in
  let keep := match r.(ss_previous_expires_at) with Some t => now <? t | None => false end in
  mkSessionRow r.(ss_account_id) r.(ss_device_id)
    (if r.(ss_absolute_expires_at) <? idleExpiry then r.(ss_absolute_expires_at) else idleExpiry)
    r.(ss_created_at) r.(ss_recent_auth_at) now r.(ss_absolute_expires_at)
    (if keep then r.(ss_previous_token_hash) else None) (if keep then r.(ss_previous_expires_at) else None).

Definition TouchSession (now : Z) (tokenHash : string) : Tx unit :=
  p ← get_policy;
  d ← read (fun d => d);
  let due r := unexpired p now r && (r.(ss_last_used_at) <=? time_add now (- SessionTouchInterval)) in
  let '(m, rows) := update_row d.(sessions) tokenHash due (touched p now) in
  on_sessions (fun _ => m) ≫= fun _ =>
  if 0 <? rows then mret tt
  else guard_tx match d.(sessions) !! tokenHash with Some r => unexpired p now r | None => false end ErrUnauthorized.

Definition reauthenticated (now : Z) (r : SessionRow) : SessionRow :=
  mkSessionRow r.(ss_account_id) r.(ss_device_id) r.(ss_expires_at) r.(ss_created_at) (Some now) now r.(ss_absolute_expires_at)
    r.(ss_previous_token_hash) r.(ss_previous_expires_at).

Definition MarkSessionRecentlyAuthenticated (now : Z) (tokenHash : string) : Tx unit :=
  p ← get_policy;
  d ← read (fun d => d);
  let '(m, rows) := update_row d.(sessions) tokenHash (unexpired p now) (reauthenticated now) in
  on_sessions (fun _ => m) ≫= fun _ =>
  guard_tx (negb (rows =? 0)) ErrUnauthorized.

(** ** Rotation *)

(** The row [t] may be presented for: its current token, or the previous one
    inside its grace. *)
Definition presented (p : sessionPolicy) (now : Z) (t : string) (k : string) (r : SessionRow) : bool :=
  ((k =s? t) || in_grace now t r) && unexpired p now r.

Definition rotated (p : sessionPolicy) (now : Z) (t k : string) (r : SessionRow) : SessionRow :=
  let '(idleExpiry, absoluteExpiry) := sessionLifetime p now 0 in
  mkSessionRow r.(ss_account_id) r.(ss_device_id) idleExpiry r.(ss_created_at) (Some now) now absoluteExpiry
    (if k =s? t then Some k else r.(ss_previous_token_hash))
    (if k =s? t then Some (time_add now SessionRotationGrace) else r.(ss_previous_expires_at)).

(** The one UPDATE moves every matching row to the new key, so two of them,
    or a row that has the key, violate it. *)
Definition RotateSession (now : Z) (presentedTokenHash newTokenHash : string) : Tx unit :=
  guard_tx (negb ((presentedTokenHash =s? "") || (newTokenHash =s? "") || (presentedTokenHash =s? newTokenHash))) ErrUnauthorized ≫= fun _ =>
  p ← get_policy;
  d ← read (fun d => d);
  match List.filter (fun '(k, r) => presented p now presentedTokenHash k r) (map_to_list d.(sessions)) with
  | [] => throw ErrUnauthorized
  | [(k, r)] =>
      guard_tx ((k =s? newTokenHash) || negb (exists_in d.(sessions) newTokenHash)) ErrConstraint ≫= fun _ =>
      on_sessions (fun m => <[newTokenHash := rotated p now presentedTokenHash k r]> (delete k m))
  | _ => throw ErrConstraint
  end.

(** ** Passwords *)

(** A rehash moves a waiting recovery request's verified hash with it. *)
Definition rehashed (accountID currentHash updatedHash : string) (r : RecoveryRequestRow) : RecoveryRequestRow :=
  if (r.(rq_account_id) =s? accountID) && (r.(rq_state) =s? "waiting") && (r.(rq_verified_password_hash) =s? currentHash)
  then mkRecoveryRequestRow r.(rq_account_id) r.(rq_device_id) r.(rq_device_name) r.(rq_key_package) r.(rq_signing_key)
         r.(rq_device_auth_hash) r.(rq_claim_token_hash) updatedHash r.(rq_verified_auth_key) r.(rq_state) r.(rq_created_at)
         r.(rq_ready_at) r.(rq_expires_at) r.(rq_cancelled_by) r.(rq_completed_at)
  else r.

Definition UpgradePasswordHash (accountID currentHash updatedHash : string) : Tx bool :=
  transaction (
    d ← read (fun d => d);
    let '(m, rows) := update_row d.(rooms).(accounts) accountID (fun a => (a.(acc_password_hash) =s? currentHash) && bool_decide (a.(acc_deleted_at) = None))
      (set_password updatedHash) in
    if rows =? 1 then
      on_rooms (upd_accounts (fun _ => m)) ≫= fun _ =>
      on_ident (upd_recovery_requests (fmap (rehashed accountID currentHash updatedHash))) ≫= fun _ =>
      mret true
    else mret false).

(** The kept session loses its rotated-out token. *)
Definition unrotated (recentAuthAt : option Z) (r : SessionRow) : SessionRow :=
  mkSessionRow r.(ss_account_id) r.(ss_device_id) r.(ss_expires_at) r.(ss_created_at) recentAuthAt r.(ss_last_used_at)
    r.(ss_absolute_expires_at) None None.

Definition RecoveryCancelledPasswordChanged : string := "password_changed".
Definition RecoveryCancelledPasswordReset : string := "password_reset".

Definition ChangePassword (clock : nat -> Z) (accountID keepTokenHash newPasswordHash : string) : Tx unit :=
  transaction (
    d ← read (fun d => d);
    let '(m, rows) := update_row d.(rooms).(accounts) accountID (fun a => bool_decide (a.(acc_deleted_at) = None)) (set_password newPasswordHash) in
    on_rooms (upd_accounts (fun _ => m)) ≫= fun _ =>
    guard_tx (negb (rows =? 0)) ErrNotFound ≫= fun _ =>
    delete_sessions (fun t r => (r.(ss_account_id) =s? accountID) && negb (t =s? keepTokenHash)) ≫= fun _ =>
    on_sessions (alter (unrotated (Some (clock 0%nat))) keepTokenHash) ≫= fun _ =>
    cancelWaitingRecoveryTx (clock 1%nat) (clock 2%nat) accountID RecoveryCancelledPasswordChanged ≫= fun _ =>
    mret tt).

Definition ResetOwnerPassword (clock : nat -> Z) (username newPasswordHash : string) : Tx unit :=
  transaction (
    d ← read (fun d => d);
    accountID ← require (fst <$> head (List.filter (fun '(_, a) => (a.(acc_username) =s? NormalizeUsername username) &&
        (a.(acc_role) =s? RoleOwner) && bool_decide (a.(acc_deleted_at) = None)) (map_to_list d.(rooms).(accounts)))) ErrNotFound;
    on_rooms (upd_accounts (alter (set_password newPasswordHash) accountID)) ≫= fun _ =>
    delete_sessions (fun _ r => r.(ss_account_id) =s? accountID) ≫= fun _ =>
    cancelWaitingRecoveryTx (clock 0%nat) (clock 1%nat) accountID RecoveryCancelledPasswordReset ≫= fun _ =>
    on_ident (upd_audit_events (fun l => l ++ [mkAuditRow None "account.password_recovered"
      [("account_id", VStr accountID); ("method", VStr "offline_owner_recovery")]%string (clock 2%nat)]))).

(** ** Logout *)

Definition DeleteSession (now : Z) (tokenHash : string) : Tx unit :=
  delete_sessions (fun t r => (t =s? tokenHash) || in_grace now tokenHash r).

Definition DeleteAccountSessionsExcept (accountID keepTokenHash : string) : Tx Z :=
  transaction (
    d ← read (fun d => d);
    let gone t r := (r.(ss_account_id) =s? accountID) && negb (t =s? keepTokenHash) in
    delete_sessions gone ≫= fun _ =>
    on_sessions (alter (fun r => if r.(ss_account_id) =s? accountID then unrotated r.(ss_recent_auth_at) r else r) keepTokenHash) ≫= fun _ =>
    mret (len (List.filter (fun '(t, r) => gone t r) (map_to_list d.(sessions))))).
