(* ===== verification/Passwords.v ===== *)
(** * Passwords

    [internal/auth]: the policy, the PHC encoding of Argon2id hashes and its
    bounded parser, verification with the work it does, the slots that bound
    concurrent hashing, and the service that migrates legacy hashes.

    Argon2id and bcrypt are [golang.org/x/crypto]: an interface.  A
    verification also returns the list of primitive calls it made, since the
    code promises that this work does not depend on the outcome. *)

From S2P Require Import Prelude GoStrings GoStrconv GoBase64 GoJson Domain Admission Database Identity Sessions.
From stdpp Require Import base numbers list strings gmap relations.
From Stdlib Require Import Ascii ZArith ZifyBool Lia.
Open Scope Z_scope.

Class PasswordHashing := {
  argon2_IDKey : string -> string -> Z -> Z -> Z -> Z -> string;
  bcrypt_Compare : string -> string -> bool;
  bcrypt_Cost : string -> option Z;
  IDKey_size : forall password salt time memory threads keyLen, 0 <= keyLen -> blen (argon2_IDKey password salt time memory threads keyLen) = keyLen }.

Inductive password_error := ErrWeakPassword | ErrPasswordTooLong | ErrPasswordHashingBusy | ErrContextDone | ErrRandom.

Definition Argon2idMemoryKiB : Z := 64 * 1024.
Definition Argon2idIterations : Z := 2.
Definition Argon2idParallelism : Z := 1.
Definition argon2idSaltBytes : Z := 16.
Definition argon2idKeyBytes : Z := 32.
Definition argon2_Version : Z := 19.
Definition MaxConcurrentPasswordHashes : Z := 3.
Definition ReservedSignedInHashes : Z := 1.
Definition maxStoredArgon2idMemoryKiB : Z := Z.shiftl 1 18.
Definition maxStoredArgon2idPasses : Z := 16.
Definition maxStoredArgon2idLanes : Z := 16.
Definition DefaultBcryptCost : Z := 10.
Definition MinBcryptCost : Z := 10.
Definition MaxBcryptCost : Z := 15.

Definition ValidatePassword (password : string) : result password_error unit :=
  if blen password <? 12 then Err ErrWeakPassword else if 72 <? blen password then Err ErrPasswordTooLong else Ok tt.

(** ** The stored form *)

Record argon2idParams := mkArgon2idParams { ap_memoryKiB : Z; ap_iterations : Z; ap_parallelism : Z }.
Record argon2idHash := mkArgon2idHash { ah_params : argon2idParams; ah_salt : string; ah_key : string }.

#[export] Instance params_eq : EqDecision argon2idParams.
Proof. solve_decision. Defined.

Definition currentArgon2idParams : argon2idParams := mkArgon2idParams Argon2idMemoryKiB Argon2idIterations Argon2idParallelism.

Definition b64 (b : string) : string := Base64.EncodeToString Base64.RawStdEncoding b.

Definition encodeArgon2id (params : argon2idParams) (salt key : string) : string :=
  ("$argon2id$v=" +:+ Itoa argon2_Version +:+ "$m=" +:+ Itoa params.(ap_memoryKiB) +:+ ",t=" +:+ Itoa params.(ap_iterations) +:+ ",p=" +:+
   Itoa params.(ap_parallelism) +:+ "$" +:+ b64 salt +:+ "$" +:+ b64 key)%string.

Definition parseParam (field prefix : string) (bitSize limit : Z) : option Z :=
  if negb (HasPrefix field prefix) then None
  else match ParseUint (TrimPrefix field prefix) bitSize with Some v => if v <=? limit then Some v else None | None => None end.

Definition unb64 (s : string) (min max : Z) : option string :=
  match Base64.DecodeString (Base64.Strict Base64.RawStdEncoding) s with
  | Some b => if (blen b <? min) || (max <? blen b) then None else Some b
  | None => None
  end.

Definition parseArgon2id (encoded : string) : option argon2idHash :=
  match Split encoded "$" with
  | [p0; p1; p2; p3; p4; p5] =>
    if negb (p0 =s? "") || negb (p1 =s? "argon2id") || negb (p2 =s? ("v=" +:+ Itoa argon2_Version)) then None
    else match Split p3 "," with
    | [f0; f1; f2] =>
      memory ← parseParam f0 "m=" 32 maxStoredArgon2idMemoryKiB;
      passes ← parseParam f1 "t=" 32 maxStoredArgon2idPasses;
      lanes ← parseParam f2 "p=" 8 maxStoredArgon2idLanes;
      if (passes <? 1) || (lanes <? 1) || (memory <? 8 * lanes) then None
      else salt ← unb64 p4 8 64; key ← unb64 p5 16 64;
           Some (mkArgon2idHash (mkArgon2idParams memory passes lanes) salt key)
    | _ => None
    end
  | _ => None
  end.

Definition IsLegacyPasswordHash (stored : string) : bool := HasPrefix stored "$2a$" || HasPrefix stored "$2b$" || HasPrefix stored "$2y$".

(** ** Slots *)

Inductive Caller := Anonymous | SignedIn.
Inductive slot := Shared | Reserved.
#[export] Instance slot_eq : EqDecision slot.
Proof. solve_decision. Defined.
#[export] Instance caller_eq : EqDecision Caller.
Proof. solve_decision. Defined.

(** The hashes in flight: who holds which slot. *)
Definition pool := list (Caller * slot).
Definition taken (x : slot) (p : pool) : Z := Z.of_nat (length (List.filter (fun '(_, y) => bool_decide (y = x)) p)).
Definition held_by (c : Caller) (p : pool) : Z := Z.of_nat (length (List.filter (fun '(y, _) => bool_decide (y = c)) p)).

(** [select]'s ready cases: a nil channel is never ready. *)
Definition ready (c : Caller) (p : pool) (x : slot) : bool :=
  match x with
  | Shared => taken Shared p <? MaxConcurrentPasswordHashes - ReservedSignedInHashes
  | Reserved => bool_decide (c = SignedIn) && (taken Reserved p <? ReservedSignedInHashes)
  end.

(** [acquirePasswordSlot] takes a ready slot, whichever, now or while it
    waits; a release frees one. *)
Inductive pool_step : pool -> pool -> Prop :=
| acquire_slot c x p : ready c p x = true -> pool_step p ((c, x) :: p)
| release_slot c x p1 p2 : pool_step (p1 ++ (c, x) :: p2) (p1 ++ p2).

(** ** Verification *)

Inductive work := WBcrypt (cost : Z) | WArgon2id (params : argon2idParams) (keyBytes : Z).

Record VerifyOptions := mkVerifyOptions { vo_LegacyBcryptCost : Z; vo_LegacyHashesPresent : bool }.
Record PasswordCheck := mkPasswordCheck { pc_OK : bool; pc_Rehash : bool; pc_Legacy : bool }.

Definition dummyArgon2id : list work := [WArgon2id currentArgon2idParams argon2idKeyBytes].

(** [bcryptCompare(dummyHashForCost(cost), secret)] *)
Definition dummy_bcrypt (cost : Z) : list work := [WBcrypt (if (cost <? MinBcryptCost) || (MaxBcryptCost <? cost) then DefaultBcryptCost else cost)].

Section passwords.
Context `{PasswordHashing}.

Definition matches (h : argon2idHash) (password : string) : bool :=
  argon2_IDKey password h.(ah_salt) h.(ah_params).(ap_iterations) h.(ah_params).(ap_memoryKiB) h.(ah_params).(ap_parallelism) (blen h.(ah_key)) =s? h.(ah_key).

(** The rest of [VerifyPassword], once a slot is held. *)
Definition VerifyPassword (stored password : string) (opts : VerifyOptions) : PasswordCheck * list work :=
  if IsLegacyPasswordHash stored then
    match bcrypt_Cost stored with
    | Some cost =>
      if MaxBcryptCost <? cost then (mkPasswordCheck false false true, dummy_bcrypt opts.(vo_LegacyBcryptCost) ++ dummyArgon2id)
      else let ok := bcrypt_Compare stored password in (mkPasswordCheck ok ok true, [WBcrypt cost] ++ dummyArgon2id)
    | None => (mkPasswordCheck false false true, dummy_bcrypt opts.(vo_LegacyBcryptCost) ++ dummyArgon2id)
    end
  else
    let legacy := if opts.(vo_LegacyHashesPresent) then dummy_bcrypt opts.(vo_LegacyBcryptCost) else [] in
    match parseArgon2id stored with
    | None => (mkPasswordCheck false false false, legacy ++ dummyArgon2id)
    | Some parsed =>
      let done := legacy ++ [WArgon2id parsed.(ah_params) (blen parsed.(ah_key))] in
      if negb (matches parsed password) then (mkPasswordCheck false false false, done)
      else (mkPasswordCheck true
              (negb (bool_decide (parsed.(ah_params) = currentArgon2idParams)) || negb (blen parsed.(ah_key) =? argon2idKeyBytes) ||
               negb (blen parsed.(ah_salt) =? argon2idSaltBytes)) false, done)
    end.

(** [hashArgon2id] with the salt it drew, once a slot is held. *)
Definition hashArgon2id (salt password : string) : string :=
  encodeArgon2id currentArgon2idParams salt (argon2_IDKey password salt Argon2idIterations Argon2idMemoryKiB Argon2idParallelism argon2idKeyBytes).

Definition HashPasswordContext (salt password : string) : result password_error string :=
  match ValidatePassword password with Err e => Err e | Ok _ => Ok (hashArgon2id salt password) end.

(** ** The service *)

Inductive legacyState := legacyUnknown | legacyPresent | legacyAbsent.
Record PasswordsT := mkPasswords { pw_bcryptCost : Z; pw_legacy : legacyState }.

Definition NewPasswords (cost : Z) : PasswordsT :=
  mkPasswords (if (cost <? MinBcryptCost) || (MaxBcryptCost <? cost) then DefaultBcryptCost else cost) legacyUnknown.

Definition setLegacy (st : legacyState) (p : PasswordsT) : PasswordsT := mkPasswords p.(pw_bcryptCost) st.

Definition refreshLegacy (d : DB) (p : PasswordsT) : bool * PasswordsT :=
  let present := HasLegacyPasswordHashes d in (present, setLegacy (if present then legacyPresent else legacyAbsent) p).

Definition legacy_present (d : DB) (p : PasswordsT) : bool * PasswordsT :=
  match p.(pw_legacy) with
  | legacyPresent => (true, p)
  | legacyAbsent => (false, p)
  | legacyUnknown => refreshLegacy d p
  end.

Definition Verify (d : DB) (stored password : string) (p : PasswordsT) : PasswordCheck * list work * PasswordsT :=
  let '(legacy, p) := legacy_present d p in
  let '(check, done) := VerifyPassword stored password (mkVerifyOptions p.(pw_bcryptCost) legacy) in
  (check, done, if check.(pc_Legacy) && negb legacy then setLegacy legacyPresent p else p).

(** [Upgrade], once a slot is held: failures are left for the next sign-in. *)
Definition Upgrade (salt accountID stored password : string) (check : PasswordCheck) (p : PasswordsT) : Tx PasswordsT :=
  if negb check.(pc_OK) || negb check.(pc_Rehash) || (accountID =s? "") then mret p
  else
    changed ← UpgradePasswordHash accountID stored (hashArgon2id salt password);
    d ← read (fun d => d);
    mret (if changed && check.(pc_Legacy) then (refreshLegacy d p).2 else p).

End passwords.

(** ** The stored form is read back *)

(** Decimals and unpadded base64 have no dollar and no comma. *)
Lemma itoa_plain n c : 0 <= n -> c = "$"%char \/ c = ","%char -> c ∉ chars (Itoa n).
Proof.
  intros Hn Hc Hin. destruct (parse_pretty n Hn) as [Hp _]. apply parse_digits_chars in Hp. unfold Itoa in Hin.
  rewrite Forall_forall in Hp. apply Hp in Hin. destruct Hc as [-> | ->]; vm_compute in Hin; lia.
Qed.

Lemma b64_plain b c : c = "$"%char \/ c = ","%char -> c ∉ chars (b64 b).
Proof.
  intros Hc Hin. unfold b64, Base64.EncodeToString in Hin. rewrite chars_of_chars in Hin.
  assert (Forall Base64.octet (map Base64.of_byte (chars b))) as Hb
    by (apply Forall_forall; intros z (x & -> & _)%list_elem_of_fmap; apply Base64.of_byte_octet).
  apply Base64.encode_alphabet in Hin; [|done]. assert (exists v, 0 <= v < 64 /\ c = Base64.digit Base64.RawStdEncoding v) as (v & Hv & Ev).
  { destruct Hin as [-> |Hin]; [|done]. by destruct Hc. }
  assert (Base64.undigit Base64.RawStdEncoding c = Some v) as Hu by (rewrite Ev; by apply Base64.undigit_digit).
  by destruct Hc as [-> | ->]; vm_compute in Hu.
Qed.

(** The fields between the dollars, and those between the commas. *)
Definition param_chars (p : argon2idParams) : list ascii :=
  chars ("m=" +:+ Itoa p.(ap_memoryKiB)) ++ ","%char :: chars ("t=" +:+ Itoa p.(ap_iterations)) ++ ","%char :: chars ("p=" +:+ Itoa p.(ap_parallelism)).

Lemma encode_chars p salt key :
  chars (encodeArgon2id p salt key) =
    [] ++ "$"%char :: chars "argon2id" ++ "$"%char :: chars ("v=" +:+ Itoa argon2_Version) ++ "$"%char :: param_chars p ++ "$"%char ::
    chars (b64 salt) ++ "$"%char :: chars (b64 key).
Proof. unfold encodeArgon2id, param_chars. rewrite !chars_app, <- !app_assoc. do 4 (cbn -[Itoa]; rewrite <- ?app_assoc). done. Qed.

Lemma parseParam_ok prefix n bits limit : 0 <= n < 2 ^ bits -> n <= limit -> parseParam (prefix +:+ Itoa n) prefix bits limit = Some n.
Proof.
  intros Hn Hl. unfold parseParam. assert (HasPrefix (prefix +:+ Itoa n) prefix = true) as -> by (apply HasPrefix_spec; eauto). cbn [negb].
  rewrite TrimPrefix_app, ParseUint_Itoa by done. by replace (n <=? limit) with true by lia.
Qed.

(** Parameters that fit the bounds of the parser. *)
Record storable (p : argon2idParams) (salt key : string) : Prop := {
  sb_memory : 8 * p.(ap_parallelism) <= p.(ap_memoryKiB) <= maxStoredArgon2idMemoryKiB;
  sb_passes : 1 <= p.(ap_iterations) <= maxStoredArgon2idPasses;
  sb_lanes : 1 <= p.(ap_parallelism) <= maxStoredArgon2idLanes;
  sb_salt : 8 <= blen salt <= 64;
  sb_key : 16 <= blen key <= 64 }.

Lemma unb64_b64 b lo hi : lo <= blen b <= hi -> unb64 (b64 b) lo hi = Some b.
Proof.
  intros Hb. unfold unb64, b64. rewrite <- Base64.encode_strict, Base64.DecodeString_Encode. by replace (_ || _) with false by lia.
Qed.

Lemma literal_plain c s : bool_decide (c ∈ chars s) = false -> c ∉ chars s.
Proof. by intros ?%bool_decide_eq_false. Qed.

Lemma field_plain c s n : bool_decide (c ∈ chars s) = false -> 0 <= n -> c = "$"%char \/ c = ","%char -> c ∉ chars (s +:+ Itoa n).
Proof. intros Hs Hn Hc. rewrite chars_app, elem_of_app. intros [Hin|Hin]; [by apply literal_plain in Hin|by apply itoa_plain in Hin]. Qed.

Lemma split_fields p salt key :
  0 <= p.(ap_memoryKiB) -> 0 <= p.(ap_iterations) -> 0 <= p.(ap_parallelism) ->
  Split (encodeArgon2id p salt key) "$" =
    [""%string; "argon2id"%string; ("v=" +:+ Itoa argon2_Version)%string; of_chars (param_chars p); b64 salt; b64 key].
Proof.
  intros Hm Hi Hp. assert ("$"%char ∉ param_chars p) as Hpc.
  { unfold param_chars. rewrite !elem_of_app, !elem_of_cons, !elem_of_app, !elem_of_cons. intros Hin.
    destruct Hin as [Hin|[Hin|[Hin|[Hin|Hin]]]]; [| | | |]; try discriminate; apply field_plain in Hin; auto. }
  unfold Split. rewrite encode_chars. rewrite split_chars_cons by by apply not_elem_of_nil.
  rewrite split_chars_cons by by apply literal_plain. rewrite split_chars_cons by (apply field_plain; auto; done).
  rewrite split_chars_cons by done. rewrite split_chars_cons by (apply b64_plain; auto).
  rewrite split_chars_none by (apply b64_plain; auto). cbn [map rev app]. by rewrite !of_chars_chars.
Qed.

Lemma split_params p :
  0 <= p.(ap_memoryKiB) -> 0 <= p.(ap_iterations) -> 0 <= p.(ap_parallelism) ->
  Split (of_chars (param_chars p)) "," =
    [("m=" +:+ Itoa p.(ap_memoryKiB))%string; ("t=" +:+ Itoa p.(ap_iterations))%string; ("p=" +:+ Itoa p.(ap_parallelism))%string].
Proof.
  intros Hm Hi Hp. unfold Split. rewrite chars_of_chars. unfold param_chars. rewrite split_chars_cons by (apply field_plain; auto).
  rewrite split_chars_cons by (apply field_plain; auto). rewrite split_chars_none by (apply field_plain; auto).
  cbn [map rev app]. by rewrite !of_chars_chars.
Qed.

Lemma parse_encoded p salt key : storable p salt key -> parseArgon2id (encodeArgon2id p salt key) = Some (mkArgon2idHash p salt key).
Proof.
  intros [H1 H2 H3 H4 H5]. unfold maxStoredArgon2idMemoryKiB, maxStoredArgon2idPasses, maxStoredArgon2idLanes in *.
  change (Z.shiftl 1 18) with 262144 in *. unfold parseArgon2id. rewrite split_fields by lia. rewrite !str_eqb_refl. cbn [negb orb].
  rewrite split_params by lia. rewrite !parseParam_ok by (unfold maxStoredArgon2idMemoryKiB, maxStoredArgon2idPasses, maxStoredArgon2idLanes;
    change (Z.shiftl 1 18) with 262144; change (2 ^ 32) with 4294967296; change (2 ^ 8) with 256; lia).
  cbn [mbind option_bind]. replace (_ || _ || _) with false by lia. rewrite !unb64_b64 by lia. cbn. by destruct p.
Qed.

(** ** What verification answers *)

Lemma hash_not_legacy p salt key : IsLegacyPasswordHash (encodeArgon2id p salt key) = false.
Proof. unfold IsLegacyPasswordHash, HasPrefix. rewrite encode_chars. by vm_compute. Qed.

Section verification.
Context `{PasswordHashing}.

Lemma parse_hashed salt password :
  blen salt = argon2idSaltBytes ->
  parseArgon2id (hashArgon2id salt password) =
    Some (mkArgon2idHash currentArgon2idParams salt
            (argon2_IDKey password salt Argon2idIterations Argon2idMemoryKiB Argon2idParallelism argon2idKeyBytes)).
Proof.
  intros Hs. apply parse_encoded. unfold argon2idSaltBytes in Hs.
  split; rewrite ?IDKey_size by (unfold argon2idKeyBytes; lia); [vm_compute; split; discriminate..|lia|unfold argon2idKeyBytes; lia].
Qed.

(** The work of a verification, from the stored hash alone. *)
Definition profile (stored : string) (opts : VerifyOptions) : list work :=
  let legacy := if opts.(vo_LegacyHashesPresent) then dummy_bcrypt opts.(vo_LegacyBcryptCost) else [] in
  if IsLegacyPasswordHash stored then
    match bcrypt_Cost stored with
    | Some cost => if MaxBcryptCost <? cost then dummy_bcrypt opts.(vo_LegacyBcryptCost) else [WBcrypt cost]
    | None => dummy_bcrypt opts.(vo_LegacyBcryptCost)
    end ++ dummyArgon2id
  else legacy ++ match parseArgon2id stored with Some h => [WArgon2id h.(ah_params) (blen h.(ah_key))] | None => dummyArgon2id end.

Lemma work_profile stored password opts : (VerifyPassword stored password opts).2 = profile stored opts.
Proof. unfold VerifyPassword, profile. by repeat case_match. Qed.

(** C40: a stored password is read back and verified.  Every hash the encoder
    writes with parameters, salt and key in the parser's bounds parses to just
    these; and for every password and 16-byte salt, the hash that is stored
    for it verifies exactly the passwords with the same Argon2id key, without
    asking for a rehash. *)
Theorem stored_passwords_verify :
  (forall p salt key, storable p salt key -> parseArgon2id (encodeArgon2id p salt key) = Some (mkArgon2idHash p salt key)) /\
  (forall salt password attempt opts, blen salt = argon2idSaltBytes ->
     let key pw := argon2_IDKey pw salt Argon2idIterations Argon2idMemoryKiB Argon2idParallelism argon2idKeyBytes in
     (VerifyPassword (hashArgon2id salt password) attempt opts).1 = mkPasswordCheck (key attempt =s? key password) false false).
Proof.
  split; [exact parse_encoded|]. intros salt password attempt opts Hs key. unfold VerifyPassword.
  assert (IsLegacyPasswordHash (hashArgon2id salt password) = false) as -> by apply hash_not_legacy.
  rewrite parse_hashed by done. unfold matches. cbn [ah_params ah_salt ah_key currentArgon2idParams ap_iterations ap_memoryKiB ap_parallelism].
  rewrite IDKey_size by (unfold argon2idKeyBytes; lia). fold (key attempt) (key password). destruct (key attempt =s? key password); [|done].
  cbn [negb fst]. rewrite bool_decide_true by done. by rewrite Hs.
Qed.

(** Verifying a password costs the same whether or not it is right, and
    whether or not the account exists: the primitive calls depend on the
    stored hash only; an unknown account makes the calls of one with a current
    hash; and while legacy hashes are about, so does an account that still has
    one of the configured cost. *)
Theorem verification_work_uniform opts :
  (forall stored pw pw', (VerifyPassword stored pw opts).2 = (VerifyPassword stored pw' opts).2) /\
  (forall salt pw0 pw pw', blen salt = argon2idSaltBytes ->
     (VerifyPassword "" pw opts).2 = (VerifyPassword (hashArgon2id salt pw0) pw' opts).2) /\
  (forall stored pw pw', opts.(vo_LegacyHashesPresent) = true -> IsLegacyPasswordHash stored = true ->
     bcrypt_Cost stored = Some opts.(vo_LegacyBcryptCost) -> MinBcryptCost <= opts.(vo_LegacyBcryptCost) <= MaxBcryptCost ->
     (VerifyPassword stored pw opts).2 = (VerifyPassword "" pw' opts).2).
Proof.
  split; [intros; by rewrite !work_profile|]. split.
  - intros salt pw0 pw pw' Hs. rewrite !work_profile. unfold profile.
    assert (IsLegacyPasswordHash (hashArgon2id salt pw0) = false) as -> by apply hash_not_legacy. rewrite parse_hashed by done.
    cbn [ah_params ah_key]. by rewrite IDKey_size by (unfold argon2idKeyBytes; lia).
  - intros stored pw pw' Hp Hl Hc Hr. rewrite !work_profile. unfold profile. rewrite Hl, Hc, Hp. unfold dummy_bcrypt.
    replace (MaxBcryptCost <? _) with false by lia. by replace (_ <? MinBcryptCost) with false by lia.
Qed.
End verification.

(** A toy Argon2id: the password cut or padded to the length. *)
Definition ex_key (password salt : string) (time memory threads keyLen : Z) : string :=
  of_chars (take (Z.to_nat keyLen) (chars password ++ repeat "x"%char (Z.to_nat keyLen))).

Lemma ex_key_size password salt time memory threads keyLen : 0 <= keyLen -> blen (ex_key password salt time memory threads keyLen) = keyLen.
Proof.
  intros Hk. unfold ex_key, blen. assert (forall l, String.length (of_chars l) = length l) as ->
    by (unfold of_chars; induction l; simpl; congruence).
  rewrite length_take, length_app, repeat_length. lia.
Qed.

#[local] Instance ex_hashing : PasswordHashing := {
  argon2_IDKey := ex_key; bcrypt_Compare _ _ := false; bcrypt_Cost _ := Some 10; IDKey_size := ex_key_size }.

Definition ex_salt : string := "0123456789abcdef".

Lemma stored_passwords_verify_witness :
  parseArgon2id (encodeArgon2id currentArgon2idParams ex_salt "0123456789abcdef0123456789abcdef") <> None /\
  (VerifyPassword (hashArgon2id ex_salt "correct horse") "correct horse" (mkVerifyOptions 10 true)).1 = mkPasswordCheck true false false.
Proof.
  split.
  - rewrite (proj1 stored_passwords_verify); [done|]. split; vm_compute; split; discriminate.
  - rewrite (proj2 stored_passwords_verify) by (vm_compute; reflexivity). vm_compute. reflexivity.
Defined.

Lemma verification_work_uniform_witness :
  (VerifyPassword "" "guess" (mkVerifyOptions 10 true)).2 = [WBcrypt 10; WArgon2id currentArgon2idParams 32] /\
  (VerifyPassword "" "guess" (mkVerifyOptions 10 true)).2 = (VerifyPassword (hashArgon2id ex_salt "correct horse") "guess" (mkVerifyOptions 10 true)).2.
Proof.
  split; [vm_compute; reflexivity|].
  apply (proj1 (proj2 (verification_work_uniform (mkVerifyOptions 10 true)))). vm_compute. reflexivity.
Defined.

(** ** Slots *)

(** Evaluate the comparisons of slots and callers. *)
Ltac decided := repeat first [rewrite bool_decide_true by done|rewrite bool_decide_false by done].

Definition pool_ok (p : pool) : Prop :=
  taken Shared p <= 2 /\ taken Reserved p <= 1 /\ forall c, (c, Reserved) ∈ p -> c = SignedIn.

Lemma taken_app x p1 p2 : taken x (p1 ++ p2) = taken x p1 + taken x p2.
Proof. unfold taken. rewrite List.filter_app, length_app. lia. Qed.
Lemma taken_cons x c y p : taken x ((c, y) :: p) = (if bool_decide (y = x) then 1 else 0) + taken x p.
Proof. unfold taken. cbn. destruct (bool_decide _); cbn; lia. Qed.
Lemma taken_pos x p : 0 <= taken x p.
Proof. unfold taken. lia. Qed.

Lemma pool_step_ok p p' : pool_step p p' -> pool_ok p -> pool_ok p'.
Proof.
  intros Hs (H1 & H2 & H3). destruct Hs as [c x p Hr|c x p1 p2].
  - unfold ready in Hr. destruct x; unfold pool_ok; rewrite !taken_cons; unfold MaxConcurrentPasswordHashes, ReservedSignedInHashes in *;
      decided.
    + split_and!; [lia|lia|]. intros c'. rewrite elem_of_cons. intros [[=]|Hin]. by apply H3.
    + apply andb_prop in Hr as [Hc Hr]. apply bool_decide_eq_true in Hc. split_and!; [lia|lia|].
      intros c'. rewrite elem_of_cons. intros [[= ->]|Hin]; [done|by apply H3].
  - unfold pool_ok. rewrite !taken_app, !taken_cons in *. split_and!; [repeat destruct (bool_decide _); lia..|].
    intros c'. rewrite elem_of_app. intros Hin. apply H3. rewrite elem_of_app, elem_of_cons. tauto.
Qed.

Lemma pool_length p : Z.of_nat (length p) = taken Shared p + taken Reserved p.
Proof. induction p as [|[c x] p IH]; [done|]. rewrite !taken_cons. cbn [length]. destruct x; decided; lia. Qed.

Lemma anonymous_shared p : (forall c, (c, Reserved) ∈ p -> c = SignedIn) -> held_by Anonymous p <= taken Shared p.
Proof.
  induction p as [|[c x] p IH]; intros Hp; [apply Z.le_refl|]. assert (held_by Anonymous p <= taken Shared p) by (apply IH; intros c' Hc; apply Hp; by right).
  rewrite taken_cons. unfold held_by in *. cbn [List.filter]. destruct c, x; decided; cbn [length]; try lia.
  assert (Anonymous = SignedIn) by (apply Hp; by left). done.
Qed.

Lemma reserved_signed_in p : (forall c, (c, Reserved) ∈ p -> c = SignedIn) -> taken Reserved p <= held_by SignedIn p.
Proof.
  induction p as [|[c x] p IH]; intros Hp; [apply Z.le_refl|]. assert (taken Reserved p <= held_by SignedIn p) by (apply IH; intros c' Hc; apply Hp; by right).
  rewrite taken_cons. unfold held_by in *. cbn [List.filter]. destruct c, x; decided; cbn [length]; try lia.
  assert (Anonymous = SignedIn) by (apply Hp; by left). done.
Qed.

(** Password hashing is bounded and anonymous callers cannot starve it.
    In every history of acquisitions and releases at most three hashes are in
    flight, at most two of them for callers without a session, and a caller
    with one finds a slot ready unless another such caller is hashing. *)
Theorem hashing_slots_bounded p :
  rtc pool_step [] p ->
  Z.of_nat (length p) <= MaxConcurrentPasswordHashes /\ held_by Anonymous p <= MaxConcurrentPasswordHashes - ReservedSignedInHashes /\
  (held_by SignedIn p = 0 -> ready SignedIn p Reserved = true).
Proof.
  intros Hs. assert (pool_ok p) as (H1 & H2 & H3).
  { assert (pool_ok []) as H0 by (split_and!; [done|done|by intros c ?%not_elem_of_nil]).
    revert H0. generalize (@nil (Caller * slot)) as q, Hs. intros q Hq. induction Hq; eauto using pool_step_ok. }
  unfold MaxConcurrentPasswordHashes, ReservedSignedInHashes. pose proof (anonymous_shared p H3). pose proof (reserved_signed_in p H3).
  rewrite pool_length. split; [lia|]. split; [lia|]. intros Hz. unfold ready. rewrite bool_decide_true by done. cbn [andb].
  unfold ReservedSignedInHashes. lia.
Qed.

(** Two sign-in attempts hash; a step-up still finds its slot. *)
Lemma hashing_slots_bounded_witness :
  ready Anonymous [(Anonymous, Shared); (Anonymous, Shared)] Shared = false /\ ready SignedIn [(Anonymous, Shared); (Anonymous, Shared)] Reserved = true.
Proof.
  split; [vm_compute; reflexivity|].
  apply (hashing_slots_bounded [(Anonymous, Shared); (Anonymous, Shared)]); [|vm_compute; reflexivity].
  eapply rtc_l; [by apply (acquire_slot Anonymous Shared)|]. apply rtc_once. by apply (acquire_slot Anonymous Shared).
Defined.

(** The parser takes leading zeros, which the encoder never writes. *)
Example leading_zeros_accepted :
  parseArgon2id ("$argon2id$v=19$m=065536,t=02,p=1$" +:+ b64 ex_salt +:+ "$" +:+ b64 (ex_salt +:+ ex_salt)) =
    Some (mkArgon2idHash currentArgon2idParams ex_salt (ex_salt +:+ ex_salt)).
Proof. vm_compute. reflexivity. Qed.
