(* ===== verification/DeviceLinks.v ===== *)
(** * Linking a device

    [internal/storage/device_link_v3_store.go]: a signed-in device creates a
    link, the new device reserves and claims it with a signed proof, the
    first approves what was claimed, and the new device completes it with
    its first session.  What the code takes from Go's [crypto], [net] and
    [net/url] packages is the interface [GoCrypto]. *)

From S2P Require Import Prelude GoStrings GoJson Domain Admission Database Conversations Mls MlsGroups Identity Sessions.
From stdpp Require Import base numbers list strings gmap fin_maps sorting pretty.
From Stdlib Require Import ZArith ZifyBool Lia.
Open Scope Z_scope.

(** ** Go's packages *)

(** What [url.Parse] returns: the fields the code reads, [Hostname()] and
    [Port()]. *)
Record URL := mkURL {
  u_Scheme : string; u_Opaque : string; u_User : bool; u_Path : string; u_RawQuery : string; u_ForceQuery : bool; u_Host : string;
  u_Hostname : string; u_Port : string }.

(** [sha256.Sum256], [ed25519.Verify], [url.Parse] and, for [net.ParseIP],
    whether the parsed address is a loopback one. *)
Class GoCrypto := {
  Sum256 : string -> string;
  ed25519_Verify : string -> string -> string -> bool;
  url_Parse : string -> option URL;
  ParseIP_IsLoopback : string -> option bool;
  Sum256_size : forall b, blen (Sum256 b) = 32 }.

(** [hex.EncodeToString] and [hex.DecodeString]. *)
Definition hex_encode (b : string) : string := of_chars (EncodeToString (chars b)).

Definition hex_value (c : Ascii.ascii) : option nat :=
  let n := Ascii.nat_of_ascii c in
  if ((48 <=? n) && (n <=? 57))%nat then Some (n - 48)%nat
  else if ((97 <=? n) && (n <=? 102))%nat then Some (n - 87)%nat
  else if ((65 <=? n) && (n <=? 70))%nat then Some (n - 55)%nat
  else None.

Fixpoint hex_pairs (l : list Ascii.ascii) : option (list Ascii.ascii) :=
  match l with
  | [] => Some []
  | a :: b :: l => match hex_value a, hex_value b, hex_pairs l with
                   | Some x, Some y, Some r => Some (Ascii.ascii_of_nat (16 * x + y) :: r)
                   | _, _, _ => None
                   end
  | [_] => None
  end.

Definition DecodeString (s : string) : option string := of_chars <$> hex_pairs (chars s).

(** [utf8.ValidString]: no surrogates, no overlong forms, at most U+10FFFF. *)
Fixpoint utf8_valid (fuel : nat) (l : list Ascii.ascii) : bool :=
  match fuel with
  | O => false
  | S fuel =>
    let cont lo hi (c : Ascii.ascii) := let n := Z.of_nat (Ascii.nat_of_ascii c) in (lo <=? n) && (n <=? hi) in
    match l with
    | [] => true
    | c :: l => let n := Z.of_nat (Ascii.nat_of_ascii c) in
        if n <? 128 then utf8_valid fuel l
        else if (194 <=? n) && (n <=? 223) then
          match l with c1 :: l => cont 128 191 c1 && utf8_valid fuel l | _ => false end
        else if (224 <=? n) && (n <=? 239) then
          match l with
          | c1 :: c2 :: l => cont (if n =? 224 then 160 else 128) (if n =? 237 then 159 else 191) c1 && cont 128 191 c2 && utf8_valid fuel l
          | _ => false
          end
        else if (240 <=? n) && (n <=? 244) then
          match l with
          | c1 :: c2 :: c3 :: l => cont (if n =? 240 then 144 else 128) (if n =? 244 then 143 else 191) c1 && cont 128 191 c2 &&
                                   cont 128 191 c3 && utf8_valid fuel l
          | _ => false
          end
        else false
    end
  end.
Definition ValidString (s : string) : bool := utf8_valid (S (String.length s)) (chars s).

Definition contains_char (c : Ascii.ascii) (s : string) : bool := bool_decide (c ∈ chars s).

(** [strconv.Atoi] accepts a sign. *)
Definition Atoi (s : string) : option Z :=
  match chars s with
  | c :: l => if Json.is_char 43 c then match l with [] => None | _ => Json.nat_digits l 0 end
              else if Json.is_char 45 c then match l with [] => None | _ => Z.opp <$> Json.nat_digits l 0 end
              else Json.nat_digits (c :: l) 0
  | [] => None
  end.

(** ** Validation *)

Definition DeviceLinkV3Protocol : string := "veritra-device-link-v3".
Definition deviceLinkV3TransferLifetime : Z := 7 * 24 * hour.

Definition validV3Hash (value : string) : bool :=
  match DecodeString value with
  | Some decoded => (blen decoded =? 32) && (hex_encode decoded =s? value)
  | None => false
  end.

Definition v3Equal (left right : string) : bool := left =s? right.

Definition validV3Name (name : string) : bool :=
  negb (name =s? "") && (blen name <=? 64) && ValidString name && (TrimSpace name =s? name).

Section links.
Context `{GoCrypto}.

Definition ValidDeviceLinkV3Origin (origin : string) : bool :=
  if (origin =s? "") || (2048 <? blen origin) || negb (ValidString origin) || negb (TrimSpace origin =s? origin) then false else
  match url_Parse origin with
  | None => false
  | Some u =>
    if negb (u.(u_Opaque) =s? "") || u.(u_User) || negb (u.(u_Path) =s? "") || negb (u.(u_RawQuery) =s? "") || u.(u_ForceQuery) ||
       contains_char (Ascii.ascii_of_nat 35) origin || (u.(u_Host) =s? "") || (negb (u.(u_Scheme) =s? "https") && negb (u.(u_Scheme) =s? "http")) then false else
    let host := u.(u_Hostname) in
    if (host =s? "") || negb (host =s? ToLower host) then false else
    if (u.(u_Scheme) =s? "http") && negb (host =s? "localhost") && negb (default false (ParseIP_IsLoopback host)) then false else
    let canonicalHost := if contains_char (Ascii.ascii_of_nat 58) host then ("[" +:+ host +:+ "]")%string else host in
    let port := u.(u_Port) in
    if port =s? "" then origin =s? (u.(u_Scheme) +:+ "://" +:+ canonicalHost)%string else
    match Atoi port with
    | None => false
    | Some value =>
        if (value <? 0) || (65535 <? value) || negb (pretty value =s? port) || ((u.(u_Scheme) =s? "https") && (value =? 443)) ||
           ((u.(u_Scheme) =s? "http") && (value =? 80)) then false
        else origin =s? (u.(u_Scheme) +:+ "://" +:+ canonicalHost +:+ ":" +:+ port)%string
    end
  end.

Record DeviceLinkV3ClaimInput := mkClaimInput {
  ci_Code : string; ci_ProtocolVersion : string; ci_ServerOrigin : string; ci_ReservationRequestID : string;
  ci_EnrollmentReservationID : string; ci_DeviceName : string; ci_DeviceKeyPackage : string; ci_SigningKey : string;
  ci_TransferPublicKey : string; ci_TranscriptHash : string; ci_ClaimTag : string; ci_ClaimTokenHash : string;
  ci_DeviceSecretHash : string; ci_InitialSessionTokenHash : string; ci_ChallengeSignature : string }.

(** The conditions on a claim before its proof is put together. *)
Definition claim_input_valid (i : DeviceLinkV3ClaimInput) : bool :=
  (i.(ci_ProtocolVersion) =s? DeviceLinkV3Protocol) && ValidDeviceLinkV3Origin i.(ci_ServerOrigin) && validV3Hash i.(ci_Code) &&
  validV3Hash i.(ci_ReservationRequestID) && validV3Name i.(ci_DeviceName) && (64 <=? blen i.(ci_DeviceKeyPackage)) &&
  (blen i.(ci_DeviceKeyPackage) <=? 49152) && (blen i.(ci_SigningKey) =? 32) && (blen i.(ci_TransferPublicKey) =? 32) &&
  (blen i.(ci_TranscriptHash) =? 32) && (blen i.(ci_ClaimTag) =? 32) && validV3Hash i.(ci_ClaimTokenHash) &&
  validV3Hash i.(ci_DeviceSecretHash) && validV3Hash i.(ci_InitialSessionTokenHash).

Definition decoded (s : string) : string := default ""%string (DecodeString s).

(** The fields behind their lengths, in order. *)
Definition proof_fields (i : DeviceLinkV3ClaimInput) (r : EnrollmentReservationT) : list string :=
  [ci_ServerOrigin i; ci_Code i; decoded (ci_ReservationRequestID i); en_ID r; en_AccountID r; en_DeviceID r; ci_DeviceName i; en_Challenge r].

(** The fields of fixed width that follow them. *)
Definition proof_tail (i : DeviceLinkV3ClaimInput) : list string :=
  [ci_SigningKey i; Sum256 (ci_DeviceKeyPackage i); ci_TransferPublicKey i; ci_TranscriptHash i; ci_ClaimTag i;
   decoded (ci_ClaimTokenHash i); decoded (ci_DeviceSecretHash i); decoded (ci_InitialSessionTokenHash i)].

Definition concat_str (l : list string) : string := foldr String.append ""%string l.

Definition DeviceLinkV3ProofMessage (i : DeviceLinkV3ClaimInput) (r : EnrollmentReservationT) : result store_error string :=
  if negb (claim_input_valid i) then Err ErrEnrollmentInvalid
  else if existsb (fun f => (blen f =? 0) || (65535 <? blen f)) (proof_fields i r) then Err ErrEnrollmentInvalid
  else Ok ("veritra-device-link-enrollment-v3" +:+ concat_str (map lp (proof_fields i r)) +:+ concat_str (proof_tail i))%string.

(** ** Links *)

Record DeviceLinkV3 := mkDeviceLinkV3 {
  d3_ID : string; d3_Code : string; d3_ProtocolVersion : string; d3_State : string; d3_AccountID : string; d3_SourceDeviceID : string;
  d3_ServerOrigin : string; d3_LinkNonce : string; d3_ExistingSigningKey : string; d3_RecipientDeviceID : string; d3_DeviceName : string;
  d3_SigningKey : string; d3_TransferPublicKey : string; d3_TranscriptHash : string; d3_ClaimTag : string; d3_ApprovalTag : string;
  d3_ClaimRequestHash : string; d3_CreatedAt : Z; d3_ExpiresAt : Z; d3_ClaimedAt : option Z; d3_ApprovedAt : option Z;
  d3_TransferExpiresAt : option Z; d3_CompletedAt : option Z }.

Record deviceLinkV3Record := mkLinkRecord {
  ln_DeviceLinkV3 :> DeviceLinkV3; ttlSeconds : Z; reservationRequestID : string; challenge : string; keyPackage : string;
  claimTokenHash : string; deviceSecretHash : string; initialSessionHash : string }.

Record DeviceLinkV3Completion := mkCompletion {
  dc_LinkID : string; dc_AccountID : string; dc_DeviceID : string; dc_ServerOrigin : string; dc_ClaimRequestHash : string;
  dc_TranscriptHash : string; dc_InitialSessionTokenHash : string; dc_CompletedAt : Z }.

(** A claim column, empty before the claim. *)
Definition claim_col (f : LinkClaim -> string) (r : DeviceLinkV3Row) : string := default ""%string (f <$> r.(lk_claim)).
Definition recipient (r : DeviceLinkV3Row) : string := default ""%string ((fun x => x.1.2) <$> r.(lk_reservation)).

Definition scan_link (id key : string) (r : DeviceLinkV3Row) : deviceLinkV3Record :=
  mkLinkRecord
    (mkDeviceLinkV3 id r.(lk_code) DeviceLinkV3Protocol r.(lk_state) r.(lk_account_id) r.(lk_source_device_id) r.(lk_server_origin)
       r.(lk_link_nonce) key (recipient r) (claim_col lc_device_name r) (claim_col lc_signing_key r) (claim_col lc_transfer_public_key r)
       (claim_col lc_transcript_hash r) (claim_col lc_claim_tag r) (default ""%string r.(lk_approval_tag)) (claim_col lc_claim_request_hash r)
       r.(lk_created_at) r.(lk_expires_at) (lc_claimed_at <$> r.(lk_claim)) r.(lk_approved_at) r.(lk_transfer_expires_at) r.(lk_completed_at))
    r.(lk_ttl_seconds) (default ""%string ((fun x => x.1.1) <$> r.(lk_reservation))) (default ""%string (snd <$> r.(lk_reservation)))
    (claim_col lc_key_package r) (claim_col lc_claim_token_hash r) (claim_col lc_device_secret_hash r)
    (claim_col lc_initial_session_token_hash r).

Definition account_is_live (d : DB) (id : string) : bool :=
  match d.(rooms).(accounts) !! id with Some a => account_live a | None => false end.

(** A live device of the account. *)
Definition live_device (d : DB) (accountID deviceID : string) : option DeviceRow :=
  match d.(rooms).(devices) !! deviceID with
  | Some x => if (x.(dev_account_id) =s? accountID) && device_live x then Some x else None
  | None => None
  end.

(** [deviceLinkV3Select]: the link is not revoked, its account and source
    device are live, and so is its recipient once there is one. *)
Definition deviceLinkV3Select (d : DB) (id : string) (r : DeviceLinkV3Row) : option deviceLinkV3Record :=
  if account_is_live d r.(lk_account_id) && bool_decide (r.(lk_revoked_at) = None) &&
     ((r.(lk_state) =s? "pending") || (r.(lk_state) =s? "claimed") || bool_decide (is_Some (live_device d r.(lk_account_id) (recipient r))))
  then (fun x => scan_link id (default ""%string x.(dev_signing_key)) r) <$> live_device d r.(lk_account_id) r.(lk_source_device_id)
  else None.

(** The predicates the callers add name the row by its id or its code. *)
Definition loadDeviceLinkV3 (d : DB) (p : string -> DeviceLinkV3Row -> bool) : option deviceLinkV3Record :=
  head (omap (fun '(id, r) => if p id r then deviceLinkV3Select d id r else None) (map_to_list d.(ident).(device_links_v3))).

Definition by_id (id : string) : string -> DeviceLinkV3Row -> bool := fun i _ => i =s? id.
Definition by_code (code : string) : string -> DeviceLinkV3Row -> bool := fun _ r => r.(lk_code) =s? code.
Definition by_source (id accountID deviceID : string) : string -> DeviceLinkV3Row -> bool := fun i r =>
  (i =s? id) && (r.(lk_account_id) =s? accountID) && (r.(lk_source_device_id) =s? deviceID).
Definition by_claim_token (id tokenHash : string) : string -> DeviceLinkV3Row -> bool := fun i r =>
  (i =s? id) && bool_decide (lc_claim_token_hash <$> r.(lk_claim) = Some tokenHash).

Definition validWindow (v : DeviceLinkV3) (now : Z) : bool :=
  if (v.(d3_State) =s? DeviceLinkPending) || (v.(d3_State) =s? DeviceLinkClaimed) then time_after v.(d3_ExpiresAt) now
  else ((v.(d3_State) =s? DeviceLinkApproved) || (v.(d3_State) =s? DeviceLinkConsumed)) &&
       match v.(d3_TransferExpiresAt) with Some t => time_after t now | None => false end.

Definition with_code (v : DeviceLinkV3) (code : string) : DeviceLinkV3 :=
  mkDeviceLinkV3 v.(d3_ID) code v.(d3_ProtocolVersion) v.(d3_State) v.(d3_AccountID) v.(d3_SourceDeviceID) v.(d3_ServerOrigin)
    v.(d3_LinkNonce) v.(d3_ExistingSigningKey) v.(d3_RecipientDeviceID) v.(d3_DeviceName) v.(d3_SigningKey) v.(d3_TransferPublicKey)
    v.(d3_TranscriptHash) v.(d3_ClaimTag) v.(d3_ApprovalTag) v.(d3_ClaimRequestHash) v.(d3_CreatedAt) v.(d3_ExpiresAt) v.(d3_ClaimedAt)
    v.(d3_ApprovedAt) v.(d3_TransferExpiresAt) v.(d3_CompletedAt).

Definition public (v : deviceLinkV3Record) : DeviceLinkV3 := with_code v "".

(** ** Limits *)

Definition checkDevices (accountID : string) : Tx unit :=
  d ← read (fun d => d);
  l ← get_limits;
  if l.(DevicesPerAccount) <=? len (List.filter (fun '(_, x) => (x.(dev_account_id) =s? accountID) && device_live x) (map_to_list d.(rooms).(devices)))
  then refuse Admission.Devices ErrDeviceLimit else mret tt.

Definition PendingDeviceLinksPerAccount : Z := 3.

Definition open_state (state : string) : bool := (state =s? "pending") || (state =s? "claimed").

Definition countPendingDeviceLinks (d : DB) (now : Z) (accountID : string) : Z :=
  len (List.filter (fun '(_, r) => (r.(dl_account_id) =s? accountID) && open_state r.(dl_state) && bool_decide (r.(dl_revoked_at) = None) &&
                                   (now <? r.(dl_expires_at))) (map_to_list d.(ident).(device_links))) +
  len (List.filter (fun '(_, r) => (r.(lk_account_id) =s? accountID) && open_state r.(lk_state) && bool_decide (r.(lk_revoked_at) = None) &&
                                   (now <? r.(lk_expires_at))) (map_to_list d.(ident).(device_links_v3))).

(** ** Operations *)

Definition on_links (f : gmap string DeviceLinkV3Row -> gmap string DeviceLinkV3Row) : Tx unit := on_ident (upd_device_links_v3 f).

Definition CreateDeviceLinkV3 (newID nonce : string) (clock : nat -> Z) (accountID deviceID code origin : string) (ttl : Z)
    : Tx DeviceLinkV3 :=
  guard_tx (negb (negb (validV3Hash code) || negb (ValidDeviceLinkV3Origin origin) || (ttl <? 0) || (30 * minute <? ttl) ||
                  negb (Z.rem ttl second =? 0))) ErrInvalidInput ≫= fun _ =>
  let ttl := if ttl =? 0 then 10 * minute else ttl in
  transaction (
    d ← read (fun d => d);
    dev ← require (live_device d accountID deviceID) ErrUnauthorized;
    let key := default ""%string dev.(dev_signing_key) in
    guard_tx (account_is_live d accountID && (blen key =? 32)) ErrUnauthorized ≫= fun _ =>
    match loadDeviceLinkV3 d (by_code code) with
    | Some existing =>
        guard_tx (negb (negb (existing.(d3_AccountID) =s? accountID) || negb (existing.(d3_SourceDeviceID) =s? deviceID) ||
                        negb (existing.(d3_ServerOrigin) =s? origin) || negb (existing.(ttlSeconds) =? Z.quot ttl second)))
          ErrIdempotencyConflict ≫= fun _ =>
        guard_tx (validWindow existing (clock 0%nat)) ErrDeviceLinkInvalid ≫= fun _ =>
        mret (with_code (public existing) code)
    | None =>
        guard_tx (forallb (fun '(_, r) => negb (r.(lk_code) =s? code)) (map_to_list d.(ident).(device_links_v3))) ErrDeviceLinkInvalid ≫= fun _ =>
        checkDevices accountID ≫= fun _ =>
        (if PendingDeviceLinksPerAccount <=? countPendingDeviceLinks d (clock 1%nat) accountID
         then refuse Admission.DeviceLinks ErrDeviceLinkLimit else mret tt) ≫= fun _ =>
        let now := clock 2%nat in
        let expires := time_add now ttl in
        guard_tx (negb (exists_in d.(ident).(device_links_v3) newID) && (blen nonce =? 32)) ErrConstraint ≫= fun _ =>
        on_links (insert newID (mkDeviceLinkV3Row code accountID deviceID origin (Z.quot ttl second) "pending" nonce None None None now expires
          None None None None None)) ≫= fun _ =>
        mret (mkDeviceLinkV3 newID code DeviceLinkV3Protocol DeviceLinkPending accountID deviceID origin nonce key "" "" "" "" "" "" "" ""
          now expires None None None None)
    end).

(** [UPDATE device_links_v3 SET ... WHERE id = ? AND p] *)
Definition update_link (id : string) (p : DeviceLinkV3Row -> bool) (f : DeviceLinkV3Row -> DeviceLinkV3Row) : Tx unit :=
  on_links (fun m => (update_row m id p f).1).

(** A row as the UPDATEs leave it. *)
Definition set_link (state : string) (reservation : option (string * string * string)) (claim : option LinkClaim)
    (approval : option string) (approvedAt transferExpiresAt completedAt revokedAt : option Z) (r : DeviceLinkV3Row) : DeviceLinkV3Row :=
  mkDeviceLinkV3Row r.(lk_code) r.(lk_account_id) r.(lk_source_device_id) r.(lk_server_origin) r.(lk_ttl_seconds) state r.(lk_link_nonce)
    reservation claim approval r.(lk_created_at) r.(lk_expires_at) approvedAt transferExpiresAt completedAt revokedAt
    r.(lk_history_cancelled_at).

Definition ReserveDeviceLinkV3 (newDevice nonce : string) (now : Z) (code requestID : string) : Tx EnrollmentReservationT :=
  guard_tx (negb (negb (validV3Hash code) || negb (validV3Hash requestID))) ErrEnrollmentInvalid ≫= fun _ =>
  transaction (
    d ← read (fun d => d);
    require (loadDeviceLinkV3 d (by_code code)) ErrDeviceLinkInvalid ≫= fun link : deviceLinkV3Record =>
    guard_tx (negb (negb (time_after link.(d3_ExpiresAt) now) ||
                    (negb (link.(d3_State) =s? DeviceLinkPending) && negb (link.(d3_State) =s? DeviceLinkClaimed)))) ErrDeviceLinkInvalid ≫= fun _ =>
    guard_tx (negb (negb (link.(reservationRequestID) =s? "") && negb (link.(reservationRequestID) =s? requestID))) ErrIdempotencyConflict ≫= fun _ =>
    let reply dev ch := mkEnrollmentReservation link.(d3_ID) "device_link" link.(d3_AccountID) dev None ch link.(d3_ExpiresAt)
      DeviceLinkV3Protocol link.(d3_LinkNonce) link.(d3_SourceDeviceID) link.(d3_ExistingSigningKey) in
    if link.(reservationRequestID) =s? "" then
      let ch := encodeEnrollmentChallenge link.(d3_ID) link.(d3_AccountID) newDevice nonce in
      guard_tx (forallb (fun '(_, r) => negb (bool_decide ((fun x => x.1.2) <$> r.(lk_reservation) = Some newDevice)))
                  (map_to_list d.(ident).(device_links_v3))) ErrConstraint ≫= fun _ =>
      update_link link.(d3_ID) (fun r => bool_decide (r.(lk_reservation) = None)) (fun r =>
        set_link r.(lk_state) (Some (requestID, newDevice, ch)) r.(lk_claim) r.(lk_approval_tag) r.(lk_approved_at) r.(lk_transfer_expires_at)
          r.(lk_completed_at) r.(lk_revoked_at) r) ≫= fun _ =>
      mret (reply newDevice ch)
    else mret (reply link.(d3_RecipientDeviceID) link.(challenge))).

(** The hash by which a repeated claim is recognised. *)
Definition claim_request_hash (proof : string) : string := hex_encode (Sum256 proof).

(** UNIQUE columns of the claim. *)
Definition claim_free (d : DB) (id : string) (i : DeviceLinkV3ClaimInput) : bool :=
  forallb (fun '(k, r) => (k =s? id) || match r.(lk_claim) with
                                       | Some c => negb (c.(lc_claim_token_hash) =s? i.(ci_ClaimTokenHash)) &&
                                                   negb (c.(lc_initial_session_token_hash) =s? i.(ci_InitialSessionTokenHash))
                                       | None => true
                                       end) (map_to_list d.(ident).(device_links_v3)).

Definition ClaimDeviceLinkV3 (checkedAt now : Z) (i : DeviceLinkV3ClaimInput) : Tx DeviceLinkV3 :=
  transaction (
    d ← read (fun d => d);
    require (loadDeviceLinkV3 d (fun id r => by_id i.(ci_EnrollmentReservationID) id r && by_code i.(ci_Code) id r)) ErrDeviceLinkInvalid ≫= fun link : deviceLinkV3Record =>
    guard_tx (negb (negb (validWindow link checkedAt) || (link.(reservationRequestID) =s? "") ||
                    negb (i.(ci_ReservationRequestID) =s? link.(reservationRequestID)) || negb (i.(ci_ServerOrigin) =s? link.(d3_ServerOrigin))))
      ErrEnrollmentInvalid ≫= fun _ =>
    let reservation := mkEnrollmentReservation link.(d3_ID) "" link.(d3_AccountID) link.(d3_RecipientDeviceID) None link.(challenge) 0 "" "" "" "" in
    match DeviceLinkV3ProofMessage i reservation with
    | Err _ => throw ErrEnrollmentInvalid
    | Ok proof =>
        guard_tx ((blen i.(ci_ChallengeSignature) =? 64) && ed25519_Verify i.(ci_SigningKey) proof i.(ci_ChallengeSignature))
          ErrEnrollmentInvalid ≫= fun _ =>
        let hash := claim_request_hash proof in
        if negb (link.(d3_State) =s? DeviceLinkPending) then
          guard_tx (link.(d3_ClaimRequestHash) =s? hash) ErrIdempotencyConflict ≫= fun _ =>
          mret (public link)
        else
          guard_tx (negb ((i.(ci_ClaimTokenHash) =s? i.(ci_DeviceSecretHash)) || (i.(ci_ClaimTokenHash) =s? i.(ci_InitialSessionTokenHash)) ||
                          (i.(ci_DeviceSecretHash) =s? i.(ci_InitialSessionTokenHash)))) ErrEnrollmentInvalid ≫= fun _ =>
          guard_tx (claim_free d link.(d3_ID) i) ErrConstraint ≫= fun _ =>
          update_link link.(d3_ID) (fun r => r.(lk_state) =s? "pending") (fun r =>
            set_link "claimed" r.(lk_reservation)
              (Some (mkLinkClaim i.(ci_DeviceName) i.(ci_DeviceKeyPackage) i.(ci_SigningKey) i.(ci_TransferPublicKey) i.(ci_TranscriptHash)
                 i.(ci_ClaimTag) i.(ci_ClaimTokenHash) i.(ci_DeviceSecretHash) i.(ci_InitialSessionTokenHash) hash now))
              r.(lk_approval_tag) r.(lk_approved_at) r.(lk_transfer_expires_at) r.(lk_completed_at) r.(lk_revoked_at) r) ≫= fun _ =>
          d ← read (fun d => d);
          require (loadDeviceLinkV3 d (by_id link.(d3_ID))) ErrDeviceLinkInvalid ≫= fun link : deviceLinkV3Record =>
          mret (public link)
    end).

Definition DeviceLinkV3ForSource (now : Z) (id accountID deviceID : string) : Tx DeviceLinkV3 :=
  d ← read (fun d => d);
  require (loadDeviceLinkV3 d (by_source id accountID deviceID)) ErrDeviceLinkInvalid ≫= fun link : deviceLinkV3Record =>
  guard_tx (validWindow link now) ErrDeviceLinkInvalid ≫= fun _ =>
  mret (public link).

Definition DeviceLinkV3ForClaim (now : Z) (id tokenHash : string) : Tx DeviceLinkV3 :=
  guard_tx (validV3Hash tokenHash) ErrDeviceLinkInvalid ≫= fun _ =>
  d ← read (fun d => d);
  require (loadDeviceLinkV3 d (by_claim_token id tokenHash)) ErrDeviceLinkInvalid ≫= fun link : deviceLinkV3Record =>
  guard_tx (validWindow link now) ErrDeviceLinkInvalid ≫= fun _ =>
  mret (public link).

Definition ApproveDeviceLinkV3 (newPackage : string) (clock : nat -> Z) (id accountID sourceDeviceID requestHash transcriptHash approvalTag : string)
    : Tx (DeviceLinkV3 * Device * Z) :=
  guard_tx (negb (negb (validV3Hash requestHash) || negb (blen transcriptHash =? 32) || negb (blen approvalTag =? 32)))
    ErrDeviceLinkVerificationFailed ≫= fun _ =>
  transaction (
    d ← read (fun d => d);
    require (loadDeviceLinkV3 d (by_source id accountID sourceDeviceID)) ErrDeviceLinkInvalid ≫= fun link : deviceLinkV3Record =>
    guard_tx (validWindow link (clock 0%nat)) ErrDeviceLinkInvalid ≫= fun _ =>
    guard_tx ((link.(d3_ClaimRequestHash) =s? requestHash) && v3Equal link.(d3_TranscriptHash) transcriptHash)
      ErrDeviceLinkVerificationFailed ≫= fun _ =>
    let device created := mkDevice link.(d3_RecipientDeviceID) accountID link.(d3_DeviceName) link.(keyPackage) link.(d3_SigningKey) created None None in
    if (link.(d3_State) =s? DeviceLinkApproved) || (link.(d3_State) =s? DeviceLinkConsumed) then
      guard_tx (v3Equal link.(d3_ApprovalTag) approvalTag) ErrIdempotencyConflict ≫= fun _ =>
      mret (public link, device (default 0 link.(d3_ApprovedAt)), 0)
    else
      guard_tx ((link.(d3_State) =s? DeviceLinkClaimed) && time_after link.(d3_ExpiresAt) (clock 1%nat)) ErrDeviceLinkInvalid ≫= fun _ =>
      checkDevices accountID ≫= fun _ =>
      let now := clock 2%nat in
      insert_device link.(d3_RecipientDeviceID) (mkDeviceRow accountID None now None (Some link.(deviceSecretHash)) link.(d3_DeviceName)
        link.(keyPackage) (Some link.(d3_SigningKey))) ≫= fun _ =>
      insertInitialDeviceKeyPackage newPackage link.(d3_RecipientDeviceID) link.(keyPackage) now ≫= fun _ =>
      update_link id (fun r => r.(lk_state) =s? "claimed") (fun r =>
        set_link "approved" r.(lk_reservation) r.(lk_claim) (Some approvalTag) (Some now) (Some (time_add now deviceLinkV3TransferLifetime))
          r.(lk_completed_at) r.(lk_revoked_at) r) ≫= fun _ =>
      eventID ← insertSyncEvent "device.updated" (Some accountID) "" [("device", VDevice (device now)); ("device_link_id", VStr id)]%string now;
      d ← read (fun d => d);
      require (loadDeviceLinkV3 d (by_id id)) ErrDeviceLinkInvalid ≫= fun link : deviceLinkV3Record =>
      mret (public link, device now, eventID)).

(** A session that only its own current token can find. *)
Definition session_active (p : sessionPolicy) (d : DB) (now : Z) (tokenHash accountID deviceID : string) : bool :=
  match d.(sessions) !! tokenHash with
  | Some r => (r.(ss_account_id) =s? accountID) && bool_decide (r.(ss_device_id) = Some deviceID) && sessionValidity p d now r &&
              bool_decide (dev_account_id <$> d.(rooms).(devices) !! deviceID = Some accountID)
  | None => false
  end.

Definition CompleteDeviceLinkV3 (checkedAt now : Z) (id tokenHash requestHash sessionHash transcriptHash : string)
    : Tx (DeviceLinkV3Completion * string) :=
  guard_tx (negb (negb (validV3Hash tokenHash) || negb (validV3Hash requestHash) || negb (validV3Hash sessionHash) ||
                  negb (blen transcriptHash =? 32))) ErrDeviceLinkVerificationFailed ≫= fun _ =>
  transaction (
    d ← read (fun d => d);
    p ← get_policy;
    require (loadDeviceLinkV3 d (by_claim_token id tokenHash)) ErrDeviceLinkInvalid ≫= fun link : deviceLinkV3Record =>
    guard_tx (validWindow link checkedAt) ErrDeviceLinkInvalid ≫= fun _ =>
    guard_tx ((link.(d3_ClaimRequestHash) =s? requestHash) && (link.(initialSessionHash) =s? sessionHash) &&
              v3Equal link.(d3_TranscriptHash) transcriptHash) ErrDeviceLinkVerificationFailed ≫= fun _ =>
    guard_tx (negb (link.(d3_State) =s? DeviceLinkClaimed)) ErrDeviceLinkNotReady ≫= fun _ =>
    completedAt ← (
      if link.(d3_State) =s? DeviceLinkApproved then
        guard_tx (time_after link.(d3_ExpiresAt) now) ErrDeviceLinkInvalid ≫= fun _ =>
        let '(idleExpiry, absoluteExpiry) := sessionLifetime p now 0 in
        insert_session sessionHash (new_session link.(d3_AccountID) (Some link.(d3_RecipientDeviceID)) idleExpiry now (Some now) absoluteExpiry) ≫= fun _ =>
        update_link id (fun r => r.(lk_state) =s? "approved") (fun r =>
          set_link "consumed" r.(lk_reservation) r.(lk_claim) r.(lk_approval_tag) r.(lk_approved_at) r.(lk_transfer_expires_at) (Some now)
            r.(lk_revoked_at) r) ≫= fun _ =>
        mret now
      else if link.(d3_State) =s? DeviceLinkConsumed then
        guard_tx (session_active p d now sessionHash link.(d3_AccountID) link.(d3_RecipientDeviceID)) ErrDeviceLinkSessionUnavailable ≫= fun _ =>
        require link.(d3_CompletedAt) ErrDeviceLinkInvalid
      else throw ErrDeviceLinkInvalid);
    mret (mkCompletion id link.(d3_AccountID) link.(d3_RecipientDeviceID) link.(d3_ServerOrigin) requestHash link.(d3_TranscriptHash)
            sessionHash completedAt, link.(d3_ApprovalTag))).

Definition CancelDeviceLinkV3 (now : Z) (id accountID deviceID : string) : Tx unit :=
  transaction (
    d ← read (fun d => d);
    r ← require (d.(ident).(device_links_v3) !! id) ErrDeviceLinkInvalid;
    guard_tx (by_source id accountID deviceID id r && account_is_live d accountID && bool_decide (is_Some (live_device d accountID deviceID)))
      ErrDeviceLinkInvalid ≫= fun _ =>
    if r.(lk_state) =s? DeviceLinkRevoked then mret tt
    else
      guard_tx (open_state r.(lk_state)) ErrIdempotencyConflict ≫= fun _ =>
      update_link id (fun r => open_state r.(lk_state)) (fun r =>
        set_link "revoked" r.(lk_reservation) r.(lk_claim) r.(lk_approval_tag) r.(lk_approved_at) r.(lk_transfer_expires_at)
          r.(lk_completed_at) (Some now) r)).

End links.
