(* ===== verification/History.v ===== *)
(** * History transfers

    [internal/storage/device_history_transfer_store.go]: the source device of
    an approved link uploads its encrypted history for the new device.  The
    upload is first an intent that reserves quota, then an active transfer,
    which ends acknowledged, cancelled or expired; its blob is queued for
    deletion when it leaves the active state.  [json.Marshal] of the input is
    the parameter [marshal].  A loop reads the clock once. *)

From S2P Require Import Prelude GoStrings GoJson Domain Admission Database Conversations Messages Retention Blobs Identity Sessions DeviceLinks.
From stdpp Require Import base numbers list strings gmap fin_maps sorting.
From Stdlib Require Import ZArith ZifyBool Lia.
Open Scope Z_scope.

Definition MaxHistoryCiphertext : Z := Z.shiftl 100 20.

Record HistoryTransferInput := mkHistoryInput {
  hi_ProtocolVersion : string; hi_TransferID : string; hi_ClaimRequestHash : string; hi_TranscriptHash : string;
  hi_CiphertextSHA256 : string; hi_SizeBytes : Z; hi_Handoff : string }.

(** [uploads.BlobRef] *)
Record BlobRef := mkBlobRef { ref_StorageKey : string; ref_SHA256 : string; ref_Size : Z; ref_ChunkDigests : option string }.

Record HistoryTransfer := mkHistoryTransfer {
  tr_TransferID : string; tr_LinkID : string; tr_AccountID : string; tr_SourceDeviceID : string; tr_RecipientDeviceID : string;
  tr_ClaimRequestHash : string; tr_TranscriptHash : string; tr_CiphertextSHA256 : string; tr_SizeBytes : Z; tr_State : string;
  tr_Handoff : option string; tr_CreatedAt : Z; tr_ExpiresAt : Z; tr_TerminalAt : option Z; tr_Ref : BlobRef; tr_handoffHash : string }.

Record HistoryAccess := mkHistoryAccess { ac_AccountID : string; ac_DeviceID : string; ac_ClaimTokenHash : string }.

Section history.
Context `{GoCrypto} (marshal : HistoryTransferInput -> string).

Definition historyInputDigest (input : HistoryTransferInput) : string := hex_encode (Sum256 (marshal input)).

Definition validateHistoryInput (i : HistoryTransferInput) : bool :=
  (i.(hi_ProtocolVersion) =s? DeviceLinkV3Protocol) && validV3Hash i.(hi_TransferID) && validV3Hash i.(hi_ClaimRequestHash) &&
  validV3Hash i.(hi_CiphertextSHA256) && (blen i.(hi_TranscriptHash) =? 32) && (0 <? i.(hi_SizeBytes)) &&
  (i.(hi_SizeBytes) <=? MaxHistoryCiphertext) && (0 <? blen i.(hi_Handoff)) && (blen i.(hi_Handoff) <=? 8192).

(** The link and whether the caller is its source. *)
Definition historyLink (now : Z) (id : string) (access : HistoryAccess) (sourceOnly : bool) : Tx (deviceLinkV3Record * bool) :=
  d ← read (fun d => d);
  require (loadDeviceLinkV3 d (by_id id)) ErrDeviceLinkInvalid ≫= fun link : deviceLinkV3Record =>
  let own dev := (access.(ac_AccountID) =s? link.(d3_AccountID)) && (access.(ac_DeviceID) =s? dev) && (access.(ac_ClaimTokenHash) =s? "") in
  let source := own link.(d3_SourceDeviceID) in
  let recipient := own link.(d3_RecipientDeviceID) ||
    ((access.(ac_AccountID) =s? "") && (access.(ac_DeviceID) =s? "") && validV3Hash access.(ac_ClaimTokenHash) &&
     (access.(ac_ClaimTokenHash) =s? link.(claimTokenHash))) in
  guard_tx (negb ((sourceOnly && negb source) || (negb sourceOnly && negb source && negb recipient))) ErrForbidden ≫= fun _ =>
  guard_tx (negb ((negb (link.(d3_State) =s? DeviceLinkApproved) && negb (link.(d3_State) =s? DeviceLinkConsumed)) || negb (validWindow link now)))
    ErrDeviceLinkInvalid ≫= fun _ =>
  mret (link, source).

Definition scan_transfer (id : string) (r : HistoryTransferRow) : HistoryTransfer :=
  mkHistoryTransfer r.(ht_transfer_id) id r.(ht_account_id) r.(ht_source_device_id) r.(ht_recipient_device_id) r.(ht_claim_request_hash)
    r.(ht_transcript_hash) r.(ht_sha256) r.(ht_size_bytes) r.(ht_state) r.(ht_handoff) r.(ht_created_at) r.(ht_expires_at) r.(ht_terminal_at)
    (mkBlobRef (default ""%string r.(ht_storage_key)) r.(ht_sha256) r.(ht_size_bytes) r.(ht_chunk_digests)) r.(ht_handoff_sha256).

Definition without_handoff (t : HistoryTransfer) : HistoryTransfer :=
  mkHistoryTransfer t.(tr_TransferID) t.(tr_LinkID) t.(tr_AccountID) t.(tr_SourceDeviceID) t.(tr_RecipientDeviceID) t.(tr_ClaimRequestHash)
    t.(tr_TranscriptHash) t.(tr_CiphertextSHA256) t.(tr_SizeBytes) t.(tr_State) None t.(tr_CreatedAt) t.(tr_ExpiresAt) t.(tr_TerminalAt)
    t.(tr_Ref) t.(tr_handoffHash).

Definition loadHistoryTransfer (id : string) : Tx HistoryTransfer :=
  d ← read (fun d => d);
  r ← require (d.(history_transfers) !! id) ErrNotFound;
  mret (scan_transfer id r).

Definition sameHistoryInput (t : HistoryTransfer) (i : HistoryTransferInput) : bool :=
  (t.(tr_TransferID) =s? i.(hi_TransferID)) && (t.(tr_ClaimRequestHash) =s? i.(hi_ClaimRequestHash)) &&
  v3Equal t.(tr_TranscriptHash) i.(hi_TranscriptHash) && (t.(tr_CiphertextSHA256) =s? i.(hi_CiphertextSHA256)) &&
  (t.(tr_SizeBytes) =? i.(hi_SizeBytes)) && (t.(tr_handoffHash) =s? hex_encode (Sum256 i.(hi_Handoff))).

(** The upload is for the claim the link holds. *)
Definition matches_claim (link : DeviceLinkV3) (i : HistoryTransferInput) : bool :=
  (link.(d3_ClaimRequestHash) =s? i.(hi_ClaimRequestHash)) && v3Equal link.(d3_TranscriptHash) i.(hi_TranscriptHash).

Definition history_cancelled (d : DB) (id : string) : option bool :=
  (fun r => bool_decide (is_Some r.(lk_history_cancelled_at))) <$> d.(ident).(device_links_v3) !! id.

Definition CheckHistoryUpload (now : Z) (id : string) (access : HistoryAccess) (i : HistoryTransferInput) : Tx (option HistoryTransfer) :=
  guard_tx (validateHistoryInput i) ErrInvalidInput ≫= fun _ =>
  historyLink now id access true ≫= fun l : deviceLinkV3Record * bool =>
  guard_tx (matches_claim l.1 i) ErrDeviceLinkVerificationFailed ≫= fun _ =>
  d ← read (fun d => d);
  match d.(history_transfers) !! id with
  | Some r => let t := scan_transfer id r in
      guard_tx (sameHistoryInput t i) ErrIdempotencyConflict ≫= fun _ =>
      mret (Some (without_handoff t))
  | None =>
      cancelled ← require (history_cancelled d id) ErrNoRows;
      guard_tx (negb cancelled) ErrDeviceLinkInvalid ≫= fun _ =>
      mret None
  end.

(** ** Retiring blobs *)

Definition retireHistoryIntents (now : Z) (p : string -> UploadIntentRow -> bool) : Tx unit :=
  d ← read (fun d => d);
  for_each (List.filter (fun '(k, r) => p k r) (map_to_list d.(upload_intents))).*1 (fun key =>
    enqueueBlobDeletion now key ≫= fun _ =>
    modify (upd_upload_intents (delete key))).

(** A transfer in a terminal state holds no blob and no handoff. *)
Definition retired (state : string) (now : Z) (r : HistoryTransferRow) : HistoryTransferRow :=
  mkHistoryTransferRow r.(ht_transfer_id) r.(ht_account_id) r.(ht_source_device_id) r.(ht_recipient_device_id) r.(ht_claim_request_hash)
    r.(ht_transcript_hash) r.(ht_sha256) r.(ht_size_bytes) None r.(ht_handoff_sha256) None None state r.(ht_created_at) r.(ht_expires_at)
    (Some now).

Definition active_with_key (key : string) (r : HistoryTransferRow) : bool :=
  bool_decide (r.(ht_storage_key) = Some key) && (r.(ht_state) =s? "active").

Definition retireHistoryTransfers (now : Z) (p : string -> HistoryTransferRow -> bool) (state : string) : Tx unit :=
  d ← read (fun d => d);
  for_each (omap (fun '(id, r) => if (r.(ht_state) =s? "active") && p id r then r.(ht_storage_key) else None) (map_to_list d.(history_transfers)))
    (fun key =>
      enqueueBlobDeletion now key ≫= fun _ =>
      modify (upd_history_transfers (fmap (fun r => if active_with_key key r then retired state now r else r)))).

Definition retireHistoryForLinks (now : Z) (p : DeviceLinkV3Row -> bool) : Tx unit :=
  d ← read (fun d => d);
  let chosen link := match d.(ident).(device_links_v3) !! link with Some r => p r | None => false end in
  retireHistoryIntents now (fun _ r => chosen r.(ui_link_id)) ≫= fun _ =>
  retireHistoryTransfers now (fun id _ => chosen id) "cancelled".

(** ** Uploads *)

Definition RegisterHistoryUpload (clock : nat -> Z) (id : string) (access : HistoryAccess) (i : HistoryTransferInput) (key : string) : Tx unit :=
  guard_tx (validateHistoryInput i && ValidID "blob" key) ErrInvalidInput ≫= fun _ =>
  transaction (
    historyLink (clock 0%nat) id access true ≫= fun l : deviceLinkV3Record * bool =>
    let link := l.1 in
    guard_tx (matches_claim link i) ErrDeviceLinkVerificationFailed ≫= fun _ =>
    d ← read (fun d => d);
    cancelled ← require (history_cancelled d id) ErrNoRows;
    guard_tx (negb (cancelled || bool_decide (is_Some (d.(history_transfers) !! id)))) ErrIdempotencyConflict ≫= fun _ =>
    retireHistoryIntents (clock 1%nat) (fun _ r => (r.(ui_link_id) =s? id) && (r.(ui_expires_at) <=? clock 1%nat)) ≫= fun _ =>
    d ← read (fun d => d);
    guard_tx (len (List.filter (fun '(_, r) => r.(ui_link_id) =s? id) (map_to_list d.(upload_intents))) =? 0) ErrIdempotencyConflict ≫= fun _ =>
    enforceBlobQuota link.(d3_AccountID) i.(hi_SizeBytes) ≫= fun _ =>
    let now := clock 2%nat in
    let expiry := time_add now (10 * minute) in
    let expiry := match link.(d3_TransferExpiresAt) with Some t => if time_before t expiry then t else expiry | None => expiry end in
    guard_tx (negb (exists_in d.(upload_intents) key)) ErrConstraint ≫= fun _ =>
    modify (upd_upload_intents (insert key (mkUploadIntentRow id link.(d3_AccountID) i.(hi_TransferID) (historyInputDigest i) i.(hi_SizeBytes)
      now expiry)))).

(** PRIMARY KEY and UNIQUE columns of a transfer. *)
Definition transfer_free (d : DB) (id transferID key : string) : bool :=
  negb (exists_in d.(history_transfers) id) &&
  forallb (fun '(_, r) => negb (r.(ht_transfer_id) =s? transferID) && negb (bool_decide (r.(ht_storage_key) = Some key)))
    (map_to_list d.(history_transfers)).

Definition FinalizeHistoryUpload (clock : nat -> Z) (id : string) (access : HistoryAccess) (i : HistoryTransferInput) (ref : BlobRef)
    : Tx HistoryTransfer :=
  guard_tx (negb (negb (validateHistoryInput i) || negb (ref.(ref_SHA256) =s? i.(hi_CiphertextSHA256)) || negb (ref.(ref_Size) =? i.(hi_SizeBytes))))
    ErrInvalidInput ≫= fun _ =>
  transaction (
    historyLink (clock 0%nat) id access true ≫= fun l : deviceLinkV3Record * bool =>
    let link := l.1 in
    d ← read (fun d => d);
    intent ← require (d.(upload_intents) !! ref.(ref_StorageKey)) ErrDeviceLinkInvalid;
    guard_tx ((intent.(ui_link_id) =s? id) && (clock 1%nat <? intent.(ui_expires_at))) ErrDeviceLinkInvalid ≫= fun _ =>
    guard_tx (intent.(ui_metadata_sha256) =s? historyInputDigest i) ErrIdempotencyConflict ≫= fun _ =>
    modify (upd_upload_intents (delete ref.(ref_StorageKey))) ≫= fun _ =>
    guard_tx (transfer_free d id i.(hi_TransferID) ref.(ref_StorageKey)) ErrConstraint ≫= fun _ =>
    modify (upd_history_transfers (insert id (mkHistoryTransferRow i.(hi_TransferID) link.(d3_AccountID) link.(d3_SourceDeviceID)
      link.(d3_RecipientDeviceID) i.(hi_ClaimRequestHash) i.(hi_TranscriptHash) i.(hi_CiphertextSHA256) i.(hi_SizeBytes) (Some i.(hi_Handoff))
      (hex_encode (Sum256 i.(hi_Handoff))) (Some ref.(ref_StorageKey)) ref.(ref_ChunkDigests) "active" (clock 2%nat)
      (default 0 link.(d3_TransferExpiresAt)) None))) ≫= fun _ =>
    t ← loadHistoryTransfer id;
    mret (without_handoff t)).

Definition AbortHistoryUpload (now : Z) (key : string) : Tx unit :=
  transaction (retireHistoryIntents now (fun k _ => k =s? key)).

Definition HistoryTransferForAccess (now : Z) (id : string) (access : HistoryAccess) (content : bool) : Tx HistoryTransfer :=
  historyLink now id access false ≫= fun l : deviceLinkV3Record * bool =>
  let source := l.2 in
  guard_tx (negb (source && content)) ErrForbidden ≫= fun _ =>
  t ← loadHistoryTransfer id;
  guard_tx (negb (content && negb (t.(tr_State) =s? "active"))) ErrDeviceLinkInvalid ≫= fun _ =>
  mret (if source then without_handoff t else t).

Definition AcknowledgeHistoryTransfer (checkedAt now : Z) (id : string) (access : HistoryAccess) (transferID digest : string) : Tx HistoryTransfer :=
  transaction (
    historyLink checkedAt id access false ≫= fun l : deviceLinkV3Record * bool =>
    guard_tx (negb l.2) ErrForbidden ≫= fun _ =>
    t ← loadHistoryTransfer id;
    guard_tx ((t.(tr_TransferID) =s? transferID) && (t.(tr_CiphertextSHA256) =s? digest)) ErrIdempotencyConflict ≫= fun _ =>
    (if negb (t.(tr_State) =s? "acknowledged") then
       guard_tx (t.(tr_State) =s? "active") ErrIdempotencyConflict ≫= fun _ =>
       retireHistoryTransfers now (fun k _ => k =s? id) "acknowledged"
     else mret tt) ≫= fun _ =>
    loadHistoryTransfer id).

Definition set_history_cancelled (now : Z) (r : DeviceLinkV3Row) : DeviceLinkV3Row :=
  mkDeviceLinkV3Row r.(lk_code) r.(lk_account_id) r.(lk_source_device_id) r.(lk_server_origin) r.(lk_ttl_seconds) r.(lk_state) r.(lk_link_nonce)
    r.(lk_reservation) r.(lk_claim) r.(lk_approval_tag) r.(lk_created_at) r.(lk_expires_at) r.(lk_approved_at) r.(lk_transfer_expires_at)
    r.(lk_completed_at) r.(lk_revoked_at) (Some (default now r.(lk_history_cancelled_at))).

Definition CancelHistoryTransfer (clock : nat -> Z) (id : string) (access : HistoryAccess) : Tx unit :=
  transaction (
    historyLink (clock 0%nat) id access false ≫= fun _ =>
    retireHistoryIntents (clock 1%nat) (fun _ r => r.(ui_link_id) =s? id) ≫= fun _ =>
    retireHistoryTransfers (clock 2%nat) (fun k _ => k =s? id) "cancelled" ≫= fun _ =>
    on_links (alter (set_history_cancelled (clock 3%nat)) id)).

(** [DELETE FROM device_links_v3]: its transfers and intents go with it. *)
Definition delete_links_v3 (gone : DeviceLinkV3Row -> bool) : Tx unit :=
  d ← read (fun d => d);
  let gone_id id := match d.(ident).(device_links_v3) !! id with Some r => gone r | None => false end in
  on_links (filter (fun '(_, r) => gone r = false)) ≫= fun _ =>
  modify (upd_history_transfers (filter (fun '(id, _) => gone_id id = false))) ≫= fun _ =>
  modify (upd_upload_intents (filter (fun '(_, r) => gone_id r.(ui_link_id) = false))).

Definition of_link_device (accountID deviceID : string) (r : DeviceLinkV3Row) : bool :=
  (r.(lk_account_id) =s? accountID) &&
  ((r.(lk_source_device_id) =s? deviceID) || bool_decide ((fun x => x.1.2) <$> r.(lk_reservation) = Some deviceID)).

Definition retireDeviceLinksV3ForDevice (now : Z) (accountID deviceID : string) : Tx unit :=
  retireHistoryForLinks now (of_link_device accountID deviceID) ≫= fun _ =>
  delete_links_v3 (of_link_device accountID deviceID).

End history.
