(* ===== verification/Chunks.v ===== *)
(** * Chunk digests and verified blobs

    The readers of [internal/uploads/local.go] ([storage.go] holds the
    interfaces).  A blob is stored with a record: a version byte, the SHA-256
    of the whole and the SHA-256 of each [ChunkSize] piece.  [chunkDigester]
    builds the record while the upload is streamed, [parseChunkRecord] accepts
    it again, and [verifiedBlob] hands out bytes of chunks it has checked.  A
    [hash.Hash] is the bytes written to it since it was made or reset; the
    file behind a blob answers each [ReadAt] as it pleases ([file_at]). *)

From S2P Require Import Prelude GoStrings Domain DeviceLinks History.
From stdpp Require Import base numbers list strings.
From Stdlib Require Import Ascii ZArith ZifyBool Lia.
Open Scope Z_scope.

Definition bytes : Type := list ascii.
Definition zlen (b : bytes) : Z := Z.of_nat (length b).
Definition first (n : Z) (b : bytes) : bytes := take (Z.to_nat n) b.
Definition skip (n : Z) (b : bytes) : bytes := drop (Z.to_nat n) b.
(** [b[i:j]] *)
Definition slice (b : bytes) (i j : Z) : bytes := first (j - i) (skip i b).

Definition ChunkSize : Z := Z.shiftl 64 10.
Definition sha256_Size : Z := 32.
Definition chunkRecordVersion : ascii := "001"%char.
Definition chunkRecordHeader : Z := 1 + sha256_Size.

Section chunks.
Context {CRY : GoCrypto}.

Definition sum (b : bytes) : bytes := chars (Sum256 (of_chars b)).

(** ** Building a record *)

Record chunkDigester := mkDigester { cd_full : bytes; cd_chunk : bytes; cd_filled : Z; cd_record : bytes }.

Definition newChunkDigester : chunkDigester := mkDigester [] [] 0 (chunkRecordVersion :: replicate 32 zero).

(** The loop of [Write]: each round takes at least one byte, so the length of
    what is left bounds it. *)
Fixpoint write_loop (fuel : nat) (p : bytes) (d : chunkDigester) : chunkDigester :=
  match fuel, p with
  | S fuel, _ :: _ =>
    let n := Z.min (ChunkSize - d.(cd_filled)) (zlen p) in
    let chunk := d.(cd_chunk) ++ first n p in
    let filled := d.(cd_filled) + n in
    write_loop fuel (skip n p)
      (if filled =? ChunkSize then mkDigester d.(cd_full) [] 0 (d.(cd_record) ++ sum chunk)
       else mkDigester d.(cd_full) chunk filled d.(cd_record))
  | _, _ => d
  end.

Definition digester_Write (d : chunkDigester) (p : bytes) : chunkDigester :=
  write_loop (length p) p (mkDigester (d.(cd_full) ++ p) d.(cd_chunk) d.(cd_filled) d.(cd_record)).

(** The digest of the whole, and the record with it copied in. *)
Definition finish (d : chunkDigester) : bytes * bytes :=
  let record := if 0 <? d.(cd_filled) then d.(cd_record) ++ sum d.(cd_chunk) else d.(cd_record) in
  let full := sum d.(cd_full) in
  (full, first 1 record ++ full ++ skip chunkRecordHeader record).

(** ** Reading a record *)

Definition parseChunkRecord (record full : bytes) (size : Z) : option bytes :=
  if (zlen record <? chunkRecordHeader) || negb (bool_decide (head record = Some chunkRecordVersion)) ||
     negb (bool_decide (slice record 1 chunkRecordHeader = full)) then None
  else
    let digests := skip chunkRecordHeader record in
    let chunks := (size + ChunkSize - 1) `quot` ChunkSize in
    if negb (zlen digests =? chunks * sha256_Size) then None
    else if chunks =? 0 then (if bool_decide (full = sum []) then Some digests else None)
    else if chunks =? 1 then (if bool_decide (digests = full) then Some digests else None)
    else Some digests.

(** ** An open blob *)

Inductive io_error := EOF | Other (s : string).

(** [ErrBlobIntegrity] alone or joined with what the file said. *)
Inductive blob_error := BlobEOF | ErrClosed | ErrBlobIntegrity (cause : option io_error) | ErrSeek.

(** What a [ReadAt] of the length from the offset gets now. *)
Definition file_at : Type := Z -> Z -> bytes * option io_error.

Record verifiedBlob := mkBlob {
  vb_size : Z; vb_digests : bytes; vb_recomputed : option bytes; vb_offset : Z; vb_buf : bytes; vb_buffered : Z;
  vb_err : option blob_error; vb_closed : bool }.

Definition set_offset (o : Z) (b : verifiedBlob) : verifiedBlob :=
  mkBlob b.(vb_size) b.(vb_digests) b.(vb_recomputed) o b.(vb_buf) b.(vb_buffered) b.(vb_err) b.(vb_closed).
Definition set_buffer (buf : bytes) (index : Z) (b : verifiedBlob) : verifiedBlob :=
  mkBlob b.(vb_size) b.(vb_digests) b.(vb_recomputed) b.(vb_offset) buf index b.(vb_err) b.(vb_closed).
Definition set_err (e : blob_error) (b : verifiedBlob) : verifiedBlob :=
  mkBlob b.(vb_size) b.(vb_digests) b.(vb_recomputed) b.(vb_offset) b.(vb_buf) b.(vb_buffered) (Some e) b.(vb_closed).

Definition usable (b : verifiedBlob) : option blob_error := if b.(vb_closed) then Some ErrClosed else b.(vb_err).

(** [buf] and [chunk] share their memory: a failed load leaves what was read
    in a buffer that holds no chunk. *)
Definition load (file : file_at) (index : Z) (b : verifiedBlob) : option blob_error * verifiedBlob :=
  if index =? b.(vb_buffered) then (None, b)
  else
    let start := index * ChunkSize in
    let length_ := Z.min ChunkSize (b.(vb_size) - start) in
    let '(got, err) := file start length_ in
    let got := first length_ got in
    let scratch := set_buffer (take (length b.(vb_buf)) (got ++ drop (length got) b.(vb_buf))) (-1) b in
    if negb (zlen got =? length_) then
      let e := ErrBlobIntegrity match err with Some (Other s) => Some (Other s) | _ => None end in
      (Some e, set_err e scratch)
    else if negb (bool_decide (sum got = slice b.(vb_digests) (index * sha256_Size) ((index + 1) * sha256_Size))) then
      (Some (ErrBlobIntegrity None), set_err (ErrBlobIntegrity None) scratch)
    else (None, set_buffer got index b).

(** [Read] into [n] bytes. *)
Definition Read (file : file_at) (n : Z) (b : verifiedBlob) : bytes * option blob_error * verifiedBlob :=
  match usable b with
  | Some e => ([], Some e, b)
  | None =>
    if b.(vb_size) <=? b.(vb_offset) then ([], Some BlobEOF, b)
    else if n =? 0 then ([], None, b)
    else
      let index := b.(vb_offset) `quot` ChunkSize in
      match load file index b with
      | (Some e, b) => ([], Some e, b)
      | (None, b) =>
        let out := first n (skip (b.(vb_offset) - index * ChunkSize) b.(vb_buf)) in
        (out, None, set_offset (b.(vb_offset) + zlen out) b)
      end
  end.

Definition SeekStart : Z := 0.
Definition SeekCurrent : Z := 1.
Definition SeekEnd : Z := 2.

Definition Seek (offset whence : Z) (b : verifiedBlob) : Z * option blob_error * verifiedBlob :=
  let at_ (position : Z) := if (position <? 0) || (b.(vb_size) <? position) then (0, Some ErrSeek, b) else (position, None, set_offset position b) in
  if whence =? SeekStart then at_ offset
  else if whence =? SeekCurrent then at_ (wrap64 (b.(vb_offset) + offset))
  else if whence =? SeekEnd then at_ (wrap64 (b.(vb_size) + offset))
  else (0, Some ErrSeek, b).

Definition VerifyCurrent (file : file_at) (b : verifiedBlob) : option blob_error * verifiedBlob :=
  match usable b with
  | Some e => (Some e, b)
  | None => if b.(vb_size) <=? b.(vb_offset) then (None, b) else load file (b.(vb_offset) `quot` ChunkSize) b
  end.

Definition Err_ (b : verifiedBlob) : option blob_error := b.(vb_err).
Definition RecomputedChunkDigests (b : verifiedBlob) : option bytes := b.(vb_recomputed).

(** The error of closing the file aside. *)
Definition Close (b : verifiedBlob) : option blob_error * verifiedBlob :=
  if b.(vb_closed) then (Some ErrClosed, b)
  else (None, mkBlob b.(vb_size) b.(vb_digests) b.(vb_recomputed) b.(vb_offset) [] (-1) b.(vb_err) true).
End chunks.
