(* ===== verification/ChunkRules.v ===== *)
(** * What chunk digests and verified blobs guarantee

    The record of a stream is the same however the stream is cut into
    writes, and is accepted again; a blob opened with the record of some
    content only ever returns that content, whatever the file behind it
    answers, or two byte strings with one SHA-256 are at hand. *)

From S2P Require Import Prelude GoStrings Domain DeviceLinks History Chunks.
From stdpp Require Import base numbers list strings.
From Stdlib Require Import Ascii ZArith ZifyBool Lia.
Open Scope Z_scope.

(** ** Lengths and cuts *)

Lemma zlen_nonneg b : 0 <= zlen b.
Proof. unfold zlen. lia. Qed.

Lemma zlen_app a b : zlen (a ++ b) = zlen a + zlen b.
Proof. unfold zlen. rewrite length_app. lia. Qed.

Lemma zlen_first n b : 0 <= n -> zlen (first n b) = Z.min n (zlen b).
Proof. intros. unfold zlen, first. rewrite length_take. lia. Qed.

Lemma zlen_skip n b : 0 <= n -> zlen (skip n b) = Z.max 0 (zlen b - n).
Proof. intros. unfold zlen, skip. rewrite length_drop. lia. Qed.

Lemma zlen_nil b : zlen b = 0 -> b = [].
Proof. unfold zlen. destruct b; [done|cbn; lia]. Qed.

Lemma first_skip n b : first n b ++ skip n b = b.
Proof. apply take_drop. Qed.

Lemma first_all n b : zlen b <= n -> first n b = b.
Proof. unfold zlen, first. intros. apply take_ge. lia. Qed.

Lemma first_first a b l : 0 <= a -> first a (first b l) = first (Z.min a b) l.
Proof. intros. unfold first. rewrite take_take. f_equal. lia. Qed.

Lemma skip_all n b : zlen b <= n -> skip n b = [].
Proof. unfold zlen, skip. intros. apply drop_ge. lia. Qed.

Lemma skip_skip a b l : 0 <= a -> 0 <= b -> skip a (skip b l) = skip (b + a) l.
Proof. intros. unfold skip. rewrite drop_drop. f_equal. lia. Qed.

Lemma first_app_le n a b : n <= zlen a -> first n (a ++ b) = first n a.
Proof. unfold zlen, first. intros. apply take_app_le. lia. Qed.

Lemma first_app_ge n a b : zlen a <= n -> first n (a ++ b) = a ++ first (n - zlen a) b.
Proof. unfold zlen, first. intros. rewrite take_app. rewrite take_ge by lia. do 2 f_equal. lia. Qed.

Lemma skip_app_le n a b : n <= zlen a -> skip n (a ++ b) = skip n a ++ b.
Proof. unfold zlen, skip. intros. apply drop_app_le. lia. Qed.

Lemma skip_app_ge n a b : zlen a <= n -> skip n (a ++ b) = skip (n - zlen a) b.
Proof. unfold zlen, skip. intros. rewrite drop_app. rewrite drop_ge by lia. cbn. f_equal. lia. Qed.

Lemma skip_first a b l : 0 <= a -> 0 <= b -> skip a (first b l) = first (b - a) (skip a l).
Proof.
  intros. unfold skip, first. rewrite skipn_firstn_comm. f_equal. lia.
Qed.

(** Zero and one byte more than a list of a length. *)
Lemma zlen_cons a b : zlen (a :: b) = 1 + zlen b.
Proof. unfold zlen. cbn [length]. lia. Qed.

Lemma seqZ_S q : 0 <= q -> seqZ 0 (q + 1) = seqZ 0 q ++ [q].
Proof. intros. rewrite seqZ_app by lia. done. Qed.

Section rules.
Context {CRY : GoCrypto}.

Lemma zlen_sum b : zlen (sum b) = 32.
Proof.
  unfold sum. pose proof (Sum256_size (of_chars b)) as E. unfold blen in E. unfold zlen, chars.
  rewrite <- E. f_equal. generalize (Sum256 (of_chars b)). intros s. induction s; cbn; congruence.
Qed.

Lemma ChunkSize_val : ChunkSize = 65536.
Proof. reflexivity. Qed.

(** ** The record of a content *)

Definition chunk (D : bytes) (i : Z) : bytes := first ChunkSize (skip (i * ChunkSize) D).
Definition chunk_count (size : Z) : Z := (size + ChunkSize - 1) / ChunkSize.
Definition chunk_digests (D : bytes) (n : Z) : bytes := concat (map (fun i => sum (chunk D i)) (seqZ 0 n)).
Definition chunk_record (D : bytes) : bytes := chunkRecordVersion :: sum D ++ chunk_digests D (chunk_count (zlen D)).


#[local] Opaque ChunkSize first skip.

Lemma chunk_app D p i : 0 <= i -> (i + 1) * ChunkSize <= zlen D -> chunk (D ++ p) i = chunk D i.
Proof.
  intros. pose proof ChunkSize_val as C. unfold chunk.
  rewrite skip_app_le by lia. apply first_app_le. rewrite zlen_skip; lia.
Qed.

Lemma chunk_digests_app D p n : n * ChunkSize <= zlen D -> chunk_digests (D ++ p) n = chunk_digests D n.
Proof.
  intros Hn. unfold chunk_digests. apply (f_equal (@concat ascii)). apply map_ext_in. intros i Hi%list_elem_of_In%elem_of_seqZ.
  pose proof ChunkSize_val as C. by rewrite chunk_app by lia.
Qed.

Lemma chunk_digests_S D n : 0 <= n -> chunk_digests D (n + 1) = chunk_digests D n ++ sum (chunk D n).
Proof. intros. unfold chunk_digests. rewrite seqZ_S, map_app, concat_app by lia. cbn. by rewrite app_nil_r. Qed.

Lemma zlen_chunk_digests D n : 0 <= n -> zlen (chunk_digests D n) = n * 32.
Proof.
  intros Hn. revert Hn. apply (natlike_ind (fun n => zlen (chunk_digests D n) = n * 32)); [done|].
  intros m Hm IH. rewrite <- Z.add_1_r, chunk_digests_S, zlen_app, IH, zlen_sum by lia. lia.
Qed.

(** ** The digester *)

(** The chunks it has after the bytes [D]. *)
Definition digested (D : bytes) (d : chunkDigester) : Prop :=
  let q := zlen D / ChunkSize in
  d.(cd_chunk) = skip (q * ChunkSize) D /\ d.(cd_filled) = zlen D mod ChunkSize /\
  d.(cd_record) = chunkRecordVersion :: replicate 32 zero ++ chunk_digests D q.

Lemma digested_new : digested [] newChunkDigester.
Proof. done. Qed.

Lemma write_round D p d : digested D d -> p <> [] ->
  let n := Z.min (ChunkSize - d.(cd_filled)) (zlen p) in
  let filled := d.(cd_filled) + n in
  0 < n /\
  digested (D ++ first n p)
    (if filled =? ChunkSize then mkDigester d.(cd_full) [] 0 (d.(cd_record) ++ sum (d.(cd_chunk) ++ first n p))
     else mkDigester d.(cd_full) (d.(cd_chunk) ++ first n p) filled d.(cd_record)).
Proof.
  intros (Hc & Hf & Hr) Hp n filled.
  assert (Hlp : 0 < zlen p) by (destruct p; [done|]; rewrite zlen_cons; pose proof (zlen_nonneg p); lia).
  pose proof (zlen_nonneg D) as HD. set (q := zlen D / ChunkSize) in *.
  assert (Hq : zlen D = q * ChunkSize + d.(cd_filled) /\ 0 <= d.(cd_filled) < ChunkSize /\ 0 <= q).
  { rewrite Hf. unfold q. rewrite ChunkSize_val. dm_lia. }
  destruct Hq as (HqD & Hfr & Hq0).
  assert (Hn : 0 < n) by (unfold n; lia). split; [done|].
  assert (Hln : zlen (first n p) = n) by (rewrite zlen_first; unfold n; lia).
  assert (HlD : zlen (D ++ first n p) = q * ChunkSize + filled) by (rewrite zlen_app, Hln; unfold filled; lia).
  assert (Hchunk : d.(cd_chunk) ++ first n p = skip (q * ChunkSize) (D ++ first n p)) by (rewrite Hc, skip_app_le; [done|lia]).
  unfold digested. rewrite HlD. destruct (Z.eqb_spec filled ChunkSize) as [E|E]; cbn.
  - rewrite E. assert (Hq' : (q * ChunkSize + ChunkSize) / ChunkSize = q + 1) by (rewrite ChunkSize_val; dm_lia).
    rewrite Hq'. split_and!.
    + rewrite skip_all; [done|]. rewrite HlD. lia.
    + rewrite ChunkSize_val. dm_lia.
    + rewrite Hr, chunk_digests_S, chunk_digests_app by lia. 
      assert (Hlast : chunk (D ++ first n p) q = d.(cd_chunk) ++ first n p).
      { rewrite Hchunk. unfold chunk. apply first_all. rewrite zlen_skip by (rewrite ChunkSize_val; lia). rewrite HlD, E. lia. }
      by rewrite Hlast, !app_comm_cons, <- !app_assoc.
  - assert (filled < ChunkSize) by (unfold filled, n in *; lia).
    assert (Hq' : (q * ChunkSize + filled) / ChunkSize = q) by (rewrite ChunkSize_val in *; dm_lia).
    rewrite Hq'. split_and!; [done| |].
    + rewrite ChunkSize_val in *. dm_lia.
    + rewrite Hr, chunk_digests_app by lia. done.
Qed.

Lemma write_loop_digested fuel p D d : (length p <= fuel)%nat -> digested D d ->
  digested (D ++ p) (write_loop fuel p d) /\ (write_loop fuel p d).(cd_full) = d.(cd_full).
Proof.
  revert p D d. induction fuel as [|fuel IH]; intros p D d Hfuel Hd.
  - destruct p; [|cbn in Hfuel; lia]. by rewrite app_nil_r.
  - destruct p as [|x p']; [by rewrite app_nil_r|]. set (p := x :: p') in *.
    change (write_loop (S fuel) p d) with
      (let n := Z.min (ChunkSize - d.(cd_filled)) (zlen p) in
       write_loop fuel (skip n p)
         (if d.(cd_filled) + n =? ChunkSize then mkDigester d.(cd_full) [] 0 (d.(cd_record) ++ sum (d.(cd_chunk) ++ first n p))
          else mkDigester d.(cd_full) (d.(cd_chunk) ++ first n p) (d.(cd_filled) + n) d.(cd_record))).
    cbv zeta. destruct (write_round D p d Hd ltac:(done)) as [Hn Hd']. cbv zeta in Hn, Hd'.
    set (n := Z.min (ChunkSize - d.(cd_filled)) (zlen p)) in *.
    edestruct (IH (skip n p)) as [IH1 IH2]; [|exact Hd'|].
    { pose proof (zlen_skip n p ltac:(lia)) as E. unfold zlen in E. lia. }
    rewrite <- app_assoc, first_skip in IH1. split; [exact IH1|]. rewrite IH2. by destruct (_ =? _).
Qed.

Lemma digester_Write_digested D p d : digested D d -> d.(cd_full) = D ->
  digested (D ++ p) (digester_Write d p) /\ (digester_Write d p).(cd_full) = D ++ p.
Proof.
  intros Hd Hf. unfold digester_Write.
  destruct (write_loop_digested (length p) p D (mkDigester (d.(cd_full) ++ p) d.(cd_chunk) d.(cd_filled) d.(cd_record))) as [E1 E2]; [lia|exact Hd|].
  split; [exact E1|]. rewrite E2. cbn. by rewrite Hf.
Qed.

Lemma digested_stream pieces : forall D d, digested D d -> d.(cd_full) = D ->
  let d' := foldl digester_Write d pieces in digested (D ++ concat pieces) d' /\ d'.(cd_full) = D ++ concat pieces.
Proof.
  induction pieces as [|p pieces IH]; intros D d Hd Hf; cbn [foldl concat]; [by rewrite app_nil_r|].
  destruct (digester_Write_digested D p d Hd Hf) as [Hd' Hf']. rewrite app_assoc. by apply IH.
Qed.

Lemma finish_digested D d : digested D d -> d.(cd_full) = D -> finish d = (sum D, chunk_record D).
Proof.
  intros (Hc & Hf & Hr) Hfull. unfold finish. rewrite Hfull. f_equal.
  pose proof (zlen_nonneg D) as HD. set (q := zlen D / ChunkSize) in *.
  assert (E : (if 0 <? d.(cd_filled) then d.(cd_record) ++ sum d.(cd_chunk) else d.(cd_record)) =
              (chunkRecordVersion :: replicate 32 zero) ++ chunk_digests D (chunk_count (zlen D))).
  { rewrite Hr, Hf, Hc. unfold chunk_count. destruct (Z.ltb_spec 0 (zlen D mod ChunkSize)) as [Hm|Hm].
    - replace ((zlen D + ChunkSize - 1) / ChunkSize) with (q + 1) by (unfold q; rewrite ChunkSize_val in *; dm_lia).
      rewrite chunk_digests_S by (unfold q; rewrite ChunkSize_val; dm_lia). 
      assert (Hlast : chunk D q = skip (q * ChunkSize) D).
      { unfold chunk. apply first_all. rewrite zlen_skip; unfold q; rewrite ChunkSize_val in *; dm_lia. }
      by rewrite Hlast, !app_comm_cons, <- !app_assoc.
    - replace ((zlen D + ChunkSize - 1) / ChunkSize) with q by (unfold q; rewrite ChunkSize_val in *; dm_lia). done. }
  rewrite E, skip_app_ge by (cbn; reflexivity). done.
Qed.
End rules.

(** * Round trips *)

Section records.
Context {CRY : GoCrypto}.

(** The record of an upload does not depend on how its bytes arrive: after
    any sequence of writes the digester gives the SHA-256 of the whole and the
    record of the concatenation, one digest per chunk. *)
Theorem record_of_any_stream pieces :
  finish (foldl digester_Write newChunkDigester pieces) = (sum (concat pieces), chunk_record (concat pieces)).
Proof.
  destruct (digested_stream pieces [] newChunkDigester digested_new eq_refl) as [Hd Hf]. by apply finish_digested.
Qed.

Lemma chunk_count_nonneg size : 0 <= size -> 0 <= chunk_count size.
Proof. intros. unfold chunk_count. rewrite ChunkSize_val. dm_lia. Qed.

Lemma quot_chunk_count size : 0 <= size -> (size + ChunkSize - 1) `quot` ChunkSize = chunk_count size.
Proof. intros. unfold chunk_count. rewrite ChunkSize_val. apply Z.quot_div_nonneg; lia. Qed.

Lemma skip_0 b : skip 0 b = b.
Proof. apply drop_0. Qed.

Lemma skip_1 x b : skip 1 (x :: b) = b.
Proof. apply (drop_0 b). Qed.

Lemma skip_1_plus n x b : 0 <= n -> skip (1 + n) (x :: b) = skip n b.
Proof. intros. by rewrite <- (skip_skip n 1), skip_1 by lia. Qed.

Lemma first_exact a b : first (zlen a) (a ++ b) = a.
Proof. rewrite first_app_le by lia. apply first_all. lia. Qed.

Lemma skip_exact a b : skip (zlen a) (a ++ b) = b.
Proof. rewrite skip_app_ge, Z.sub_diag by lia. apply skip_0. Qed.

Lemma chunk_0 D : zlen D <= ChunkSize -> chunk D 0 = D.
Proof. intros. unfold chunk. by rewrite Z.mul_0_l, skip_0, first_all. Qed.

(** The parts of a record. *)
Lemma record_header full digests : zlen full = 32 ->
  let record := chunkRecordVersion :: full ++ digests in
  slice record 1 chunkRecordHeader = full /\ skip chunkRecordHeader record = digests.
Proof.
  intros L record. unfold slice, record. change chunkRecordHeader with (1 + 32). rewrite skip_1.
  rewrite skip_1_plus by lia. rewrite <- L, skip_exact. replace (1 + zlen full - 1) with (zlen full) by lia. by rewrite first_exact.
Qed.

(** What a stored record says, it says again when it is read. *)
Lemma parse_chunk_record D : parseChunkRecord (chunk_record D) (sum D) (zlen D) = Some (chunk_digests D (chunk_count (zlen D))).
Proof.
  pose proof (zlen_nonneg D) as HD. pose proof (chunk_count_nonneg _ HD) as Hc.
  destruct (record_header (sum D) (chunk_digests D (chunk_count (zlen D))) (zlen_sum D)) as [E1 E2].
  unfold parseChunkRecord. rewrite (quot_chunk_count _ HD).
  change (chunk_record D) with (chunkRecordVersion :: sum D ++ chunk_digests D (chunk_count (zlen D))).
  rewrite E1, E2, zlen_cons, zlen_app, zlen_sum, zlen_chunk_digests by done.
  rewrite (bool_decide_eq_true_2 (head _ = _)) by done. rewrite (bool_decide_eq_true_2 (sum D = sum D)) by done.
  change chunkRecordHeader with 33. change sha256_Size with 32.
  destruct (Z.ltb_spec (1 + (32 + chunk_count (zlen D) * 32)) 33) as [?|_]; [lia|]. rewrite Z.eqb_refl. cbn [negb orb].
  destruct (Z.eqb_spec (chunk_count (zlen D)) 0) as [E|_].
  - assert (D = []) as ->. { apply zlen_nil. unfold chunk_count in E. rewrite ChunkSize_val in E. dm_lia. }
    by rewrite bool_decide_eq_true_2 by done.
  - destruct (Z.eqb_spec (chunk_count (zlen D)) 1) as [E|_]; [|done].
    assert (zlen D <= ChunkSize). { unfold chunk_count in E. rewrite ChunkSize_val in *. dm_lia. }
    rewrite E. change (chunk_digests D 1) with (sum (chunk D 0) ++ []). rewrite app_nil_r, chunk_0 by done.
    by rewrite bool_decide_eq_true_2 by done.
Qed.
End records.

(** * Blobs *)

Lemma first_zlen n l : first (zlen (first n l)) l = first n l.
Proof.
  destruct (Z.le_gt_cases 0 n) as [Hn|Hn].
  - rewrite zlen_first by done. destruct (Z.le_gt_cases n (zlen l)).
    + by rewrite Z.min_l by lia.
    + rewrite Z.min_r by lia. rewrite !first_all by lia. done.
  - assert (E : first n l = []). { Transparent first. unfold first. replace (Z.to_nat n) with 0%nat by lia. done. }
    rewrite E. done.
Qed.
#[local] Opaque first.

Section blobs.
Context {CRY : GoCrypto}.

(** Two byte strings with one SHA-256. *)
Definition collision : Prop := exists x y, x <> y /\ sum x = sum y.

Lemma same_sum x y : sum x = sum y -> x = y \/ collision.
Proof. destruct (decide (x = y)) as [->|N]; [by left|]. right. by exists x, y. Qed.

Lemma chunk_digests_split D n i : 0 <= i < n ->
  exists rest, chunk_digests D n = chunk_digests D i ++ sum (chunk D i) ++ rest.
Proof.
  intros Hi. unfold chunk_digests. replace n with (i + (1 + (n - i - 1))) by lia.
  rewrite (seqZ_app 0 i), (seqZ_app (0 + i) 1) by lia. rewrite !map_app, !concat_app. cbn [seqZ map concat].
  change (seqZ (0 + i) 1) with [0 + i]. rewrite Z.add_0_l. cbn [map concat]. rewrite app_nil_r. by eexists.
Qed.

Lemma digest_slice D n i : 0 <= i < n -> slice (chunk_digests D n) (i * 32) ((i + 1) * 32) = sum (chunk D i).
Proof.
  intros Hi. destruct (chunk_digests_split D n i Hi) as [rest ->]. unfold slice.
  rewrite <- (zlen_chunk_digests D i) at 2 by lia. rewrite skip_exact.
  replace ((i + 1) * 32 - i * 32) with (zlen (sum (chunk D i))) by (rewrite zlen_sum; lia). apply first_exact.
Qed.

Lemma zlen_chunk D i : 0 <= i -> i * ChunkSize <= zlen D -> zlen (chunk D i) = Z.min ChunkSize (zlen D - i * ChunkSize).
Proof. intros. pose proof ChunkSize_val. unfold chunk. rewrite zlen_first, zlen_skip by lia. lia. Qed.

(** The blob stands for the content [D]: what it keeps in its buffer has the
    digest of a chunk of [D]. *)
Definition buffered_ok (D : bytes) (b : verifiedBlob) : Prop :=
  b.(vb_buffered) = -1 \/
  (0 <= b.(vb_buffered) < chunk_count (zlen D) /\ zlen b.(vb_buf) = zlen (chunk D b.(vb_buffered)) /\
   sum b.(vb_buf) = sum (chunk D b.(vb_buffered))).

Definition vouched (D : bytes) (b : verifiedBlob) : Prop :=
  b.(vb_size) = zlen D /\ b.(vb_digests) = chunk_digests D (chunk_count (zlen D)) /\ 0 <= b.(vb_offset) <= zlen D /\ buffered_ok D b.

(** A chunk that holds the byte at an offset. *)
Lemma index_of_offset D o : 0 <= o < zlen D ->
  let i := o `quot` ChunkSize in 0 <= i < chunk_count (zlen D) /\ i * ChunkSize <= o < (i + 1) * ChunkSize.
Proof. intros H. cbv zeta. unfold chunk_count. rewrite ChunkSize_val. rewrite Z.quot_div_nonneg by lia. dm_lia. Qed.

Lemma load_vouched file index D b : vouched D b -> 0 <= index < chunk_count (zlen D) ->
  let '(e, b') := load file index b in
  vouched D b' /\ b'.(vb_offset) = b.(vb_offset) /\ (e = None -> b'.(vb_buffered) = index).
Proof.
  intros Hv Hi. pose proof Hv as (Hs & Hd & Ho & Hb). unfold load.
  destruct (Z.eqb_spec index b.(vb_buffered)) as [->|_]; [done|].
  destruct (file _ _) as [got err]. set (got' := first _ got).
  assert (Hchunk : zlen (chunk D index) = Z.min ChunkSize (b.(vb_size) - index * ChunkSize)).
  { rewrite Hs. apply zlen_chunk; [lia|]. unfold chunk_count in Hi. rewrite ChunkSize_val in *. dm_lia. }
  destruct (negb (zlen got' =? _)) eqn:El; cbn.
  { repeat split; try done; cbn; try lia. by left. }
  apply negb_false_iff, Z.eqb_eq in El. change sha256_Size with 32. rewrite Hd, digest_slice by done.
  destruct (negb _) eqn:Es; cbn.
  { repeat split; try done; cbn; try lia. by left. }
  apply negb_false_iff, bool_decide_eq_true in Es.
  repeat split; try done; cbn; try lia. right. cbn. split; [done|]. split; [by rewrite El, Hchunk | done].
Qed.

(** What is copied out of a chunk is cut out of the content. *)
Lemma copy_out D i o n : 0 <= i -> i * ChunkSize <= o < (i + 1) * ChunkSize -> o <= zlen D ->
  let out := first n (skip (o - i * ChunkSize) (chunk D i)) in
  out = slice D o (o + zlen out) /\ o + zlen out <= zlen D.
Proof.
  intros Hi Ho HD. pose proof ChunkSize_val as C. cbv zeta.
  assert (E : skip (o - i * ChunkSize) (chunk D i) = first ((i + 1) * ChunkSize - o) (skip o D)).
  { unfold chunk. rewrite skip_first by lia. rewrite skip_skip by lia. f_equal; [lia|]. f_equal. lia. }
  rewrite E. set (l := skip o D). set (m := (i + 1) * ChunkSize - o).
  assert (Hl : zlen l = zlen D - o) by (unfold l; rewrite zlen_skip by lia; lia).
  assert (Hout : exists k, first n (first m l) = first k l).
  { destruct (Z.le_gt_cases 0 n) as [Hn|Hn]; [exists (Z.min n m); by apply first_first|].
    exists 0. Transparent first. unfold first. replace (Z.to_nat n) with 0%nat by lia. done. }
  destruct Hout as [k ->]. unfold slice. replace (o + zlen (first k l) - o) with (zlen (first k l)) by lia.
  split; [by rewrite first_zlen|].
  assert (zlen (first k l) <= zlen l); [|lia]. unfold zlen, first. rewrite length_take. lia.
Qed.
#[local] Opaque first.

(** *** One call *)

Inductive blob_op :=
| BRead (file : file_at) (n : Z)
| BSeek (offset whence : Z)
| BVerify (file : file_at)
| BClose.

(** What the call returned, with the offset it was at. *)
Definition blob_step (op : blob_op) (b : verifiedBlob) : option (Z * bytes) * verifiedBlob :=
  match op with
  | BRead file n => let '(out, _, b') := Read file n b in (Some (b.(vb_offset), out), b')
  | BSeek offset whence => let '(_, _, b') := Seek offset whence b in (None, b')
  | BVerify file => let '(_, b') := VerifyCurrent file b in (None, b')
  | BClose => let '(_, b') := Close b in (None, b')
  end.

Definition cut_out (D : bytes) (x : Z * bytes) : Prop := x.2 = slice D x.1 (x.1 + zlen x.2).

Lemma nothing_cut D o : cut_out D (o, []).
Proof. unfold cut_out, slice. cbn [fst snd]. change (zlen []) with 0. by replace (o + 0 - o) with 0 by lia. Qed.

Lemma vouched_offset D b o : vouched D b -> 0 <= o <= zlen D -> vouched D (set_offset o b).
Proof. intros (? & ? & _ & Hb) Ho. repeat split; try done; cbn; lia. Qed.

Lemma read_vouched file n D b : vouched D b ->
  let '(out, _, b') := Read file n b in (vouched D b' /\ cut_out D (b.(vb_offset), out)) \/ collision.
Proof.
  intros Hv. pose proof Hv as (Hs & _ & Ho & _). unfold Read.
  destruct (usable b); [left; split; [done|apply nothing_cut]|].
  destruct (Z.leb_spec b.(vb_size) b.(vb_offset)); [left; split; [done|apply nothing_cut]|].
  destruct (n =? 0); [left; split; [done|apply nothing_cut]|].
  destruct (index_of_offset D b.(vb_offset)) as [Hi Hio]; [lia|].
  pose proof (load_vouched file _ D b Hv Hi) as Hl. destruct (load _ _ b) as [[e|] b']; destruct Hl as (Hv' & Ho' & He).
  { left. split; [done|apply nothing_cut]. }
  specialize (He eq_refl). destruct Hv' as (Hs' & Hd' & Hoff' & [Hb'|(_ & _ & Hb')]); [lia|]. rewrite He in Hb'.
  destruct (same_sum _ _ Hb') as [E|]; [|by right]. left. rewrite E, Ho'.
  destruct (copy_out D (b.(vb_offset) `quot` ChunkSize) b.(vb_offset) n) as [Hcut Hend]; [lia|lia|lia|].
  split; [|exact Hcut]. apply vouched_offset; [|pose proof (zlen_nonneg (first n (skip (b.(vb_offset) - b.(vb_offset) `quot` ChunkSize * ChunkSize) (chunk D (b.(vb_offset) `quot` ChunkSize))))); lia].
  repeat split; try done; try lia. right. rewrite He, E. done.
Qed.

Lemma seek_vouched offset whence D b : vouched D b -> vouched D (Seek offset whence b).2.
Proof.
  intros Hv. pose proof Hv as (Hs & _). unfold Seek.
  assert (Hat : forall p, vouched D (if (p <? 0) || (b.(vb_size) <? p) then (0, Some ErrSeek, b) else (p, None, set_offset p b)).2).
  { intros p. destruct (_ || _) eqn:E; [done|]. bool_to_prop. apply vouched_offset; [done|lia]. }
  repeat destruct (whence =? _); auto.
Qed.

Lemma verify_vouched file D b : vouched D b -> vouched D (VerifyCurrent file b).2.
Proof.
  intros Hv. unfold VerifyCurrent. destruct (usable b); [done|].
  destruct (Z.leb_spec b.(vb_size) b.(vb_offset)); [done|].
  pose proof Hv as (Hs & _ & Ho & _). destruct (index_of_offset D b.(vb_offset)) as [Hi _]; [lia|].
  pose proof (load_vouched file _ D b Hv Hi) as Hl. destruct (load _ _ b) as [e b']. apply Hl.
Qed.

Lemma close_vouched D b : vouched D b -> vouched D (Close b).2.
Proof.
  intros (Hs & Hd & Ho & Hb). unfold Close. destruct (vb_closed b); [done|].
  repeat split; try done; cbn; try lia. by left.
Qed.

Lemma step_vouched op D b : vouched D b ->
  let '(out, b') := blob_step op b in (vouched D b' /\ match out with Some x => cut_out D x | None => True end) \/ collision.
Proof.
  intros Hv. destruct op as [file n|offset whence|file|]; cbn.
  - pose proof (read_vouched file n D b Hv) as H. by destruct (Read file n b) as [[out e] b'].
  - pose proof (seek_vouched offset whence D b Hv) as H. destruct (Seek offset whence b) as [[o e] b']. by left.
  - pose proof (verify_vouched file D b Hv) as H. destruct (VerifyCurrent file b) as [e b']. by left.
  - pose proof (close_vouched D b Hv) as H. destruct (Close b) as [e b']. by left.
Qed.

(** Everything the calls of a run returned. *)
Fixpoint serve (ops : list blob_op) (b : verifiedBlob) : list (Z * bytes) :=
  match ops with
  | [] => []
  | op :: ops => let '(out, b') := blob_step op b in from_option (fun x => [x]) [] out ++ serve ops b'
  end.

Lemma serve_vouched ops : forall D b, vouched D b -> Forall (cut_out D) (serve ops b) \/ collision.
Proof.
  induction ops as [|op ops IH]; intros D b Hv; cbn; [by left|].
  pose proof (step_vouched op D b Hv) as H. destruct (blob_step op b) as [out b'].
  destruct H as [[Hv' Hout]|]; [|by right]. destruct (IH D b' Hv') as [Hs|]; [|by right].
  left. apply Forall_app. split; [|done]. destruct out; cbn; auto.
Qed.
End blobs.

(** ** An honest file *)

Section honest.
Context {CRY : GoCrypto}.

Definition honest (D : bytes) : file_at := fun start n => (first n (skip start D), None).

Definition sound (D : bytes) (b : verifiedBlob) : Prop :=
  vouched D b /\ (b.(vb_buffered) <> -1 -> b.(vb_buf) = chunk D b.(vb_buffered)) /\ usable b = None.

Lemma load_sound D b i : sound D b -> 0 <= i < chunk_count (zlen D) ->
  let '(e, b') := load (honest D) i b in
  e = None /\ sound D b' /\ b'.(vb_buffered) = i /\ b'.(vb_offset) = b.(vb_offset).
Proof.
  intros (Hv & Hbuf & Hu) Hi. pose proof (load_vouched (honest D) i D b Hv Hi) as Hl. revert Hl.
  pose proof Hv as (Hs & Hd & Ho & _). unfold load.
  destruct (Z.eqb_spec i b.(vb_buffered)) as [->|_]; [done|]. unfold honest.
  assert (Hc : zlen (chunk D i) = Z.min ChunkSize (b.(vb_size) - i * ChunkSize)).
  { rewrite Hs. apply zlen_chunk; [lia|]. unfold chunk_count in Hi. rewrite ChunkSize_val in *. dm_lia. }
  assert (Hgot : first (Z.min ChunkSize (b.(vb_size) - i * ChunkSize)) (first (Z.min ChunkSize (b.(vb_size) - i * ChunkSize)) (skip (i * ChunkSize) D)) = chunk D i).
  { rewrite <- Hc. rewrite first_first, Z.min_id by apply zlen_nonneg. unfold chunk at 1. by rewrite first_zlen. }
  rewrite Hgot, Hc, Z.eqb_refl. change sha256_Size with 32. rewrite Hd, digest_slice by done.
  rewrite bool_decide_eq_true_2 by done. cbn [negb]. intros (Hv' & _ & _). done.
Qed.

(** What [n] bytes from an offset can get: no more than the chunk and the blob hold. *)
Lemma read_sound D b n : sound D b -> 0 < n -> b.(vb_offset) < zlen D ->
  let '(out, e, b') := Read (honest D) n b in
  e = None /\ out <> [] /\ sound D b' /\ out ++ skip b'.(vb_offset) D = skip b.(vb_offset) D /\ b.(vb_offset) < b'.(vb_offset).
Proof.
  intros Hsound Hn Hlt. pose proof Hsound as ((Hs & _ & Ho & _) & _ & Hu). unfold Read. rewrite Hu.
  destruct (Z.leb_spec b.(vb_size) b.(vb_offset)); [lia|]. destruct (Z.eqb_spec n 0); [lia|].
  destruct (index_of_offset D b.(vb_offset)) as [Hi Hio]; [lia|]. set (i := b.(vb_offset) `quot` ChunkSize) in *.
  pose proof (load_sound D b i Hsound Hi) as Hl. destruct (load _ i b) as [e b']. destruct Hl as (-> & Hsound' & Hbi & Hbo).
  pose proof Hsound' as (Hv' & Hbuf & Hu'). rewrite Hbuf, Hbi by lia.
  destruct (copy_out D i b.(vb_offset) n) as [Hcut Hend]; [lia|lia|lia|]. rewrite Hbo.
  set (out := first n _) in *.
  assert (Hout : 0 < zlen out).
  { unfold out. rewrite zlen_first, zlen_skip, zlen_chunk by lia. pose proof ChunkSize_val. lia. }
  split; [done|]. split; [intros E; rewrite E in Hout; discriminate Hout|].
  split; [|split; [|cbn; lia]].
  - split; [apply vouched_offset; [done|lia]|]. done.
  - cbn [vb_offset set_offset]. rewrite Hcut at 1. unfold slice.
    replace (b.(vb_offset) + zlen out - b.(vb_offset)) with (zlen out) by lia.
    rewrite <- (skip_skip (zlen out)) by lia. apply first_skip.
Qed.

(** [io.ReadAll] with a buffer of [n] bytes: [fuel] reads and then the end. *)
Fixpoint read_all (fuel : nat) (file : file_at) (n : Z) (b : verifiedBlob) : option bytes :=
  match fuel with
  | O => None
  | S fuel =>
    match Read file n b with
    | (out, None, b') => (fun rest => out ++ rest) <$> read_all fuel file n b'
    | (_, Some BlobEOF, _) => Some []
    | _ => None
    end
  end.

Lemma read_all_sound fuel : forall D b n, sound D b -> 0 < n -> zlen D - b.(vb_offset) < Z.of_nat fuel ->
  read_all fuel (honest D) n b = Some (skip b.(vb_offset) D).
Proof.
  induction fuel as [|fuel IH]; intros D b n Hsound Hn Hf; cbn.
  { pose proof Hsound as ((_ & _ & Ho & _) & _). lia. }
  pose proof Hsound as ((Hs & _ & Ho & _) & _ & Hu).
  destruct (Z.lt_ge_cases b.(vb_offset) (zlen D)) as [Hlt|Hge].
  - pose proof (read_sound D b n Hsound Hn Hlt) as H. destruct (Read (honest D) n b) as [[out e] b'].
    destruct H as (-> & _ & Hsound' & Hcat & Hmore). rewrite (IH D b' n Hsound' Hn) by lia. cbn. by rewrite Hcat.
  - unfold Read. rewrite Hu. destruct (Z.leb_spec b.(vb_size) b.(vb_offset)); [|lia]. by rewrite skip_all.
Qed.
End honest.
