(* ===== verification/Uploads.v ===== *)
(** * The local blob store

    [internal/uploads/local.go] and [prepared.go]: writing a blob through a
    temporary file, opening and deleting it, sweeping stale temporary files,
    and the prepared writers whose key nothing may remove.

    An operation is a sequence of atomic steps on the directory ([FileOp]); before
    each step the other operations and processes may have changed it
    ([or_env]), and a step may fail ([or_fails]), in which case it changes
    nothing.  The steps made are kept as pairs of the directory before and
    after.  A node of the directory remembers whether its content has been
    flushed, the directory whether its entries have been. *)

From S2P Require Import Prelude GoStrings Domain DeviceLinks History Chunks.
From stdpp Require Import base numbers list strings gmap fin_maps.
From Stdlib Require Import Ascii ZArith ZifyBool Lia.
Open Scope Z_scope.

Record FileNode := mkFileNode { fn_bytes : bytes; fn_synced : bool; fn_mtime : Z }.

(** The files under the root, whether all entries are flushed, and the keys
    with a prepared writer. *)
Record LocalStore := mkLocalStore { ls_files : gmap string FileNode; ls_flushed : bool; ls_active : gset string }.

Inductive upload_error := ErrFile | ErrNotExist | ErrContext | ErrBlobBusy | ErrInvalidStorageKey | ErrIntegrity | ErrUsed | ErrRegister.

Record Oracle := mkOracle { or_env : nat -> LocalStore -> LocalStore; or_fails : nat -> bool; or_now : nat -> Z }.

Definition FileOp (A : Type) : Type := Oracle -> list (LocalStore * LocalStore) * LocalStore -> A * (list (LocalStore * LocalStore) * LocalStore).
#[export] Instance FileOp_ret : MRet FileOp := fun A a _ st => (a, st).
#[export] Instance FileOp_bind : MBind FileOp := fun A B k m o st => let '(a, st) := m o st in k a o st.

(** One step; it is told whether the file system fails it, and the time. *)
Definition fs_call {A} (f : bool -> Z -> LocalStore -> A * LocalStore) : FileOp A := fun o '(tr, s) =>
  let k := length tr in
  let s := o.(or_env) k s in
  let '(a, s') := f (o.(or_fails) k) (o.(or_now) k) s in
  (a, ((s, s') :: tr, s')).

(** A system call: what it answers when it fails, and what it does. *)
Definition fs_step {A} (failed : A) (f : Z -> LocalStore -> A * LocalStore) : FileOp A :=
  fs_call (fun fails now s => if fails then (failed, s) else f now s).

(** What only happens in memory, under a lock. *)
Definition fs_lock {A} (f : LocalStore -> A * LocalStore) : FileOp A := fs_call (fun _ _ => f).

Definition set_files (f : gmap string FileNode -> gmap string FileNode) (s : LocalStore) : LocalStore :=
  mkLocalStore (f s.(ls_files)) s.(ls_flushed) s.(ls_active).
(** A change of the directory's entries. *)
Definition set_entries (f : gmap string FileNode -> gmap string FileNode) (s : LocalStore) : LocalStore :=
  mkLocalStore (f s.(ls_files)) false s.(ls_active).
Definition set_active (f : gset string -> gset string) (s : LocalStore) : LocalStore :=
  mkLocalStore s.(ls_files) s.(ls_flushed) (f s.(ls_active)).

(** ** System calls *)

(** [os.OpenFile] with [O_CREATE|O_EXCL]. *)
Definition create_file (name : string) : FileOp bool := fs_step false (fun now s =>
  match s.(ls_files) !! name with
  | Some _ => (false, s)
  | None => (true, set_entries (insert name (mkFileNode [] false now)) s)
  end).

(** The open file is written and flushed even when its name is gone. *)
Definition write_file (name : string) (p : bytes) : FileOp bool := fs_step false (fun now s =>
  (true, set_files (alter (fun n => mkFileNode (n.(fn_bytes) ++ p) false now) name) s)).

Definition sync_file (name : string) : FileOp bool := fs_step false (fun _ s =>
  (true, set_files (alter (fun n => mkFileNode n.(fn_bytes) true n.(fn_mtime)) name) s)).

Definition close_file : FileOp bool := fs_step false (fun _ s => (true, s)).

Definition rename_file (old new : string) : FileOp bool := fs_step false (fun _ s =>
  match s.(ls_files) !! old with
  | Some n => (true, set_entries (fun m => <[new := n]> (delete old m)) s)
  | None => (false, s)
  end).

(** [None] when it worked. *)
Definition remove_entry (name : string) (s : LocalStore) : option upload_error * LocalStore :=
  match s.(ls_files) !! name with
  | Some _ => (None, set_entries (delete name) s)
  | None => (Some ErrNotExist, s)
  end.
Definition remove_file (name : string) : FileOp (option upload_error) := fs_step (Some ErrFile) (fun _ => remove_entry name).

Definition syncDirectory : FileOp bool := fs_step false (fun _ s => (true, mkLocalStore s.(ls_files) true s.(ls_active))).

(** ** Keys *)

(** [filepath.Base]. *)
Definition slash : ascii := "/"%char.
Fixpoint strip_slashes (l : bytes) : bytes := match l with c :: r => if bool_decide (c = slash) then strip_slashes r else l | [] => [] end.
Fixpoint until_slash (l : bytes) : bytes := match l with c :: r => if bool_decide (c = slash) then [] else c :: until_slash r | [] => [] end.
Definition Base (path : string) : string :=
  if path =s? "" then "."
  else match strip_slashes (rev (chars path)) with [] => "/" | l => of_chars (rev (until_slash l)) end.

Definition path_of (storageKey : string) : result upload_error string :=
  if negb (Base storageKey =s? storageKey) || negb (ValidID "blob" storageKey) then Err ErrInvalidStorageKey else Ok storageKey.

Definition tmp_of (id : string) : string := (id +:+ ".tmp")%string.

Section uploads.
Context {CRY : GoCrypto}.

(** ** Writing *)

(** [io.Copy] from a body that arrives in [pieces] and then ends, or breaks
    (the connection, the context, a size limit): each piece reaches the
    digester, then the file. *)
Fixpoint copy_body (tmp : string) (pieces : list bytes) (broken : bool) (written : Z) (d : chunkDigester) : FileOp (option (Z * chunkDigester)) :=
  match pieces with
  | [] => mret (if broken then None else Some (written, d))
  | p :: pieces =>
    ok ← write_file tmp p;
    if (ok : bool) then copy_body tmp pieces broken (written + zlen p) (digester_Write d p) else mret None
  end.

(** Give up: close the file, remove what was written. *)
Definition abandon (name : string) : FileOp (result upload_error BlobRef) :=
  remove_file name ≫= fun _ => mret (Err ErrFile).

Definition putEncryptedBlob (id : string) (pieces : list bytes) (broken : bool) : FileOp (result upload_error BlobRef) :=
  let path := id in
  let tmp := tmp_of path in
  created ← create_file tmp;
  if negb created then mret (Err ErrFile)
  else
    copied ← copy_body tmp pieces broken 0 newChunkDigester;
    match copied with
    | None => close_file ≫= fun _ => abandon tmp
    | Some (written, digester) =>
      synced ← sync_file tmp;
      if negb synced then close_file ≫= fun _ => abandon tmp
      else
        closed ← close_file;
        if negb closed then abandon tmp
        else
          renamed ← rename_file tmp path;
          if negb renamed then abandon tmp
          else
            flushed ← syncDirectory;
            if negb flushed then remove_file path ≫= fun _ => syncDirectory ≫= fun _ => mret (Err ErrFile)
            else
              let '(full, record) := finish digester in
              mret (Ok (mkBlobRef id (hex_encode (of_chars full)) written (Some (of_chars record))))
    end.

(** ** Opening *)

(** A whole blob is digested in one write here; the record does not depend
    on the cut.  What opening the path gave: whether [Stat] works, the mode and the size it
    tells, what a read of it up to a length returns, and whether that breaks. *)
Record OpenFile := mkOpenFile { of_stat : bool; of_regular : bool; of_size : Z; of_content : bytes; of_broken : bool }.

Definition opened_blob (size : Z) (digests : bytes) (recomputed : option bytes) : verifiedBlob :=
  mkBlob size digests recomputed 0 [] (-1) None false.

Definition Open (os_Open : string -> option OpenFile) (ref : BlobRef) : result upload_error verifiedBlob :=
  let? path := path_of ref.(ref_StorageKey) in
  match os_Open path with
  | None => Err ErrNotExist
  | Some file =>
    if negb file.(of_stat) then Err ErrFile
    else if negb file.(of_regular) || (ref.(ref_Size) <? 0) || negb (file.(of_size) =? ref.(ref_Size)) then Err ErrIntegrity
    else
      match chars <$> DecodeString ref.(ref_SHA256) with
      | None => Err ErrIntegrity
      | Some expected =>
        if negb (zlen expected =? sha256_Size) then Err ErrIntegrity
        else
          match parseChunkRecord (chars (default ""%string ref.(ref_ChunkDigests))) expected ref.(ref_Size) with
          | Some digests => Ok (opened_blob ref.(ref_Size) digests None)
          | None =>
            let content := first ref.(ref_Size) file.(of_content) in
            if file.(of_broken) then Err ErrFile
            else
              let '(full, record) := finish (digester_Write newChunkDigester content) in
              if negb (zlen content =? ref.(ref_Size)) || negb (bool_decide (full = expected)) then Err ErrIntegrity
              else Ok (opened_blob ref.(ref_Size) (skip chunkRecordHeader record) (Some record))
          end
      end
  end.
End uploads.

(** ** Deleting and sweeping *)

Definition Delete (cancelled : bool) (storageKey : string) : FileOp (option upload_error) :=
  (* under [activeMu], so no prepared writer comes or goes between these *)
  removed ← fs_call (fun fails _ s =>
    if bool_decide (storageKey ∈ s.(ls_active)) then (Some ErrBlobBusy, s)
    else if cancelled then (Some ErrContext, s)
    else match path_of storageKey with
         | Err e => (Some e, s)
         | Ok path => if (fails : bool) then (Some ErrFile, s) else remove_entry path s
         end);
  match removed with
  | None | Some ErrNotExist => flushed ← syncDirectory; mret (if (flushed : bool) then None else Some ErrFile)
  | Some e => mret (Some e)
  end.

Definition TrimSuffix (s suffix : string) : string :=
  if HasSuffix s suffix then of_chars (take (String.length s - String.length suffix) (chars s)) else s.

(** [ctx.Err]. *)
Definition context_done : FileOp bool := fs_step true (fun _ s => (false, s)).

(** [entry.Info]: the modification time. *)
Definition stat_entry (name : string) : FileOp (result upload_error Z) := fs_step (Err ErrFile) (fun _ s =>
  (match s.(ls_files) !! name with Some n => Ok n.(fn_mtime) | None => Err ErrNotExist end, s)).

Definition remove_idle (name : string) : FileOp (option upload_error) := fs_call (fun fails _ s =>
  if bool_decide (TrimSuffix name ".tmp" ∈ s.(ls_active)) then (Some ErrBlobBusy, s)
  else if (fails : bool) then (Some ErrFile, s) else remove_entry name s).

(** The entries, in the order they are listed: names and whether they are
    directories. *)
Fixpoint sweepTemporaryEntries (entries : list (string * bool)) (olderThan removed : Z) : FileOp (Z * option upload_error) :=
  match entries with
  | [] => mret (removed, None)
  | (name, isDir) :: entries =>
    done ← context_done;
    if (done : bool) then mret (removed, Some ErrContext)
    else if isDir || negb (HasSuffix name ".tmp") then sweepTemporaryEntries entries olderThan removed
    else
      info ← stat_entry name;
      match info with
      | Err ErrNotExist => sweepTemporaryEntries entries olderThan removed
      | Err e => mret (removed, Some e)
      | Ok mtime =>
        if negb (mtime <? olderThan) then sweepTemporaryEntries entries olderThan removed
        else
          gone ← remove_idle name;
          match gone with
          | Some ErrBlobBusy | Some ErrNotExist => sweepTemporaryEntries entries olderThan removed
          | Some e => mret (removed, Some e)
          | None => sweepTemporaryEntries entries olderThan (removed + 1)
          end
      end
  end.

Definition CleanupTemporaryFiles (olderThan : Z) : FileOp (Z * option upload_error) :=
  entries ← fs_step None (fun _ s => (Some (map (fun '(name, _) => (name, false)) (map_to_list s.(ls_files))), s));
  match entries with
  | None => mret (0, Some ErrFile)
  | Some entries => sweepTemporaryEntries entries olderThan 0
  end.

(** ** Prepared writers *)

Record preparedLocalWrite := mkPrepared { pw_key : string; pw_used : bool; pw_closed : bool }.

Definition Close_prepared (w : preparedLocalWrite) : FileOp preparedLocalWrite :=
  if w.(pw_closed) then mret w
  else fs_lock (fun s => (mkPrepared w.(pw_key) w.(pw_used) true, set_active (fun k => k ∖ {[w.(pw_key)]}) s)).

(** [register] tells the database, which may refuse. *)
Definition PrepareEncryptedBlob (cancelled : bool) (key : string) (register : string -> bool) : FileOp (result upload_error preparedLocalWrite) :=
  if cancelled then mret (Err ErrContext)
  else
    fs_lock (fun s => (tt, set_active (union {[key]}) s)) ≫= fun _ =>
    let w := mkPrepared key false false in
    if register key then mret (Ok w) else Close_prepared w ≫= fun _ => mret (Err ErrRegister).

Definition Write_prepared {CRY : GoCrypto} (w : preparedLocalWrite) (pieces : list bytes) (broken : bool) : FileOp (result upload_error BlobRef * preparedLocalWrite) :=
  if w.(pw_closed) || w.(pw_used) then mret (Err ErrUsed, w)
  else
    r ← putEncryptedBlob w.(pw_key) pieces broken;
    mret (r, mkPrepared w.(pw_key) true w.(pw_closed)).
