(* ===== verification/UploadRules.v ===== *)
(** * What the blob store guarantees

    A key names nothing or the whole flushed content at every moment of a
    write, whatever fails; a key with a prepared writer loses no file to a
    deletion or a sweep; and what is read through an opened blob is what was
    uploaded under its reference.  Writes are proved with triples over the
    steps of an operation, whose conditions the interference of others must
    keep. *)

From S2P Require Import Prelude GoStrings Domain DeviceLinks History Chunks ChunkRules Uploads.
From stdpp Require Import base numbers list strings gmap fin_maps.
From Stdlib Require Import Ascii ZArith ZifyBool Lia.
Open Scope Z_scope.

(** ** Triples *)

Section triples.
Context (o : Oracle) (good : LocalStore -> Prop).

Definition steps : Type := list (LocalStore * LocalStore).
Definition condition : Type := steps -> LocalStore -> Prop.

Definition steps_good (tr : steps) : Prop := Forall (fun xy => good xy.1 /\ good xy.2) tr.

(** The interference of the others keeps it, and it is good. *)
Definition stable (P : condition) : Prop := forall tr k s, P tr s -> P tr (o.(or_env) k s) /\ good (o.(or_env) k s).

(** From a directory with [P], every step is good and the end has [Q]. *)
Definition triple {A} (P : condition) (m : FileOp A) (Q : A -> condition) : Prop :=
  forall tr s, P tr s -> steps_good tr -> let '(a, (tr', s')) := m o (tr, s) in Q a tr' s' /\ steps_good tr'.

Lemma triple_ret {A} (a : A) (Q : A -> condition) : triple (Q a) (mret a) Q.
Proof. intros tr s HP Ht. done. Qed.

Lemma triple_bind {A B} (m : FileOp A) (k : A -> FileOp B) P R Q :
  triple P m R -> (forall a, triple (R a) (k a) Q) -> triple P (m ≫= k) Q.
Proof.
  intros Hm Hk tr s HP Ht. specialize (Hm tr s HP Ht). unfold mbind, FileOp_bind.
  destruct (m o (tr, s)) as [a [tr' s']]. destruct Hm as [HR Ht']. exact (Hk a tr' s' HR Ht').
Qed.

Lemma triple_weaken {A} (P P' : condition) (m : FileOp A) Q Q' :
  triple P' m Q' -> (forall tr s, P tr s -> P' tr s) -> (forall a tr s, Q' a tr s -> Q a tr s) -> triple P m Q.
Proof.
  intros Hm HP HQ tr s H Ht. specialize (Hm tr s (HP tr s H) Ht). destruct (m o (tr, s)) as [a [tr' s']].
  destruct Hm. auto.
Qed.

Lemma triple_call {A} (f : bool -> Z -> LocalStore -> A * LocalStore) (P : condition) (Q : A -> condition) :
  stable P ->
  (forall tr s, P tr s -> let k := length tr in let '(a, s') := f (o.(or_fails) k) (o.(or_now) k) s in good s' /\ Q a ((s, s') :: tr) s') ->
  triple P (fs_call f) Q.
Proof.
  intros Hs Hf tr s HP Ht. unfold fs_call. destruct (Hs tr (length tr) s HP) as [HP' Hg].
  specialize (Hf tr _ HP'). cbv zeta in Hf. destruct (f _ _ _) as [a s']. destruct Hf as [Hg' HQ].
  split; [done|]. constructor; [by split|done].
Qed.

(** A system call: it fails and nothing changes, or it runs. *)
Lemma triple_step {A} (failed : A) (f : Z -> LocalStore -> A * LocalStore) (P : condition) (Q : A -> condition) :
  stable P -> (forall tr s, P tr s -> good s) ->
  (forall tr s, P tr s -> o.(or_fails) (length tr) = true -> Q failed ((s, s) :: tr) s) ->
  (forall tr s now, P tr s -> let '(a, s') := f now s in good s' /\ Q a ((s, s') :: tr) s') ->
  triple P (fs_step failed f) Q.
Proof.
  intros Hs Hg Hfail Hf. apply triple_call; [done|]. intros tr s HP. cbv zeta.
  destruct (or_fails o (length tr)) eqn:E; [split; eauto|]. by apply Hf.
Qed.
End triples.

(** ** Writing a blob *)

Lemma tmp_of_ne id : tmp_of id <> id.
Proof.
  intros E. apply (f_equal (fun s => length (chars s))) in E. unfold tmp_of in E. rewrite chars_app, length_app in E. cbn in E. lia.
Qed.

Section put.
Context {CRY : GoCrypto} (o : Oracle) (id : string) (D : bytes).

(** Nobody else names a file after the key; others may sweep its temporary
    file away. *)
Definition respects_key : Prop := forall k s,
  (o.(or_env) k s).(ls_files) !! id = s.(ls_files) !! id /\
  ((o.(or_env) k s).(ls_files) !! tmp_of id = s.(ls_files) !! tmp_of id \/ (o.(or_env) k s).(ls_files) !! tmp_of id = None).

(** The key names nothing, or a flushed file with the whole content. *)
Definition whole (s : LocalStore) : Prop := forall n, s.(ls_files) !! id = Some n -> n.(fn_bytes) = D /\ n.(fn_synced) = true.

(** While the temporary file is written it holds, if it is there, a part that
    has been flushed or not. *)
Definition writing (part : bytes) (flushed : bool) (_ : steps) (s : LocalStore) : Prop :=
  s.(ls_files) !! id = None /\
  forall n, s.(ls_files) !! tmp_of id = Some n -> n.(fn_bytes) = part /\ (flushed = true -> n.(fn_synced) = true).

(** The key is still free. *)
Definition absent (_ : steps) (s : LocalStore) : Prop := s.(ls_files) !! id = None.

Definition renamed (_ : steps) (s : LocalStore) : Prop :=
  (exists n, s.(ls_files) !! id = Some n /\ n.(fn_bytes) = D /\ n.(fn_synced) = true) /\ s.(ls_files) !! tmp_of id = None.

Hypothesis Hkey : respects_key.

Lemma absent_whole s : s.(ls_files) !! id = None -> whole s.
Proof. intros E n. by rewrite E. Qed.

Lemma writing_stable part flushed : stable o whole (writing part flushed).
Proof.
  intros tr k s [Hid Ht]. destruct (Hkey k s) as [E1 E2]. rewrite Hid in E1.
  split; [|by apply absent_whole]. split; [done|]. intros n Hn. destruct E2 as [E2|E2]; rewrite E2 in Hn; [eauto|done].
Qed.

Lemma absent_stable : stable o whole absent.
Proof. intros tr k s Hid. destruct (Hkey k s) as [E1 _]. rewrite Hid in E1. split; [done|by apply absent_whole]. Qed.

Lemma renamed_stable : stable o whole renamed.
Proof.
  intros tr k s [(n & Hn & HD & Hs) Ht]. destruct (Hkey k s) as [E1 E2]. rewrite Hn in E1.
  split; [split; [eauto|destruct E2; congruence]|]. intros n'. rewrite E1. by intros [= <-].
Qed.

(** One call at a time: from [writing] to the key. *)
Lemma create_spec : triple o whole absent (create_file (tmp_of id)) (fun ok tr s => if ok then writing [] false tr s else absent tr s).
Proof.
  apply triple_step; [apply absent_stable| by intros; apply absent_whole | done |].
  intros tr s now Hid. destruct (ls_files s !! tmp_of id); cbn; [split; [by apply absent_whole|done]|].
  assert (E : <[tmp_of id := mkFileNode [] false now]> (ls_files s) !! id = None) by (rewrite lookup_insert_ne; [done|apply tmp_of_ne]).
  split; [by apply absent_whole|]. split; [done|]. intros n. cbn. rewrite lookup_insert_eq. by intros [= <-].
Qed.

Lemma write_spec part p : triple o whole (writing part false) (write_file (tmp_of id) p)
  (fun ok tr s => if ok then writing (part ++ p) false tr s else absent tr s).
Proof.
  apply triple_step; [apply writing_stable| by intros tr s [? _]; apply absent_whole | by intros tr s [? _] |].
  intros tr s now [Hid Ht]. cbn.
  assert (E : alter (fun n => mkFileNode (n.(fn_bytes) ++ p) false now) (tmp_of id) (ls_files s) !! id = None)
    by (rewrite lookup_alter_ne; [done|apply tmp_of_ne]).
  split; [by apply absent_whole|]. split; [done|]. intros n. cbn. rewrite lookup_alter_eq.
  destruct (ls_files s !! tmp_of id) as [n0|] eqn:E0; [|done]. intros [= <-]. cbn. destruct (Ht n0 eq_refl) as [-> _]. done.
Qed.

Lemma sync_spec part : triple o whole (writing part false) (sync_file (tmp_of id))
  (fun ok tr s => if ok then writing part true tr s else absent tr s).
Proof.
  apply triple_step; [apply writing_stable| by intros tr s [? _]; apply absent_whole | by intros tr s [? _] |].
  intros tr s now [Hid Ht]. cbn.
  assert (E : alter (fun n => mkFileNode n.(fn_bytes) true n.(fn_mtime)) (tmp_of id) (ls_files s) !! id = None)
    by (rewrite lookup_alter_ne; [done|apply tmp_of_ne]).
  split; [by apply absent_whole|]. split; [done|]. intros n. cbn. rewrite lookup_alter_eq.
  destruct (ls_files s !! tmp_of id) as [n0|] eqn:E0; [|done]. intros [= <-]. cbn. destruct (Ht n0 eq_refl) as [-> _]. done.
Qed.

Lemma close_spec P : stable o whole P -> (forall tr s, P tr s -> whole s) -> (forall x tr s, P tr s -> P (x :: tr) s) ->
  triple o whole P close_file (fun _ => P).
Proof. intros Hs Hg Hx. apply triple_step; [done|done| auto |]. intros tr s now HP. split; [by eapply Hg|auto]. Qed.

Lemma rename_spec : triple o whole (writing D true) (rename_file (tmp_of id) id)
  (fun ok tr s => if ok then renamed tr s else absent tr s).
Proof.
  apply triple_step; [apply writing_stable| by intros tr s [? _]; apply absent_whole | by intros tr s [? _] |].
  intros tr s now [Hid Ht]. destruct (ls_files s !! tmp_of id) as [n|] eqn:E; cbn; [|split; [by apply absent_whole|done]].
  destruct (Ht n eq_refl) as [HD Hf]. specialize (Hf eq_refl). split.
  - intros n'. cbn. rewrite lookup_insert_eq. by intros [= <-].
  - split; cbn; [exists n; by rewrite lookup_insert_eq|]. rewrite lookup_insert_ne by (intros E'; symmetry in E'; by apply tmp_of_ne in E').
    apply lookup_delete_eq.
Qed.

(** Giving up leaves the key free. *)
Lemma abandon_spec : triple o whole absent (abandon (tmp_of id)) (fun r tr s => r = Err ErrFile /\ absent tr s).
Proof.
  eapply triple_bind with (R := fun _ => absent); [|intros a tr s Ha Ht; done].
  apply triple_step; [apply absent_stable| by intros; apply absent_whole | done |].
  intros tr s now Hid. unfold remove_entry. destruct (ls_files s !! tmp_of id); cbn; [|split; [by apply absent_whole|done]].
  assert (E : delete (tmp_of id) (ls_files s) !! id = None) by (rewrite lookup_delete_ne; [done|apply tmp_of_ne]).
  split; [by apply absent_whole|done].
Qed.

Lemma copy_spec pieces : forall broken part written d,
  triple o whole (writing part false) (copy_body (tmp_of id) pieces broken written d)
    (fun r tr s => match r with
       | Some (n, d') => broken = false /\ writing (part ++ concat pieces) false tr s /\ n = written + zlen (concat pieces) /\ d' = foldl digester_Write d pieces
       | None => absent tr s
       end).
Proof.
  induction pieces as [|p pieces IH]; intros broken part written d; cbn [copy_body concat foldl].
  - intros tr s HP Ht. destruct broken; cbn; [by destruct HP|]. rewrite app_nil_r. split; [|done]. split_and!; try done. unfold zlen. cbn. lia.
  - eapply triple_bind; [apply write_spec|]. intros [|]; [|intros tr s Ha Ht; done].
    eapply triple_weaken; [apply IH|done|]. intros [[n d']|] tr s; [|done].
    intros (? & ? & -> & ->). rewrite zlen_app, app_assoc. split_and!; try done. lia.
Qed.

(** After the rename: the directory is flushed, or the key is removed again. *)
Definition undone (tr : steps) (s : LocalStore) : Prop :=
  absent tr s \/ (renamed tr s /\ exists k, length tr = S k /\ o.(or_fails) k = true).

Lemma undone_stable : stable o whole undone.
Proof.
  intros tr k s [Ha|[Hr Hk]].
  - destruct (absent_stable tr k s Ha). split; [by left|done].
  - destruct (renamed_stable tr k s Hr). split; [by right|done].
Qed.

Lemma renamed_whole tr s : renamed tr s -> whole s.
Proof. intros [(n & Hn & HD & Hs) _] n'. rewrite Hn. by intros [= <-]. Qed.

Lemma flush_spec : triple o whole renamed syncDirectory (fun ok tr s => renamed tr s /\ (ok = true -> s.(ls_flushed) = true)).
Proof.
  apply triple_step; [apply renamed_stable|apply renamed_whole|done|].
  intros tr s now Hr. split; [by apply (renamed_whole tr)|]. done.
Qed.

Lemma undo_spec : triple o whole renamed (remove_file id) (fun _ => undone).
Proof.
  apply triple_step; [apply renamed_stable|apply renamed_whole| |].
  - intros tr s Hr Hf. right. split; [done|]. by exists (length tr).
  - intros tr s now [(n & Hn & _) _]. unfold remove_entry. rewrite Hn. cbn.
    assert (E : delete id (ls_files s) !! id = None) by apply lookup_delete_eq.
    split; [by apply absent_whole|]. by left.
Qed.

Lemma flush_undone_spec : triple o whole undone syncDirectory
  (fun _ tr s => absent tr s \/ (renamed tr s /\ o.(or_fails) (length tr - 2) = true)).
Proof.
  assert (Hw : forall tr s, undone tr s -> whole s) by (intros tr s [?|[? _]]; [by apply absent_whole|by apply (renamed_whole tr)]).
  assert (Hlast : forall tr s x s', undone tr s -> s'.(ls_files) = s.(ls_files) -> absent tr s' \/ (renamed tr s' /\ o.(or_fails) (length (x :: tr : steps) - 2) = true)).
  { intros tr s x s' [Ha|[[(n & Hn) Ht] (k & Hk & Hf)]] E; unfold absent, renamed; rewrite E; [by left|right].
    split; [eauto|]. replace (length (x :: tr : steps) - 2)%nat with k by (cbn [length]; lia). done. }
  apply triple_step; [apply undone_stable|exact Hw| |].
  - intros tr s Hu _. by apply (Hlast tr s).
  - intros tr s now Hu. split; [exact (Hw tr s Hu)|]. by apply (Hlast tr s).
Qed.

(** The answer, and what it says of the directory. *)
Definition put_outcome (broken : bool) (r : result upload_error BlobRef) (tr : steps) (s : LocalStore) : Prop :=
  match r with
  | Ok ref => broken = false /\ renamed tr s /\ s.(ls_flushed) = true /\
      ref = mkBlobRef id (hex_encode (of_chars (sum D))) (zlen D) (Some (of_chars (chunk_record D)))
  | Err _ => absent tr s \/ (renamed tr s /\ o.(or_fails) (length tr - 2) = true)
  end.

Lemma abandoned broken : triple o whole absent (abandon (tmp_of id)) (put_outcome broken).
Proof. eapply triple_weaken; [apply abandon_spec|done|]. intros r tr s [-> Ha]. by left. Qed.

Lemma close_abandon broken P : stable o whole P -> (forall tr s, P tr s -> absent tr s) -> (forall x tr s, P tr s -> P (x :: tr) s) ->
  triple o whole P (close_file ≫= fun _ => abandon (tmp_of id)) (put_outcome broken).
Proof.
  intros Hs Hg Hx. eapply triple_bind; [apply close_spec; [done|by intros; eapply absent_whole, Hg|done]|].
  intros ?. eapply triple_weaken; [apply (abandoned broken)|exact Hg|done].
Qed.

Lemma put_spec pieces broken : concat pieces = D -> triple o whole absent (putEncryptedBlob id pieces broken) (put_outcome broken).
Proof.
  intros HD. unfold putEncryptedBlob. eapply triple_bind; [apply create_spec|].
  intros [|]; [|intros tr s Ha Ht; split; [by left|done]]. cbn [negb].
  eapply triple_bind; [apply copy_spec|]. intros [[written d]|].
  2:{ apply close_abandon; [apply absent_stable|done|done]. }
  cbn. intros tr0 s0 (-> & Hw & -> & ->) Ht0. revert tr0 s0 Hw Ht0. rewrite HD. change (triple o whole (writing D false)
    (synced ← sync_file (tmp_of id);
      if negb synced then close_file ≫= fun _ => abandon (tmp_of id)
      else
        closed ← close_file;
        if negb closed then abandon (tmp_of id)
        else
          renamed ← rename_file (tmp_of id) id;
          if negb renamed then abandon (tmp_of id)
          else
            flushed ← syncDirectory;
            if negb flushed then remove_file id ≫= fun _ => syncDirectory ≫= fun _ => mret (Err ErrFile)
            else
              let '(full, record) := finish (foldl digester_Write newChunkDigester pieces) in
              mret (Ok (mkBlobRef id (hex_encode (of_chars full)) (0 + zlen D) (Some (of_chars record))))) (put_outcome false)).
  eapply triple_bind; [apply sync_spec|]. intros [|]; cbn [negb]; [|by apply close_abandon; [apply absent_stable|..]].
  eapply triple_bind; [apply (close_spec (writing D true)); [apply writing_stable|by intros tr s [? _]; apply absent_whole|done]|].
  intros [|]; cbn [negb]; [|eapply triple_weaken; [apply (abandoned false)|by intros tr s [? _]|done]].
  eapply triple_bind; [apply rename_spec|]. intros [|]; cbn [negb]; [|apply abandoned].
  eapply triple_bind; [apply flush_spec|]. intros [|]; cbn [negb].
  - rewrite record_of_any_stream, HD. intros tr s [Hr Hf] Ht. split; [|done]. split_and!; auto.
  - eapply triple_weaken with (P' := renamed); [|by intros tr s [? _]|intros a tr s H; exact H].
    eapply triple_bind; [apply undo_spec|]. intros ?. eapply triple_bind; [apply flush_undone_spec|].
    intros ? tr s Hd Ht. split; [|done]. exact Hd.
Qed.
End put.

(** ** Keys and digests as text *)



(** A valid key: the prefix and hexadecimal digits. *)
Lemma valid_key_chars key : ValidID "blob" key = true -> exists l, chars key = chars "blob_" ++ l /\ length l = 32%nat /\ forallb is_hex l = true.
Proof.
  unfold ValidID. destruct (HasPrefix key ("blob" +:+ "_")) eqn:Hp; [|done]. apply HasPrefix_spec in Hp as [r ->].
  rewrite chars_app. change (("blob" +:+ "_")%string) with "blob_"%string.
  destruct (Nat.eqb_spec (length (chars "blob_" ++ chars r)) (length (chars "blob_") + 32)) as [E|]; [|done]. cbn [negb orb].
  rewrite drop_app_length. intros [[_ Hh]%andb_prop _]%andb_prop. exists (chars r). rewrite length_app in E. split_and!; [done|lia|done].
Qed.






(** No key is the temporary file of another. *)
Lemma tmp_not_valid key : ValidID "blob" (tmp_of key) = false.
Proof.
  apply not_true_iff_false. intros (l & Hc & Hl & Hh)%valid_key_chars. unfold tmp_of in Hc. rewrite chars_app in Hc.
  assert (Hlast : last (chars "blob_" ++ l) = Some "p"%char) by (rewrite <- Hc; by rewrite last_app).
  rewrite last_app in Hlast. destruct (last l) as [c|] eqn:E; [|destruct l; [discriminate Hl|by apply last_None in E]].
  injection Hlast as ->. apply last_Some in E as [l' ->]. rewrite forallb_app in Hh. apply andb_prop in Hh as [_ Hh]. discriminate Hh.
Qed.

(** ** What an opened blob serves *)

Section served.
Context {CRY : GoCrypto}.



End served.

(** ** Prepared writers *)

Section every_step.
Context (R : LocalStore -> LocalStore -> Prop).

Definition every_step {A} (m : FileOp A) : Prop := forall o tr s,
  Forall (fun xy => R xy.1 xy.2) tr -> Forall (fun xy => R xy.1 xy.2) (m o (tr, s)).2.1.

Lemma every_ret {A} (a : A) : every_step (mret a).
Proof. intros o tr s Ht. exact Ht. Qed.

Lemma every_bind {A B} (m : FileOp A) (k : A -> FileOp B) : every_step m -> (forall a, every_step (k a)) -> every_step (m ≫= k).
Proof.
  intros Hm Hk o tr s Ht. specialize (Hm o tr s Ht). unfold mbind, FileOp_bind.
  destruct (m o (tr, s)) as [a [tr' s']]. exact (Hk a o tr' s' Hm).
Qed.

Lemma every_call {A} (f : bool -> Z -> LocalStore -> A * LocalStore) :
  (forall fails now s, R s (f fails now s).2) -> every_step (fs_call f).
Proof.
  intros Hf o tr s Ht. unfold fs_call. specialize (Hf (or_fails o (length tr)) (or_now o (length tr)) (or_env o (length tr) s)).
  destruct (f _ _ _) as [a s']. constructor; done.
Qed.

Context (R_refl : forall s, R s s).

Lemma every_fs_step {A} (failed : A) (f : Z -> LocalStore -> A * LocalStore) : (forall now s, R s (f now s).2) -> every_step (fs_step failed f).
Proof. intros Hf. apply every_call. intros [] now s; [apply R_refl|apply Hf]. Qed.
End every_step.

(** What a sweep does in one step: an idle temporary file may go. *)
Definition sweeps (x y : LocalStore) : Prop :=
  y.(ls_active) = x.(ls_active) /\
  forall name, y.(ls_files) !! name = x.(ls_files) !! name \/
    (y.(ls_files) !! name = None /\ HasSuffix name ".tmp" = true /\ TrimSuffix name ".tmp" ∉ x.(ls_active)).

Lemma sweeps_refl s : sweeps s s.
Proof. split; [done|]. intros name. by left. Qed.

Lemma remove_idle_sweeps name : HasSuffix name ".tmp" = true -> every_step sweeps (remove_idle name).
Proof.
  intros Hs. apply every_call. intros fails now s.
  destruct (bool_decide_reflect (TrimSuffix name ".tmp" ∈ ls_active s)); [apply sweeps_refl|].
  destruct fails; [apply sweeps_refl|]. unfold remove_entry. destruct (ls_files s !! name) eqn:E; [|apply sweeps_refl].
  split; [done|]. intros name'. cbn. destruct (decide (name' = name)) as [->|Hn]; [right; by rewrite lookup_delete_eq|left].
  by rewrite lookup_delete_ne.
Qed.

Lemma sweep_sweeps olderThan entries : forall removed, every_step sweeps (sweepTemporaryEntries entries olderThan removed).
Proof.
  induction entries as [|[name isDir] entries IH]; intros removed; cbn [sweepTemporaryEntries]; [apply every_ret|].
  apply every_bind; [apply every_fs_step; [apply sweeps_refl|intros; apply sweeps_refl]|]. intros [|]; [apply every_ret|].
  destruct (isDir || _) eqn:Hskip; [apply IH|]. apply orb_false_elim in Hskip as [_ Hsuf%negb_false_iff].
  apply every_bind; [apply every_fs_step; [apply sweeps_refl|intros; apply sweeps_refl]|].
  intros [mtime|[]]; try apply IH; try apply every_ret. destruct (negb _); [apply IH|].
  apply every_bind; [by apply remove_idle_sweeps|]. intros [[]|]; try apply IH; apply every_ret.
Qed.

Lemma trim_tmp key : TrimSuffix (tmp_of key) ".tmp" = key /\ HasSuffix (tmp_of key) ".tmp" = true.
Proof.
  assert (Hs : HasSuffix (tmp_of key) ".tmp" = true).
  { unfold HasSuffix, tmp_of. rewrite chars_app, rev_app_distr. apply bool_decide_eq_true_2. by rewrite <- length_rev, take_app_length. }
  split; [|done]. unfold TrimSuffix. rewrite Hs.
  assert (Hl : forall s, String.length s = length (chars s)) by (intros s; unfold chars; induction s; cbn; congruence).
  rewrite !Hl. unfold tmp_of. rewrite chars_app, length_app, Nat.add_sub, take_app_length. apply of_chars_chars.
Qed.

Lemma valid_no_tmp key : ValidID "blob" key = true -> HasSuffix key ".tmp" = false.
Proof.
  intros Hv. apply not_true_iff_false. intros Hs. unfold HasSuffix in Hs. apply bool_decide_eq_true in Hs.
  destruct (valid_key_chars key Hv) as (l & Hc & Hl & Hh). rewrite Hc, rev_app_distr in Hs.
  destruct (rev l) as [|c r] eqn:Er; [apply (f_equal length) in Er; rewrite length_rev, Hl in Er; discriminate Er|].
  cbn in Hs. injection Hs as -> _. assert (Hin : "p"%char ∈ l) by (rewrite list_elem_of_In, in_rev, Er; by left).
  rewrite forallb_forall in Hh. apply list_elem_of_In, Hh in Hin. discriminate Hin.
Qed.

(** The files of a key with a prepared writer stay as they are. *)
Definition keeps_busy (key : string) (x y : LocalStore) : Prop :=
  key ∈ x.(ls_active) -> key ∈ y.(ls_active) /\ y.(ls_files) !! key = x.(ls_files) !! key /\ y.(ls_files) !! tmp_of key = x.(ls_files) !! tmp_of key.

Lemma keeps_busy_refl key s : keeps_busy key s s.
Proof. done. Qed.

Lemma sweeps_busy key x y : ValidID "blob" key = true -> sweeps x y -> keeps_busy key x y.
Proof.
  intros Hv [Ha Hf] Hin. rewrite Ha. split; [done|]. split.
  - destruct (Hf key) as [?|(_ & Hs & _)]; [done|]. by rewrite valid_no_tmp in Hs.
  - destruct (Hf (tmp_of key)) as [?|(_ & _ & Hn)]; [done|]. by rewrite (proj1 (trim_tmp key)) in Hn.
Qed.

Lemma delete_busy (cancelled : bool) (key k : string) : ValidID "blob" key = true -> every_step (keeps_busy key) (Uploads.Delete cancelled k).
Proof.
  intros Hv. apply every_bind.
  - apply every_call. intros fails now s. destruct (bool_decide_reflect (k ∈ ls_active s)) as [|Hk]; [apply keeps_busy_refl|].
    destruct cancelled; [apply keeps_busy_refl|]. destruct (path_of k) as [path|e] eqn:Hp; [|apply keeps_busy_refl].
    destruct fails; [apply keeps_busy_refl|]. unfold path_of in Hp. destruct (_ || _) eqn:E; [done|]. injection Hp as <-.
    apply orb_false_elim in E as [_ Hvk%negb_false_iff]. unfold remove_entry. destruct (ls_files s !! k); [|apply keeps_busy_refl].
    intros Hin. split; [done|]. cbn. rewrite !lookup_delete_ne; [done| |congruence].
    intros E. rewrite E in Hvk. by rewrite tmp_not_valid in Hvk.
  - assert (Hflush : forall x, every_step (keeps_busy key) (flushed ← syncDirectory; mret (x (flushed : bool) : option upload_error))).
    { intros x. apply every_bind; [apply every_fs_step; [apply keeps_busy_refl|done]|intros; apply every_ret]. }
    intros [[]|]; try apply every_ret; apply (Hflush (fun b => if b then None else Some ErrFile)).
Qed.

(** * The properties *)

Section claims.
Context {CRY : GoCrypto}.

(** C14: Whatever call fails, however the body is cut, and while others work on
    other keys, a key that was free names, before and after every step of its
    write, either nothing or a flushed file with the whole content.  A write
    that succeeds leaves that file, a flushed directory and no temporary file,
    and returns the content's digest, size and record; a write that fails
    leaves the key free unless its removal failed too. *)
Theorem blob_written_whole o id pieces broken s :
  respects_key o id -> s.(ls_files) !! id = None ->
  let D := concat pieces in
  let '(r, (tr, s')) := putEncryptedBlob id pieces broken o ([], s) in
  Forall (fun xy => whole id D xy.1 /\ whole id D xy.2) tr /\
  match r with
  | Ok ref => broken = false /\ whole id D s' /\ is_Some (s'.(ls_files) !! id) /\ s'.(ls_files) !! tmp_of id = None /\ s'.(ls_flushed) = true /\
      ref = mkBlobRef id (hex_encode (of_chars (sum D))) (zlen D) (Some (of_chars (chunk_record D)))
  | Err _ => s'.(ls_files) !! id = None \/ o.(or_fails) (length tr - 2) = true
  end.
Proof.
  intros Hkey Hfree D. pose proof (put_spec o id D Hkey pieces broken eq_refl [] s Hfree (Forall_nil_2 _)) as H.
  destruct (putEncryptedBlob _ _ _ _ _) as [[ref|e] [tr s']]; destruct H as [H Htr]; (split; [exact Htr|]).
  - destruct H as (Hb & Hr & Hf & Href). pose proof (renamed_whole _ _ _ _ Hr). destruct Hr as [(n & Hn & _) Ht].
    split_and!; eauto.
  - destruct H as [H|[_ H]]; [left; exact H|by right].
Qed.



(** While a key has a prepared writer no step of a deletion, of whatever
    key, and no step of a sweep touches its file or its temporary file, however
    the other operations come in between; a sweep removes nothing but idle
    temporary files; and preparing a writer does give it the key. *)
Theorem prepared_keys_are_safe key o s : ValidID "blob" key = true ->
  (forall cancelled k, Forall (fun xy => keeps_busy key xy.1 xy.2) (Uploads.Delete cancelled k o ([], s)).2.1) /\
  (forall olderThan, Forall (fun xy => keeps_busy key xy.1 xy.2 /\ sweeps xy.1 xy.2) (CleanupTemporaryFiles olderThan o ([], s)).2.1) /\
  (forall cancelled register w st, PrepareEncryptedBlob cancelled key register o ([], s) = (Ok w, st) -> w.(pw_key) = key /\ key ∈ st.2.(ls_active)).
Proof.
  intros Hv. split_and!.
  - intros cancelled k. apply delete_busy; [done|constructor].
  - intros olderThan. assert (H : every_step sweeps (CleanupTemporaryFiles olderThan)).
    { apply every_bind; [apply every_fs_step; [apply sweeps_refl|intros; apply sweeps_refl]|].
      intros [entries|]; [apply sweep_sweeps|apply every_ret]. }
    eapply Forall_impl; [apply H; constructor|]. intros [x y] Hxy. split; [by apply sweeps_busy|done].
  - intros cancelled register w st. unfold PrepareEncryptedBlob. destruct cancelled; [done|].
    unfold mbind, FileOp_bind, fs_lock, fs_call. destruct (register key); [|by cbn]. cbn. intros [= <- <-]. cbn. set_solver.
Qed.
End claims.
