(* ===== verification/PushTargets.v ===== *)
(** * Push targets

    [internal/push/push.go] and [native.go]: which targets a subscription may
    name, the payload of each mode, and which addresses the Web Push client
    dials.  A [netip.Addr] is an IPv4 or IPv6 number (zones are dropped before
    any test), a [net.IP] its bytes. *)

From S2P Require Import Prelude GoStrings GoBase64 Domain DeviceLinks.
From stdpp Require Import base numbers list strings.
From Stdlib Require Import Ascii ZArith ZifyBool Lia.
Open Scope Z_scope.

(** ** Addresses *)

Inductive IPAddr := V4 (n : Z) | V6 (n : Z).

(** [netip.AddrFromSlice]: 4 or 16 bytes, the first the most. *)
Definition big_endian (l : list Z) : Z := foldl (fun acc b => acc * 256 + b) 0 l.
Definition AddrFromSlice (l : list Z) : option IPAddr :=
  if (length l =? 4)%nat then Some (V4 (big_endian l)) else if (length l =? 16)%nat then Some (V6 (big_endian l)) else None.

(** [::ffff:0:0/96] carries an IPv4 address. *)
Definition Unmap (a : IPAddr) : IPAddr :=
  match a with V6 n => if Z.shiftr n 32 =? 65535 then V4 (Z.land n (Z.ones 32)) else a | V4 _ => a end.

(** The first [bits] bits are those of the prefix. *)
Record IPPrefix := mkPrefix { px_addr : IPAddr; px_bits : Z }.
Definition prefix_Contains (p : IPPrefix) (a : IPAddr) : bool :=
  match p.(px_addr), a with
  | V4 x, V4 n => Z.shiftr n (32 - p.(px_bits)) =? Z.shiftr x (32 - p.(px_bits))
  | V6 x, V6 n => Z.shiftr n (128 - p.(px_bits)) =? Z.shiftr x (128 - p.(px_bits))
  | _, _ => false
  end.

Definition ip4 (a b c d : Z) : IPAddr := V4 (big_endian [a; b; c; d]).
(** The groups of an IPv6 address. *)
Definition ip6 (l : list Z) : IPAddr := V6 (foldl (fun acc g => acc * 65536 + g) 0 l).

Definition IsPrivate (a : IPAddr) : bool :=
  match a with
  | V4 n => (Z.shiftr n 24 =? 10) || (Z.shiftr n 20 =? 172 * 16 + 1) || (Z.shiftr n 16 =? 192 * 256 + 168)
  | V6 n => Z.shiftr n 121 =? 126
  end.
Definition IsLoopback (a : IPAddr) : bool := match a with V4 n => Z.shiftr n 24 =? 127 | V6 n => n =? 1 end.
Definition IsLinkLocalUnicast (a : IPAddr) : bool :=
  match a with V4 n => Z.shiftr n 16 =? 169 * 256 + 254 | V6 n => Z.shiftr n 118 =? 1018 end.
Definition IsLinkLocalMulticast (a : IPAddr) : bool :=
  match a with V4 n => Z.shiftr n 8 =? 224 * 65536 | V6 n => Z.land (Z.shiftr n 112) 65295 =? 65282 end.
Definition IsUnspecified (a : IPAddr) : bool := match a with V4 n | V6 n => n =? 0 end.
Definition IsMulticast (a : IPAddr) : bool := match a with V4 n => Z.shiftr n 28 =? 14 | V6 n => Z.shiftr n 120 =? 255 end.

Definition nonGlobalPushPrefixes : list IPPrefix :=
  [mkPrefix (ip4 0 0 0 0) 8; mkPrefix (ip4 100 64 0 0) 10; mkPrefix (ip4 192 0 0 0) 24; mkPrefix (ip4 192 0 2 0) 24;
   mkPrefix (ip4 198 18 0 0) 15; mkPrefix (ip4 198 51 100 0) 24; mkPrefix (ip4 203 0 113 0) 24; mkPrefix (ip4 240 0 0 0) 4;
   mkPrefix (ip4 255 255 255 255) 32;
   mkPrefix (ip6 [100; 65435; 0; 0; 0; 0; 0; 0]) 96; mkPrefix (ip6 [100; 65435; 1; 0; 0; 0; 0; 0]) 48; mkPrefix (ip6 [256; 0; 0; 0; 0; 0; 0; 0]) 64;
   mkPrefix (ip6 [8193; 0; 0; 0; 0; 0; 0; 0]) 32; mkPrefix (ip6 [8193; 3512; 0; 0; 0; 0; 0; 0]) 32; mkPrefix (ip6 [8194; 0; 0; 0; 0; 0; 0; 0]) 16].

Definition forbiddenPushAddress (addr : IPAddr) : bool :=
  let addr := Unmap addr in
  IsPrivate addr || IsLoopback addr || IsLinkLocalUnicast addr || IsLinkLocalMulticast addr || IsUnspecified addr || IsMulticast addr ||
  existsb (fun prefix => prefix_Contains prefix addr) nonGlobalPushPrefixes.

(** The addresses dialed in order, and the one that answered. *)
Fixpoint publicOnlyDialer (addresses : list (list Z)) (answers : list Z -> bool) : list (list Z) * option (list Z) :=
  match addresses with
  | [] => ([], None)
  | ip :: addresses =>
    match AddrFromSlice ip with
    | None => publicOnlyDialer addresses answers
    | Some addr =>
      if forbiddenPushAddress addr then publicOnlyDialer addresses answers
      else if answers ip then ([ip], Some ip)
      else let '(dialed, found) := publicOnlyDialer addresses answers in (ip :: dialed, found)
    end
  end.

(** ** Targets *)

Section targets.
Context {CRY : GoCrypto}.

(** Of the URL the code also reads the fragment and the text form. *)
Context (u_Fragment : URL -> string) (u_String : URL -> string).

Definition trim_right (s cutset : string) : string := of_chars (rev (drop_while (in_cutset cutset) (rev (chars s)))).

Definition raw_url_bytes (s : string) : option string := Base64.DecodeString Base64.RawURLEncoding (trim_right s "=").

Definition ValidateWebPushTarget (endpoint publicKey authSecret : string) : bool :=
  match url_Parse (TrimSpace endpoint) with
  | None => false
  | Some u =>
    (u.(u_Scheme) =s? "https") && negb (u.(u_Host) =s? "") && negb u.(u_User) && (u_Fragment u =s? "") && (blen (u_String u) <=? 1000) &&
    match raw_url_bytes publicKey with
    | Some key => (blen key =? 65) && bool_decide (head (chars key) = Some (ascii_of_nat 4))
    | None => false
    end &&
    match raw_url_bytes authSecret with Some secret => blen secret =? 16 | None => false end
  end.
End targets.

Definition validFCMToken (value : string) : bool :=
  let value := TrimSpace value in
  (32 <=? blen value) && (blen value <=? 4096) && negb (existsb (fun c => bool_decide (nat_of_ascii c ∈ [32; 13; 10; 9]%nat)) (chars value)).

Definition validAPNsToken (value : string) : bool := (blen value =? 64) && forallb is_hex (chars value).

Definition ValidateNativeTarget (provider token : string) : bool :=
  (provider =s? "fcm") && validFCMToken token || (provider =s? "apns") && validAPNsToken token.

(** [None]: [ErrInvalidTarget]. *)
Definition GenericPayload : list (string * string) := [("version", "v1"); ("event", "new_encrypted_event_available")]%string.
Definition GenericPayloadForMode (mode : string) : option (list (string * string)) :=
  if (mode =s? "") || (mode =s? PushNotificationLegacy) then Some GenericPayload
  else if mode =s? PushNotificationLocalDecrypt then Some [("version", "v2"); ("event", "new_encrypted_event_available"); ("presentation", "none")]%string
  else None.

(** * Only public addresses *)

(** The blocks that are not globally reachable, as ranges of numbers. *)
Definition special4 : list (Z * Z) :=
  let block a b c d bits := let n := big_endian [a; b; c; d] in (n, n + 2 ^ (32 - bits)) in
  [block 0 0 0 0 8; block 10 0 0 0 8; block 100 64 0 0 10; block 127 0 0 0 8; block 169 254 0 0 16; block 172 16 0 0 12; block 192 0 0 0 24;
   block 192 0 2 0 24; block 192 168 0 0 16; block 198 18 0 0 15; block 198 51 100 0 24; block 203 0 113 0 24; block 224 0 0 0 4; block 240 0 0 0 4].

Definition special6 : list (Z * Z) :=
  let block g1 g2 g3 bits := let n := g1 * 2 ^ 112 + g2 * 2 ^ 96 + g3 * 2 ^ 80 in (n, n + 2 ^ (128 - bits)) in
  [(0, 2); block 100 65435 0 96; block 100 65435 1 48; block 256 0 0 64; block 8193 0 0 32; block 8193 3512 0 32; block 8194 0 0 16;
   block 64512 0 0 7; block 65152 0 0 10; block 65280 0 0 8].

Definition in_range (n : Z) (r : Z * Z) : Prop := r.1 <= n < r.2.

Definition globally_reachable (a : IPAddr) : Prop :=
  match a with V4 n => Forall (fun r => ~ in_range n r) special4 | V6 n => Forall (fun r => ~ in_range n r) special6 end.

Lemma shiftr_in_block n k c : 0 <= k -> c * 2 ^ k <= n < (c + 1) * 2 ^ k -> Z.shiftr n k = c.
Proof. intros Hk H. rewrite Z.shiftr_div_pow2 by done. symmetry. apply Z.div_unique with (n - c * 2 ^ k); lia. Qed.

(** A test that failed keeps the number out of its block. *)
Lemma out_of_block n k c r : Z.shiftr n k <> c -> 0 <= k -> c * 2 ^ k = r.1 -> (c + 1) * 2 ^ k = r.2 -> ~ in_range n r.
Proof. intros Hne Hk E1 E2 [H1 H2]. apply Hne, shiftr_in_block; lia. Qed.

Ltac block_excluded :=
  match goal with
  | H : Z.shiftr ?n _ <> _ |- ~ in_range ?n _ =>
      apply (out_of_block _ _ _ _ H); [vm_compute; discriminate | vm_compute; reflexivity | vm_compute; reflexivity]
  | |- ~ in_range _ (0, 2) => intros [? ?]; cbn in *; lia
  end.

Lemma not_forbidden a : forbiddenPushAddress a = false -> globally_reachable (Unmap a).
Proof.
  unfold forbiddenPushAddress. generalize (Unmap a). clear a. intros a H. cbv zeta in H.
  destruct a as [n|n]; cbn [IsPrivate IsLoopback IsLinkLocalUnicast IsLinkLocalMulticast IsUnspecified IsMulticast
    existsb nonGlobalPushPrefixes prefix_Contains px_addr px_bits ip4 ip6] in H; bool_to_prop;
    repeat (apply Forall_cons; split; [block_excluded|]); apply Forall_nil; done.
Qed.

(** C36: The Web Push client dials only addresses that are globally reachable:
    whatever a name resolves to, every address dialed, its IPv4-mapped form
    taken for the IPv4 address it carries, lies outside the private, loopback,
    link-local, multicast and special-purpose blocks; each was among the
    resolved ones, and a connection is to the last one dialed. *)
Theorem only_public_addresses_dialed addresses answers :
  let '(dialed, found) := publicOnlyDialer addresses answers in
  Forall (fun ip => ip ∈ addresses /\ exists a, AddrFromSlice ip = Some a /\ globally_reachable (Unmap a)) dialed /\
  match found with Some ip => last dialed = Some ip /\ answers ip = true | None => Forall (fun ip => answers ip = false) dialed end.
Proof.
  induction addresses as [|ip addresses IH]; cbn [publicOnlyDialer]; [done|].
  assert (IH' : let '(dialed, found) := publicOnlyDialer addresses answers in
    Forall (fun ip' => ip' ∈ ip :: addresses /\ exists a, AddrFromSlice ip' = Some a /\ globally_reachable (Unmap a)) dialed /\
    match found with Some ip => last dialed = Some ip /\ answers ip = true | None => Forall (fun ip => answers ip = false) dialed end).
  { destruct (publicOnlyDialer addresses answers) as [dialed found]. destruct IH as [H1 H2]. split; [|exact H2].
    eapply Forall_impl; [exact H1|]. intros x [Hx ?]. split; [by right|done]. }
  destruct (AddrFromSlice ip) as [a|] eqn:Ea; [|exact IH']. destruct (forbiddenPushAddress a) eqn:Ef; [exact IH'|].
  assert (Hip : ip ∈ ip :: addresses /\ exists a, AddrFromSlice ip = Some a /\ globally_reachable (Unmap a)).
  { split; [left|]. exists a. split; [done|by apply not_forbidden]. }
  destruct (answers ip) eqn:Eans; [split; [by constructor|done]|].
  destruct (publicOnlyDialer addresses answers) as [dialed found]. destruct IH' as [H1 H2]. split; [by constructor|].
  destruct found as [ip'|]; [|by constructor]. destruct H2 as [H2 H3]. split; [|done]. destruct dialed; [done|exact H2].
Qed.

Definition parse_ok (l : list Z) : bool := match AddrFromSlice l with Some a => forbiddenPushAddress a | None => true end.

(** Addresses of the kinds the tests of the dialer name. *)
Example forbidden_addresses :
  forallb parse_ok [[10; 0; 0; 1]; [127; 0; 0; 1]; [100; 64; 0; 1]; [169; 254; 169; 254]; [172; 31; 255; 255]; [192; 168; 1; 1]; [0; 0; 0; 0];
    [224; 0; 0; 1]; [255; 255; 255; 255]; [198; 19; 0; 1];
    [0; 0; 0; 0; 0; 0; 0; 0; 0; 0; 255; 255; 10; 0; 0; 1]; [0; 0; 0; 0; 0; 0; 0; 0; 0; 0; 0; 0; 0; 0; 0; 1];
    [253; 0; 0; 0; 0; 0; 0; 0; 0; 0; 0; 0; 0; 0; 0; 1]; [254; 128; 0; 0; 0; 0; 0; 0; 0; 0; 0; 0; 0; 0; 0; 1];
    [0; 100; 255; 155; 0; 0; 0; 0; 0; 0; 0; 0; 10; 0; 0; 1]; [32; 2; 10; 0; 0; 1; 0; 0; 0; 0; 0; 0; 0; 0; 0; 1]] = true /\
  forallb (fun l => negb (parse_ok l)) [[8; 8; 8; 8]; [1; 1; 1; 1]; [172; 32; 0; 1]; [100; 128; 0; 1]; [0; 0; 0; 0; 0; 0; 0; 0; 0; 0; 255; 255; 8; 8; 8; 8];
    [38; 6; 71; 0; 0; 0; 0; 0; 0; 0; 0; 0; 0; 0; 17; 17]] = true.
Proof. split; vm_compute; reflexivity. Qed.
