(* ===== verification/Devices.v ===== *)
(** * Devices and the second link protocol

    Device revocation of [internal/storage/identity_store.go] and the device
    listing and older device links of [internal/storage/community_store.go],
    which live beside the links of [DeviceLinks] and share their limits. *)

From S2P Require Import Prelude GoStrings GoJson Domain Admission Database Conversations Messages Retention Mls MlsGroups Identity Sessions DeviceLinks History.
From stdpp Require Import base numbers list strings gmap fin_maps sorting.
From Stdlib Require Import ZArith ZifyBool Lia.
Open Scope Z_scope.

(** ** Revocation *)

Definition revoked_device (now : Z) (r : DeviceRow) : DeviceRow :=
  mkDeviceRow r.(dev_account_id) (Some (default now r.(dev_revoked_at))) r.(dev_created_at) r.(dev_last_seen_at) r.(dev_auth_secret_hash)
    r.(dev_name) r.(dev_key_package) r.(dev_signing_key).

Definition revokeDeviceTx (now enqueuedAt : Z) (accountID deviceID eventType : string) : Tx Z :=
  d ← read (fun d => d);
  let '(m, rows) := update_row d.(rooms).(devices) deviceID (fun r => r.(dev_account_id) =s? accountID) (revoked_device now) in
  on_rooms (upd_devices (fun _ => m)) ≫= fun _ =>
  guard_tx (negb (rows =? 0)) ErrNotFound ≫= fun _ =>
  delete_sessions (fun _ r => bool_decide (r.(ss_device_id) = Some deviceID)) ≫= fun _ =>
  retireDeviceLinksV3ForDevice enqueuedAt accountID deviceID ≫= fun _ =>
  eventID ← insertOptionalSyncEvent eventType (Some accountID) "" [("device_id", VStr deviceID)]%string now;
  (if negb (eventType =s? "") then
     queueMLSRevocations accountID deviceID now ≫= fun _ =>
     releaseMLSRevocationConfirmations deviceID now
   else mret tt) ≫= fun _ =>
  mret eventID.

Definition revokeDevice (now enqueuedAt : Z) (accountID deviceID eventType : string) : Tx Z :=
  transaction (revokeDeviceTx now enqueuedAt accountID deviceID eventType).

Definition RevokeDevice (now enqueuedAt : Z) (accountID deviceID : string) : Tx unit :=
  revokeDevice now enqueuedAt accountID deviceID "" ≫= fun _ => mret tt.

Definition RevokeDeviceWithSyncEvent (now enqueuedAt : Z) (accountID deviceID : string) : Tx Z :=
  revokeDevice now enqueuedAt accountID deviceID "device.revoked".

(** ** Listing *)

Definition scanDevice (id : string) (r : DeviceRow) : Device :=
  mkDevice id r.(dev_account_id) r.(dev_name) r.(dev_key_package) (default ""%string r.(dev_signing_key)) r.(dev_created_at)
    r.(dev_last_seen_at) r.(dev_revoked_at).

Definition devices_limit (limit : Z) : Z := if (limit <=? 0) || (1000 <? limit) then 100 else limit.

(** A cursor that is not a device of the account is NULL and matches nothing. *)
Definition after_device (d : DB) (accountID afterID : string) (x : Device) : bool :=
  (afterID =s? "") ||
  match d.(rooms).(devices) !! afterID with
  | Some c => (c.(dev_account_id) =s? accountID) && stamp_lt (c.(dev_created_at), afterID) (x.(device_CreatedAt), x.(device_ID))
  | None => false
  end.

Definition ListDevicesPage (d : DB) (accountID : string) (limit : Z) (afterID : string) : list Device :=
  take (Z.to_nat (devices_limit limit))
    (order_by (fun a b => stamp_le (a.(device_CreatedAt), a.(device_ID)) (b.(device_CreatedAt), b.(device_ID)))
      (List.filter (after_device d accountID afterID)
        (omap (fun '(id, r) => if r.(dev_account_id) =s? accountID then Some (scanDevice id r) else None) (map_to_list d.(rooms).(devices))))).

Definition ListDevices (d : DB) (accountID : string) : list Device := ListDevicesPage d accountID 1000 "".

(** ** Links, second protocol *)

Definition deviceLinkProtocolVersion : string := "veritra-device-link-v2".

Record DeviceLink := mkDeviceLink {
  dk_ID : string; dk_Code : string; dk_AccountID : string; dk_CreatedByDeviceID : string; dk_State : string; dk_ProtocolVersion : string;
  dk_LinkNonce : string; dk_ExistingSigningKey : string; dk_ClaimedDeviceID : string; dk_ClaimedSigningKey : string;
  dk_TranscriptHash : string; dk_ClaimTag : string; dk_ApprovalTag : string; dk_ClaimedDeviceName : option string;
  dk_ApprovedDeviceID : option string; dk_CreatedAt : Z; dk_ExpiresAt : Z; dk_ClaimedAt : option Z; dk_ApprovedAt : option Z;
  dk_ConsumedAt : option Z; dk_RevokedAt : option Z }.

Definition scanDeviceLink (id key : string) (r : DeviceLinkRow) : DeviceLink :=
  mkDeviceLink id r.(dl_code) r.(dl_account_id) (default ""%string r.(dl_created_by_device_id)) r.(dl_state) r.(dl_protocol_version)
    r.(dl_link_nonce) key (default ""%string r.(dl_claimed_device_id)) (default ""%string r.(dl_claimed_signing_key))
    (default ""%string r.(dl_claimed_transcript_hash)) (default ""%string r.(dl_claim_tag)) (default ""%string r.(dl_approval_tag))
    r.(dl_claimed_device_name) r.(dl_approved_device_id) r.(dl_created_at) r.(dl_expires_at) r.(dl_claimed_at) r.(dl_approved_at)
    r.(dl_consumed_at) r.(dl_revoked_at).

Definition hide_code (l : DeviceLink) : DeviceLink :=
  mkDeviceLink l.(dk_ID) "" l.(dk_AccountID) l.(dk_CreatedByDeviceID) l.(dk_State) l.(dk_ProtocolVersion) l.(dk_LinkNonce)
    l.(dk_ExistingSigningKey) l.(dk_ClaimedDeviceID) l.(dk_ClaimedSigningKey) l.(dk_TranscriptHash) l.(dk_ClaimTag) l.(dk_ApprovalTag)
    l.(dk_ClaimedDeviceName) l.(dk_ApprovedDeviceID) l.(dk_CreatedAt) l.(dk_ExpiresAt) l.(dk_ClaimedAt) l.(dk_ApprovedAt) l.(dk_ConsumedAt)
    l.(dk_RevokedAt).

(** The creator of the link; [live]: and not revoked. *)
Definition creator (d : DB) (live : bool) (r : DeviceLinkRow) : option DeviceRow :=
  match r.(dl_created_by_device_id) ≫= (fun dev => d.(rooms).(devices) !! dev) with
  | Some x => if negb live || device_live x then Some x else None
  | None => None
  end.

Definition link_open (state : string) (now : Z) (r : DeviceLinkRow) : bool :=
  (r.(dl_state) =s? state) && bool_decide (r.(dl_revoked_at) = None) && (now <? r.(dl_expires_at)).

(** The link of a code, which is UNIQUE. *)
Definition find_link (d : DB) (p : string -> DeviceLinkRow -> bool) : option (string * DeviceLinkRow * DeviceRow) :=
  head (omap (fun '(id, r) => if p id r then (fun x => (id, r, x)) <$> creator d true r else None) (map_to_list d.(ident).(device_links))).

Definition on_old_links (f : gmap string DeviceLinkRow -> gmap string DeviceLinkRow) : Tx unit := on_ident (upd_device_links f).

(** [code] is 64 lower-case hexadecimal digits. *)
Definition valid_link_code (code : string) : bool :=
  match DecodeString code with Some b => (blen b =? 32) && (code =s? ToLower code) | None => false end.

Definition CreateDeviceLink (newID nonce : string) (checkedAt now : Z) (accountID deviceID : string) (ttl : Z) (code : string) : Tx DeviceLink :=
  guard_tx (valid_link_code code) ErrDeviceLinkInvalid ≫= fun _ =>
  let ttl := if (ttl <=? 0) || (30 * minute <? ttl) then 10 * minute else ttl in
  transaction (
    d ← read (fun d => d);
    dev ← require (live_device d accountID deviceID) ErrUnauthorized;
    let key := default ""%string dev.(dev_signing_key) in
    guard_tx (blen key =? 32) ErrUnauthorized ≫= fun _ =>
    checkDevices accountID ≫= fun _ =>
    (if PendingDeviceLinksPerAccount <=? countPendingDeviceLinks d checkedAt accountID
     then refuse Admission.DeviceLinks ErrDeviceLinkLimit else mret tt) ≫= fun _ =>
    let expiresAt := time_add now ttl in
    guard_tx (negb (exists_in d.(ident).(device_links) newID) && exists_in d.(rooms).(accounts) accountID &&
              forallb (fun '(_, r) => negb (r.(dl_code) =s? code)) (map_to_list d.(ident).(device_links))) ErrConstraint ≫= fun _ =>
    on_old_links (insert newID (mkDeviceLinkRow code accountID (Some deviceID) DeviceLinkPending deviceLinkProtocolVersion nonce None None None
      None None None None None None None None now expiresAt None None None None)) ≫= fun _ =>
    mret (mkDeviceLink newID code accountID deviceID DeviceLinkPending deviceLinkProtocolVersion nonce key "" "" "" "" "" None None now
      expiresAt None None None None)).

Definition ClaimDeviceLink (checkedAt now : Z) (code deviceName keyPackage signingKey transcriptHash claimTag claimTokenHash authSecretHash : string)
    : Tx DeviceLink :=
  let code := TrimSpace code in
  let deviceName := TrimSpace deviceName in
  guard_tx (negb ((code =s? "") || (deviceName =s? "") || (blen keyPackage =? 0) || negb (blen signingKey =? 32) ||
                  negb (blen transcriptHash =? 32) || negb (blen claimTag =? 32) || (claimTokenHash =s? "") || (authSecretHash =s? "")))
    ErrDeviceLinkInvalid ≫= fun _ =>
  transaction (
    d ← read (fun d => d);
    row ← require (find_link d (fun _ r => (r.(dl_protocol_version) =s? deviceLinkProtocolVersion) && (r.(dl_code) =s? code) &&
                                           link_open DeviceLinkPending checkedAt r)) ErrDeviceLinkInvalid;
    let '(id, r, x) := row in
    guard_tx (bool_decide (is_Some r.(dl_claimed_device_id))) ErrDeviceLinkInvalid ≫= fun _ =>
    guard_tx (forallb (fun '(k, o) => (k =s? id) || negb (bool_decide (o.(dl_claim_token_hash) = Some claimTokenHash)))
                (map_to_list d.(ident).(device_links))) ErrConstraint ≫= fun _ =>
    let r' := mkDeviceLinkRow r.(dl_code) r.(dl_account_id) r.(dl_created_by_device_id) DeviceLinkClaimed r.(dl_protocol_version)
      r.(dl_link_nonce) r.(dl_claimed_device_id) r.(dl_claim_challenge) (Some deviceName) (Some keyPackage) (Some signingKey)
      (Some transcriptHash) (Some claimTag) r.(dl_approval_tag) (Some claimTokenHash) (Some authSecretHash) r.(dl_approved_device_id)
      r.(dl_created_at) r.(dl_expires_at) (Some now) r.(dl_approved_at) r.(dl_consumed_at) r.(dl_revoked_at) in
    on_old_links (insert id r') ≫= fun _ =>
    mret (hide_code (scanDeviceLink id (default ""%string x.(dev_signing_key)) r'))).

Definition ReserveDeviceLinkEnrollment (newDevice nonce : string) (now : Z) (code : string) : Tx EnrollmentReservationT :=
  transaction (
    d ← read (fun d => d);
    row ← require (find_link d (fun _ r => (r.(dl_protocol_version) =s? deviceLinkProtocolVersion) && (r.(dl_code) =s? TrimSpace code) &&
                                           link_open DeviceLinkPending now r && bool_decide (r.(dl_claimed_device_id) = None))) ErrDeviceLinkInvalid;
    let '(id, r, x) := row in
    let ch := encodeEnrollmentChallenge id r.(dl_account_id) newDevice nonce in
    guard_tx (forallb (fun '(_, o) => negb (bool_decide (o.(dl_claimed_device_id) = Some newDevice))) (map_to_list d.(ident).(device_links)))
      ErrConstraint ≫= fun _ =>
    on_old_links (insert id (mkDeviceLinkRow r.(dl_code) r.(dl_account_id) r.(dl_created_by_device_id) r.(dl_state) r.(dl_protocol_version)
      r.(dl_link_nonce) (Some newDevice) (Some ch) r.(dl_claimed_device_name) r.(dl_claimed_key_package) r.(dl_claimed_signing_key)
      r.(dl_claimed_transcript_hash) r.(dl_claim_tag) r.(dl_approval_tag) r.(dl_claim_token_hash) r.(dl_claimed_auth_secret_hash)
      r.(dl_approved_device_id) r.(dl_created_at) r.(dl_expires_at) r.(dl_claimed_at) r.(dl_approved_at) r.(dl_consumed_at) r.(dl_revoked_at))) ≫= fun _ =>
    mret (mkEnrollmentReservation id "device_link" r.(dl_account_id) newDevice None ch 0 r.(dl_protocol_version) r.(dl_link_nonce)
            (default ""%string r.(dl_created_by_device_id)) (default ""%string x.(dev_signing_key)))).

Definition DeviceLinkEnrollment (now : Z) (code linkID : string) : Tx EnrollmentReservationT :=
  d ← read (fun d => d);
  let id := TrimSpace linkID in
  r ← require (d.(ident).(device_links) !! id) ErrDeviceLinkInvalid;
  guard_tx ((r.(dl_code) =s? TrimSpace code) && link_open DeviceLinkPending now r) ErrDeviceLinkInvalid ≫= fun _ =>
  dev ← require r.(dl_claimed_device_id) ErrDeviceLinkInvalid;
  ch ← require r.(dl_claim_challenge) ErrDeviceLinkInvalid;
  mret (mkEnrollmentReservation id "device_link" r.(dl_account_id) dev None ch r.(dl_expires_at) "" "" "" "").

Definition DeviceLinkForAccount (linkID accountID : string) : Tx DeviceLink :=
  d ← read (fun d => d);
  r ← require (d.(ident).(device_links) !! linkID) ErrNotFound;
  guard_tx ((r.(dl_account_id) =s? accountID) && bool_decide (r.(dl_revoked_at) = None)) ErrNotFound ≫= fun _ =>
  x ← require (creator d false r) ErrNotFound;
  mret (hide_code (scanDeviceLink linkID (default ""%string x.(dev_signing_key)) r)).

Definition approved_link (now : Z) (deviceID approvalTag : string) (r : DeviceLinkRow) : DeviceLinkRow :=
  mkDeviceLinkRow r.(dl_code) r.(dl_account_id) r.(dl_created_by_device_id) DeviceLinkApproved r.(dl_protocol_version)
    r.(dl_link_nonce) r.(dl_claimed_device_id) r.(dl_claim_challenge) r.(dl_claimed_device_name) r.(dl_claimed_key_package)
    r.(dl_claimed_signing_key) r.(dl_claimed_transcript_hash) r.(dl_claim_tag) (Some approvalTag) r.(dl_claim_token_hash)
    r.(dl_claimed_auth_secret_hash) (Some deviceID) r.(dl_created_at) r.(dl_expires_at) r.(dl_claimed_at) (Some now) r.(dl_consumed_at)
    r.(dl_revoked_at).

(** A NULL secret hash does not scan into a string. *)
Definition approveDeviceLink (newPackage : string) (checkedAt now : Z) (linkID accountID transcriptHash approvalTag eventType : string)
    : Tx (DeviceLink * Device * Z) :=
  transaction (
    d ← read (fun d => d);
    row ← require (find_link d (fun id r => (id =s? linkID) && (r.(dl_account_id) =s? accountID) && link_open DeviceLinkClaimed checkedAt r))
            ErrDeviceLinkInvalid;
    let '(_, r, x) := row in
    authSecretHash ← require r.(dl_claimed_auth_secret_hash) ErrEncoding;
    let link := scanDeviceLink linkID (default ""%string x.(dev_signing_key)) r in
    let deviceName := default ""%string r.(dl_claimed_device_name) in
    let keyPackage := default ""%string r.(dl_claimed_key_package) in
    guard_tx (negb (negb (link.(dk_ProtocolVersion) =s? deviceLinkProtocolVersion) || negb (blen link.(dk_ClaimTag) =? 32) ||
                    negb (blen approvalTag =? 32) || negb (blen transcriptHash =? 32) || negb (transcriptHash =s? link.(dk_TranscriptHash))))
      ErrDeviceLinkVerificationFailed ≫= fun _ =>
    guard_tx (negb ((TrimSpace deviceName =s? "") || (blen keyPackage =? 0) || negb (blen link.(dk_ClaimedSigningKey) =? 32) ||
                    (link.(dk_ClaimedDeviceID) =s? "") || (authSecretHash =s? ""))) ErrDeviceLinkInvalid ≫= fun _ =>
    checkDevices accountID ≫= fun _ =>
    let deviceID := link.(dk_ClaimedDeviceID) in
    insert_device deviceID (mkDeviceRow accountID None now None (Some authSecretHash) deviceName keyPackage (Some link.(dk_ClaimedSigningKey))) ≫= fun _ =>
    insertInitialDeviceKeyPackage newPackage deviceID keyPackage now ≫= fun _ =>
    let r' := approved_link now deviceID approvalTag r in
    on_old_links (insert linkID r') ≫= fun _ =>
    let device := mkDevice deviceID accountID deviceName keyPackage link.(dk_ClaimedSigningKey) now None None in
    eventID ← insertOptionalSyncEvent eventType (Some accountID) "" [("device", VDevice device); ("device_link_id", VStr linkID)]%string now;
    mret (hide_code (scanDeviceLink linkID (default ""%string x.(dev_signing_key)) r'), device, eventID)).

Definition ApproveDeviceLink (newPackage : string) (checkedAt now : Z) (linkID accountID transcriptHash approvalTag : string)
    : Tx (DeviceLink * Device) :=
  x ← approveDeviceLink newPackage checkedAt now linkID accountID transcriptHash approvalTag ""; mret x.1.

Definition ApproveDeviceLinkWithSyncEvent (newPackage : string) (checkedAt now : Z) (linkID accountID transcriptHash approvalTag : string)
    : Tx (DeviceLink * Device * Z) :=
  approveDeviceLink newPackage checkedAt now linkID accountID transcriptHash approvalTag "device.updated".

Record ConsumedDeviceLink := mkConsumed { cd_AccountDevice : AccountDevice; cd_TranscriptHash : string; cd_ApprovalTag : string }.

Definition ConsumeApprovedDeviceLink (clock : nat -> Z) (linkID claimTokenHash sessionTokenHash : string) (sessionExpiresAt : Z)
    : Tx ConsumedDeviceLink :=
  guard_tx (negb ((TrimSpace linkID =s? "") || (claimTokenHash =s? "") || (sessionTokenHash =s? ""))) ErrDeviceLinkInvalid ≫= fun _ =>
  transaction (
    d ← read (fun d => d);
    p ← get_policy;
    r ← require (d.(ident).(device_links) !! linkID) ErrDeviceLinkInvalid;
    guard_tx (bool_decide (r.(dl_claim_token_hash) = Some claimTokenHash) && bool_decide (r.(dl_revoked_at) = None) &&
              (clock 0%nat <? r.(dl_expires_at))) ErrDeviceLinkInvalid ≫= fun _ =>
    (if r.(dl_state) =s? DeviceLinkApproved then mret tt
     else if open_state r.(dl_state) then throw ErrDeviceLinkNotReady else throw ErrDeviceLinkInvalid) ≫= fun _ =>
    let transcriptHash := default ""%string r.(dl_claimed_transcript_hash) in
    let approvalTag := default ""%string r.(dl_approval_tag) in
    guard_tx ((blen transcriptHash =? 32) && (blen approvalTag =? 32)) ErrDeviceLinkInvalid ≫= fun _ =>
    a ← require (d.(rooms).(accounts) !! r.(dl_account_id)) ErrDeviceLinkInvalid;
    deviceID ← require r.(dl_approved_device_id) ErrDeviceLinkInvalid;
    x ← require (d.(rooms).(devices) !! deviceID) ErrDeviceLinkInvalid;
    guard_tx (bool_decide (a.(acc_deleted_at) = None) && device_live x) ErrDeviceLinkInvalid ≫= fun _ =>
    let createdAt := clock 1%nat in
    let '(sessionExpiry, absoluteExpiry) := sessionLifetime p createdAt sessionExpiresAt in
    insert_session sessionTokenHash (new_session r.(dl_account_id) (Some deviceID) sessionExpiry createdAt (Some createdAt) absoluteExpiry) ≫= fun _ =>
    on_old_links (insert linkID (mkDeviceLinkRow r.(dl_code) r.(dl_account_id) r.(dl_created_by_device_id) DeviceLinkConsumed
      r.(dl_protocol_version) r.(dl_link_nonce) r.(dl_claimed_device_id) r.(dl_claim_challenge) r.(dl_claimed_device_name)
      r.(dl_claimed_key_package) r.(dl_claimed_signing_key) r.(dl_claimed_transcript_hash) r.(dl_claim_tag) r.(dl_approval_tag)
      r.(dl_claim_token_hash) r.(dl_claimed_auth_secret_hash) r.(dl_approved_device_id) r.(dl_created_at) r.(dl_expires_at) r.(dl_claimed_at)
      r.(dl_approved_at) (Some (clock 2%nat)) r.(dl_revoked_at))) ≫= fun _ =>
    mret (mkConsumed (mkAccountDevice (scanAccount r.(dl_account_id) a) (scanDevice deviceID x)) transcriptHash approvalTag)).
