(* ===== verification/Recovery.v ===== *)
(** * Account recovery

    [internal/storage/account_recovery_store.go]: a lost account is claimed
    with its password and recovery key, waits while one of its devices is
    active, and completes by revoking every old device before the new one
    exists.  The server holds only the verification key.  HMAC-SHA256 is a
    parameter. *)

From S2P Require Import Prelude GoStrings GoJson Domain Admission Database Conversations Mls MlsGroups Identity Sessions DeviceLinks History Devices.
From stdpp Require Import base numbers list strings gmap fin_maps sorting pretty.
From Stdlib Require Import ZArith ZifyBool Lia.
Open Scope Z_scope.

Definition RecoveryRequestUnclaimedLifetime : Z := 3 * 24 * hour.
Definition RecoveryStateWaiting : string := "waiting".
Definition RecoveryStateCompleted : string := "completed".
Definition RecoveryCancelledByOwner : string := "owner".
Definition RecoveryCancelledReplaced : string := "replaced".
Definition RecoveryCancelledKeyChanged : string := "recovery_key_changed".
Definition RecoveryCancelledCredentialsMoved : string := "credentials_changed".
Definition recoveryDecoyLabel : string := "veritra-k0-recovery-decoy-v1".
Definition recoveryAttemptsRetention : Z := 2 * 24 * hour.

(** ** Days *)

(** [t.Format("2006-01-02")]: the civil date, counted in eras of 400 years
    from a 1 March. *)
Definition civil (t : Z) : Z * Z * Z :=
  let z := t / (24 * hour) + 306 in
  let era := z / 146097 in
  let doe := z mod 146097 in
  let yoe := (doe - doe / 1460 + doe / 36524 - doe / 146096) / 365 in
  let doy := doe - (365 * yoe + yoe / 4 - yoe / 100) in
  let mp := (5 * doy + 2) / 153 in
  let m := if mp <? 10 then mp + 3 else mp - 9 in
  (yoe + era * 400 + (if m <=? 2 then 1 else 0), m, doy - (153 * mp + 2) / 5 + 1).

Definition pad (width : nat) (n : Z) : string :=
  let s := pretty n in
  (of_chars (repeat (Ascii.ascii_of_nat 48) (width - String.length s)) +:+ s)%string.

Definition format_day (t : Z) : string :=
  let '(y, m, d) := civil t in (pad 4 y +:+ "-" +:+ pad 2 m +:+ "-" +:+ pad 2 d)%string.

Definition recoveryAttemptsCutoffDay (now : Z) : string := format_day (time_add now (- recoveryAttemptsRetention)).

Section recovery.
Context (hmac_sha256 : string -> string -> string).

(** ** Reservations *)

Definition set_decoy_key (key : string) (i : InstanceRow) : InstanceRow :=
  match i.(in_recovery_decoy_key) with
  | None => mkInstanceRow i.(in_name) i.(in_created_at) (Some key)
  | Some _ => i
  end.

Definition readRecoveryDecoyKey : Tx (option string) :=
  d ← read (fun d => d);
  i ← require d.(ident).(instance) ErrRecoveryUnavailable;
  guard_tx match i.(in_recovery_decoy_key) with Some k => blen k =? 32 | None => true end ErrRecoveryUnavailable ≫= fun _ =>
  mret i.(in_recovery_decoy_key).

Definition recoveryDecoyKey (fresh : string) : Tx string :=
  key ← readRecoveryDecoyKey;
  match key with
  | Some k => mret k
  | None =>
      guard_tx (blen fresh =? 32) ErrConstraint ≫= fun _ =>
      on_ident (upd_instance (fmap (set_decoy_key fresh))) ≫= fun _ =>
      key ← readRecoveryDecoyKey;
      require key ErrRecoveryUnavailable
  end.

Definition RecoveryDecoyAccountID (key username : string) : string :=
  let sum := hmac_sha256 key (recoveryDecoyLabel +:+ of_chars [Ascii.zero] +:+ NormalizeUsername username)%string in
  ("acct_" +:+ hex_encode (of_chars (take 16 (chars sum))))%string.

(** The active account of a user name, which is UNIQUE. *)
Definition active_username (d : DB) (username : string) : option string :=
  fst <$> head (List.filter (fun '(_, a) => (a.(acc_username) =s? NormalizeUsername username) && account_live a) (map_to_list d.(rooms).(accounts))).

Definition ReserveRecoveryEnrollment (fresh newID newDevice nonce : string) (now : Z) (username : string) : Tx EnrollmentReservationT :=
  key ← recoveryDecoyKey fresh;
  d ← read (fun d => d);
  createEnrollmentReservationFor newID newDevice nonce now "recovery" None
    (default (RecoveryDecoyAccountID key username) (active_username d username)).

Definition RecoveryReservation (now : Z) (id : string) : Tx EnrollmentReservationT :=
  r ← EnrollmentReservation now id;
  guard_tx (r.(en_Kind) =s? "recovery") ErrEnrollmentInvalid ≫= fun _ =>
  mret r.

Definition RecoveryClaimRecord (accountID : string) : Tx (string * string * option string) :=
  d ← read (fun d => d);
  a ← require (d.(rooms).(accounts) !! accountID) ErrUnauthorized;
  guard_tx (account_live a) ErrUnauthorized ≫= fun _ =>
  mret (accountID, a.(acc_password_hash), ak_auth_public_key <$> d.(ident).(recovery_keys) !! accountID).

(** ** Failed attempts *)

Record RecoveryAttempt := mkRecoveryAttempt { at_Failures : Z; at_LeakEventID : Z }.

Definition RecordRecoveryAttempt (auditAt : Z) (accountID : string) (countFailure : bool) (failureCap now : Z) : Tx RecoveryAttempt :=
  let increment := if countFailure then 1 else 0 in
  let day := format_day now in
  transaction (
    d ← read (fun d => d);
    let old := default (mkRecoveryAttemptRow 0 false) (d.(ident).(recovery_attempts) !! (accountID, day)) in
    let failures := old.(ra_failures) + increment in
    let notify := (failureCap <? failures) && negb old.(ra_leak_notified) in
    on_ident (upd_recovery_attempts (insert (accountID, day) (mkRecoveryAttemptRow failures (notify || old.(ra_leak_notified))))) ≫= fun _ =>
    if notify && account_is_live d accountID then
      eventID ← insertSyncEvent "account.password_leak_suspected" (Some accountID) "" [("day", VStr day)]%string now;
      insertAuditEvent auditAt (Some accountID) "account.password_leak_suspected" [("day", VStr day)]%string ≫= fun _ =>
      mret (mkRecoveryAttempt failures eventID)
    else mret (mkRecoveryAttempt failures 0)).

(** ** Claims *)

Record RecoveryClaimInput := mkRecoveryClaimInput {
  rc_ReservationID : string; rc_AccountID : string; rc_DeviceName : string; rc_KeyPackage : string; rc_SigningKey : string;
  rc_DeviceAuthHash : string; rc_ClaimTokenHash : string; rc_VerifiedPasswordHash : string; rc_VerifiedAuthKey : string;
  rc_ActiveWindow : Z; rc_Wait : Z }.

Record RecoveryRequest := mkRecoveryRequest {
  rr_ID : string; rr_AccountID : string; rr_DeviceID : string; rr_DeviceName : string; rr_State : string; rr_CreatedAt : Z; rr_ReadyAt : Z;
  rr_ExpiresAt : Z }.

Record RecoveryClaimResult := mkRecoveryClaimResult {
  rs_Request : RecoveryRequest; rs_PendingEventID : Z; rs_ReplacedRequest : string; rs_ReplacedEventID : Z; rs_ActiveDeviceSeen : bool }.

(** The password and the recovery key are those the handler verified. *)
Definition credentials_current (d : DB) (accountID passwordHash authKey : string) : bool :=
  match d.(rooms).(accounts) !! accountID with
  | Some a => account_live a && (a.(acc_password_hash) =s? passwordHash) &&
              bool_decide (ak_auth_public_key <$> d.(ident).(recovery_keys) !! accountID = Some authKey)
  | None => false
  end.

(** A device is active: not revoked, seen within the window and with a live
    session. *)
Definition active_device (p : sessionPolicy) (d : DB) (now window : Z) (accountID : string) : bool :=
  existsb (fun '(id, x) => (x.(dev_account_id) =s? accountID) && device_live x &&
    (time_add now (- window) <? default x.(dev_created_at) x.(dev_last_seen_at)) &&
    existsb (fun '(_, r) => bool_decide (r.(ss_device_id) = Some id) && unexpired p now r) (map_to_list d.(sessions)))
    (map_to_list d.(rooms).(devices)).

(** [INSERT INTO account_recovery_requests]: one waiting request an account,
    a device and a claim token used once, keys of their sizes. *)
Definition insert_request (id : string) (r : RecoveryRequestRow) : Tx unit :=
  d ← read (fun d => d);
  guard_tx (negb (exists_in d.(ident).(recovery_requests) id) && exists_in d.(rooms).(accounts) r.(rq_account_id) &&
            (blen r.(rq_signing_key) =? 32) && (blen r.(rq_device_auth_hash) =? 64) && (blen r.(rq_claim_token_hash) =? 64) &&
            (blen r.(rq_verified_auth_key) =? 32) && bool_decide (waiting_request d r.(rq_account_id) = None) &&
            forallb (fun '(_, x) => negb (x.(rq_device_id) =s? r.(rq_device_id)) && negb (x.(rq_claim_token_hash) =s? r.(rq_claim_token_hash)))
              (map_to_list d.(ident).(recovery_requests))) ErrConstraint ≫= fun _ =>
  on_ident (upd_recovery_requests (insert id r)).

Definition recoveryPendingPayload (r : RecoveryRequest) : Payload :=
  [("request_id", VStr r.(rr_ID)); ("device_name", VStr r.(rr_DeviceName)); ("ready_at", VTime r.(rr_ReadyAt))]%string.

Definition ClaimRecovery (newID : string) (clock : nat -> Z) (input : RecoveryClaimInput) : Tx RecoveryClaimResult :=
  transaction (
    reservation ← enrollmentReservationForTx (clock 0%nat) input.(rc_ReservationID) "recovery";
    guard_tx (reservation.(en_AccountID) =s? input.(rc_AccountID)) ErrEnrollmentInvalid ≫= fun _ =>
    d ← read (fun d => d);
    p ← get_policy;
    guard_tx (credentials_current d input.(rc_AccountID) input.(rc_VerifiedPasswordHash) input.(rc_VerifiedAuthKey)) ErrUnauthorized ≫= fun _ =>
    consumeEnrollmentReservation (clock 1%nat) (clock 2%nat) reservation.(en_ID) ≫= fun _ =>
    let now := clock 3%nat in
    let active := active_device p d now input.(rc_ActiveWindow) input.(rc_AccountID) in
    let readyAt := if active then time_add now input.(rc_Wait) else now in
    replaced ← cancelWaitingRecoveryTx now (clock 4%nat) input.(rc_AccountID) RecoveryCancelledReplaced;
    let request := mkRecoveryRequest newID input.(rc_AccountID) reservation.(en_DeviceID) (TrimSpace input.(rc_DeviceName)) RecoveryStateWaiting
      now readyAt (time_add readyAt RecoveryRequestUnclaimedLifetime) in
    insert_request newID (mkRecoveryRequestRow request.(rr_AccountID) request.(rr_DeviceID) request.(rr_DeviceName) input.(rc_KeyPackage)
      input.(rc_SigningKey) input.(rc_DeviceAuthHash) input.(rc_ClaimTokenHash) input.(rc_VerifiedPasswordHash) input.(rc_VerifiedAuthKey)
      "waiting" now request.(rr_ReadyAt) request.(rr_ExpiresAt) None None) ≫= fun _ =>
    eventID ← insertSyncEvent "account.recovery.pending" (Some request.(rr_AccountID)) "" (recoveryPendingPayload request) now;
    mret (mkRecoveryClaimResult request eventID replaced.1 replaced.2 active)).

(** ** Completion *)

Record RecoveryCompletion := mkRecoveryCompletion {
  rx_State : string; rx_ReadyAt : Z; rx_Account : option Account; rx_Device : option Device; rx_SessionIssued : bool;
  rx_RevokedDevices : list string; rx_RevokedEventIDs : list Z; rx_RecoveredEventID : Z }.

Definition completedRecovery (record : RecoveryRequestRow) : Tx RecoveryCompletion :=
  d ← read (fun d => d);
  a ← require (d.(rooms).(accounts) !! record.(rq_account_id)) ErrNoRows;
  x ← require (d.(rooms).(devices) !! record.(rq_device_id)) ErrNoRows;
  guard_tx (x.(dev_account_id) =s? record.(rq_account_id)) ErrNoRows ≫= fun _ =>
  mret (mkRecoveryCompletion RecoveryStateCompleted record.(rq_ready_at) (Some (scanAccount record.(rq_account_id) a))
          (Some (scanDevice record.(rq_device_id) x)) false [] [] 0).

Definition activeDeviceIDsTx (d : DB) (accountID : string) : list string :=
  order_by str_le (List.filter (fun '(_, x) => (x.(dev_account_id) =s? accountID) && device_live x) (map_to_list d.(rooms).(devices))).*1.

Fixpoint revoke_all (now enqueuedAt : Z) (accountID : string) (ids : list string) : Tx (list Z) :=
  match ids with
  | [] => mret []
  | id :: ids =>
      eventID ← revokeDeviceTx now enqueuedAt accountID id "device.revoked";
      rest ← revoke_all now enqueuedAt accountID ids;
      mret (eventID :: rest)
  end.

(** [UPDATE devices SET revoked_at = ? WHERE account_id = ? AND revoked_at IS
    NULL] *)
Definition mark_all_revoked (now : Z) (accountID : string) : Tx unit :=
  on_rooms (upd_devices (fmap (fun r => if (r.(dev_account_id) =s? accountID) && device_live r then revoked_device now r else r))).

(** The device takes over the account: every old device and session goes,
    then the new device comes with its first session. *)
Definition take_over (newPackage : string) (clock : nat -> Z) (id sessionTokenHash : string) (record : RecoveryRequestRow) : Tx RecoveryCompletion :=
  let now := clock 0%nat in
  let accountID := record.(rq_account_id) in
  d ← read (fun d => d);
  p ← get_policy;
  let oldDevices := activeDeviceIDsTx d accountID in
  mark_all_revoked now accountID ≫= fun _ =>
  revoked ← revoke_all now (clock 1%nat) accountID oldDevices;
  delete_sessions (fun _ r => (r.(ss_account_id) =s? accountID) && bool_decide (r.(ss_device_id) = None)) ≫= fun _ =>
  insert_device record.(rq_device_id) (mkDeviceRow accountID None now None (Some record.(rq_device_auth_hash)) record.(rq_device_name)
    record.(rq_key_package) (Some record.(rq_signing_key))) ≫= fun _ =>
  insertInitialDeviceKeyPackage newPackage record.(rq_device_id) record.(rq_key_package) now ≫= fun _ =>
  let '(idleExpiry, absoluteExpiry) := sessionLifetime p now 0 in
  insert_session sessionTokenHash (new_session accountID (Some record.(rq_device_id)) idleExpiry now None absoluteExpiry) ≫= fun _ =>
  set_waiting id (with_request_state "completed" record.(rq_cancelled_by) (Some now)) ≫= fun _ =>
  eventID ← insertSyncEvent "account.recovered" (Some accountID) ""
    [("device_id", VStr record.(rq_device_id)); ("revoked", VStrs oldDevices)]%string now;
  insertAuditEvent (clock 2%nat) (Some accountID) "account.recovered"
    [("request_id", VStr id); ("device_id", VStr record.(rq_device_id)); ("revoked", VStrs oldDevices)]%string ≫= fun _ =>
  done ← completedRecovery record;
  mret (mkRecoveryCompletion RecoveryStateCompleted record.(rq_ready_at) done.(rx_Account) done.(rx_Device) true oldDevices revoked eventID).

(** Some refusals commit a change of the request first: the transaction
    answers with the result of the call. *)
Definition CompleteRecovery (newPackage : string) (clock : nat -> Z) (id claimTokenHash sessionTokenHash : string) : Tx RecoveryCompletion :=
  let id := TrimSpace id in
  let now := clock 0%nat in
  answer ← transaction (
    d ← read (fun d => d);
    record ← require (d.(ident).(recovery_requests) !! id) ErrNotFound;
    guard_tx (record.(rq_claim_token_hash) =s? claimTokenHash) ErrNotFound ≫= fun _ =>
    if record.(rq_state) =s? RecoveryStateCompleted then c ← completedRecovery record; mret (Ok c)
    else if negb (record.(rq_state) =s? RecoveryStateWaiting) then throw ErrRecoveryCancelled
    else if negb (time_after record.(rq_expires_at) now) then
      set_waiting id (fun r => with_request_state "expired" r.(rq_cancelled_by) r.(rq_completed_at) r) ≫= fun _ =>
      mret (Err ErrRecoveryCancelled)
    else if time_after record.(rq_ready_at) now then
      mret (Ok (mkRecoveryCompletion RecoveryStateWaiting record.(rq_ready_at) None None false [] [] 0))
    else
      a ← require (d.(rooms).(accounts) !! record.(rq_account_id)) ErrRecoveryCancelled;
      guard_tx (account_live a) ErrRecoveryCancelled ≫= fun _ =>
      let authKey := default ""%string (ak_auth_public_key <$> d.(ident).(recovery_keys) !! record.(rq_account_id)) in
      if negb (a.(acc_password_hash) =s? record.(rq_verified_password_hash)) || negb (authKey =s? record.(rq_verified_auth_key)) then
        set_waiting id (fun r => with_request_state "cancelled" (Some RecoveryCancelledCredentialsMoved) r.(rq_completed_at) r) ≫= fun _ =>
        mret (Err ErrRecoveryCancelled)
      else c ← take_over newPackage clock id sessionTokenHash record; mret (Ok c));
  match answer with Ok c => mret c | Err e => throw e end.

Definition CancelRecoveryRequest (now : Z) (accountID id : string) : Tx Z :=
  transaction (
    d ← read (fun d => d);
    r ← require (d.(ident).(recovery_requests) !! TrimSpace id) ErrNotFound;
    guard_tx ((r.(rq_account_id) =s? accountID) && (r.(rq_state) =s? "waiting")) ErrNotFound ≫= fun _ =>
    c ← cancelWaitingRecoveryRequestTx now accountID RecoveryCancelledByOwner;
    mret c.2).

(** ** The recovery key *)

Record RecoveryKeyResult := mkRecoveryKeyResult { rk_EventID : Z; rk_CancelledRequestID : string; rk_CancelledEventID : Z }.

Definition SetRecoveryKey (now auditAt : Z) (accountID authPublicKey rkID : string) : Tx RecoveryKeyResult :=
  guard_tx (negb (negb (blen authPublicKey =? 32) || negb (blen rkID =? 16))) ErrInvalidInput ≫= fun _ =>
  transaction (
    d ← read (fun d => d);
    guard_tx (account_is_live d accountID) ErrNotFound ≫= fun _ =>
    on_ident (upd_recovery_keys (insert accountID (mkRecoveryKeyRow authPublicKey rkID now))) ≫= fun _ =>
    c ← cancelWaitingRecoveryTx now auditAt accountID RecoveryCancelledKeyChanged;
    eventID ← insertSyncEvent "account.recovery_key.set" (Some accountID) "" [("rk_id", VBytes rkID)]%string now;
    mret (mkRecoveryKeyResult eventID c.1 c.2)).

Record RecoveryKeyStatusT := mkRecoveryKeyStatus {
  ks_Configured : bool; ks_RKID : string; ks_SetAt : option Z; ks_Pending : option RecoveryRequest }.

Definition RecoveryKeyStatus (d : DB) (now : Z) (accountID : string) : RecoveryKeyStatusT :=
  let key := d.(ident).(recovery_keys) !! accountID in
  let pending := head (List.filter (fun '(_, r) => (r.(rq_account_id) =s? accountID) && (r.(rq_state) =s? "waiting") && (now <? r.(rq_expires_at)))
                         (map_to_list d.(ident).(recovery_requests))) in
  mkRecoveryKeyStatus (bool_decide (is_Some key)) (default ""%string (ak_rk_id <$> key)) (ak_created_at <$> key)
    ((fun '(id, r) => mkRecoveryRequest id r.(rq_account_id) r.(rq_device_id) r.(rq_device_name) r.(rq_state) r.(rq_created_at)
                        r.(rq_ready_at) r.(rq_expires_at)) <$> pending).

End recovery.

(** ** A completion that issues a session *)

(** The request and the account such a completion finds. *)
Record completes (clock : nat -> Z) (t : string) (d : DB) (record : RecoveryRequestRow) (a : AccountRow) : Prop := {
  cp_token : record.(rq_claim_token_hash) = t;
  cp_waiting : record.(rq_state) = "waiting"%string;
  cp_ready : record.(rq_ready_at) <= clock 0%nat < record.(rq_expires_at);
  cp_account : d.(rooms).(accounts) !! record.(rq_account_id) = Some a;
  cp_live : account_live a = true;
  cp_password : a.(acc_password_hash) = record.(rq_verified_password_hash);
  cp_key : default ""%string (ak_auth_public_key <$> d.(ident).(recovery_keys) !! record.(rq_account_id)) = record.(rq_verified_auth_key) }.

Lemma CompleteRecovery_issued pk clock id t tok s c s' :
  CompleteRecovery pk clock id t tok s = (Ok c, s') -> c.(rx_SessionIssued) = true ->
  exists record a, s.(db).(ident).(recovery_requests) !! TrimSpace id = Some record /\ completes clock t s.(db) record a /\
    take_over pk clock (TrimSpace id) tok record s = (Ok c, s').
Proof.
  intros H Hi. unfold CompleteRecovery in H. run H. destruct a as [c'|e]; run H. run Hrun.
  rename a into record, Hrun0 into Hr, Hrun1 into Ht. apply str_eqb_true in Ht.
  destruct (_ =s? RecoveryStateCompleted).
  { unfold completedRecovery in Hrun. run Hrun. by run Hrun0. }
  destruct (negb (_ =s? RecoveryStateWaiting)) eqn:Ew; [done|]. apply negb_false_iff, str_eqb_true in Ew.
  destruct (negb (time_after _ _)) eqn:Ee; [by apply bind_ok in Hrun as (? & ? & _ & [=])|].
  destruct (time_after (rq_ready_at _) _) eqn:Ey; [by injection Hrun as <- <-|].
  run Hrun. rename a into acct, Hrun0 into Ha, Hrun1 into Hl. destruct (_ || _) eqn:Ec; [by apply bind_ok in Hrun as (? & ? & _ & [=])|].
  run Hrun.
  apply orb_false_iff in Ec as [Ep Ek]. apply negb_false_iff, str_eqb_true in Ep, Ek. unfold time_after in Ee, Ey.
  exists record, acct. split; [done|]. split; [|done]. split; try done. lia.
Qed.
