(* ===== verification/Accounts.v ===== *)
(** * Account deletion and housekeeping

    [DeleteAccountData] of [internal/storage/account_store.go], which scrubs
    an account in one transaction and queues its blobs, the account listing
    of [admin_store.go], and [PruneOperationalRows] of [content_store.go],
    which removes what has expired, at most 500 rows of each kind a run. *)

From S2P Require Import Prelude GoStrings GoJson Domain Admission Database Conversations Messages Retention PushWake Mls MlsGroups Blobs Identity Sessions DeviceLinks History Devices Recovery.
From stdpp Require Import base numbers list strings gmap fin_maps sorting.
From Stdlib Require Import ZArith ZifyBool Lia.
Open Scope Z_scope.

(** ** Deletion *)

(** Every device of the account, revoked ones included. *)
Definition accountDeviceIDs (d : DB) (accountID : string) : list string :=
  order_by str_le (List.filter (fun '(_, x) => x.(dev_account_id) =s? accountID) (map_to_list d.(rooms).(devices))).*1.

(** The blobs of the account, attachments before backups. *)
Definition account_blobs (d : DB) (accountID : string) : list string :=
  omap (fun '(_, r) => if r.(at_owner) =s? accountID then Some r.(at_storage_key) else None) (map_to_list d.(content).(attachments)) ++
  omap (fun '(_, r) => if r.(bk_account_id) =s? accountID then Some r.(bk_storage_key) else None) (map_to_list d.(backups)).

Definition scrubbed_device (now : Z) (r : DeviceRow) : DeviceRow :=
  mkDeviceRow r.(dev_account_id) (Some (default now r.(dev_revoked_at))) r.(dev_created_at) r.(dev_last_seen_at) None "Deleted device" "" None.

Definition terminal_call (state : string) : bool := (state =s? "rejected") || (state =s? "missed") || (state =s? "ended").

Definition ended_call (now callExpiry : Z) (c : CallSession) : CallSession :=
  mkCallSession c.(call_ID) c.(call_ConversationID) c.(call_CreatedBy) c.(call_InvitedAccountID) "ended" (c.(call_Version) + 1) c.(call_Metadata)
    c.(call_CreatedAt) (Some now) (Some callExpiry) c.(call_CreateActionID) c.(call_CreateActionHash) c.(call_LastActionID) c.(call_LastActionHash).
Definition scrubbed_call (c : CallSession) : CallSession :=
  mkCallSession c.(call_ID) c.(call_ConversationID) c.(call_CreatedBy) c.(call_InvitedAccountID) c.(call_State) c.(call_Version) "{}"
    c.(call_CreatedAt) c.(call_EndedAt) c.(call_ExpiresAt) c.(call_CreateActionID) c.(call_CreateActionHash) c.(call_LastActionID)
    c.(call_LastActionHash).

(** [replace(id, '_', '')] *)
Definition without_underscores (id : string) : string :=
  of_chars (List.filter (fun c => negb (Ascii.eqb c (Ascii.ascii_of_nat 95))) (chars id)).

Definition deleted_account (now : Z) (id : string) (a : AccountRow) : AccountRow :=
  mkAccountRow ("deleted_" +:+ without_underscores id)%string a.(acc_role) "deleted" (Some (default now a.(acc_deleted_at)))
    a.(acc_send_read_receipts) "!" None a.(acc_created_at).

(** The subscriptions of the account go, and their wake jobs with them. *)
Definition delete_subscriptions (gone : string -> PushSubscriptionRow -> bool) : Tx unit :=
  d ← read (fun d => d);
  let gone_id id := match d.(push).(push_subscriptions) !! id with Some r => gone id r | None => false end in
  modify (upd_push (upd_push_subscriptions (filter (fun '(id, r) => gone id r = false)))) ≫= fun _ =>
  modify (upd_push (upd_push_wake_jobs (filter (fun kw => gone_id kw.1.2 = false)))).

(** The DELETEs by account, in the order of the code. *)
Definition delete_account_rows (accountID : string) : Tx unit :=
  d ← read (fun d => d);
  let own_device dev := bool_decide (dev_account_id <$> d.(rooms).(devices) !! dev = Some accountID) in
  on_rooms (upd_mutes (filter (fun kv => kv.1.1 <> accountID))) ≫= fun _ =>
  on_rooms (upd_blocks (filter (fun kv => kv.1.1 <> accountID))) ≫= fun _ =>
  on_mls (upd_key_packages (filter (fun kv => own_device kv.2.(kp_device_id) = false))) ≫= fun _ =>
  on_rooms (upd_conv_members (filter (fun kv => kv.1.2 <> accountID))) ≫= fun _ =>
  on_rooms (upd_comm_members (filter (fun kv => kv.1.2 <> accountID))) ≫= fun _ =>
  on_content (upd_reactions (filter (fun kv => kv.1.2 <> accountID))) ≫= fun _ =>
  on_content (upd_read_receipts (filter (fun kv => kv.1.1 <> accountID))) ≫= fun _ =>
  on_content (upd_delivery_receipts (filter (fun kv => kv.1.1 <> accountID))) ≫= fun _ =>
  delete_subscriptions (fun _ r => r.(ps_account_id) =s? accountID) ≫= fun _ =>
  on_ident (upd_device_links (filter (fun kv => kv.2.(dl_account_id) <> accountID))) ≫= fun _ =>
  delete_links_v3 (fun r => r.(lk_account_id) =s? accountID) ≫= fun _ =>
  on_content (delete_attachments (fun i => bool_decide (at_owner <$> d.(content).(attachments) !! i = Some accountID))) ≫= fun _ =>
  on_backups (filter (fun kv => kv.2.(bk_account_id) <> accountID)) ≫= fun _ =>
  on_ident (upd_recovery_keys (delete accountID)) ≫= fun _ =>
  on_ident (upd_recovery_requests (filter (fun kv => kv.2.(rq_account_id) <> accountID))).

(** [clock] 0 is the time of the scrub, 1 of the queue, 2 of the calls. *)
Definition DeleteAccountData (clock : nat -> Z) (accountID : string) : Tx (list string) :=
  let now := clock 0%nat in
  transaction (
    d ← read (fun d => d);
    a ← require (d.(rooms).(accounts) !! accountID) ErrNotFound;
    guard_tx (bool_decide (a.(acc_deleted_at) = None)) ErrNotFound ≫= fun _ =>
    guard_tx (negb (a.(acc_role) =s? RoleOwner) ||
              (1 <? len (List.filter (fun '(_, x) => (x.(acc_role) =s? RoleOwner) && bool_decide (x.(acc_deleted_at) = None))
                           (map_to_list d.(rooms).(accounts))))) ErrLastOwner ≫= fun _ =>
    let storageKeys := account_blobs d accountID in
    retireHistoryForLinks (clock 1%nat) (fun r => r.(lk_account_id) =s? accountID) ≫= fun _ =>
    for_each storageKeys (enqueueBlobDeletion (clock 1%nat)) ≫= fun _ =>
    on_ident (upd_invites (fmap (fun r => if r.(iv_created_by) =s? accountID then revoked_invite (default now r.(iv_revoked_at)) r else r))) ≫= fun _ =>
    delete_sessions (fun _ r => r.(ss_account_id) =s? accountID) ≫= fun _ =>
    let deviceIDs := accountDeviceIDs d accountID in
    on_rooms (upd_devices (fmap (fun r => if r.(dev_account_id) =s? accountID then scrubbed_device now r else r))) ≫= fun _ =>
    for_each deviceIDs (fun deviceID =>
      queueMLSRevocations accountID deviceID now ≫= fun _ =>
      releaseMLSRevocationConfirmations deviceID now) ≫= fun _ =>
    let callExpiry := time_add (clock 2%nat) (7 * 24 * hour) in
    modify (upd_calls (fmap (fun c => if (c.(call_CreatedBy) =s? accountID) && negb (terminal_call c.(call_State)) then ended_call now callExpiry c else c))) ≫= fun _ =>
    modify (upd_calls (fmap (fun c => if c.(call_CreatedBy) =s? accountID then scrubbed_call c else c))) ≫= fun _ =>
    delete_account_rows accountID ≫= fun _ =>
    d ← read (fun d => d);
    guard_tx (forallb (fun '(id, x) => (id =s? accountID) || negb (x.(acc_username) =s? ("deleted_" +:+ without_underscores accountID)%string))
                (map_to_list d.(rooms).(accounts))) ErrConstraint ≫= fun _ =>
    on_rooms (upd_accounts (alter (deleted_account now accountID) accountID)) ≫= fun _ =>
    mret storageKeys).

Definition DeleteAccount (clock : nat -> Z) (accountID : string) : Tx unit :=
  DeleteAccountData clock accountID ≫= fun _ => mret tt.

(** ** Administration *)

Record AdminAccount := mkAdminAccount {
  aa_ID : string; aa_Username : string; aa_Role : string; aa_Status : string; aa_CreatedAt : Z; aa_DeviceCount : Z; aa_AttachmentCount : Z;
  aa_BackupCount : Z; aa_StorageBytes : Z }.

Definition admin_limit (limit : Z) : Z := if (limit <=? 0) || (200 <? limit) then 100 else limit.

Definition scan_admin_account (d : DB) (id : string) (a : AccountRow) : AdminAccount :=
  mkAdminAccount id a.(acc_username) a.(acc_role) a.(acc_status) a.(acc_created_at)
    (len (List.filter (fun '(_, x) => (x.(dev_account_id) =s? id) && device_live x) (map_to_list d.(rooms).(devices))))
    (len (List.filter (fun '(_, x) => x.(at_owner) =s? id) (map_to_list d.(content).(attachments))))
    (len (List.filter (fun '(_, x) => x.(bk_account_id) =s? id) (map_to_list d.(backups))))
    (blob_usage d (Some id)).

Definition ListAdminAccounts (d : DB) (limit : Z) (afterID : string) : list AdminAccount :=
  take (Z.to_nat (admin_limit limit))
    (order_by (fun a b => str_le a.(aa_ID) b.(aa_ID))
      (omap (fun '(id, a) => if bool_decide (a.(acc_deleted_at) = None) && ((afterID =s? "") || (str_le afterID id && negb (id =s? afterID)))
                             then Some (scan_admin_account d id a) else None) (map_to_list d.(rooms).(accounts)))).

(** ** Housekeeping *)

Definition OperationalRowRetention : Z := 30 * 24 * hour.

(** [id IN (SELECT id ... WHERE p ORDER BY since, id LIMIT 500)] *)
Definition page_of {A} (p : A -> bool) (since : A -> Z) (m : gmap string A) : list string :=
  (take 500 (order_by (fun a b => stamp_le (since a.2, a.1) (since b.2, b.1)) (List.filter (fun '(_, r) => p r) (map_to_list m)))).*1.

Definition past (t : option Z) (cutoff : Z) : bool := match t with Some t => t <? cutoff | None => false end.

Definition drop_rows {A} (ids : list string) (m : gmap string A) : gmap string A := filter (fun kv => mem ids kv.1 = false) m.

(** The end of a link: of its transfer once approved. *)
Definition link_end (r : DeviceLinkV3Row) : Z := default r.(lk_expires_at) r.(lk_transfer_expires_at).

(** An invite takes its reservations with it. *)
Definition delete_invites (ids : list string) : Tx unit :=
  on_ident (upd_invites (drop_rows ids)) ≫= fun _ =>
  on_ident (upd_reservations (filter (fun kv => mem_opt ids kv.2.(er_invite_id) = false))).

Definition PruneOperationalRows (enqueuedAt now : Z) : Tx Z :=
  let cutoff := time_add now (- OperationalRowRetention) in
  transaction (
    d ← read (fun d => d);
    let links := page_of (fun r => link_end r <? cutoff) link_end d.(ident).(device_links_v3) in
    retireHistoryIntents enqueuedAt (fun _ r => mem links r.(ui_link_id)) ≫= fun _ =>
    retireHistoryTransfers enqueuedAt (fun id _ => mem links id) "cancelled" ≫= fun _ =>
    d ← read (fun d => d);
    let intents := page_of (fun r => r.(ui_expires_at) <=? now) ui_expires_at d.(upload_intents) in
    retireHistoryIntents enqueuedAt (fun k _ => mem intents k) ≫= fun _ =>
    let transfers := page_of (fun r => (r.(ht_state) =s? "active") && (r.(ht_expires_at) <=? now)) ht_expires_at d.(history_transfers) in
    retireHistoryTransfers enqueuedAt (fun id _ => mem transfers id) "expired" ≫= fun _ =>
    d ← read (fun d => d);
    let sessions_ := page_of (fun r => r.(ss_expires_at) <=? now) ss_expires_at d.(sessions) in
    on_sessions (drop_rows sessions_) ≫= fun _ =>
    let invites_ := page_of (fun r => past r.(iv_expires_at) cutoff || past r.(iv_revoked_at) cutoff)
      (fun r => default (default 0 r.(iv_expires_at)) r.(iv_revoked_at)) d.(ident).(invites) in
    delete_invites invites_ ≫= fun _ =>
    let old_links := page_of (fun r => (r.(dl_expires_at) <? cutoff) && ((r.(dl_state) =s? "consumed") || (r.(dl_state) =s? "revoked")))
      dl_expires_at d.(ident).(device_links) in
    on_ident (upd_device_links (drop_rows old_links)) ≫= fun _ =>
    let links := page_of (fun r => link_end r <? cutoff) link_end d.(ident).(device_links_v3) in
    on_ident (upd_device_links_v3 (drop_rows links)) ≫= fun _ =>
    modify (upd_history_transfers (drop_rows links)) ≫= fun _ =>
    modify (upd_upload_intents (filter (fun kv => mem links kv.2.(ui_link_id) = false))) ≫= fun _ =>
    d ← read (fun d => d);
    let reservations_ := page_of (fun r => (r.(er_expires_at) <? now) || past r.(er_consumed_at) cutoff)
      (fun r => default r.(er_expires_at) r.(er_consumed_at)) d.(ident).(reservations) in
    on_ident (upd_reservations (drop_rows reservations_)) ≫= fun _ =>
    let requests := page_of (fun r => r.(rq_expires_at) <? cutoff) rq_expires_at d.(ident).(recovery_requests) in
    on_ident (upd_recovery_requests (drop_rows requests)) ≫= fun _ =>
    let day := recoveryAttemptsCutoffDay now in
    let attempts := take 500 (order_by (fun a b => str_le a.2 b.2)
      (List.filter (fun k => str_le k.2 day && negb (k.2 =s? day)) (map_to_list d.(ident).(recovery_attempts)).*1)) in
    on_ident (upd_recovery_attempts (filter (fun kv => kv.1 ∉ attempts))) ≫= fun _ =>
    let subscriptions := page_of (fun r => past r.(ps_disabled_at) cutoff) (fun r => default 0 r.(ps_disabled_at)) d.(push).(push_subscriptions) in
    delete_subscriptions (fun id _ => mem subscriptions id) ≫= fun _ =>
    let packages := page_of (fun r => (r.(kp_expires_at) <? now) || past r.(kp_claimed_at) cutoff)
      (fun r => default r.(kp_expires_at) r.(kp_claimed_at)) d.(mls).(key_packages) in
    on_mls (upd_key_packages (drop_rows packages)) ≫= fun _ =>
    mret (len sessions_ + len invites_ + len old_links + len links + len reservations_ + len requests + len attempts + len subscriptions +
          len packages)).
