(* ===== verification/SessionRules.v ===== *)
(** * Rules of sessions

    What the sessions of [Sessions] guarantee over every history of sign-ins,
    rotations, logouts, device links, revocations, recoveries and deletions:
    a token names one session, and a session that is ended, in whichever way,
    stays ended for both of its tokens. *)

From S2P Require Import Prelude GoStrings GoJson Domain Admission Database Conversations Memberships Messages Retention MessageEvents PushWake Mls MlsGroups MlsRules Blobs Identity Sessions DeviceLinks History Devices Recovery Accounts.
From stdpp Require Import base numbers list strings gmap fin_maps sorting.
From Stdlib Require Import ZArith ZifyBool Lia.
Open Scope Z_scope.

Abbreviation session_table := (gmap string SessionRow).

(** ** Frames *)

(** Statements on other tables leave a property of one table alone: the
    updated database projects to the same table. *)
Ltac tx_frame :=
  repeat lazymatch goal with
  | |- forall _, _ => intros
  | |- preserves _ (modify _) => solve [apply pv_modify; intros ? Hkeep; exact Hkeep]
  | |- preserves _ (transaction _) => apply pv_transaction
  | |- preserves _ (for_each _ _) => apply pv_for_each
  | |- preserves _ (_ ≫= _) => apply pv_bind
  | |- preserves _ (match _ with _ => _ end) => case_match
  | |- preserves _ _ => solve [eauto 3 with txs]
  end.

Lemma pv_policy (P : DB -> Prop) : preserves P get_policy.
Proof. by intros s. Qed.
Lemma pv_read_db {A} (P : DB -> Prop) (f : DB -> A) : preserves P (read f).
Proof. by intros s. Qed.
#[export] Hint Resolve pv_policy pv_read_db pv_throw pv_refuse pv_limits : txs.

(** [S'] has no row and no token that [S] does not have. *)
Definition shrinks (S S' : session_table) : Prop :=
  forall k r', S' !! k = Some r' -> exists r, S !! k = Some r /\
    (r'.(ss_previous_token_hash) = r.(ss_previous_token_hash) \/ r'.(ss_previous_token_hash) = None).

(** A property of the session table that sessions with new tokens in [I] and
    rotations to tokens in [R] keep. *)
Class SessionFrame (I R : string -> Prop) (P : session_table -> Prop) : Prop := {
  fr_insert S tok r : I tok -> S !! tok = None -> r.(ss_previous_token_hash) = None -> P S -> P (<[tok := r]> S);
  fr_shrink S S' : shrinks S S' -> P S -> P S';
  fr_rotate S k r new r' : R new -> S !! k = Some r ->
    (k = new \/ S !! new = None) ->
    (r'.(ss_previous_token_hash) = Some k /\ k <> new \/ r'.(ss_previous_token_hash) = r.(ss_previous_token_hash)) ->
    P S -> P (<[new := r']> (delete k S)) }.

Section frames.
Context (Q : session_table -> Prop).
Abbreviation leaves m := (preserves (fun d => Q d.(sessions)) m).

Lemma leaves_modify f : (forall d, (f d).(sessions) = d.(sessions)) -> leaves (modify f).
Proof. intros H s Hs. simpl. by rewrite H. Qed.
Lemma leaves_event row : leaves (insert_event row).
Proof. by intros s. Qed.
#[local] Hint Resolve leaves_event : txs.
Lemma leaves_mls_event a b c d e : leaves (insertSyncEvent a b c d e).
Proof. unfold insertSyncEvent. tx_frame. Qed.
#[local] Hint Resolve leaves_mls_event : txs.
Lemma leaves_audit now a t m : leaves (insertAuditEvent now a t m).
Proof. unfold insertAuditEvent, on_ident. tx_frame. Qed.
Lemma leaves_account id r : leaves (insert_account id r).
Proof. unfold insert_account, on_rooms. tx_frame. Qed.
Lemma leaves_device id r : leaves (insert_device id r).
Proof. unfold insert_device, on_rooms. tx_frame. Qed.
Lemma leaves_package i d k t : leaves (insertInitialDeviceKeyPackage i d k t).
Proof. unfold insertInitialDeviceKeyPackage, insert_key_package, on_mls. tx_frame. Qed.
Lemma leaves_consume a b i : leaves (consumeEnrollmentReservation a b i).
Proof. unfold consumeEnrollmentReservation, on_ident. tx_frame. Qed.
Lemma leaves_reservation now i k : leaves (enrollmentReservationForTx now i k).
Proof. unfold enrollmentReservationForTx. tx_frame. Qed.
#[local] Hint Resolve leaves_audit leaves_account leaves_device leaves_package leaves_consume leaves_reservation : txs.
Lemma leaves_cancel now at_ a reason : leaves (cancelWaitingRecoveryTx now at_ a reason).
Proof. unfold cancelWaitingRecoveryTx, cancelWaitingRecoveryRequestTx, set_waiting, on_ident. tx_frame. Qed.
Lemma leaves_blob now k : leaves (enqueueBlobDeletion now k).
Proof. unfold enqueueBlobDeletion, on_content. tx_frame. Qed.
#[local] Hint Resolve leaves_blob leaves_cancel : txs.
Lemma leaves_history now p : leaves (retireHistoryForLinks now p).
Proof. unfold retireHistoryForLinks, retireHistoryIntents, retireHistoryTransfers. tx_frame. Qed.
Lemma leaves_intents now p : leaves (retireHistoryIntents now p).
Proof. unfold retireHistoryIntents. tx_frame. Qed.
Lemma leaves_transfers now p st : leaves (retireHistoryTransfers now p st).
Proof. unfold retireHistoryTransfers. tx_frame. Qed.
Lemma leaves_delete_links g : leaves (delete_links_v3 g).
Proof. unfold delete_links_v3, on_links, on_ident. tx_frame. Qed.
#[local] Hint Resolve leaves_history leaves_intents leaves_transfers leaves_delete_links : txs.
Lemma leaves_complete_revocation c dev now : leaves (completeMLSRevocationIfConfirmed c dev now).
Proof. unfold completeMLSRevocationIfConfirmed, set_revocation, on_mls. tx_frame. Qed.
#[local] Hint Resolve leaves_complete_revocation : txs.
Lemma leaves_release dev now : leaves (releaseMLSRevocationConfirmations dev now).
Proof. unfold releaseMLSRevocationConfirmations, on_mls. tx_frame. Qed.
Lemma leaves_queue a dev now : leaves (queueMLSRevocations a dev now).
Proof. unfold queueMLSRevocations, queue_revocation, on_mls. tx_frame. Qed.
Lemma leaves_subscriptions g : leaves (delete_subscriptions g).
Proof. unfold delete_subscriptions. tx_frame. Qed.
#[local] Hint Resolve leaves_release leaves_queue leaves_subscriptions : txs.
Lemma leaves_rows a : leaves (delete_account_rows a).
Proof. unfold delete_account_rows, on_rooms, on_mls, on_content, on_backups, on_ident. tx_frame. Qed.
Lemma leaves_enrolled p a dev role t i : leaves (insert_enrolled p a dev role t i).
Proof. unfold insert_enrolled. tx_frame. Qed.
Lemma leaves_request_state id f : leaves (set_waiting id f).
Proof. unfold set_waiting, on_ident. tx_frame. Qed.
End frames.
#[export] Hint Resolve leaves_event leaves_mls_event leaves_audit leaves_account leaves_device leaves_package leaves_consume
  leaves_reservation leaves_cancel leaves_blob leaves_history leaves_intents leaves_transfers leaves_delete_links leaves_release
  leaves_queue leaves_subscriptions leaves_rows leaves_enrolled leaves_request_state : txs.

(** ** Operations *)

Lemma shrinks_filter (S : session_table) (gone : string -> SessionRow -> bool) : shrinks S (filter (fun '(t, r) => gone t r = false) S).
Proof. intros k r. rewrite map_lookup_filter_Some. intros [H _]. eauto. Qed.

Lemma shrinks_alter (S : session_table) f k :
  (forall r, (f r).(ss_previous_token_hash) = r.(ss_previous_token_hash) \/ (f r).(ss_previous_token_hash) = None) -> shrinks S (alter f k S).
Proof.
  intros Hf k' r'. rewrite lookup_alter. destruct (decide (k = k')) as [->|]; [|eauto].
  rewrite fmap_Some. intros (r & Hr & ->). eauto.
Qed.

Lemma shrinks_drop (S : session_table) ids : shrinks S (drop_rows ids S).
Proof. intros k r. unfold drop_rows. rewrite map_lookup_filter_Some. intros [H _]. eauto. Qed.

Lemma shrinks_update (S : session_table) k p f :
  (forall r, (f r).(ss_previous_token_hash) = r.(ss_previous_token_hash) \/ (f r).(ss_previous_token_hash) = None) ->
  shrinks S (update_row S k p f).1.
Proof.
  intros Hf k' r'. unfold update_row. destruct (S !! k) as [r|] eqn:E; simpl; [|eauto]. destruct (p r); simpl; [|eauto].
  rewrite lookup_insert. destruct (decide (k = k')) as [->|]; [|eauto]. intros [= <-]. eauto.
Qed.

Lemma touched_previous p now r :
  (touched p now r).(ss_previous_token_hash) = r.(ss_previous_token_hash) \/ (touched p now r).(ss_previous_token_hash) = None.
Proof. unfold touched. simpl. case_match; [case_match|]; auto. Qed.

Section operations.
Context (I R : string -> Prop) (P : session_table -> Prop) {HP : SessionFrame I R P}.
Abbreviation follows m := (preserves (fun d => P d.(sessions)) m).

Lemma follows_insert tok r : I tok -> r.(ss_previous_token_hash) = None -> follows (insert_session tok r).
Proof.
  intros Ht Hr s Hs. unfold insert_session. unfold mbind, Tx_bind, read, guard_tx. simpl.
  destruct (exists_in s.(db).(sessions) tok) eqn:E; simpl; [done|].
  assert (P (<[tok := r]> s.(db).(sessions))) as Hi.
  { apply fr_insert; [done| |done..]. apply eq_None_not_Some. by apply bool_decide_eq_false in E. }
  by destruct (exists_in _ (ss_account_id r)), (ss_device_id r) as [dev|]; simpl; [destruct (exists_in _ dev)| | |].
Qed.

Lemma follows_new tok a dev e c rec ab : I tok -> follows (insert_session tok (new_session a dev e c rec ab)).
Proof. intros Ht. by apply follows_insert. Qed.
#[local] Hint Resolve follows_new : txs.

Lemma follows_shrink f : (forall S, shrinks S (f S)) -> follows (on_sessions f).
Proof. intros Hf s Hs. simpl. by eapply fr_shrink. Qed.

Lemma follows_delete gone : follows (delete_sessions gone).
Proof. apply follows_shrink. intros S. apply shrinks_filter. Qed.
#[local] Hint Resolve follows_delete : txs.

(** An UPDATE of one row that takes no token in. *)
Lemma follows_update {A} k p f (g : Z -> Tx A) (q : sessionPolicy -> SessionRow -> bool) :
  (forall x r, (f x r).(ss_previous_token_hash) = r.(ss_previous_token_hash) \/ (f x r).(ss_previous_token_hash) = None) ->
  (forall n, follows (g n)) -> forall s : Store, P s.(db).(sessions) ->
  P ((let '(m, rows) := update_row s.(db).(sessions) k (q p) (f p) in on_sessions (fun _ => m) ≫= fun _ => g rows) s).2.(db).(sessions).
Proof.
  intros Hf Hg s Hs. pose proof (shrinks_update s.(db).(sessions) k (q p) (f p) (Hf p)) as Hsh.
  destruct (update_row _ _ _ _) as [m rows]. simpl in Hsh. unfold on_sessions, modify, mbind, Tx_bind.
  apply Hg. simpl. by eapply fr_shrink.
Qed.

Lemma follows_touch now t : follows (TouchSession now t).
Proof.
  intros s Hs. unfold TouchSession. cbn -[update_row]. unfold mbind at 1, Tx_bind at 1. cbn -[update_row].
  apply (follows_update t s.(session_policy) (fun p => touched p now)
           (fun rows => if 0 <? rows then mret tt else guard_tx _ ErrUnauthorized)
           (fun p r => unexpired p now r && (ss_last_used_at r <=? time_add now (- SessionTouchInterval)))); [|tx_frame|done].
  intros p r. apply touched_previous.
Qed.

Lemma follows_mark now t : follows (MarkSessionRecentlyAuthenticated now t).
Proof.
  intros s Hs. unfold MarkSessionRecentlyAuthenticated. cbn -[update_row]. unfold mbind at 1, Tx_bind at 1. cbn -[update_row].
  apply (follows_update t s.(session_policy) (fun _ => reauthenticated now) (fun rows => guard_tx _ ErrUnauthorized)
           (fun p => unexpired p now)); [|tx_frame|done].
  auto.
Qed.

Lemma follows_rotate now t new : R new -> follows (RotateSession now t new).
Proof.
  intros Hnew s Hs. unfold RotateSession, mbind, Tx_bind, guard_tx, get_policy, read.
  destruct (negb _) eqn:Eg; simpl; [|done]. apply negb_true_iff, orb_false_iff in Eg as [_ Ht]. apply str_eqb_false in Ht.
  destruct (List.filter _ _) as [|[k r] [|]] eqn:E; [done| |done].
  assert ((k, r) ∈ [(k, r)]) as Hin by by left. rewrite <- E, list_elem_of_In, List.filter_In, <- list_elem_of_In, elem_of_map_to_list in Hin.
  destruct Hin as [Hk Hp]. destruct (_ || _) eqn:Eo; [|done]. simpl.
  apply (fr_rotate _ k r); [done..| | |done].
  - apply orb_true_iff in Eo as [->%str_eqb_true|Eo]; [by left|right].
    apply negb_true_iff, bool_decide_eq_false in Eo. by apply eq_None_not_Some.
  - unfold rotated. simpl. destruct (k =s? t) eqn:Ek; [|by right]. apply str_eqb_true in Ek as ->. by left.
Qed.

Lemma follows_first a dev t i : I i.(ri_SessionHash) -> follows (insert_first_session a dev t i).
Proof. intros Hi. unfold insert_first_session. tx_frame. Qed.

Lemma follows_create now at_ tok a dev e : I tok -> follows (CreateSession now at_ tok a dev e).
Proof. intros Hi. unfold CreateSession. tx_frame. Qed.
Lemma follows_login now at_ tok a dev h : I tok -> follows (CreateLoginSession now at_ tok a dev h).
Proof. intros Hi. unfold CreateLoginSession. tx_frame. Qed.
Lemma follows_owner pk clock i : I i.(co_Register).(ri_SessionHash) -> follows (CreateOwner pk clock i).
Proof. intros Hi. pose proof follows_first. unfold CreateOwner, on_ident. tx_frame. Qed.
Lemma follows_register pk clock i : I i.(ri_SessionHash) -> follows (RegisterWithInvite pk clock i).
Proof. intros Hi. pose proof follows_first. unfold RegisterWithInvite, use_invite, on_ident. tx_frame. Qed.

Lemma follows_change clock a keep h : follows (ChangePassword clock a keep h).
Proof.
  unfold ChangePassword, on_rooms. tx_frame. apply follows_shrink. intros S. apply shrinks_alter. auto.
Qed.
Lemma follows_reset clock u h : follows (ResetOwnerPassword clock u h).
Proof. unfold ResetOwnerPassword, on_rooms, on_ident. tx_frame. Qed.
Lemma follows_logout now t : follows (DeleteSession now t).
Proof. apply follows_delete. Qed.
Lemma follows_except a keep : follows (DeleteAccountSessionsExcept a keep).
Proof.
  unfold DeleteAccountSessionsExcept. tx_frame. apply follows_shrink. intros S. apply shrinks_alter. intros r. case_match; auto.
Qed.
Lemma follows_status now at_ a b st e : follows (SetAccountStatus now at_ a b st e).
Proof. unfold SetAccountStatus, on_rooms, disable_subscriptions. tx_frame. Qed.

Lemma follows_revoke_tx now e a dev ty : follows (revokeDeviceTx now e a dev ty).
Proof. unfold revokeDeviceTx, on_rooms, retireDeviceLinksV3ForDevice, insertOptionalSyncEvent. tx_frame. Qed.
#[local] Hint Resolve follows_revoke_tx : txs.
Lemma follows_revoke now e a dev ty : follows (revokeDevice now e a dev ty).
Proof. apply pv_transaction, follows_revoke_tx. Qed.
Lemma follows_delete_account clock a : follows (DeleteAccountData clock a).
Proof. unfold DeleteAccountData, on_ident, on_rooms. tx_frame. Qed.
Lemma follows_prune e now : follows (PruneOperationalRows e now).
Proof.
  unfold PruneOperationalRows, delete_invites, on_ident, on_mls. tx_frame. apply follows_shrink. intros S. apply shrinks_drop.
Qed.

Lemma follows_complete_link c now id t h tok th : I tok -> follows (CompleteDeviceLinkV3 c now id t h tok th).
Proof.
  intros Hi. unfold CompleteDeviceLinkV3, update_link, on_links, on_ident. tx_frame.
Qed.
Lemma follows_consume clock id t tok e : I tok -> follows (ConsumeApprovedDeviceLink clock id t tok e).
Proof. intros Hi. unfold ConsumeApprovedDeviceLink, on_old_links, on_ident. tx_frame. Qed.
Lemma follows_revoke_all now e a ids : follows (revoke_all now e a ids).
Proof. induction ids; simpl; tx_frame. Qed.
#[local] Hint Resolve follows_revoke_all : txs.
Lemma follows_recover pk clock id t tok : I tok -> follows (CompleteRecovery pk clock id t tok).
Proof.
  intros Hi. unfold CompleteRecovery, take_over, mark_all_revoked, on_rooms, completedRecovery. tx_frame.
Qed.
End operations.

(** ** Tokens *)

(** A row answers to its key and to the token it rotated out. *)
Definition answers (t k : string) (r : SessionRow) : Prop := k = t \/ r.(ss_previous_token_hash) = Some t.

(** No session answers to the token. *)
Definition dead (t : string) (S : session_table) : Prop := forall k r, S !! k = Some r -> ~ answers t k r.

(** The token was rotated out by no session. *)
Definition unretired (t : string) (S : session_table) : Prop := forall k r, S !! k = Some r -> r.(ss_previous_token_hash) <> Some t.

(** A token names one session, in one of its two places. *)
Definition unambiguous (S : session_table) : Prop :=
  forall k1 r1 k2 r2 t, S !! k1 = Some r1 -> S !! k2 = Some r2 -> r1.(ss_previous_token_hash) = Some t ->
    k2 <> t /\ (r2.(ss_previous_token_hash) = Some t -> k1 = k2).

Lemma dead_shrinks t S S' : shrinks S S' -> dead t S -> dead t S'.
Proof.
  intros Hs Hd k r' Hk Ha. destruct (Hs _ _ Hk) as (r & Hr & E). apply (Hd _ _ Hr).
  destruct Ha as [->|Ha]; [by left|right]. destruct E; congruence.
Qed.

#[export] Instance dead_frame t : SessionFrame (fun tok => tok <> t) (fun tok => tok <> t) (dead t).
Proof.
  split; [|eauto using dead_shrinks|].
  - intros S tok r Ht Hn Hp Hd k r'. rewrite lookup_insert. destruct (decide (tok = k)) as [<-|].
    + intros [= <-] [?|?]; congruence.
    + apply Hd.
  - intros S k r new r' Hnew Hk _ Hp Hd k' x. rewrite lookup_insert. destruct (decide (new = k')) as [<-|].
    + intros [= <-] [?|Hx]; [congruence|]. apply (Hd _ _ Hk). unfold answers. destruct Hp as [[Hp _]|Hp]; [left|right]; congruence.
    + rewrite lookup_delete. destruct (decide (k = k')); [done|]. apply Hd.
Qed.

#[export] Instance unambiguous_frame tok : SessionFrame (eq tok) (eq tok) (fun S => unambiguous S /\ unretired tok S).
Proof.
  split.
  - intros S ? r <- Hn Hp [HU HN]. split.
    + intros k1 r1 k2 r2 t. rewrite !lookup_insert.
      destruct (decide (tok = k1)) as [<-|]; [intros [= <-]; congruence|].
      destruct (decide (tok = k2)) as [<-|]; [|apply HU]. intros H1 [= <-] Ht. split; [|congruence].
      intros ->. by apply (HN _ _ H1).
    + intros k r'. rewrite lookup_insert. destruct (decide (tok = k)); [intros [= <-]; congruence|apply HN].
  - intros S S' Hs [HU HN]. split.
    + intros k1 r1 k2 r2 t H1 H2 Ht. destruct (Hs _ _ H1) as (x1 & Hx1 & E1), (Hs _ _ H2) as (x2 & Hx2 & E2).
      destruct E1 as [E1|E1]; [|congruence]. rewrite E1 in Ht. destruct (HU _ _ _ _ _ Hx1 Hx2 Ht) as [? HE].
      split; [done|]. destruct E2 as [E2|E2]; rewrite E2; [done|congruence].
    + intros k r' Hk. destruct (Hs _ _ Hk) as (r & Hr & [E|E]); rewrite E; [by eapply HN|done].
  - intros S k r ? r' <- Hk Hn Hp [HU HN]. split.
    + intros k1 r1 k2 r2 t. rewrite !lookup_insert, !lookup_delete.
      destruct (decide (tok = k1)) as [<-|]; destruct (decide (tok = k2)) as [<-|].
      * intros [= <-] [= <-] Ht. split; [|done]. intros ->. destruct Hp as [[Hp ?]|Hp]; [congruence|]. apply (HN _ _ Hk). congruence.
      * destruct (decide (k = k2)); [done|]. intros [= <-] H2 Ht. destruct Hp as [[Hp ?]|Hp].
        -- rewrite Hp in Ht. injection Ht as <-. split; [congruence|]. intros Ht. by destruct (HU _ _ _ _ _ H2 Hk Ht).
        -- rewrite Hp in Ht. destruct (HU _ _ _ _ _ Hk H2 Ht) as [? HE]. split; [done|]. intros E2. by apply HE in E2.
      * destruct (decide (k = k1)); [done|]. intros H1 [= <-] Ht. split; [intros ->; by apply (HN _ _ H1)|].
        intros Hr'. destruct Hp as [[Hp ?]|Hp].
        -- assert (t = k) as -> by congruence. by destruct (HU _ _ _ _ _ H1 Hk Ht).
        -- rewrite Hp in Hr'. destruct (HU _ _ _ _ _ H1 Hk Ht) as [_ HE]. by apply HE in Hr'.
      * destruct (decide (k = k1)); [done|]. destruct (decide (k = k2)); [done|]. apply HU.
    + intros k' x. rewrite lookup_insert, lookup_delete. destruct (decide (tok = k')) as [<-|].
      * intros [= <-]. destruct Hp as [[Hp ?]|Hp]; rewrite Hp; [congruence|by eapply HN].
      * destruct (decide (k = k')); [done|apply HN].
Qed.

(** A dead token is refused. *)
Lemma dead_unauthorized t s now : dead t s.(db).(sessions) -> (SessionPrincipal now t s).1 = Err ErrUnauthorized.
Proof.
  intros Hd. unfold SessionPrincipal, get_policy, read, mbind, Tx_bind, option_bind.
  destruct (s.(db).(sessions) !! t) as [r|] eqn:E; [by destruct (Hd _ _ E); left|]. simpl.
  unfold previous_session, require. destruct (List.filter _ _) as [|[k r] l] eqn:F; simpl; [done|].
  assert ((k, r) ∈ (k, r) :: l) as Hin by by left. rewrite <- F, list_elem_of_In, List.filter_In, <- list_elem_of_In, elem_of_map_to_list in Hin.
  destruct Hin as [Hk Hg]. destruct (Hd _ _ Hk). right. unfold in_grace in Hg. by bool_to_prop.
Qed.

(** ** Histories *)

(** The requests that change sessions. *)
Inductive session_op :=
| OCreate (now at_ : Z) (tok a dev : string) (e : Z)
| OLogin (now at_ : Z) (tok a dev h : string)
| OOwner (pk : string) (clock : nat -> Z) (i : CreateOwnerInput)
| ORegister (pk : string) (clock : nat -> Z) (i : RegisterInput)
| OTouch (now : Z) (t : string)
| OMark (now : Z) (t : string)
| ORotate (now : Z) (t new : string)
| OChange (clock : nat -> Z) (a keep h : string)
| OReset (clock : nat -> Z) (u h : string)
| OLogout (now : Z) (t : string)
| OLogoutOthers (a keep : string)
| OStatus (now at_ : Z) (a b st : string) (e : AuditEvent)
| ORevoke (now e : Z) (a dev ty : string)
| ODeleteAccount (clock : nat -> Z) (a : string)
| OPrune (e now : Z)
| OCompleteLink (c now : Z) (id t h tok th : string)
| OConsumeLink (clock : nat -> Z) (id t tok : string) (e : Z)
| ORecover (pk : string) (clock : nat -> Z) (id t tok : string).

Definition run_op (o : session_op) : Tx unit :=
  match o with
  | OCreate now at_ tok a dev e => CreateSession now at_ tok a dev e
  | OLogin now at_ tok a dev h => CreateLoginSession now at_ tok a dev h
  | OOwner pk clock i => CreateOwner pk clock i ≫= fun _ => mret tt
  | ORegister pk clock i => RegisterWithInvite pk clock i ≫= fun _ => mret tt
  | OTouch now t => TouchSession now t
  | OMark now t => MarkSessionRecentlyAuthenticated now t
  | ORotate now t new => RotateSession now t new
  | OChange clock a keep h => ChangePassword clock a keep h
  | OReset clock u h => ResetOwnerPassword clock u h
  | OLogout now t => DeleteSession now t
  | OLogoutOthers a keep => DeleteAccountSessionsExcept a keep ≫= fun _ => mret tt
  | OStatus now at_ a b st e => SetAccountStatus now at_ a b st e
  | ORevoke now e a dev ty => revokeDevice now e a dev ty ≫= fun _ => mret tt
  | ODeleteAccount clock a => DeleteAccountData clock a ≫= fun _ => mret tt
  | OPrune e now => PruneOperationalRows e now ≫= fun _ => mret tt
  | OCompleteLink c now id t h tok th => CompleteDeviceLinkV3 c now id t h tok th ≫= fun _ => mret tt
  | OConsumeLink clock id t tok e => ConsumeApprovedDeviceLink clock id t tok e ≫= fun _ => mret tt
  | ORecover pk clock id t tok => CompleteRecovery pk clock id t tok ≫= fun _ => mret tt
  end.

(** The token a request brings for a new session. *)
Definition issued (o : session_op) : option string :=
  match o with
  | OCreate _ _ tok _ _ _ | OLogin _ _ tok _ _ _ | ORotate _ _ tok | OCompleteLink _ _ _ _ _ tok _ | OConsumeLink _ _ _ tok _
  | ORecover _ _ _ _ tok => Some tok
  | OOwner _ _ i => Some i.(co_Register).(ri_SessionHash)
  | ORegister _ _ i => Some i.(ri_SessionHash)
  | _ => None
  end.

Lemma op_follows I P {HP : SessionFrame I I P} o :
  (forall tok, issued o = Some tok -> I tok) -> preserves (fun d => P d.(sessions)) (run_op o).
Proof.
  intros Hi. assert (forall tok, issued o = Some tok -> I tok) as H0 by done. clear Hi.
  destruct o; simpl in *; try specialize (H0 _ eq_refl); try (apply pv_bind; [|intros; apply pv_ret]).
  - by apply (follows_create I I).
  - by apply (follows_login I I).
  - by apply (follows_owner I I).
  - by apply (follows_register I I).
  - by apply (follows_touch I I).
  - by apply (follows_mark I I).
  - by apply (follows_rotate I I).
  - by apply (follows_change I I).
  - by apply (follows_reset I I).
  - by apply (follows_logout I I).
  - by apply (follows_except I I).
  - by apply (follows_status I I).
  - by apply (follows_revoke I I).
  - by apply (follows_delete_account I I).
  - by apply (follows_prune I I).
  - by apply (follows_complete_link I I).
  - by apply (follows_consume I I).
  - by apply (follows_recover I I).
Qed.

(** A history in which the tokens issued satisfy [ok]; requests that do not
    touch sessions may do anything else. *)
Inductive session_step (ok : Store -> string -> Prop) : Store -> Store -> Prop :=
| st_op o s : (forall tok, issued o = Some tok -> ok s tok) -> session_step ok s (run_op o s).2
| st_other s s' : s'.(db).(sessions) = s.(db).(sessions) -> session_step ok s s'.

(** Tokens are new: no session has rotated the token out. *)
Definition new_token (s : Store) (tok : string) : Prop := unretired tok s.(db).(sessions).

Lemma step_unambiguous s s' : session_step new_token s s' -> unambiguous s.(db).(sessions) -> unambiguous s'.(db).(sessions).
Proof.
  intros [o s1 Hok|s1 s2 E] HU; [|by rewrite E]. destruct (issued o) as [tok|] eqn:Ei.
  - assert (forall t, issued o = Some t -> tok = t) as Hi by congruence.
    apply (op_follows (eq tok) (fun S => unambiguous S /\ unretired tok S) o Hi s1 (conj HU (Hok _ eq_refl))).
  - assert (exists tok, unretired tok s1.(db).(sessions)) as [tok Htok].
    { set (l := omap (fun '(_, r) => ss_previous_token_hash r) (map_to_list s1.(db).(sessions)) : list string).
      exists (fresh l). intros k r Hk Hr. apply (infinite_is_fresh l). unfold l at 2. apply list_elem_of_omap.
      exists (k, r). split; [by apply elem_of_map_to_list|exact Hr]. }
    assert (forall t, issued o = Some t -> tok = t) as Hi by congruence.
    apply (op_follows (eq tok) (fun S => unambiguous S /\ unretired tok S) o Hi s1 (conj HU Htok)).
Qed.

Lemma steps_unambiguous s s' : rtc (session_step new_token) s s' -> unambiguous s.(db).(sessions) -> unambiguous s'.(db).(sessions).
Proof. induction 1; eauto using step_unambiguous. Qed.

Lemma steps_dead t s s' : rtc (session_step (fun _ tok => tok <> t)) s s' -> dead t s.(db).(sessions) -> dead t s'.(db).(sessions).
Proof.
  induction 1 as [|s1 s2 s3 H _ IH]; [done|]. intros Hd. apply IH. destruct H as [o s1 Hok|s1 s2 E]; [|by rewrite E].
  by apply (op_follows (fun tok => tok <> t) (dead t) o).
Qed.

(** ** Ending a session *)

Section ending.
Context (k : string) (r : SessionRow).

Definition has_row (S : session_table) : Prop := S !! k = Some r \/ S !! k = None.
Definition no_row (S : session_table) : Prop := S !! k = None.

(** The run takes the row away, if it is still there. *)
Definition removes {A} (m : Tx A) : Prop :=
  forall s a s', has_row s.(db).(sessions) -> m s = (Ok a, s') -> no_row s'.(db).(sessions).

Lemma rm_transaction {A} (m : Tx A) : removes m -> removes (transaction m).
Proof. intros H s a s' Hs E%transaction_ok. eauto. Qed.
Lemma rm_before {A B} (m : Tx A) (f : A -> Tx B) :
  preserves (fun d => has_row d.(sessions)) m -> (forall a, removes (f a)) -> removes (m ≫= f).
Proof. intros Hm Hf s b s' Hs (a & s1 & E1 & E)%bind_ok. eapply Hf, E. by eapply (pv_ok _ _ _ _ _ Hm). Qed.
Lemma rm_after {A B} (m : Tx A) (f : A -> Tx B) :
  removes m -> (forall a, preserves (fun d => no_row d.(sessions)) (f a)) -> removes (m ≫= f).
Proof. intros Hm Hf s b s' Hs (a & s1 & E1 & E)%bind_ok. apply (pv_ok _ _ _ _ _ (Hf a) E). by eapply Hm. Qed.
Lemma rm_delete gone : gone k r = true -> removes (delete_sessions gone).
Proof.
  intros Hg s a s' Hs [= <- <-]. apply map_lookup_filter_None. destruct Hs as [Hs|Hs]; [right|by left]. intros x Hx.
  rewrite Hs in Hx. injection Hx as <-. by rewrite Hg.
Qed.
Lemma gone_alter f k' : preserves (fun d => no_row d.(sessions)) (on_sessions (alter f k')).
Proof. intros s Hs. unfold no_row in *. simpl. rewrite lookup_alter. destruct (decide (k' = k)) as [->|]; [by rewrite Hs|done]. Qed.
Lemma gone_delete gone : preserves (fun d => no_row d.(sessions)) (delete_sessions gone).
Proof. intros s Hs. unfold no_row in *. simpl. apply map_lookup_filter_None. by left. Qed.
Lemma may_delete gone : preserves (fun d => has_row d.(sessions)) (delete_sessions gone).
Proof.
  intros s Hs. unfold has_row in *. simpl. destruct (filter _ _ !! k) as [x|] eqn:E; [left|by right].
  apply map_lookup_filter_Some in E as [E _]. destruct Hs as [Hs|Hs]; congruence.
Qed.
#[local] Hint Resolve gone_alter gone_delete may_delete : txs.

Ltac ending :=
  repeat lazymatch goal with
  | |- removes (transaction _) => apply rm_transaction
  | |- removes (match _ with _ => _ end) => case_match
  | |- removes (delete_sessions _ ≫= _) => apply rm_after; [apply rm_delete|tx_frame]
  | |- removes (delete_sessions _) => apply rm_delete
  | |- removes (_ ≫= _) => apply rm_before; [tx_frame|intros]
  end.

Lemma change_removes clock keep h : keep <> k -> removes (ChangePassword clock r.(ss_account_id) keep h).
Proof.
  intros Hk. unfold ChangePassword, on_rooms. ending. rewrite str_eqb_refl. apply negb_true_iff, str_eqb_false. congruence.
Qed.
Lemma others_removes keep : keep <> k -> removes (DeleteAccountSessionsExcept r.(ss_account_id) keep).
Proof.
  intros Hk. unfold DeleteAccountSessionsExcept. ending. rewrite str_eqb_refl. apply negb_true_iff, str_eqb_false. congruence.
Qed.
Lemma suspend_removes now at_ actor e : removes (SetAccountStatus now at_ actor r.(ss_account_id) "suspended" e).
Proof.
  unfold SetAccountStatus, on_rooms. do 2 (apply rm_before; [tx_frame|intros]). apply rm_transaction.
  do 7 (apply rm_before; [tx_frame|intros]). apply rm_after; [|unfold disable_subscriptions; tx_frame].
  replace ("suspended" =s? "suspended")%string with true by done. unfold disable_subscriptions. ending. apply str_eqb_refl.
Qed.
Lemma revoke_removes now e a dev ty : r.(ss_device_id) = Some dev -> removes (revokeDeviceTx now e a dev ty).
Proof.
  intros Hd. unfold revokeDeviceTx, on_rooms, retireDeviceLinksV3ForDevice, insertOptionalSyncEvent. ending.
  by apply bool_decide_eq_true.
Qed.
Lemma may_revoke now e a dev ty : preserves (fun d => has_row d.(sessions)) (revokeDeviceTx now e a dev ty).
Proof. unfold revokeDeviceTx, on_rooms, retireDeviceLinksV3ForDevice, insertOptionalSyncEvent. tx_frame. Qed.
#[local] Hint Resolve may_revoke : txs.
Lemma may_revoke_all now e a ids : preserves (fun d => has_row d.(sessions)) (revoke_all now e a ids).
Proof. induction ids; simpl; tx_frame. Qed.

Lemma revoke_all_removes now e a dev ids : r.(ss_device_id) = Some dev -> dev ∈ ids -> removes (revoke_all now e a ids).
Proof.
  intros Hd. induction ids as [|id ids IH]; intros Hin; [by apply not_elem_of_nil in Hin|]. simpl.
  apply elem_of_cons in Hin as [<-|Hin].
  - apply rm_after; [by apply revoke_removes|]. tx_frame.
    assert (SessionFrame (fun _ => False) (fun _ => False) no_row) as HF.
    { split; [done|intros S S' Hs Hn|done]. unfold no_row in *. apply eq_None_not_Some. intros [x Hx].
      destruct (Hs _ _ Hx) as (? & ? & _). congruence. }
    apply (follows_revoke_all _ _ no_row).
  - apply rm_before; [apply may_revoke|intros]. apply rm_after; [by apply IH|tx_frame].
Qed.

Lemma inserted_elsewhere tok x : tok <> k -> preserves (fun d => no_row d.(sessions)) (insert_session tok x).
Proof.
  intros Ht. unfold insert_session. tx_frame. intros s Hs. unfold no_row in *. simpl. by rewrite lookup_insert_ne.
Qed.

(** The session is account-only, or of a live device of its account. *)
Definition current_device (d : DB) : Prop :=
  match r.(ss_device_id) with Some dev => is_Some (live_device d r.(ss_account_id) dev) | None => True end.

Lemma take_over_removes pk clock id tok record s c s' :
  record.(rq_account_id) = r.(ss_account_id) -> current_device s.(db) -> tok <> k ->
  has_row s.(db).(sessions) -> take_over pk clock id tok record s = (Ok c, s') -> no_row s'.(db).(sessions).
Proof.
  intros Ea Hc Ht Hs H. unfold take_over in H. run_step H. run_step H. rewrite Ea in H. revert H.
  match goal with |- ?m s = _ -> _ => assert (removes m) as Hm; [|intros H; by eapply Hm] end.
  pose proof (inserted_elsewhere tok) as Hi. unfold mark_all_revoked, on_rooms, completedRecovery. unfold current_device in Hc.
  apply rm_before; [tx_frame|intros _]. destruct (ss_device_id r) as [dev|] eqn:Ed.
  - apply rm_after; [apply (revoke_all_removes _ _ _ dev); [done|]|].
    + destruct Hc as [x Hx]. unfold live_device in Hx. destruct (devices _ !! dev) as [y|] eqn:Ey; [|done].
      unfold activeDeviceIDsTx. rewrite order_by_perm. apply list_elem_of_fmap. exists (dev, y). split; [done|].
      rewrite list_elem_of_In, List.filter_In, <- list_elem_of_In, elem_of_map_to_list. split; [done|].
      by destruct (_ && _).
    + tx_frame; by apply Hi.
  - apply rm_before; [apply may_revoke_all|intros]. apply rm_after; [apply rm_delete; by rewrite str_eqb_refl, Ed|]. tx_frame; by apply Hi.
Qed.

Lemma delete_removes clock : removes (DeleteAccountData clock r.(ss_account_id)).
Proof. unfold DeleteAccountData, on_ident, on_rooms. ending. apply str_eqb_refl. Qed.
Lemma logout_removes now t : t = k \/ in_grace now t r = true -> removes (DeleteSession now t).
Proof.
  intros Ht. apply rm_delete. destruct Ht as [->|Ht]; [by rewrite str_eqb_refl|]. rewrite Ht. apply orb_true_r.
Qed.
End ending.

(** A run that ends the session [k]: logout by either token, a password
    change or a logout of the account's other sessions that keeps another
    one, suspension, revocation of its device, deletion of its account, and a
    recovery that takes the account over. *)
Inductive ends (k : string) (r : SessionRow) (s : Store) : Store -> Prop :=
| e_logout now t : t = k \/ in_grace now t r = true -> ends k r s (DeleteSession now t s).2
| e_password clock keep h x s' : keep <> k -> ChangePassword clock r.(ss_account_id) keep h s = (Ok x, s') -> ends k r s s'
| e_others keep n s' : keep <> k -> DeleteAccountSessionsExcept r.(ss_account_id) keep s = (Ok n, s') -> ends k r s s'
| e_suspend now at_ actor e x s' : SetAccountStatus now at_ actor r.(ss_account_id) "suspended" e s = (Ok x, s') -> ends k r s s'
| e_revoke now e a dev ty id s' : r.(ss_device_id) = Some dev -> revokeDevice now e a dev ty s = (Ok id, s') -> ends k r s s'
| e_delete clock keys s' : DeleteAccountData clock r.(ss_account_id) s = (Ok keys, s') -> ends k r s s'
| e_recover pk clock id t tok c record s' :
    s.(db).(ident).(recovery_requests) !! TrimSpace id = Some record -> record.(rq_account_id) = r.(ss_account_id) ->
    current_device r s.(db) -> ~ answers tok k r ->
    CompleteRecovery pk clock id t tok s = (Ok c, s') -> c.(rx_SessionIssued) = true -> ends k r s s'.

#[export] Instance shrinks_frame S0 : SessionFrame (fun _ => False) (fun _ => False) (shrinks S0).
Proof.
  split; [done| |done]. intros S S' H' H k r' Hk. destruct (H' _ _ Hk) as (x & Hx & E'). destruct (H _ _ Hx) as (y & Hy & E).
  exists y. split; [done|]. destruct E' as [-> | ->]; auto.
Qed.

(** Only the session [k] answers to the token. *)
Definition only (k t : string) (S : session_table) : Prop := forall k' x, S !! k' = Some x -> answers t k' x -> k' = k.

#[export] Instance only_frame k t : SessionFrame (fun tok => tok <> t) (fun _ => False) (only k t).
Proof.
  split; [| |done].
  - intros S tok x Ht Hn Hp Ho k' y. rewrite lookup_insert. destruct (decide (tok = k')) as [<-|].
    + intros [= <-] [?|?]; congruence.
    + apply Ho.
  - intros S S' Hs Ho k' y Hy Ha. destruct (Hs _ _ Hy) as (x & Hx & E). apply (Ho _ _ Hx).
    destruct Ha as [->|Ha]; [by left|right]. destruct E; congruence.
Qed.

Lemma unambiguous_only S k r t : unambiguous S -> S !! k = Some r -> answers t k r -> only k t S.
Proof.
  intros HU Hk Ha k' x Hx Hx'. destruct Ha as [->|Ha], Hx' as [->|Hx']; [done|..].
  - by destruct (HU _ _ _ _ _ Hx Hk Hx').
  - by destruct (HU _ _ _ _ _ Hk Hx Ha).
  - destruct (HU _ _ _ _ _ Hk Hx Ha) as [_ HE]. by rewrite (HE Hx').
Qed.

Lemma recover_removes pk clock id t tok s c s' k r record :
  s.(db).(ident).(recovery_requests) !! TrimSpace id = Some record -> record.(rq_account_id) = r.(ss_account_id) ->
  current_device r s.(db) -> tok <> k -> s.(db).(sessions) !! k = Some r ->
  CompleteRecovery pk clock id t tok s = (Ok c, s') -> c.(rx_SessionIssued) = true -> s'.(db).(sessions) !! k = None.
Proof.
  intros Hr Ea Hc Ht Hk H Hi. destruct (CompleteRecovery_issued _ _ _ _ _ _ _ _ H Hi) as (x & acct & Hx & _ & Hto).
  rewrite Hr in Hx. injection Hx as <-. apply (take_over_removes k r) in Hto; [done..|by left].
Qed.

Lemma ends_removes k r s s' : ends k r s s' -> s.(db).(sessions) !! k = Some r -> s'.(db).(sessions) !! k = None.
Proof.
  intros H Hk. assert (has_row k r s.(db).(sessions)) as Hh by by left.
  destruct H as [now t Ht|clock keep h x s' Hne H|keep n s' Hne H|now at_ actor e x s' H|now e a dev ty id s' Hd H|clock keys s' H|
                 pk clock id t tok c record s' Hr Ea Hc Ht H Hi].
  - by eapply (logout_removes k r).
  - by eapply (change_removes k r).
  - by eapply (others_removes k r).
  - by eapply (suspend_removes k r).
  - apply transaction_ok in H. by eapply (revoke_removes k r).
  - by eapply (delete_removes k r).
  - eapply recover_removes; eauto. intros ->. apply Ht. by left.
Qed.

(** Ending a session keeps every token with the session it had. *)
Lemma ends_only k r s s' t : ends k r s s' -> answers t k r -> only k t s.(db).(sessions) -> only k t s'.(db).(sessions).
Proof.
  intros H Ha Ho.
  assert (forall A (m : Tx A) x s2, preserves (fun d => only k t d.(sessions)) m -> m s = (x, s2) -> only k t s2.(db).(sessions)) as Hm.
  { intros A m x s2 Hp E. specialize (Hp s Ho). by rewrite E in Hp. }
  destruct H as [now t' Ht|clock keep h x s' Hne H|keep n s' Hne H|now at_ actor e x s' H|now e a dev ty id s' Hd H|clock keys s' H|
                 pk clock id t' tok c record s' Hr Ea Hc Ht H Hi].
  - by apply (follows_logout _ _ (only k t)).
  - eapply Hm, H. apply (follows_change _ _ (only k t)).
  - eapply Hm, H. apply (follows_except _ _ (only k t)).
  - eapply Hm, H. apply (follows_status _ _ (only k t)).
  - eapply Hm, H. apply (follows_revoke _ _ (only k t)).
  - eapply Hm, H. apply (follows_delete_account _ _ (only k t)).
  - eapply Hm, H. apply (follows_recover (fun tok => tok <> t) _ (only k t)). intros ->. by apply Ht.
Qed.

(** C15: an ended session stays ended.  Start without sessions, and let
    requests create, use, rotate and remove sessions in any order, each new
    token being one no session has rotated out.  However a session is then
    ended (logout by either of its tokens, a password change, logging out
    the other sessions, suspension, revocation of its device, deletion of its
    account, a recovery of the account), neither its current token nor the
    one it rotated out is ever accepted again, whatever happens afterwards,
    as long as the server does not issue that very token anew. *)
Theorem ended_sessions_stay_ended s0 s s1 s2 k r t now :
  s0.(db).(sessions) = ∅ -> rtc (session_step new_token) s0 s ->
  s.(db).(sessions) !! k = Some r -> answers t k r -> ends k r s s1 ->
  rtc (session_step (fun _ tok => tok <> t)) s1 s2 ->
  (SessionPrincipal now t s2).1 = Err ErrUnauthorized.
Proof.
  intros H0 Hh Hk Ha He Hl. apply dead_unauthorized. eapply steps_dead; [done|].
  assert (unambiguous s.(db).(sessions)) as HU. { eapply steps_unambiguous; [done|]. rewrite H0. by intros ?????. }
  pose proof (ends_only _ _ _ _ _ He Ha (unambiguous_only _ _ _ _ HU Hk Ha)) as Ho.
  pose proof (ends_removes _ _ _ _ He Hk) as Hn. intros k' x Hx Hax. rewrite (Ho _ _ Hx Hax) in Hx. congruence.
Qed.

(** ** Rotation *)

Lemma unique_filter {A} (p : A -> bool) (l : list A) x :
  NoDup l -> x ∈ l -> p x = true -> (forall y, y ∈ l -> p y = true -> y = x) -> List.filter p l = [x].
Proof.
  intros Hnd Hx Hp Hu. induction Hnd as [|y l Hy Hnd IH]; [by apply not_elem_of_nil in Hx|]. simpl.
  apply elem_of_cons in Hx as [<-|Hx].
  - rewrite Hp. f_equal. apply filter_all_false, Forall_forall. intros z Hz. destruct (p z) eqn:E; [|done].
    rewrite (Hu z) in Hz; [done|by right|done].
  - destruct (p y) eqn:E; [|apply IH; [done|]; intros; apply Hu; [by right|done]].
    rewrite (Hu y) in Hy; [done|by left|done].
Qed.

Lemma principal_current s now t r :
  s.(db).(sessions) !! t = Some r -> sessionValidity s.(session_policy) s.(db) now r = true ->
  (SessionPrincipal now t s).1 = Ok (scanSessionPrincipal s.(db) r false).
Proof. intros Hr Hv. unfold SessionPrincipal, get_policy, read, mbind, Tx_bind, option_bind. by rewrite Hr, Hv. Qed.

(** A token answers only for a session in which it is current, or retired
    inside its grace. *)
Lemma principal_refused s now t :
  (forall k r, s.(db).(sessions) !! k = Some r -> answers t k r ->
     sessionValidity s.(session_policy) s.(db) now r && ((k =s? t) || in_grace now t r) = false) ->
  (SessionPrincipal now t s).1 = Err ErrUnauthorized.
Proof.
  intros H. unfold SessionPrincipal, get_policy, read, mbind, Tx_bind, option_bind.
  assert (previous_session s.(session_policy) s.(db) now t = None) as Hp.
  { unfold previous_session. destruct (List.filter _ _) as [|[k r] l] eqn:F; simpl; [done|].
    assert ((k, r) ∈ (k, r) :: l) as Hin by by left.
    rewrite <- F, list_elem_of_In, List.filter_In, <- list_elem_of_In, elem_of_map_to_list in Hin.
    destruct Hin as [Hk [Hg Hv]%andb_prop]. assert (answers t k r) as Ha.
    { right. unfold in_grace in Hg. by bool_to_prop. }
    specialize (H _ _ Hk Ha). by rewrite Hv, Hg, orb_true_r in H. }
  destruct (s.(db).(sessions) !! t) as [r|] eqn:E.
  - specialize (H _ _ E (or_introl eq_refl)). rewrite str_eqb_refl, andb_true_r in H. by rewrite H, Hp.
  - by rewrite Hp.
Qed.

Lemma principal_retired s now t k r :
  s.(db).(sessions) !! k = Some r -> only k t s.(db).(sessions) -> k <> t ->
  in_grace now t r = true -> sessionValidity s.(session_policy) s.(db) now r = true ->
  (SessionPrincipal now t s).1 = Ok (scanSessionPrincipal s.(db) r true).
Proof.
  intros Hk Ho Hne Hg Hv. unfold SessionPrincipal, get_policy, read, mbind, Tx_bind, option_bind.
  destruct (s.(db).(sessions) !! t) as [r'|] eqn:E; [by rewrite (Ho _ _ E (or_introl eq_refl)) in Hne|].
  unfold previous_session. rewrite (unique_filter _ _ (k, r)); [done|apply NoDup_map_to_list|by apply elem_of_map_to_list|..].
  - by rewrite Hg, Hv.
  - intros [k' r'] Hin%elem_of_map_to_list [Hg' _]%andb_prop. unfold in_grace in Hg'. apply andb_prop in Hg' as [Hg' _].
    apply bool_decide_eq_true in Hg'. assert (k' = k) as -> by (eapply Ho; [done|by right]). congruence.
Qed.

(** The row and the token after a rotation. *)
Lemma rotate_exact s k r t new now :
  unambiguous s.(db).(sessions) -> s.(db).(sessions) !! k = Some r -> presented s.(session_policy) now t k r = true ->
  dead new s.(db).(sessions) -> t <> ""%string -> new <> ""%string ->
  RotateSession now t new s =
    (Ok tt, with_db s (upd_sessions (fun S => <[new := rotated s.(session_policy) now t k r]> (delete k S)) s.(db))).
Proof.
  intros HU Hk Hp Hd Ht Hn. unfold RotateSession, get_policy, read, mbind, Tx_bind, guard_tx.
  assert (answers t k r) as Ha.
  { unfold presented in Hp. apply andb_prop in Hp as [Hp _]. apply orb_true_iff in Hp as [->%str_eqb_true|Hg]; [by left|right].
    unfold in_grace in Hg. by bool_to_prop. }
  assert (t <> new) as Hne by (intros ->; by apply (Hd _ _ Hk)).
  apply str_eqb_false in Ht, Hn, Hne. rewrite Ht, Hn, Hne. simpl.
  rewrite (unique_filter _ _ (k, r)); [|apply NoDup_map_to_list|by apply elem_of_map_to_list|done|].
  - simpl. replace (exists_in _ new) with false; [by rewrite orb_true_r|]. symmetry. apply bool_decide_eq_false. intros [x Hx].
    by apply (Hd _ _ Hx); left.
  - intros [k' r'] Hin%elem_of_map_to_list Hp'. assert (answers t k' r') as Ha'.
    { unfold presented in Hp'. apply andb_prop in Hp' as [Hp' _]. apply orb_true_iff in Hp' as [->%str_eqb_true|Hg]; [by left|right].
      unfold in_grace in Hg. by bool_to_prop. }
    assert (k' = k) as -> by (eapply unambiguous_only; eauto). congruence.
Qed.

(** When the token presented for a rotation stops working. *)
Definition grace_end (now : Z) (t k : string) (r : SessionRow) : Z :=
  if k =s? t then time_add now SessionRotationGrace else default 0 r.(ss_previous_expires_at).

Section rotated.
Context (p : sessionPolicy) (k : string) (r : SessionRow) (t : string) (now : Z) (Hp : presented p now t k r = true).
Let r' := rotated p now t k r.

Lemma presented_answers : answers t k r.
Proof.
  unfold presented in Hp. apply andb_prop in Hp as [Hp' _]. apply orb_true_iff in Hp' as [->%str_eqb_true|Hg]; [by left|right].
  unfold in_grace in Hg. by bool_to_prop.
Qed.

(** The presented token is the one the new row has retired. *)
Lemma rotated_retires : r'.(ss_previous_token_hash) = Some t /\ r'.(ss_previous_expires_at) = Some (grace_end now t k r).
Proof.
  unfold r', rotated, grace_end. simpl. destruct (k =s? t) eqn:E; [by apply str_eqb_true in E as ->|].
  unfold presented in Hp. rewrite E in Hp. apply andb_prop in Hp as [Hg _]. unfold in_grace in Hg. simpl in Hg.
  apply andb_prop in Hg as [Hg He]. apply bool_decide_eq_true in Hg. by destruct (ss_previous_expires_at r).
Qed.

Context (S : session_table) (new : string) (HU : unambiguous S) (Hk : S !! k = Some r) (Hd : dead new S).
Let S' : session_table := <[new := r']> (delete k S).

Lemma rotated_unambiguous : unambiguous S'.
Proof.
  apply (fr_rotate (SessionFrame := unambiguous_frame new) S k r new r'); [done..| | |].
  - right. apply eq_None_not_Some. intros [x Hx]. by apply (Hd _ _ Hx); left.
  - unfold r', rotated. simpl. destruct (k =s? t); [left|by right]. split; [done|]. intros ->. by apply (Hd _ _ Hk); left.
  - split; [done|]. intros k' x Hx He. by apply (Hd _ _ Hx); right.
Qed.

Lemma rotated_only q : q = t \/ q = new -> only new q S'.
Proof.
  intros Hq. apply (unambiguous_only _ _ r'); [apply rotated_unambiguous|by apply lookup_insert_eq|].
  destruct Hq as [-> | ->]; [right; apply rotated_retires|by left].
Qed.

Lemma rotated_dead q : answers q k r -> q <> t -> dead q S'.
Proof.
  intros Ha Hq k' x. unfold S'. rewrite lookup_insert, lookup_delete. destruct (decide (new = k')) as [<-|].
  - intros [= <-] [<-|E]; [by apply (Hd _ _ Hk)|]. destruct rotated_retires as [E' _]. fold r' in E. congruence.
  - destruct (decide (k = k')); [done|]. intros Hx Hax. pose proof (unambiguous_only _ _ _ _ HU Hk Ha _ _ Hx Hax). congruence.
Qed.
End rotated.

(** What a rotation does.  A session presented by its current token, or
    by its previous one inside the grace, is given the new token: from then
    on the new token is the one that carries the fresh authentication, as
    long as the session is valid; the token that was presented works until
    its grace ends (two minutes from now, or the old grace when it was
    already retired), without recent authentication and with an expiry
    within that grace; every other token of the session is refused at once. *)
Theorem rotation_replaces_tokens s k r t new now :
  unambiguous s.(db).(sessions) -> s.(db).(sessions) !! k = Some r -> presented s.(session_policy) now t k r = true ->
  dead new s.(db).(sessions) -> t <> ""%string -> new <> ""%string ->
  exists s', RotateSession now t new s = (Ok tt, s') /\
    let r' := rotated s.(session_policy) now t k r in
    let valid now' := sessionValidity s.(session_policy) s'.(db) now' r' in
    (forall now', if valid now' then exists p act, (SessionPrincipal now' new s').1 = Ok (p, act) /\
                      p.(pr_RecentAuthAt) = Some now /\ act.(sa_RotatedOut) = false
                  else (SessionPrincipal now' new s').1 = Err ErrUnauthorized) /\
    (forall now', if valid now' && (now' <? grace_end now t k r)
                  then exists p act, (SessionPrincipal now' t s').1 = Ok (p, act) /\ p.(pr_RecentAuthAt) = None /\
                      act.(sa_RotatedOut) = true /\ p.(pr_ExpiresAt) <= grace_end now t k r
                  else (SessionPrincipal now' t s').1 = Err ErrUnauthorized) /\
    (forall now' q, answers q k r -> q <> t -> (SessionPrincipal now' q s').1 = Err ErrUnauthorized).
Proof.
  intros HU Hk Hp Hd Ht Hn. eexists. split; [by apply rotate_exact|]. intros r' valid.
  set (s' := with_db s _) in *. assert (s'.(db).(sessions) !! new = Some r') as Hnew by apply lookup_insert_eq.
  pose proof (rotated_only _ _ _ _ _ Hp _ _ HU Hk Hd) as Ho. fold r' in Ho. change (<[new:=r']> _) with s'.(db).(sessions) in Ho.
  destruct (rotated_retires _ _ _ _ _ Hp) as [Hprev Hgrace]. fold r' in Hprev, Hgrace.
  assert (new <> t) as Hne. { intros <-. by apply (Hd _ _ Hk), (presented_answers _ _ _ _ _ Hp). }
  assert (forall now', in_grace now' t r' = (now' <? grace_end now t k r)) as Hg.
  { intros now'. unfold in_grace. by rewrite Hprev, Hgrace, bool_decide_true. }
  split; [|split].
  - intros now'. destruct (valid now') eqn:E.
    + eexists _, _. split; [by apply principal_current|done].
    + apply principal_refused. intros k' x Hx Ha. rewrite (Ho new (or_intror eq_refl) _ _ Hx Ha), Hnew in Hx. injection Hx as <-.
      apply andb_false_iff. by left.
  - intros now'. destruct (valid now' && _) eqn:E.
    + apply andb_prop in E as [Ev Eg]. eexists _, _. split.
      { apply (principal_retired _ _ _ new r'); [done|apply Ho; by left|done|by rewrite Hg|done]. }
      split; [done|]. split; [done|]. unfold scanSessionPrincipal. cbn [pr_ExpiresAt]. rewrite Hgrace. cbn. unfold time_before.
      destruct (grace_end now t k r <? _) eqn:El; lia.
    + apply principal_refused. intros k' x Hx Ha. pose proof (Ho t (or_introl eq_refl) _ _ Hx Ha) as ->. rewrite Hnew in Hx.
      injection Hx as <-. apply str_eqb_false in Hne. by rewrite Hne, Hg.
  - intros now' q Ha Hq. apply dead_unauthorized. by apply (rotated_dead _ _ _ _ _ Hp).
Qed.
