(* ===== verification/LinkRules.v ===== *)
(** * Rules of device links

    What [DeviceLinks] guarantees: the signed proof of a claim determines
    everything that was claimed, a link only moves forward and its claim
    never changes, and a device is linked only after the source device
    approved exactly that claim. *)

From S2P Require Import Prelude GoStrings GoJson Domain Admission Database Conversations Memberships Messages Retention MessageEvents PushWake Mls MlsGroups MlsRules Blobs Identity Sessions DeviceLinks History Devices Recovery Accounts SessionRules.
From stdpp Require Import base numbers list strings gmap fin_maps sorting.
From Stdlib Require Import ZArith ZifyBool Lia.
Open Scope Z_scope.

(** ** The proof of a claim *)

Lemma append_inj (a b c d : string) : String.length a = String.length b -> (a +:+ c = b +:+ d)%string -> a = b /\ c = d.
Proof.
  revert b. induction a as [|x a IH]; intros [|y b] Hl E; simpl in *; [done|lia|lia|].
  injection E as -> E. destruct (IH b) as [-> ->]; [lia|done|done].
Qed.

Lemma u16be_length n : String.length (u16be n) = 2%nat.
Proof. done. Qed.

Lemma ascii_inj m n : 0 <= m < 256 -> 0 <= n < 256 -> Ascii.ascii_of_N (Z.to_N m) = Ascii.ascii_of_N (Z.to_N n) -> m = n.
Proof.
  intros Hm Hn E. apply (f_equal Ascii.N_of_ascii) in E. rewrite !Ascii.N_ascii_embedding in E by lia. lia.
Qed.

Lemma u16be_inj m n : 0 <= m <= 65535 -> 0 <= n <= 65535 -> u16be m = u16be n -> m = n.
Proof.
  intros Hm Hn E. injection E as E1 E2.
  apply ascii_inj in E1; [|split; dm_lia|split; dm_lia]. apply ascii_inj in E2; [|split; dm_lia|split; dm_lia]. dm_lia.
Qed.

Definition field_ok (f : string) : Prop := 0 < blen f <= 65535.

Lemma append_assoc (a b c : string) : ((a +:+ b) +:+ c = a +:+ (b +:+ c))%string.
Proof. induction a as [|x a IH]; [done|]. change (String x ((a +:+ b) +:+ c) = String x (a +:+ (b +:+ c)))%string. by rewrite IH. Qed.

Lemma lp_inj a b c d : field_ok a -> field_ok b -> (lp a +:+ c = lp b +:+ d)%string -> a = b /\ c = d.
Proof.
  intros Ha Hb E. unfold lp in E. rewrite !append_assoc in E. apply append_inj in E as [E1 E]; [|done].
  apply u16be_inj in E1; [|unfold field_ok in *; lia..]. apply append_inj; [unfold blen in E1; lia|done].
Qed.

Lemma lp_fields_inj l1 l2 c d :
  length l1 = length l2 -> Forall field_ok l1 -> Forall field_ok l2 ->
  (concat_str (map lp l1) +:+ c = concat_str (map lp l2) +:+ d)%string -> l1 = l2 /\ c = d.
Proof.
  intros Hl H1. revert l2 Hl. induction H1 as [|x l1 Hx _ IH]; intros [|y l2] Hl H2 E; [done..|].
  inversion H2 as [|? ? Hy H2']; subst. simpl in E. rewrite !append_assoc in E. apply lp_inj in E as [-> E]; [|done..].
  destruct (IH l2) as [-> ->]; [by injection Hl|done|done|done].
Qed.

(** Fields of one width need no lengths. *)
Lemma fixed_fields_inj l1 l2 :
  length l1 = length l2 -> Forall (fun f => blen f = 32) l1 -> Forall (fun f => blen f = 32) l2 -> concat_str l1 = concat_str l2 -> l1 = l2.
Proof.
  intros Hl H1. revert l2 Hl. induction H1 as [|x l1 Hx _ IH]; intros [|y l2] Hl H2 E; [done..|].
  inversion H2 as [|? ? Hy H2']; subst. simpl in E. apply append_inj in E as [-> E]; [|unfold blen in *; lia].
  f_equal. apply IH; [by injection Hl|done|done].
Qed.

Lemma valid_hash_decoded h : validV3Hash h = true -> blen (decoded h) = 32 /\ hex_encode (decoded h) = h.
Proof.
  unfold validV3Hash, decoded. destruct (DecodeString h) as [b|]; [|done]. simpl. intros [Hl%Z.eqb_eq He%str_eqb_true]%andb_prop. done.
Qed.

(** A hash is determined by the bytes it spells. *)
Lemma decoded_inj a b : validV3Hash a = true -> validV3Hash b = true -> decoded a = decoded b -> a = b.
Proof. intros [_ Ea]%valid_hash_decoded [_ Eb]%valid_hash_decoded E. congruence. Qed.

Section proof.
Context `{GoCrypto}.

Lemma proof_message_ok i r m :
  DeviceLinkV3ProofMessage i r = Ok m ->
  claim_input_valid i = true /\ Forall field_ok (proof_fields i r) /\
  m = ("veritra-device-link-enrollment-v3" +:+ concat_str (map lp (proof_fields i r)) +:+ concat_str (proof_tail i))%string.
Proof.
  unfold DeviceLinkV3ProofMessage. destruct (negb _) eqn:Ev; [done|]. destruct (existsb _ _) eqn:Ee; [done|]. intros [= <-].
  apply negb_false_iff in Ev. split; [done|]. split; [|done]. apply Forall_forall. intros f Hf.
  apply not_true_iff_false in Ee. unfold field_ok. destruct ((blen f =? 0) || (65535 <? blen f)) eqn:E.
  - exfalso. apply Ee, existsb_exists. exists f. split; [by apply list_elem_of_In|done].
  - apply orb_false_iff in E. assert (0 <= blen f) by (unfold blen; lia). lia.
Qed.

Lemma tail_fields_ok i : claim_input_valid i = true -> Forall (fun f => blen f = 32) (proof_tail i).
Proof.
  intros Hv. unfold claim_input_valid in Hv. rewrite !andb_true_iff, !Z.eqb_eq in Hv. destruct_and!.
  repeat constructor; try done; try apply Sum256_size; by apply valid_hash_decoded.
Qed.

(** A signed claim binds everything it claims.  If two claims, for
    whatever reservations, are accepted with the same proof message, then
    they agree on the server, the code, the reservation with its account and
    device and challenge, the device's name, its signing and transfer keys,
    the digest of its key package, the transcript, the claim tag and the
    three secrets' hashes: no byte of one field can pass for another's. *)
Theorem proof_message_binds i1 r1 i2 r2 m :
  DeviceLinkV3ProofMessage i1 r1 = Ok m -> DeviceLinkV3ProofMessage i2 r2 = Ok m ->
  ci_ServerOrigin i1 = ci_ServerOrigin i2 /\ ci_Code i1 = ci_Code i2 /\ ci_ReservationRequestID i1 = ci_ReservationRequestID i2 /\
  en_ID r1 = en_ID r2 /\ en_AccountID r1 = en_AccountID r2 /\ en_DeviceID r1 = en_DeviceID r2 /\ en_Challenge r1 = en_Challenge r2 /\
  ci_DeviceName i1 = ci_DeviceName i2 /\ ci_SigningKey i1 = ci_SigningKey i2 /\
  Sum256 (ci_DeviceKeyPackage i1) = Sum256 (ci_DeviceKeyPackage i2) /\ ci_TransferPublicKey i1 = ci_TransferPublicKey i2 /\
  ci_TranscriptHash i1 = ci_TranscriptHash i2 /\ ci_ClaimTag i1 = ci_ClaimTag i2 /\ ci_ClaimTokenHash i1 = ci_ClaimTokenHash i2 /\
  ci_DeviceSecretHash i1 = ci_DeviceSecretHash i2 /\ ci_InitialSessionTokenHash i1 = ci_InitialSessionTokenHash i2.
Proof.
  intros (Hv1 & Hf1 & E1)%proof_message_ok (Hv2 & Hf2 & E2)%proof_message_ok. rewrite E1 in E2.
  apply append_inj in E2 as [_ E2]; [|done]. apply lp_fields_inj in E2 as [Ef Et]; [|done..].
  apply fixed_fields_inj in Et; [|done|by apply tail_fields_ok..].
  unfold claim_input_valid in Hv1, Hv2. rewrite !andb_true_iff in Hv1, Hv2. destruct_and!.
  injection Ef as ? ? Hq ? ? ? ? ?. injection Et as ? ? ? ? ? Ht Hd Hs.
  apply decoded_inj in Hq, Ht, Hd, Hs; done.
Qed.
End proof.

(** ** The life of a link *)

Abbreviation link_table := (gmap string DeviceLinkV3Row).

(** What is fixed at the creation of a link. *)
Definition static (r : DeviceLinkV3Row) :=
  (r.(lk_code), r.(lk_account_id), r.(lk_source_device_id), r.(lk_server_origin), r.(lk_ttl_seconds), r.(lk_link_nonce),
   r.(lk_created_at), r.(lk_expires_at)).

Definition rank (state : string) : Z :=
  if state =s? "pending" then 0 else if state =s? "claimed" then 1 else if state =s? "approved" then 2
  else if state =s? "consumed" then 3 else 4.

(** An open link may be revoked; otherwise the states follow each other.
    [appr]: an open link may be approved. *)
Definition state_moves (appr : Prop) (a b : string) : Prop :=
  a = b \/ (rank a < rank b /\ (b = "revoked"%string -> rank a <= 1) /\ (rank a <= 1 -> 2 <= rank b <= 3 -> appr)).

(** A column that is written once. *)
Definition once {A} (a b : option A) : Prop := a = None \/ b = a.

Record link_evolves (appr : Prop) (r r' : DeviceLinkV3Row) : Prop := {
  ev_static : static r' = static r;
  ev_state : state_moves appr r.(lk_state) r'.(lk_state);
  ev_reservation : once r.(lk_reservation) r'.(lk_reservation);
  ev_claim : once r.(lk_claim) r'.(lk_claim);
  ev_approval : once r.(lk_approval_tag) r'.(lk_approval_tag);
  ev_deadline : once r.(lk_transfer_expires_at) r'.(lk_transfer_expires_at);
  ev_completed : once r.(lk_completed_at) r'.(lk_completed_at) }.

(** The columns of a state are filled, and those of later states are not. *)
Record link_ok (r : DeviceLinkV3Row) : Prop := {
  ok_state : r.(lk_state) ∈ ["pending"; "claimed"; "approved"; "consumed"; "revoked"]%string;
  ok_pending : r.(lk_state) = "pending"%string -> r.(lk_claim) = None;
  ok_claimed : 1 <= rank r.(lk_state) <= 3 -> is_Some r.(lk_claim) /\ is_Some r.(lk_reservation);
  ok_open : rank r.(lk_state) <= 1 -> r.(lk_approval_tag) = None /\ r.(lk_transfer_expires_at) = None;
  ok_approved : 2 <= rank r.(lk_state) <= 3 -> is_Some r.(lk_approval_tag) /\ is_Some r.(lk_transfer_expires_at);
  ok_unfinished : rank r.(lk_state) <= 2 -> r.(lk_completed_at) = None;
  ok_consumed : r.(lk_state) = "consumed"%string -> is_Some r.(lk_completed_at) }.

Lemma once_refl {A} (a : option A) : once a a.
Proof. by right. Qed.
Lemma once_trans {A} (a b c : option A) : once a b -> once b c -> once a c.
Proof. intros [-> | ->]; [by left|done]. Qed.
#[local] Hint Resolve once_refl : core.

Lemma state_moves_trans appr a b c : state_moves appr a b -> state_moves appr b c -> state_moves appr a c.
Proof.
  intros [->|(H1 & H1' & H1'')] [->|(H2 & H2' & H2'')]; [by left|by right; auto|by right; auto|right]. split; [lia|]. split.
  - intros ->. specialize (H2' eq_refl). lia.
  - intros Ha Hc. destruct (decide (rank b <= 1)); [by apply H2''|apply H1''; lia].
Qed.

(** A move from a known state. *)
Ltac state_step :=
  right; repeat match goal with H : lk_state _ = _ |- _ => rewrite H; clear H end;
  unfold rank; simpl; repeat split; intros; try discriminate; try lia; auto.

Lemma link_evolves_refl appr r : link_evolves appr r r.
Proof. split; auto. by left. Qed.

Lemma link_evolves_trans appr r1 r2 r3 : link_evolves appr r1 r2 -> link_evolves appr r2 r3 -> link_evolves appr r1 r3.
Proof. intros [] []. split; eauto using once_trans, state_moves_trans. congruence. Qed.

(** Each link of the table is well formed. *)
Definition links_ok (L : link_table) : Prop := forall id r, L !! id = Some r -> link_ok r.

(** Since [L0], rows went away or evolved; the others have an id in [new]. *)
Definition links_since (appr : Prop) (new : string -> Prop) (L0 L : link_table) : Prop :=
  forall id r, L !! id = Some r -> new id \/ exists r0, L0 !! id = Some r0 /\ link_evolves appr r0 r.

Lemma links_since_refl appr new L : links_since appr new L L.
Proof. intros id r Hr. right. eauto using link_evolves_refl. Qed.

Lemma links_since_trans appr new L1 L2 L3 : links_since appr new L1 L2 -> links_since appr new L2 L3 -> links_since appr new L1 L3.
Proof.
  intros H1 H2 id r3 H3. destruct (H2 _ _ H3) as [Hn|(r2 & Hr2 & E2)]; [by left|].
  destruct (H1 _ _ Hr2) as [Hn|(r1 & Hr1 & E1)]; [by left|right]. eauto using link_evolves_trans.
Qed.

(** Dropping rows, and updating one. *)
Lemma links_shrink appr new (L L' : link_table) :
  (forall id r, L' !! id = Some r -> L !! id = Some r) -> links_ok L -> links_ok L' /\ links_since appr new L L'.
Proof. intros Hs Ho. split; [intros id r Hr; eauto|]. intros id r Hr. right. eauto using link_evolves_refl. Qed.

Lemma links_update appr new (L : link_table) id p f :
  (forall r, L !! id = Some r -> p r = true -> link_ok r -> link_ok (f r) /\ link_evolves appr r (f r)) ->
  links_ok L -> links_ok (update_row L id p f).1 /\ links_since appr new L (update_row L id p f).1.
Proof.
  intros Hf Ho. unfold update_row. destruct (L !! id) as [r|] eqn:E; simpl; [|by split; [|apply links_since_refl]].
  destruct (p r) eqn:Ep; simpl; [|by split; [|apply links_since_refl]]. destruct (Hf r eq_refl Ep (Ho _ _ E)) as [Hok He].
  split; intros id' r'; rewrite lookup_insert; (destruct (decide (id = id')) as [<-|]; [intros [= <-]|]); eauto using link_evolves_refl.
Qed.

Abbreviation links_of s := s.(db).(ident).(device_links_v3).

(** ** What the operations do to links *)

Lemma load_inv d p rec :
  loadDeviceLinkV3 d p = Some rec ->
  exists id r key, d.(ident).(device_links_v3) !! id = Some r /\ p id r = true /\ rec = scan_link id key r /\ r.(lk_revoked_at) = None /\
    account_is_live d r.(lk_account_id) = true /\ is_Some (live_device d r.(lk_account_id) r.(lk_source_device_id)).
Proof.
  unfold loadDeviceLinkV3. intros H%head_Some_elem_of%list_elem_of_omap. destruct H as ([id r] & Hin%elem_of_map_to_list & H).
  destruct (p id r) eqn:Ep; [|done]. unfold deviceLinkV3Select in H. destruct (_ && _) eqn:Ec; [|done].
  apply andb_prop in Ec as [[Ea Er]%andb_prop _]. apply bool_decide_eq_true in Er. apply fmap_Some in H as (x & Hx & ->).
  exists id, r, (default ""%string x.(dev_signing_key)). eauto 10.
Qed.

Lemma by_source_inv id a dev i r : by_source id a dev i r = true -> i = id /\ r.(lk_account_id) = a /\ r.(lk_source_device_id) = dev.
Proof. unfold by_source. rewrite !andb_true_iff, !str_eqb_true. intuition. Qed.

Lemma by_claim_token_inv id t i r :
  by_claim_token id t i r = true -> i = id /\ exists c, r.(lk_claim) = Some c /\ c.(lc_claim_token_hash) = t.
Proof.
  unfold by_claim_token. rewrite andb_true_iff, str_eqb_true, bool_decide_eq_true. intros [-> H]. split; [done|].
  by apply fmap_Some in H as (c & -> & ->); eauto.
Qed.

(** A guard in front of a transaction: a refusal changes nothing. *)
Lemma refused_unchanged {A} b e (m : Tx A) s e' s' :
  (guard_tx b e ≫= fun _ => transaction m) s = (Err e', s') -> s'.(db) = s.(db).
Proof.
  unfold guard_tx, mbind, Tx_bind. destruct b; [|by intros [= _ <-]]. unfold mret, Tx_ret. by intros [E _]%transaction_err.
Qed.

Lemma checkDevices_ok a s x s' : checkDevices a s = (Ok x, s') -> s' = s.
Proof. unfold checkDevices. intros H. run H. destruct (_ <=? _); by run H. Qed.

Lemma insert_device_ok id r s x s' :
  insert_device id r s = (Ok x, s') ->
  s' = with_db s (upd_rooms (upd_devices (insert id r)) s.(db)) /\ s.(db).(rooms).(devices) !! id = None.
Proof.
  unfold insert_device. intros H. run H. split; [done|]. apply andb_prop in Hrun as [Hrun _].
  apply negb_true_iff, bool_decide_eq_false in Hrun. by apply eq_None_not_Some.
Qed.

Lemma initial_package_ok i dev k t s x s' :
  insertInitialDeviceKeyPackage i dev k t s = (Ok x, s') -> exists f, s' = with_db s (upd_mls f s.(db)).
Proof. unfold insertInitialDeviceKeyPackage, insert_key_package, on_mls. intros H. run H. eauto. Qed.

Lemma links_alter appr new (L : link_table) id f :
  (forall r, link_ok r -> link_ok (f r) /\ link_evolves appr r (f r)) -> links_ok L -> links_ok (alter f id L) /\ links_since appr new L (alter f id L).
Proof.
  intros Hf Ho. split; intros id' r; rewrite lookup_alter; (destruct (decide (id = id')) as [<-|]; [intros (r0 & Hr0 & ->)%fmap_Some|]).
  all: eauto using link_evolves_refl. 1: apply (Hf r0), (Ho _ _ Hr0). right. exists r0. split; [done|]. apply (Hf r0), (Ho _ _ Hr0).
Qed.

Lemma cancelled_ok now r : link_ok r -> link_ok (set_history_cancelled now r).
Proof. by intros []. Qed.

(** What a run did to the links: well-formed links stay so and evolve. *)
Definition links_step (appr : Prop) (new : string -> Prop) (s s' : Store) : Prop :=
  links_ok (links_of s) -> links_ok (links_of s') /\ links_since appr new (links_of s) (links_of s').

Lemma same_links appr new s s' : links_of s' = links_of s -> links_step appr new s s'.
Proof. intros E Ho. rewrite E. split; [done|apply links_since_refl]. Qed.

Lemma updated_links appr new s s' id p f :
  links_of s' = (update_row (links_of s) id p f).1 ->
  (forall r, links_of s !! id = Some r -> p r = true -> link_ok r -> link_ok (f r) /\ link_evolves appr r (f r)) ->
  links_step appr new s s'.
Proof. intros E Hf Ho. rewrite E. by apply links_update. Qed.

(** Statements elsewhere leave the links alone. *)
Section elsewhere.
Context (Q : link_table -> Prop).
Abbreviation spares m := (preserves (fun d => Q d.(ident).(device_links_v3)) m).

Lemma spares_event a b c d e : spares (insertSyncEvent a b c d e).
Proof. by intros s. Qed.
Lemma spares_device id r : spares (insert_device id r).
Proof. unfold insert_device, on_rooms. tx_frame. Qed.
Lemma spares_package i d k t : spares (insertInitialDeviceKeyPackage i d k t).
Proof. unfold insertInitialDeviceKeyPackage, insert_key_package, on_mls. tx_frame. Qed.
Lemma spares_session t r : spares (insert_session t r).
Proof. unfold insert_session, on_sessions. tx_frame. Qed.
Lemma spares_delete_sessions g : spares (delete_sessions g).
Proof. unfold delete_sessions, on_sessions. tx_frame. Qed.
Lemma spares_audit now a t m : spares (insertAuditEvent now a t m).
Proof. unfold insertAuditEvent, on_ident. tx_frame. Qed.
Lemma spares_blob now k : spares (enqueueBlobDeletion now k).
Proof. unfold enqueueBlobDeletion, on_content. tx_frame. Qed.
#[local] Hint Resolve spares_event spares_device spares_package spares_session spares_delete_sessions spares_audit spares_blob : txs.
Lemma spares_intents now p : spares (retireHistoryIntents now p).
Proof. unfold retireHistoryIntents. tx_frame. Qed.
Lemma spares_transfers now p st : spares (retireHistoryTransfers now p st).
Proof. unfold retireHistoryTransfers. tx_frame. Qed.
#[local] Hint Resolve spares_intents spares_transfers : txs.
Lemma spares_history now p : spares (retireHistoryForLinks now p).
Proof. unfold retireHistoryForLinks. tx_frame. Qed.
Lemma spares_revocation c dev now : spares (completeMLSRevocationIfConfirmed c dev now).
Proof. unfold completeMLSRevocationIfConfirmed, set_revocation, on_mls. tx_frame. Qed.
#[local] Hint Resolve spares_revocation : txs.
Lemma spares_release dev now : spares (releaseMLSRevocationConfirmations dev now).
Proof. unfold releaseMLSRevocationConfirmations, on_mls. tx_frame. Qed.
Lemma spares_queue a dev now : spares (queueMLSRevocations a dev now).
Proof. unfold queueMLSRevocations, queue_revocation, on_mls. tx_frame. Qed.
Lemma spares_subscriptions g : spares (delete_subscriptions g).
Proof. unfold delete_subscriptions. tx_frame. Qed.
Lemma spares_request id f : spares (set_waiting id f).
Proof. unfold set_waiting, on_ident. tx_frame. Qed.
End elsewhere.
#[local] Hint Resolve spares_event spares_device spares_package spares_session spares_delete_sessions spares_audit spares_blob spares_intents
  spares_transfers spares_history spares_release spares_queue spares_subscriptions spares_request : txs.

(** The links after a statement that leaves them alone. *)
Lemma spared {A} (m : Tx A) s x s' :
  (forall Q : link_table -> Prop, preserves (fun d => Q d.(ident).(device_links_v3)) m) -> m s = (x, s') -> links_of s' = links_of s.
Proof. intros Hm E. specialize (Hm (fun L => L = links_of s) s eq_refl). by rewrite E in Hm. Qed.

Section operations.
Context `{GoCrypto}.

Lemma fresh_link_ok code a dev origin ttl nonce now expires :
  link_ok (mkDeviceLinkV3Row code a dev origin ttl "pending" nonce None None None now expires None None None None None).
Proof. split; simpl; try done; try (unfold rank; simpl; lia). set_solver. Qed.

Lemma create_links newID nonce clock a dev code origin ttl s x s' appr :
  CreateDeviceLinkV3 newID nonce clock a dev code origin ttl s = (Ok x, s') -> links_step appr (eq newID) s s'.
Proof.
  intros E. unfold CreateDeviceLinkV3, on_links in E. run E. destruct (loadDeviceLinkV3 _ _) as [ex|]; run E; [by apply same_links|].
  repeat match goal with
  | H : checkDevices _ _ = _ |- _ => apply checkDevices_ok in H as ->
  | H : (if _ then refuse _ _ else _) _ = _ |- _ => destruct (_ <=? _) in H; run H
  end.
  intros Ho. simpl. split.
  - intros id r. rewrite lookup_insert. destruct (decide (newID = id)) as [<-|]; [intros [= <-]; apply fresh_link_ok|apply Ho].
  - intros id r. rewrite lookup_insert. destruct (decide (newID = id)) as [<-|]; [by left|]. intros Hr. right. eauto using link_evolves_refl.
Qed.

(** The columns a state leaves as they were. *)
Lemma set_link_evolves (appr : Prop) st res cl ap at_ te co rv r :
  state_moves appr r.(lk_state) st -> once r.(lk_reservation) res -> once r.(lk_claim) cl -> once r.(lk_approval_tag) ap ->
  once r.(lk_transfer_expires_at) te -> once r.(lk_completed_at) co -> link_evolves appr r (set_link st res cl ap at_ te co rv r).
Proof. by split. Qed.

Lemma reserve_links dev nonce now code req s x s' appr new :
  ReserveDeviceLinkV3 dev nonce now code req s = (Ok x, s') -> links_step appr new s s'.
Proof.
  intros E. unfold ReserveDeviceLinkV3, update_link, on_links in E. run E.
  destruct (_ =s? _) in E; run E; [|by apply same_links].
  eapply updated_links; [done|]. intros r Hr Hp%bool_decide_eq_true [].
  split; [split; simpl; auto; naive_solver|apply set_link_evolves; auto; [by left|by left]].
Qed.

Lemma claimed_step appr c r :
  r.(lk_state) = "pending"%string -> is_Some r.(lk_reservation) -> link_ok r ->
  let r' := set_link "claimed" r.(lk_reservation) (Some c) r.(lk_approval_tag) r.(lk_approved_at) r.(lk_transfer_expires_at) r.(lk_completed_at)
              r.(lk_revoked_at) r in
  link_ok r' /\ link_evolves appr r r'.
Proof.
  intros Hp Hres [Hst Hpe Hcl Hop Hap Hun Hco] r'. rewrite Hp in *. unfold rank in *. simpl in *. split.
  - split; simpl; try done; try (unfold rank; simpl; by auto with lia). set_solver.
  - apply set_link_evolves; auto; [by state_step|left; auto].
Qed.

Lemma consumed_step appr now r :
  r.(lk_state) = "approved"%string -> link_ok r ->
  let r' := set_link "consumed" r.(lk_reservation) r.(lk_claim) r.(lk_approval_tag) r.(lk_approved_at) r.(lk_transfer_expires_at) (Some now)
              r.(lk_revoked_at) r in
  link_ok r' /\ link_evolves appr r r'.
Proof.
  intros Hp [Hst Hpe Hcl Hop Hap Hun Hco] r'. rewrite Hp in *. unfold rank in *. simpl in *. split.
  - split; simpl; try done; try (unfold rank; simpl; by auto with lia). set_solver.
  - apply set_link_evolves; auto; [by state_step|left; auto with lia].
Qed.

Lemma claim_links t0 now i s x s' appr new : ClaimDeviceLinkV3 t0 now i s = (Ok x, s') -> links_step appr new s s'.
Proof.
  intros E. unfold ClaimDeviceLinkV3, update_link, on_links in E. run E. destruct (DeviceLinkV3ProofMessage _ _); run E.
  destruct (negb (_ =s? _)) in E; run E; [by apply same_links|].
  match goal with H : loadDeviceLinkV3 s.(db) _ = Some _ |- _ => apply load_inv in H as (id & r0 & key & Hr0 & _ & -> & _) end.
  eapply updated_links; [done|]. intros r Hr Hp%str_eqb_true Hok. simpl in Hr. rewrite Hr in Hr0. injection Hr0 as <-.
  assert (is_Some r.(lk_reservation)) as Hres.
  { match goal with H : negb (_ || _ || _ || _) = true |- _ => rename H into Hg end. destruct (lk_reservation r) eqn:Er; [by eexists|].
    simpl in Hg. rewrite Er in Hg. simpl in Hg. by rewrite orb_true_r in Hg. }
  by apply claimed_step.
Qed.

Lemma approved_step tag now te r :
  r.(lk_state) = "claimed"%string -> link_ok r ->
  let r' := set_link "approved" r.(lk_reservation) r.(lk_claim) (Some tag) (Some now) (Some te) r.(lk_completed_at) r.(lk_revoked_at) r in
  link_ok r' /\ link_evolves True r r'.
Proof.
  intros Hp [Hst Hpe Hcl Hop Hap Hun Hco] r'. rewrite Hp in *. unfold rank in *. simpl in *.
  destruct Hop as [Hop1 Hop2]; [done|]. destruct Hcl as [Hc Hr]; [done|]. split.
  - split; simpl; try done; try (unfold rank; simpl; by auto with lia). set_solver.
  - apply set_link_evolves; auto; [|by left..]. by state_step.
Qed.

(** A successful approval: the link as it was, and what the source named. *)
Record approves (a src h th tag id : string) (s s' : Store) (r : DeviceLinkV3Row) (now : Z) : Prop := {
  ap_link : links_of s !! id = Some r;
  ap_state : r.(lk_state) = "claimed"%string;
  ap_source : r.(lk_account_id) = a /\ r.(lk_source_device_id) = src;
  ap_claim : exists c, r.(lk_claim) = Some c /\ c.(lc_claim_request_hash) = h /\ c.(lc_transcript_hash) = th /\
    s'.(db).(rooms).(devices) !! recipient r =
      Some (mkDeviceRow a None now None (Some c.(lc_device_secret_hash)) c.(lc_device_name) c.(lc_key_package) (Some c.(lc_signing_key)));
  ap_links : links_of s' = <[id := set_link "approved" r.(lk_reservation) r.(lk_claim) (Some tag) (Some now)
    (Some (time_add now deviceLinkV3TransferLifetime)) r.(lk_completed_at) r.(lk_revoked_at) r]> (links_of s) }.

Lemma valid_hash_nonempty h : validV3Hash h = true -> h <> ""%string.
Proof. by intros H0 ->. Qed.

Lemma approve_spec pk clock id a src h th tag s x s' :
  links_ok (links_of s) -> ApproveDeviceLinkV3 pk clock id a src h th tag s = (Ok x, s') ->
  s'.(db) = s.(db) \/ exists r, approves a src h th tag id s s' r (clock 2%nat).
Proof.
  intros Hok E. unfold ApproveDeviceLinkV3, update_link, on_links in E. run E.
  match goal with H : loadDeviceLinkV3 s.(db) _ = Some _ |- _ => apply load_inv in H as (i & r & key & Hr & Hb & -> & Hrv & _) end.
  apply by_source_inv in Hb as (-> & Ha & Hs).
  destruct (_ || _) in E; run E; [by left|right]. exists r. simpl in *.
  apply andb_prop in Hrun0 as [Hst%str_eqb_true _], Hrun2 as [Hh%str_eqb_true Hth%str_eqb_true].
  apply checkDevices_ok in Hrun3 as ->. apply insert_device_ok in Hrun4 as [-> _]. apply initial_package_ok in Hrun5 as [f ->].
  unfold insertSyncEvent in Hrun6. apply insert_event_ok in Hrun6 as [_ ->].
  destruct (ok_claimed _ (Hok _ _ Hr)) as [[c Hc] _]; [by rewrite Hst|].
  unfold claim_col in *. rewrite Hc in *. simpl in *.
  split; [done..| |].
  - exists c. repeat split; try done. simpl. apply lookup_insert_eq.
  - simpl. unfold update_row. rewrite Hr. by replace (lk_state r =s? "claimed")%string with true by (symmetry; by apply str_eqb_true).
Qed.

Lemma approve_links pk clock id a src h th tag s x s' new :
  ApproveDeviceLinkV3 pk clock id a src h th tag s = (Ok x, s') -> links_step True new s s'.
Proof.
  intros E Ho. destruct (approve_spec _ _ _ _ _ _ _ _ _ _ _ Ho E) as [Hs|[r []]]; [apply same_links; by rewrite ?Hs|].
  apply (updated_links True new s s' id (fun r => r.(lk_state) =s? "claimed")%string (fun r => set_link "approved" r.(lk_reservation) r.(lk_claim)
    (Some tag) (Some (clock 2%nat)) (Some (time_add (clock 2%nat) deviceLinkV3TransferLifetime)) r.(lk_completed_at) r.(lk_revoked_at) r)); [| |done].
  - unfold update_row. rewrite ap_link0, ap_state0. apply ap_links0.
  - intros r' Hr' Hp%str_eqb_true Hok'. by apply approved_step.
Qed.

Lemma complete_links t0 now id t h tok th s x s' appr new :
  CompleteDeviceLinkV3 t0 now id t h tok th s = (Ok x, s') -> links_step appr new s s'.
Proof.
  intros E. unfold CompleteDeviceLinkV3, update_link, on_links in E. run E.
  match goal with H : (if _ then _ else _) _ = (Ok _, _) |- _ => rename H into Hc end.
  destruct (_ =s? DeviceLinkApproved) in Hc.
  - run Hc. destruct (sessionLifetime _ _ _) as [e1 e2]. run Hc.
    match goal with H : insert_session _ _ _ = _ |- _ => apply spared in H as HL; [|intros Q; apply spares_session] end.
    eapply updated_links; [simpl; by rewrite HL|]. intros r Hr Hp%str_eqb_true Hok. by apply consumed_step.
  - destruct (_ =s? DeviceLinkConsumed) in Hc; run Hc. by apply same_links.
Qed.

Lemma cancel_links now id a dev s x s' appr new : CancelDeviceLinkV3 now id a dev s = (Ok x, s') -> links_step appr new s s'.
Proof.
  intros E. unfold CancelDeviceLinkV3, update_link, on_links in E. run E. destruct (_ =s? DeviceLinkRevoked) in E; run E; [by apply same_links|].
  eapply updated_links; [done|]. intros r Hr Hp [].
  assert (rank r.(lk_state) <= 1) as Hrk. { unfold open_state in Hp. apply orb_true_iff in Hp as [->%str_eqb_true| ->%str_eqb_true]; done. }
  split.
  - split; simpl; try done; try (unfold rank; simpl; by auto with lia). set_solver.
  - apply set_link_evolves; auto. right. split; [unfold rank at 2; simpl; lia|]. split; [done|]. unfold rank at 2 3. simpl. lia.
Qed.

Lemma history_links clock id access s x s' appr new : CancelHistoryTransfer clock id access s = (Ok x, s') -> links_step appr new s s'.
Proof.
  intros E. unfold CancelHistoryTransfer, on_links in E. run E.
  repeat match goal with
  | H : historyLink _ _ _ _ _ = _ |- _ => unfold historyLink in H; run H
  | H : retireHistoryIntents _ _ _ = _ |- _ => apply spared in H; [|intros Q; apply spares_intents]
  | H : retireHistoryTransfers _ _ _ _ = _ |- _ => apply spared in H; [|intros Q; apply spares_transfers]
  end.
  intros Ho. simpl. match goal with H1 : links_of _ = _, H2 : links_of _ = _ |- _ => rewrite H1, H2 || rewrite H2, H1 end.
  apply links_alter; [|done]. intros r. by split; [apply cancelled_ok|split; auto; left].
Qed.
End operations.

(** ** Removing links *)

Section removal.
Context (P : link_table -> Prop).
Context (HP : forall L L' : link_table, (forall id r, L' !! id = Some r -> L !! id = Some r) -> P L -> P L').
Abbreviation thins m := (preserves (fun d => P d.(ident).(device_links_v3)) m).

Lemma thins_delete gone : thins (delete_links_v3 gone).
Proof.
  unfold delete_links_v3, on_links, on_ident. tx_frame. intros s Hs. simpl. eapply HP, Hs.
  intros id r. rewrite map_lookup_filter_Some. by intros [? _].
Qed.
#[local] Hint Resolve thins_delete : txs.

Lemma thins_revoke now e a dev ty : thins (revokeDeviceTx now e a dev ty).
Proof. unfold revokeDeviceTx, on_rooms, retireDeviceLinksV3ForDevice, insertOptionalSyncEvent. tx_frame. Qed.
#[local] Hint Resolve thins_revoke : txs.
Lemma thins_revoke_all now e a ids : thins (revoke_all now e a ids).
Proof. induction ids; simpl; tx_frame. Qed.
#[local] Hint Resolve thins_revoke_all : txs.
Lemma thins_recover pk clock id t tok : thins (CompleteRecovery pk clock id t tok).
Proof. unfold CompleteRecovery, take_over, mark_all_revoked, on_rooms, completedRecovery. tx_frame. Qed.
Lemma thins_account clock a : thins (DeleteAccountData clock a).
Proof. unfold DeleteAccountData, delete_account_rows, on_ident, on_rooms, on_mls, on_content, on_backups. tx_frame. Qed.
Lemma thins_prune e now : thins (PruneOperationalRows e now).
Proof.
  unfold PruneOperationalRows, delete_invites, on_ident, on_sessions, on_mls. tx_frame. intros s Hs. simpl. eapply HP, Hs.
  intros id r. unfold drop_rows. rewrite map_lookup_filter_Some. by intros [? _].
Qed.
End removal.

(** ** Histories of links *)

Section histories.
Context `{GoCrypto}.

(** The requests that change links. *)
Inductive link_op :=
| KCreate (newID nonce : string) (clock : nat -> Z) (a dev code origin : string) (ttl : Z)
| KReserve (dev nonce : string) (now : Z) (code req : string)
| KClaim (checked now : Z) (i : DeviceLinkV3ClaimInput)
| KApprove (pk : string) (clock : nat -> Z) (id a src h th tag : string)
| KComplete (checked now : Z) (id t h tok th : string)
| KCancel (now : Z) (id a dev : string)
| KCancelHistory (clock : nat -> Z) (id : string) (access : HistoryAccess)
| KRevoke (now e : Z) (a dev ty : string)
| KRecover (pk : string) (clock : nat -> Z) (id t tok : string)
| KDeleteAccount (clock : nat -> Z) (a : string)
| KPrune (e now : Z).

(** The store after a request, whether it succeeded or not. *)
Definition after_op (o : link_op) (s : Store) : Store :=
  match o with
  | KCreate newID nonce clock a dev code origin ttl => (CreateDeviceLinkV3 newID nonce clock a dev code origin ttl s).2
  | KReserve dev nonce now code req => (ReserveDeviceLinkV3 dev nonce now code req s).2
  | KClaim checked now i => (ClaimDeviceLinkV3 checked now i s).2
  | KApprove pk clock id a src h th tag => (ApproveDeviceLinkV3 pk clock id a src h th tag s).2
  | KComplete checked now id t h tok th => (CompleteDeviceLinkV3 checked now id t h tok th s).2
  | KCancel now id a dev => (CancelDeviceLinkV3 now id a dev s).2
  | KCancelHistory clock id access => (CancelHistoryTransfer clock id access s).2
  | KRevoke now e a dev ty => (revokeDevice now e a dev ty s).2
  | KRecover pk clock id t tok => (CompleteRecovery pk clock id t tok s).2
  | KDeleteAccount clock a => (DeleteAccountData clock a s).2
  | KPrune e now => (PruneOperationalRows e now s).2
  end.

(** The id a request brings for a new link. *)
Definition new_link (o : link_op) : option string := match o with KCreate newID _ _ _ _ _ _ _ => Some newID | _ => None end.

(** A step of a history in which no link [id] is created again; requests
    that do not touch links may do anything else. *)
Inductive link_step (id : option string) : Store -> Store -> Prop :=
| lk_op o s : (forall i, id = Some i -> new_link o <> Some i) -> link_step id s (after_op o s)
| lk_other s s' : links_of s' = links_of s -> link_step id s s'.

(** The request approved the link, which its source device named together
    with the claim. *)
Definition approved_in (id : string) (s s' : Store) : Prop :=
  exists pk clock h th tag x r,
    ApproveDeviceLinkV3 pk clock id r.(lk_account_id) r.(lk_source_device_id) h th tag s = (Ok x, s') /\
    approves r.(lk_account_id) r.(lk_source_device_id) h th tag id s s' r (clock 2%nat).

(** What one request does to the links. *)
Definition links_evolve (new : option string) (s s' : Store) : Prop :=
  links_ok (links_of s) -> links_ok (links_of s') /\
  forall id r', links_of s' !! id = Some r' -> new = Some id \/ exists r, links_of s !! id = Some r /\ link_evolves (approved_in id s s') r r'.

Lemma evolves_weaken (p q : Prop) r r' : (p -> q) -> link_evolves p r r' -> link_evolves q r r'.
Proof. intros Hpq []. split; try done. destruct ev_state0 as [->|(? & ? & ?)]; [by left|right]; auto. Qed.

Lemma steps_evolve new s s' : links_step False (fun i => new = Some i) s s' -> links_evolve new s s'.
Proof.
  intros H1 Ho. destruct (H1 Ho) as [Ho' Hs]. split; [done|]. intros id r' Hr'.
  destruct (Hs _ _ Hr') as [?|(r & Hr & He)]; [by left|right]. exists r. split; [done|]. by eapply evolves_weaken, He.
Qed.

(** A request that answers with an error changes nothing. *)
Lemma run_evolves {A} (m : Tx A) new s :
  (forall x s', m s = (Ok x, s') -> links_evolve new s s') -> (forall e s', m s = (Err e, s') -> s'.(db) = s.(db)) -> links_evolve new s (m s).2.
Proof.
  intros Hok Herr. destruct (m s) as [[x|e] s'] eqn:E; simpl; [by eapply Hok|]. specialize (Herr _ _ eq_refl).
  apply steps_evolve, same_links. by rewrite Herr.
Qed.

(** A request that only removes links. *)
Lemma removal_evolves {A} (m : Tx A) s :
  (forall P : link_table -> Prop, (forall L L' : link_table, (forall id r, L' !! id = Some r -> L !! id = Some r) -> P L -> P L') ->
    preserves (fun d => P d.(ident).(device_links_v3)) m) -> links_evolve None s (m s).2.
Proof.
  intros Hm. apply steps_evolve. intros Ho. apply links_shrink; [|done].
  apply (Hm (fun L => forall id r, L !! id = Some r -> links_of s !! id = Some r)); [|done]. intros L L' HL H' id r Hr. auto.
Qed.

Lemma approve_evolves pk clock id a src h th tag s x s' :
  ApproveDeviceLinkV3 pk clock id a src h th tag s = (Ok x, s') -> links_evolve None s s'.
Proof.
  intros E Ho. destruct (approve_spec _ _ _ _ _ _ _ _ _ _ _ Ho E) as [Hs|[r Hap]].
  - rewrite Hs. split; [done|]. intros i r Hr. right. eauto using link_evolves_refl.
  - destruct (approve_links _ _ _ _ _ _ _ _ _ _ _ (fun _ => False) E Ho) as [Ho' Hsince]. split; [done|]. intros i r' Hr'. right.
    destruct (decide (i = id)) as [->|Hne].
    + destruct (Hsince _ _ Hr') as [[]|(r0 & Hr0 & He)]. exists r0. split; [done|]. eapply evolves_weaken, He. intros _.
      pose proof (ap_source _ _ _ _ _ _ _ _ _ _ Hap) as [<- <-].
      by exists pk, clock, h, th, tag, x, r.
    + rewrite (ap_links _ _ _ _ _ _ _ _ _ _ Hap), lookup_insert_ne in Hr' by congruence. eauto using link_evolves_refl.
Qed.

Lemma op_evolves o s : links_evolve (new_link o) s (after_op o s).
Proof.
  destruct o; simpl.
  1-7: apply run_evolves; [|solve [apply refused_unchanged|by intros e' s' [? _]%transaction_err]].
  - intros x s' E. apply steps_evolve. intros Ho. destruct (create_links _ _ _ _ _ _ _ _ _ _ _ False E Ho) as [Ho' Hs]. split; [done|].
    intros i r Hr. destruct (Hs _ _ Hr) as [<-|?]; [by left|by right].
  - intros x s' E. eapply steps_evolve, reserve_links, E.
  - intros x s' E. eapply steps_evolve, claim_links, E.
  - intros x s'. apply approve_evolves.
  - intros x s' E. eapply steps_evolve, complete_links, E.
  - intros x s' E. eapply steps_evolve, cancel_links, E.
  - intros x s' E. eapply steps_evolve, history_links, E.
  - apply removal_evolves. intros P HP. apply pv_transaction. by apply thins_revoke.
  - apply removal_evolves. intros P HP. by apply thins_recover.
  - apply removal_evolves. intros P HP. by apply thins_account.
  - apply removal_evolves. intros P HP. by apply thins_prune.
Qed.

Lemma step_evolves o s s' : link_step o s s' -> links_ok (links_of s) ->
  links_ok (links_of s') /\ forall id r', o = Some id -> links_of s' !! id = Some r' ->
    exists r, links_of s !! id = Some r /\ link_evolves (approved_in id s s') r r'.
Proof.
  intros [op s1 Hn|s1 s2 E] Ho.
  - destruct (op_evolves op s1 Ho) as [Ho' He]. split; [done|]. intros id r' -> Hr'.
    destruct (He _ _ Hr') as [Hnew|?]; [|done]. by destruct (Hn _ eq_refl).
  - rewrite E. split; [done|]. intros id r' _ Hr'. eauto using link_evolves_refl.
Qed.

Lemma steps_ok o s s' : rtc (link_step o) s s' -> links_ok (links_of s) -> links_ok (links_of s').
Proof. induction 1 as [|s1 s2 s3 H1 _ IH]; [done|]. intros Ho. apply IH. by apply (step_evolves _ _ _ H1). Qed.

Lemma steps_since id s s' r' :
  rtc (link_step (Some id)) s s' -> links_ok (links_of s) -> links_of s' !! id = Some r' ->
  exists r, links_of s !! id = Some r /\ link_evolves True r r'.
Proof.
  induction 1 as [|s1 s2 s3 H1 _ IH]; intros Ho Hr'; [eauto using link_evolves_refl|].
  destruct (step_evolves _ _ _ H1 Ho) as [Ho2 Hs]. destruct (IH Ho2 Hr') as (r2 & Hr2 & E2).
  destruct (Hs _ _ eq_refl Hr2) as (r1 & Hr1 & E1). exists r1. split; [done|]. eapply link_evolves_trans, E2. by eapply evolves_weaken, E1.
Qed.

Lemma no_links_ok s : links_of s = ∅ -> links_ok (links_of s).
Proof. intros E id r. by rewrite E. Qed.

(** A device link only moves forward.  In a database that started
    without links, whatever requests ran in whatever order, a link that is
    seen twice has kept its code, account, source device, origin, lifetime,
    nonce and times; its state is the same or a later one of pending,
    claimed, approved, consumed, and it was revoked only while it was not yet
    approved; its reservation, claim, approval, transfer deadline and
    completion were each written at most once and never changed; and the
    columns that its state calls for are filled, the later ones empty. *)
Theorem links_move_forward s0 s s' id r r' :
  links_of s0 = ∅ -> rtc (link_step None) s0 s -> rtc (link_step (Some id)) s s' ->
  links_of s !! id = Some r -> links_of s' !! id = Some r' -> link_ok r' /\ link_evolves True r r'.
Proof.
  intros E0 H0 H1 Hr Hr'. pose proof (steps_ok _ _ _ H0 (no_links_ok _ E0)) as Ho.
  pose proof (steps_ok _ _ _ H1 Ho) as Ho'. destruct (steps_since _ _ _ _ H1 Ho Hr') as (x & Hx & E).
  rewrite Hr in Hx. injection Hx as <-. eauto.
Qed.

Lemma approval_found id s s' r r' :
  rtc (link_step (Some id)) s s' -> links_ok (links_of s) -> links_of s !! id = Some r -> rank r.(lk_state) <= 1 ->
  links_of s' !! id = Some r' -> 2 <= rank r'.(lk_state) <= 3 ->
  exists s1 s2, rtc (link_step (Some id)) s s1 /\ approved_in id s1 s2 /\ rtc (link_step (Some id)) s2 s'.
Proof.
  intros H1. revert r. induction H1 as [|s1 s2 s3 H1 H2 IH]; intros r Ho Hr Hk Hr' Hk'; [rewrite Hr in Hr'; injection Hr' as <-; lia|].
  destruct (step_evolves _ _ _ H1 Ho) as [Ho2 Hs]. destruct (steps_since _ _ _ _ H2 Ho2 Hr') as (r2 & Hr2 & E2).
  destruct (decide (rank r2.(lk_state) <= 1)) as [Hle|Hgt].
  - destruct (IH _ Ho2 Hr2 Hle Hr' Hk') as (x & y & Hx & Hap & Hy). exists x, y. split; [|done]. by eapply rtc_l.
  - destruct (Hs _ _ eq_refl Hr2) as (x & Hx & E1). rewrite Hr in Hx. injection Hx as <-. exists s1, s2. split; [done|]. split; [|done].
    destruct (ev_state _ _ _ E2) as [Est|(Hlt & _)], (ev_state _ _ _ E1) as [Est1|(Hlt1 & _ & Hap)];
      rewrite ?Est, ?Est1 in *; try lia; apply Hap; lia.
Qed.

(** C16: no device is linked without the approval of the device that opened
    the link.  If a link that was open is later approved or consumed, then in
    between one request of the link's own account and source device approved
    it, while it was claimed, naming the request hash and the transcript of
    the claim that the link still carries; that request put in the device
    with the claimed name, key package, signing key and secret. *)
Theorem linked_devices_were_approved s0 s s' id r r' :
  links_of s0 = ∅ -> rtc (link_step None) s0 s -> rtc (link_step (Some id)) s s' ->
  links_of s !! id = Some r -> rank r.(lk_state) <= 1 -> links_of s' !! id = Some r' -> 2 <= rank r'.(lk_state) <= 3 ->
  exists s1 s2 pk clock h th tag x c,
    rtc (link_step (Some id)) s s1 /\ rtc (link_step (Some id)) s2 s' /\
    ApproveDeviceLinkV3 pk clock id r.(lk_account_id) r.(lk_source_device_id) h th tag s1 = (Ok x, s2) /\
    r'.(lk_claim) = Some c /\ h = c.(lc_claim_request_hash) /\ th = c.(lc_transcript_hash) /\ r'.(lk_approval_tag) = Some tag /\
    s2.(db).(rooms).(devices) !! recipient r' =
      Some (mkDeviceRow r.(lk_account_id) None (clock 2%nat) None (Some c.(lc_device_secret_hash)) c.(lc_device_name) c.(lc_key_package)
              (Some c.(lc_signing_key))).
Proof.
  intros E0 H0 H1 Hr Hk Hr' Hk'. pose proof (steps_ok _ _ _ H0 (no_links_ok _ E0)) as Ho.
  destruct (approval_found _ _ _ _ _ H1 Ho Hr Hk Hr' Hk') as (s1 & s2 & H01 & (pk & clock & h & th & tag & x & r1 & E & Hap) & H23).
  destruct Hap as [Hr1 Hst _ (c & Hc & Hh & Hth & Hdev) HL]. pose proof (steps_ok _ _ _ H01 Ho) as Ho1.
  destruct (steps_since _ _ _ _ H01 Ho Hr1) as (x0 & Hx0 & E1). rewrite Hr in Hx0. injection Hx0 as <-.
  pose proof (ev_static _ _ _ E1) as Es. injection Es as _ Ea Esrc _ _ _ _ _.
  assert (links_ok (links_of s2)) as Ho2. { apply (approve_evolves _ _ _ _ _ _ _ _ _ _ _ E Ho1). }
  destruct (steps_since _ _ _ _ H23 Ho2 Hr') as (r2 & Hr2 & E2). rewrite HL, lookup_insert_eq in Hr2. injection Hr2 as <-.
  destruct E2 as [_ _ Eres Ecl Etag _ _]. simpl in *. destruct Eres as [Eres|Eres], Ecl as [Ecl|Ecl], Etag as [Etag|Etag]; try congruence.
  { destruct (ok_claimed _ (Ho1 _ _ Hr1)) as [_ [? Hx]]; [by rewrite Hst|congruence]. }
  rewrite <- Ea, <- Esrc. exists s1, s2, pk, clock, h, th, tag, x, c. repeat split; try done; try congruence.
  replace (recipient r') with (recipient r1); [done|]. unfold recipient. by rewrite Eres.
Qed.
End histories.
