(* ===== verification/AccountRules.v ===== *)
(** * Rules of accounts

    What the identity stores guarantee over every history of their requests:
    the server has one owner, who cannot be deleted, suspended or replaced;
    an account never has more live devices than the limit; an invite admits
    no more accounts than it says. *)

From S2P Require Import Prelude GoStrings GoJson Domain Admission Database Conversations Memberships Messages Retention MessageEvents PushWake Mls MlsGroups MlsRules Blobs Identity Sessions DeviceLinks History Devices Recovery Accounts SessionRules LinkRules.
From stdpp Require Import base numbers list strings gmap fin_maps sorting.
From Stdlib Require Import ZArith ZifyBool Lia.
Open Scope Z_scope.

(** ** Frames *)

Ltac head_of t := lazymatch t with ?f _ => head_of f | _ => t end.

Lemma pv_revoke_all P now e a ids :
  (forall dev, preserves P (revokeDeviceTx now e a dev "device.revoked")) -> preserves P (revoke_all now e a ids).
Proof. intros Hr. induction ids as [|dev ids IH]; simpl; [by intros s|]. repeat (apply pv_bind; [done|intros]). by intros s. Qed.

(** What a read, a guard and a lookup tell the rest of the run. *)
Section learn.
Context (P : DB -> Prop).
Lemma pv_read_bind {A B} (f : DB -> A) (k : A -> Tx B) : (forall d, P d -> preserves P (k (f d))) -> preserves P (read f ≫= k).
Proof. intros Hk s Hs. by apply (Hk s.(db) Hs). Qed.
Lemma pv_guard_bind {B} b e (k : unit -> Tx B) : (b = true -> preserves P (k tt)) -> preserves P (guard_tx b e ≫= k).
Proof. intros Hk s Hs. unfold guard_tx, mbind, Tx_bind. destruct b; [by apply Hk|done]. Qed.
Lemma pv_require_bind {A B} (o : option A) e (k : A -> Tx B) : (forall x, o = Some x -> preserves P (k x)) -> preserves P (require o e ≫= k).
Proof. intros Hk s Hs. unfold require, mbind, Tx_bind. destruct o; [by apply Hk|done]. Qed.
End learn.

(** As [tx_frame], through the definitions: a statement that writes elsewhere
    keeps the property; the statements that do not are left as goals, with
    what the run has learnt by then. *)
Ltac tx_deep :=
  repeat lazymatch goal with
  | |- forall _, _ => intros; cbv beta
  | |- preserves _ (modify _) => solve [apply pv_modify; intros ? Hkeep; exact Hkeep]
  | |- preserves _ (transaction _) => apply pv_transaction
  | |- preserves _ (for_each _ _) => apply pv_for_each
  | |- preserves _ (revoke_all _ _ _ _) => apply pv_revoke_all
  | |- preserves _ (read _ ≫= _) => apply pv_read_bind
  | |- preserves _ (guard_tx _ _ ≫= _) => apply pv_guard_bind
  | |- preserves _ (require _ _ ≫= _) => apply pv_require_bind
  | |- preserves _ (_ ≫= _) => apply pv_bind
  | |- preserves _ (match ?x with _ => _ end) => destruct x eqn:?
  | |- preserves _ (fun _ => _) => solve [intros ? Hkeep; exact Hkeep]
  | |- preserves _ ?m => first [solve [eauto 3 with txs] | let h := head_of m in unfold h]
  end.

(** ** The requests *)

Section requests.
Context `{GoCrypto} (hmac_sha256 : string -> string -> string).

(** The requests on identities beside those of [session_op] and [link_op]. *)
Inductive id_op :=
| IReserveOwner (account id dev nonce : string) (now : Z)
| IReserveRegister (account id dev nonce : string) (checked now : Z) (code : string)
| IReserveRecovery (fresh id dev nonce : string) (now : Z) (username : string)
| IInvite (id code : string) (now : Z) (by_ : string) (uses : Z) (expires : option Z)
| IRevokeInvite (now : Z) (by_ id : string)
| IAdminRevokeInvite (now audit : Z) (actor id : string) (e : AuditEvent)
| IRehash (a old new : string)
| ISeen (now : Z) (dev : string)
| ICreateOldLink (id nonce : string) (checked now : Z) (a dev : string) (ttl : Z) (code : string)
| IClaimOldLink (checked now : Z) (code name kp key th tag token secret : string)
| IReserveOldLink (dev nonce : string) (now : Z) (code : string)
| IApproveOldLink (pk : string) (checked now : Z) (id a th tag ty : string)
| IClaimRecovery (id : string) (clock : nat -> Z) (i : RecoveryClaimInput)
| ICancelRecovery (now : Z) (a id : string)
| ISetRecoveryKey (now audit : Z) (a key rk : string).

Definition run_id (o : id_op) : Tx unit :=
  match o with
  | IReserveOwner account id dev nonce now => discard (ReserveOwnerEnrollment account id dev nonce now)
  | IReserveRegister account id dev nonce checked now code => discard (ReserveRegistrationEnrollment account id dev nonce checked now code)
  | IReserveRecovery fresh id dev nonce now username => discard (ReserveRecoveryEnrollment hmac_sha256 fresh id dev nonce now username)
  | IInvite id code now by_ uses expires => discard (CreateInvite id code now by_ uses expires)
  | IRevokeInvite now by_ id => RevokeInvite now by_ id
  | IAdminRevokeInvite now audit actor id e => AdminRevokeInvite now audit actor id e
  | IRehash a old new => discard (UpgradePasswordHash a old new)
  | ISeen now dev => MarkDeviceSeen now dev
  | ICreateOldLink id nonce checked now a dev ttl code => discard (CreateDeviceLink id nonce checked now a dev ttl code)
  | IClaimOldLink checked now code name kp key th tag token secret => discard (ClaimDeviceLink checked now code name kp key th tag token secret)
  | IReserveOldLink dev nonce now code => discard (ReserveDeviceLinkEnrollment dev nonce now code)
  | IApproveOldLink pk checked now id a th tag ty => discard (approveDeviceLink pk checked now id a th tag ty)
  | IClaimRecovery id clock i => discard (ClaimRecovery id clock i)
  | ICancelRecovery now a id => discard (CancelRecoveryRequest now a id)
  | ISetRecoveryKey now audit a key rk => discard (SetRecoveryKey now audit a key rk)
  end.

(** What no other request changes: the accounts' roles, states and
    deletions, the devices, the invites and the limits. *)
Definition standing (a : AccountRow) := (a.(acc_role), a.(acc_status), a.(acc_deleted_at)).

Record elsewhere (s s' : Store) : Prop := {
  el_accounts : standing <$> s'.(db).(rooms).(accounts) = standing <$> s.(db).(rooms).(accounts);
  el_devices : s'.(db).(rooms).(devices) = s.(db).(rooms).(devices);
  el_invites : s'.(db).(ident).(invites) = s.(db).(ident).(invites);
  el_limits : s'.(limits) = s.(limits) }.

Definition run_link (o : link_op) : Tx unit :=
  match o with
  | KCreate newID nonce clock a dev code origin ttl => discard (CreateDeviceLinkV3 newID nonce clock a dev code origin ttl)
  | KReserve dev nonce now code req => discard (ReserveDeviceLinkV3 dev nonce now code req)
  | KClaim checked now i => discard (ClaimDeviceLinkV3 checked now i)
  | KApprove pk clock id a src h th tag => discard (ApproveDeviceLinkV3 pk clock id a src h th tag)
  | KComplete checked now id t h tok th => discard (CompleteDeviceLinkV3 checked now id t h tok th)
  | KCancel now id a dev => CancelDeviceLinkV3 now id a dev
  | KCancelHistory clock id access => CancelHistoryTransfer clock id access
  | KRevoke now e a dev ty => discard (revokeDevice now e a dev ty)
  | KRecover pk clock id t tok => discard (CompleteRecovery pk clock id t tok)
  | KDeleteAccount clock a => discard (DeleteAccountData clock a)
  | KPrune e now => discard (PruneOperationalRows e now)
  end.

Inductive id_step : Store -> Store -> Prop :=
| is_session o s : id_step s (run_op o s).2
| is_link o s : id_step s (run_link o s).2
| is_op o s : id_step s (run_id o s).2
| is_other s s' : elsewhere s s' -> id_step s s'.

(** A property of the database that every request keeps. *)
Definition kept (P : DB -> Prop) : Prop :=
  (forall o, preserves P (run_op o)) /\ (forall o, preserves P (run_link o)) /\ (forall o, preserves P (run_id o)) /\
  (forall s s', elsewhere s s' -> P s.(db) -> P s'.(db)).

Lemma steps_kept P s s' : kept P -> rtc id_step s s' -> P s.(db) -> P s'.(db).
Proof.
  intros (H1 & H2 & H3 & H4). induction 1 as [|s1 s2 s3 Hs _ IH]; [done|]. intros HP. apply IH.
  destruct Hs; [by apply H1|by apply H2|by apply H3|by eapply H4].
Qed.

(** Requests by the tables they write. *)
Ltac requests :=
  split; [intros []; unfold run_op|split; [intros []; unfold run_link, discard|split; [intros []; unfold run_id, discard|]]].

(** ** The owner *)

Abbreviation account_table := (gmap string AccountRow).

Definition is_owner (a : AccountRow) : Prop := a.(acc_role) = RoleOwner.

(** [id] is the owner and nobody else is; it is active. *)
Definition owner_is (id : string) (A : account_table) : Prop :=
  (exists a, A !! id = Some a /\ standing a = (RoleOwner, "active"%string, None)) /\
  forall id' a', A !! id' = Some a' -> is_owner a' -> id' = id.

Lemma standing_lookup (A A' : account_table) id :
  standing <$> A' = standing <$> A -> standing <$> A' !! id = standing <$> A !! id.
Proof. intros E. by rewrite <- !lookup_fmap, E. Qed.

Lemma owner_standing id (A A' : account_table) :
  (forall i, standing <$> A' !! i = standing <$> A !! i) -> owner_is id A -> owner_is id A'.
Proof.
  intros E [(a & Ha & Hs) Hu]. split.
  - specialize (E id). rewrite Ha in E. simpl in E. apply fmap_Some in E as (a' & Ha' & Hs'). exists a'. split; [done|congruence].
  - intros i a' Ha' Ho. specialize (E i). rewrite Ha' in E. simpl in E. symmetry in E. apply fmap_Some in E as (x & Hx & Hs').
    eapply Hu; [done|]. unfold is_owner, standing in *. congruence.
Qed.

Section owner.
Context (id : string).
Abbreviation keeps m := (preserves (fun d => owner_is id d.(rooms).(accounts)) m).

Lemma owner_insert i r : r.(acc_role) <> RoleOwner -> keeps (insert_account i r).
Proof.
  intros Hr s Ho. unfold insert_account, guard_tx, read, mbind, Tx_bind. destruct (_ && _) eqn:E; [|done].
  apply andb_prop in E as [E _]. apply negb_true_iff, bool_decide_eq_false in E. simpl.
  destruct Ho as [(a & Ha & Hs) Hu]. split.
  - exists a. split; [|done]. rewrite lookup_insert_ne; [done|]. intros ->. apply E. by eexists.
  - intros i' a'. rewrite lookup_insert. destruct (decide (i = i')); [intros [= <-]; done|apply Hu].
Qed.

Lemma owner_alter f i : (forall a, standing (f a) = standing a) -> keeps (on_rooms (upd_accounts (alter f i))).
Proof.
  intros Hf s. simpl. apply owner_standing. intros j. rewrite lookup_alter. destruct (decide (i = j)) as [->|]; [|done].
  destruct (_ !! j); simpl; [by rewrite Hf|done].
Qed.

Hint Extern 1 (acc_role _ <> _) => discriminate : txs.
#[local] Hint Resolve owner_insert owner_alter : txs.

Lemma owner_update A i p f :
  (forall a, standing (f a) = standing a) -> owner_is id A -> owner_is id (update_row A i p f).1.
Proof.
  intros Hf. apply owner_standing. intros j. unfold update_row. destruct (A !! i) as [a|] eqn:E; [|done]. destruct (p a); [|done]. simpl.
  rewrite lookup_insert. destruct (decide (i = j)) as [->|]; [|done]. rewrite E. simpl. by rewrite Hf.
Qed.

Lemma owner_setup pk clock i : keeps (CreateOwner pk clock i).
Proof.
  intros s Ho. unfold CreateOwner. apply pv_transaction; [|done]. clear Ho s. intros s Ho.
  assert (0 < len (map_to_list s.(db).(rooms).(accounts))) as Hl.
  { destruct Ho as [(a & Ha & _) _]. apply elem_of_map_to_list in Ha. destruct (map_to_list _); [by apply not_elem_of_nil in Ha|].
    unfold len. simpl. lia. }
  unfold mbind, Tx_bind, read, guard_tx. by replace (0 <? _) with true by lia.
Qed.

(** The tables after an UPDATE of one account that keeps its standing. *)
Lemma owner_updated d i p f g z :
  owner_is id d.(rooms).(accounts) -> update_row d.(rooms).(accounts) i p f = (g, z) -> (forall a, standing (f a) = standing a) ->
  keeps (modify (upd_rooms (upd_accounts (fun _ => g)))).
Proof. intros Ho E Hf s _. simpl. replace g with (update_row d.(rooms).(accounts) i p f).1 by by rewrite E. by apply owner_update. Qed.

Lemma owner_role A a : owner_is id A -> A !! id = Some a -> a.(acc_role) = RoleOwner.
Proof. intros [(x & Hx & Hs) _] Ha. rewrite Ha in Hx. injection Hx as <-. unfold standing in Hs. congruence. Qed.

(** The other accounts may change in any way that gives no one the role. *)
Lemma owner_other f i :
  i <> id -> (forall a, (f a).(acc_role) = a.(acc_role)) -> keeps (modify (upd_rooms (upd_accounts (alter f i)))).
Proof.
  intros Hne Hf s [(a & Ha & Hs) Hu]. simpl. split.
  - exists a. split; [|done]. by rewrite lookup_alter_ne.
  - intros j x. rewrite lookup_alter. destruct (decide (i = j)) as [->|]; [|apply Hu].
    intros (y & Hy & ->)%fmap_Some. unfold is_owner. rewrite Hf. by apply Hu.
Qed.

Lemma owner_status now at_ a b st e : keeps (SetAccountStatus now at_ a b st e).
Proof.
  tx_deep. apply owner_other; [|done]. intros ->.
  match goal with Ho : owner_is id _, Hx : _ !! id = Some _ |- _ => pose proof (owner_role _ _ Ho Hx) as Hr end.
  match goal with Hg : negb (_ || (RoleRank _ <=? _)) = true |- _ => rewrite Hr in Hg; apply negb_true_iff, orb_false_iff in Hg as [_ Hg] end.
  unfold RoleRank in *. repeat case_match; simpl in *; try discriminate; lia.
Qed.

Lemma owner_deleted clock a : keeps (DeleteAccountData clock a).
Proof.
  tx_deep. apply owner_other; [|done]. intros ->.
  match goal with Ho : owner_is id _, Hx : _ !! id = Some ?x, Hg : _ || (1 <? _) = true |- _ =>
    pose proof (owner_role _ _ Ho Hx) as Hr; rename Hg into Hone, Ho into Hown, Hx into Hfound end.
  rewrite Hr in Hone. rewrite (unique_filter _ _ (id, x)) in Hone; [done|apply NoDup_map_to_list| | |].
  - by apply elem_of_map_to_list.
  - rewrite Hr. apply andb_true_iff. split; [done|]. by assumption.
  - intros [j y] Hj%elem_of_map_to_list [Hy%str_eqb_true _]%andb_prop.
    match goal with Ho : owner_is id (accounts (rooms d)) |- _ => pose proof (proj2 Ho _ _ Hj Hy) as -> end. congruence.
Qed.

Lemma owner_kept : kept (fun d => owner_is id d.(rooms).(accounts)).
Proof.
  pose proof owner_setup. pose proof owner_status. pose proof owner_deleted. requests.
  all: try solve [tx_deep].
  - tx_deep. by eapply owner_updated.
  - tx_deep. by eapply owner_updated.
  - intros s s' [E _ _ _]. apply owner_standing. intros i. by apply standing_lookup.
Qed.
End owner.

(** Before the set-up nobody is the owner. *)
Definition no_owner (A : account_table) : Prop := forall i a, A !! i = Some a -> ~ is_owner a.

Lemma unowned_standing (A A' : account_table) :
  (forall i, standing <$> A' !! i = standing <$> A !! i) -> no_owner A -> no_owner A'.
Proof.
  intros E Hn i a' Ha' Ho. specialize (E i). rewrite Ha' in E. simpl in E. symmetry in E. apply fmap_Some in E as (x & Hx & Hs').
  eapply Hn; [done|]. unfold is_owner, standing in *. congruence.
Qed.

Section unowned.
Abbreviation keeps m := (preserves (fun d => no_owner d.(rooms).(accounts)) m).

Lemma unowned_insert i r : r.(acc_role) <> RoleOwner -> keeps (insert_account i r).
Proof.
  intros Hr. tx_deep. intros s Hs i' a'. simpl. rewrite lookup_insert. destruct (decide (i = i')); [by intros [= <-]|apply Hs].
Qed.

Lemma unowned_alter f i : (forall a, (f a).(acc_role) = a.(acc_role)) -> keeps (modify (upd_rooms (upd_accounts (alter f i)))).
Proof.
  intros Hf s Hs j x. simpl. rewrite lookup_alter. destruct (decide (i = j)) as [->|]; [|apply Hs].
  intros (y & Hy & ->)%fmap_Some. unfold is_owner. rewrite Hf. by apply (Hs _ _ Hy).
Qed.

Lemma unowned_updated d i p f g z :
  no_owner d.(rooms).(accounts) -> update_row d.(rooms).(accounts) i p f = (g, z) -> (forall a, (f a).(acc_role) = a.(acc_role)) ->
  keeps (modify (upd_rooms (upd_accounts (fun _ => g)))).
Proof.
  intros Ho E Hf s _ j x. simpl. unfold update_row in E. destruct (_ !! i) as [a|] eqn:Ea; [|injection E as <- <-; apply Ho].
  destruct (p a); injection E as <- <-; [|apply Ho]. rewrite lookup_insert. destruct (decide (i = j)) as [->|]; [|apply Ho].
  intros [= <-]. unfold is_owner. rewrite Hf. by apply (Ho _ _ Ea).
Qed.
End unowned.

(** The property after a run that keeps it, from the one before. *)
Ltac frame_by E H :=
  lazymatch type of E with ?m ?s = (Ok _, ?s') =>
    lazymatch type of H with ?Q (accounts (rooms (db _))) =>
      let Hm := fresh "Hm" in assert (preserves (fun d => Q d.(rooms).(accounts)) m) as Hm by tx_deep;
      apply (pv_ok _ _ _ _ _ Hm E) in H; clear Hm E end end.

Definition no_accounts (A : account_table) : Prop := A = ∅.

Lemma owner_created pk clock i s x s' :
  CreateOwner pk clock i s = (Ok x, s') -> exists id, owner_is id s'.(db).(rooms).(accounts).
Proof.
  unfold CreateOwner. intros E. run E. exists a0.(en_AccountID). set (id := a0.(en_AccountID)) in *.
  assert (no_accounts s.(db).(rooms).(accounts)) as H0.
  { apply map_to_list_empty_iff. apply negb_true_iff in Hrun. unfold len in Hrun. destruct (map_to_list _); [done|]. simpl in Hrun. lia. }
  frame_by Hrun0 H0. unfold insert_enrolled in Hrun2. apply bind_ok in Hrun2 as (u & sc & Hin & Hrest).
  unfold insert_account in Hin. run Hin.
  match type of Hrest with _ ?s1 = _ => assert (owner_is id s1.(db).(rooms).(accounts)) as Hs end.
  { simpl. rewrite H0. split; [eexists; split; [apply lookup_insert_eq|done]|].
    intros j y. rewrite lookup_insert. by destruct (decide (id = j)) as [<-|]. }
  frame_by Hrest Hs. frame_by Hrun3 Hs. frame_by Hrun4 Hs. done.
Qed.

(** Nobody or one active account is the owner. *)
Definition owner_settled (A : account_table) : Prop := no_owner A \/ exists id, owner_is id A.

Section unowned_requests.
Abbreviation keeps m := (preserves (fun d => no_owner d.(rooms).(accounts)) m).
#[local] Hint Resolve unowned_insert : txs.
#[local] Hint Extern 1 (keeps (modify (upd_rooms (upd_accounts (alter _ _))))) => by apply unowned_alter : txs.
#[local] Hint Extern 1 (keeps (modify (upd_rooms (upd_accounts (fun _ => _))))) => by eapply unowned_updated : txs.

Lemma unowned_session o : (forall pk clock i, o <> OOwner pk clock i) -> keeps (run_op o).
Proof. intros Ho. destruct o; unfold run_op; try solve [tx_deep; eauto 2 with txs]. by edestruct Ho. Qed.
Lemma unowned_link o : keeps (run_link o).
Proof. destruct o; unfold run_link, discard; tx_deep; eauto 2 with txs. Qed.
Lemma unowned_id o : keeps (run_id o).
Proof. destruct o; unfold run_id, discard; tx_deep; eauto 2 with txs. Qed.
End unowned_requests.

Lemma step_settled s s' : id_step s s' -> owner_settled s.(db).(rooms).(accounts) -> owner_settled s'.(db).(rooms).(accounts).
Proof.
  intros Hs [Hn|[id Ho]]; [|right; exists id; by eapply (steps_kept _ _ _ (owner_kept id)); [apply rtc_once|]].
  destruct Hs as [o s|o s|o s|s s' He].
  - destruct o; try (left; by apply unowned_session).
    unfold run_op, mbind, Tx_bind. destruct (CreateOwner pk clock i s) as [[x|e] s'] eqn:E; simpl.
    + right. by eapply owner_created.
    + unfold CreateOwner in E. apply transaction_err in E as [-> _]. by left.
  - left. by apply unowned_link.
  - left. by apply unowned_id.
  - left. eapply unowned_standing, Hn. intros i. apply standing_lookup. apply He.
Qed.

(** C17: a server has one owner, for good.  In every history that starts
    without accounts, when an account has the owner's role, it is the only
    one, and after whatever requests follow (registrations, suspensions,
    password changes and resets, deletions, recoveries) it still exists, still
    has the role, is active and not deleted, and is still the only one. *)
Theorem the_owner_stays s0 s s' id a :
  s0.(db).(rooms).(accounts) = ∅ -> rtc id_step s0 s -> s.(db).(rooms).(accounts) !! id = Some a -> is_owner a ->
  rtc id_step s s' -> owner_is id s'.(db).(rooms).(accounts).
Proof.
  intros E0 H0 Ha Ho H1. apply (steps_kept _ _ _ (owner_kept id) H1).
  assert (owner_settled s.(db).(rooms).(accounts)) as [Hn|[id' Hid]].
  { assert (owner_settled s0.(db).(rooms).(accounts)) as Hs0 by (left; rewrite E0; by intros i x).
    clear -H0 Hs0. induction H0; eauto using step_settled. }
  - by destruct (Hn _ _ Ha).
  - by rewrite (proj2 Hid _ _ Ha Ho).
Qed.

(** ** The device limit *)

Abbreviation device_table := (gmap string DeviceRow).

(** The live devices of an account, as [checkDevices] counts them. *)
Definition live_ids (a : string) (D : device_table) : list string :=
  (List.filter (fun '(_, x) => (x.(dev_account_id) =s? a) && device_live x) (map_to_list D)).*1.

Lemma elem_of_live a D dev :
  dev ∈ live_ids a D <-> exists x, D !! dev = Some x /\ x.(dev_account_id) = a /\ device_live x = true.
Proof.
  unfold live_ids. rewrite list_elem_of_fmap. split.
  - intros ([i x] & -> & Hin). rewrite list_elem_of_In, List.filter_In, <- list_elem_of_In, elem_of_map_to_list in Hin.
    destruct Hin as [Hi [Ha%str_eqb_true Hl]%andb_prop]. eauto.
  - intros (x & Hx & <- & Hl). exists (dev, x). split; [done|].
    rewrite list_elem_of_In, List.filter_In, <- list_elem_of_In, elem_of_map_to_list. split; [done|]. by rewrite str_eqb_refl.
Qed.

Lemma live_nodup a D : NoDup (live_ids a D).
Proof.
  unfold live_ids. eapply sublist_NoDup; [apply (NoDup_fst_map_to_list D)|]. apply fmap_sublist. generalize (map_to_list D). intros l.
  induction l as [|y l IH]; simpl; [done|]. case_match; [by apply sublist_skip|by apply sublist_cons].
Qed.

Lemma live_bound a D l : (forall dev, dev ∈ live_ids a D -> dev ∈ l) -> len (live_ids a D) <= len l.
Proof.
  intros Hs. unfold len. apply inj_le, submseteq_length, NoDup_submseteq; [apply live_nodup|]. intros dev. apply Hs.
Qed.

(** No device comes to life or changes hands. *)
Definition dev_shrinks (D D' : device_table) : Prop :=
  forall dev x', D' !! dev = Some x' -> exists x, D !! dev = Some x /\ x'.(dev_account_id) = x.(dev_account_id) /\
    (device_live x' = true -> device_live x = true).

Class DeviceFrame (P : account_table -> device_table -> Prop) : Prop := {
  df_shrink A D D' : dev_shrinks D D' -> P A D -> P A D';
  df_accounts A A' D : (forall i, is_Some (A !! i) -> is_Some (A' !! i)) -> P A D -> P A' D }.

(** Devices have accounts, and no account more live ones than the limit. *)
Definition within (L : Z) (A : account_table) (D : device_table) : Prop :=
  (forall dev x, D !! dev = Some x -> is_Some (A !! x.(dev_account_id))) /\ forall a, len (live_ids a D) <= L.

(** And this one has none. *)
Definition within_bare (L : Z) (a : string) (A : account_table) (D : device_table) : Prop := within L A D /\ live_ids a D = [].

Lemma live_shrinks a D D' : dev_shrinks D D' -> forall dev, dev ∈ live_ids a D' -> dev ∈ live_ids a D.
Proof.
  intros Hs dev (x' & Hx' & Ha & Hl)%elem_of_live. apply elem_of_live. destruct (Hs _ _ Hx') as (x & Hx & Ea & El).
  exists x. split; [done|]. split; [congruence|auto].
Qed.

#[export] Instance within_frame L : DeviceFrame (within L).
Proof.
  split.
  - intros A D D' Hs [Hf Hc]. split.
    + intros dev x' Hx'. destruct (Hs _ _ Hx') as (x & Hx & -> & _). eauto.
    + intros a. etrans; [apply live_bound, live_shrinks, Hs|apply Hc].
  - intros A A' D HA [Hf Hc]. split; [|done]. intros dev x Hx. eauto.
Qed.

#[export] Instance bare_frame L a : DeviceFrame (within_bare L a).
Proof.
  split.
  - intros A D D' Hs [Hw Hb]. split; [by eapply df_shrink|]. destruct (live_ids a D') as [|dev l] eqn:E; [done|].
    assert (dev ∈ live_ids a D) as Hd. { eapply live_shrinks; [done|]. rewrite E. by left. } rewrite Hb in Hd. by apply not_elem_of_nil in Hd.
  - intros A A' D HA [Hw Hb]. split; [by eapply df_accounts|done].
Qed.

Section devices.
Context (P : account_table -> device_table -> Prop) {HP : DeviceFrame P}.
Abbreviation keeps m := (preserves (fun d => P d.(rooms).(accounts) d.(rooms).(devices)) m).

Lemma keeps_account f : (forall A : account_table, forall i, is_Some (A !! i) -> is_Some (f A !! i)) -> keeps (modify (upd_rooms (upd_accounts f))).
Proof. intros Hf s Hs. simpl. eapply df_accounts, Hs. apply Hf. Qed.
Lemma keeps_devices f : (forall D, dev_shrinks D (f D)) -> keeps (modify (upd_rooms (upd_devices f))).
Proof. intros Hf s Hs. simpl. eapply df_shrink, Hs. apply Hf. Qed.

Lemma altered_accounts f i (A : account_table) j : is_Some (A !! j) -> is_Some (alter f i A !! j).
Proof. intros Hj. by apply lookup_alter_is_Some. Qed.
Lemma inserted_accounts i r (A : account_table) j : is_Some (A !! j) -> is_Some (<[i := r]> A !! j).
Proof. rewrite lookup_insert_is_Some'. auto. Qed.
Lemma updated_accounts (A : account_table) i p f j : is_Some (A !! j) -> is_Some ((update_row A i p f).1 !! j).
Proof. unfold update_row. repeat case_match; simpl; [apply inserted_accounts|done|done]. Qed.

Lemma altered_devices f i D :
  (forall x, (f x).(dev_account_id) = x.(dev_account_id) /\ (device_live (f x) = true -> device_live x = true)) -> dev_shrinks D (alter f i D).
Proof.
  intros Hf dev x'. rewrite lookup_alter. destruct (decide (i = dev)) as [->|]; [|eauto].
  intros (x & Hx & ->)%fmap_Some. exists x. split; [done|apply Hf].
Qed.
Lemma mapped_devices f D :
  (forall x, (f x).(dev_account_id) = x.(dev_account_id) /\ (device_live (f x) = true -> device_live x = true)) -> dev_shrinks D (f <$> D).
Proof. intros Hf dev x'. rewrite lookup_fmap. intros (x & Hx & ->)%fmap_Some. exists x. split; [done|apply Hf]. Qed.
Lemma updated_devices D i p f :
  (forall x, (f x).(dev_account_id) = x.(dev_account_id) /\ (device_live (f x) = true -> device_live x = true)) -> dev_shrinks D (update_row D i p f).1.
Proof.
  intros Hf dev x'. unfold update_row. destruct (D !! i) as [x|] eqn:E; simpl; [|eauto]. destruct (p x); simpl; [|eauto].
  rewrite lookup_insert. destruct (decide (i = dev)) as [->|]; [|eauto]. intros [= <-]. exists x. split; [done|apply Hf].
Qed.

(** [UPDATE ... WHERE id = ?] and what follows it. *)
Lemma keeps_update_account {B} i p f (k : DB -> Z -> Tx B) :
  (forall d n, keeps (k d n)) ->
  keeps (d ← read (fun d => d); let '(m, rows) := update_row d.(rooms).(accounts) i p f in on_rooms (upd_accounts (fun _ => m)) ≫= fun _ => k d rows).
Proof.
  intros Hk s Hs. unfold read, mbind, Tx_bind. pose proof (updated_accounts s.(db).(rooms).(accounts) i p f) as Hu.
  destruct (update_row _ _ _ _) as [m rows]. apply Hk. simpl in *. by eapply df_accounts.
Qed.
Lemma keeps_update_device {B} i p f (k : DB -> Z -> Tx B) :
  (forall x, (f x).(dev_account_id) = x.(dev_account_id) /\ (device_live (f x) = true -> device_live x = true)) ->
  (forall d n, keeps (k d n)) ->
  keeps (d ← read (fun d => d); let '(m, rows) := update_row d.(rooms).(devices) i p f in on_rooms (upd_devices (fun _ => m)) ≫= fun _ => k d rows).
Proof.
  intros Hf Hk s Hs. unfold read, mbind, Tx_bind. pose proof (updated_devices s.(db).(rooms).(devices) i p f Hf) as Hu.
  destruct (update_row _ _ _ _) as [m rows]. apply Hk. simpl in *. by eapply df_shrink.
Qed.

Lemma revoked_row now x :
  (revoked_device now x).(dev_account_id) = x.(dev_account_id) /\ (device_live (revoked_device now x) = true -> device_live x = true).
Proof. done. Qed.
Lemma scrubbed_row now x :
  (scrubbed_device now x).(dev_account_id) = x.(dev_account_id) /\ (device_live (scrubbed_device now x) = true -> device_live x = true).
Proof. done. Qed.

#[local] Hint Extern 1 (preserves _ (modify (upd_rooms (upd_accounts (alter _ _))))) =>
  apply keeps_account; intros; by apply altered_accounts : txs.
#[local] Hint Extern 1 (preserves _ (modify (upd_rooms (upd_accounts (insert _ _))))) =>
  apply keeps_account; intros; by apply inserted_accounts : txs.
#[local] Hint Extern 1 (preserves _ (modify (upd_rooms (upd_devices (fmap _))))) =>
  apply keeps_devices; intros; apply mapped_devices; intros; case_match; done : txs.
#[local] Hint Extern 1 (preserves _ (modify (upd_rooms (upd_devices (alter _ _))))) =>
  apply keeps_devices; intros; apply altered_devices; intros; case_match; done : txs.

Lemma keeps_revoke_tx now e a dev ty : keeps (revokeDeviceTx now e a dev ty).
Proof. apply keeps_update_device; [apply revoked_row|]. tx_deep. Qed.
Lemma keeps_change clock a keep h : keeps (ChangePassword clock a keep h).
Proof. apply pv_transaction, keeps_update_account. tx_deep. Qed.
Lemma keeps_rehash a old new : keeps (UpgradePasswordHash a old new).
Proof.
  apply pv_transaction. intros s Hs. unfold read, mbind, Tx_bind.
  pose proof (updated_accounts s.(db).(rooms).(accounts) a (fun a => (a.(acc_password_hash) =s? old) && bool_decide (a.(acc_deleted_at) = None))
    (set_password new)) as Hu.
  destruct (update_row _ _ _ _) as [m rows]. destruct (rows =? 1); [|done]. simpl in *. by eapply df_accounts.
Qed.
Lemma keeps_delete clock a : keeps (DeleteAccountData clock a).
Proof. tx_deep; eauto 2 with txs. Qed.
Lemma keeps_seen now dev : keeps (MarkDeviceSeen now dev).
Proof. tx_deep; eauto 2 with txs. Qed.
End devices.

(** ** Adding a device *)

Section adding.
Context (L : Z).
Abbreviation keeps m := (preserves (fun d => within L d.(rooms).(accounts) d.(rooms).(devices)) m).

Lemma within_insert A D dev x :
  within L A D -> D !! dev = None -> is_Some (A !! x.(dev_account_id)) -> len (live_ids x.(dev_account_id) D) + 1 <= L ->
  within L A (<[dev := x]> D).
Proof.
  intros [Hf Hc] Hn Ha Hroom. split.
  - intros dev' x'. rewrite lookup_insert. destruct (decide (dev = dev')); [intros [= <-]; done|apply Hf].
  - intros a. destruct (decide (a = x.(dev_account_id))) as [->|Hne].
    + etrans; [apply (live_bound _ _ (dev :: live_ids x.(dev_account_id) D))|unfold len in *; simpl; lia].
      intros dev' (x' & Hx' & Ha' & Hl)%elem_of_live. rewrite lookup_insert in Hx'. apply elem_of_cons.
      destruct (decide (dev = dev')); [by left|right; apply elem_of_live; eauto].
    + etrans; [|apply (Hc a)]. apply live_bound. intros dev' (x' & Hx' & Ha' & Hl)%elem_of_live. rewrite lookup_insert in Hx'.
      destruct (decide (dev = dev')); [|apply elem_of_live; eauto]. injection Hx' as <-. congruence.
Qed.

Lemma device_inserted dev x s u s' :
  insert_device dev x s = (Ok u, s') -> len (live_ids x.(dev_account_id) s.(db).(rooms).(devices)) + 1 <= L ->
  within L s.(db).(rooms).(accounts) s.(db).(rooms).(devices) -> within L s'.(db).(rooms).(accounts) s'.(db).(rooms).(devices).
Proof.
  unfold insert_device. intros E Hroom Hw. run E. simpl. apply andb_prop in Hrun as [Hn Ha].
  apply negb_true_iff, bool_decide_eq_false in Hn. apply bool_decide_eq_true in Ha. apply within_insert; [done| |done|done].
  by apply eq_None_not_Some.
Qed.

(** A statement that violates a constraint changes nothing. *)
Lemma refused_statement {A} (q : DB -> bool) (k : DB -> Tx A) s e s' :
  (forall d s e s', k d s <> (Err e, s')) -> (d ← read (fun d => d); guard_tx (q d) ErrConstraint ≫= fun _ => k d) s = (Err e, s') -> s' = s.
Proof.
  intros Hk. unfold mbind, Tx_bind, read, guard_tx. destruct (q _); [intros E; by destruct (Hk _ _ _ _ E)|]. by intros [= _ <-].
Qed.

Lemma keeps_enrolled pk a dev role t i : 1 <= L -> keeps (insert_enrolled pk a dev role t i).
Proof.
  intros HL s Hw. unfold insert_enrolled, mbind, Tx_bind.
  destruct (insert_account _ _ s) as [[u|e] s1] eqn:E1; [|apply refused_statement in E1; [by subst|done]].
  unfold insert_account in E1. run E1. apply andb_prop in Hrun as [Hn _]. apply negb_true_iff, bool_decide_eq_false in Hn.
  match goal with |- context [with_db s ?d] => set (s1 := with_db s d) end.
  assert (within L s1.(db).(rooms).(accounts) s1.(db).(rooms).(devices)) as Hw1.
  { simpl. eapply df_accounts, Hw. intros j. apply inserted_accounts. }
  assert (live_ids a s1.(db).(rooms).(devices) = []) as Hb.
  { simpl. destruct (live_ids a _) as [|d' l] eqn:E; [done|]. assert (d' ∈ live_ids a s.(db).(rooms).(devices)) as Hd by (rewrite E; by left).
    apply elem_of_live in Hd as (x & Hx & <- & _). by destruct (Hn (proj1 Hw _ _ Hx)). }
  destruct (insert_device _ _ s1) as [[u'|e] s2] eqn:E; [|apply refused_statement in E; [by subst|done]].
  assert (within L s2.(db).(rooms).(accounts) s2.(db).(rooms).(devices)) as Hw2.
  { eapply device_inserted; [done| |done]. simpl. simpl in Hb. by rewrite Hb. }
  match goal with |- context [insertInitialDeviceKeyPackage ?x1 ?x2 ?x3 ?x4 s2] =>
    assert (keeps (insertInitialDeviceKeyPackage x1 x2 x3 x4)) as Hk by tx_deep; by apply Hk end.
Qed.

Lemma checked_room a s u s' :
  checkDevices a s = (Ok u, s') -> s' = s /\ len (live_ids a s.(db).(rooms).(devices)) + 1 <= s.(limits).(DevicesPerAccount).
Proof.
  unfold checkDevices. intros E. run E. destruct (_ <=? _) eqn:El; run E. split; [done|]. unfold live_ids, len in *. rewrite length_fmap. lia.
Qed.

Abbreviation bounded s := (within L s.(db).(rooms).(accounts) s.(db).(rooms).(devices)).

Lemma after_insert {A} dev x (k : unit -> Tx A) s v s' :
  (insert_device dev x ≫= k) s = (Ok v, s') -> (forall u, keeps (k u)) -> len (live_ids x.(dev_account_id) s.(db).(rooms).(devices)) + 1 <= L ->
  bounded s -> bounded s'.
Proof. intros (u & s1 & E1 & E2)%bind_ok Hk Hroom Hw. eapply (pv_ok _ _ _ _ _ (Hk u) E2). by eapply device_inserted. Qed.

Lemma approve_within pk clock id a src h th tag s v s' :
  s.(limits).(DevicesPerAccount) = L -> ApproveDeviceLinkV3 pk clock id a src h th tag s = (Ok v, s') -> bounded s -> bounded s'.
Proof.
  intros HL E Hw. unfold ApproveDeviceLinkV3 in E. run_step E. run_step E. do 4 run_step E. destruct (_ || _) in E; [by run E|].
  do 2 run_step E. match goal with H : checkDevices _ _ = _ |- _ => apply checked_room in H as [-> Hroom] end.
  eapply after_insert; [exact E| |simpl; lia|done]. tx_deep.
Qed.

Lemma approve_old_within pk checked now id a th tag ty s v s' :
  s.(limits).(DevicesPerAccount) = L -> approveDeviceLink pk checked now id a th tag ty s = (Ok v, s') -> bounded s -> bounded s'.
Proof.
  intros HL E Hw. unfold approveDeviceLink in E. run_step E. do 2 run_step E. destruct a0 as [[i r] x]. do 4 run_step E.
  match goal with H : checkDevices _ _ = _ |- _ => apply checked_room in H as [-> Hroom] end.
  eapply after_insert; [exact E| |simpl; lia|done]. tx_deep.
Qed.

Lemma take_over_within pk clock id tok record s c s' :
  1 <= L -> take_over pk clock id tok record s = (Ok c, s') -> bounded s -> bounded s'.
Proof.
  intros HL E Hw. unfold take_over in E. do 2 run_step E. apply bind_ok in E as (u & s1 & E1 & E). unfold mark_all_revoked in E1. run E1.
  match type of E with _ ?s1 = _ => assert (within_bare L record.(rq_account_id) s1.(db).(rooms).(accounts) s1.(db).(rooms).(devices)) as Hb end.
  { simpl. split; [eapply df_shrink, Hw; apply mapped_devices; intros x; by destruct (_ && _)|].
    destruct (live_ids _ _) as [|dev l] eqn:El; [done|]. assert (dev ∈ dev :: l) as Hd by by left. rewrite <- El in Hd.
    apply elem_of_live in Hd as (x & Hx & Ha & Hl). rewrite lookup_fmap in Hx. apply fmap_Some in Hx as (y & Hy & ->).
    destruct (_ && _) eqn:Ey; [done|]. by rewrite Ha, str_eqb_refl, Hl in Ey. }
  apply bind_ok in E as (v & s2 & E1 & E).
  assert (forall now e a ids, preserves (fun d => within_bare L record.(rq_account_id) d.(rooms).(accounts) d.(rooms).(devices)) (revoke_all now e a ids)) as Hr.
  { intros. apply pv_revoke_all. intros dev. apply (keeps_revoke_tx _). }
  apply (pv_ok _ _ _ _ _ (Hr _ _ _ _) E1) in Hb. apply bind_ok in E as (w & s3 & E2 & E).
  assert (within_bare L record.(rq_account_id) s3.(db).(rooms).(accounts) s3.(db).(rooms).(devices)) as [Hw3 Hb3].
  { by injection E2 as <- <-. }
  eapply after_insert; [exact E| |simpl; rewrite Hb3; unfold len; simpl; lia|done]. tx_deep.
Qed.

Lemma keeps_recover pk clock id t tok : 1 <= L -> keeps (CompleteRecovery pk clock id t tok).
Proof.
  intros HL. apply pv_bind; [|intros []; tx_deep]. intros s Hw.
  destruct (transaction _ s) as [[v|e] s'] eqn:E; simpl; [|by apply transaction_err in E as [-> _]].
  run E. destruct (_ =s? RecoveryStateCompleted) in E; [by unfold completedRecovery in E; run_all|].
  destruct (negb (_ =s? RecoveryStateWaiting)) in E; [run E|]. destruct (negb (time_after _ _)) in E; [by unfold set_waiting in E; run E|].
  destruct (time_after _ _) in E; [by run E|]. do 2 run_step E. cbv zeta in E. destruct (_ || _) in E; [by unfold set_waiting in E; run E|].
  apply bind_ok in E as (c & s1 & E1 & E). run E. by eapply take_over_within.
Qed.

#[local] Hint Resolve keeps_enrolled keeps_recover : txs.
#[local] Hint Extern 1 (preserves _ (revokeDeviceTx _ _ _ _ _)) => apply (keeps_revoke_tx (within L)) : txs.
#[local] Hint Extern 1 (preserves _ (ChangePassword _ _ _ _)) => apply (keeps_change (within L)) : txs.
#[local] Hint Extern 1 (preserves _ (UpgradePasswordHash _ _ _)) => apply (keeps_rehash (within L)) : txs.
#[local] Hint Extern 1 (preserves _ (DeleteAccountData _ _)) => apply (keeps_delete (within L)) : txs.
#[local] Hint Extern 1 (preserves _ (MarkDeviceSeen _ _)) => apply (keeps_seen (within L)) : txs.
#[local] Hint Extern 1 (preserves _ (modify (upd_rooms (upd_accounts (alter _ _))))) =>
  apply (keeps_account (within L)); intros; by apply altered_accounts : txs.

Lemma within_session o : 1 <= L -> keeps (run_op o).
Proof.
  intros HL. destruct o; unfold run_op; tx_deep; eauto 2 with txs.
Qed.

Lemma within_link o s : 1 <= L -> s.(limits).(DevicesPerAccount) = L -> bounded s -> bounded (run_link o s).2.
Proof.
  intros HL Hs Hw. destruct o; unfold run_link, discard.
  4:{ unfold mbind, Tx_bind. destruct (ApproveDeviceLinkV3 _ _ _ _ _ _ _ _ s) as [[v|e] s'] eqn:E; simpl;
      [by eapply approve_within|by apply refused_unchanged in E as ->]. }
  all: match goal with |- within _ (accounts (rooms (db (?m _).2))) _ => assert (keeps m) as Hm; [|by apply Hm] end; tx_deep; eauto 2 with txs.
Qed.

Lemma within_id o s : s.(limits).(DevicesPerAccount) = L -> bounded s -> bounded (run_id o s).2.
Proof.
  intros Hs Hw. destruct o; unfold run_id, discard.
  12:{ unfold mbind, Tx_bind. destruct (approveDeviceLink _ _ _ _ _ _ _ _ s) as [[v|e] s'] eqn:E; simpl;
       [by eapply approve_old_within|by apply transaction_err in E as [-> _]]. }
  all: match goal with |- within _ (accounts (rooms (db (?m _).2))) _ => assert (keeps m) as Hm; [|by apply Hm] end; tx_deep; eauto 2 with txs.
Qed.
End adding.

Lemma kl_revoke_all now e a ids :
  (forall dev, keeps_limits (revokeDeviceTx now e a dev "device.revoked")) -> keeps_limits (revoke_all now e a ids).
Proof. intros Hr. induction ids as [|dev ids IH]; simpl; [done|]. repeat (apply kl_bind; [done|intros]). done. Qed.

(** The limits are not the requests' to change. *)
Ltac kl_deep :=
  repeat lazymatch goal with
  | |- forall _, _ => intros; cbv beta
  | |- keeps_limits (transaction _) => apply kl_transaction
  | |- keeps_limits (for_each _ _) => apply kl_for_each
  | |- keeps_limits (revoke_all _ _ _ _) => apply kl_revoke_all
  | |- keeps_limits (_ ≫= _) => apply kl_bind
  | |- keeps_limits (match ?x with _ => _ end) => destruct x
  | |- keeps_limits (fun _ => _) => solve [intros ?; reflexivity]
  | |- keeps_limits ?m => first [solve [eauto 2 with txs] | let h := head_of m in unfold h]
  end.

Lemma step_limits s s' : id_step s s' -> s'.(limits) = s.(limits).
Proof.
  intros [o s1|o s1|o s1|s1 s2 He]; [..|apply He].
  - assert (keeps_limits (run_op o)) as Hk; [|apply Hk]. destruct o; unfold run_op; kl_deep.
  - assert (keeps_limits (run_link o)) as Hk; [|apply Hk]. destruct o; unfold run_link, discard; kl_deep.
  - assert (keeps_limits (run_id o)) as Hk; [|apply Hk]. destruct o; unfold run_id, discard; kl_deep.
Qed.

(** C18: no account has more live devices than the limit.  In every history
    that starts without devices, with a limit of at least one, every account
    has at most [DevicesPerAccount] devices that are not revoked, whichever
    way they came (set-up, registration, either device-link protocol,
    recovery); and every device belongs to an account that exists. *)
Theorem devices_within_limit s0 s :
  s0.(db).(rooms).(devices) = ∅ -> 1 <= s0.(limits).(DevicesPerAccount) -> rtc id_step s0 s ->
  s.(limits) = s0.(limits) /\ within s.(limits).(DevicesPerAccount) s.(db).(rooms).(accounts) s.(db).(rooms).(devices).
Proof.
  intros E0 HL Hs. assert (within s0.(limits).(DevicesPerAccount) s0.(db).(rooms).(accounts) s0.(db).(rooms).(devices)) as Hw.
  { rewrite E0. split; [by intros dev x|]. intros a. unfold live_ids. rewrite map_to_list_empty. unfold len. simpl. lia. }
  clear E0. induction Hs as [s|s s1 s2 H1 _ IH]; [done|]. pose proof (step_limits _ _ H1) as El. rewrite <- El in *. apply IH; [done|].
  rewrite El in *. clear IH. destruct H1 as [o s|o s|o s|s s' He].
  - by apply within_session.
  - by apply within_link.
  - by apply within_id.
  - destruct He as [EA -> _ _]. eapply df_accounts, Hw. intros i [x Hx]. pose proof (standing_lookup _ _ i EA) as Ei. rewrite Hx in Ei.
    simpl in Ei. apply fmap_Some in Ei as (y & Hy & _). by eexists.
Qed.

(** ** Invites *)

Abbreviation invite_table := (gmap string InviteRow).

Definition uses_ok (r : InviteRow) : Prop := 0 <= r.(iv_uses) <= r.(iv_max_uses).
Definition invites_ok (I : invite_table) : Prop := forall id r, I !! id = Some r -> uses_ok r.

(** The row after one more registration. *)
Definition used (r : InviteRow) : InviteRow :=
  mkInviteRow r.(iv_code) r.(iv_created_by) r.(iv_max_uses) (r.(iv_uses) + 1) r.(iv_expires_at) r.(iv_created_at) r.(iv_revoked_at).

(** What a registration found and what it left: an open invite of its code
    with one more use, and its open reservation for that invite, consumed. *)
Record registers (clock : nat -> Z) (i : RegisterInput) (s s' : Store) (id : string) (r : InviteRow) (e : ReservationRow) : Prop := {
  rg_invite : s.(db).(ident).(invites) !! id = Some r;
  rg_open : r.(iv_code) = TrimSpace i.(ri_InviteCode) /\ invite_open (clock 0%nat) r = true;
  rg_invites : s'.(db).(ident).(invites) = <[id := used r]> s.(db).(ident).(invites);
  rg_reserved : s.(db).(ident).(reservations) !! TrimSpace i.(ri_EnrollmentReservationID) = Some e;
  rg_reservation : e.(er_kind) = "register"%string /\ e.(er_invite_id) = Some id /\ reservation_open (clock 1%nat) e = true;
  rg_consumed : s'.(db).(ident).(reservations) !! TrimSpace i.(ri_EnrollmentReservationID) = Some (consumed (clock 3%nat) e);
  rg_account : s.(db).(rooms).(accounts) !! e.(er_account_id) = None /\
    (acc_role <$> s'.(db).(rooms).(accounts) !! e.(er_account_id)) = Some RoleMember;
  rg_device : s.(db).(rooms).(devices) !! e.(er_device_id) = None /\
    (dev_account_id <$> s'.(db).(rooms).(devices) !! e.(er_device_id)) = Some e.(er_account_id) }.

Lemma open_invite d now code id :
  invite_by_code d now code = Some id -> exists r, d.(ident).(invites) !! id = Some r /\ r.(iv_code) = code /\ invite_open now r = true.
Proof.
  unfold invite_by_code. intros ([i r] & Hh & ->)%fmap_Some. apply head_Some_elem_of in Hh.
  rewrite list_elem_of_In, List.filter_In, <- list_elem_of_In, elem_of_map_to_list in Hh. destruct Hh as [Hi [Hc%str_eqb_true Ho]%andb_prop]. eauto.
Qed.

Lemma first_session_ok a dev t i s u s' :
  insert_first_session a dev t i s = (Ok u, s') -> s'.(db).(rooms) = s.(db).(rooms) /\ s'.(db).(ident) = s.(db).(ident).
Proof.
  unfold insert_first_session. intros E. run E. destruct (sessionLifetime _ _ _) as [e1 e2]. destruct (_ =s? _) in E; [by run E|].
  unfold insert_session in E. by run E.
Qed.

Lemma consume_ok now checked id s u s' :
  consumeEnrollmentReservation now checked id s = (Ok u, s') ->
  exists e, s.(db).(ident).(reservations) !! id = Some e /\ s'.(db).(rooms) = s.(db).(rooms) /\ s'.(db).(ident).(invites) = s.(db).(ident).(invites) /\
    s'.(db).(ident).(reservations) !! id = Some (consumed now e).
Proof.
  unfold consumeEnrollmentReservation. intros E. run E. unfold update_row in E. destruct (_ !! id) as [e|] eqn:Ee; [|by run E].
  destruct (reservation_open _ _); [|by run E]. run E. exists e. repeat split; try done. simpl. apply lookup_insert_eq.
Qed.

Lemma enrolled_ok pk a dev role t i s u s' :
  insert_enrolled pk a dev role t i s = (Ok u, s') ->
  s'.(db).(ident) = s.(db).(ident) /\ s.(db).(rooms).(accounts) !! a = None /\ (acc_role <$> s'.(db).(rooms).(accounts) !! a) = Some role /\
  s.(db).(rooms).(devices) !! dev = None /\ (dev_account_id <$> s'.(db).(rooms).(devices) !! dev) = Some a.
Proof.
  unfold insert_enrolled. intros E. apply bind_ok in E as (u1 & s1 & E1 & E). apply bind_ok in E as (u2 & s2 & E2 & E).
  apply initial_package_ok in E as [f ->]. apply insert_device_ok in E2 as [-> Hdev]. unfold insert_account in E1. run E1. simpl in *.
  apply andb_prop in Hrun as [Hn _]. apply negb_true_iff, bool_decide_eq_false in Hn. rewrite !lookup_insert_eq.
  repeat split; try done. by apply eq_None_not_Some.
Qed.

Lemma register_exact pk clock i s x s' :
  RegisterWithInvite pk clock i s = (Ok x, s') -> exists id r e, registers clock i s s' id r e.
Proof.
  unfold RegisterWithInvite, enrollmentReservationForTx, use_invite. intros E. run E.
  apply open_invite in Hrun as (r & Hr & Hc & Ho). run Hrun0. simpl in *. apply bool_decide_eq_true in Hrun1.
  apply andb_prop in Hrun5 as [Hk%str_eqb_true Hopen].
  apply enrolled_ok in Hrun2 as (Eid & Hacc & Hacc' & Hdev & Hdev').
  apply first_session_ok in Hrun3 as [Er3 Ei3]. apply consume_ok in Hrun4 as (e & He & Er4 & Einv & Hcons). simpl in *.
  exists a, r, a5. rewrite Ei3, Eid in He. simpl in He. rewrite Hrun in He. injection He as <-.
  split; [done|done| |done|done|done|..].
  - rewrite Einv, Ei3, Eid. simpl. apply map_eq. intros j. rewrite lookup_alter, lookup_insert. destruct (decide (a = j)) as [<-|]; [|done]. by rewrite Hr.
  - split; [done|]. by rewrite Er4, Er3.
  - split; [done|]. by rewrite Er4, Er3.
Qed.

Section invites.
Abbreviation keeps m := (preserves (fun d => invites_ok d.(ident).(invites)) m).

Lemma invites_mapped f : (forall r, uses_ok r -> uses_ok (f r)) -> keeps (modify (upd_ident (upd_invites (fmap f)))).
Proof. intros Hf s Hs id r. simpl. rewrite lookup_fmap. intros (y & Hy & ->)%fmap_Some. apply Hf, (Hs _ _ Hy). Qed.
Lemma invites_dropped ids : keeps (modify (upd_ident (upd_invites (drop_rows ids)))).
Proof. intros s Hs id r. simpl. unfold drop_rows. rewrite map_lookup_filter_Some. intros [Hr _]. apply (Hs _ _ Hr). Qed.
Lemma invites_added id r : uses_ok r -> keeps (modify (upd_ident (upd_invites (insert id r)))).
Proof. intros Hr s Hs j x. simpl. rewrite lookup_insert. destruct (decide (id = j)); [by intros [= <-]|apply Hs]. Qed.
Lemma invites_updated d id p f g z :
  invites_ok d.(ident).(invites) -> update_row d.(ident).(invites) id p f = (g, z) -> (forall r, uses_ok r -> uses_ok (f r)) ->
  keeps (modify (upd_ident (upd_invites (fun _ => g)))).
Proof.
  intros Ho E Hf s _ j x. simpl. unfold update_row in E. destruct (_ !! id) as [r|] eqn:Er; [|injection E as <- <-; apply Ho].
  destruct (p r); injection E as <- <-; [|apply Ho]. rewrite lookup_insert. destruct (decide (id = j)); [|apply Ho].
  intros [= <-]. apply Hf, (Ho _ _ Er).
Qed.

Lemma invites_registered pk clock i : keeps (RegisterWithInvite pk clock i).
Proof.
  intros s Hs. destruct (RegisterWithInvite pk clock i s) as [[x|e] s'] eqn:E; simpl.
  - destruct (register_exact _ _ _ _ _ _ E) as (id & r & e & [Hr [_ Ho] HI _ _ _ _ _]). rewrite HI. intros j y. rewrite lookup_insert.
    destruct (decide (id = j)); [|apply Hs]. intros [= <-]. pose proof (Hs _ _ Hr) as Hu. unfold invite_open in Ho.
    apply andb_prop in Ho as [Ho _]. apply andb_prop in Ho as [_ Ho]. unfold uses_ok in *. simpl. lia.
  - by apply transaction_err in E as [-> _].
Qed.
#[local] Hint Resolve invites_registered invites_dropped : txs.
#[local] Hint Extern 1 (preserves _ (modify (upd_ident (upd_invites (fmap _))))) =>
  apply invites_mapped; intros ? ?; case_match; done : txs.
#[local] Hint Extern 1 (preserves _ (modify (upd_ident (upd_invites (insert _ _))))) =>
  apply invites_added; unfold uses_ok; simpl; case_match; lia : txs.
#[local] Hint Extern 1 (preserves _ (modify (upd_ident (upd_invites (fun _ => _))))) =>
  eapply invites_updated; [eassumption|eassumption|done] : txs.

Lemma invites_kept : kept (fun d => invites_ok d.(ident).(invites)).
Proof. requests. all: try (intros s s' [_ _ -> _]; done). all: tx_deep; eauto 2 with txs. Qed.
End invites.

(** C19: an invite admits no more accounts than it allows, one at a time.  In
    every history that starts without invites, no invite has been used more
    often than [max_uses]; and a registration that succeeds found an invite of
    its code that was neither revoked, expired nor used up, adds one to its
    uses and changes no other invite, spends the open reservation that was
    made for this invite so that it opens no second account, and creates the
    reserved account, which was not there, as a plain member with the
    reserved device. *)
Theorem invites_admit_their_uses s0 s :
  s0.(db).(ident).(invites) = ∅ -> rtc id_step s0 s ->
  (forall id r, s.(db).(ident).(invites) !! id = Some r -> uses_ok r) /\
  (forall pk clock i x s', RegisterWithInvite pk clock i s = (Ok x, s') -> exists id r e, registers clock i s s' id r e).
Proof.
  intros E0 Hs. split; [|intros *; apply register_exact]. apply (steps_kept _ _ _ invites_kept Hs). rewrite E0. by intros id r.
Qed.
End requests.
