(* ===== verification/RecoveryRules.v ===== *)
(** * Rules of account recovery

    What a completed recovery leaves behind: the claimed device is the only
    live device of the account, its session the only valid one, and the
    request is used up. *)

From S2P Require Import Prelude GoStrings GoJson Domain Admission Database Conversations Memberships Messages Retention MessageEvents PushWake Mls MlsGroups MlsRules Blobs Identity Sessions DeviceLinks History Devices Recovery Accounts SessionRules LinkRules AccountRules.
From stdpp Require Import base numbers list strings gmap fin_maps sorting.
From Stdlib Require Import ZArith ZifyBool Lia.
Open Scope Z_scope.

Abbreviation request_table := (gmap string RecoveryRequestRow).
Abbreviation device_table := (gmap string DeviceRow).

Section take_over.
Context `{GoCrypto} (acct : string) (D0 : device_table) (S0 : session_table) (R0 : request_table).

(** The devices there were, with those of the account revoked. *)
Definition all_revoked (D : device_table) : Prop :=
  forall dev, match D0 !! dev, D !! dev with
  | None, None => True
  | Some x, Some x' => x'.(dev_account_id) = x.(dev_account_id) /\ (x.(dev_account_id) = acct -> device_live x' = false)
  | _, _ => False
  end.

(** Some of the sessions there were. *)
Definition no_new_session (S : session_table) : Prop := S ⊆ S0.

(** And the account has none without a device. *)
Definition devices_only (S : session_table) : Prop :=
  no_new_session S /\ forall k r, S !! k = Some r -> r.(ss_account_id) = acct -> r.(ss_device_id) <> None.

Definition requests_kept (R : request_table) : Prop := R = R0.

Lemma no_new_refl : no_new_session S0.
Proof. unfold no_new_session. done. Qed.

Lemma filter_shrinks gone S : no_new_session S -> no_new_session (filter (fun '(t, r) => gone t r = false) S).
Proof. intros HS. unfold no_new_session in *. etrans; [apply map_filter_subseteq|done]. Qed.

Lemma revoked_stays now D dev p : all_revoked D -> all_revoked (update_row D dev p (revoked_device now)).1.
Proof.
  intros HD dev'. specialize (HD dev'). unfold update_row. destruct (D !! dev) as [x|] eqn:E; [|done]. destruct (p x); [|done]. simpl.
  rewrite lookup_insert. destruct (decide (dev = dev')) as [->|]; [|done]. rewrite E in HD. by destruct (D0 !! dev') as [y|]; [destruct HD|].
Qed.

Lemma revoke_tx_devices now e a dev ty : preserves (fun d => all_revoked d.(rooms).(devices)) (revokeDeviceTx now e a dev ty).
Proof.
  intros s HD. unfold revokeDeviceTx at 1, read, mbind at 1, Tx_bind at 1.
  pose proof (revoked_stays now s.(db).(rooms).(devices) dev (fun r => r.(dev_account_id) =s? a) HD) as Hu.
  destruct (update_row _ _ _ _) as [m rows]. simpl in Hu.
  match goal with |- context [snd (?k s)] => enough (preserves (fun d => all_revoked m -> all_revoked d.(rooms).(devices)) k) as Hk by (by apply Hk) end.
  apply pv_bind; [intros s1 _ Hm; exact Hm|]. tx_deep.
Qed.

Lemma revoke_all_devices now e a ids : preserves (fun d => all_revoked d.(rooms).(devices)) (revoke_all now e a ids).
Proof. apply pv_revoke_all. intros. apply revoke_tx_devices. Qed.

Lemma revoke_all_sessions now e a ids : preserves (fun d => no_new_session d.(sessions)) (revoke_all now e a ids).
Proof. tx_deep. intros s Hs. by apply filter_shrinks. Qed.

Lemma revoke_all_requests now e a ids : preserves (fun d => requests_kept d.(ident).(recovery_requests)) (revoke_all now e a ids).
Proof. tx_deep. Qed.

Lemma marked_revoked now :
  all_revoked (fmap (fun r => if (r.(dev_account_id) =s? acct) && device_live r then revoked_device now r else r) D0).
Proof.
  intros dev. rewrite lookup_fmap. destruct (D0 !! dev) as [x|]; [|done]. simpl. destruct (dev_account_id x =s? acct) eqn:Ea; simpl.
  - destruct (device_live x) eqn:El; [done|]. done.
  - split; [done|]. intros <-. by rewrite str_eqb_refl in Ea.
Qed.

Lemma deviceless_deleted S :
  no_new_session S -> devices_only (filter (fun '(_, r) => (r.(ss_account_id) =s? acct) && bool_decide (r.(ss_device_id) = None) = false) S).
Proof.
  intros HS. split; [by apply (filter_shrinks (fun _ r => (r.(ss_account_id) =s? acct) && bool_decide (r.(ss_device_id) = None)))|].
  intros k r [_ Hf]%map_lookup_filter_Some <- Hn. by rewrite str_eqb_refl, Hn in Hf.
Qed.
End take_over.

(** ** The claimed device *)

(** The row of the device and the session that a completion makes. *)
Definition recovered_device (now : Z) (r : RecoveryRequestRow) : DeviceRow :=
  mkDeviceRow r.(rq_account_id) None now None (Some r.(rq_device_auth_hash)) r.(rq_device_name) r.(rq_key_package) (Some r.(rq_signing_key)).

Definition recovered_session (p : sessionPolicy) (now : Z) (r : RecoveryRequestRow) : SessionRow :=
  let '(idleExpiry, absoluteExpiry) := sessionLifetime p now 0 in
  new_session r.(rq_account_id) (Some r.(rq_device_id)) idleExpiry now None absoluteExpiry.

(** What a takeover makes of the three tables. *)
Record taken_over (now : Z) (id tok : string) (record : RecoveryRequestRow) (s s' : Store) : Prop := {
  to_devices : exists D, all_revoked record.(rq_account_id) s.(db).(rooms).(devices) D /\ D !! record.(rq_device_id) = None /\ s'.(db).(rooms).(devices) = <[record.(rq_device_id) := recovered_device now record]> D;
  to_sessions : exists S, devices_only record.(rq_account_id) s.(db).(sessions) S /\ S !! tok = None /\ s'.(db).(sessions) = <[tok := recovered_session s.(session_policy) now record]> S;
  to_requests : s'.(db).(ident).(recovery_requests) =
    alter (fun r => if r.(rq_state) =s? "waiting" then with_request_state "completed" record.(rq_cancelled_by) (Some now) r else r) id
      s.(db).(ident).(recovery_requests) }.

Section complete.
Context `{GoCrypto}.

(** What happens after the insertions leaves the three tables alone. *)
Lemma announced D S R id record ids clock k :
  preserves (fun d => d.(rooms).(devices) = D /\ d.(sessions) = S /\ d.(ident).(recovery_requests) = R)
    (eventID ← insertSyncEvent "account.recovered" (Some record.(rq_account_id)) ""
       [("device_id", VStr record.(rq_device_id)); ("revoked", VStrs ids)]%string (clock 0%nat);
     insertAuditEvent (clock 2%nat) (Some record.(rq_account_id)) "account.recovered"
       [("request_id", VStr id); ("device_id", VStr record.(rq_device_id)); ("revoked", VStrs ids)]%string ≫= fun _ =>
     done ← completedRecovery record;
     mret (k eventID done : RecoveryCompletion)).
Proof. tx_deep. Qed.

Lemma take_over_exact pk clock id tok record s c s' :
  take_over pk clock id tok record s = (Ok c, s') -> taken_over (clock 0%nat) id tok record s s'.
Proof.
  intros E. unfold take_over in E. do 2 run_step E. apply bind_ok in E as (u & s1 & E1 & E). unfold mark_all_revoked in E1. run E1.
  apply bind_ok in E as (v & s2 & E2 & E).
  pose proof (pv_ok _ _ _ _ _ (revoke_all_devices record.(rq_account_id) s.(db).(rooms).(devices) _ _ _ _) E2 (marked_revoked _ _ _)) as HD.
  pose proof (pv_ok _ _ _ _ _ (revoke_all_sessions s.(db).(sessions) _ _ _ _) E2 (no_new_refl _)) as HS.
  pose proof (pv_ok _ _ _ _ _ (revoke_all_requests s.(db).(ident).(recovery_requests) _ _ _ _) E2 eq_refl) as HR.
  clear E2. apply bind_ok in E as (? & s0 & E0 & E). injection E0 as <- <-. apply bind_ok in E as (? & s3 & E3 & E). apply insert_device_ok in E3 as [-> Hdev].
  apply bind_ok in E as (? & s4 & E4 & E). apply initial_package_ok in E4 as [f ->].
  assert (recovered_session s.(session_policy) (clock 0%nat) record = let '(i, a) := sessionLifetime s.(session_policy) (clock 0%nat) 0 in
    new_session record.(rq_account_id) (Some record.(rq_device_id)) i (clock 0%nat) None a) as Hses by done.
  destruct (sessionLifetime _ _ _) as [ie ae]. rewrite <- Hses in E. apply bind_ok in E as (? & s5 & E5 & E). unfold insert_session in E5. run E5.
  bool_to_prop. apply bind_ok in E as (? & s6 & E6 & E). injection E6 as <- <-.
  match type of E with _ ?st = _ =>
    destruct (pv_ok _ _ _ _ _ (announced st.(db).(rooms).(devices) st.(db).(sessions) st.(db).(ident).(recovery_requests) id record _ clock _) E
      (conj eq_refl (conj eq_refl eq_refl))) as (ED & ES & ER) end.
  split.
  - exists s2.(db).(rooms).(devices). split; [exact HD|]. split; [exact Hdev|]. by rewrite ED.
  - eexists. split; [apply deviceless_deleted, HS|]. split; [|rewrite ES; reflexivity].
    match goal with Hx : exists_in _ tok = false |- _ => by apply bool_decide_eq_false, eq_None_not_Some in Hx end.
  - rewrite ER. simpl. by rewrite HR.
Qed.

(** Every session with a device is of an account that has the device. *)
Definition own_devices (d : DB) : Prop :=
  forall k r dev, d.(sessions) !! k = Some r -> r.(ss_device_id) = Some dev ->
  exists x, d.(rooms).(devices) !! dev = Some x /\ x.(dev_account_id) = r.(ss_account_id).

Lemma one_device now id tok record s s' dev x :
  taken_over now id tok record s s' -> s'.(db).(rooms).(devices) !! dev = Some x -> x.(dev_account_id) = record.(rq_account_id) ->
  device_live x = true -> dev = record.(rq_device_id).
Proof.
  intros [(D & HD & _ & ->) _ _] Hx Ha Hl. rewrite lookup_insert in Hx. destruct (decide _) as [<-|]; [done|].
  specialize (HD dev). rewrite Hx in HD. destruct (_ !! dev) as [y|]; [|done]. destruct HD as [Ea Hd]. rewrite Hd in Hl; [done|congruence].
Qed.

Lemma one_session now id tok record s s' at_ k r :
  taken_over now id tok record s s' -> own_devices s.(db) -> s'.(db).(sessions) !! k = Some r -> r.(ss_account_id) = record.(rq_account_id) ->
  sessionValidity s'.(session_policy) s'.(db) at_ r = true -> k = tok.
Proof.
  intros Ht Ho Hk Ha Hv. destruct (decide (k = tok)) as [|Hne]; [done|]. exfalso.
  pose proof Ht as [(D & HD & Hn & ED) (S & [HS Hd] & _ & ES) _]. rewrite ES, lookup_insert_ne in Hk by done.
  unfold sessionValidity in Hv. apply andb_prop in Hv as [_ Hv]. specialize (Hd _ _ Hk Ha). destruct (ss_device_id r) as [dev|] eqn:Er; [|done].
  destruct (devices _ !! dev) as [x|] eqn:Ex; [|done]. destruct (Ho k r dev) as (y & Hy & Hya); [by eapply lookup_weaken|done|].
  assert (dev <> record.(rq_device_id)) as Hdev. { intros ->. specialize (HD (rq_device_id record)). by rewrite Hy, Hn in HD. }
  apply Hdev. eapply (one_device _ _ _ _ _ _ dev x Ht); [done| |done]. rewrite ED, lookup_insert_ne in Ex by done.
  specialize (HD dev). rewrite Hy, Ex in HD. destruct HD. congruence.
Qed.

(** C23: a recovery that is completed hands the account to the claimed device,
    and to nothing else.  When [CompleteRecovery] issues a session, the request
    it names carries the presented claim token, was waiting, was ready and not
    expired, and the account is active with the password and the recovery key
    that were verified for the claim; afterwards the claimed device, with its
    keys, is the only live device of the account, the new token leads to a
    session on that device, no other token is a valid session of the account
    at any time, and the request is completed and cannot be used again. *)
Theorem recovery_takes_over pk clock id t tok s c s' :
  own_devices s.(db) -> CompleteRecovery pk clock id t tok s = (Ok c, s') -> c.(rx_SessionIssued) = true ->
  exists record a,
    s.(db).(ident).(recovery_requests) !! TrimSpace id = Some record /\ completes clock t s.(db) record a /\
    s'.(db).(rooms).(devices) !! record.(rq_device_id) = Some (recovered_device (clock 0%nat) record) /\
    (forall dev x, s'.(db).(rooms).(devices) !! dev = Some x -> x.(dev_account_id) = record.(rq_account_id) -> device_live x = true ->
       dev = record.(rq_device_id)) /\
    s'.(db).(sessions) !! tok = Some (recovered_session s.(session_policy) (clock 0%nat) record) /\
    (forall at_ k r, s'.(db).(sessions) !! k = Some r -> r.(ss_account_id) = record.(rq_account_id) ->
       sessionValidity s'.(session_policy) s'.(db) at_ r = true -> k = tok) /\
    s'.(db).(ident).(recovery_requests) !! TrimSpace id =
      Some (with_request_state RecoveryStateCompleted record.(rq_cancelled_by) (Some (clock 0%nat)) record).
Proof.
  intros Ho E Hi. destruct (CompleteRecovery_issued _ _ _ _ _ _ _ _ E Hi) as (record & a & Hr & Hc & Et). exists record, a.
  apply take_over_exact in Et. split; [done|]. split; [done|]. repeat split.
  - destruct Et as [(D & _ & _ & ->) _ _]. apply lookup_insert_eq.
  - intros dev x. by apply (one_device _ _ _ _ _ _ _ _ Et).
  - destruct Et as [_ (S & _ & _ & ->) _]. apply lookup_insert_eq.
  - intros at_ k r. by apply (one_session _ _ _ _ _ _ _ _ _ Et).
  - destruct Et as [_ _ ->]. rewrite lookup_alter_eq, Hr. simpl. by rewrite (cp_waiting _ _ _ _ _ Hc).
Qed.
End complete.
