(* ===== verification/Listings.v ===== *)
(** * Listings

    The remaining reads of the stores: communities, channels, the paged list
    of conversations with its two cursors ([community_store.go]), blocked
    accounts, metadata search
    ([message_store.go]) and the state of the set-up ([sqlite.go]).  Where a
    query leaves the order of ties open, ties go by id. *)

From S2P Require Import Prelude GoStrings GoJson Domain Admission Database Conversations Messages.
From stdpp Require Import base numbers list strings gmap fin_maps sorting.
From Stdlib Require Import Ascii ZArith ZifyBool Lia.
Open Scope Z_scope.

Definition SetupRequired (d : DB) : bool := len (map_to_list d.(rooms).(accounts)) =? 0.

(** The row of the instance is written by the set-up. *)
Definition InstanceName : Tx string :=
  d ← read (fun d => d);
  i ← require d.(ident).(instance) ErrNotFound;
  mret i.(in_name).

Definition ListCommunities (d : DB) (accountID : string) : list Community :=
  order_by (fun a b => stamp_le (b.(comm_CreatedAt), b.(comm_ID)) (a.(comm_CreatedAt), a.(comm_ID)))
    (List.filter (fun c => bool_decide (is_Some (d.(rooms).(comm_members) !! (c.(comm_ID), accountID)))) (map_to_list d.(rooms).(communities)).*2).

Definition ListChannels (communityID accountID : string) : Tx (list Channel) :=
  d ← read (fun d => d);
  guard_tx (bool_decide (is_Some (community_role d communityID accountID))) ErrNotMember ≫= fun _ =>
  mret (order_by (fun a b => stamp_le (a.(chan_CreatedAt), a.(chan_ID)) (b.(chan_CreatedAt), b.(chan_ID)))
          (List.filter (fun c => c.(chan_CommunityID) =s? communityID) (map_to_list d.(rooms).(channels)).*2)).

Definition ListBlockedAccounts (d : DB) (blockerAccountID : string) : list AccountBlock :=
  order_by (fun a b => (b.(blk_CreatedAt) <? a.(blk_CreatedAt)) || ((a.(blk_CreatedAt) =? b.(blk_CreatedAt)) && str_le a.(blk_AccountID) b.(blk_AccountID)))
    (omap (fun '((blocker, blocked), at_) =>
       if blocker =s? blockerAccountID then (fun a => mkAccountBlock blocked a.(acc_username) at_) <$> d.(rooms).(accounts) !! blocked else None)
       (map_to_list d.(rooms).(blocks))).

(** ** Conversations *)

Record ListedConversation := mkListed {
  ls_Conversation : Conversation; ls_CurrentRole : string; ls_LastMessageAt : option Z; ls_UnreadCount : Z;
  ls_PeerAccountID : string; ls_PeerUsername : string }.

(** A message the account sees in a list of conversations. *)
Definition counts (d : DB) (now : Z) (accountID : string) (m : MessageEnvelope) : bool :=
  bool_decide (m.(m_DeletedAt) = None) && match m.(m_ExpiresAt) with None => true | Some e => now <? e end &&
  negb (blocked_by d accountID m.(m_SenderAccountID)).

Definition messages_of (d : DB) (conversationID : string) : list MessageEnvelope :=
  List.filter (fun m => m.(m_ConversationID) =s? conversationID) (map_to_list d.(content).(messages)).*2.

Definition last_message_at (d : DB) (now : Z) (accountID conversationID : string) : option Z :=
  match List.filter (counts d now accountID) (messages_of d conversationID) with
  | [] => None
  | m :: l => Some (foldr (fun m => Z.max m.(m_CreatedAt)) m.(m_CreatedAt) l)
  end.

(** A conversation of the account with its activity, the sort key. *)
Record ranked := mkRanked { rk_id : string; rk_row : ConversationRow; rk_role : string; rk_last : option Z }.
Definition rk_activity (r : ranked) : Z := default r.(rk_row).(cv_created_at) r.(rk_last).
Definition rk_stamp (r : ranked) : Z * string := (rk_activity r, r.(rk_id)).

Definition ranked_conversations (d : DB) (now : Z) (accountID : string) : list ranked :=
  omap (fun '(id, cv) => (fun m => mkRanked id cv m.(mb_role) (last_message_at d now accountID id)) <$> d.(rooms).(conv_members) !! (id, accountID))
    (map_to_list d.(rooms).(conversations)).

Definition by_activity (a b : ranked) : bool := stamp_le (rk_stamp b) (rk_stamp a).

Definition unread_count (d : DB) (now : Z) (accountID conversationID : string) : Z :=
  let after m :=
    match d.(content).(read_receipts) !! (conversationID, accountID) ≫= rr_message_id with
    | None => true
    | Some read =>
      match d.(content).(messages) !! read with
      | Some r => stamp_lt (r.(m_CreatedAt), read) (m.(m_CreatedAt), m.(m_ID))
      | None => false
      end
    end in
  len (List.filter (fun m => after m && negb (m.(m_SenderAccountID) =s? accountID) && counts d now accountID m) (messages_of d conversationID)).

Definition peer (d : DB) (accountID : string) (r : ranked) : string * string :=
  if negb (r.(rk_row).(cv_kind) =s? "dm") then (""%string, ""%string)
  else match head (order_by (fun a b => stamp_le (mb_created_at a.2, a.1) (mb_created_at b.2, b.1))
                     (omap (fun '((c, a), m) => if (c =s? r.(rk_id)) && negb (a =s? accountID) then Some (a, m) else None)
                        (map_to_list d.(rooms).(conv_members)))) with
  | Some (a, _) => (a, default ""%string (acc_username <$> d.(rooms).(accounts) !! a))
  | None => (""%string, ""%string)
  end.

Definition listed (d : DB) (now : Z) (accountID : string) (r : ranked) : ListedConversation :=
  let '(peerID, peerName) := peer d accountID r in
  mkListed (scanConversation r.(rk_id) r.(rk_row)) r.(rk_role) r.(rk_last) (unread_count d now accountID r.(rk_id)) peerID peerName.

Record ConversationCursor := mkCursor { cu_BeforeID : string; cu_BeforeActivity : Z }.

Definition annotate_listed (d : DB) (l : list ListedConversation) : list ListedConversation :=
  map (fun x => mkListed (default x.(ls_Conversation) (head (annotatePostingRestricted d [x.(ls_Conversation)]))) x.(ls_CurrentRole) x.(ls_LastMessageAt)
                  x.(ls_UnreadCount) x.(ls_PeerAccountID) x.(ls_PeerUsername)) l.

Definition conversations_limit (limit : Z) : nat := Z.to_nat (if (limit <=? 0) || (1000 <? limit) then 100 else limit).

(** The page of the conversations before a boundary. *)
Definition conversations_page (d : DB) (now : Z) (accountID : string) (limit : Z) (before : option (Z * string)) : list ListedConversation :=
  let before r := match before with None => true | Some b => stamp_lt (rk_stamp r) b end in
  annotate_listed d (map (listed d now accountID)
    (take (conversations_limit limit) (order_by by_activity (List.filter before (ranked_conversations d now accountID))))).

Definition ListConversationsPageFrom (now : Z) (accountID : string) (limit : Z) (cursor : ConversationCursor) : Tx (list ListedConversation) :=
  d ← read (fun d => d);
  if (cursor.(cu_BeforeID) =s? "") then
    if negb (time_is_zero cursor.(cu_BeforeActivity)) then throw ErrInvalidInput else mret (conversations_page d now accountID limit None)
  else if negb (time_is_zero cursor.(cu_BeforeActivity)) then
    mret (conversations_page d now accountID limit (Some (cursor.(cu_BeforeActivity), cursor.(cu_BeforeID))))
  else if negb (is_member d cursor.(cu_BeforeID) accountID) then mret []
  else match List.find (fun r => r.(rk_id) =s? cursor.(cu_BeforeID)) (ranked_conversations d now accountID) with
  | Some r => mret (conversations_page d now accountID limit (Some (rk_stamp r)))
  | None => mret []
  end.

Definition ListConversationsPage (now : Z) (accountID : string) (limit : Z) (beforeID : string) : Tx (list ListedConversation) :=
  ListConversationsPageFrom now accountID limit (mkCursor beforeID 0).

(** ** Search *)

Record MetadataSearchResult := mkSearchResult { sr_Type : string; sr_ID : string; sr_Label : string }.

(** [strings.ReplaceAll] of one character. *)
Definition replace_all (c : ascii) (by_ : list ascii) (l : list ascii) : list ascii :=
  List.flat_map (fun x => if bool_decide (x = c) then by_ else [x]) l.

Definition backslash : ascii := ascii_of_nat 92.
Definition escapeLike (value : string) : string :=
  of_chars (replace_all "_" [backslash; "_"%char] (replace_all "%" [backslash; "%"%char] (replace_all backslash [backslash; backslash] (chars value)))).

(** SQLite's [LIKE ... ESCAPE '\'] and [COLLATE NOCASE]: ASCII case only. *)
Definition same_letter (a b : ascii) : bool := bool_decide (lower a = lower b).

Fixpoint like (pat text : list ascii) : bool :=
  match pat with
  | [] => bool_decide (text = [])
  | c :: pat =>
    if bool_decide (c = backslash) then
      match pat, text with
      | c :: pat, x :: text => same_letter c x && like pat text
      | _, _ => false
      end
    else if bool_decide (c = "%"%char) then
      (fix any (text : list ascii) : bool := like pat text || match text with [] => false | _ :: text => any text end) text
    else match text with
    | [] => false
    | x :: text => (bool_decide (c = "_"%char) || same_letter c x) && like pat text
    end
  end.

Definition same_nocase (a b : string) : bool := ToLower a =s? ToLower b.

Definition search_rows (d : DB) (accountID query : string) : list (Z * MetadataSearchResult) :=
  let exactAccountID := if ValidID "acct" query then query else ""%string in
  let pattern := chars (escapeLike query +:+ "%") in
  let rank label := if same_nocase label query then 0 else 1 in
  let joined community := bool_decide (is_Some (d.(rooms).(comm_members) !! (community, accountID))) in
  omap (fun '(id, a) => if bool_decide (a.(acc_deleted_at) = None) && (same_nocase a.(acc_username) query || (id =s? exactAccountID))
                        then Some (0, mkSearchResult "account" id a.(acc_username)) else None) (map_to_list d.(rooms).(accounts)) ++
  omap (fun '(id, c) => if joined id && like pattern (chars c.(comm_Name)) then Some (rank c.(comm_Name), mkSearchResult "community" id c.(comm_Name)) else None)
    (map_to_list d.(rooms).(communities)) ++
  omap (fun '(id, c) => if joined c.(chan_CommunityID) && like pattern (chars c.(chan_Name)) then Some (rank c.(chan_Name), mkSearchResult "channel" id c.(chan_Name)) else None)
    (map_to_list d.(rooms).(channels)).

Definition search_le (a b : Z * MetadataSearchResult) : bool :=
  let key (x : Z * MetadataSearchResult) := (ToLower x.2.(sr_Label), x.2.(sr_Type), x.2.(sr_ID)) in
  let '(la, ta, ia) := key a in
  let '(lb, tb, ib) := key b in
  (a.1 <? b.1) || ((a.1 =? b.1) &&
    (if la =s? lb then (if ta =s? tb then str_le ia ib else str_le ta tb) else str_le la lb)).

Definition SearchMetadata (d : DB) (accountID query : string) (limit offset : Z) : list MetadataSearchResult :=
  let query := TrimSpace query in
  if query =s? "" then []
  else
    let limit := if (limit <=? 0) || (50 <? limit) then 20 else limit in
    let offset := if offset <? 0 then 0 else offset in
    (take (Z.to_nat limit) (drop (Z.to_nat offset) (order_by search_le (search_rows d accountID query)))).*2.

(** ** What a search finds *)

(** A name that starts with the query, whatever the case. *)
Definition starts_with (query name : string) : bool := bool_decide (map lower (take (length (chars query)) (chars name)) = map lower (chars query)).

Lemma like_any text : like ["%"%char] text = true.
Proof. induction text as [|x text IH]; [done|].
  change (like ["%"%char] (x :: text)) with (like [] (x :: text) || like ["%"%char] text). by rewrite IH, orb_true_r. Qed.

(** An escaped query matches itself only. *)
Definition escape_char (c : ascii) : list ascii :=
  if bool_decide (c = backslash) || bool_decide (c = "%"%char) || bool_decide (c = "_"%char) then [backslash; c] else [c].

Lemma escape_chars l :
  replace_all "_" [backslash; "_"%char] (replace_all "%" [backslash; "%"%char] (replace_all backslash [backslash; backslash] l)) = List.flat_map escape_char l.
Proof.
  assert (forall c b l1 l2, replace_all c b (l1 ++ l2) = replace_all c b l1 ++ replace_all c b l2) as Happ by (intros; apply List.flat_map_app).
  induction l as [|c l IH]; [done|]. change (c :: l) with ([c] ++ l). rewrite !Happ, IH, List.flat_map_app. f_equal.
  unfold replace_all, escape_char. cbn [List.flat_map]. destruct (decide (c = backslash)) as [-> |H1]; [done|].
  rewrite (bool_decide_false (c = backslash)) by done. destruct (decide (c = "%"%char)) as [-> |H2]; [done|].
  cbn. rewrite (bool_decide_false (c = "%"%char)) by done. destruct (decide (c = "_"%char)) as [-> |H3]; [done|].
  cbn. by rewrite (bool_decide_false (c = "_"%char)).
Qed.

Lemma like_escaped l text : like (List.flat_map escape_char l ++ ["%"%char]) text = bool_decide (map lower (take (length l) text) = map lower l).
Proof.
  revert text. induction l as [|c l IH]; intros text.
  - cbn [List.flat_map app length take map]. rewrite like_any. by rewrite bool_decide_true.
  - assert (like (List.flat_map escape_char (c :: l) ++ ["%"%char]) text =
      match text with x :: text => same_letter c x && like (List.flat_map escape_char l ++ ["%"%char]) text | [] => false end) as ->.
    { cbn [List.flat_map]. unfold escape_char at 1. destruct (_ || _ || _) eqn:E; cbn [app like].
      - rewrite bool_decide_true by done. by destruct text.
      - apply orb_false_iff in E as [[E1 E2]%orb_false_iff E3]. rewrite E1, E2, E3. done. }
    destruct text as [|x text]; [done|]. rewrite IH. cbn [length take map]. unfold same_letter. destruct (decide (lower c = lower x)) as [E|E].
    + rewrite (bool_decide_true (lower c = lower x)) by done. cbn [andb]. apply bool_decide_ext. rewrite E. split; [by intros ->|by intros [=]].
    + rewrite (bool_decide_false (lower c = lower x)) by done. cbn [andb]. symmetry. apply bool_decide_false. intros [= Hx _]. by apply E.
Qed.

Lemma pattern_prefix query name : like (chars (escapeLike query +:+ "%")) (chars name) = starts_with query name.
Proof. unfold escapeLike. rewrite chars_app, chars_of_chars, escape_chars. apply like_escaped. Qed.

(** What the account may learn of with a query. *)
Inductive visible_match (d : DB) (accountID query : string) : MetadataSearchResult -> Prop :=
| match_account id a :
    d.(rooms).(accounts) !! id = Some a -> a.(acc_deleted_at) = None ->
    ToLower a.(acc_username) = ToLower query \/ (id = query /\ ValidID "acct" query = true) ->
    visible_match d accountID query (mkSearchResult "account" id a.(acc_username))
| match_community id c :
    d.(rooms).(communities) !! id = Some c -> is_Some (d.(rooms).(comm_members) !! (id, accountID)) -> starts_with query c.(comm_Name) = true ->
    visible_match d accountID query (mkSearchResult "community" id c.(comm_Name))
| match_channel id c :
    d.(rooms).(channels) !! id = Some c -> is_Some (d.(rooms).(comm_members) !! (c.(chan_CommunityID), accountID)) ->
    starts_with query c.(chan_Name) = true -> visible_match d accountID query (mkSearchResult "channel" id c.(chan_Name)).

Section search.
Context (d : DB) (accountID query : string).
Context (Hblank : d.(rooms).(accounts) !! ""%string = None).

Lemma search_rows_exact x : x ∈ (search_rows d accountID query).*2 <-> visible_match d accountID query x.
Proof using Hblank.
  unfold search_rows. rewrite !fmap_app, !elem_of_app, !list_elem_of_fmap. split.
  - intros [([r y] & -> & Hin)|[([r y] & -> & Hin)|([r y] & -> & Hin)]]; apply list_elem_of_omap in Hin as ([id z] & Hz%elem_of_map_to_list & E);
      cbn [snd]; (destruct (_ && _) eqn:Ec in E; [|done]); injection E as _ <-; apply andb_prop in Ec as [E1 E2]; apply bool_decide_eq_true in E1.
    + apply match_account; [done..|]. apply orb_prop in E2 as [E2|E2]; apply str_eqb_true in E2; [by left|].
      right. destruct (ValidID "acct" query) eqn:Ev; [by subst|]. subst. congruence.
    + rewrite pattern_prefix in E2. by apply match_community.
    + rewrite pattern_prefix in E2. by apply match_channel.
  - intros [id a Ha Hn Hm|id c Hc Hj Hs|id c Hc Hj Hs]; [left|right; left|right; right];
      (eexists (_, _); split; [done|]; apply list_elem_of_omap; eexists (id, _); split; [by apply elem_of_map_to_list|]; cbn beta iota).
    + rewrite bool_decide_true by done. unfold same_nocase. destruct Hm as [-> |[-> ->]]; rewrite str_eqb_refl; [done|by rewrite orb_true_r].
    + rewrite bool_decide_true, pattern_prefix, Hs by done. done.
    + rewrite bool_decide_true, pattern_prefix, Hs by done. done.
Qed.
End search.

(** Metadata search shows an account only what it may know.  Every result
    is an account with just that name (whatever the case) or just that id, a
    community of which the caller is a member, or a channel of one, whose name
    starts with the query; wildcards in the query stand for themselves.  And
    nothing is held back: with a limit that suffices all of them are found. *)
Theorem search_stays_in_scope d accountID query limit offset :
  d.(rooms).(accounts) !! ""%string = None ->
  (forall x, x ∈ SearchMetadata d accountID query limit offset -> visible_match d accountID (TrimSpace query) x) /\
  (forall x, TrimSpace query <> ""%string -> len (search_rows d accountID (TrimSpace query)) <= limit <= 50 ->
     visible_match d accountID (TrimSpace query) x -> x ∈ SearchMetadata d accountID query limit 0).
Proof.
  intros Hb. unfold SearchMetadata. set (q := TrimSpace query). split.
  - intros x. destruct (q =s? ""); [by intros ?%not_elem_of_nil|]. intros ([r y] & -> & Hin)%list_elem_of_fmap.
    apply subseteq_take, subseteq_drop in Hin. rewrite order_by_perm in Hin. apply search_rows_exact; [done|]. apply list_elem_of_fmap. eauto.
  - intros x Hq Hl Hm. destruct (q =s? "") eqn:E; [by apply str_eqb_true in E|]. apply search_rows_exact in Hm; [|done].
    apply list_elem_of_fmap in Hm as (y & -> & Hin). apply list_elem_of_fmap. exists y. split; [done|].
    change (Z.to_nat (if 0 <? 0 then 0 else 0)) with 0%nat. rewrite drop_0. assert (0 < len (search_rows d accountID q)) as Hpos.
    { destruct (search_rows d accountID q); [by apply not_elem_of_nil in Hin|]. unfold len. cbn [length]. lia. }
    replace ((limit <=? 0) || (50 <? limit)) with false by lia. rewrite take_ge; [by rewrite order_by_perm|].
    rewrite (Permutation_length (order_by_perm _ _)). unfold len in *. lia.
Qed.

(** A member looks for a team by the start of its name; a per cent sign finds
    nothing but itself. *)
Definition ex_search : DB :=
  upd_rooms (upd_comm_members (insert ("c1", "me")%string (mkMemberRow "member" 1)) ∘
             upd_communities (insert "c1"%string (mkCommunity "c1" "Team 100%" "me" 1) ∘ insert "c2"%string (mkCommunity "c2" "Team B" "you" 1)))
    (new_db {["acct_me"%string := mkAccountRow "me" "member" "active" None true "" None 0]} ∅).

Lemma search_stays_in_scope_witness :
  SearchMetadata ex_search "me" " team 1" 10 0 = [mkSearchResult "community" "c1" "Team 100%"] /\
  (forall x, x ∈ SearchMetadata ex_search "me" "%" 10 0 -> visible_match ex_search "me" "%" x).
Proof.
  split; [vm_compute; reflexivity|].
  apply (proj1 (search_stays_in_scope ex_search "me" "%" 10 0 ltac:(vm_compute; reflexivity))).
Defined.
