(* ===== verification/IdentityExample.v ===== *)
(** * Accounts and devices on a concrete server

    The owner sets the server up with her phone, rotates the session, and
    links her laptop; the laptop's session is then logged out.  She also
    invites a member, who registers, and recovers her account on a new phone.
    The states witness the rules of [SessionRules], [LinkRules],
    [AccountRules] and [RecoveryRules].  The primitives of
    [GoCrypto] are toys: a digest that keeps the first 32 bytes, a signature
    that is valid when it has 64, and a parser that knows one address. *)

From S2P Require Import Prelude GoStrings GoJson Domain Admission Database Conversations Memberships Messages Retention MessageEvents PushWake Mls MlsGroups MlsRules Blobs Identity Sessions DeviceLinks History Devices Recovery Accounts SessionRules LinkRules AccountRules RecoveryRules.
From stdpp Require Import base numbers list strings gmap fin_maps sorting.
From Stdlib Require Import ZArith ZifyBool Lia.
Open Scope Z_scope.

Definition ix_sum (b : string) : string := of_chars (take 32 (chars b ++ replicate 32 (Ascii.ascii_of_nat 0))).

Lemma blen_of_chars l : blen (of_chars l) = Z.of_nat (length l).
Proof. unfold blen. f_equal. unfold of_chars. induction l; simpl; congruence. Qed.

Lemma ix_sum_size b : blen (ix_sum b) = 32.
Proof. unfold ix_sum. rewrite blen_of_chars, length_take, length_app, length_replicate. lia. Qed.

#[export] Instance ix_crypto : GoCrypto := {
  Sum256 := ix_sum;
  ed25519_Verify _ _ sig := blen sig =? 64;
  url_Parse s := if s =s? "https://chat.example" then Some (mkURL "https" "" false "" "" false "chat.example" "chat.example" "") else None;
  ParseIP_IsLoopback _ := None;
  Sum256_size := ix_sum_size }.

Definition ix_bytes (n k : nat) : string := of_chars (replicate n (Ascii.ascii_of_nat k)).
Definition ix_hash (k : nat) : string := hex_encode (ix_bytes 32 k).

Definition ix_empty : Store :=
  mkStore (new_db ∅ ∅) (mkLimits 250 1000 536870912 10737418240 10000 20 60 10) NewCounters 0 (newSessionPolicy 0 0).

(** The times of a request that starts at [t]. *)
Definition ix_at (t : Z) : nat -> Z := fun i => t + Z.of_nat i.

Definition ix_reserved := ReserveOwnerEnrollment "acct_o" "enr_1" "phone" (ix_bytes 32 7) 1000 ix_empty.
Definition ix_input : CreateOwnerInput := mkCreateOwnerInput "home"
  (mkRegisterInput "enr_1" "" "owner" None "pwhash" "phone" (ix_bytes 64 1) (ix_bytes 32 2) "devsecret" "tok1" 0).
Definition ix_owner := CreateOwner "kp_1" (ix_at 2000) ix_input ix_reserved.2.
Definition ix_rotated := RotateSession 3000 "tok1" "tok2" ix_owner.2.
Definition ix_out := DeleteSession 4000 "tok1" ix_rotated.2.

(** The row that a token leads to. *)
Definition ix_row (t : string) (s : Store) : SessionRow := default (new_session "" None 0 0 None 0) (s.(db).(sessions) !! t).

Lemma ix_first_unambiguous : unambiguous ix_owner.2.(db).(sessions).
Proof.
  assert (exists r, ix_owner.2.(db).(sessions) = {["tok1" := r]} /\ ss_previous_token_hash r = None) as (r & E & Hn).
  { eexists. split; vm_compute; reflexivity. }
  rewrite E. intros k1 r1 k2 r2 t H1%lookup_singleton_Some H2%lookup_singleton_Some Ht. destruct H1 as [_ <-]. congruence.
Qed.

Lemma ix_new_token t : t <> "tok1"%string -> dead t ix_owner.2.(db).(sessions).
Proof.
  assert (exists r, ix_owner.2.(db).(sessions) = {["tok1" := r]} /\ ss_previous_token_hash r = None) as (r & E & Hn).
  { eexists. split; vm_compute; reflexivity. }
  rewrite E. intros Ht k x [<- <-]%lookup_singleton_Some [?|?]; congruence.
Qed.

Lemma ix_to_rotated : rtc (session_step new_token) ix_empty ix_rotated.2.
Proof.
  eapply rtc_l; [apply (st_other _ ix_empty ix_reserved.2); vm_compute; reflexivity|].
  eapply rtc_l; [apply (st_op _ (OOwner "kp_1" (ix_at 2000) ix_input) ix_reserved.2)|].
  - intros tok [= <-] k r. replace (sessions _) with (∅ : session_table) by (vm_compute; reflexivity). done.
  - replace ((run_op (OOwner "kp_1" (ix_at 2000) ix_input) ix_reserved.2).2) with ix_owner.2.
    2:{ simpl. unfold mbind, Tx_bind. fold ix_owner. destruct ix_owner as [[]]; done. }
    apply rtc_once. unfold ix_rotated. apply (st_op _ (ORotate 3000 "tok1" "tok2") ix_owner.2).
    intros tok [= <-] k r Hr Hp. apply (ix_new_token "tok2" ltac:(done) _ _ Hr). by right.
Qed.

(** ** Witnesses *)

Lemma rotation_replaces_tokens_witness :
  exists s', RotateSession 3000 "tok1" "tok2" ix_owner.2 = (Ok tt, s') /\
    (forall now q, answers q "tok1" (ix_row "tok1" ix_owner.2) -> q <> "tok1"%string -> (SessionPrincipal now q s').1 = Err ErrUnauthorized).
Proof.
  destruct (rotation_replaces_tokens ix_owner.2 "tok1" (ix_row "tok1" ix_owner.2) "tok1" "tok2" 3000 ix_first_unambiguous
    ltac:(vm_compute; reflexivity) ltac:(vm_compute; reflexivity) (ix_new_token "tok2" ltac:(done)) ltac:(done) ltac:(done))
    as (s' & E & _ & _ & H).
  exists s'. split; [exact E|exact H].
Defined.

(** Logging out with the token that was rotated out ends both. *)
Lemma ended_sessions_stay_ended_witness :
  (SessionPrincipal 3500 "tok2" ix_rotated.2).1 <> Err ErrUnauthorized /\ (SessionPrincipal 4500 "tok2" ix_out.2).1 = Err ErrUnauthorized.
Proof.
  split; [vm_compute; discriminate|].
  apply (ended_sessions_stay_ended ix_empty ix_rotated.2 ix_out.2 ix_out.2 "tok2" (ix_row "tok2" ix_rotated.2) "tok2" 4500
    ltac:(vm_compute; reflexivity) ix_to_rotated ltac:(vm_compute; reflexivity) (or_introl eq_refl)
    (e_logout "tok2" (ix_row "tok2" ix_rotated.2) ix_rotated.2 4000 "tok1" ltac:(right; vm_compute; reflexivity))
    (rtc_refl _ _)).
Defined.

(** ** Linking the laptop *)

Definition ix_origin : string := "https://chat.example".
Definition ix_create : link_op := KCreate "link_1" (ix_bytes 32 9) (ix_at 5000) "acct_o" "phone" (ix_hash 1) ix_origin 0.
Definition ix_reserve : link_op := KReserve "laptop" (ix_bytes 32 8) 6000 (ix_hash 1) (ix_hash 2).
Definition ix_claim_input : DeviceLinkV3ClaimInput :=
  mkClaimInput (ix_hash 1) DeviceLinkV3Protocol ix_origin (ix_hash 2) "link_1" "laptop" (ix_bytes 64 3) (ix_bytes 32 4) (ix_bytes 32 5)
    (ix_bytes 32 6) (ix_bytes 32 7) (ix_hash 3) (ix_hash 4) (ix_hash 5) (ix_bytes 64 8).
Definition ix_claim : link_op := KClaim 7000 7001 ix_claim_input.
Definition ix_request : string := hex_encode (ix_sum "veritra-device-link-enrollment-v3").
Definition ix_approve : link_op := KApprove "kp_2" (ix_at 8000) "link_1" "acct_o" "phone" ix_request (ix_bytes 32 6) (ix_bytes 32 1).
Definition ix_complete : link_op := KComplete 9000 9001 "link_1" (ix_hash 3) ix_request (ix_hash 5) (ix_bytes 32 6).

Definition ix_created : Store := after_op ix_create ix_owner.2.
Definition ix_claimed : Store := after_op ix_claim (after_op ix_reserve ix_created).
Definition ix_linked : Store := after_op ix_complete (after_op ix_approve ix_claimed).

Definition ix_link (s : Store) : DeviceLinkV3Row :=
  default (mkDeviceLinkV3Row "" "" "" "" 0 "" "" None None None 0 0 None None None None None) (s.(db).(ident).(device_links_v3) !! "link_1"%string).

Example ix_link_states :
  map (fun s => (ix_link s).(lk_state)) [ix_created; ix_claimed; ix_linked] = ["pending"; "claimed"; "consumed"]%string.
Proof. vm_compute. reflexivity. Qed.

Lemma ix_to_created : rtc (link_step None) ix_empty ix_created.
Proof.
  eapply rtc_l; [apply (lk_other _ ix_empty ix_owner.2); vm_compute; reflexivity|]. apply rtc_once. by apply (lk_op _ ix_create).
Qed.

Lemma ix_to_linked : rtc (link_step (Some "link_1"%string)) ix_created ix_linked.
Proof.
  eapply rtc_l; [by apply (lk_op _ ix_reserve)|]. eapply rtc_l; [by apply (lk_op _ ix_claim)|].
  eapply rtc_l; [by apply (lk_op _ ix_approve)|]. apply rtc_once. by apply (lk_op _ ix_complete).
Qed.

Lemma links_move_forward_witness : link_ok (ix_link ix_linked) /\ link_evolves True (ix_link ix_created) (ix_link ix_linked).
Proof.
  apply (links_move_forward ix_empty ix_created ix_linked "link_1" (ix_link ix_created) (ix_link ix_linked)
    ltac:(vm_compute; reflexivity) ix_to_created ix_to_linked ltac:(vm_compute; reflexivity) ltac:(vm_compute; reflexivity)).
Defined.

Lemma linked_devices_were_approved_witness :
  exists s1 s2 pk clock h th tag x,
    ApproveDeviceLinkV3 pk clock "link_1" "acct_o" "phone" h th tag s1 = (Ok x, s2) /\
    dev_name <$> s2.(db).(rooms).(devices) !! "laptop"%string = Some "laptop"%string.
Proof.
  destruct (linked_devices_were_approved ix_empty ix_created ix_linked "link_1" (ix_link ix_created) (ix_link ix_linked)
    ltac:(vm_compute; reflexivity) ix_to_created ix_to_linked ltac:(vm_compute; reflexivity) ltac:(vm_compute; discriminate)
    ltac:(vm_compute; reflexivity) ltac:(vm_compute; split; discriminate))
    as (s1 & s2 & pk & clock & h & th & tag & x & c & _ & _ & E & Hc & _ & _ & _ & Hd).
  exists s1, s2, pk, clock, h, th, tag, x. split; [exact E|].
  replace (recipient (ix_link ix_linked)) with "laptop"%string in Hd by (vm_compute; reflexivity). rewrite Hd. simpl. f_equal.
  assert (lc_device_name <$> lk_claim (ix_link ix_linked) = Some "laptop"%string) as Hn by (vm_compute; reflexivity).
  rewrite Hc in Hn. by injection Hn as ->.
Defined.

(** A claim signed anew has the same proof: only its signature differs. *)
Definition ix_reservation : EnrollmentReservationT :=
  mkEnrollmentReservation "link_1" "" "acct_o" "laptop" None (ix_bytes 40 3) 0 "" "" "" "".
Definition ix_signed_anew : DeviceLinkV3ClaimInput :=
  mkClaimInput (ix_hash 1) DeviceLinkV3Protocol ix_origin (ix_hash 2) "link_1" "laptop" (ix_bytes 64 3) (ix_bytes 32 4) (ix_bytes 32 5)
    (ix_bytes 32 6) (ix_bytes 32 7) (ix_hash 3) (ix_hash 4) (ix_hash 5) (ix_bytes 64 9).
Definition ix_proof : string :=
  match DeviceLinkV3ProofMessage ix_claim_input ix_reservation with Ok m => m | Err _ => ""%string end.

Lemma proof_message_binds_witness :
  blen ix_proof = 485 /\ ci_InitialSessionTokenHash ix_claim_input = ci_InitialSessionTokenHash ix_signed_anew.
Proof.
  split; [vm_compute; reflexivity|].
  apply (proof_message_binds ix_claim_input ix_reservation ix_signed_anew ix_reservation ix_proof);
    vm_compute; reflexivity.
Defined.

(** ** A member registers *)

Definition ix_hmac (key message : string) : string := ix_sum (message +:+ key).
Definition ix_step := id_step ix_hmac.

Definition ix_invited : Store := (run_id ix_hmac (IInvite "inv_1" "code" 10000 "acct_o" 1 None) ix_owner.2).2.
Definition ix_expected : Store := (run_id ix_hmac (IReserveRegister "acct_m" "enr_2" "tablet" (ix_bytes 32 7) 11000 11001 "code") ix_invited).2.
Definition ix_member_input : RegisterInput :=
  mkRegisterInput "enr_2" "code" "member" None "pwhash" "tablet" (ix_bytes 64 1) (ix_bytes 32 2) "devsecret" "tok9" 0.
Definition ix_registered := RegisterWithInvite "kp_3" (ix_at 12000) ix_member_input ix_expected.
Definition ix_member : Store := (run_op (ORegister "kp_3" (ix_at 12000) ix_member_input) ix_expected).2.

Lemma ix_to_owner : rtc ix_step ix_empty ix_owner.2.
Proof.
  eapply rtc_l; [apply (is_op _ (IReserveOwner "acct_o" "enr_1" "phone" (ix_bytes 32 7) 1000))|].
  replace ((run_id _ _ ix_empty).2) with ix_reserved.2 by (vm_compute; reflexivity).
  eapply rtc_l; [apply (is_session _ (OOwner "kp_1" (ix_at 2000) ix_input))|].
  replace ((run_op _ _).2) with ix_owner.2 by (simpl; unfold mbind, Tx_bind; fold ix_owner; by destruct ix_owner as [[]]). done.
Qed.

Lemma ix_to_expected : rtc ix_step ix_owner.2 ix_expected.
Proof. eapply rtc_l; [apply (is_op _ (IInvite "inv_1" "code" 10000 "acct_o" 1 None))|]. apply rtc_once, is_op. Qed.
Lemma ix_to_member : rtc ix_step ix_owner.2 ix_member.
Proof. eapply rtc_r; [exact ix_to_expected|apply is_session]. Qed.

Definition ix_account (id : string) (s : Store) : AccountRow :=
  default (mkAccountRow "" "" "" None false "" None 0) (s.(db).(rooms).(accounts) !! id).

(** A member is there, and the owner is still the only owner. *)
Lemma the_owner_stays_witness : size ix_member.(db).(rooms).(accounts) = 2%nat /\ owner_is "acct_o" ix_member.(db).(rooms).(accounts).
Proof.
  split; [vm_compute; reflexivity|].
  apply (the_owner_stays ix_hmac ix_empty ix_owner.2 ix_member "acct_o" (ix_account "acct_o" ix_owner.2)
    ltac:(vm_compute; reflexivity) ix_to_owner ltac:(vm_compute; reflexivity) ltac:(vm_compute; reflexivity) ix_to_member).
Defined.

Lemma devices_within_limit_witness :
  size ix_member.(db).(rooms).(devices) = 2%nat /\ within 10 ix_member.(db).(rooms).(accounts) ix_member.(db).(rooms).(devices).
Proof.
  split; [vm_compute; reflexivity|].
  exact (proj2 (devices_within_limit ix_hmac ix_empty ix_member ltac:(vm_compute; reflexivity) ltac:(vm_compute; discriminate)
    (rtc_trans _ _ _ ix_to_owner ix_to_member))).
Defined.

(** The invite for one account is used up by the registration. *)
Lemma invites_admit_their_uses_witness :
  exists id r e, registers (ix_at 12000) ix_member_input ix_expected ix_registered.2 id r e.
Proof.
  assert (exists x, ix_registered = (Ok x, ix_registered.2)) as [x Ex] by (eexists; vm_compute; reflexivity).
  exact (proj2 (invites_admit_their_uses ix_hmac ix_empty ix_expected ltac:(vm_compute; reflexivity)
    (rtc_trans _ _ _ ix_to_owner ix_to_expected)) "kp_3"%string (ix_at 12000) ix_member_input x ix_registered.2 Ex).
Defined.

(** ** The phone is lost *)

Definition ix_keyed := SetRecoveryKey 13000 13001 "acct_o" (ix_bytes 32 5) (ix_bytes 16 6) ix_owner.2.
Definition ix_recovering := ReserveRecoveryEnrollment ix_hmac (ix_bytes 32 1) "enr_9" "new phone" (ix_bytes 32 7) 14000 "owner" ix_keyed.2.
Definition ix_recovery_claim : RecoveryClaimInput :=
  mkRecoveryClaimInput "enr_9" "acct_o" "new phone" (ix_bytes 64 1) (ix_bytes 32 2) (ix_hash 3) (ix_hash 4) "pwhash" (ix_bytes 32 5) hour minute.
Definition ix_claimed_recovery := ClaimRecovery "rec_1" (ix_at 15000) ix_recovery_claim ix_recovering.2.
Definition ix_recovered := CompleteRecovery "kp_9" (ix_at (15010 + minute)) "rec_1" (ix_hash 4) "tok7" ix_claimed_recovery.2.

Lemma ix_own_devices : own_devices ix_claimed_recovery.2.(db).
Proof.
  assert (exists r, ix_claimed_recovery.2.(db).(sessions) = {["tok1" := r]} /\ r.(ss_device_id) = Some "phone"%string /\
    Some r.(ss_account_id) = dev_account_id <$> ix_claimed_recovery.2.(db).(rooms).(devices) !! "phone"%string) as (r & E & Hd & Ha).
  { eexists. repeat split; vm_compute; reflexivity. }
  intros k x dev. rewrite E. intros [<- <-]%lookup_singleton_Some. rewrite Hd. intros [= <-].
  symmetry in Ha. apply fmap_Some in Ha as (y & Hy & Ha). eauto.
Qed.

(** The phone's session is valid before the completion; after it only the new
    one is. *)
Lemma recovery_takes_over_witness :
  (SessionPrincipal 15000 "tok1" ix_claimed_recovery.2).1 <> Err ErrUnauthorized /\
  exists record, record.(rq_device_id) = "new phone"%string /\
    ix_recovered.2.(db).(rooms).(devices) !! "new phone"%string = Some (recovered_device (15010 + minute) record) /\
    forall at_ k r, ix_recovered.2.(db).(sessions) !! k = Some r -> r.(ss_account_id) = record.(rq_account_id) ->
       sessionValidity ix_recovered.2.(session_policy) ix_recovered.2.(db) at_ r = true -> k = "tok7"%string.
Proof.
  split; [vm_compute; discriminate|]. assert (exists c, ix_recovered.1 = Ok c /\ c.(rx_SessionIssued) = true) as (c & Ec & Hi).
  { eexists. split; vm_compute; reflexivity. }
  assert (ix_recovered = (Ok c, ix_recovered.2)) as E by (rewrite <- Ec; by destruct ix_recovered).
  destruct (recovery_takes_over "kp_9" (ix_at (15010 + minute)) "rec_1" (ix_hash 4) "tok7" ix_claimed_recovery.2 c ix_recovered.2 ix_own_devices E Hi)
    as (record & a & Hr & _ & Hd & _ & _ & Hv & _).
  assert (rq_device_id <$> ix_claimed_recovery.2.(db).(ident).(recovery_requests) !! TrimSpace "rec_1" = Some "new phone"%string) as Hn
    by (vm_compute; reflexivity).
  rewrite Hr in Hn. injection Hn as Hn. exists record. split; [done|]. rewrite <- Hn. split; [|exact Hv].
  replace (ix_at (15010 + minute) 0%nat) with (15010 + minute) in Hd by (vm_compute; reflexivity). exact Hd.
Defined.
