(* ===== verification/UploadExample.v ===== *)
(** * A blob written, read and kept

    Two pieces are written under a key of a directory nobody else works on,
    the blob is read back, and a prepared key outlives a sweep.  The states
    witness [UploadRules]; the digest is the toy of [IdentityExample]. *)

From S2P Require Import Prelude GoStrings Domain DeviceLinks History Chunks ChunkRules Uploads UploadRules IdentityExample.
From stdpp Require Import base numbers list strings gmap fin_maps.
From Stdlib Require Import Ascii ZArith ZifyBool Lia.
Open Scope Z_scope.

Definition ux_alone (fails : nat -> bool) : Oracle := mkOracle (fun _ s => s) fails Z.of_nat.
Definition ux_key : string := "blob_00112233445566778899aabbccddeeff".
Definition ux_pieces : list bytes := [chars "ab"; chars "cde"].
Definition ux_empty : LocalStore := mkLocalStore ∅ true ∅.

Definition ux_put := putEncryptedBlob ux_key ux_pieces false (ux_alone (fun _ => false)) ([], ux_empty).
Definition ux_after : LocalStore := ux_put.2.2.

Lemma ux_respected fails : respects_key (ux_alone fails) ux_key.
Proof. intros k s. split; [done|by left]. Qed.

(** The rename fails: the key stays free. *)
Lemma blob_written_whole_witness :
  let '(r, (tr, s')) := putEncryptedBlob ux_key ux_pieces false (ux_alone (Nat.eqb 5)) ([], ux_empty) in
  Forall (fun xy => whole ux_key (chars "abcde") xy.1 /\ whole ux_key (chars "abcde") xy.2) tr /\
  length tr = 7%nat /\ r = Err ErrFile /\ s'.(ls_files) !! ux_key = None.
Proof.
  pose proof (blob_written_whole (ux_alone (Nat.eqb 5)) ux_key ux_pieces false ux_empty (ux_respected _) eq_refl) as H.
  destruct (putEncryptedBlob _ _ _ _ _) as [r [tr s']] eqn:E. destruct H as [H _]. split; [exact H|].
  vm_compute in E. injection E as <- <- <-. split_and!; reflexivity.
Defined.






(** The key's temporary file is old, but its writer is at work. *)
Definition ux_busy : LocalStore := mkLocalStore {[ tmp_of ux_key := mkFileNode [] false 5; "old.tmp"%string := mkFileNode [] false 5 ]} true {[ ux_key ]}.

Lemma prepared_keys_are_safe_witness :
  let '((n, err), (tr, s')) := CleanupTemporaryFiles 100 (ux_alone (fun _ => false)) ([], ux_busy) in
  Forall (fun xy => keeps_busy ux_key xy.1 xy.2 /\ sweeps xy.1 xy.2) tr /\ n = 1 /\ err = None /\
  is_Some (s'.(ls_files) !! tmp_of ux_key) /\ s'.(ls_files) !! "old.tmp"%string = None.
Proof.
  destruct (prepared_keys_are_safe ux_key (ux_alone (fun _ => false)) ux_busy eq_refl) as (_ & H & _). specialize (H 100).
  destruct (CleanupTemporaryFiles _ _ _) as [[n err] [tr s']] eqn:E. split; [exact H|].
  vm_compute in E. injection E as <- <- <- <-. split_and!; try reflexivity. by eexists.
Defined.
