(* ===== verification/Bodies.v ===== *)
(** * Request bodies

    [readLimitedJSON], [decodeJSON] and their variants of [httpapi/api.go],
    with [encoding/json]'s decoding into the structs the handlers declare: a
    struct is the list of its fields with their JSON names and Go types.  Names
    match up to ASCII case, the last occurrence counts, [null] leaves a value
    alone and clears a pointer, and an unknown name is an error
    ([DisallowUnknownFields]).  And [containsForbiddenPlaintextKey]. *)

From S2P Require Import Prelude GoStrings GoStrconv GoBase64 GoJson Domain.
From stdpp Require Import base numbers list strings gmap.
From Stdlib Require Import Ascii ZArith ZifyBool Lia.
Open Scope Z_scope.

(** ** Times in RFC 3339 *)

(** Days from 0001-01-01 to a civil date, in eras of 400 years that start on
    a 1 March. *)
Definition days_from_civil (y m d : Z) : Z :=
  let y := if m <=? 2 then y - 1 else y in
  let era := y / 400 in
  let yoe := y mod 400 in
  let doy := (153 * (if 2 <? m then m - 3 else m + 9) + 2) / 5 + d - 1 in
  era * 146097 + yoe * 365 + yoe / 4 - yoe / 100 + doy - 306.

Definition days_in_month (y m : Z) : Z :=
  if m =? 2 then (if (y mod 4 =? 0) && (negb (y mod 100 =? 0) || (y mod 400 =? 0)) then 29 else 28)
  else if (m =? 4) || (m =? 6) || (m =? 9) || (m =? 11) then 30 else 31.

(** A fixed number of digits. *)
Definition take_number (n : nat) (l : list ascii) : option (Z * list ascii) :=
  if bool_decide (length (take n l) = n) then (fun v => (v, drop n l)) <$> parse_digits (take n l) 0 else None.

Definition take_char (c : ascii) (l : list ascii) : option (list ascii) :=
  match l with x :: l => if bool_decide (x = c) then Some l else None | [] => None end.

(** [.] and at least one digit; nanoseconds, further digits dropped. *)
Definition take_fraction (l : list ascii) : option (Z * list ascii) :=
  match l with
  | "."%char :: l =>
    let '(ds, rest) := Json.digits l in
    match ds with
    | [] => None
    | _ => (fun v => (v, rest)) <$> parse_digits (take 9 (ds ++ repeat "0"%char 9)) 0
    end
  | _ => Some (0, l)
  end.

(** [Z] or a signed offset, in seconds. *)
Definition take_zone (l : list ascii) : option Z :=
  match l with
  | ["Z"%char] => Some 0
  | s :: l =>
    sign ← (if bool_decide (s = "+"%char) then Some 1 else if bool_decide (s = "-"%char) then Some (-1) else None);
    '(h, l) ← take_number 2 l; l ← take_char ":" l; '(m, l) ← take_number 2 l;
    if bool_decide (l = []) && (h <=? 23) && (m <=? 59) then Some (sign * (h * 3600 + m * 60)) else None
  | [] => None
  end.

(** [time.Time.UnmarshalJSON] on the text of a JSON string. *)
Definition parse_rfc3339 (s : string) : option Z :=
  '(y, l) ← take_number 4 (chars s); l ← take_char "-" l; '(mo, l) ← take_number 2 l; l ← take_char "-" l; '(d, l) ← take_number 2 l;
  l ← take_char "T" l; '(h, l) ← take_number 2 l; l ← take_char ":" l; '(mi, l) ← take_number 2 l; l ← take_char ":" l;
  '(se, l) ← take_number 2 l; '(ns, l) ← take_fraction l; off ← take_zone l;
  if (1 <=? mo) && (mo <=? 12) && (1 <=? d) && (d <=? days_in_month y mo) && (h <=? 23) && (mi <=? 59) && (se <=? 59)
  then Some (((days_from_civil y mo d * 24 + h) * 60 + mi) * minute + (se - off) * second + ns) else None.

Example parse_rfc3339_zero : parse_rfc3339 "0001-01-01T00:00:00Z" = Some 0.
Proof. vm_compute. reflexivity. Qed.
Example parse_rfc3339_leap : parse_rfc3339 "2024-02-29T12:00:00.5+01:00" = Some (738944 * (24 * hour) + 11 * hour + 500000000).
Proof. vm_compute. reflexivity. Qed.
Example parse_rfc3339_refuses : (parse_rfc3339 "2023-02-29T12:00:00Z", parse_rfc3339 "2024-1-1T0:0:0Z") = (None, None).
Proof. vm_compute. reflexivity. Qed.

(** [time.Parse(time.RFC3339Nano, s)], which is laxer than a JSON document:
    the hour may have one digit, a comma may stand before the fraction, and an
    offset may reach 24 hours and 60 minutes. *)
Definition take_hour (l : list ascii) : option (Z * list ascii) :=
  match take_number 2 l with Some x => Some x | None => take_number 1 l end.

Definition take_fraction_lax (l : list ascii) : Z * list ascii :=
  match l with
  | sep :: l' =>
    let '(ds, rest) := Json.digits l' in
    if (bool_decide (sep = "."%char) || bool_decide (sep = ","%char)) && negb (bool_decide (ds = []))
    then (default 0 (parse_digits (take 9 (ds ++ repeat "0"%char 9)) 0), rest) else (0, l)
  | [] => (0, l)
  end.

Definition take_zone_lax (l : list ascii) : option Z :=
  match l with
  | ["Z"%char] => Some 0
  | s :: l =>
    sign ← (if bool_decide (s = "+"%char) then Some 1 else if bool_decide (s = "-"%char) then Some (-1) else None);
    '(h, l) ← take_number 2 l; l ← take_char ":" l; '(m, l) ← take_number 2 l;
    if bool_decide (l = []) && (h <=? 24) && (m <=? 60) then Some (sign * (h * 3600 + m * 60)) else None
  | [] => None
  end.

Definition Parse_RFC3339Nano (s : string) : option Z :=
  '(y, l) ← take_number 4 (chars s); l ← take_char "-" l; '(mo, l) ← take_number 2 l; l ← take_char "-" l; '(d, l) ← take_number 2 l;
  l ← take_char "T" l; '(h, l) ← take_hour l; l ← take_char ":" l; '(mi, l) ← take_number 2 l; l ← take_char ":" l;
  '(se, l) ← take_number 2 l;
  let '(ns, l) := take_fraction_lax l in
  off ← take_zone_lax l;
  if (1 <=? mo) && (mo <=? 12) && (1 <=? d) && (d <=? days_in_month y mo) && (h <=? 23) && (mi <=? 59) && (se <=? 59)
  then Some (((days_from_civil y mo d * 24 + h) * 60 + mi) * minute + (se - off) * second + ns) else None.

Example Parse_RFC3339Nano_lax :
  (Parse_RFC3339Nano "2024-02-29T9:00:00,5+01:00", Parse_RFC3339Nano "2024-02-29T12:00:00.Z") = (Some (738944 * (24 * hour) + 8 * hour + 500000000), None).
Proof. vm_compute. reflexivity. Qed.

(** ** Structs *)

(** [time.Time] is the zero time where it is absent or [null].  [TRows] is a
    slice of structs of strings, bytes and times.  Go decodes a repeated array
    over the elements of the first one, so that a [null] there keeps the old
    element; here it is decoded afresh. *)
Inductive rowtype := RowStr | RowBytes | RowTime.
Inductive gotype := TStr | TOptStr | TBytes | TInt | TOptInt | TBool | TOptBool | TRaw | TStrs | TOptTime | TRows (st : list (string * rowtype)).

Inductive rowval := VRowStr (s : string) | VRowBytes (b : string) | VRowTime (t : Z).
Abbreviation row := (list (string * rowval)) (only parsing).

Inductive goval :=
| DStr (s : string) | DOptStr (s : option string) | DBytes (b : string) | DInt (z : Z) | DOptInt (z : option Z) | DBool (b : bool)
| DOptBool (b : option bool) | DRaw (raw : string) | DStrs (l : list string) | DOptTime (t : option Z) | DRows (l : list row).

Definition struct := list (string * gotype).
Definition fields := gmap string goval.

Definition f_str (f : fields) (k : string) : string := match f !! k with Some (DStr s) => s | _ => "" end.
Definition f_optstr (f : fields) (k : string) : option string := match f !! k with Some (DOptStr s) => s | _ => None end.
Definition f_bytes (f : fields) (k : string) : string := match f !! k with Some (DBytes s) => s | _ => "" end.
Definition f_int (f : fields) (k : string) : Z := match f !! k with Some (DInt z) => z | _ => 0 end.
Definition f_optint (f : fields) (k : string) : option Z := match f !! k with Some (DOptInt z) => z | _ => None end.
Definition f_bool (f : fields) (k : string) : bool := match f !! k with Some (DBool b) => b | _ => false end.
Definition f_optbool (f : fields) (k : string) : option bool := match f !! k with Some (DOptBool b) => b | _ => None end.
Definition f_raw (f : fields) (k : string) : string := match f !! k with Some (DRaw s) => s | _ => "" end.
Definition f_strs (f : fields) (k : string) : list string := match f !! k with Some (DStrs l) => l | _ => [] end.
Definition f_opttime (f : fields) (k : string) : option Z := match f !! k with Some (DOptTime t) => t | _ => None end.

Definition f_rows (f : fields) (k : string) : list row := match f !! k with Some (DRows l) => l | _ => [] end.

(** The last value of a member of a row. *)
Definition row_get (r : row) (k : string) : option rowval := snd <$> List.find (fun '(k', _) => k' =s? k) (rev r).
Definition row_str (r : row) (k : string) : string := match row_get r k with Some (VRowStr s) => s | _ => "" end.
Definition row_bytes (r : row) (k : string) : string := match row_get r k with Some (VRowBytes b) => b | _ => "" end.
Definition row_time (r : row) (k : string) : Z := match row_get r k with Some (VRowTime t) => t | _ => 0 end.

(** The elements of an array of strings, or of bytes written as numbers;
    [null] is the zero value. *)
Definition array_of {A} (element : Json.json -> option A) (zero : A) (l : list Json.json) : option (list A) :=
  foldr (fun v rest => rest ← rest; x ← (match v with Json.JNull => Some zero | _ => element v end); Some (x :: rest)) (Some []) l.

Definition string_element (v : Json.json) : option string := match v with Json.JStr s => Some s | _ => None end.
Definition byte_element (v : Json.json) : option ascii :=
  match v with Json.JNum lit => (fun z => Base64.byte_of z) <$> ParseUint lit 8 | _ => None end.

Definition find_field {A} (st : list (string * A)) (name : string) : option (string * A) :=
  match List.find (fun '(k, _) => k =s? name) st with
  | Some f => Some f
  | None => List.find (fun '(k, _) => ToLower k =s? ToLower name) st
  end.

(** A member of a row, and a row. *)
Definition decode_cell (t : rowtype) (v : Json.json) : option (option rowval) :=
  match t, v with
  | RowStr, Json.JStr s => Some (Some (VRowStr s))
  | RowBytes, Json.JStr s => (fun b => Some (VRowBytes b)) <$> Base64.DecodeString Base64.StdEncoding s
  | RowBytes, Json.JArr l => (fun b => Some (VRowBytes (of_chars b))) <$> array_of byte_element (ascii_of_nat 0) l
  | RowBytes, Json.JNull => Some (Some (VRowBytes ""))
  | RowTime, Json.JStr s => (fun t => Some (VRowTime t)) <$> parse_rfc3339 s
  | (RowStr | RowTime), Json.JNull => Some None
  | _, _ => None
  end.

Definition decode_row (st : list (string * rowtype)) (v : Json.json) : option row :=
  match v with
  | Json.JObj l =>
    foldl (fun r '(k, v) => r ← r; '(name, t) ← find_field st k; d ← decode_cell t v;
             Some (match d with Some x => r ++ [(name, x)] | None => r end)) (Some []) l
  | _ => None
  end.

(** One value into a field; [None] is a type error, and the inner [None]
    leaves the field as it is. *)
Definition decode_value (t : gotype) (v : Json.json) (raw : string) : option (option goval) :=
  match t, v with
  | TRaw, _ => Some (Some (DRaw raw))
  | TStr, Json.JStr s => Some (Some (DStr s))
  | TOptStr, Json.JStr s => Some (Some (DOptStr (Some s)))
  | TBytes, Json.JStr s => (fun b => Some (DBytes b)) <$> Base64.DecodeString Base64.StdEncoding s
  | TBytes, Json.JArr l => (fun b => Some (DBytes (of_chars b))) <$> array_of byte_element (ascii_of_nat 0) l
  | TInt, Json.JNum lit => (fun z => Some (DInt z)) <$> ParseInt lit
  | TOptInt, Json.JNum lit => (fun z => Some (DOptInt (Some z))) <$> ParseInt lit
  | TBool, Json.JBool b => Some (Some (DBool b))
  | TOptBool, Json.JBool b => Some (Some (DOptBool (Some b)))
  | TStrs, Json.JArr l => (fun l => Some (DStrs l)) <$> array_of string_element ""%string l
  | TOptTime, Json.JStr s => (fun z => Some (DOptTime (Some z))) <$> parse_rfc3339 s
  | TOptStr, Json.JNull => Some (Some (DOptStr None))
  | TOptInt, Json.JNull => Some (Some (DOptInt None))
  | TOptBool, Json.JNull => Some (Some (DOptBool None))
  | TOptTime, Json.JNull => Some (Some (DOptTime None))
  | TBytes, Json.JNull => Some (Some (DBytes ""))
  | TStrs, Json.JNull => Some (Some (DStrs []))
  | TRows st, Json.JArr l => (fun l => Some (DRows l)) <$> array_of (decode_row st) [] l
  | TRows st, Json.JNull => Some (Some (DRows []))
  | (TStr | TInt | TBool), Json.JNull => Some None
  | _, _ => None
  end.

(** The members of an object, each with its source text. *)
Fixpoint raw_members (fuel : nat) (l : list ascii) : option (list (string * Json.json * string)) :=
  match fuel with
  | O => None
  | S fuel =>
    match Json.skip_ws l with
    | q :: l =>
      if negb (Json.is_char 34 q) then None else
      '(k, r) ← Json.string_body (S (length l)) l [];
      match Json.skip_ws r with
      | c :: r =>
        if negb (Json.is_char 58 c) then None else
        let start := Json.skip_ws r in
        '(v, r) ← Json.value (S (2 * length start)) start;
        let raw := of_chars (take (length start - length r) start) in
        match Json.skip_ws r with
        | c :: r => if Json.is_char 44 c then rest ← raw_members fuel r; Some ((k, v, raw) :: rest)
                    else if Json.is_char 125 c then Some [(k, v, raw)] else None
        | [] => None
        end
      | [] => None
      end
    | [] => None
    end
  end.

Definition object_members (raw : string) : option (list (string * Json.json * string)) :=
  match Json.skip_ws (chars raw) with
  | _ :: l => match Json.skip_ws l with
              | c :: _ => if Json.is_char 125 c then Some [] else raw_members (length l) l
              | [] => None
              end
  | [] => None
  end.

Fixpoint decode_members (st : struct) (l : list (string * Json.json * string)) (f : fields) : option fields :=
  match l with
  | [] => Some f
  | (k, v, raw) :: l =>
    '(name, t) ← find_field st k;
    d ← decode_value t v raw;
    decode_members st l (match d with Some x => <[name := x]> f | None => f end)
  end.

(** [decodeRawJSON]: one JSON value and nothing after it. *)
Definition decodeRawJSON (st : struct) (raw : string) : option fields :=
  match Json.Unmarshal raw with
  | Some Json.JNull => Some ∅
  | Some (Json.JObj _) => l ← object_members raw; decode_members st l ∅
  | _ => None
  end.

(** [json.Unmarshal] into a struct, which ignores unknown names. *)
Fixpoint decode_known (st : struct) (l : list (string * Json.json * string)) (f : fields) : option fields :=
  match l with
  | [] => Some f
  | (k, v, raw) :: l =>
    match find_field st k with
    | None => decode_known st l f
    | Some (name, t) => d ← decode_value t v raw; decode_known st l (match d with Some x => <[name := x]> f | None => f end)
    end
  end.

Definition Unmarshal_struct (st : struct) (raw : string) : option fields :=
  match Json.Unmarshal raw with
  | Some Json.JNull => Some ∅
  | Some (Json.JObj _) => l ← object_members raw; decode_known st l ∅
  | _ => None
  end.

(** The names of a [map[string]json.RawMessage]. *)
Definition Unmarshal_names (raw : string) : option (list string) :=
  match Json.Unmarshal raw with
  | Some Json.JNull => Some []
  | Some (Json.JObj l) => Some (remove_dups (map fst l))
  | _ => None
  end.

(** ** Plaintext *)

Definition isForbiddenPlaintextKey (key : string) : bool :=
  bool_decide (ToLower key ∈ ["plaintext"; "plain_text"; "body"; "text"; "message"; "message_text"; "content"]%string).

(** A [map[string]interface{}] keeps the last value of a name. *)
Fixpoint containsForbiddenPlaintextKey (v : Json.json) : bool :=
  match v with
  | Json.JObj l =>
    (fix members (l : list (string * Json.json)) : bool :=
       match l with
       | [] => false
       | (k, v) :: l =>
         (if existsb (fun '(k', _) => k' =s? k) l then false else isForbiddenPlaintextKey k || containsForbiddenPlaintextKey v) || members l
       end) l
  | Json.JArr l =>
    (fix elements (l : list Json.json) : bool :=
       match l with [] => false | v :: l => containsForbiddenPlaintextKey v || elements l end) l
  | _ => false
  end.

Definition containsPlaintextMessageKey (raw : string) : bool :=
  match Json.Unmarshal raw with Some v => containsForbiddenPlaintextKey v | None => false end.

(** ** Examples *)

Definition q (s : string) : string := Json.quote +:+ s +:+ Json.quote.

Example decode_example :
  (fun f => (f_str f "username", f_bytes f "key", f_optstr f "email", f_raw f "meta")) <$>
    decodeRawJSON [("username"%string, TStr); ("key"%string, TBytes); ("email"%string, TOptStr); ("meta"%string, TRaw)]
      ("{" +:+ q "USERNAME" +:+ ":" +:+ q "ann" +:+ ", " +:+ q "key" +:+ ":" +:+ q "aGk=" +:+ "," +:+ q "meta" +:+ ": {" +:+ q "a" +:+ ": [1, 2]} }") =
  Some ("ann"%string, "hi"%string, None, "{" +:+ q "a" +:+ ": [1, 2]}").
Proof. vm_compute. reflexivity. Qed.

Example decode_rows :
  (fun f => map (fun r => (row_str r "id", row_bytes r "key")) (f_rows f "rows")) <$>
    decodeRawJSON [("rows"%string, TRows [("id"%string, RowStr); ("key"%string, RowBytes)])]
      ("{" +:+ q "rows" +:+ ": [{" +:+ q "id" +:+ ":" +:+ q "a" +:+ "," +:+ q "key" +:+ ":" +:+ q "aGk=" +:+ "}, null]}") =
  Some [("a", "hi"); ("", "")]%string.
Proof. vm_compute. reflexivity. Qed.

Example decode_unknown : decodeRawJSON [("a"%string, TStr)] ("{" +:+ q "b" +:+ ": 1}") = None.
Proof. vm_compute. reflexivity. Qed.

(** The second member of a repeated name hides the first from the search for
    plaintext, and the body that is stored keeps both. *)
Definition repeated_name : string := "{" +:+ q "crypto_metadata" +:+ ":{" +:+ q "a" +:+ ":{" +:+ q "text" +:+ ":" +:+ q "hi" +:+ "}," +:+ q "a" +:+ ":{}}}".

Example repeated_name_hides_plaintext :
  containsPlaintextMessageKey repeated_name = false /\
  (fun f => f_raw f "crypto_metadata") <$> decodeRawJSON [("crypto_metadata"%string, TRaw)] repeated_name =
    Some ("{" +:+ q "a" +:+ ":{" +:+ q "text" +:+ ":" +:+ q "hi" +:+ "}," +:+ q "a" +:+ ":{}}").
Proof. split; vm_compute; reflexivity. Qed.
