(* ===== verification/Http.v ===== *)
(** * Requests, replies and the run of a handler

    The parts of [internal/httpapi] every handler shares: [api.go] (bodies,
    validation, error replies, [withAuth]), [request_budget.go],
    [admission.go], [receipts.go]'s and [conversation_handlers.go]'s helpers
    that publish events, and [internal/auth/auth.go].

    A handler runs concurrently with others.  It is a computation in the monad
    [H]: it makes atomic steps on the server's state (one store transaction,
    one call of the hub, the limiter, the login backoff, the write budget)
    and before each step the rest of the server may have changed the state
    arbitrarily ([mo_env]).  A [Moment] holds what a step takes from outside:
    that interference, readings of the clock, fresh random values, the orders
    in which Go ranges over maps, whether a hashing slot was got, whether the
    disk is low or refuses to delete.  Writing the reply ends the handler, so a reply is the error
    value of the monad. *)

From S2P Require Import Prelude GoStrings GoStrconv GoBase64 GoJson MlsWire TypingLimiter LoginBackoff Admission RateLimiter Hub Domain Database Conversations Messages Retention Sync Calls PushWake Receipts Deliveries Mls MlsGroups Blobs Identity Sessions Passwords DeviceLinks History Devices Recovery Accounts Listings Bodies.
From stdpp Require Import base numbers list strings gmap fin_maps.
From Stdlib Require Import Ascii ZArith ZifyBool Lia.
Open Scope Z_scope.

(** ** Replies *)

(** What [writeJSON] is given: a map, a list, a plain value or one of the
    records of [internal/domain] and [internal/storage]. *)
Inductive Reply :=
| RNull
| RVal (v : Value)
| RMap (l : list (string * Reply))
| RList (l : list Reply)
| RText (s : string)
| RAccount (a : Account)
| RAdminAccount (a : AdminAccount)
| RDevice (d : Device)
| RInvite (i : Invite)
| RCommunity (c : Community)
| RChannel (c : Channel)
| RConversation (c : Conversation)
| RListed (c : ListedConversation)
| RMembership (m : Membership)
| RBlock (b : AccountBlock)
| RMute (m : NotificationMute)
| REnvelope (m : MessageEnvelope)
| RReaction (r : Reaction)
| RReceipt (r : MemberReceipt)
| RCall (c : CallSession)
| RSyncEvent (e : SyncEvent)
| RSearchResult (r : MetadataSearchResult)
| RMLSMessage (m : MLSMessage)
| RMLSRevocation (r : MLSRevocation)
| RMLSPendingChange (c : MLSPendingChange)
| RKeyPackage (k : DeviceKeyPackage)
| RDeviceLinkV3 (l : DeviceLinkV3)
| RCompletion (c : DeviceLinkV3Completion)
| RHistoryTransfer (t : HistoryTransfer)
| RAttachment (a : AttachmentEnvelope)
| RBackup (b : BackupBlob)
| RPushSubscription (s : DevicePushSubscription).

Definition rstr (s : string) : Reply := RVal (VStr s).
Definition rint (z : Z) : Reply := RVal (VInt z).
Definition rbool (b : bool) : Reply := RVal (VBool b).
Definition rtime (t : Z) : Reply := RVal (VTime t).
Definition rbytes (b : string) : Reply := RVal (VBytes b).
Definition ropttime (t : option Z) : Reply := match t with Some t => rtime t | None => RNull end.

Record Response := mkResponse { rs_status : Z; rs_retryAfter : option Z; rs_body : option Reply }.

Definition StatusOK : Z := 200.
Definition StatusCreated : Z := 201.
Definition StatusAccepted : Z := 202.
Definition StatusNoContent : Z := 204.
Definition StatusBadRequest : Z := 400.
Definition StatusUnauthorized : Z := 401.
Definition StatusForbidden : Z := 403.
Definition StatusNotFound : Z := 404.
Definition StatusConflict : Z := 409.
Definition StatusGone : Z := 410.
Definition StatusTooManyRequests : Z := 429.
Definition StatusInternalServerError : Z := 500.
Definition StatusServiceUnavailable : Z := 503.
Definition StatusInsufficientStorage : Z := 507.

(** [realtime.Event]. *)
Record Event := mkEvent {
  ev_Version : string; ev_Type : string; ev_ID : Z; ev_ConversationID : string; ev_Payload : Reply; ev_CreatedAt : Z }.

(** [net/mail.ParseAddress] (the address), [json.Marshal] of an event and
    HMAC-SHA1. *)
Class GoRuntime := {
  mail_ParseAddress : string -> option string;
  marshal_event : Event -> string;
  hmac_sha1 : string -> string -> string }.

(** ** Requests *)

(** The body as it arrives: its bytes, and whether the connection broke after
    them. *)
Record HttpRequest := mkHttpRequest {
  rq_base : Request;
  rq_method : string;
  rq_header : string -> string;
  rq_query : string -> string;
  rq_pathValue : string -> string;
  rq_body : string;
  rq_broken : bool;
  rq_contentLength : Z }.

Definition rq_path (r : HttpRequest) : string := r.(rq_base).(URL_Path).

(** ** The server *)

Section http.
Context {NET : Network} {FLT : Float64}.

(** The fields of [API] that are set once. *)
Record API := mkAPI {
  api_SetupToken : string; api_DefaultInstanceName : string; api_MaxAttachmentBytes : Z; api_PublicOrigin : string;
  api_RecoveryActiveWindow : Z; api_RecoveryWait : Z; api_RecoveryFailureCap : Z; api_ScopedSync : bool;
  api_VAPIDPublicKey : string; api_PushProviders : list string; api_TURNURLs : list string; api_TURNSharedSecret : string; api_trustedProxies : list IPNet }.

(** The state behind the handlers.  The counters of [admission.Counters] are
    one object, kept in the store. *)
Record Server := mkServer {
  sv_store : Store;
  sv_hub : Hub;
  sv_backoff : LoginBackoff (K := string);
  sv_limiter : rateLimiter;
  sv_budget : option Budget;
  sv_typing : typingLimiter;
  sv_deliveries : deliveryQueue;
  sv_passwords : PasswordsT }.

Definition set_store (x : Store) (s : Server) : Server :=
  mkServer x s.(sv_hub) s.(sv_backoff) s.(sv_limiter) s.(sv_budget) s.(sv_typing) s.(sv_deliveries) s.(sv_passwords).
Definition set_hub (x : Hub) (s : Server) : Server :=
  mkServer s.(sv_store) x s.(sv_backoff) s.(sv_limiter) s.(sv_budget) s.(sv_typing) s.(sv_deliveries) s.(sv_passwords).
Definition set_backoff (x : LoginBackoff (K := string)) (s : Server) : Server :=
  mkServer s.(sv_store) s.(sv_hub) x s.(sv_limiter) s.(sv_budget) s.(sv_typing) s.(sv_deliveries) s.(sv_passwords).
Definition set_limiter (x : rateLimiter) (s : Server) : Server :=
  mkServer s.(sv_store) s.(sv_hub) s.(sv_backoff) x s.(sv_budget) s.(sv_typing) s.(sv_deliveries) s.(sv_passwords).
Definition set_budget (x : option Budget) (s : Server) : Server :=
  mkServer s.(sv_store) s.(sv_hub) s.(sv_backoff) s.(sv_limiter) x s.(sv_typing) s.(sv_deliveries) s.(sv_passwords).
Definition set_typing (x : typingLimiter) (s : Server) : Server :=
  mkServer s.(sv_store) s.(sv_hub) s.(sv_backoff) s.(sv_limiter) s.(sv_budget) x s.(sv_deliveries) s.(sv_passwords).
Definition set_deliveries (x : deliveryQueue) (s : Server) : Server :=
  mkServer s.(sv_store) s.(sv_hub) s.(sv_backoff) s.(sv_limiter) s.(sv_budget) s.(sv_typing) x s.(sv_passwords).
Definition set_passwords (x : PasswordsT) (s : Server) : Server :=
  mkServer s.(sv_store) s.(sv_hub) s.(sv_backoff) s.(sv_limiter) s.(sv_budget) s.(sv_typing) s.(sv_deliveries) x.
Definition set_admission (c : Counters) (s : Server) : Server :=
  let st := s.(sv_store) in set_store (mkStore st.(db) st.(limits) c st.(redactCursor) st.(session_policy)) s.

Definition sv_db (s : Server) : DB := s.(sv_store).(db).

(** What a step takes from outside. *)
Record Moment := mkMoment {
  mo_env : Server -> Server;                       (* what the others did since the last step *)
  mo_now : nat -> Z;                               (* the readings of the clock, in order *)
  mo_id : nat -> string;                           (* the identifiers made, in order *)
  mo_random : nat -> string;                       (* the bytes of [rand.Read], in order *)
  mo_randomFails : bool;
  mo_slot : option password_error;                 (* why no hashing slot was got *)
  mo_lowDisk : bool;
  mo_blobFails : bool;                             (* the file system refuses to delete *)
  mo_keys : list string;                           (* the order a limiter table is visited in *)
  mo_backoffOrder : gmap string loginBackoffEntry -> list string;
  mo_budgetOrder : gmap string nat -> list string }.

(** What the request itself carries along: the states its steps started from,
    newest first (a history variable: the code does not read it), its charge
    with the request limiter, and for a metered write the recipients and the
    body bytes counted. *)
Record Local := mkLocal { lo_seen : list Server; lo_charge : option accountCharge; lo_usage : option Z; lo_read : Z }.

Definition H (A : Type) : Type := (nat -> Moment) -> Local * Server -> result Response A * (Local * Server).

#[export] Instance H_ret : MRet H := fun A a _ st => (Ok a, st).
#[export] Instance H_bind : MBind H := fun A B k m am st =>
  match m am st with
  | (Ok a, st') => k a am st'
  | (Err e, st') => (Err e, st')
  end.

(** An atomic step, after what the others did. *)
Definition tick (s : Server) (l : Local) : Local := mkLocal (s :: l.(lo_seen)) l.(lo_charge) l.(lo_usage) l.(lo_read).

Definition stepL {A} (f : Moment -> Local * Server -> A * (Local * Server)) : H A := fun am '(l, s) =>
  let m := am (length l.(lo_seen)) in
  let s := m.(mo_env) s in
  let '(a, st) := f m (tick s l, s) in
  (Ok a, st).

Definition step {A} (f : Moment -> Server -> A * Server) : H A :=
  stepL (fun m '(l, s) => let '(a, s) := f m s in (a, (l, s))).

(** One call of a store method. *)
Definition call {A} (f : Moment -> Tx A) : H (result store_error A) :=
  step (fun m s => let '(r, st) := f m s.(sv_store) in (r, set_store st s)).

Definition on_hub (f : Hub -> Hub) : H unit := step (fun m s => (tt, set_hub (f s.(sv_hub)) s)).

Definition time_now : H Z := step (fun m s => (m.(mo_now) 0%nat, s)).

(** A deferred call: it runs however the handler ended. *)
Definition finally {A} (body : H A) (f : H unit) : H A := fun am st =>
  let '(r, st) := body am st in
  let '(_, st) := f am st in
  (r, st).

(** ** Writing the reply *)

Definition respond {A} (r : Response) : H A := fun _ st => (Err r, st).
Definition writeJSON {A} (status : Z) (value : Reply) : H A := respond (mkResponse status None (Some value)).
Definition noContent {A} : H A := respond (mkResponse StatusNoContent None None).
Definition error_body (code : string) : Reply := RMap [("error"%string, rstr code)].
Definition writeError {A} (status : Z) (code : string) : H A := writeJSON status (error_body code).
(** [Retry-After] set before [writeError]. *)
Definition writeErrorAfter {A} (seconds status : Z) (code : string) : H A :=
  respond (mkResponse status (Some seconds) (Some (error_body code))).

Definition ensure (b : bool) (status : Z) (code : string) : H unit := if b then mret tt else writeError status code.

Definition storage_reply (err : store_error) : Z * string :=
  (match err with
   | ErrUnauthorized => (StatusUnauthorized, "unauthorized")
   | ErrNotMember | ErrForbidden => (StatusForbidden, "forbidden")
   | ErrPostingRestricted => (StatusForbidden, "posting_restricted")
   | ErrNotFound => (StatusNotFound, "not_found")
   | ErrMessageExpired => (StatusGone, "message_expired")
   | ErrMLSEpochConflict => (StatusConflict, "mls_epoch_conflict")
   | ErrMLSGroupLegacy => (StatusConflict, "mls_group_legacy")
   | ErrMLSBundleRequired => (StatusConflict, "mls_commit_bundle_required")
   | ErrMLSChangePending => (StatusConflict, "mls_change_pending")
   | ErrMLSNotInGroup => (StatusForbidden, "mls_not_in_group")
   | ErrInvalidInput => (StatusBadRequest, "invalid_input")
   | ErrLastOwner => (StatusConflict, "last_owner_required")
   | ErrIdempotencyConflict => (StatusConflict, "idempotency_conflict")
   | ErrCallVersion => (StatusConflict, "call_version_conflict")
   | ErrDeviceLinkInvalid => (StatusBadRequest, "invalid_device_link")
   | ErrStorageQuota => (StatusInsufficientStorage, "storage_quota_exceeded")
   | ErrDeviceLimit => (StatusConflict, "device_limit_reached")
   | ErrDeviceLinkLimit => (StatusConflict, "device_link_limit_reached")
   | ErrConversationLimit => (StatusConflict, "conversation_limit_reached")
   | ErrConversationMemberLimit => (StatusConflict, "conversation_member_limit_reached")
   | _ => (StatusInternalServerError, "storage_error")
   end)%string.

Definition handleStorageError {A} (err : store_error) : H A :=
  let '(status, code) := storage_reply err in writeError status code.

(** A store call whose errors go through [handleStorageError], and one whose
    errors a handler answers itself. *)
Definition run_store {A} (f : Moment -> Tx A) : H A :=
  r ← call f; match r with Ok a => mret a | Err e => handleStorageError e end.
Definition run_store_or {A} (f : Moment -> Tx A) (fail : store_error -> H A) : H A :=
  r ← call f; match r with Ok a => mret a | Err e => fail e end.

(** A query: these fail only with the driver. *)
Definition query {A} (f : DB -> A) : H A := run_store (fun _ => read f).

(** ** Reading the body *)

(** [io.ReadAll(http.MaxBytesReader(w, r.Body, limit))]: at most one byte past
    the limit is taken from the connection. *)
Definition readAll (limit : Z) (r : HttpRequest) : H (option string) := fun _ '(l, s) =>
  (Ok (if (limit <? blen r.(rq_body)) || r.(rq_broken) then None else Some r.(rq_body)),
   (mkLocal l.(lo_seen) l.(lo_charge) l.(lo_usage) (l.(lo_read) + Z.min (blen r.(rq_body)) (limit + 1)), s)).

Definition maxJSONBody : Z := Z.shiftl 1 20.

Definition readLimitedJSON (r : HttpRequest) : H string :=
  raw ← readAll maxJSONBody r;
  match raw with
  | None => writeError StatusBadRequest "invalid_body"
  | Some raw => if TrimSpace raw =s? "" then writeError StatusBadRequest "empty_body" else mret raw
  end.

Definition decodeInto (st : struct) (raw : string) : H fields :=
  match decodeRawJSON st raw with
  | Some f => mret f
  | None => writeError StatusBadRequest "invalid_json"
  end.

Definition decodeJSON (st : struct) (r : HttpRequest) : H fields := raw ← readLimitedJSON r; decodeInto st raw.

Definition decodeOptionalJSON (st : struct) (r : HttpRequest) : H fields :=
  raw ← readAll maxJSONBody r;
  match raw with
  | None => writeError StatusBadRequest "invalid_body"
  | Some raw => if TrimSpace raw =s? "" then mret ∅ else decodeInto st raw
  end.

(** ** Validation *)

Definition optionalQuery (r : HttpRequest) (name : string) : option string :=
  let value := TrimSpace (r.(rq_query) name) in if value =s? "" then None else Some value.

Definition normalizeLimit (value fallback max : Z) : Z := if (value <=? 0) || (max <? value) then fallback else value.
Definition normalizeOffset (value : Z) : Z := if value <? 0 then 0 else value.

Definition messageQueryLimit (r : HttpRequest) : Z := ParseInt_value (r.(rq_query) "limit").

Definition validRetention (seconds : option Z) : bool :=
  match seconds with None => true | Some n => (0 <=? n) && (n <=? 10 * 365 * 24 * 60 * 60) end.

Definition byte_list (s : string) : list Z := map (fun c => Z.of_nat (nat_of_ascii c)) (chars s).

Definition validDeviceKeyPackage (keyPackage : string) : bool :=
  ValidateKeyPackage (byte_list keyPackage).

(** [strings.Contains]. *)
Fixpoint contains_chars (s sub : list ascii) : bool :=
  bool_decide (take (length sub) s = sub) || match s with [] => false | _ :: s => contains_chars s sub end.
Definition Contains_string (s sub : string) : bool := contains_chars (chars s) (chars sub).

Definition isReservedNonProductionKeyPackage (keyPackage : string) : bool :=
  let marker := ToLower keyPackage in
  Contains_string marker "test_only" || Contains_string marker "test-only" || Contains_string marker "non-production" ||
  Contains_string marker "placeholder".

Definition validDisplayName (name : string) : bool :=
  let trimmed := TrimSpace name in negb (trimmed =s? "") && (blen trimmed <=? 64).

Definition username_char (c : ascii) : bool :=
  let n := nat_of_ascii c in
  ((97 <=? n) && (n <=? 122) || (65 <=? n) && (n <=? 90) || (48 <=? n) && (n <=? 57))%nat || bool_decide (c = "_"%char) || bool_decide (c = "-"%char).

Definition validUsername (username : string) : bool :=
  let username := TrimSpace username in
  (3 <=? blen username) && (blen username <=? 32) && forallb username_char (chars username).

Context {RUN : GoRuntime}.

Definition validOptionalEmail (email : option string) : bool :=
  match email with
  | None => true
  | Some email =>
    let value := TrimSpace email in
    negb ((value =s? "") || (254 <? blen value)) && bool_decide (mail_ParseAddress value = Some value)
  end.

(** ** Tokens *)

Context {CRY : GoCrypto}.

Definition HashToken (token : string) : string := hex_encode (Sum256 token).

Definition token_of (buf : string) : string := Base64.EncodeToString Base64.RawURLEncoding buf.

(** The token and its hash. *)
Definition NewToken : H (option (string * string)) :=
  step (fun m s =>
    (if m.(mo_randomFails) then None else let plain := token_of (m.(mo_random) 0%nat) in Some (plain, HashToken plain), s)).

Definition bearerTokenHash (r : HttpRequest) : option string :=
  let token := bearerToken r.(rq_base) in
  if token =s? "" then None else Some (HashToken token).

(** ** The request budget *)

Definition writeRateLimited {A} (retryAfter : Z) : H A :=
  respond (mkResponse StatusTooManyRequests (Some retryAfter) (Some (RText "rate limited"))).

Definition with_charge (c : accountCharge) (l : Local) : Local := mkLocal l.(lo_seen) (Some c) l.(lo_usage) l.(lo_read).

(** A call of the [RequestBudget] in the request's context, if there is one. *)
Definition settle_charge (f : Moment -> accountCharge -> rateLimiter -> bool * Z * accountCharge * rateLimiter) : H (option Z) :=
  stepL (fun m '(l, s) =>
    match l.(lo_charge) with
    | None => (None, (l, s))
    | Some c =>
      let '(ok, retryAfter, c, rl) := f m c s.(sv_limiter) in
      (if ok then None else Some retryAfter, (with_charge c l, set_limiter rl s))
    end).

Definition admitAccount (accountID : string) : H unit :=
  refused ← settle_charge (fun m => Authenticated (m.(mo_now) 0%nat) m.(mo_keys) accountID);
  match refused with Some retryAfter => writeRateLimited retryAfter | None => mret tt end.

Definition refuseUnauthenticated {A} : H A :=
  refused ← settle_charge (fun m => Unauthenticated (m.(mo_now) 0%nat) m.(mo_keys));
  match refused with
  | Some retryAfter => writeRateLimited retryAfter
  | None => writeError StatusUnauthorized "unauthorized"
  end.

(** ** Authentication *)

Definition withAuth (next : HttpRequest -> Principal -> H unit) (r : HttpRequest) : H unit :=
  match bearerTokenHash r with
  | None => refuseUnauthenticated
  | Some tokenHash =>
    found ← call (fun m => SessionPrincipal (m.(mo_now) 0%nat) tokenHash);
    match found with
    | Err _ => refuseUnauthenticated
    | Ok (principal, activity) =>
      admitAccount principal.(pr_AccountID) ≫= fun _ =>
      now ← time_now;
      (if negb (principal.(pr_DeviceID) =s? "") && DeviceSeenDue activity now
       then call (fun m => MarkDeviceSeen (m.(mo_now) 0%nat) principal.(pr_DeviceID)) ≫= fun _ => mret tt else mret tt) ≫= fun _ =>
      (if SessionTouchDue activity now
       then touched ← call (fun m => TouchSession (m.(mo_now) 0%nat) tokenHash);
            match touched with Err ErrUnauthorized => refuseUnauthenticated | _ => mret tt end
       else mret tt) ≫= fun _ =>
      next r principal
    end
  end.

Definition recentlyAuthenticated (now : Z) (principal : Principal) : bool :=
  negb (principal.(pr_DeviceID) =s? "") &&
  match principal.(pr_RecentAuthAt) with Some t => time_after t (time_add now (- (5 * minute))) | None => false end.

Definition withRecentAuth (next : HttpRequest -> Principal -> H unit) : HttpRequest -> H unit :=
  withAuth (fun r principal =>
    now ← time_now;
    ensure (recentlyAuthenticated now principal) StatusForbidden "recent_auth_required" ≫= fun _ =>
    next r principal).

Definition authenticate (r : HttpRequest) : H Principal :=
  match bearerTokenHash r with
  | None => refuseUnauthenticated
  | Some tokenHash =>
    found ← call (fun m => PrincipalByTokenHash (m.(mo_now) 0%nat) tokenHash);
    match found with
    | Err _ => refuseUnauthenticated
    | Ok principal => admitAccount principal.(pr_AccountID) ≫= fun _ => mret principal
    end
  end.

(** ** Write admission *)

Definition maxFanoutWriteBody : Z := Z.shiftl 6 20.

(** Up to a whole second: [math.Ceil] of [wait.Seconds()]. *)
Definition ceil_seconds (d : Z) : Z := - ((- d) / second).

Definition diskLow : H unit :=
  low ← step (fun m s => if m.(mo_lowDisk) then (true, set_admission (Reject Disk s.(sv_store).(admission)) s) else (false, s));
  if (low : bool) then writeError StatusInsufficientStorage "server_storage_low" else mret tt.

(** A call of the budget, which counts refusals in the shared counters. *)
Definition on_budget {A} (none : A) (f : Moment -> Server -> Budget -> A * Budget) : H A :=
  step (fun m s =>
    match s.(sv_budget) with
    | None => (none, s)
    | Some b =>
      let '(a, b) := f m s (Admission.set_counters b s.(sv_store).(admission)) in
      (a, set_budget (Some b) (set_admission b.(counters) s))
    end).

Definition countRecipients (n : Z) : H unit := fun _ '(l, s) =>
  (Ok tt, (mkLocal l.(lo_seen) l.(lo_charge) ((fun u => u + n) <$> l.(lo_usage)) l.(lo_read), s)).

(** Settling reads the usage and the bytes counted so far. *)
Definition settle_ticket (t : Ticket) : H unit :=
  stepL (fun m '(l, s) =>
    match s.(sv_budget) with
    | None => (tt, (l, s))
    | Some b =>
      let '(_, b) := Settle t (1 + default 0 l.(lo_usage)) l.(lo_read) (Admission.set_counters b s.(sv_store).(admission)) in
      (tt, (l, set_budget (Some b) (set_admission b.(counters) s)))
    end).

Definition start_metering : H unit := fun _ '(l, s) => (Ok tt, (mkLocal l.(lo_seen) l.(lo_charge) (Some 0) 0, s)).

Definition withWriteBudget (next : HttpRequest -> Principal -> H unit) (r : HttpRequest) (principal : Principal) : H unit :=
  if (r.(rq_method) =s? "GET") || (r.(rq_method) =s? "HEAD") then next r principal
  else
    diskLow ≫= fun _ =>
    let reserveBytes := if (0 <=? r.(rq_contentLength)) && (r.(rq_contentLength) <? maxFanoutWriteBody) then r.(rq_contentLength) else maxFanoutWriteBody in
    reserved ← on_budget None (fun m s b =>
      let '(ticket, wait, b) := Reserve m.(mo_budgetOrder) b principal.(pr_AccountID) (1 + s.(sv_store).(limits).(ConversationMembers)) reserveBytes (m.(mo_now) 0%nat) in
      (Some (ticket, wait), b));
    match reserved with
    | None => next r principal
    | Some (None, wait) => writeErrorAfter (Z.min (ceil_seconds wait) 3600) StatusTooManyRequests "write_rate_limited"
    | Some (Some ticket, _) => start_metering ≫= fun _ => finally (next r principal) (settle_ticket ticket)
    end.

(** ** Telling others *)

Definition event (type : string) (id : Z) (conversationID : string) (payload : Reply) (at_ : Z) : Event :=
  mkEvent "v1" type id conversationID payload at_.

Definition publish (accountIDs : list string) (e : Event) : H unit := on_hub (fun h => Publish h accountIDs (marshal_event e)).

Definition publishCommittedEvent (accountIDs : list string) (e : Event) : H unit :=
  if e.(ev_ID) <=? 0 then mret tt
  else countRecipients (Z.of_nat (length accountIDs)) ≫= fun _ => publish accountIDs e.

(** The event is made with the current time. *)
Definition announce (accountIDs : list string) (type : string) (id : Z) (conversationID : string) (payload : Reply) : H unit :=
  now ← time_now; publishCommittedEvent accountIDs (event type id conversationID payload now).

Definition lookup_members (f : DB -> list string) : H (list string) :=
  r ← call (fun _ => read f); mret (match r with Ok l => l | Err _ => [] end).
Definition conversationMemberIDs (conversationID : string) : H (list string) :=
  lookup_members (fun d => ListConversationMemberIDs d conversationID).
Definition conversationRecipientsForSender (conversationID senderAccountID : string) : H (list string) :=
  lookup_members (fun d => ConversationRecipientsForSender d conversationID senderAccountID).
Definition receiptRecipientsWithSelf (conversationID accountID : string) : H (list string) :=
  lookup_members (fun d => ReceiptRecipients d conversationID accountID ++ [accountID]).

Definition recordAuditEvent (actor : string) (type : string) (metadata : Payload) : H unit :=
  call (fun m => RecordAuditEvent (m.(mo_now) 0%nat) (Some actor) type metadata) ≫= fun _ => mret tt.

(** [completeQueuedBlobDeletion] *)
Definition completeQueuedBlobDeletion (storageKey : string) : H unit :=
  call (fun m => if m.(mo_blobFails) then RecordBlobDeletionFailure (m.(mo_now) 0%nat) storageKey else CompleteBlobDeletion storageKey) ≫= fun _ => mret tt.

(** ** Passwords *)

Context {PWH : PasswordHashing}.

Definition writePasswordHashFailure {A} (err : password_error) : H A :=
  match err with
  | ErrWeakPassword | ErrPasswordTooLong => writeError StatusBadRequest "weak_password"
  | ErrPasswordHashingBusy | ErrContextDone => writeErrorAfter 1 StatusServiceUnavailable "password_hashing_busy"
  | ErrRandom => writeError StatusInternalServerError "password_hash_failed"
  end.

(** [Passwords.Verify]: whether legacy hashes are about is looked up before
    the slot is asked for. *)
Definition verifyPassword (storedHash password : string) : H PasswordCheck :=
  checked ← step (fun m s =>
    match m.(mo_slot) with
    | Some e => (Err e, set_passwords (legacy_present (sv_db s) s.(sv_passwords)).2 s)
    | None => let '(check, _, p) := Verify (sv_db s) storedHash password s.(sv_passwords) in (Ok check, set_passwords p s)
    end);
  match checked with Ok check => mret check | Err e => writePasswordHashFailure e end.

Definition hashPassword (password : string) : H string :=
  hashed ← step (fun m s =>
    (match ValidatePassword password with
     | Err e => Err e
     | Ok _ => if m.(mo_randomFails) then Err ErrRandom
               else match m.(mo_slot) with Some e => Err e | None => HashPasswordContext (m.(mo_random) 0%nat) password end
     end, s));
  match hashed with Ok hash => mret hash | Err e => writePasswordHashFailure e end.

Definition upgradePassword (accountID storedHash password : string) (check : PasswordCheck) : H unit :=
  step (fun m s =>
    if m.(mo_randomFails) || bool_decide (is_Some m.(mo_slot)) then (tt, s)
    else match Upgrade (m.(mo_random) 0%nat) accountID storedHash password check s.(sv_passwords) s.(sv_store) with
         | (Ok p, st) => (tt, set_passwords p (set_store st s))
         | (Err _, st) => (tt, set_store st s)
         end).

(** ** The login backoff *)

Context (sha256_salted : string -> string).

Definition writeRetryError {A} (code : string) (retryAfter : Z) : H A :=
  writeErrorAfter (boundedRetryAfter retryAfter) StatusTooManyRequests code.

(** A refusal while one of the identities has to wait. *)
Definition refuseWhileWaiting (code : string) (identities : list string) : H unit :=
  retryAfter ← step (fun m s => let '(d, b) := RetryAfterAny sha256_salted s.(sv_backoff) (m.(mo_now) 0%nat) identities in (d, set_backoff b s));
  if 0 <? retryAfter then writeRetryError code retryAfter else mret tt.

(** A failed attempt: it counts against every identity. *)
Definition refuseAttempt {A} (code : string) (identities : list string) : H A :=
  retryAfter ← step (fun m s =>
    let '(d, b) := FailedAny sha256_salted m.(mo_backoffOrder) s.(sv_backoff) (m.(mo_now) 0%nat) identities in (d, set_backoff b s));
  if 0 <? retryAfter then writeRetryError code retryAfter else writeError StatusUnauthorized "invalid_credentials".

Definition attemptSucceeded (identities : list string) : H unit :=
  step (fun m s => (tt, set_backoff (SucceededAny sha256_salted s.(sv_backoff) identities) s)).
End http.
