(* ===== verification/AuthHandlers.v ===== *)
(** * Set-up, registration, login and devices

    [internal/httpapi/auth_handlers.go]: one definition per handler, with its
    checks and early returns in the order of the code. *)

From S2P Require Import Prelude GoStrings GoStrconv Config LoginBackoff Admission RateLimiter Hub Domain Database Identity Sessions Passwords DeviceLinks Devices Listings Bodies Http.
From stdpp Require Import base numbers list strings gmap fin_maps.
From Stdlib Require Import Ascii ZArith ZifyBool Lia.
Open Scope Z_scope.

Section handlers.
Context {NET : Network} {FLT : Float64} {RUN : GoRuntime} {CRY : GoCrypto} {PWH : PasswordHashing}.
Context (sha256_salted : string -> string) (a : API).

Definition clientIP (r : HttpRequest) : string := ClientIP a.(api_trustedProxies) r.(rq_base).

Definition maxAttachmentBytes : Z :=
  if 0 <? a.(api_MaxAttachmentBytes) then a.(api_MaxAttachmentBytes) else Z.shiftl DefaultAttachmentMiB 20.

Definition liveness (r : HttpRequest) : H unit := writeJSON StatusOK (RMap [("status"%string, rstr "alive")]).

(** ** Set-up *)

Definition setupStatus (r : HttpRequest) : H unit :=
  required ← query SetupRequired;
  let response := [("setup_required"%string, rbool required); ("max_attachment_bytes"%string, rint maxAttachmentBytes)] in
  if negb required then
    name ← run_store_or (fun _ => InstanceName) (fun _ => writeError StatusInternalServerError "setup_status_failed");
    writeJSON StatusOK (RMap (response ++ [("instance_name"%string, rstr name)]))
  else if negb (TrimSpace a.(api_DefaultInstanceName) =s? "")
  then writeJSON StatusOK (RMap (response ++ [("instance_name"%string, rstr (TrimSpace a.(api_DefaultInstanceName)))]))
  else writeJSON StatusOK (RMap response).

Definition setupAuthorized (r : HttpRequest) : bool :=
  if negb (a.(api_SetupToken) =s? "")
  then Sum256 (r.(rq_header) "X-Veritra-Setup-Token") =s? Sum256 a.(api_SetupToken)
  else bool_decide (ParseIP_IsLoopback (clientIP r) = Some true).

Definition enrollmentReservationResponse (x : EnrollmentReservationT) : Reply :=
  RMap ([("id", rstr x.(en_ID)); ("account_id", rstr x.(en_AccountID)); ("device_id", rstr x.(en_DeviceID));
         ("challenge", rbytes x.(en_Challenge)); ("expires_at", rtime x.(en_ExpiresAt))]%string ++
        if negb (x.(en_ProtocolVersion) =s? "") then
          ([("protocol_version", rstr x.(en_ProtocolVersion)); ("link_nonce", rbytes x.(en_LinkNonce));
           ("existing_device_id", rstr x.(en_ExistingDeviceID)); ("existing_signing_key", rbytes x.(en_ExistingSigningKey))]%string)
        else []).

Definition reserveOwnerEnrollment (r : HttpRequest) : H unit :=
  ensure (setupAuthorized r) StatusForbidden "setup_authorization_required" ≫= fun _ =>
  reservation ← run_store_or (fun m => ReserveOwnerEnrollment (m.(mo_id) 0%nat) (m.(mo_id) 1%nat) (m.(mo_id) 2%nat) (m.(mo_random) 0%nat) (m.(mo_now) 0%nat))
    (fun err => match err with
      | ErrAlreadySetup => writeError StatusConflict "already_setup"
      | _ => writeError StatusInternalServerError "enrollment_reservation_failed"
      end);
  writeJSON StatusCreated (enrollmentReservationResponse reservation).

Definition enrollmentProofMessage (challenge signingKey keyPackage : string) : string :=
  ("veritra-enrollment-proof-v1" +:+ u16be (blen challenge) +:+ challenge +:+ signingKey +:+ Sum256 keyPackage)%string.

Definition ed25519_PublicKeySize : Z := 32.
Definition ed25519_SignatureSize : Z := 64.
Definition sha256_Size : Z := 32.

Definition verifyEnrollment (reservationID kind signingKey keyPackage signature : string) : H EnrollmentReservationT :=
  let refuse : H EnrollmentReservationT := writeError StatusBadRequest "invalid_enrollment" in
  if negb (blen signingKey =? ed25519_PublicKeySize) || negb (blen signature =? ed25519_SignatureSize) then refuse
  else
    reservation ← run_store_or (fun m => EnrollmentReservation (m.(mo_now) 0%nat) reservationID) (fun _ => refuse);
    if negb (reservation.(en_Kind) =s? kind) then refuse
    else if negb (ed25519_Verify signingKey (enrollmentProofMessage reservation.(en_Challenge) signingKey keyPackage) signature) then refuse
    else mret reservation.

(** The checks on the device of a new account, and its reservation. *)
Definition checkNewDevice (req : fields) : H unit :=
  let keyPackage := f_bytes req "device_key_package" in
  ensure (negb (blen keyPackage =? 0)) StatusBadRequest "device_key_package_required" ≫= fun _ =>
  ensure (validDisplayName (f_str req "device_name")) StatusBadRequest "invalid_device_name" ≫= fun _ =>
  ensure (negb (isReservedNonProductionKeyPackage keyPackage)) StatusBadRequest "non_production_device_key_package" ≫= fun _ =>
  ensure (validDeviceKeyPackage keyPackage) StatusBadRequest "invalid_device_key_package".

Definition newSecret (failure : string) : H (string * string) :=
  t ← NewToken;
  match t with Some x => mret x | None => writeError StatusInternalServerError failure end.

Definition ownerRequest : struct :=
  [("enrollment_reservation_id", TStr); ("instance_name", TStr); ("username", TStr); ("email", TOptStr); ("password", TStr); ("device_name", TStr);
   ("device_key_package", TBytes); ("signing_key", TBytes); ("challenge_signature", TBytes)]%string.

Definition register_input (req : fields) (reservationID passwordHash deviceAuthHash tokenHash : string) : RegisterInput :=
  mkRegisterInput reservationID (f_str req "invite_code") (f_str req "username") (f_optstr req "email") passwordHash (f_str req "device_name")
    (f_bytes req "device_key_package") (f_bytes req "signing_key") deviceAuthHash tokenHash 0.

Definition createdReply (created : AccountDevice) (token deviceSecret : string) : Reply :=
  RMap [("account", RAccount created.(ad_Account)); ("device", RDevice created.(ad_Device)); ("token", rstr token); ("device_secret", rstr deviceSecret)]%string.

Definition createOwner (r : HttpRequest) : H unit :=
  ensure (setupAuthorized r) StatusForbidden "setup_authorization_required" ≫= fun _ =>
  req ← decodeJSON ownerRequest r;
  let instanceName := if TrimSpace (f_str req "instance_name") =s? "" then a.(api_DefaultInstanceName) else f_str req "instance_name" in
  ensure (validDisplayName instanceName && validUsername (f_str req "username") && validOptionalEmail (f_optstr req "email"))
    StatusBadRequest "invalid_identity" ≫= fun _ =>
  match ValidatePassword (f_str req "password") with
  | Err e => writePasswordHashFailure e
  | Ok _ =>
    checkNewDevice req ≫= fun _ =>
    reservation ← verifyEnrollment (f_str req "enrollment_reservation_id") "owner" (f_bytes req "signing_key") (f_bytes req "device_key_package")
      (f_bytes req "challenge_signature");
    passwordHash ← hashPassword (f_str req "password");
    t ← newSecret "token_create_failed";
    let '(token, tokenHash) := t in
    t ← newSecret "device_secret_create_failed";
    let '(deviceSecret, deviceAuthHash) := t in
    created ← run_store_or (fun m => CreateOwner (m.(mo_id) 0%nat) m.(mo_now)
        (mkCreateOwnerInput instanceName (register_input req reservation.(en_ID) passwordHash deviceAuthHash tokenHash)))
      (fun err => match err with
        | ErrAlreadySetup => writeError StatusConflict "already_setup"
        | ErrEnrollmentInvalid => writeError StatusBadRequest "invalid_enrollment"
        | _ => writeError StatusInternalServerError "owner_create_failed"
        end);
    recordAuditEvent created.(ad_Account).(acct_ID) "owner.created" [("device_id"%string, VStr created.(ad_Device).(device_ID))] ≫= fun _ =>
    writeJSON StatusCreated (createdReply created token deviceSecret)
  end.

(** ** Login *)

Definition loginRequest : struct := [("username", TStr); ("password", TStr); ("device_id", TStr); ("device_secret", TStr)]%string.

Definition loginBackoffKeys (r : HttpRequest) (username deviceID : string) : string * string :=
  let user := ToLower (TrimSpace username) in
  let device := TrimSpace deviceID in
  (("login-source-device" +:+ nul +:+ clientIP r +:+ nul +:+ device +:+ nul +:+ user)%string,
   ("login-account-device" +:+ nul +:+ user +:+ nul +:+ device)%string).

(** The secret's hash against the stored one; an empty one matches nothing. *)
Definition secretMatches (deviceSecret deviceAuthHash : string) : bool :=
  negb (deviceAuthHash =s? "") && (HashToken deviceSecret =s? deviceAuthHash).

(** The session of a login whose credentials were checked, tried again once
    when the stored hash has changed meanwhile: the record and check it was
    made with, or why it was not. *)
Definition createLoginSession (username password deviceID tokenHash : string) (record : LoginRecordT) (check : PasswordCheck)
    : H (LoginRecordT * PasswordCheck * result store_error unit) :=
  let create record := call (fun m => CreateLoginSession (m.(mo_now) 0%nat) (m.(mo_now) 1%nat) tokenHash record.(lr_AccountID) record.(lr_DeviceID) record.(lr_PasswordHash)) in
  created ← create record;
  match created with
  | Err ErrUnauthorized =>
    found ← call (fun _ => LoginRecord username deviceID);
    match found with
    | Ok current =>
      if (current.(lr_AccountID) =s? record.(lr_AccountID)) && negb (current.(lr_PasswordHash) =s? "") && negb (current.(lr_PasswordHash) =s? record.(lr_PasswordHash)) then
        recheck ← verifyPassword current.(lr_PasswordHash) password;
        if recheck.(pc_OK) then again ← create current; mret (current, recheck, again)
        else mret (record, check, created)
      else mret (record, check, created)
    | Err _ => mret (record, check, created)
    end
  | _ => mret (record, check, created)
  end.

Definition login (r : HttpRequest) : H unit :=
  req ← decodeJSON loginRequest r;
  let username := f_str req "username" in
  let password := f_str req "password" in
  let deviceID := f_str req "device_id" in
  ensure (negb (TrimSpace deviceID =s? "")) StatusBadRequest "device_id_required" ≫= fun _ =>
  let '(sourceKey, accountDeviceKey) := loginBackoffKeys r username deviceID in
  refuseWhileWaiting sha256_salted "login_backoff" [sourceKey] ≫= fun _ =>
  found ← call (fun _ => LoginRecord username deviceID);
  check ← verifyPassword (match found with Ok record => record.(lr_PasswordHash) | Err _ => ""%string end) password;
  let deviceOK := match found with Ok record => secretMatches (f_str req "device_secret") record.(lr_DeviceAuthHash) | Err _ => false end in
  (if deviceOK then refuseWhileWaiting sha256_salted "login_backoff" [accountDeviceKey] else mret tt) ≫= fun _ =>
  match found with
  | Ok record =>
    if negb check.(pc_OK) || negb deviceOK
    then refuseAttempt sha256_salted "login_backoff" (sourceKey :: if deviceOK then [accountDeviceKey] else [])
    else
      t ← newSecret "token_create_failed";
      let '(token, tokenHash) := t in
      made ← createLoginSession username password deviceID tokenHash record check;
      let '(record, check, created) := made in
      match created with
      | Err ErrUnauthorized => writeError StatusUnauthorized "invalid_credentials"
      | Err _ => writeError StatusInternalServerError "session_create_failed"
      | Ok _ =>
        upgradePassword record.(lr_AccountID) record.(lr_PasswordHash) password check ≫= fun _ =>
        attemptSucceeded sha256_salted [sourceKey; accountDeviceKey] ≫= fun _ =>
        recordAuditEvent record.(lr_AccountID) "session.login" [("device_id"%string, VStr record.(lr_DeviceID))] ≫= fun _ =>
        writeJSON StatusOK (RMap [("token", rstr token); ("account_id", rstr record.(lr_AccountID)); ("device_id", rstr record.(lr_DeviceID)); ("role", rstr record.(lr_Role))]%string)
      end
  | Err _ => refuseAttempt sha256_salted "login_backoff" [sourceKey]
  end.

(** ** Registration *)

Definition reserveRegistrationEnrollment (r : HttpRequest) : H unit :=
  req ← decodeJSON [("invite_code"%string, TStr)] r;
  reservation ← run_store_or (fun m => ReserveRegistrationEnrollment (m.(mo_id) 0%nat) (m.(mo_id) 1%nat) (m.(mo_id) 2%nat) (m.(mo_random) 0%nat)
      (m.(mo_now) 0%nat) (m.(mo_now) 1%nat) (f_str req "invite_code"))
    (fun err => match err with
      | ErrInviteInvalid => writeError StatusBadRequest "invalid_invite"
      | _ => writeError StatusInternalServerError "enrollment_reservation_failed"
      end);
  writeJSON StatusCreated (enrollmentReservationResponse reservation).

Definition registerRequest : struct :=
  [("enrollment_reservation_id", TStr); ("invite_code", TStr); ("username", TStr); ("email", TOptStr); ("password", TStr); ("device_name", TStr);
   ("device_key_package", TBytes); ("signing_key", TBytes); ("challenge_signature", TBytes)]%string.

Definition register (r : HttpRequest) : H unit :=
  req ← decodeJSON registerRequest r;
  ensure (validUsername (f_str req "username") && validOptionalEmail (f_optstr req "email")) StatusBadRequest "invalid_identity" ≫= fun _ =>
  match ValidatePassword (f_str req "password") with
  | Err e => writePasswordHashFailure e
  | Ok _ =>
    checkNewDevice req ≫= fun _ =>
    reservation ← verifyEnrollment (f_str req "enrollment_reservation_id") "register" (f_bytes req "signing_key") (f_bytes req "device_key_package")
      (f_bytes req "challenge_signature");
    passwordHash ← hashPassword (f_str req "password");
    t ← newSecret "token_create_failed";
    let '(token, tokenHash) := t in
    t ← newSecret "device_secret_create_failed";
    let '(deviceSecret, deviceAuthHash) := t in
    created ← run_store_or (fun m => RegisterWithInvite (m.(mo_id) 0%nat) m.(mo_now) (register_input req reservation.(en_ID) passwordHash deviceAuthHash tokenHash))
      (fun err => match err with
        | ErrInviteInvalid => writeError StatusBadRequest "invalid_invite"
        | ErrEnrollmentInvalid => writeError StatusBadRequest "invalid_enrollment"
        | _ => writeError StatusInternalServerError "register_failed"
        end);
    recordAuditEvent created.(ad_Account).(acct_ID) "account.registered" [("device_id"%string, VStr created.(ad_Device).(device_ID))] ≫= fun _ =>
    writeJSON StatusCreated (createdReply created token deviceSecret)
  end.
(** ** Invites *)

Definition inviteRequest : struct := [("max_uses", TInt); ("expires_at", TOptTime)]%string.

Definition createInvite (r : HttpRequest) (principal : Principal) : H unit :=
  ensure (CanManageInvites principal.(pr_Role)) StatusForbidden "forbidden" ≫= fun _ =>
  req ← decodeJSON inviteRequest r;
  (match f_opttime req "expires_at" with
   | Some t =>
     now ← time_now;
     ensure (time_after t now) StatusBadRequest "invalid_expires_at" ≫= fun _ =>
     ensure (negb (90 * 24 * hour <? time_sub t now)) StatusBadRequest "expires_at_too_far"
   | None => mret tt
   end) ≫= fun _ =>
  expiresAt ← (match f_opttime req "expires_at" with
               | Some t => mret t
               | None => now ← time_now; mret (time_add now (7 * 24 * hour))
               end);
  ensure (negb ((f_int req "max_uses" <? 0) || (10000 <? f_int req "max_uses"))) StatusBadRequest "invalid_max_uses" ≫= fun _ =>
  invite ← run_store_or (fun m => CreateInvite (m.(mo_id) 0%nat) (m.(mo_id) 1%nat) (m.(mo_now) 0%nat) principal.(pr_AccountID) (f_int req "max_uses") (Some expiresAt))
    (fun _ => writeError StatusInternalServerError "invite_create_failed");
  recordAuditEvent principal.(pr_AccountID) "invite.created" [("invite_id", VStr invite.(inv_ID)); ("max_uses", VInt invite.(inv_MaxUses))]%string ≫= fun _ =>
  writeJSON StatusCreated (RInvite invite).

Definition revokeInvite (r : HttpRequest) (principal : Principal) : H unit :=
  ensure (CanManageInvites principal.(pr_Role)) StatusForbidden "forbidden" ≫= fun _ =>
  let inviteID := TrimSpace (r.(rq_pathValue) "id") in
  ensure (negb (inviteID =s? "")) StatusBadRequest "invalid_invite_id" ≫= fun _ =>
  run_store (fun m => RevokeInvite (m.(mo_now) 0%nat) principal.(pr_AccountID) inviteID) ≫= fun _ =>
  recordAuditEvent principal.(pr_AccountID) "invite.revoked" [("invite_id"%string, VStr inviteID)] ≫= fun _ =>
  noContent.

Definition listInvites (r : HttpRequest) (principal : Principal) : H unit :=
  ensure (CanManageInvites principal.(pr_Role)) StatusForbidden "forbidden" ≫= fun _ =>
  invites ← run_store_or (fun m => read (fun d => ListInvites d (m.(mo_now) 0%nat) principal.(pr_AccountID)))
    (fun _ => writeError StatusInternalServerError "invites_list_failed");
  writeJSON StatusOK (RMap [("invites"%string, RList (map RInvite invites))]).

(** ** Devices *)

Definition listDevices (r : HttpRequest) (principal : Principal) : H unit :=
  let limit := ParseInt_value (r.(rq_query) "limit") in
  let limit := if (limit <=? 0) || (200 <? limit) then 100 else limit in
  devices ← run_store_or (fun _ => read (fun d => ListDevicesPage d principal.(pr_AccountID) limit (TrimSpace (r.(rq_query) "after"))))
    (fun _ => writeError StatusInternalServerError "devices_list_failed");
  writeJSON StatusOK (RMap [("devices"%string, RList (map RDevice devices))]).

Definition revokeDevice (r : HttpRequest) (principal : Principal) : H unit :=
  let deviceID := TrimSpace (r.(rq_pathValue) "id") in
  ensure (negb (deviceID =s? "")) StatusBadRequest "invalid_device_id" ≫= fun _ =>
  eventID ← run_store (fun m => RevokeDeviceWithSyncEvent (m.(mo_now) 0%nat) (m.(mo_now) 1%nat) principal.(pr_AccountID) deviceID);
  announce [principal.(pr_AccountID)] "device.revoked" eventID "" (RMap [("device_id"%string, rstr deviceID)]) ≫= fun _ =>
  on_hub (fun h => DisconnectDevice h principal.(pr_AccountID) deviceID) ≫= fun _ =>
  recordAuditEvent principal.(pr_AccountID) "device.revoked" [("device_id"%string, VStr deviceID)] ≫= fun _ =>
  noContent.

(** ** Linking a device, second protocol *)

Definition unless_empty {A} (s : string) (x : A) : list A := if s =s? "" then [] else [x].
Definition optional {A B} (o : option A) (f : A -> B) : list B := match o with Some x => [f x] | None => [] end.

Definition deviceLinkPayload (link : DeviceLink) : Reply :=
  RMap ([("id", rstr link.(dk_ID)); ("state", rstr link.(dk_State)); ("account_id", rstr link.(dk_AccountID));
         ("created_by_device_id", rstr link.(dk_CreatedByDeviceID)); ("protocol_version", rstr link.(dk_ProtocolVersion));
         ("link_nonce", rbytes link.(dk_LinkNonce)); ("claim_tag", rbytes link.(dk_ClaimTag));
         ("existing_signing_key", rbytes link.(dk_ExistingSigningKey)); ("created_at", rtime link.(dk_CreatedAt));
         ("expires_at", rtime link.(dk_ExpiresAt))]%string ++
        unless_empty link.(dk_Code) ("code"%string, rstr link.(dk_Code)) ++
        optional link.(dk_ClaimedDeviceName) (fun n => ("claimed_device_name"%string, rstr n)) ++
        unless_empty link.(dk_ClaimedDeviceID) ("claimed_device_id"%string, rstr link.(dk_ClaimedDeviceID)) ++
        unless_empty link.(dk_ClaimedSigningKey) ("claimed_signing_key"%string, rbytes link.(dk_ClaimedSigningKey)) ++
        unless_empty link.(dk_TranscriptHash) ("transcript_hash"%string, rbytes link.(dk_TranscriptHash)) ++
        optional link.(dk_ApprovedDeviceID) (fun d => ("approved_device_id"%string, rstr d))).

Definition createDeviceLinkRequest : struct := [("code", TStr); ("expires_in_seconds", TInt)]%string.

Definition createDeviceLink (r : HttpRequest) (principal : Principal) : H unit :=
  ensure (negb (principal.(pr_DeviceID) =s? "")) StatusBadRequest "device_session_required" ≫= fun _ =>
  req ← decodeOptionalJSON createDeviceLinkRequest r;
  link ← run_store (fun m => CreateDeviceLink (m.(mo_id) 0%nat) (m.(mo_random) 0%nat) (m.(mo_now) 0%nat) (m.(mo_now) 1%nat) principal.(pr_AccountID) principal.(pr_DeviceID)
    (wrap64 (f_int req "expires_in_seconds" * second)) (f_str req "code"));
  writeJSON StatusCreated (RMap [("device_link"%string, deviceLinkPayload link)]).

Definition reserveDeviceLinkEnrollment (r : HttpRequest) : H unit :=
  req ← decodeJSON [("code"%string, TStr)] r;
  reservation ← run_store_or (fun m => ReserveDeviceLinkEnrollment (m.(mo_id) 0%nat) (m.(mo_random) 0%nat) (m.(mo_now) 0%nat) (f_str req "code"))
    (fun err => match err with
      | ErrDeviceLinkInvalid => writeError StatusBadRequest "invalid_device_link"
      | _ => writeError StatusInternalServerError "enrollment_reservation_failed"
      end);
  writeJSON StatusCreated (enrollmentReservationResponse reservation).

Definition claimDeviceLinkRequest : struct :=
  [("enrollment_reservation_id", TStr); ("code", TStr); ("device_name", TStr); ("device_key_package", TBytes); ("signing_key", TBytes);
   ("challenge_signature", TBytes); ("transcript_hash", TBytes); ("claim_tag", TBytes)]%string.

Definition claimDeviceLink (r : HttpRequest) : H unit :=
  req ← decodeJSON claimDeviceLinkRequest r;
  let keyPackage := f_bytes req "device_key_package" in
  let signingKey := f_bytes req "signing_key" in
  let invalid {A} : H A := writeError StatusBadRequest "invalid_enrollment" in
  checkNewDevice req ≫= fun _ =>
  ensure ((blen signingKey =? ed25519_PublicKeySize) && (blen (f_bytes req "challenge_signature") =? ed25519_SignatureSize) &&
          (blen (f_bytes req "transcript_hash") =? sha256_Size) && (blen (f_bytes req "claim_tag") =? sha256_Size)) StatusBadRequest "invalid_enrollment" ≫= fun _ =>
  reservation ← run_store_or (fun m => DeviceLinkEnrollment (m.(mo_now) 0%nat) (f_str req "code") (f_str req "enrollment_reservation_id")) (fun _ => invalid);
  ensure (ed25519_Verify signingKey (enrollmentProofMessage reservation.(en_Challenge) signingKey keyPackage) (f_bytes req "challenge_signature"))
    StatusBadRequest "invalid_enrollment" ≫= fun _ =>
  t ← newSecret "claim_token_create_failed";
  let '(claimToken, claimTokenHash) := t in
  t ← newSecret "device_secret_create_failed";
  let '(deviceSecret, deviceAuthHash) := t in
  link ← run_store_or (fun m => ClaimDeviceLink (m.(mo_now) 0%nat) (m.(mo_now) 1%nat) (f_str req "code") (f_str req "device_name") keyPackage signingKey
      (f_bytes req "transcript_hash") (f_bytes req "claim_tag") claimTokenHash deviceAuthHash)
    (fun err => match err with
      | ErrDeviceLinkInvalid => writeError StatusBadRequest "invalid_device_link"
      | _ => writeError StatusInternalServerError "device_link_claim_failed"
      end);
  writeJSON StatusAccepted (RMap [("device_link", deviceLinkPayload link); ("claim_token", rstr claimToken); ("device_secret", rstr deviceSecret)]%string).

Definition approveDeviceLinkRequest : struct := [("transcript_hash", TBytes); ("approval_tag", TBytes)]%string.

Definition approveDeviceLink_route (linkID : string) (r : HttpRequest) : H unit :=
  principal ← authenticate r;
  now ← time_now;
  ensure (recentlyAuthenticated now principal) StatusForbidden "recent_auth_required" ≫= fun _ =>
  req ← decodeJSON approveDeviceLinkRequest r;
  ensure ((blen (f_bytes req "transcript_hash") =? sha256_Size) && (blen (f_bytes req "approval_tag") =? sha256_Size)) StatusBadRequest "transcript_hash_required" ≫= fun _ =>
  x ← run_store_or (fun m => ApproveDeviceLinkWithSyncEvent (m.(mo_id) 0%nat) (m.(mo_now) 0%nat) (m.(mo_now) 1%nat) linkID principal.(pr_AccountID)
      (f_bytes req "transcript_hash") (f_bytes req "approval_tag"))
    (fun err => match err with
      | ErrDeviceLinkVerificationFailed => writeError StatusBadRequest "transcript_mismatch"
      | ErrDeviceLinkInvalid => writeError StatusBadRequest "invalid_device_link"
      | _ => handleStorageError err
      end);
  let '(link, device, eventID) := x in
  announce [principal.(pr_AccountID)] "device.updated" eventID "" (RMap [("device", RDevice device); ("device_link_id", rstr link.(dk_ID))]%string) ≫= fun _ =>
  recordAuditEvent principal.(pr_AccountID) "device_link.approved" [("link_id", VStr link.(dk_ID)); ("device_id", VStr device.(device_ID))]%string ≫= fun _ =>
  writeJSON StatusOK (RMap [("device_link", deviceLinkPayload link); ("device", RDevice device)]%string).

Definition claimStatus_route (linkID : string) (r : HttpRequest) : H unit :=
  let claimToken := TrimSpace (r.(rq_header) "X-Veritra-Claim-Token") in
  ensure (negb (claimToken =s? "")) StatusBadRequest "claim_token_required" ≫= fun _ =>
  t ← newSecret "token_create_failed";
  let '(sessionToken, sessionTokenHash) := t in
  linked ← run_store_or (fun m => ConsumeApprovedDeviceLink m.(mo_now) linkID (HashToken claimToken) sessionTokenHash 0)
    (fun err => match err with
      | ErrDeviceLinkNotReady => writeJSON StatusAccepted (RMap [("state"%string, rstr "pending_approval")])
      | ErrDeviceLinkInvalid => writeError StatusBadRequest "invalid_device_link"
      | _ => writeError StatusInternalServerError "device_link_status_failed"
      end);
  writeJSON StatusOK (RMap [("account", RAccount linked.(cd_AccountDevice).(ad_Account)); ("device", RDevice linked.(cd_AccountDevice).(ad_Device)); ("token", rstr sessionToken);
    ("transcript_hash", rbytes linked.(cd_TranscriptHash)); ("approval_tag", rbytes linked.(cd_ApprovalTag))]%string).

Definition deviceLinkSubroute (r : HttpRequest) : H unit :=
  let not_found := writeError StatusNotFound "not_found" in
  match deviceLinkPathParts (rq_path r) with
  | [id] =>
    if negb (id =s? "") && (r.(rq_method) =s? "GET") then
      principal ← authenticate r;
      link ← run_store (fun _ => DeviceLinkForAccount id principal.(pr_AccountID));
      writeJSON StatusOK (RMap [("device_link"%string, deviceLinkPayload link)])
    else not_found
  | [linkID; part] =>
    if (part =s? "approve") && (r.(rq_method) =s? "POST") then approveDeviceLink_route linkID r
    else if (part =s? "claim-status") && (r.(rq_method) =s? "GET") then claimStatus_route linkID r
    else not_found
  | _ => not_found
  end.

(** ** The session *)

Definition logout (r : HttpRequest) (principal : Principal) : H unit :=
  let token := bearerToken r.(rq_base) in
  ensure (negb (token =s? "")) StatusUnauthorized "unauthorized" ≫= fun _ =>
  run_store (fun m => DeleteSession (m.(mo_now) 0%nat) (HashToken token)) ≫= fun _ =>
  on_hub (fun h => DisconnectDevice h principal.(pr_AccountID) principal.(pr_DeviceID)) ≫= fun _ =>
  recordAuditEvent principal.(pr_AccountID) "session.logout" [("device_id"%string, VStr principal.(pr_DeviceID))] ≫= fun _ =>
  noContent.

Definition sessionRotationHeader : string := "X-Veritra-Rotate-Session".

Definition reauthenticationBackoffKeys (r : HttpRequest) (principal : Principal) : list string :=
  [("reauth-session" +:+ nul +:+ HashToken (bearerToken r.(rq_base)))%string;
   ("reauth-account-device" +:+ nul +:+ principal.(pr_AccountID) +:+ nul +:+ principal.(pr_DeviceID))%string;
   ("reauth-source-account-device" +:+ nul +:+ clientIP r +:+ nul +:+ principal.(pr_AccountID) +:+ nul +:+ principal.(pr_DeviceID))%string].

Definition rotateReauthenticatedSession (principal : Principal) (presentedToken : string) (backoffKeys : list string) : H unit :=
  t ← newSecret "token_create_failed";
  let '(token, tokenHash) := t in
  run_store_or (fun m => RotateSession (m.(mo_now) 0%nat) (HashToken presentedToken) tokenHash)
    (fun err => match err with
      | ErrUnauthorized => writeError StatusUnauthorized "unauthorized"
      | _ => writeError StatusInternalServerError "session_rotate_failed"
      end) ≫= fun _ =>
  attemptSucceeded sha256_salted backoffKeys ≫= fun _ =>
  on_hub (fun h => DisconnectDevice h principal.(pr_AccountID) principal.(pr_DeviceID)) ≫= fun _ =>
  recordAuditEvent principal.(pr_AccountID) "session.reauthenticated" [("device_id", VStr principal.(pr_DeviceID)); ("token_rotated", VStr "true")]%string ≫= fun _ =>
  writeJSON StatusOK (RMap [("token"%string, rstr token)]).

Definition reauthenticate (r : HttpRequest) (principal : Principal) : H unit :=
  req ← decodeJSON [("password", TStr); ("device_secret", TStr)]%string r;
  let backoffKeys := reauthenticationBackoffKeys r principal in
  refuseWhileWaiting sha256_salted "reauth_backoff" backoffKeys ≫= fun _ =>
  found ← call (fun _ => ReauthenticationRecord principal.(pr_AccountID) principal.(pr_DeviceID));
  let '(passwordHash, deviceAuthHash) := match found with Ok x => x | Err _ => (""%string, ""%string) end in
  let known := match found with Ok _ => true | Err _ => false end in
  check ← verifyPassword passwordHash (f_str req "password");
  let deviceOK := known && secretMatches (f_str req "device_secret") deviceAuthHash in
  if negb known || negb check.(pc_OK) || negb deviceOK then refuseAttempt sha256_salted "reauth_backoff" backoffKeys
  else
    upgradePassword principal.(pr_AccountID) passwordHash (f_str req "password") check ≫= fun _ =>
    let token := bearerToken r.(rq_base) in
    ensure (negb (token =s? "")) StatusUnauthorized "unauthorized" ≫= fun _ =>
    if r.(rq_header) sessionRotationHeader =s? "1" then rotateReauthenticatedSession principal token backoffKeys
    else
      run_store_or (fun m => MarkSessionRecentlyAuthenticated (m.(mo_now) 0%nat) (HashToken token)) (fun _ => writeError StatusUnauthorized "unauthorized") ≫= fun _ =>
      attemptSucceeded sha256_salted backoffKeys ≫= fun _ =>
      recordAuditEvent principal.(pr_AccountID) "session.reauthenticated" [("device_id"%string, VStr principal.(pr_DeviceID))] ≫= fun _ =>
      noContent.

Definition disconnectAccountForRevocation (principal : Principal) : H unit :=
  on_hub (fun h => DisconnectAccountExceptDevice h principal.(pr_AccountID) principal.(pr_DeviceID)) ≫= fun _ =>
  on_hub (fun h => DisconnectDevice h principal.(pr_AccountID) principal.(pr_DeviceID)).

Definition changePassword (r : HttpRequest) (principal : Principal) : H unit :=
  req ← decodeJSON [("new_password"%string, TStr)] r;
  current ← run_store (fun _ => ReauthenticationRecord principal.(pr_AccountID) principal.(pr_DeviceID));
  same ← verifyPassword current.1 (f_str req "new_password");
  ensure (negb same.(pc_OK)) StatusBadRequest "password_unchanged" ≫= fun _ =>
  hash ← hashPassword (f_str req "new_password");
  let token := bearerToken r.(rq_base) in
  ensure (negb (token =s? "")) StatusUnauthorized "unauthorized" ≫= fun _ =>
  run_store (fun m => ChangePassword m.(mo_now) principal.(pr_AccountID) (HashToken token) hash) ≫= fun _ =>
  disconnectAccountForRevocation principal ≫= fun _ =>
  recordAuditEvent principal.(pr_AccountID) "account.password_changed" [("device_id"%string, VStr principal.(pr_DeviceID))] ≫= fun _ =>
  noContent.

Definition logoutAll (r : HttpRequest) (principal : Principal) : H unit :=
  let token := bearerToken r.(rq_base) in
  let keep := if token =s? "" then ""%string else HashToken token in
  run_store (fun _ => DeleteAccountSessionsExcept principal.(pr_AccountID) keep) ≫= fun _ =>
  disconnectAccountForRevocation principal ≫= fun _ =>
  recordAuditEvent principal.(pr_AccountID) "session.logout_others" [("device_id"%string, VStr principal.(pr_DeviceID))] ≫= fun _ =>
  noContent.
End handlers.
