(* ===== verification/ConversationHandlers.v ===== *)
(** * Communities, conversations and messages over HTTP

    [internal/httpapi/conversation_handlers.go], [user_control_handlers.go],
    [receipts.go]'s settings and [internal/messaging]. *)

From S2P Require Import Prelude GoStrings GoStrconv TypingLimiter Admission RateLimiter Hub Domain Database Conversations Messages Receipts DeviceLinks Listings Bodies Http AuthHandlers.
From stdpp Require Import base numbers list strings gmap fin_maps.
From Stdlib Require Import Ascii ZArith ZifyBool Lia.
Open Scope Z_scope.

Section handlers.
Context {NET : Network} {FLT : Float64} {RUN : GoRuntime}.

Definition not_found {A} : H A := writeError StatusNotFound "not_found".
Definition status_ok : Reply := RMap [("status"%string, rstr "ok")].

(** ** Communities *)

Definition createCommunity (r : HttpRequest) (principal : Principal) : H unit :=
  req ← decodeJSON [("name"%string, TStr)] r;
  ensure (validDisplayName (f_str req "name")) StatusBadRequest "invalid_name" ≫= fun _ =>
  community ← run_store_or (fun m => CreateCommunity (m.(mo_id) 0%nat) (m.(mo_now) 0%nat) (f_str req "name") principal.(pr_AccountID))
    (fun _ => writeError StatusInternalServerError "community_create_failed");
  writeJSON StatusCreated (RCommunity community).

Definition listCommunities (r : HttpRequest) (principal : Principal) : H unit :=
  communities ← run_store_or (fun _ => read (fun d => ListCommunities d principal.(pr_AccountID)))
    (fun _ => writeError StatusInternalServerError "communities_list_failed");
  writeJSON StatusOK (RMap [("communities"%string, RList (map RCommunity communities))]).

Definition communityMember_route (communityID : string) (r : HttpRequest) (principal : Principal) : H unit :=
  req ← decodeJSON [("account_id", TStr); ("role", TStr)]%string r;
  let role := if f_str req "role" =s? "" then RoleMember else f_str req "role" in
  ensure (negb (TrimSpace (f_str req "account_id") =s? "") && ValidRole role) StatusBadRequest "invalid_member" ≫= fun _ =>
  run_store (fun m => ManageCommunityMember (m.(mo_now) 0%nat) communityID principal.(pr_AccountID) (f_str req "account_id") role) ≫= fun _ =>
  recordAuditEvent principal.(pr_AccountID) "community.member.updated" [("community_id", VStr communityID); ("role", VStr role)]%string ≫= fun _ =>
  writeJSON StatusOK status_ok.

Definition createChannel_route (communityID : string) (r : HttpRequest) (principal : Principal) : H unit :=
  req ← decodeJSON [("name", TStr); ("kind", TStr)]%string r;
  ensure (validDisplayName (f_str req "name")) StatusBadRequest "invalid_name" ≫= fun _ =>
  let kind := if f_str req "kind" =s? "" then "private"%string else f_str req "kind" in
  ensure ((kind =s? "private") || (kind =s? "announcement")) StatusBadRequest "invalid_channel_kind" ≫= fun _ =>
  x ← run_store (fun m => CreateChannelWithConversation (m.(mo_id) 0%nat) (m.(mo_id) 1%nat) (m.(mo_now) 0%nat) communityID (f_str req "name") kind principal.(pr_AccountID));
  writeJSON StatusCreated (RMap [("channel", RChannel x.1); ("conversation", RConversation x.2)]%string).

Definition communitySubroute (r : HttpRequest) (principal : Principal) : H unit :=
  match Split (TrimPrefix (rq_path r) "/api/v1/communities/") "/" with
  | [communityID; part] =>
    if (part =s? "members") && (r.(rq_method) =s? "GET") then
      members ← run_store (fun _ => ListCommunityMembers communityID principal.(pr_AccountID));
      writeJSON StatusOK (RMap [("members"%string, RList (map RMembership members))])
    else if (part =s? "members") && (r.(rq_method) =s? "POST") then communityMember_route communityID r principal
    else if (part =s? "channels") && (r.(rq_method) =s? "GET") then
      channels ← run_store (fun _ => ListChannels communityID principal.(pr_AccountID));
      writeJSON StatusOK (RMap [("channels"%string, RList (map RChannel channels))])
    else if (part =s? "channels") && (r.(rq_method) =s? "POST") then createChannel_route communityID r principal
    else not_found
  | _ => not_found
  end.

(** ** Conversations *)

Definition createConversationRequest : struct :=
  [("kind", TStr); ("title", TOptStr); ("community_id", TOptStr); ("channel_id", TOptStr); ("retention_seconds", TOptInt); ("member_account_ids", TStrs)]%string.

Definition createConversation (r : HttpRequest) (principal : Principal) : H unit :=
  req ← decodeJSON createConversationRequest r;
  let kind := f_str req "kind" in
  ensure ((kind =s? "dm") || (kind =s? "group") || (kind =s? "community_channel")) StatusBadRequest "invalid_conversation_kind" ≫= fun _ =>
  ensure (validRetention (f_optint req "retention_seconds")) StatusBadRequest "invalid_retention_seconds" ≫= fun _ =>
  x ← run_store (fun m => CreateOrGetConversation (m.(mo_id) 0%nat) (m.(mo_now) 0%nat)
    (mkInput kind (f_optstr req "title") (f_optstr req "community_id") (f_optstr req "channel_id") principal.(pr_AccountID) (f_optint req "retention_seconds")
       (f_strs req "member_account_ids")));
  let '(conversation, created) := x in
  writeJSON (if created : bool then StatusCreated else StatusOK) (RConversation conversation).

Definition listConversations (r : HttpRequest) (principal : Principal) : H unit :=
  let limit := ParseInt_value (r.(rq_query) "limit") in
  let limit := if (limit <=? 0) || (200 <? limit) then 100 else limit in
  let beforeID := TrimSpace (r.(rq_query) "before") in
  let raw := TrimSpace (r.(rq_query) "before_activity") in
  activity ← (if raw =s? "" then mret 0
              else match Parse_RFC3339Nano raw with
              | None => writeError StatusBadRequest "invalid_cursor"
              | Some t => if beforeID =s? "" then writeError StatusBadRequest "invalid_cursor" else mret t
              end);
  conversations ← run_store_or (fun m => ListConversationsPageFrom (m.(mo_now) 0%nat) principal.(pr_AccountID) limit (mkCursor beforeID activity))
    (fun err => match err with
      | ErrInvalidInput => writeError StatusBadRequest "invalid_cursor"
      | _ => writeError StatusInternalServerError "conversations_list_failed"
      end);
  writeJSON StatusOK (RMap [("conversations"%string, RList (map RListed conversations))]).

(** *** Members *)

Definition removeMember_route (conversationID target : string) (principal : Principal) : H unit :=
  let targetAccountID := TrimSpace target in
  let targetAccountID := if targetAccountID =s? "me" then principal.(pr_AccountID) else targetAccountID in
  ensure (ValidID "acct" targetAccountID) StatusBadRequest "invalid_account_id" ≫= fun _ =>
  events ← run_store (fun m => RemoveConversationMember (m.(mo_now) 0%nat) conversationID principal.(pr_AccountID) targetAccountID);
  let '(remainingMembersEventID, removedMemberEventID) := events in
  let eventType := if targetAccountID =s? principal.(pr_AccountID) then "membership.left"%string else "membership.removed"%string in
  let payload := RMap [("conversation_id", rstr conversationID); ("account_id", rstr targetAccountID); ("mls_coordination", rstr "pending")]%string in
  members ← conversationMemberIDs conversationID;
  announce members eventType remainingMembersEventID conversationID payload ≫= fun _ =>
  announce [targetAccountID] eventType removedMemberEventID conversationID payload ≫= fun _ =>
  recordAuditEvent principal.(pr_AccountID) "conversation.member.removed" [("conversation_id"%string, VStr conversationID)] ≫= fun _ =>
  writeJSON StatusOK (RMap [("status", rstr "membership_removed"); ("mls_coordination", rstr "pending"); ("event_id", rint removedMemberEventID)]%string).

Definition addMember_route (conversationID : string) (r : HttpRequest) (principal : Principal) : H unit :=
  req ← decodeJSON [("account_id", TStr); ("role", TStr)]%string r;
  let target := f_str req "account_id" in
  ensure (negb (target =s? "")) StatusBadRequest "account_id_required" ≫= fun _ =>
  let role := if f_str req "role" =s? "" then RoleMember else f_str req "role" in
  ensure (ValidRole role) StatusBadRequest "invalid_role" ≫= fun _ =>
  eventID ← run_store (fun m => ManageConversationMember (m.(mo_now) 0%nat) conversationID principal.(pr_AccountID) target role);
  members ← conversationMemberIDs conversationID;
  announce members "membership.updated" eventID conversationID
    (RMap [("conversation_id", rstr conversationID); ("account_id", rstr target); ("role", rstr role); ("mls_coordination", rstr "pending")]%string) ≫= fun _ =>
  recordAuditEvent principal.(pr_AccountID) "conversation.member.added" [("conversation_id", VStr conversationID); ("role", VStr role)]%string ≫= fun _ =>
  writeJSON StatusOK (RMap [("status", rstr "membership_updated"); ("mls_coordination", rstr "pending")]%string).

(** *** Reading *)

Definition listMessages_route (conversationID : string) (r : HttpRequest) (principal : Principal) : H unit :=
  let limit := normalizeLimit (messageQueryLimit r) 100 200 in
  let before := TrimSpace (r.(rq_query) "before") in
  let after := TrimSpace (r.(rq_query) "after") in
  ensure ((before =s? "") || (after =s? "")) StatusBadRequest "before_and_after_exclusive" ≫= fun _ =>
  messages ← run_store (fun m => ListMessages (m.(mo_now) 0%nat) conversationID principal.(pr_AccountID) (mkListOptions limit before after));
  let response := [("messages", RList (map REnvelope messages)); ("limit", rint limit)]%string in
  writeJSON StatusOK (RMap (response ++
    match last messages with
    | Some oldest => if Z.of_nat (length messages) =? limit then [("next_before"%string, rstr oldest.(m_ID))] else []
    | None => []
    end)).

Definition allowTyping (accountID conversationID : string) (now : Z) : H bool :=
  step (fun _ s => let '(ok, t) := allow (accountID +:+ nul +:+ conversationID)%string now s.(sv_typing) in (ok, set_typing t s)).

Definition typing_route (conversationID : string) (principal : Principal) : H unit :=
  isMember ← query (fun d => is_member d conversationID principal.(pr_AccountID));
  ensure isMember StatusForbidden "forbidden" ≫= fun _ =>
  applies ← run_store_or (fun _ => ReceiptsApply conversationID) (fun _ => writeError StatusInternalServerError "typing_publish_failed");
  if negb applies then noContent
  else
    now ← time_now;
    allowed ← allowTyping principal.(pr_AccountID) conversationID now;
    if negb allowed then writeErrorAfter 1 StatusTooManyRequests "typing_rate_limited"
    else
      members ← query (fun d => ReceiptRecipients d conversationID principal.(pr_AccountID));
      now ← time_now;
      publish members (event "typing.updated" 0 conversationID (RMap [("account_id"%string, rstr principal.(pr_AccountID))]) now) ≫= fun _ =>
      noContent.

(** *** Notifications *)

(** [Truncate(time.Second)] of a time. *)
Definition truncate_second (t : Z) : Z := t - t mod second.

Definition setMute_route (conversationID : string) (r : HttpRequest) (principal : Principal) : H unit :=
  req ← decodeJSON [("muted", TOptBool); ("muted_until", TOptTime); ("muted_for_seconds", TOptInt)]%string r;
  match f_optbool req "muted" with
  | None => writeError StatusBadRequest "muted_required"
  | Some muted =>
    until ← (match (if muted then f_optint req "muted_for_seconds" else None), (if muted then f_opttime req "muted_until" else None) with
             | Some n, _ =>
               ensure (negb ((n <=? 0) || (Z.quot MaxMuteDuration second <? n))) StatusBadRequest "muted_until_invalid" ≫= fun _ =>
               now ← time_now;
               mret (Some (truncate_second (time_add now (wrap64 (n * second)))))
             | None, Some t => mret (Some (truncate_second t))
             | None, None => mret None
             end);
    run_store_or (fun m => SetConversationNotificationMute (m.(mo_now) 0%nat) conversationID principal.(pr_AccountID) muted until)
      (fun err => match err with
        | ErrInvalidInput => writeError StatusBadRequest "muted_until_invalid"
        | _ => handleStorageError err
        end) ≫= fun _ =>
    writeJSON StatusOK (RMute (mkNotificationMute muted until))
  end.

(** *** Read receipts *)

Definition markRead_route (conversationID : string) (r : HttpRequest) (principal : Principal) : H unit :=
  req ← decodeJSON [("message_id", TStr); ("private", TBool)]%string r;
  let messageID := f_str req "message_id" in
  ensure (negb (messageID =s? "")) StatusBadRequest "message_id_required" ≫= fun _ =>
  if f_bool req "private" then
    run_store (fun m => MarkReadPrivate (m.(mo_now) 0%nat) conversationID principal.(pr_AccountID) messageID) ≫= fun _ => noContent
  else
    eventID ← run_store (fun m => MarkReadWithSyncEvent (m.(mo_now) 0%nat) conversationID principal.(pr_AccountID) messageID);
    if eventID =? 0 then noContent
    else
      members ← receiptRecipientsWithSelf conversationID principal.(pr_AccountID);
      announce members "read_receipt.updated" eventID conversationID (RMap [("account_id", rstr principal.(pr_AccountID)); ("message_id", rstr messageID)]%string) ≫= fun _ =>
      noContent.

(** *** Settings *)

Definition retention_route (conversationID : string) (r : HttpRequest) (principal : Principal) : H unit :=
  req ← decodeJSON [("retention_seconds"%string, TOptInt)] r;
  let retention := f_optint req "retention_seconds" in
  ensure (validRetention retention) StatusBadRequest "invalid_retention_seconds" ≫= fun _ =>
  x ← run_store (fun m => UpdateConversationRetentionWithSyncEvent (m.(mo_now) 0%nat) conversationID principal.(pr_AccountID) retention);
  let '(conversation, eventID) := x in
  recordAuditEvent principal.(pr_AccountID) "conversation.retention.updated"
    (("conversation_id"%string, VStr conversationID) :: optional retention (fun n => ("retention_seconds"%string, VInt n))) ≫= fun _ =>
  members ← conversationMemberIDs conversationID;
  announce members "retention.updated" eventID conversationID (RConversation conversation) ≫= fun _ =>
  writeJSON StatusOK (RConversation conversation).

Definition postingPolicy_route (conversationID : string) (r : HttpRequest) (principal : Principal) : H unit :=
  req ← decodeJSON [("policy"%string, TStr)] r;
  let policy := f_str req "policy" in
  ensure ((policy =s? PostingPolicyEveryone) || (policy =s? PostingPolicyAdmins)) StatusBadRequest "invalid_posting_policy" ≫= fun _ =>
  x ← run_store_or (fun m => SetConversationPostingPolicy (m.(mo_now) 0%nat) conversationID principal.(pr_AccountID) policy)
    (fun err => match err with
      | ErrInvalidInput => writeError StatusBadRequest "posting_policy_not_supported"
      | _ => handleStorageError err
      end);
  let '(conversation, eventID) := x in
  recordAuditEvent principal.(pr_AccountID) "conversation.posting_policy.updated" [("conversation_id", VStr conversationID); ("policy", VStr policy)]%string ≫= fun _ =>
  members ← conversationMemberIDs conversationID;
  announce members "conversation.posting_policy.updated" eventID conversationID (RConversation conversation) ≫= fun _ =>
  writeJSON StatusOK (RConversation conversation).

Definition put_or_patch (r : HttpRequest) : bool := (r.(rq_method) =s? "PUT") || (r.(rq_method) =s? "PATCH").

Definition conversationSubroute (r : HttpRequest) (principal : Principal) : H unit :=
  match Split (TrimPrefix (rq_path r) "/api/v1/conversations/") "/" with
  | [conversationID; part; target] =>
    if (part =s? "members") && (r.(rq_method) =s? "DELETE") then removeMember_route conversationID target principal else not_found
  | [conversationID; part] =>
    if (part =s? "members") && (r.(rq_method) =s? "GET") then
      members ← run_store (fun _ => ListConversationMembers conversationID principal.(pr_AccountID));
      writeJSON StatusOK (RMap [("members"%string, RList (map RMembership members))])
    else if (part =s? "members") && (r.(rq_method) =s? "POST") then addMember_route conversationID r principal
    else if (part =s? "messages") && (r.(rq_method) =s? "GET") then listMessages_route conversationID r principal
    else if (part =s? "typing") && (r.(rq_method) =s? "POST") then typing_route conversationID principal
    else if (part =s? "notifications") && (r.(rq_method) =s? "GET") then
      mute ← run_store (fun m => ConversationNotificationMute (m.(mo_now) 0%nat) conversationID principal.(pr_AccountID));
      writeJSON StatusOK (RMute mute)
    else if (part =s? "notifications") && put_or_patch r then setMute_route conversationID r principal
    else if (part =s? "read-receipts") && (r.(rq_method) =s? "GET") then
      receipts ← run_store (fun _ => ConversationReceipts conversationID principal.(pr_AccountID));
      writeJSON StatusOK (RMap [("receipts"%string, RList (map RReceipt receipts))])
    else if (part =s? "read-receipts") && (r.(rq_method) =s? "POST") then markRead_route conversationID r principal
    else if (part =s? "retention") && put_or_patch r then retention_route conversationID r principal
    else if (part =s? "posting-policy") && put_or_patch r then postingPolicy_route conversationID r principal
    else not_found
  | _ => not_found
  end.

(** ** Messages *)

Definition messageEnvelopeRequest : struct :=
  [("conversation_id", TStr); ("idempotency_key", TStr); ("ciphertext", TBytes); ("crypto_protocol", TStr); ("crypto_metadata", TRaw);
   ("attachment_refs", TRaw); ("reply_to_id", TOptStr); ("thread_root_id", TOptStr); ("expires_at", TOptTime)]%string.

Definition productionMessageCryptoProtocol : string := "mls10-openmls-v1".

(** [messaging.Service.Create]: a duplicate has no recipients. *)
Record CreateResult := mkCreateResult { cr_Envelope : MessageEnvelope; cr_Recipients : list string; cr_EventID : Z; cr_Duplicate : bool }.

Definition Create (newID : string) (now : Z) (envelope : MessageEnvelope) : Tx CreateResult :=
  saved ← SaveMessageEnvelopeWithSyncEventAndRecipients newID now envelope;
  mret (mkCreateResult saved.(sv_envelope) (if saved.(sv_duplicate) then [] else saved.(sv_recipients)) saved.(sv_event) saved.(sv_duplicate)).

(** A body that may not carry plaintext. *)
Definition readCiphertextJSON (st : struct) (r : HttpRequest) : H fields :=
  raw ← readLimitedJSON r;
  if containsPlaintextMessageKey raw then writeError StatusBadRequest "plaintext_message_fields_forbidden" else decodeInto st raw.

Definition draft (req : fields) (principal : Principal) : MessageEnvelope :=
  mkMessageEnvelope "" (f_str req "conversation_id") principal.(pr_AccountID) principal.(pr_DeviceID) (f_str req "idempotency_key") (f_bytes req "ciphertext")
    (f_str req "crypto_protocol") (f_raw req "crypto_metadata") (f_raw req "attachment_refs") (f_optstr req "reply_to_id") (f_optstr req "thread_root_id")
    0 None None (f_opttime req "expires_at").

Definition createMessageEnvelope (r : HttpRequest) (principal : Principal) : H unit :=
  req ← readCiphertextJSON messageEnvelopeRequest r;
  ensure (negb (principal.(pr_DeviceID) =s? "")) StatusBadRequest "device_session_required" ≫= fun _ =>
  ensure (negb ((f_str req "conversation_id" =s? "") || (f_str req "idempotency_key" =s? "") || (blen (f_bytes req "ciphertext") =? 0) ||
                negb (f_str req "crypto_protocol" =s? productionMessageCryptoProtocol))) StatusBadRequest "invalid_encrypted_envelope" ≫= fun _ =>
  ensure (negb ((128 <? blen (f_str req "idempotency_key")) || (64 <? blen (f_str req "crypto_protocol")))) StatusBadRequest "invalid_encrypted_envelope" ≫= fun _ =>
  (match f_opttime req "expires_at" with
   | Some t => now ← time_now; ensure (time_after t now) StatusBadRequest "invalid_expires_at"
   | None => mret tt
   end) ≫= fun _ =>
  result ← run_store (fun m => Create (m.(mo_id) 0%nat) (m.(mo_now) 0%nat) (draft req principal));
  (if negb result.(cr_Duplicate)
   then announce result.(cr_Recipients) "message.envelope.created" result.(cr_EventID) result.(cr_Envelope).(m_ConversationID) (REnvelope result.(cr_Envelope))
   else mret tt) ≫= fun _ =>
  writeJSON (if result.(cr_Duplicate) then StatusOK else StatusCreated) (REnvelope result.(cr_Envelope)).

Definition encryptedMessageMutationRequest : struct := [("ciphertext", TBytes); ("crypto_protocol", TStr); ("crypto_metadata", TRaw)]%string.

Definition decodeEncryptedMutation (r : HttpRequest) : H fields :=
  req ← readCiphertextJSON encryptedMessageMutationRequest r;
  ensure (negb ((blen (f_bytes req "ciphertext") =? 0) || negb (f_str req "crypto_protocol" =s? productionMessageCryptoProtocol)))
    StatusBadRequest "invalid_encrypted_marker" ≫= fun _ =>
  mret req.

Definition publishMessageEvent (eventType : string) (eventID : Z) (envelope : MessageEnvelope) : H unit :=
  members ← conversationRecipientsForSender envelope.(m_ConversationID) envelope.(m_SenderAccountID);
  announce members eventType eventID envelope.(m_ConversationID) (REnvelope envelope).

Definition announceReaction (eventType messageID conversationID : string) (eventID : Z) (principal : Principal) : H unit :=
  members ← conversationRecipientsForSender conversationID principal.(pr_AccountID);
  announce members eventType eventID conversationID (RMap [("message_id", rstr messageID); ("account_id", rstr principal.(pr_AccountID))]%string).

Definition createReaction_route (messageID : string) (r : HttpRequest) (principal : Principal) : H unit :=
  req ← readCiphertextJSON [("reaction_ciphertext", TBytes); ("crypto_protocol", TStr)]%string r;
  ensure (negb ((blen (f_bytes req "reaction_ciphertext") =? 0) || negb (f_str req "crypto_protocol" =s? productionMessageCryptoProtocol)))
    StatusBadRequest "reaction_ciphertext_required" ≫= fun _ =>
  x ← run_store (fun m => CreateReactionWithSyncEvent (m.(mo_id) 0%nat) (m.(mo_now) 0%nat) (m.(mo_now) 1%nat) messageID principal.(pr_AccountID) (f_bytes req "reaction_ciphertext"));
  announceReaction "reaction.created" messageID x.1 x.2 principal ≫= fun _ =>
  noContent.

Definition messageSubroute (r : HttpRequest) (principal : Principal) : H unit :=
  match Split (TrimPrefix (rq_path r) "/api/v1/messages/") "/" with
  | [id] =>
    if negb (id =s? "") && (r.(rq_method) =s? "GET") then
      envelope ← run_store (fun m => MessageForAccount (m.(mo_now) 0%nat) id principal.(pr_AccountID));
      writeJSON StatusOK (REnvelope envelope)
    else not_found
  | [messageID; part] =>
    if (part =s? "edit") && (r.(rq_method) =s? "POST") then
      req ← decodeEncryptedMutation r;
      x ← run_store (fun m => UpdateMessageEnvelopeWithSyncEvent (m.(mo_now) 0%nat) messageID principal.(pr_AccountID) (f_bytes req "ciphertext") (f_str req "crypto_protocol") (f_raw req "crypto_metadata"));
      publishMessageEvent "message.envelope.edited" x.2 x.1 ≫= fun _ =>
      writeJSON StatusOK (REnvelope x.1)
    else if (part =s? "delete") && (r.(rq_method) =s? "POST") then
      req ← decodeEncryptedMutation r;
      x ← run_store (fun m => DeleteMessageEnvelopeWithSyncEvent (m.(mo_now) 0%nat) messageID principal.(pr_AccountID) (f_bytes req "ciphertext") (f_str req "crypto_protocol") (f_raw req "crypto_metadata"));
      publishMessageEvent "message.envelope.deleted" x.2 x.1 ≫= fun _ =>
      writeJSON StatusOK (REnvelope x.1)
    else if (part =s? "reactions") && (r.(rq_method) =s? "GET") then
      reactions ← run_store (fun m => ListReactions (m.(mo_now) 0%nat) messageID principal.(pr_AccountID));
      writeJSON StatusOK (RMap [("reactions"%string, RList (map RReaction reactions))])
    else if (part =s? "reactions") && (r.(rq_method) =s? "DELETE") then
      x ← run_store (fun m => DeleteReactionWithSyncEvent (m.(mo_now) 0%nat) (m.(mo_now) 1%nat) messageID principal.(pr_AccountID));
      announceReaction "reaction.deleted" messageID x.1 x.2 principal ≫= fun _ =>
      noContent
    else if (part =s? "reactions") && (r.(rq_method) =s? "POST") then createReaction_route messageID r principal
    else not_found
  | _ => not_found
  end.

(** ** Blocks and the receipt setting *)

Definition listAccountBlocks (r : HttpRequest) (principal : Principal) : H unit :=
  blocks ← query (fun d => ListBlockedAccounts d principal.(pr_AccountID));
  writeJSON StatusOK (RMap [("blocks"%string, RList (map RBlock blocks))]).

Definition blockAccount (r : HttpRequest) (principal : Principal) : H unit :=
  block ← run_store (fun m => BlockAccount (m.(mo_now) 0%nat) principal.(pr_AccountID) (TrimSpace (r.(rq_pathValue) "id")));
  recordAuditEvent principal.(pr_AccountID) "account.blocked" [] ≫= fun _ =>
  writeJSON StatusOK (RBlock block).

Definition unblockAccount (r : HttpRequest) (principal : Principal) : H unit :=
  run_store (fun _ => UnblockAccount principal.(pr_AccountID) (TrimSpace (r.(rq_pathValue) "id"))) ≫= fun _ =>
  recordAuditEvent principal.(pr_AccountID) "account.unblocked" [] ≫= fun _ =>
  noContent.

Definition enabled_reply (b : bool) : Reply := RMap [("enabled"%string, rbool b)].

Definition getReadReceiptsSetting (r : HttpRequest) (principal : Principal) : H unit :=
  enabled ← run_store (fun _ => ReadReceiptsEnabled principal.(pr_AccountID));
  writeJSON StatusOK (enabled_reply enabled).

Definition putReadReceiptsSetting (r : HttpRequest) (principal : Principal) : H unit :=
  req ← decodeJSON [("enabled"%string, TOptBool)] r;
  match f_optbool req "enabled" with
  | None => writeError StatusBadRequest "enabled_required"
  | Some enabled =>
    run_store (fun _ => SetReadReceiptsEnabled principal.(pr_AccountID) enabled) ≫= fun _ =>
    writeJSON StatusOK (enabled_reply enabled)
  end.
End handlers.
