(* ===== verification/GroupHandlers.v ===== *)
(** * MLS groups and key packages

    [internal/httpapi/mls_handlers.go] and [key_package_handlers.go]. *)

From S2P Require Import Prelude GoStrings GoStrconv Admission RateLimiter Hub Domain Database Conversations Mls MlsGroups Bodies Http.
From stdpp Require Import base numbers list strings gmap fin_maps.
From Stdlib Require Import Ascii ZArith ZifyBool Lia.
Open Scope Z_scope.

Section handlers.
Context {NET : Network} {FLT : Float64} {RUN : GoRuntime}.

(** A body of at most [limit] bytes that may not be blank. *)
Definition decodeLimited (limit : Z) (st : struct) (r : HttpRequest) : H fields :=
  raw ← readAll limit r;
  match raw with None => writeError StatusBadRequest "invalid_body" | Some raw => decodeInto st raw end.

Definition requireDevice (principal : Principal) : H unit := ensure (negb (principal.(pr_DeviceID) =s? "")) StatusBadRequest "device_session_required".

(** To the accounts that the requester sees as members; to nobody when it may
    not list them. *)
Definition toMembers (conversationID requesterAccountID : string) (e : Event) : H unit :=
  members ← call (fun _ => ListConversationMembers conversationID requesterAccountID);
  match members with Ok l => publishCommittedEvent (map mem_AccountID l) e | Err _ => mret tt end.

Definition publishRevocationCompleted (conversationID requesterAccountID revokedDeviceID : string) (eventID : Z) : H unit :=
  if eventID <=? 0 then mret tt
  else
    members ← call (fun _ => ListConversationMembers conversationID requesterAccountID);
    match members with
    | Ok l => announce (map mem_AccountID l) "mls.revocation.completed" eventID conversationID (RMap [("device_id"%string, rstr revokedDeviceID)])
    | Err _ => mret tt
    end.

Definition messageCreated (conversationID : string) (message : MLSMessage) (kind : string) : Event :=
  event "mls.message.created" message.(ml_SyncEventID) conversationID (RMap [("mls_message_id", rstr message.(ml_ID)); ("kind", rstr kind)]%string)
    message.(ml_CreatedAt).

(** ** Messages *)

Definition createMLSMessageRequest : struct :=
  [("kind", TStr); ("recipient_device_id", TStr); ("revocation_device_id", TStr); ("payload", TBytes); ("idempotency_key", TStr)]%string.

Definition createMLSMessage (r : HttpRequest) (principal : Principal) : H unit :=
  requireDevice principal ≫= fun _ =>
  let conversationID := TrimSpace (r.(rq_pathValue) "id") in
  request ← decodeLimited (Z.shiftl 6 20) createMLSMessageRequest r;
  x ← run_store (fun m => CreateMLSMessage (m.(mo_id) 0%nat) (m.(mo_now) 0%nat)
        (mkMLSInput conversationID principal.(pr_AccountID) principal.(pr_DeviceID) (f_str request "recipient_device_id") (f_str request "revocation_device_id")
           (f_str request "kind") (f_bytes request "payload") (f_str request "idempotency_key")));
  let '(message, duplicate) := x in
  (if (duplicate : bool) then mret tt
   else
     toMembers conversationID principal.(pr_AccountID) (messageCreated message.(ml_ConversationID) message message.(ml_Kind)) ≫= fun _ =>
     publishRevocationCompleted conversationID principal.(pr_AccountID) message.(ml_RevocationDeviceID) message.(ml_RevocationCompletedEventID)) ≫= fun _ =>
  writeJSON (if (duplicate : bool) then StatusOK else StatusCreated) (RMap [("mls_message"%string, RMLSMessage message)]).

Definition getMLSMessage (r : HttpRequest) (principal : Principal) : H unit :=
  requireDevice principal ≫= fun _ =>
  message ← run_store (fun _ => MLSMessage_get (TrimSpace (r.(rq_pathValue) "id")) principal.(pr_AccountID) principal.(pr_DeviceID));
  writeJSON StatusOK (RMap [("mls_message"%string, RMLSMessage message)]).

Definition listMLSMessages (r : HttpRequest) (principal : Principal) : H unit :=
  requireDevice principal ≫= fun _ =>
  let after := ParseInt_value (r.(rq_query) "after") in
  let limit := ParseInt_value (r.(rq_query) "limit") in
  ensure (negb (after <? 0)) StatusBadRequest "invalid_cursor" ≫= fun _ =>
  messages ← query (fun d => ListMLSMessages d principal.(pr_AccountID) principal.(pr_DeviceID) after limit);
  now ← time_now;
  writeJSON StatusOK (RMap [("mls_messages", RList (map RMLSMessage messages)); ("server_time", rtime now)]%string).

(** ** Revocations *)

Definition listMLSRevocations (r : HttpRequest) (principal : Principal) : H unit :=
  requireDevice principal ≫= fun _ =>
  items ← query (fun d => ListMLSRevocations d principal.(pr_AccountID) principal.(pr_DeviceID));
  writeJSON StatusOK (RMap [("mls_revocations"%string, RList (map RMLSRevocation items))]).

Definition confirmMLSRevocation (r : HttpRequest) (principal : Principal) : H unit :=
  requireDevice principal ≫= fun _ =>
  let conversationID := TrimSpace (r.(rq_pathValue) "id") in
  let revokedDeviceID := TrimSpace (r.(rq_pathValue) "device_id") in
  eventID ← run_store (fun m => ConfirmMLSRevocation (m.(mo_now) 0%nat) (m.(mo_now) 1%nat) conversationID revokedDeviceID principal.(pr_AccountID) principal.(pr_DeviceID));
  publishRevocationCompleted conversationID principal.(pr_AccountID) revokedDeviceID eventID ≫= fun _ =>
  noContent.

(** ** Commits *)

Definition deviceRefs : list (string * rowtype) := [("account_id", RowStr); ("device_id", RowStr)]%string.
Definition device_ref (r : row) : MLSDeviceRef := mkMLSDeviceRef (row_str r "account_id") (row_str r "device_id").

Definition commitBundleRequest : struct :=
  [("epoch", TOptInt); ("idempotency_key", TStr); ("commit", TBytes); ("welcome", TBytes); ("added", TRows deviceRefs); ("removed", TRows deviceRefs);
   ("revocation_device_id", TStr)]%string.

(** The account of the last added device of that id. *)
Definition welcome_account (added : list MLSDeviceRef) (deviceID : string) : string :=
  foldl (fun acc ref => if ref.(ref_DeviceID) =s? deviceID then ref.(ref_AccountID) else acc) ""%string added.

Fixpoint announce_welcomes (conversationID : string) (added : list MLSDeviceRef) (welcomes : list MLSMessage) : H unit :=
  match welcomes with
  | [] => mret tt
  | welcome :: welcomes =>
    publishCommittedEvent [welcome_account added welcome.(ml_RecipientDeviceID)] (messageCreated conversationID welcome "welcome") ≫= fun _ =>
    announce_welcomes conversationID added welcomes
  end.

Definition createMLSCommitBundle (r : HttpRequest) (principal : Principal) : H unit :=
  requireDevice principal ≫= fun _ =>
  let conversationID := TrimSpace (r.(rq_pathValue) "id") in
  request ← decodeLimited (Z.shiftl 12 20) commitBundleRequest r;
  let added := map device_ref (f_rows request "added") in
  match f_optint request "epoch" with
  | None => writeError StatusBadRequest "invalid_input"
  | Some epoch =>
    result ← run_store_or (fun m => CreateMLSCommitBundle (fun i => m.(mo_id) (Z.to_nat i)) (m.(mo_now) 0%nat)
        (mkBundle conversationID principal.(pr_AccountID) principal.(pr_DeviceID) epoch (f_str request "idempotency_key") (f_bytes request "commit")
           (f_bytes request "welcome") added (map device_ref (f_rows request "removed")) (f_str request "revocation_device_id")))
      (fun err => match err with
        | ErrMLSEpochConflict =>
          current ← run_store_or (fun _ => read (fun d => default 0 (mlsGroupEpoch d conversationID)))
            (fun _ => writeError StatusInternalServerError "storage_error");
          writeJSON StatusConflict (RMap [("error", rstr "mls_epoch_conflict"); ("epoch", rint current)]%string)
        | ErrMLSSelfUpdateLimit wait => writeErrorAfter (Z.max 1 (ceil_seconds wait)) StatusTooManyRequests "mls_self_update_limit"
        | _ => handleStorageError err
        end);
    (match result.(br_Commit) with
     | Some commit =>
       if result.(br_Duplicate) then mret tt
       else
         toMembers conversationID principal.(pr_AccountID) (messageCreated conversationID commit "commit") ≫= fun _ =>
         announce_welcomes conversationID added result.(br_Welcomes) ≫= fun _ =>
         publishRevocationCompleted conversationID principal.(pr_AccountID) (f_str request "revocation_device_id") result.(br_RevocationCompletedEventID)
     | None => mret tt
     end) ≫= fun _ =>
    writeJSON (if result.(br_Duplicate) then StatusOK else StatusCreated)
      (RMap (("epoch"%string, rint result.(br_Epoch)) :: match result.(br_Commit) with Some m => [("mls_message"%string, RMLSMessage m)] | None => [] end))
  end.

Definition listMLSPendingChanges (r : HttpRequest) (principal : Principal) : H unit :=
  requireDevice principal ≫= fun _ =>
  x ← run_store (fun m => ListMLSPendingChangesRead (m.(mo_now) 0%nat) principal.(pr_AccountID) principal.(pr_DeviceID));
  writeJSON StatusOK (RMap [("pending_changes", RList (map RMLSPendingChange x.1)); ("list_truncated", rbool x.2)]%string).

(** ** Key packages *)

Definition keyPackagesRequest : struct := [("key_packages"%string, TRows [("key_package", RowBytes); ("ciphersuite", RowStr); ("expires_at", RowTime)]%string)].

Definition package_ok (now : Z) (item : row) : bool :=
  validDeviceKeyPackage (row_bytes item "key_package") && (TrimSpace (row_str item "ciphersuite") =s? openMLSCiphersuite) &&
  negb (time_before (row_time item "expires_at") (time_add now hour)) && negb (time_after (row_time item "expires_at") (time_add now (30 * 24 * hour))).

Definition publishDeviceKeyPackages (r : HttpRequest) (principal : Principal) : H unit :=
  requireDevice principal ≫= fun _ =>
  request ← decodeJSON keyPackagesRequest r;
  let items := f_rows request "key_packages" in
  ensure (negb ((len items =? 0) || (10 <? len items))) StatusBadRequest "invalid_key_packages" ≫= fun _ =>
  now ← time_now;
  ensure (forallb (package_ok now) items) StatusBadRequest "invalid_key_packages" ≫= fun _ =>
  created ← run_store_or (fun m => PublishDeviceKeyPackages (fun i => m.(mo_id) (Z.to_nat i)) (m.(mo_now) 0%nat) (m.(mo_now) 1%nat) principal.(pr_DeviceID)
      (map (fun item => mkNewDeviceKeyPackage (row_bytes item "key_package") openMLSCiphersuite (row_time item "expires_at")) items))
    (fun err => match err with ErrStorageQuota => writeError StatusConflict "key_package_quota_exceeded" | _ => handleStorageError err end);
  writeJSON StatusCreated (RMap [("key_packages"%string, RList (map RKeyPackage created))]).

Definition claimConversationKeyPackages (r : HttpRequest) (principal : Principal) : H unit :=
  requireDevice principal ≫= fun _ =>
  let conversationID := TrimSpace (r.(rq_pathValue) "id") in
  ensure (negb (conversationID =s? "")) StatusBadRequest "invalid_conversation_id" ≫= fun _ =>
  request ← (if r.(rq_contentLength) =? 0 then mret ∅
             else
               raw ← readAll (Z.shiftl 64 10) r;
               match raw with
               | None => writeError StatusBadRequest "invalid_body"
               | Some raw => if TrimSpace raw =s? "" then mret ∅ else decodeInto [("device_ids"%string, TStrs)] raw
               end : H fields);
  let deviceIDs := f_strs request "device_ids" in
  packages ← run_store_or (fun m =>
      match deviceIDs with
      | [] => ClaimConversationKeyPackages (m.(mo_now) 0%nat) conversationID principal.(pr_AccountID) principal.(pr_DeviceID)
      | _ => ClaimDeviceKeyPackages (m.(mo_now) 0%nat) conversationID principal.(pr_AccountID) principal.(pr_DeviceID) deviceIDs
      end)
    (fun err => match err with
      | ErrKeyPackageUnavailable => writeError StatusConflict "key_package_unavailable"
      | ErrKeyPackageClaimLimit => writeErrorAfter 3600 StatusTooManyRequests "key_package_claim_limit"
      | _ => handleStorageError err
      end);
  writeJSON StatusOK (RMap [("key_packages"%string, RList (map RKeyPackage packages))]).
End handlers.
