(* ===== verification/SyncHandlers.v ===== *)
(** * Calls, sync streams, search and sockets

    [internal/httpapi/call_sync_handlers.go] (the account export excepted) and
    [scoped_sync_handlers.go], and the delivery write of [receipts.go].
    [sync_epoch] is the epoch the database was created with. *)

From S2P Require Import Prelude GoStrings GoStrconv GoBase64 GoJson Admission RateLimiter Hub Domain Database Conversations Sync Calls Receipts Deliveries Sessions DeviceLinks Accounts Listings Bodies Http.
From stdpp Require Import base numbers list strings gmap fin_maps.
From Stdlib Require Import Ascii ZArith ZifyBool Lia.
Open Scope Z_scope.

Section handlers.
Context {NET : Network} {FLT : Float64} {RUN : GoRuntime} {CRY : GoCrypto} {NIP : Netip}.
Context (sync_epoch : string) (a : API).

(** ** Calls *)

Definition callConfig (r : HttpRequest) (principal : Principal) : H unit :=
  if bool_decide (a.(api_TURNURLs) = []) || (a.(api_TURNSharedSecret) =s? "")
  then writeJSON StatusOK (RMap [("enabled", rbool false); ("ice_servers", RList [])]%string)
  else
    now ← time_now;
    let expires := time_add now (10 * minute) in
    let username := (Itoa (unix_of expires) +:+ ":" +:+ principal.(pr_AccountID))%string in
    let credential := Base64.EncodeToString Base64.StdEncoding (hmac_sha1 a.(api_TURNSharedSecret) username) in
    writeJSON StatusOK (RMap [("enabled", rbool true);
      ("ice_servers", RList [RMap [("urls", RList (map rstr a.(api_TURNURLs))); ("username", rstr username); ("credential", rstr credential)]]);
      ("expires_at", rtime expires)]%string).

Definition callMetadataSenderDevice (raw : string) : string :=
  match Unmarshal_struct [("sender_device_id"%string, TStr)] raw with Some f => f_str f "sender_device_id" | None => "" end.

Definition callEnvelope : struct := [("version", TInt); ("ciphertext", TBytes); ("protocol", TStr); ("sender_device_id", TStr); ("action_id", TStr)]%string.

Definition validCallMetadata (raw : string) : bool :=
  if blen raw =? 0 then true
  else if (Z.shiftl 64 10 <? blen raw) || containsPlaintextMessageKey raw then false
  else
    match Unmarshal_names raw, Unmarshal_struct callEnvelope raw with
    | Some names, Some envelope =>
      bool_decide (length names = 5%nat) && forallb (fun name => bool_decide (name ∈ names)) ["version"; "ciphertext"; "protocol"; "sender_device_id"; "action_id"]%string &&
      (f_int envelope "version" =? 1) && (0 <? blen (f_bytes envelope "ciphertext")) && (blen (f_bytes envelope "ciphertext") <=? Z.shiftl 48 10) &&
      (f_str envelope "protocol" =s? "mls10-openmls-v1") && (0 <? blen (f_str envelope "sender_device_id")) && (blen (f_str envelope "sender_device_id") <=? 128) &&
      (0 <? blen (f_str envelope "action_id")) && (blen (f_str envelope "action_id") <=? 128)
    | _, _ => false
    end.

Definition callMetadata_ok (metadata : string) (principal : Principal) : bool :=
  validCallMetadata metadata && (callMetadataSenderDevice metadata =s? principal.(pr_DeviceID)).

Definition createCall (r : HttpRequest) (principal : Principal) : H unit :=
  req ← decodeJSON [("conversation_id", TStr); ("metadata", TRaw)]%string r;
  ensure (callMetadata_ok (f_raw req "metadata") principal) StatusBadRequest "invalid_call_metadata" ≫= fun _ =>
  x ← run_store (fun m => CreateCallSessionWithSyncEvent HashToken (m.(mo_id) 0%nat) (m.(mo_now) 0%nat) (f_str req "conversation_id") principal.(pr_AccountID) (f_raw req "metadata"));
  members ← conversationRecipientsForSender (f_str req "conversation_id") principal.(pr_AccountID);
  announce members "call.signaling" x.2 (f_str req "conversation_id") (RCall x.1) ≫= fun _ =>
  writeJSON StatusCreated (RCall x.1).

Definition listCalls (r : HttpRequest) (principal : Principal) : H unit :=
  let conversationID := TrimSpace (r.(rq_query) "conversation_id") in
  ensure (negb (conversationID =s? "")) StatusBadRequest "conversation_id_required" ≫= fun _ =>
  calls ← run_store (fun _ => ListCallSessions conversationID principal.(pr_AccountID) 100);
  writeJSON StatusOK (RMap [("calls"%string, RList (map RCall calls))]).

Definition callStateRequest : struct := [("state", TStr); ("expected_version", TInt); ("metadata", TRaw)]%string.

Definition callState_route (callID : string) (r : HttpRequest) (principal : Principal) : H unit :=
  req ← decodeJSON callStateRequest r;
  ensure (0 <? f_int req "expected_version") StatusBadRequest "invalid_call_version" ≫= fun _ =>
  let metadata := f_raw req "metadata" in
  ensure ((blen metadata =? 0) || callMetadata_ok metadata principal) StatusBadRequest "invalid_call_metadata" ≫= fun _ =>
  x ← run_store (fun m => TransitionCallSessionWithSyncEvent HashToken (m.(mo_now) 0%nat) (m.(mo_now) 1%nat) callID principal.(pr_AccountID) (f_int req "expected_version")
        (f_str req "state") metadata);
  members ← conversationRecipientsForSender x.1.(call_ConversationID) principal.(pr_AccountID);
  announce members "call.state" x.2 x.1.(call_ConversationID) (RCall x.1) ≫= fun _ =>
  writeJSON StatusOK (RCall x.1).

Definition callSubroute (r : HttpRequest) (principal : Principal) : H unit :=
  let not_found := writeError StatusNotFound "not_found" in
  match Split (Trim (TrimPrefix (rq_path r) "/api/v1/calls/") "/") "/" with
  | [callID; part] => if negb (callID =s? "") && (part =s? "state") && (r.(rq_method) =s? "POST") then callState_route callID r principal else not_found
  | _ => not_found
  end.

(** ** Deliveries *)

Definition deliveryCandidates (order : gmap string (string * Z) -> list string) (accountID : string) (events : list SyncEvent) : H (list DeliveryAdvance) :=
  r ← call (fun _ => read (fun d => DeliveryCandidates order d accountID events));
  mret (match r with Ok l => l | Err _ => [] end).

(** The step under the queue's lock; a worker it starts runs by itself. *)
Definition queueDeliveries (accountID : string) (candidates : list DeliveryAdvance) : H unit :=
  step (fun _ s => (tt, set_deliveries (recordDeliveredAsync accountID candidates s.(sv_deliveries)).2 s)).

Fixpoint tell_moved (accountID : string) (moved : list DeliveryAdvance) : H unit :=
  match moved with
  | [] => mret tt
  | advance :: moved =>
    r ← call (fun _ => read (fun d => ReceiptRecipients d advance.(da_ConversationID) accountID));
    (match r with
     | Err _ => mret tt
     | Ok members =>
       now ← time_now;
       publish members (event "delivery_receipt.updated" 0 advance.(da_ConversationID)
         (RMap [("account_id", rstr accountID); ("message_id", rstr advance.(da_MessageID))]%string) now)
     end) ≫= fun _ => tell_moved accountID moved
  end.

Definition writeDeliveries (accountID : string) (candidates : list DeliveryAdvance) : H bool :=
  r ← call (fun _ => ApplyDeliveries accountID candidates);
  match r with
  | Err _ => mret false
  | Ok moved => tell_moved accountID moved ≫= fun _ => mret true
  end.

(** ** Sync *)

(** A read that may fail. *)
Definition reading {A} (f : DB -> result store_error A) : Tx A := fun s => (f s.(db), s).

Definition bounds_reply (bounds : string * Z * Z) : list (string * Reply) :=
  [("sync_epoch", rstr bounds.1.1); ("oldest_event_id", rint bounds.1.2); ("latest_event_id", rint bounds.2)]%string.

Definition syncBounds (principal : Principal) : H (string * Z * Z) :=
  run_store_or (fun m => read (fun d => SyncBounds sync_epoch d (m.(mo_now) 0%nat) principal.(pr_AccountID)))
    (fun _ => writeError StatusInternalServerError "sync_events_failed").

(** The order in which Go visits the conversations of a page. *)
Context (visit : gmap string (string * Z) -> list string).

Definition syncEvents (r : HttpRequest) (principal : Principal) : H unit :=
  let after := ParseInt_value (r.(rq_query) "after") in
  let limit := ParseInt_value (r.(rq_query) "limit") in
  events ← run_store_or (fun m => reading (fun d => ListSyncEvents d (m.(mo_now) 0%nat) principal.(pr_AccountID) principal.(pr_DeviceID) after limit))
    (fun err => match err with
      | ErrSyncCursorExpired =>
        bounds ← syncBounds principal;
        writeJSON StatusConflict (RMap (("error"%string, rstr "device_recovery_required") :: bounds_reply bounds))
      | _ => writeError StatusInternalServerError "sync_events_failed"
      end);
  bounds ← syncBounds principal;
  candidates ← deliveryCandidates visit principal.(pr_AccountID) events;
  finally (writeJSON StatusOK (RMap (("events"%string, RList (map RSyncEvent events)) :: bounds_reply bounds)))
    (queueDeliveries principal.(pr_AccountID) candidates).

Definition writeScopedSync (principal : Principal) (scope scopeID : string) (page : result store_error (list SyncEvent)) : H unit :=
  let answer (body : list (string * Reply) -> H unit) : H unit :=
    bounds ← syncBounds principal;
    body ([("scope", rstr scope); ("scope_id", rstr scopeID)]%string ++ bounds_reply bounds) in
  match page with
  | Ok events =>
    answer (fun body =>
      candidates ← deliveryCandidates visit principal.(pr_AccountID) events;
      finally (writeJSON StatusOK (RMap (body ++ [("events"%string, RList (map RSyncEvent events))])))
        (queueDeliveries principal.(pr_AccountID) candidates))
  | Err ErrSyncCursorExpired =>
    answer (fun body => writeJSON StatusConflict
      (RMap (body ++ [("error"%string, rstr (if scope =s? "conversation" then "conversation_recovery_required" else "device_recovery_required"))])))
  | Err ((ErrForbidden | ErrNotMember) as err) => handleStorageError err
  | Err _ => writeError StatusInternalServerError "sync_events_failed"
  end.

Definition accountSyncEvents (r : HttpRequest) (principal : Principal) : H unit :=
  page ← call (fun _ => reading (fun d => ListAccountSyncEvents d principal.(pr_AccountID) principal.(pr_DeviceID) (ParseInt_value (r.(rq_query) "after")) (ParseInt_value (r.(rq_query) "limit"))));
  writeScopedSync principal "account" principal.(pr_AccountID) page.

Definition conversationSyncEvents (r : HttpRequest) (principal : Principal) : H unit :=
  let conversationID := r.(rq_pathValue) "id" in
  page ← call (fun m => reading (fun d => ListConversationSyncEvents d (m.(mo_now) 0%nat) principal.(pr_AccountID) principal.(pr_DeviceID) conversationID
                 (ParseInt_value (r.(rq_query) "after")) (ParseInt_value (r.(rq_query) "limit"))));
  writeScopedSync principal "conversation" conversationID page.

(** ** Search and account deletion *)

Definition searchMetadata (r : HttpRequest) (principal : Principal) : H unit :=
  let limit := ParseInt_value (r.(rq_query) "limit") in
  let offset := ParseInt_value (r.(rq_query) "offset") in
  results ← run_store_or (fun _ => read (fun d => SearchMetadata d principal.(pr_AccountID) (r.(rq_query) "q") limit offset))
    (fun _ => writeError StatusInternalServerError "search_failed");
  let normalizedLimit := normalizeLimit limit 20 50 in
  let normalizedOffset := normalizeOffset offset in
  writeJSON StatusOK (RMap ([("results", RList (map RSearchResult results)); ("limit", rint normalizedLimit); ("offset", rint normalizedOffset)]%string ++
    if len results =? normalizedLimit then [("next_offset"%string, rint (normalizedOffset + len results))] else [])).

Fixpoint complete_deletions (storageKeys : list string) : H unit :=
  match storageKeys with [] => mret tt | key :: keys => completeQueuedBlobDeletion key ≫= fun _ => complete_deletions keys end.

Definition deleteAccount (r : HttpRequest) (principal : Principal) : H unit :=
  storageKeys ← run_store (fun m => DeleteAccountData m.(mo_now) principal.(pr_AccountID));
  complete_deletions storageKeys ≫= fun _ =>
  on_hub (fun h => DisconnectAccount h principal.(pr_AccountID)) ≫= fun _ =>
  recordAuditEvent principal.(pr_AccountID) "account.deleted" [] ≫= fun _ =>
  noContent.

(** ** Sockets *)

Definition recheckSession (r : HttpRequest) (principal : Principal) : H (option store_error) :=
  match bearerTokenHash r with
  | None => mret (Some ErrUnauthorized)
  | Some tokenHash =>
    found ← call (fun m => PrincipalByTokenHash (m.(mo_now) 0%nat) tokenHash);
    mret (match found with
          | Err err => Some err
          | Ok current => if negb (current.(pr_AccountID) =s? principal.(pr_AccountID)) || negb (current.(pr_DeviceID) =s? principal.(pr_DeviceID))
                          then Some ErrUnauthorized else None
          end)
  end.

Definition StatusSwitchingProtocols : Z := 101.

(** The connection is handed to the socket of that number. *)
Definition serveWebSocket (client : nat) : H unit := respond (mkResponse StatusSwitchingProtocols None None).

Definition syncWebSocket (r : HttpRequest) : H unit :=
  principal ← authenticate r;
  registered ← step (fun _ s => let '(x, h) := Register s.(sv_hub) principal.(pr_AccountID) principal.(pr_DeviceID) (ClientIP a.(api_trustedProxies) r.(rq_base)) in (x, set_hub h s));
  match registered with
  | Err _ => writeErrorAfter 60 StatusTooManyRequests "realtime_connection_limit"
  | Ok client =>
    checked ← recheckSession r principal;
    match checked with
    | Some err =>
      on_hub (fun h => Unregister h client) ≫= fun _ =>
      match err with
      | ErrUnauthorized => refuseUnauthenticated
      | _ => writeErrorAfter 1 StatusServiceUnavailable "session_check_unavailable"
      end
    | None => serveWebSocket client
    end
  end.
End handlers.
