(* ===== verification/LinkHandlers.v ===== *)
(** * Device links, third protocol, history transfers and administration

    [internal/httpapi/device_link_v3_handlers.go],
    [device_history_transfer_handlers.go] (the upload excepted) and
    [admin_handlers.go] (the audit log excepted).  [serveEncryptedBlob] streams
    a stored blob as the reply. *)

From S2P Require Import Prelude GoStrings GoStrconv GoBase64 Admission RateLimiter Hub Domain Database Identity DeviceLinks History Devices Accounts Bodies Http AuthHandlers GroupHandlers.
From stdpp Require Import base numbers list strings gmap fin_maps.
From Stdlib Require Import Ascii ZArith ZifyBool Lia.
Open Scope Z_scope.

Section handlers.
Context {NET : Network} {FLT : Float64} {RUN : GoRuntime} {CRY : GoCrypto}.

(** ** Links *)

Definition deviceLinkV3Error {A} (err : store_error) : H A :=
  match err with
  | ErrEnrollmentInvalid => writeError StatusBadRequest "invalid_enrollment"
  | ErrDeviceLinkVerificationFailed => writeError StatusBadRequest "transcript_mismatch"
  | ErrDeviceLinkNotReady => writeJSON StatusConflict (RMap [("error", rstr "idempotency_conflict"); ("state", rstr "pending_approval")]%string)
  | ErrDeviceLinkSessionUnavailable => writeJSON StatusGone (RMap [("error", rstr "invalid_device_link"); ("state", rstr "session_unavailable")]%string)
  | _ => handleStorageError err
  end.

Definition run_link {A} (f : Moment -> Tx A) : H A := run_store_or f deviceLinkV3Error.

Definition createDeviceLinkV3Request : struct := [("code", TStr); ("server_origin", TStr); ("protocol_version", TStr); ("expires_in_seconds", TInt)]%string.

Definition createDeviceLinkV3 (r : HttpRequest) (principal : Principal) : H unit :=
  req ← decodeJSON createDeviceLinkV3Request r;
  ensure (negb (negb (f_str req "protocol_version" =s? DeviceLinkV3Protocol) || (f_int req "expires_in_seconds" <? 0) || (1800 <? f_int req "expires_in_seconds") ||
                (principal.(pr_DeviceID) =s? ""))) StatusBadRequest "invalid_device_link" ≫= fun _ =>
  link ← run_link (fun m => CreateDeviceLinkV3 (m.(mo_id) 0%nat) (m.(mo_random) 0%nat) m.(mo_now) principal.(pr_AccountID) principal.(pr_DeviceID) (f_str req "code")
           (f_str req "server_origin") (f_int req "expires_in_seconds" * second));
  writeJSON StatusCreated (RMap [("device_link"%string, RDeviceLinkV3 link)]).

(** [expires_at] is written again with the value it has. *)
Definition reserveDeviceLinkV3 (r : HttpRequest) : H unit :=
  req ← decodeJSON [("code", TStr); ("protocol_version", TStr); ("reservation_request_id", TStr)]%string r;
  ensure (f_str req "protocol_version" =s? DeviceLinkV3Protocol) StatusBadRequest "invalid_enrollment" ≫= fun _ =>
  reservation ← run_link (fun m => ReserveDeviceLinkV3 (m.(mo_id) 0%nat) (m.(mo_random) 0%nat) (m.(mo_now) 0%nat) (f_str req "code") (f_str req "reservation_request_id"));
  writeJSON StatusCreated (enrollmentReservationResponse reservation).

Definition claimDeviceLinkV3Request : struct :=
  [("code", TStr); ("protocol_version", TStr); ("server_origin", TStr); ("reservation_request_id", TStr); ("enrollment_reservation_id", TStr);
   ("device_name", TStr); ("device_key_package", TBytes); ("signing_key", TBytes); ("transfer_public_key", TBytes); ("transcript_hash", TBytes);
   ("claim_tag", TBytes); ("claim_token_hash", TStr); ("device_secret_hash", TStr); ("initial_session_token_hash", TStr); ("challenge_signature", TBytes)]%string.

Definition claim_input (req : fields) : DeviceLinkV3ClaimInput :=
  mkClaimInput (f_str req "code") (f_str req "protocol_version") (f_str req "server_origin") (f_str req "reservation_request_id")
    (f_str req "enrollment_reservation_id") (f_str req "device_name") (f_bytes req "device_key_package") (f_bytes req "signing_key")
    (f_bytes req "transfer_public_key") (f_bytes req "transcript_hash") (f_bytes req "claim_tag") (f_str req "claim_token_hash")
    (f_str req "device_secret_hash") (f_str req "initial_session_token_hash") (f_bytes req "challenge_signature").

Definition claimDeviceLinkV3 (r : HttpRequest) : H unit :=
  req ← decodeJSON claimDeviceLinkV3Request r;
  ensure (negb (isReservedNonProductionKeyPackage (f_bytes req "device_key_package"))) StatusBadRequest "non_production_device_key_package" ≫= fun _ =>
  ensure (validDeviceKeyPackage (f_bytes req "device_key_package")) StatusBadRequest "invalid_device_key_package" ≫= fun _ =>
  link ← run_link (fun m => ClaimDeviceLinkV3 (m.(mo_now) 0%nat) (m.(mo_now) 1%nat) (claim_input req));
  writeJSON StatusAccepted (RMap [("device_link"%string, RDeviceLinkV3 link)]).

Definition getDeviceLinkV3 (r : HttpRequest) (principal : Principal) : H unit :=
  link ← run_link (fun m => DeviceLinkV3ForSource (m.(mo_now) 0%nat) (r.(rq_pathValue) "id") principal.(pr_AccountID) principal.(pr_DeviceID));
  writeJSON StatusOK (RMap [("device_link"%string, RDeviceLinkV3 link)]).

Definition approveDeviceLinkV3Request : struct :=
  [("protocol_version", TStr); ("claim_request_hash", TStr); ("transcript_hash", TBytes); ("approval_tag", TBytes)]%string.

Definition approveDeviceLinkV3 (r : HttpRequest) (principal : Principal) : H unit :=
  req ← decodeJSON approveDeviceLinkV3Request r;
  ensure (f_str req "protocol_version" =s? DeviceLinkV3Protocol) StatusBadRequest "invalid_device_link" ≫= fun _ =>
  x ← run_link (fun m => ApproveDeviceLinkV3 (m.(mo_id) 0%nat) m.(mo_now) (r.(rq_pathValue) "id") principal.(pr_AccountID) principal.(pr_DeviceID)
        (f_str req "claim_request_hash") (f_bytes req "transcript_hash") (f_bytes req "approval_tag"));
  let '(link, device, eventID) := x in
  (if eventID =? 0 then mret tt
   else
     announce [principal.(pr_AccountID)] "device.updated" eventID "" (RMap [("device", RDevice device); ("device_link_id", rstr link.(d3_ID))]%string) ≫= fun _ =>
     recordAuditEvent principal.(pr_AccountID) "device_link.approved" [("link_id", VStr link.(d3_ID)); ("device_id", VStr device.(device_ID))]%string) ≫= fun _ =>
  writeJSON StatusOK (RMap [("device_link", RDeviceLinkV3 link); ("device", RDevice device)]%string).

(** The claim token is 32 bytes in its one encoding. *)
Definition deviceLinkV3ClaimTokenHash (r : HttpRequest) : H string :=
  let value := r.(rq_header) "X-Veritra-Claim-Token" in
  match Base64.DecodeString Base64.RawURLEncoding value with
  | Some decoded =>
    if (blen decoded =? 32) && (Base64.EncodeToString Base64.RawURLEncoding decoded =s? value) then mret (HashToken value)
    else writeError StatusBadRequest "claim_token_required"
  | None => writeError StatusBadRequest "claim_token_required"
  end.

Definition deviceLinkV3ClaimStatus (r : HttpRequest) : H unit :=
  hash ← deviceLinkV3ClaimTokenHash r;
  link ← run_link (fun m => DeviceLinkV3ForClaim (m.(mo_now) 0%nat) (r.(rq_pathValue) "id") hash);
  writeJSON StatusOK (RMap [("device_link"%string, RDeviceLinkV3 link)]).

Definition completeDeviceLinkV3Request : struct :=
  [("protocol_version", TStr); ("claim_request_hash", TStr); ("transcript_hash", TBytes); ("initial_session_token_hash", TStr)]%string.

Definition completeDeviceLinkV3 (r : HttpRequest) : H unit :=
  hash ← deviceLinkV3ClaimTokenHash r;
  req ← decodeJSON completeDeviceLinkV3Request r;
  ensure (f_str req "protocol_version" =s? DeviceLinkV3Protocol) StatusBadRequest "invalid_device_link" ≫= fun _ =>
  x ← run_link (fun m => CompleteDeviceLinkV3 (m.(mo_now) 0%nat) (m.(mo_now) 1%nat) (r.(rq_pathValue) "id") hash (f_str req "claim_request_hash")
        (f_str req "initial_session_token_hash") (f_bytes req "transcript_hash"));
  writeJSON StatusOK (RMap [("completion", RCompletion x.1); ("approval_tag", rbytes x.2)]%string).

Definition cancelDeviceLinkV3 (r : HttpRequest) (principal : Principal) : H unit :=
  run_link (fun m => CancelDeviceLinkV3 (m.(mo_now) 0%nat) (r.(rq_pathValue) "id") principal.(pr_AccountID) principal.(pr_DeviceID)) ≫= fun _ =>
  writeJSON StatusOK (RMap [("state"%string, rstr "revoked")]).

(** ** History transfers *)

Context (serveEncryptedBlob : HttpRequest -> BlobRef -> H unit).

(** A session or, without an [Authorization] header, a claim token. *)
Definition withHistoryAccess (next : HttpRequest -> HistoryAccess -> H unit) (r : HttpRequest) : H unit :=
  if negb (r.(rq_base).(Authorization) =s? "")
  then withAuth (fun r p => next r (mkHistoryAccess p.(pr_AccountID) p.(pr_DeviceID) "")) r
  else hash ← deviceLinkV3ClaimTokenHash r; next r (mkHistoryAccess "" "" hash).

Definition getHistoryTransfer (r : HttpRequest) (access : HistoryAccess) : H unit :=
  t ← run_link (fun m => HistoryTransferForAccess (m.(mo_now) 0%nat) (r.(rq_pathValue) "id") access false);
  writeJSON StatusOK (RMap [("transfer"%string, RHistoryTransfer t)]).

Definition getHistoryTransferContent (r : HttpRequest) (access : HistoryAccess) : H unit :=
  t ← run_link (fun m => HistoryTransferForAccess (m.(mo_now) 0%nat) (r.(rq_pathValue) "id") access true);
  serveEncryptedBlob r t.(tr_Ref).

Definition ackHistoryTransfer (r : HttpRequest) (access : HistoryAccess) : H unit :=
  input ← decodeJSON [("protocol_version", TStr); ("transfer_id", TStr); ("ciphertext_sha256", TStr)]%string r;
  ensure (f_str input "protocol_version" =s? DeviceLinkV3Protocol) StatusBadRequest "invalid_body" ≫= fun _ =>
  t ← run_link (fun m => AcknowledgeHistoryTransfer (m.(mo_now) 0%nat) (m.(mo_now) 1%nat) (r.(rq_pathValue) "id") access (f_str input "transfer_id") (f_str input "ciphertext_sha256"));
  writeJSON StatusOK (RMap [("transfer"%string, RHistoryTransfer t)]).

Definition cancelHistoryTransfer (r : HttpRequest) (access : HistoryAccess) : H unit :=
  run_link (fun m => CancelHistoryTransfer m.(mo_now) (r.(rq_pathValue) "id") access) ≫= fun _ =>
  writeJSON StatusOK (RMap [("state"%string, rstr "cancelled")]).

(** ** Administration *)

Definition requireAdministrator (principal : Principal) : H unit := ensure (CanManageInvites principal.(pr_Role)) StatusForbidden "forbidden".

Definition listAdminAccounts (r : HttpRequest) (principal : Principal) : H unit :=
  requireAdministrator principal ≫= fun _ =>
  let limit := ParseInt_value (r.(rq_query) "limit") in
  let limit := if (limit <=? 0) || (200 <? limit) then 100 else limit in
  accounts ← query (fun d => ListAdminAccounts d limit (TrimSpace (r.(rq_query) "after")));
  writeJSON StatusOK (RMap (("accounts"%string, RList (map RAdminAccount accounts)) ::
    match last accounts with
    | Some a => if Z.of_nat (length accounts) =? limit then [("next_after"%string, rstr a.(aa_ID))] else []
    | None => []
    end)).

Definition setAdminAccountStatus (r : HttpRequest) (principal : Principal) : H unit :=
  requireAdministrator principal ≫= fun _ =>
  req ← decodeJSON [("status"%string, TStr)] r;
  let status := f_str req "status" in
  let targetID := TrimSpace (r.(rq_pathValue) "id") in
  run_store (fun m => SetAccountStatus (m.(mo_now) 0%nat) (m.(mo_now) 1%nat) principal.(pr_AccountID) targetID status
    (mkAuditEvent "account.status.updated" [("target_account_id", VStr targetID); ("status", VStr status)]%string)) ≫= fun _ =>
  (if status =s? "suspended" then on_hub (fun h => DisconnectAccount h targetID) else mret tt) ≫= fun _ =>
  writeJSON StatusOK (RMap [("account_id", rstr targetID); ("status", rstr status)]%string).

Definition adminRevokeInvite (r : HttpRequest) (principal : Principal) : H unit :=
  requireAdministrator principal ≫= fun _ =>
  let inviteID := TrimSpace (r.(rq_pathValue) "id") in
  run_store (fun m => AdminRevokeInvite (m.(mo_now) 0%nat) (m.(mo_now) 1%nat) principal.(pr_AccountID) inviteID
    (mkAuditEvent "invite.revoked" [("invite_id"%string, VStr inviteID)])) ≫= fun _ =>
  noContent.
End handlers.
