(* ===== verification/ContentHandlers.v ===== *)
(** * Attachments, backups and push subscriptions

    [internal/httpapi/content_handlers.go].  The blob store is the interface
    [BlobStore] here ([uploads.Store], whose implementation is in [Uploads]);
    [serveEncryptedBlob] and [serveRecoveryBlob] stream a stored blob as the
    reply and are parameters, and sending a test push is left out. *)

From S2P Require Import Prelude GoStrings GoStrconv GoBase64 GoJson Admission RateLimiter Hub Domain Database Config Conversations Retention PushWake Blobs Identity Sessions DeviceLinks History PushTargets Passwords Bodies Http AuthHandlers.
From stdpp Require Import base numbers list strings gmap fin_maps.
From Stdlib Require Import Ascii ZArith ZifyBool Lia.
Open Scope Z_scope.

(** ** Metadata *)

Definition attachmentMetadata : struct := [("version", TInt); ("algorithm", TStr); ("chunk_size", TInt)]%string.

Definition validAttachmentCryptoMetadata (raw : string) : bool :=
  match Unmarshal_struct attachmentMetadata raw, Unmarshal_names raw with
  | Some metadata, Some names =>
    bool_decide (length names = 3%nat) && (f_int metadata "version" =? 1) && (f_str metadata "algorithm" =s? "AES-256-GCM-chunked") &&
    (f_int metadata "chunk_size" =? 1024 * 1024)
  | _, _ => false
  end.

(** The last value of a name, and [json.Unmarshal] of it into an [int] or a
    string that was zero. *)
Definition last_member (l : list (string * Json.json)) (k : string) : option Json.json := snd <$> List.find (fun '(k', _) => k' =s? k) (rev l).
Definition member_int (l : list (string * Json.json)) (k : string) : option Z :=
  v ← last_member l k; d ← decode_value TInt v ""; Some match d with Some (DInt z) => z | _ => 0 end.
Definition member_str (l : list (string * Json.json)) (k : string) : option string :=
  v ← last_member l k; d ← decode_value TStr v ""; Some match d with Some (DStr s) => s | _ => ""%string end.

(** [json.Marshal] of the struct. *)
Definition marshal_backup_metadata (version : Z) (algorithm : string) (chunkSize stateCounter : Z) : string :=
  "{" +:+ q "version" +:+ ":" +:+ Itoa version +:+ "," +:+ q "algorithm" +:+ ":" +:+ q algorithm +:+ "," +:+ q "chunk_size" +:+ ":" +:+ Itoa chunkSize +:+ "," +:+
  q "state_counter" +:+ ":" +:+ Itoa stateCounter +:+ "}".

Definition canonicalBackupCryptoMetadata (raw : string) : option string :=
  match Json.Unmarshal raw with
  | Some (Json.JObj l) =>
    if negb (bool_decide (length (remove_dups (map fst l)) = 4%nat)) then None
    else
      version ← member_int l "version";
      algorithm ← member_str l "algorithm";
      chunkSize ← member_int l "chunk_size";
      stateCounter ← member_int l "state_counter";
      if negb (version =? 1) || negb (algorithm =s? "AES-256-GCM-chunked") || negb (chunkSize =? 1024 * 1024) || (stateCounter <=? 0) then None
      else Some (marshal_backup_metadata version algorithm chunkSize stateCounter)
  | _ => None
  end.

(** A name in capitals, or written twice, does not bring in another counter. *)
Definition backup_metadata (counter : string) : string :=
  "{" +:+ q "version" +:+ ":1," +:+ q "algorithm" +:+ ":" +:+ q "AES-256-GCM-chunked" +:+ "," +:+ q "chunk_size" +:+ ":1048576," +:+ counter +:+ "}".

Example canonical_counters :
  (x ← canonicalBackupCryptoMetadata (backup_metadata (q "state_counter" +:+ ":7")); state_counter x) = Some 7 /\
  (x ← canonicalBackupCryptoMetadata (backup_metadata (q "state_counter" +:+ ":3," +:+ q "state_counter" +:+ ":9")); state_counter x) = Some 9 /\
  state_counter (backup_metadata (q "state_counter" +:+ ":3," +:+ q "state_counter" +:+ ":9")) = Some 3 /\
  canonicalBackupCryptoMetadata (backup_metadata (q "STATE_COUNTER" +:+ ":7")) = None /\
  canonicalBackupCryptoMetadata (backup_metadata (q "state_counter" +:+ ":null")) = None.
Proof. vm_compute. tauto. Qed.

(** ** Ranges *)

Definition bytes_prefix : string := "bytes=".
Definition range_spec (header : string) : string := TrimSpace (TrimPrefix header bytes_prefix).

Definition recoveryRangeStart (r : HttpRequest) : option Z :=
  let header := TrimSpace (r.(rq_header) "Range") in
  if header =s? "" then Some 0
  else if negb (HasPrefix header bytes_prefix) then None
  else
    let spec := range_spec header in
    if Contains_char spec "," then None
    else
      match Split spec "-" with
      | [from; _] =>
        if TrimSpace from =s? "" then None
        else start ← ParseInt (TrimSpace from); if start <? 0 then None else Some start
      | _ => None
      end.

Definition recoveryRange (r : HttpRequest) (size : Z) : option (Z * Z) :=
  if size <? 0 then None
  else
    start ← recoveryRangeStart r;
    let header := TrimSpace (r.(rq_header) "Range") in
    if header =s? "" then Some (0, if size =? 0 then -1 else size - 1)
    else
      let spec := range_spec header in
      if Contains_char spec "," then None
      else
        match Split spec "-" with
        | [from; until] =>
          if from =s? "" then None
          else if size <=? start then None
          else if negb (TrimSpace until =s? "") then
            end_ ← ParseInt (TrimSpace until);
            if (end_ <? start) || (size <=? end_) then None else Some (start, end_)
          else Some (start, size - 1)
        | _ => None
        end.

(** What is served of a backup lies inside it. *)
Lemma recoveryRange_bounds r size start end_ : recoveryRange r size = Some (start, end_) ->
  recoveryRangeStart r = Some start /\ 0 <= start <= end_ + 1 /\ end_ < size.
Proof.
  unfold recoveryRange. destruct (Z.ltb_spec size 0); [done|]. destruct (recoveryRangeStart r) as [s|] eqn:Es; [|done]. cbn [mbind option_bind].
  assert (H0 : 0 <= s /\ (TrimSpace (rq_header r "Range") =s? "" = true -> s = 0)).
  { revert Es. unfold recoveryRangeStart. destruct (_ =s? _); [by intros [= <-]|]. destruct (negb _); [done|]. destruct (Contains_char _ _); [done|].
    destruct (Split _ _) as [|from [|? [|]]]; try done. destruct (_ =s? _); [done|]. destruct (ParseInt _) as [n|]; [|done]. cbn [mbind option_bind].
    destruct (Z.ltb_spec n 0); [done|]. by intros [= <-]. }
  destruct H0 as [Hs0 Hsz]. destruct (TrimSpace (rq_header r "Range") =s? "") eqn:Eh.
  { rewrite (Hsz eq_refl). destruct (Z.eqb_spec size 0); intros [= <- <-]; (split; [done|lia]). }
  destruct (Contains_char _ _); [done|]. destruct (Split _ _) as [|from [|until [|]]]; try done. destruct (from =s? ""); [done|].
  destruct (Z.leb_spec size s); [done|]. destruct (negb _).
  - destruct (ParseInt (TrimSpace until)) as [n|]; [|done]. cbn [mbind option_bind]. destruct (_ || _) eqn:E; [done|].
    intros [= <- <-]. bool_to_prop. split; [done|lia].
  - intros [= <- <-]. split; [done|lia].
Qed.

(** ** Test pushes *)

Definition pushTestInterval : Z := minute.

Definition allowPushTest (deviceID : string) (now : Z) (last : gmap string Z) : bool * gmap string Z :=
  if match last !! deviceID with Some t => time_sub now t <? pushTestInterval | None => false end then (false, last)
  else
    let kept := if 10000 <? Z.of_nat (size last) then filter (fun kv => time_sub now kv.2 < pushTestInterval) last else last in
    (true, <[deviceID := now]> kept).

(** ** The blob store *)

Inductive put_error := MaxBytesError | OtherError.

(** [PutEncryptedBlob] of a body that is whole or whose reading failed. *)
Class BlobStore {NET : Network} {FLT : Float64} := { PutEncryptedBlob : Moment -> string -> option put_error -> result put_error BlobRef }.

Section handlers.
Context {NET : Network} {FLT : Float64} {RUN : GoRuntime} {CRY : GoCrypto} {PWH : PasswordHashing} {BLB : BlobStore}.
Context (u_Fragment : URL -> string) (u_String : URL -> string).
Context (serveEncryptedBlob : HttpRequest -> BlobRef -> H unit) (serveRecoveryBlob : HttpRequest -> RecoveryTransfer -> Z -> H unit).
Context (a : API).

(** The body is read up to a limit and one byte more. *)
Definition put_body (limit : Z) (r : HttpRequest) : H (result put_error BlobRef) :=
  raw ← readAll limit r;
  step (fun m s => (PutEncryptedBlob m r.(rq_body)
    (match raw with
     | Some _ => None
     | None => Some (if limit <? blen r.(rq_body) then MaxBytesError else OtherError)
     end), s)).

Definition put_or_refuse (limit : Z) (failed : string) (r : HttpRequest) : H BlobRef :=
  put ← put_body limit r;
  match put with
  | Ok blob => mret blob
  | Err MaxBytesError => writeError 413 "upload_too_large"
  | Err OtherError => writeError StatusInternalServerError failed
  end.

Definition cleanupUncommittedBlob (storageKey : string) : H unit :=
  call (fun m => if m.(mo_blobFails) then QueueBlobDeletion (m.(mo_now) 0%nat) storageKey else mret tt) ≫= fun _ => mret tt.

(** A blob whose record was refused is removed again. *)
Definition record_or_clean {A} (f : Moment -> Tx A) (storageKey failed : string) : H A :=
  run_store_or f (fun err =>
    cleanupUncommittedBlob storageKey ≫= fun _ =>
    match err with ErrStorageQuota => handleStorageError err | _ => writeError StatusInternalServerError failed end).

(** ** Attachments *)

Definition uploadAttachment (r : HttpRequest) (principal : Principal) : H unit :=
  diskLow ≫= fun _ =>
  ensure (r.(rq_header) "X-Private-Messenger-Encrypted" =s? "1") StatusBadRequest "encrypted_upload_header_required" ≫= fun _ =>
  match optionalQuery r "conversation_id" with
  | None => writeError StatusBadRequest "conversation_id_required"
  | Some conversationID =>
    member ← run_store (fun _ => IsConversationMember conversationID principal.(pr_AccountID));
    ensure member StatusForbidden "forbidden" ≫= fun _ =>
    let metadata := if r.(rq_header) "X-Crypto-Metadata" =s? "" then "{}"%string else r.(rq_header) "X-Crypto-Metadata" in
    ensure (validAttachmentCryptoMetadata metadata) StatusBadRequest "invalid_crypto_metadata" ≫= fun _ =>
    blob ← put_or_refuse (MaxAttachmentCiphertext (maxAttachmentBytes a)) "upload_failed" r;
    attachment ← record_or_clean (fun m => CreateAttachmentEnvelope (m.(mo_id) 0%nat) (m.(mo_now) 0%nat)
        (mkAttachmentEnvelope "" principal.(pr_AccountID) (Some conversationID) blob.(ref_StorageKey) blob.(ref_SHA256) blob.(ref_Size) metadata 0
           (default ""%string blob.(ref_ChunkDigests))))
      blob.(ref_StorageKey) "attachment_record_failed";
    writeJSON StatusCreated (RAttachment attachment)
  end.

Definition listAttachments (r : HttpRequest) (principal : Principal) : H unit :=
  attachments ← query (fun d => ListAttachments d principal.(pr_AccountID) (ParseInt_value (r.(rq_query) "limit")));
  writeJSON StatusOK (RMap [("attachments"%string, RList (map RAttachment attachments))]).

(** The path's last element, alone. *)
Definition subroute_id (prefix : string) (r : HttpRequest) : option string :=
  let id := Trim (TrimPrefix (rq_path r) prefix) "/" in
  if (id =s? "") || Contains_char id "/" then None else Some id.

Definition ref_of (storageKey sha256 : string) (size : Z) (digests : string) : BlobRef := mkBlobRef storageKey sha256 size (nullableBytes digests).

Definition attachmentSubroute (r : HttpRequest) (principal : Principal) : H unit :=
  match subroute_id "/api/v1/attachments/" r with
  | None => writeError StatusNotFound "not_found"
  | Some id =>
    attachment ← run_store (fun _ => AttachmentForAccount id principal.(pr_AccountID));
    if r.(rq_method) =s? "GET" then
      serveEncryptedBlob r (ref_of attachment.(ae_StorageKey) attachment.(ae_CiphertextSHA256) attachment.(ae_SizeBytes) attachment.(ae_ChunkDigests))
    else if r.(rq_method) =s? "DELETE" then
      ensure (attachment.(ae_OwnerAccountID) =s? principal.(pr_AccountID)) StatusForbidden "forbidden" ≫= fun _ =>
      deleted ← run_store (fun m => DeleteAttachment (m.(mo_now) 0%nat) id principal.(pr_AccountID));
      completeQueuedBlobDeletion deleted.(ae_StorageKey) ≫= fun _ =>
      noContent
    else writeError StatusNotFound "not_found"
  end.

(** ** Backups *)

Definition recovery_token (value : string) : option string :=
  match Base64.DecodeString Base64.RawURLEncoding value with Some token => if blen token =? 32 then Some token else None | None => None end.

Definition uploadBackup (r : HttpRequest) (principal : Principal) : H unit :=
  diskLow ≫= fun _ =>
  ensure (r.(rq_header) "X-Private-Messenger-Encrypted" =s? "1") StatusBadRequest "encrypted_upload_header_required" ≫= fun _ =>
  let metadata := r.(rq_header) "X-Key-Derivation-Metadata" in
  ensure (negb (metadata =s? "")) StatusBadRequest "key_derivation_metadata_required" ≫= fun _ =>
  match canonicalBackupCryptoMetadata metadata with
  | None => writeError StatusBadRequest "invalid_key_derivation_metadata"
  | Some metadata =>
    match recovery_token (r.(rq_header) "X-Recovery-Token") with
    | None => writeError StatusBadRequest "recovery_token_required"
    | Some recoveryToken =>
      blob ← put_or_refuse (Z.shiftl 100 20) "backup_upload_failed" r;
      record_or_clean (fun m => CreateBackupBlobWithChunkDigests (m.(mo_id) 0%nat) (m.(mo_now) 0%nat) principal.(pr_AccountID) principal.(pr_DeviceID)
          blob.(ref_StorageKey) blob.(ref_SHA256) blob.(ref_Size) (default ""%string blob.(ref_ChunkDigests)) metadata (Sum256 recoveryToken))
        blob.(ref_StorageKey) "backup_record_failed" ≫= fun _ =>
      writeJSON StatusCreated (RMap [("storage_key", rstr blob.(ref_StorageKey)); ("ciphertext_sha256", rstr blob.(ref_SHA256)); ("size_bytes", rint blob.(ref_Size))]%string)
    end
  end.

Definition StatusRequestedRangeNotSatisfiable : Z := 416.
Definition invalid_range {A} : H A := writeError StatusRequestedRangeNotSatisfiable "invalid_recovery_range".

Definition finalizeRecoveryTransfer (transfer : RecoveryTransfer) (written expected : Z) : H unit :=
  call (fun m => CompleteRecoveryTransfer (m.(mo_now) 0%nat) transfer.(rt_LeaseID) transfer.(rt_StartOffset) written expected) ≫= fun _ => mret tt.

Definition recoverBackup (r : HttpRequest) : H unit :=
  match recovery_token (TrimSpace (r.(rq_header) "X-Recovery-Token")) with
  | None => writeError StatusNotFound "not_found"
  | Some token =>
    match recoveryRangeStart r with
    | None => invalid_range
    | Some start =>
      transfer ← run_store_or (fun m => BeginRecoveryTransfer (m.(mo_id) 0%nat) (m.(mo_now) 0%nat) (Sum256 token) start)
        (fun err => match err with
          | ErrRecoveryBusy => writeError StatusConflict "recovery_transfer_in_progress"
          | ErrRecoveryRange => invalid_range
          | _ => handleStorageError err
          end);
      match recoveryRange r transfer.(rt_Backup).(bb_SizeBytes) with
      | None => finalizeRecoveryTransfer transfer 0 0 ≫= fun _ => invalid_range
      | Some (start, end_) => serveRecoveryBlob r transfer (end_ - start + 1)
      end
    end
  end.

Definition listBackups (r : HttpRequest) (principal : Principal) : H unit :=
  backups ← query (fun d => ListBackups d principal.(pr_AccountID) (ParseInt_value (r.(rq_query) "limit")));
  writeJSON StatusOK (RMap [("backups"%string, RList (map RBackup backups))]).

Definition backupBlobRef (backup : BackupBlob) : BlobRef :=
  ref_of backup.(bb_StorageKey) backup.(bb_CiphertextSHA256) backup.(bb_SizeBytes) backup.(bb_ChunkDigests).

Definition backupSubroute (r : HttpRequest) (principal : Principal) : H unit :=
  match subroute_id "/api/v1/backups/" r with
  | None => writeError StatusNotFound "not_found"
  | Some id =>
    backup ← run_store (fun _ => BackupForAccount id principal.(pr_AccountID));
    if r.(rq_method) =s? "GET" then serveEncryptedBlob r (backupBlobRef backup)
    else if r.(rq_method) =s? "DELETE" then
      deleted ← run_store (fun m => DeleteBackup (m.(mo_now) 0%nat) id principal.(pr_AccountID));
      completeQueuedBlobDeletion deleted.(bb_StorageKey) ≫= fun _ =>
      noContent
    else writeError StatusNotFound "not_found"
  end.

(** ** Push subscriptions *)

Definition pushProviderOffered (provider : string) : bool := bool_decide (provider ∈ a.(api_PushProviders)).

Definition createPushSubscriptionRequest : struct :=
  [("notification_mode", TRaw); ("provider", TStr); ("endpoint", TStr); ("public_key", TStr); ("auth_secret", TStr)]%string.

Definition push_mode (raw : string) : option string :=
  if blen raw =? 0 then Some PushNotificationLegacy
  else match Json.Unmarshal raw with Some (Json.JStr mode) => Some mode | Some Json.JNull => Some ""%string | _ => None end.

Definition push_target_ok (provider endpoint publicKey authSecret : string) : bool :=
  (provider =s? "webpush") && ValidateWebPushTarget u_Fragment u_String endpoint publicKey authSecret ||
  ((provider =s? "fcm") || (provider =s? "apns")) && ValidateNativeTarget provider endpoint && (publicKey =s? "") && (authSecret =s? "").

Definition createPushSubscription (r : HttpRequest) (principal : Principal) : H unit :=
  req ← decodeJSON createPushSubscriptionRequest r;
  let provider := f_str req "provider" in
  match push_mode (f_raw req "notification_mode") with
  | None => writeError StatusBadRequest "invalid_push_subscription"
  | Some mode =>
    ensure (ValidPushNotificationMode mode) StatusBadRequest "invalid_push_subscription" ≫= fun _ =>
    ensure (negb ((mode =s? PushNotificationLocalDecrypt) && (principal.(pr_DeviceID) =s? ""))) StatusBadRequest "device_session_required" ≫= fun _ =>
    ensure (push_target_ok provider (f_str req "endpoint") (f_str req "public_key") (f_str req "auth_secret")) StatusBadRequest "invalid_push_subscription" ≫= fun _ =>
    ensure (pushProviderOffered provider) StatusBadRequest "push_provider_unavailable" ≫= fun _ =>
    subscriptionID ← run_store_or (fun m => CreatePushSubscriptionWithMode (m.(mo_id) 0%nat) (m.(mo_now) 0%nat) principal.(pr_AccountID) principal.(pr_DeviceID)
        provider (f_str req "endpoint") (f_str req "public_key") (f_str req "auth_secret") mode)
      (fun err => match err with
        | ErrUnauthorized | ErrInvalidInput => handleStorageError err
        | _ => writeError StatusInternalServerError "push_subscription_failed"
        end);
    writeJSON StatusCreated (RMap [("status", rstr "ok"); ("subscription_id", rstr subscriptionID); ("payload_policy", rstr "generic_encrypted_event_only");
      ("notification_mode", rstr mode)]%string)
  end.

Definition pushConfig (r : HttpRequest) (principal : Principal) : H unit :=
  writeJSON StatusOK (RMap ([("enabled", rbool (negb (bool_decide (a.(api_PushProviders) = [])))); ("providers", RList (map rstr a.(api_PushProviders)));
      ("payload_policy", rstr "generic_encrypted_event_only")]%string ++
    if pushProviderOffered "webpush" then [("vapid_public_key"%string, rstr a.(api_VAPIDPublicKey))] else [])).

Definition listDevicePushSubscriptions (r : HttpRequest) (principal : Principal) : H unit :=
  ensure (negb (principal.(pr_DeviceID) =s? "")) StatusBadRequest "device_session_required" ≫= fun _ =>
  subscriptions ← query (fun d => ListDevicePushSubscriptions d principal.(pr_AccountID) principal.(pr_DeviceID));
  writeJSON StatusOK (RMap [("subscriptions"%string, RList (map RPushSubscription subscriptions))]).

Definition deletePushSubscription (r : HttpRequest) (principal : Principal) : H unit :=
  let id := r.(rq_pathValue) "id" in
  ensure (negb (TrimSpace id =s? "")) StatusBadRequest "invalid_subscription_id" ≫= fun _ =>
  run_store (fun m => DisablePushSubscription (m.(mo_now) 0%nat) id principal.(pr_AccountID)) ≫= fun _ =>
  noContent.
End handlers.
