(* ===== verification/RecoveryHandlers.v ===== *)
(** * Recovery of an account

    [internal/httpapi/account_recovery_handlers.go].  The wakes of
    [account_recovery_wake.go] run by themselves and are not part of a
    request; [recoveryDecoyAuthKey] is a public key nobody has the secret of. *)

From S2P Require Import Prelude GoStrings LoginBackoff Admission RateLimiter Hub Domain Database Identity Passwords DeviceLinks Recovery Bodies Http AuthHandlers LinkHandlers.
From stdpp Require Import base numbers list strings gmap fin_maps.
From Stdlib Require Import Ascii ZArith ZifyBool Lia.
Open Scope Z_scope.

(** ** Recovery keys *)

(** Arithmetic of [math/big] modulo the field's prime.  The inverse and the
    square root are those of a prime congruent to 5 modulo 8, checked, and
    [None] where the documentation has nil. *)
Definition ed25519FieldPrime : Z := Z.shiftl 1 255 - 19.

Fixpoint pow_mod (b : Z) (e : positive) (p : Z) : Z :=
  match e with
  | xH => b mod p
  | xO e => let h := pow_mod b e p in h * h mod p
  | xI e => let h := pow_mod b e p in (h * h mod p) * b mod p
  end.
Definition Exp (b e p : Z) : Z := match e with Zpos e => pow_mod b e p | _ => 1 mod p end.

Definition ModInverse (g p : Z) : option Z :=
  let i := Exp g (p - 2) p in if g * i mod p =? 1 then Some i else None.

Definition ModSqrt (x p : Z) : option Z :=
  let alpha := Exp (2 * x) ((p - 5) / 8) p in
  let beta := 2 * x * alpha * alpha mod p in
  let z := x * alpha * (beta - 1) mod p in
  if z * z mod p =? x mod p then Some z else None.

(** [ed25519CurveD]: -121665/121666. *)
Definition ed25519CurveD : Z := default 0 (ModInverse 121666 ed25519FieldPrime) * (-121665) mod ed25519FieldPrime.

Definition recoverySmallOrderKeys : list string :=
  omap DecodeString
  ["0100000000000000000000000000000000000000000000000000000000000000"; "ecffffffffffffffffffffffffffffffffffffffffffffffffffffffffffff7f";
   "0000000000000000000000000000000000000000000000000000000000000000"; "0000000000000000000000000000000000000000000000000000000000000080";
   "26e8958fc2b227b045c3f489f2ef98f0d5dfac05d3c63339b13802886d53fc05"; "26e8958fc2b227b045c3f489f2ef98f0d5dfac05d3c63339b13802886d53fc85";
   "c7176a703d4dd84fba3c0b760d10670f2a2053fa2c39ccc64ec7fd7792ac037a"; "c7176a703d4dd84fba3c0b760d10670f2a2053fa2c39ccc64ec7fd7792ac03fa"]%string.

(** The bytes as a number, the first the least. *)
Fixpoint little_endian (l : list Z) : Z := match l with [] => 0 | b :: l => b + 256 * little_endian l end.

(** The sign in the top bit, and y below it. *)
Definition key_sign (key : string) : Z := Z.shiftr (little_endian (byte_list key)) 255.
Definition key_y (key : string) : Z := little_endian (byte_list key) - Z.shiftl (key_sign key) 255.

(** The last part of [validRecoveryAuthKey]: x^2 = (y^2 - 1) / (d*y^2 + 1)
    must have a square root, and x = 0 has only the positive encoding. *)
Definition key_point (y sign : Z) : bool :=
  let p := ed25519FieldPrime in
  let y2 := y * y mod p in
  let u := (y2 - 1) mod p in
  let v := (ed25519CurveD * y2 + 1) mod p in
  match ModInverse v p with
  | None => false
  | Some vInverse =>
    match ModSqrt (u * vInverse mod p) p with
    | None => false
    | Some x => negb (x =? 0) || (sign =? 0)
    end
  end.

Definition validRecoveryAuthKey (key : string) : bool :=
  (blen key =? ed25519_PublicKeySize) && negb (existsb (fun small => small =s? key) recoverySmallOrderKeys) &&
  (key_y key <? ed25519FieldPrime) && key_point (key_y key) (key_sign key).

Section handlers.
Context {NET : Network} {FLT : Float64} {RUN : GoRuntime} {CRY : GoCrypto} {PWH : PasswordHashing}.
Context (hmac_sha256 : string -> string -> string) (sha256_salted : string -> string) (recoveryDecoyAuthKey : string) (a : API).

(** ** Configuration *)

Definition recoveryConfigured : bool := negb (TrimSpace a.(api_PublicOrigin) =s? "").

Definition requireRecoveryConfigured (next : HttpRequest -> H unit) (r : HttpRequest) : H unit :=
  ensure recoveryConfigured StatusServiceUnavailable "recovery_not_configured" ≫= fun _ => next r.

Definition DefaultRecoveryFailureCap : Z := 50.
Definition recoveryFailureCap : Z := if 0 <? a.(api_RecoveryFailureCap) then a.(api_RecoveryFailureCap) else DefaultRecoveryFailureCap.
Definition recoveryActiveWindow : Z := if 0 <? a.(api_RecoveryActiveWindow) then a.(api_RecoveryActiveWindow) else 7 * 24 * hour.
Definition recoveryWait : Z := if 0 <? a.(api_RecoveryWait) then a.(api_RecoveryWait) else 7 * 24 * hour.

Definition appendLengthPrefixed (output value : string) : string := (output +:+ u16be (blen value) +:+ value)%string.

Definition recoveryProofMessage (challenge signingKey keyPackage origin : string) : string :=
  appendLengthPrefixed (appendLengthPrefixed "veritra-k0-recovery-proof-v1" challenge +:+ signingKey +:+ Sum256 keyPackage) origin.

Definition recoveryBackoffKeys (r : HttpRequest) (accountID : string) : string * string :=
  (("recovery-source" +:+ nul +:+ clientIP a r +:+ nul +:+ accountID)%string, ("recovery-account" +:+ nul +:+ accountID)%string).

(** ** Claims *)

Definition reserveAccountRecovery (r : HttpRequest) : H unit :=
  req ← decodeJSON [("username"%string, TStr)] r;
  ensure (validUsername (f_str req "username")) StatusBadRequest "invalid_identity" ≫= fun _ =>
  reservation ← run_store_or (fun m => ReserveRecoveryEnrollment hmac_sha256 (m.(mo_random) 0%nat) (m.(mo_id) 0%nat) (m.(mo_id) 1%nat) (m.(mo_random) 1%nat) (m.(mo_now) 0%nat) (f_str req "username"))
    (fun err => match err with
      | ErrRecoveryUnavailable => writeError StatusServiceUnavailable "recovery_not_configured"
      | _ => writeError StatusInternalServerError "enrollment_reservation_failed"
      end);
  writeJSON StatusCreated (enrollmentReservationResponse reservation).

Definition recoveryClaimRequest : struct :=
  [("enrollment_reservation_id", TStr); ("password", TStr); ("device_name", TStr); ("device_key_package", TBytes); ("signing_key", TBytes);
   ("challenge_signature", TBytes); ("recovery_signature", TBytes)]%string.

(** The checks on public data, and the reservation. *)
Definition checkRecoveryClaim (req : fields) : H EnrollmentReservationT :=
  let keyPackage := f_bytes req "device_key_package" in
  let signingKey := f_bytes req "signing_key" in
  let invalid {A} : H A := writeError StatusBadRequest "invalid_enrollment" in
  ensure (validDisplayName (f_str req "device_name")) StatusBadRequest "invalid_device_name" ≫= fun _ =>
  ensure (negb (isReservedNonProductionKeyPackage keyPackage)) StatusBadRequest "non_production_device_key_package" ≫= fun _ =>
  ensure (validDeviceKeyPackage keyPackage) StatusBadRequest "invalid_device_key_package" ≫= fun _ =>
  ensure ((blen signingKey =? ed25519_PublicKeySize) && (blen (f_bytes req "challenge_signature") =? ed25519_SignatureSize) &&
          (blen (f_bytes req "recovery_signature") =? ed25519_SignatureSize)) StatusBadRequest "invalid_enrollment" ≫= fun _ =>
  reservation ← run_store_or (fun m => RecoveryReservation (m.(mo_now) 0%nat) (f_str req "enrollment_reservation_id")) (fun _ => invalid);
  ensure (ed25519_Verify signingKey (enrollmentProofMessage reservation.(en_Challenge) signingKey keyPackage) (f_bytes req "challenge_signature"))
    StatusBadRequest "invalid_enrollment" ≫= fun _ =>
  mret reservation.

(** After the credentials have been checked: the claim and its answer. *)
Definition storeRecoveryClaim (req : fields) (reservation : EnrollmentReservationT) (passwordHash authKey sourceKey accountKey : string) : H unit :=
  t ← newSecret "claim_token_create_failed";
  let '(claimToken, claimTokenHash) := t in
  t ← newSecret "device_secret_create_failed";
  let '(deviceSecret, deviceAuthHash) := t in
  claimed ← run_store_or (fun m => ClaimRecovery (m.(mo_id) 0%nat) m.(mo_now)
      (mkRecoveryClaimInput reservation.(en_ID) reservation.(en_AccountID) (f_str req "device_name") (f_bytes req "device_key_package") (f_bytes req "signing_key")
         deviceAuthHash claimTokenHash passwordHash authKey recoveryActiveWindow recoveryWait))
    (fun err => match err with
      | ErrUnauthorized => writeError StatusUnauthorized "invalid_credentials"
      | ErrEnrollmentInvalid => writeError StatusBadRequest "invalid_enrollment"
      | _ => writeError StatusInternalServerError "recovery_claim_failed"
      end);
  attemptSucceeded sha256_salted [sourceKey; accountKey] ≫= fun _ =>
  let request := claimed.(rs_Request) in
  let account := request.(rr_AccountID) in
  now ← time_now;
  (if claimed.(rs_ReplacedEventID) =? 0 then mret tt
   else publishCommittedEvent [account] (event "account.recovery.cancelled" claimed.(rs_ReplacedEventID) ""
          (RMap [("request_id", rstr claimed.(rs_ReplacedRequest)); ("reason", rstr RecoveryCancelledReplaced)]%string) now)) ≫= fun _ =>
  publishCommittedEvent [account] (event "account.recovery.pending" claimed.(rs_PendingEventID) ""
    (RMap [("request_id", rstr request.(rr_ID)); ("device_name", rstr request.(rr_DeviceName)); ("ready_at", rtime request.(rr_ReadyAt))]%string) now) ≫= fun _ =>
  recordAuditEvent account "account.recovery_requested"
    [("request_id", VStr request.(rr_ID)); ("device_id", VStr request.(rr_DeviceID)); ("waits", VBool claimed.(rs_ActiveDeviceSeen))]%string ≫= fun _ =>
  writeJSON StatusAccepted (RMap [("request_id", rstr request.(rr_ID)); ("claim_token", rstr claimToken); ("device_secret", rstr deviceSecret);
    ("state", rstr request.(rr_State)); ("ready_at", rtime request.(rr_ReadyAt))]%string).

Definition claimAccountRecovery (r : HttpRequest) : H unit :=
  req ← decodeJSON recoveryClaimRequest r;
  reservation ← checkRecoveryClaim req;
  let account := reservation.(en_AccountID) in
  let '(sourceKey, accountKey) := recoveryBackoffKeys r account in
  refuseWhileWaiting sha256_salted "recovery_backoff" [sourceKey] ≫= fun _ =>
  found ← call (fun _ => RecoveryClaimRecord account);
  ensure (match found with Ok _ | Err ErrUnauthorized => true | Err _ => false end) StatusInternalServerError "recovery_claim_failed" ≫= fun _ =>
  let exists_ := match found with Ok _ => true | Err _ => false end in
  let storedHash := match found with Ok (_, hash, _) => hash | Err _ => ""%string end in
  let storedKey := match found with Ok (_, _, Some key) => key | _ => ""%string end in
  let hasKey := exists_ && (blen storedKey =? ed25519_PublicKeySize) in
  let authKey := if hasKey then storedKey else recoveryDecoyAuthKey in
  check ← verifyPassword storedHash (f_str req "password");
  let signatureOK := ed25519_Verify authKey
    (recoveryProofMessage reservation.(en_Challenge) (f_bytes req "signing_key") (f_bytes req "device_key_package") a.(api_PublicOrigin)) (f_bytes req "recovery_signature") in
  let passwordOK := exists_ && check.(pc_OK) in
  let rkOK := hasKey && signatureOK in
  (if rkOK then refuseWhileWaiting sha256_salted "recovery_backoff" [accountKey] else mret tt) ≫= fun _ =>
  attempt ← run_store_or (fun m => RecordRecoveryAttempt (m.(mo_now) 1%nat) account (passwordOK && negb rkOK) recoveryFailureCap (m.(mo_now) 0%nat))
    (fun _ => writeError StatusInternalServerError "recovery_claim_failed");
  (if attempt.(at_LeakEventID) =? 0 then mret tt
   else
     now ← time_now;
     announce [account] "account.password_leak_suspected" attempt.(at_LeakEventID) "" (RMap [("day"%string, rstr (format_day now))])) ≫= fun _ =>
  let capped := recoveryFailureCap <? attempt.(at_Failures) in
  if negb passwordOK || negb rkOK || capped
  then refuseAttempt sha256_salted "recovery_backoff" (sourceKey :: if rkOK then [accountKey] else [])
  else storeRecoveryClaim req reservation storedHash storedKey sourceKey accountKey.

(** ** The claimant's poll *)

Fixpoint announce_revoked (accountID : string) (now : Z) (devices : list string) (eventIDs : list Z) : H unit :=
  match devices with
  | [] => mret tt
  | deviceID :: devices =>
    publishCommittedEvent [accountID] (event "device.revoked" (default 0 (head eventIDs)) "" (RMap [("device_id"%string, rstr deviceID)]) now) ≫= fun _ =>
    on_hub (fun h => DisconnectDevice h accountID deviceID) ≫= fun _ =>
    announce_revoked accountID now devices (tail eventIDs)
  end.

Definition account_reply (x : option Account) : Reply := match x with Some x => RAccount x | None => RNull end.
Definition device_reply (x : option Device) : Reply := match x with Some x => RDevice x | None => RNull end.

Definition accountRecoveryStatus (r : HttpRequest) : H unit :=
  claimTokenHash ← deviceLinkV3ClaimTokenHash r;
  t ← newSecret "token_create_failed";
  let '(sessionToken, sessionTokenHash) := t in
  completion ← run_store_or (fun m => CompleteRecovery (m.(mo_id) 0%nat) m.(mo_now) (r.(rq_pathValue) "id") claimTokenHash sessionTokenHash)
    (fun err => match err with
      | ErrNotFound => writeError StatusNotFound "not_found"
      | ErrRecoveryCancelled => writeError StatusGone "recovery_cancelled"
      | _ => writeError StatusInternalServerError "recovery_status_failed"
      end);
  if completion.(rx_State) =s? RecoveryStateWaiting
  then writeJSON StatusAccepted (RMap [("state", rstr completion.(rx_State)); ("ready_at", rtime completion.(rx_ReadyAt))]%string)
  else
    let response := [("state", rstr completion.(rx_State)); ("account", account_reply completion.(rx_Account)); ("device", device_reply completion.(rx_Device))]%string in
    if completion.(rx_SessionIssued) then
      let accountID := default ""%string (acct_ID <$> completion.(rx_Account)) in
      now ← time_now;
      announce_revoked accountID now completion.(rx_RevokedDevices) completion.(rx_RevokedEventIDs) ≫= fun _ =>
      on_hub (fun h => DisconnectDevice h accountID "") ≫= fun _ =>
      publishCommittedEvent [accountID] (event "account.recovered" completion.(rx_RecoveredEventID) ""
        (RMap [("device_id", rstr (default ""%string (device_ID <$> completion.(rx_Device)))); ("revoked", RList (map rstr completion.(rx_RevokedDevices)))]%string) now) ≫= fun _ =>
      writeJSON StatusOK (RMap (response ++ [("token"%string, rstr sessionToken)]))
    else writeJSON StatusOK (RMap response).

Definition cancelAccountRecovery (r : HttpRequest) (principal : Principal) : H unit :=
  let requestID := TrimSpace (r.(rq_pathValue) "id") in
  eventID ← run_store (fun m => CancelRecoveryRequest (m.(mo_now) 0%nat) principal.(pr_AccountID) requestID);
  announce [principal.(pr_AccountID)] "account.recovery.cancelled" eventID "" (RMap [("request_id", rstr requestID); ("reason", rstr RecoveryCancelledByOwner)]%string) ≫= fun _ =>
  recordAuditEvent principal.(pr_AccountID) "account.recovery_cancelled"
    [("request_id", VStr requestID); ("reason", VStr RecoveryCancelledByOwner); ("device_id", VStr principal.(pr_DeviceID))]%string ≫= fun _ =>
  writeJSON StatusOK (RMap [("state"%string, rstr "cancelled")]).

(** ** The recovery key of an account *)

Definition recoveryKeyPayload (available : bool) (status : RecoveryKeyStatusT) : list (string * Reply) :=
  [("available", rbool available); ("configured", rbool status.(ks_Configured))]%string ++
  (if status.(ks_Configured) then [("rk_id", rbytes status.(ks_RKID)); ("set_at", ropttime status.(ks_SetAt))]%string else []) ++
  match status.(ks_Pending) with
  | Some p => [("pending_request"%string, RMap [("id", rstr p.(rr_ID)); ("device_name", rstr p.(rr_DeviceName)); ("created_at", rtime p.(rr_CreatedAt));
                ("ready_at", rtime p.(rr_ReadyAt))]%string)]
  | None => []
  end.

Definition recoveryKeyStatus (principal : Principal) : H RecoveryKeyStatusT :=
  run_store (fun m => read (fun d => RecoveryKeyStatus d (m.(mo_now) 0%nat) principal.(pr_AccountID))).

Definition getRecoveryKey (r : HttpRequest) (principal : Principal) : H unit :=
  status ← recoveryKeyStatus principal;
  writeJSON StatusOK (RMap (recoveryKeyPayload recoveryConfigured status ++
    if recoveryConfigured then [("public_origin"%string, rstr a.(api_PublicOrigin))] else [])).

Definition putRecoveryKey (r : HttpRequest) (principal : Principal) : H unit :=
  req ← decodeJSON [("rk_auth_pub", TBytes); ("rk_id", TBytes)]%string r;
  let rkID := f_bytes req "rk_id" in
  ensure (validRecoveryAuthKey (f_bytes req "rk_auth_pub") && (blen rkID =? 16)) StatusBadRequest "invalid_recovery_key" ≫= fun _ =>
  result ← run_store (fun m => SetRecoveryKey (m.(mo_now) 0%nat) (m.(mo_now) 1%nat) principal.(pr_AccountID) (f_bytes req "rk_auth_pub") rkID);
  now ← time_now;
  (if result.(rk_CancelledEventID) =? 0 then mret tt
   else publishCommittedEvent [principal.(pr_AccountID)] (event "account.recovery.cancelled" result.(rk_CancelledEventID) ""
          (RMap [("request_id", rstr result.(rk_CancelledRequestID)); ("reason", rstr RecoveryCancelledKeyChanged)]%string) now)) ≫= fun _ =>
  publishCommittedEvent [principal.(pr_AccountID)] (event "account.recovery_key.set" result.(rk_EventID) "" (RMap [("rk_id"%string, rbytes rkID)]) now) ≫= fun _ =>
  recordAuditEvent principal.(pr_AccountID) "account.recovery_key_set" [("device_id"%string, VStr principal.(pr_DeviceID))] ≫= fun _ =>
  status ← recoveryKeyStatus principal;
  writeJSON StatusOK (RMap (recoveryKeyPayload true status)).
End handlers.

(** * Which keys are accepted *)

Section field.
Context (p : Z) (p_pos : 0 < p).

(** [a] and [b] are the same element of the field. *)
Definition same_mod (a b : Z) : Prop := a mod p = b mod p.

#[local] Instance same_mod_equiv : Equivalence same_mod.
Proof. unfold same_mod. split; red; intros; congruence. Qed.

#[local] Instance same_mod_add : Proper (same_mod ==> same_mod ==> same_mod) Z.add.
Proof. intros a a' E b b' F. unfold same_mod in *. rewrite (Zplus_mod a b), (Zplus_mod a' b'). congruence. Qed.

#[local] Instance same_mod_mul : Proper (same_mod ==> same_mod ==> same_mod) Z.mul.
Proof. intros a a' E b b' F. unfold same_mod in *. rewrite (Zmult_mod a b), (Zmult_mod a' b'). congruence. Qed.






End field.



(** ** Keys as numbers *)



Example base_point_accepted : validRecoveryAuthKey (default "" (DecodeString "5866666666666666666666666666666666666666666666666666666666666666")) = true.
Proof. vm_compute. reflexivity. Qed.

Example not_on_curve_refused : validRecoveryAuthKey (default "" (DecodeString "0200000000000000000000000000000000000000000000000000000000000000")) = false.
Proof. vm_compute. reflexivity. Qed.

Example one_again_refused : validRecoveryAuthKey (default "" (DecodeString "eeffffffffffffffffffffffffffffffffffffffffffffffffffffffffffff7f")) = false.
Proof. vm_compute. reflexivity. Qed.

#[local] Opaque ed25519FieldPrime ed25519CurveD ModInverse ModSqrt recoverySmallOrderKeys.









