(* ===== verification/HttpRules.v ===== *)
(** * Handlers: how they reply, what they have seen, login

    Two judgements on the computations of [Http]: [replies m P], every reply
    [m] ends the handler with satisfies [P]; and [grows m], the history of the
    steps only grows.  With them the login handler is followed step by step
    under arbitrary interference. *)

From S2P Require Import Prelude GoStrings Config LoginBackoff Admission RateLimiter Hub Domain Database Identity Sessions Passwords DeviceLinks Devices Bodies Http AuthHandlers SyncHandlers.
From stdpp Require Import base numbers list strings gmap fin_maps.
From Stdlib Require Import ZArith ZifyBool Lia.
Open Scope Z_scope.

Create HintDb http.

Section logic.
Context {NET : Network} {FLT : Float64} {RUN : GoRuntime} {CRY : GoCrypto} {PWH : PasswordHashing}.

(** ** Replies *)

Definition replies {A} (m : H A) (P : Response -> Prop) : Prop := forall am st resp st', m am st = (Err resp, st') -> P resp.

Lemma replies_ret {A} (a : A) P : replies (mret a : H A) P.
Proof. intros am st resp st' [=]. Qed.

Lemma replies_bind {A B} (m : H A) (k : A -> H B) P : replies m P -> (forall a, replies (k a) P) -> replies (m ≫= k) P.
Proof. intros Hm Hk am st resp st'. unfold mbind, H_bind. destruct (m am st) as [[a|e] st1] eqn:E; [by apply Hk|]. intros [= <- <-]. by eapply Hm. Qed.

Lemma replies_respond {A} r (P : Response -> Prop) : P r -> replies (respond r : H A) P.
Proof. by intros Hr am st resp st' [= <- <-]. Qed.

Lemma replies_stepL {A} (f : Moment -> Local * Server -> A * (Local * Server)) P : replies (stepL f) P.
Proof. intros am [l s] resp st'. unfold stepL. destruct (f _ _) as [a st]. intros [=]. Qed.

Lemma replies_step {A} (f : Moment -> Server -> A * Server) P : replies (step f) P.
Proof. apply replies_stepL. Qed.

Lemma replies_call {A} (f : Moment -> Tx A) P : replies (call f) P.
Proof. apply replies_stepL. Qed.

Lemma replies_weaken {A} (m : H A) (P Q : Response -> Prop) : replies m P -> (forall r, P r -> Q r) -> replies m Q.
Proof. intros Hm HPQ am st resp st' E. by eapply HPQ, Hm. Qed.

(** What a refusal says: anything but a success. *)
Definition refusal (r : Response) : Prop := 400 <= r.(rs_status).

Lemma replies_error {A} status code : 400 <= status -> replies (writeError status code : H A) refusal.
Proof. intros Hs. by apply replies_respond. Qed.

Lemma replies_error_after {A} seconds status code : 400 <= status -> replies (writeErrorAfter seconds status code : H A) refusal.
Proof. intros Hs. by apply replies_respond. Qed.

Lemma replies_ensure b status code : 400 <= status -> replies (ensure b status code) refusal.
Proof. intros Hs. destruct b; [apply replies_ret|by apply replies_error]. Qed.

Lemma replies_readAll limit r P : replies (readAll limit r) P.
Proof. by intros am [l s] resp st'. Qed.

(** ** The history *)

Definition grows {A} (m : H A) : Prop :=
  forall am l s out l' s', m am (l, s) = (out, (l', s')) -> exists new, l'.(lo_seen) = new ++ l.(lo_seen).

Lemma grows_ret {A} (a : A) : grows (mret a : H A).
Proof. intros am l s out l' s' [= <- <- <-]. by exists []. Qed.

Lemma grows_bind {A B} (m : H A) (k : A -> H B) : grows m -> (forall a, grows (k a)) -> grows (m ≫= k).
Proof.
  intros Hm Hk am l s out l' s'. unfold mbind, H_bind. destruct (m am (l, s)) as [[a|e] [l1 s1]] eqn:E; apply Hm in E as (new & E).
  - intros (new' & E')%Hk. exists (new' ++ new). by rewrite E', E, <- app_assoc.
  - intros [= <- <- <-]. by exists new.
Qed.

Lemma grows_respond {A} r : grows (respond r : H A).
Proof. intros am l s out l' s' [= <- <- <-]. by exists []. Qed.

Lemma grows_step {A} (f : Moment -> Server -> A * Server) : grows (step f).
Proof. intros am l s out l' s'. unfold step, stepL. destruct (f _ _) as [a s1]. intros [= <- <- <-]. by exists [mo_env (am (length (lo_seen l))) s]. Qed.

Lemma grows_readAll limit r : grows (readAll limit r).
Proof. intros am l s out l' s' [= <- <- <-]. by exists []. Qed.

Lemma grows_ensure b status code : grows (ensure b status code).
Proof. destruct b; [apply grows_ret|apply grows_respond]. Qed.

Lemma grows_call {A} (f : Moment -> Tx A) : grows (call f).
Proof. apply grows_step. Qed.

Lemma grows_settle_charge f : grows (settle_charge f).
Proof.
  intros am l s out l' s'. unfold settle_charge, stepL. cbn [tick lo_charge]. destruct (lo_charge l) as [c|].
  - destruct (f _ _ _) as [[[ok ra] c'] rl]. intros [= <- <- <-]. by exists [mo_env (am (length (lo_seen l))) s].
  - intros [= <- <- <-]. by exists [mo_env (am (length (lo_seen l))) s].
Qed.

(** ** Following a run *)

Lemma bind_reply {A B} (m : H A) (k : A -> H B) am st resp st' P :
  replies m P -> ~ P resp -> (m ≫= k) am st = (Err resp, st') -> exists a st1, m am st = (Ok a, st1) /\ k a am st1 = (Err resp, st').
Proof.
  intros Hm Hn. unfold mbind, H_bind. destruct (m am st) as [[a|e] st1] eqn:E; [eauto|]. intros [= <- <-]. by destruct Hn; eapply Hm.
Qed.

Lemma step_seen {A} (f : Moment -> Server -> A * Server) am l s a l' s' :
  step f am (l, s) = (Ok a, (l', s')) ->
  exists m s1, m.(mo_env) s = s1 /\ l' = tick s1 l /\ f m s1 = (a, s').
Proof.
  unfold step, stepL. destruct (f _ _) as [x s2] eqn:E. intros [= <- <- <-]. eauto.
Qed.

Lemma call_seen {A} (f : Moment -> Tx A) am l s r l' s' :
  call f am (l, s) = (Ok r, (l', s')) ->
  exists m s1, m.(mo_env) s = s1 /\ l' = tick s1 l /\ (f m s1.(sv_store)).1 = r.
Proof.
  unfold call. intros (m & s1 & E & El & Ef)%step_seen. exists m, s1. split_and!; [done|done|]. by destruct (f m (sv_store s1)) as [x st]; injection Ef as <- <-.
Qed.

Lemma replies_answers {A} (m : H A) P am st resp st' : m am st = (Err resp, st') -> replies m P -> P resp.
Proof. intros E Hm. by eapply Hm. Qed.

Lemma grows_history {A} (m : H A) am l s out l' s' : m am (l, s) = (out, (l', s')) -> grows m -> exists new, l'.(lo_seen) = new ++ l.(lo_seen).
Proof. intros E Hm. by eapply Hm. Qed.

Lemma bind_okH {A B} (m : H A) (k : A -> H B) am st b st' :
  (m ≫= k) am st = (Ok b, st') -> exists a st1, m am st = (Ok a, st1) /\ k a am st1 = (Ok b, st').
Proof. unfold mbind, H_bind. destruct (m am st) as [[a|e] st1]; [eauto|done]. Qed.

Lemma ensure_ok b status code am st u st' : ensure b status code am st = (Ok u, st') -> b = true /\ st' = st.
Proof. destruct b; [|done]. by intros [= _ <-]. Qed.
End logic.

#[export] Hint Resolve replies_ret replies_stepL replies_readAll grows_ret grows_respond grows_step grows_readAll grows_ensure grows_call grows_settle_charge : http.
#[export] Hint Extern 1 (400 <= _) => vm_compute; discriminate : http.
#[export] Hint Resolve replies_error replies_error_after replies_ensure : http.

(** Computations made of binds, choices and the steps above. *)
Ltac follow_http :=
  repeat first [
    solve [eauto 2 with http]
  | apply replies_bind; [|intros ?] | apply grows_bind; [|intros ?]
  | match goal with
    | |- replies (match ?x with _ => _ end) _ => destruct x
    | |- grows (match ?x with _ => _ end) => destruct x
    end ].

Section login.
Context {NET : Network} {FLT : Float64} {RUN : GoRuntime} {CRY : GoCrypto} {PWH : PasswordHashing}.
Context (sha256_salted : string -> string) (a : API).

(** ** The parts of a login *)

Lemma decodeInto_ok st raw am x f x' : decodeInto st raw am x = (Ok f, x') -> decodeRawJSON st raw = Some f /\ x' = x.
Proof. unfold decodeInto. destruct (decodeRawJSON st raw); [by intros [= <- <-]|by intros [=]]. Qed.

Lemma decodeJSON_ok st r am l s f l' s' :
  decodeJSON st r am (l, s) = (Ok f, (l', s')) -> decodeRawJSON st r.(rq_body) = Some f /\ l'.(lo_seen) = l.(lo_seen) /\ s' = s.
Proof.
  unfold decodeJSON, readLimitedJSON, readAll, mbind, H_bind. destruct (_ || _); [done|]. destruct (_ =s? _); [done|].
  cbn [mret H_ret]. by intros [? [= -> ->]]%decodeInto_ok.
Qed.

Lemma decodeJSON_refusal st r : replies (decodeJSON st r) refusal.
Proof. unfold decodeJSON, readLimitedJSON, decodeInto. follow_http. Qed.

Lemma wait_refusal code ids : replies (refuseWhileWaiting sha256_salted code ids) refusal.
Proof. unfold refuseWhileWaiting, writeRetryError. follow_http. Qed.

Lemma wait_grows code ids : grows (refuseWhileWaiting sha256_salted code ids).
Proof. unfold refuseWhileWaiting, writeRetryError. follow_http. Qed.

Lemma attempt_refusal {A} code ids : replies (refuseAttempt sha256_salted code ids : H A) refusal.
Proof. unfold refuseAttempt, writeRetryError. follow_http. Qed.

Lemma verify_refusal h p : replies (verifyPassword h p) refusal.
Proof. unfold verifyPassword, writePasswordHashFailure. follow_http. Qed.

Lemma secret_refusal failure : replies (newSecret failure) refusal.
Proof. unfold newSecret, NewToken. follow_http. Qed.

#[local] Hint Resolve decodeJSON_refusal wait_refusal wait_grows attempt_refusal verify_refusal secret_refusal : http.

(** The stored hash accepts the password; the padding work has no say in it. *)
Definition accepts (stored password : string) : bool := (VerifyPassword stored password (mkVerifyOptions 0 false)).1.(pc_OK).

Lemma verify_accepts stored password opts : (VerifyPassword stored password opts).1.(pc_OK) = accepts stored password.
Proof. unfold accepts, VerifyPassword. repeat case_match; done. Qed.

Lemma verifyPassword_ok stored password am l s check l' s' :
  verifyPassword stored password am (l, s) = (Ok check, (l', s')) -> check.(pc_OK) = accepts stored password /\ exists s1, l' = tick s1 l.
Proof.
  unfold verifyPassword. intros H. unfold mbind, H_bind in H. destruct (step _ am (l, s)) as [[r|e] [l1 s1]] eqn:E; [|done].
  destruct r as [c|e]; [|by destruct e]. injection H as <- <- <-. apply step_seen in E as (m & s2 & _ & -> & E).
  split; [|by exists s2]. destruct (mo_slot m); [done|]. unfold Verify in E. destruct (legacy_present _ _) as [legacy p].
  destruct (VerifyPassword _ _ _) as [c' w] eqn:Ev. injection E as <- _. by rewrite <- (verify_accepts _ _ (mkVerifyOptions (pw_bcryptCost p) legacy)), Ev.
Qed.

Lemma newSecret_ok failure am l s token hash l' s' :
  newSecret failure am (l, s) = (Ok (token, hash), (l', s')) -> hash = HashToken token /\ exists s1, l' = tick s1 l.
Proof.
  unfold newSecret, NewToken. intros H. unfold mbind, H_bind in H. destruct (step _ am (l, s)) as [[r|e] [l1 s1]] eqn:E; [|done].
  destruct r as [x|]; [|done]. injection H as -> <- <-. apply step_seen in E as (m & s2 & _ & -> & E).
  split; [|by exists s2]. destruct (mo_randomFails m); [done|]. by injection E as <- <- _.
Qed.

(** ** Who gets a session *)

(** The device is the account's, neither is revoked, and the secret is its. *)
Definition device_known (s : Server) (username deviceID secret account : string) : Prop :=
  exists dev acc,
    (sv_db s).(rooms).(devices) !! TrimSpace deviceID = Some dev /\ dev.(dev_account_id) = account /\ device_live dev = true /\
    (sv_db s).(rooms).(accounts) !! account = Some acc /\ acc.(acc_username) = NormalizeUsername username /\ account_live acc = true /\
    dev.(dev_auth_secret_hash) = Some (HashToken secret).

(** The account's stored hash accepts the password. *)
Definition password_known (s : Server) (account password : string) : Prop :=
  exists acc, (sv_db s).(rooms).(accounts) !! account = Some acc /\ account_live acc = true /\ accepts acc.(acc_password_hash) password = true.

(** The session's row goes in at this state. *)
Definition session_made (s : Server) (token account deviceID : string) : Prop :=
  exists now at_ hash, (CreateLoginSession now at_ (HashToken token) account deviceID hash s.(sv_store)).1 = Ok tt.

Lemma outcome {A} (m : Tx A) s x : (m s).1 = Ok x -> exists s', m s = (Ok x, s').
Proof. destruct (m s) as [r s']. cbn. intros ->. by exists s'. Qed.

Lemma LoginRecord_ok username deviceID (s : Server) record secret :
  (LoginRecord username deviceID s.(sv_store)).1 = Ok record -> secretMatches secret record.(lr_DeviceAuthHash) = true ->
  device_known s username deviceID secret record.(lr_AccountID) /\ record.(lr_DeviceID) = TrimSpace deviceID.
Proof.
  intros [s' E]%outcome Hm. unfold LoginRecord in E. run E. split; [|done]. cbn [lr_AccountID lr_DeviceAuthHash] in *.
  repeat match goal with H : (_ && _) = true |- _ => apply andb_prop in H as [? ?] | H : (_ =s? _) = true |- _ => apply str_eqb_true in H end.
  unfold secretMatches in Hm. apply andb_prop in Hm as [Hne Hm]. apply str_eqb_true in Hm.
  eexists _, _. split_and!; try done. destruct (dev_auth_secret_hash _) as [h|]; cbn in Hm; [by rewrite Hm|]. by cbn in Hne.
Qed.

Lemma CreateLoginSession_ok now at_ hash account deviceID stored (s : Server) password :
  (CreateLoginSession now at_ hash account deviceID stored s.(sv_store)).1 = Ok tt -> accepts stored password = true -> password_known s account password.
Proof.
  intros [s' E]%outcome Ha. unfold CreateLoginSession in E. run E. destruct (sessionLifetime _ _ _) as [x y]. run E.
  repeat match goal with H : (_ && _) = true |- _ => apply andb_prop in H as [? ?] | H : (_ =s? _) = true |- _ => apply str_eqb_true in H end.
  subst. eexists. split_and!; done.
Qed.

Lemma LoginRecord_device username deviceID (s : Server) record :
  (LoginRecord username deviceID s.(sv_store)).1 = Ok record -> record.(lr_DeviceID) = TrimSpace deviceID.
Proof. intros [s' E]%outcome. unfold LoginRecord in E. by run E. Qed.

(** One insertion of the session of a record whose hash accepts the password. *)
Lemma create_step record token password deviceID am l s l' s' :
  call (fun m => CreateLoginSession (m.(mo_now) 0%nat) (m.(mo_now) 1%nat) (HashToken token) record.(lr_AccountID) record.(lr_DeviceID) record.(lr_PasswordHash))
    am (l, s) = (Ok (Ok tt), (l', s')) ->
  accepts record.(lr_PasswordHash) password = true -> record.(lr_DeviceID) = TrimSpace deviceID ->
  exists made, l'.(lo_seen) = made :: l.(lo_seen) /\ session_made made token record.(lr_AccountID) (TrimSpace deviceID) /\ password_known made record.(lr_AccountID) password.
Proof.
  intros (m & s1 & _ & -> & E)%call_seen Ha Hd. exists s1. split_and!; [done| |by eapply CreateLoginSession_ok].
  rewrite Hd in E. by eexists _, _, _.
Qed.

Lemma createLoginSession_ok username password deviceID token record check am l s record' check' l' s' :
  createLoginSession username password deviceID (HashToken token) record check am (l, s) = (Ok (record', check', Ok tt), (l', s')) ->
  accepts record.(lr_PasswordHash) password = true -> record.(lr_DeviceID) = TrimSpace deviceID ->
  exists made mid, l'.(lo_seen) = made :: mid ++ l.(lo_seen) /\ record'.(lr_AccountID) = record.(lr_AccountID) /\ record'.(lr_DeviceID) = TrimSpace deviceID /\
    session_made made token record.(lr_AccountID) (TrimSpace deviceID) /\ password_known made record.(lr_AccountID) password.
Proof.
  intros (created & [l1 s1] & E1 & H)%bind_okH Ha Hd. cbv zeta in E1. destruct created as [[]|e].
  { injection H as <- _ <- _. eapply create_step in E1 as (made & El & Hm & Hp); [|done|done]. exists made, []. by rewrite El. }
  destruct e; try done. apply bind_okH in H as (found & [l2 s2] & E2 & H). apply call_seen in E2 as (m2 & t2 & _ & -> & E2).
  destruct found as [current|]; [|done]. destruct (_ && _) eqn:Eb; [|done]. apply andb_prop in Eb as [[Ea _]%andb_prop _]. apply str_eqb_true in Ea.
  apply bind_okH in H as (recheck & [l3 s3] & E3 & H). apply verifyPassword_ok in E3 as [Hok [t3 ->]].
  destruct (pc_OK recheck) eqn:Eok; [|done]. apply bind_okH in H as (again & [l4 s4] & E4 & H). injection H as <- _ -> <- _.
  apply call_seen in E1 as (m1 & t1 & _ & -> & _). cbv zeta in E4.
  eapply create_step in E4 as (made & El & Hm & Hp); [|by rewrite <- Hok|by eapply LoginRecord_device].
  exists made, [t3; t2; t1]. rewrite <- Ea. split_and!; [by rewrite El|done|by eapply LoginRecord_device|done|done].
Qed.

Lemma createLoginSession_refusal username password deviceID token record check :
  replies (createLoginSession username password deviceID token record check) refusal.
Proof. unfold createLoginSession, call, step. follow_http. Qed.

(** After the session was made nothing can refuse. *)
Lemma login_answer account role deviceID token stored password check keys am l s resp l' s' :
  (upgradePassword account stored password check ≫= fun _ =>
   attemptSucceeded sha256_salted keys ≫= fun _ =>
   recordAuditEvent account "session.login" [("device_id"%string, VStr deviceID)] ≫= fun _ =>
   writeJSON StatusOK (RMap [("token", rstr token); ("account_id", rstr account); ("device_id", rstr deviceID); ("role", rstr role)]%string) : H unit)
    am (l, s) = (Err resp, (l', s')) ->
  resp.(rs_body) = Some (RMap [("token", rstr token); ("account_id", rstr account); ("device_id", rstr deviceID); ("role", rstr role)]%string) /\
  exists recent, l'.(lo_seen) = recent ++ l.(lo_seen).
Proof.
  intros H. split.
  - eapply (replies_answers _ (fun resp => resp.(rs_body) = _)); [exact H|]. unfold attemptSucceeded, recordAuditEvent. follow_http. by apply replies_respond.
  - eapply grows_history; [exact H|]. unfold attemptSucceeded, recordAuditEvent, upgradePassword. follow_http.
Qed.

(** C9: a login under any interference of other requests answers 200 only when
    the request named the username, the password, the device and its secret;
    the state in which the record was looked up has the device of that live
    account, not revoked, with the hash of that secret; a later state, in which
    the session of the token in the reply is inserted, has a stored hash of the
    account that accepts the password, whatever became of the password in
    between. *)
Theorem login_needs_credentials r am l s resp l' s' :
  login sha256_salted a r am (l, s) = (Err resp, (l', s')) -> resp.(rs_status) = StatusOK ->
  exists req token account role recent made mid found old,
    decodeRawJSON loginRequest r.(rq_body) = Some req /\
    l'.(lo_seen) = recent ++ made :: mid ++ found :: old ++ l.(lo_seen) /\
    device_known found (f_str req "username") (f_str req "device_id") (f_str req "device_secret") account /\
    password_known made account (f_str req "password") /\
    session_made made token account (TrimSpace (f_str req "device_id")) /\
    resp.(rs_body) = Some (RMap [("token", rstr token); ("account_id", rstr account); ("device_id", rstr (TrimSpace (f_str req "device_id"))); ("role", rstr role)]%string).
Proof.
  intros H Hs. assert (~ refusal resp) as Hr by (unfold refusal; rewrite Hs; by vm_compute). unfold login in H.
  apply (bind_reply _ _ _ _ _ _ refusal) in H as (req & [l1 s1] & E1 & H); [|apply decodeJSON_refusal|done].
  apply decodeJSON_ok in E1 as (Eq & El1 & ->). cbv zeta in H. destruct (loginBackoffKeys _ _ _ _) as [sourceKey pairKey].
  apply (bind_reply _ _ _ _ _ _ refusal) in H as ([] & x & E & H); [|by apply replies_ensure|done]. apply ensure_ok in E as [_ ->].
  apply (bind_reply _ _ _ _ _ _ refusal) in H as ([] & [l2 s2] & E2 & H); [|apply wait_refusal|done].
  apply wait_grows in E2 as [new2 El2].
  apply (bind_reply _ _ _ _ _ _ refusal) in H as (found & [l3 s3] & E3 & H); [|apply replies_stepL|done].
  apply call_seen in E3 as (m3 & t3 & _ & -> & E3).
  apply (bind_reply _ _ _ _ _ _ refusal) in H as (check & [l4 s4] & E4 & H); [|apply verify_refusal|done].
  apply verifyPassword_ok in E4 as [Hok [t4 ->]].
  apply (bind_reply _ _ _ _ _ _ refusal) in H as ([] & [l5 s5] & E5 & H); [|destruct found; [destruct secretMatches|]; follow_http|done].
  assert (grows (if match found with Ok record => secretMatches (f_str req "device_secret") (lr_DeviceAuthHash record) | Err _ => false end
    then refuseWhileWaiting sha256_salted "login_backoff" [pairKey] else mret tt)) as G by (destruct found; [destruct secretMatches|]; follow_http).
  apply G in E5 as [new5 El5]. clear G. destruct found as [record|e]; [|by apply attempt_refusal in H].
  destruct (negb _ || _) eqn:Eb; [by apply attempt_refusal in H|]. apply orb_false_elim in Eb as [Hp%negb_false_iff Hd%negb_false_iff].
  rewrite Hp in Hok. symmetry in Hok.
  apply (bind_reply _ _ _ _ _ _ refusal) in H as ([token hash] & [l6 s6] & E6 & H); [|apply secret_refusal|done]. apply newSecret_ok in E6 as [-> [t6 ->]].
  apply (bind_reply _ _ _ _ _ _ refusal) in H as ([[record' check'] created] & [l7 s7] & E7 & H); [|apply createLoginSession_refusal|done].
  destruct created as [[]|e]; [|destruct e; by apply replies_error in H].
  destruct (LoginRecord_ok _ _ _ _ _ E3 Hd) as [Hk Hdev].
  apply createLoginSession_ok in E7 as (made & mid & El7 & Ea' & Ed' & Hm & Hpw); [|done|done].
  apply login_answer in H as [Hbody [recent El]]. rewrite Ea', Ed' in Hbody.
  exists req, token, record.(lr_AccountID), record'.(lr_Role), recent, made, (mid ++ t6 :: new5 ++ [t4]), t3, new2. split_and!; try done.
  rewrite El, El7. cbn [tick lo_seen]. rewrite El5. cbn [tick lo_seen]. rewrite El2, El1, <- !app_assoc. cbn. by rewrite <- !app_assoc.
Qed.

(** ** What a guess at the password shows *)

(** Two computations that do the same to the server and answer the same,
    whatever of the request they read. *)
Definition alike {A B} (R : A -> B -> Prop) (m1 : H A) (m2 : H B) : Prop := forall am l1 l2 s,
  l1.(lo_seen) = l2.(lo_seen) ->
  match m1 am (l1, s), m2 am (l2, s) with
  | (Ok a, (l1', s1)), (Ok b, (l2', s2)) => R a b /\ l1'.(lo_seen) = l2'.(lo_seen) /\ s1 = s2
  | (Err r1, (l1', s1)), (Err r2, (l2', s2)) => r1 = r2 /\ l1'.(lo_seen) = l2'.(lo_seen) /\ s1 = s2
  | _, _ => False
  end.

Lemma alike_ret {A B} (R : A -> B -> Prop) x y : R x y -> alike R (mret x : H A) (mret y : H B).
Proof. by intros Hxy am l1 l2 s El. Qed.

Lemma alike_respond {A B} (R : A -> B -> Prop) r : alike R (respond r : H A) (respond r : H B).
Proof. by intros am l1 l2 s El. Qed.

Lemma alike_ensure b status code : alike eq (ensure b status code) (ensure b status code).
Proof. destruct b; [by apply alike_ret|apply alike_respond]. Qed.

Lemma alike_step {A} (R : A -> A -> Prop) (f g : Moment -> Server -> A * Server) :
  (forall m s, R (f m s).1 (g m s).1 /\ (f m s).2 = (g m s).2) -> alike R (step f) (step g).
Proof.
  intros Hfg am l1 l2 s El. unfold step, stepL, tick. rewrite El.
  destruct (Hfg (am (length (lo_seen l2))) (mo_env (am (length (lo_seen l2))) s)) as [HR Hs].
  destruct (f _ _) as [x s1], (g _ _) as [y s2]. cbn [fst snd lo_seen] in *. by subst.
Qed.

Lemma alike_bind {A B C D} (R : A -> B -> Prop) (T : C -> D -> Prop) m1 m2 (k1 : A -> H C) (k2 : B -> H D) :
  alike R m1 m2 -> (forall x y, R x y -> alike T (k1 x) (k2 y)) -> alike T (m1 ≫= k1) (m2 ≫= k2).
Proof.
  intros Hm Hk am l1 l2 s El. specialize (Hm am l1 l2 s El). unfold mbind, H_bind.
  destruct (m1 am (l1, s)) as [[x|e1] [l1' s1]], (m2 am (l2, s)) as [[y|e2] [l2' s2]]; try done. destruct Hm as (HR & El' & ->). by apply Hk.
Qed.

Lemma legacy_alike stored p1 p2 opts : (VerifyPassword stored p1 opts).1.(pc_Legacy) = (VerifyPassword stored p2 opts).1.(pc_Legacy).
Proof. unfold VerifyPassword. repeat case_match; done. Qed.

Lemma verify_alike stored p1 p2 : alike (fun _ _ => True) (verifyPassword stored p1) (verifyPassword stored p2).
Proof.
  unfold verifyPassword. eapply alike_bind with (R := fun x y => match x, y with Ok _, Ok _ => True | Err e, Err e' => e = e' | _, _ => False end).
  - apply alike_step. intros m s. destruct (mo_slot m); [done|]. unfold Verify. destruct (legacy_present _ _) as [legacy p].
    pose proof (legacy_alike stored p1 p2 (mkVerifyOptions (pw_bcryptCost p) legacy)) as E.
    destruct (VerifyPassword stored p1 _) as [c1 w1], (VerifyPassword stored p2 _) as [c2 w2]. cbn [fst] in E. cbn. by rewrite E.
  - intros [c1|e1] [c2|e2] Hxy; try done. subst. destruct e2; apply alike_respond.
Qed.

(** The body arrives whole, is not too large and is not blank. *)
Definition readable (r : HttpRequest) : Prop :=
  blen r.(rq_body) <= maxJSONBody /\ r.(rq_broken) = false /\ TrimSpace r.(rq_body) <> ""%string.

Lemma decode_alike st r1 r2 q1 q2 :
  readable r1 -> readable r2 -> decodeRawJSON st r1.(rq_body) = Some q1 -> decodeRawJSON st r2.(rq_body) = Some q2 ->
  alike (fun x y => x = q1 /\ y = q2) (decodeJSON st r1) (decodeJSON st r2).
Proof.
  intros (Hl1 & Hb1 & Hn1) (Hl2 & Hb2 & Hn2) E1 E2 am l1 l2 s El. unfold decodeJSON, readLimitedJSON, readAll, decodeInto, mbind, H_bind.
  rewrite Hb1, Hb2, (proj2 (Z.ltb_ge _ _) Hl1), (proj2 (Z.ltb_ge _ _) Hl2). cbn [orb].
  rewrite (proj2 (str_eqb_false _ _) Hn1), (proj2 (str_eqb_false _ _) Hn2). cbn [mret H_ret]. by rewrite E1, E2.
Qed.

(** One run of each from the same state, when every state the first one sees
    is as [N] says. *)
Definition same_run {A} (N : Server -> Prop) (m1 m2 : H A) am l1 l2 s : Prop := forall out l1' s',
  m1 am (l1, s) = (out, (l1', s')) -> (forall st, st ∈ l1'.(lo_seen) -> N st) ->
  exists l2', m2 am (l2, s) = (out, (l2', s')) /\ l2'.(lo_seen) = l1'.(lo_seen).

Lemma same_alike {A} N (m1 m2 : H A) am l1 l2 s : alike eq m1 m2 -> l1.(lo_seen) = l2.(lo_seen) -> same_run N m1 m2 am l1 l2 s.
Proof.
  intros Hm El out l1' s' E _. specialize (Hm am l1 l2 s El). rewrite E in Hm.
  destruct out as [x|r], (m2 am (l2, s)) as [[y|r2] [l4 s4]]; try done; destruct Hm as (-> & El' & ->); by exists l4.
Qed.

Lemma same_bind {A B C} (R : A -> B -> Prop) N m1 m2 (k1 : A -> H C) (k2 : B -> H C) am l1 l2 s :
  alike R m1 m2 -> l1.(lo_seen) = l2.(lo_seen) ->
  (forall x y l3 l4 s3, R x y -> l3.(lo_seen) = l4.(lo_seen) -> m1 am (l1, s) = (Ok x, (l3, s3)) -> same_run N (k1 x) (k2 y) am l3 l4 s3) ->
  same_run N (m1 ≫= k1) (m2 ≫= k2) am l1 l2 s.
Proof.
  intros Hm El Hk out l1' s' E HN. specialize (Hm am l1 l2 s El). unfold mbind, H_bind in *.
  destruct (m1 am (l1, s)) as [[x|e1] [l3 s1]] eqn:E1, (m2 am (l2, s)) as [[y|e2] [l4 s2]] eqn:E2; try done; destruct Hm as (HR & El' & ->).
  - by eapply Hk.
  - injection E as <- <- <-. subst. by exists l4.
Qed.

Lemma same_seen {A} N (m1 m2 : H A) am l1 l2 s :
  grows m1 -> ((forall st, st ∈ l1.(lo_seen) -> N st) -> same_run N m1 m2 am l1 l2 s) -> same_run N m1 m2 am l1 l2 s.
Proof.
  intros Hg Hm out l1' s' E HN. destruct (Hg _ _ _ _ _ _ E) as [new El]. eapply Hm; [|done..].
  intros st Hst. apply HN. rewrite El. apply elem_of_app. by right.
Qed.

Lemma alike_wait code ids : alike eq (refuseWhileWaiting sha256_salted code ids) (refuseWhileWaiting sha256_salted code ids).
Proof.
  unfold refuseWhileWaiting, writeRetryError. eapply alike_bind with (R := eq); [by apply alike_step|].
  intros d ? <-. destruct (0 <? d); [apply alike_respond|by apply alike_ret].
Qed.

Lemma alike_attempt code ids : alike (A := unit) (B := unit) eq (refuseAttempt sha256_salted code ids) (refuseAttempt sha256_salted code ids).
Proof.
  unfold refuseAttempt, writeRetryError. eapply alike_bind with (R := eq); [by apply alike_step|].
  intros d ? <-. destruct (0 <? d); apply alike_respond.
Qed.

Lemma verify_grows h p : grows (verifyPassword h p).
Proof. unfold verifyPassword, writePasswordHashFailure. follow_http. Qed.
#[local] Hint Resolve verify_grows : http.

(** C10: two login requests that differ in the password only, to an account
    whose device the presented secret never matches while the request runs,
    get the same reply and leave the server in the same state, whatever the
    others do meanwhile: without the device's secret nothing of a guessed
    password shows, not even to the backoff of the account and device. *)
Theorem stranger_learns_nothing r1 r2 q1 q2 am l s out l' s' :
  r1.(rq_base) = r2.(rq_base) -> readable r1 -> readable r2 ->
  decodeRawJSON loginRequest r1.(rq_body) = Some q1 -> decodeRawJSON loginRequest r2.(rq_body) = Some q2 ->
  f_str q1 "username" = f_str q2 "username" -> f_str q1 "device_id" = f_str q2 "device_id" -> f_str q1 "device_secret" = f_str q2 "device_secret" ->
  login sha256_salted a r1 am (l, s) = (out, (l', s')) ->
  (forall st record, st ∈ l'.(lo_seen) -> (LoginRecord (f_str q1 "username") (f_str q1 "device_id") st.(sv_store)).1 = Ok record ->
     secretMatches (f_str q1 "device_secret") record.(lr_DeviceAuthHash) = false) ->
  exists l2, login sha256_salted a r2 am (l, s) = (out, (l2, s')) /\ l2.(lo_seen) = l'.(lo_seen).
Proof.
  intros Hbase Hr1 Hr2 Eq1 Eq2 Eu Ed Es H Hno.
  enough (same_run (fun st => forall record, (LoginRecord (f_str q1 "username") (f_str q1 "device_id") st.(sv_store)).1 = Ok record ->
     secretMatches (f_str q1 "device_secret") record.(lr_DeviceAuthHash) = false) (login sha256_salted a r1) (login sha256_salted a r2) am l l s) as Hsame by eauto.
  clear H Hno. unfold login. eapply same_bind; [by apply decode_alike|done|]. intros ? ? l3 l4 s3 [-> ->] El _. cbv zeta.
  unfold loginBackoffKeys, clientIP. rewrite <- Hbase, <- Eu, <- Ed, <- Es.
  eapply same_bind; [apply alike_ensure|done|]. intros ? ? l5 l6 s5 _ El5 _.
  eapply same_bind; [apply alike_wait|done|]. intros ? ? l7 l8 s7 _ El7 _.
  eapply same_bind; [by apply (alike_step eq)|done|]. intros found ? l9 l10 s9 <- El9 E.
  apply call_seen in E as (m & st & _ & -> & E).
  apply same_seen; [unfold createLoginSession, newSecret, NewToken, attemptSucceeded, recordAuditEvent, upgradePassword, refuseAttempt, writeRetryError; follow_http|].
  intros HN. apply same_alike; [|done]. specialize (HN st (list_elem_of_here _ _)).
  assert (match found with Ok record => secretMatches (f_str q1 "device_secret") (lr_DeviceAuthHash record) | Err _ => false end = false) as ->
    by (destruct found; eauto).
  eapply alike_bind; [destruct found; apply verify_alike|]. intros c1 c2 _. eapply alike_bind with (R := eq); [by apply alike_ret|]. intros _ _ _.
  rewrite !orb_true_r. destruct found; apply alike_attempt.
Qed.
End login.

Section routes.
Context {NET : Network} {FLT : Float64} {RUN : GoRuntime} {CRY : GoCrypto}.

(** ** Who reaches a route *)

(** The token is a session's current one, or one it has just rotated out; the
    session has not expired, its account is active, its device is not revoked;
    and the principal is theirs.  A rotated-out token carries no recent
    sign-in. *)
Definition signed_in (seen : Server) (now : Z) (token : string) (p : Principal) : Prop :=
  exists k row acc,
    (sv_db seen).(sessions) !! k = Some row /\
    (k = HashToken token /\ p.(pr_RecentAuthAt) = row.(ss_recent_auth_at) \/
     in_grace now (HashToken token) row = true /\ p.(pr_RecentAuthAt) = None) /\
    unexpired seen.(sv_store).(session_policy) now row = true /\
    (sv_db seen).(rooms).(accounts) !! row.(ss_account_id) = Some acc /\ account_live acc = true /\
    (forall dev, row.(ss_device_id) = Some dev -> exists x, (sv_db seen).(rooms).(devices) !! dev = Some x /\ device_live x = true) /\
    p.(pr_AccountID) = row.(ss_account_id) /\ p.(pr_DeviceID) = default ""%string row.(ss_device_id) /\ p.(pr_Role) = acc.(acc_role).

Lemma valid_session p d now row :
  sessionValidity p d now row = true ->
  unexpired p now row = true /\ (exists acc, d.(rooms).(accounts) !! row.(ss_account_id) = Some acc /\ account_live acc = true) /\
  (forall dev, row.(ss_device_id) = Some dev -> exists x, d.(rooms).(devices) !! dev = Some x /\ device_live x = true).
Proof.
  unfold sessionValidity. intros [[Hu Ha]%andb_prop Hd]%andb_prop. split; [done|]. split.
  - destruct (accounts _ !! _) as [acc|]; [by exists acc|done].
  - intros dev E. rewrite E in Hd. destruct (devices _ !! dev) as [x|]; [by exists x|done].
Qed.

Lemma previous_session_valid p d now tokenHash row :
  previous_session p d now tokenHash = Some row ->
  exists k, d.(sessions) !! k = Some row /\ in_grace now tokenHash row = true /\ sessionValidity p d now row = true.
Proof.
  unfold previous_session. destruct (List.filter _ _) as [|[k r] l] eqn:F; intros [= <-]. exists k.
  assert ((k, r) ∈ (k, r) :: l) as Hin by (apply elem_of_cons; by left).
  rewrite <- F, list_elem_of_In, List.filter_In, <- list_elem_of_In, elem_of_map_to_list in Hin. destruct Hin as [Hk [Hg Hv]%andb_prop]. done.
Qed.

Lemma scan_signed_in seen now token k row (rotatedOut : bool) :
  (sv_db seen).(sessions) !! k = Some row -> sessionValidity seen.(sv_store).(session_policy) (sv_db seen) now row = true ->
  (if rotatedOut then in_grace now (HashToken token) row = true else k = HashToken token) ->
  signed_in seen now token (scanSessionPrincipal (sv_db seen) row rotatedOut).1.
Proof.
  intros Ek (Hu & (acc & Ea & Hl) & Hd)%valid_session Hr. exists k, row, acc. split_and!; try done.
  - destruct rotatedOut; [by right|by left].
  - cbn. by rewrite Ea.
Qed.

Lemma SessionPrincipal_signed_in now token seen p act :
  (SessionPrincipal now (HashToken token) seen.(sv_store)).1 = Ok (p, act) -> signed_in seen now token p.
Proof.
  intros [s' E]%outcome. unfold SessionPrincipal in E. apply bind_ok in E as (pol & s1 & E1 & E). run E1.
  apply bind_ok in E as (d & s1 & E1 & E). run E1.
  assert (forall row, previous_session (session_policy (sv_store seen)) (sv_db seen) now (HashToken token) = Some row ->
    signed_in seen now token (scanSessionPrincipal (sv_db seen) row true).1) as Hprev.
  { intros row (k & Ek & Hg & Hv)%previous_session_valid. by eapply scan_signed_in. }
  fold (sv_db seen) in E. match type of E with match ?o with _ => _ end _ = _ => destruct o as [row|] eqn:Er end.
  - injection E as <- _. destruct (sessions _ !! HashToken token) as [row'|] eqn:Ek; [|done]. cbn in Er.
    destruct (sessionValidity _ _ _ row') eqn:Ev; [|done]. injection Er as <-. by eapply (scan_signed_in _ _ _ _ _ false).
  - apply bind_ok in E as (row & s1 & E1 & E). apply require_ok in E1 as [E1 ->]. apply Hprev in E1. by injection E as <- _.
Qed.

(** The refusals before a route, and what runs it. *)
Lemma unauthenticated_reply {A} : replies (refuseUnauthenticated : H A) (fun r => r.(rs_status) = StatusUnauthorized \/ r.(rs_status) = StatusTooManyRequests).
Proof.
  unfold refuseUnauthenticated. apply replies_bind.
  - intros am [l s] resp st'. unfold settle_charge, stepL. repeat case_match; by intros [=].
  - intros [x|]; apply replies_respond; [by right|by left].
Qed.

#[local] Hint Resolve unauthenticated_reply : http.



Lemma admit_reply accountID : replies (admitAccount accountID) (fun r => r.(rs_status) = StatusUnauthorized \/ r.(rs_status) = StatusTooManyRequests).
Proof.
  unfold admitAccount. apply replies_bind.
  - intros am [l s] resp st'. unfold settle_charge, stepL. repeat case_match; by intros [=].
  - intros [x|]; [apply replies_respond; by right|apply replies_ret].
Qed.



End routes.

Section sockets.
Context {NET : Network} {FLT : Float64} {RUN : GoRuntime} {CRY : GoCrypto} {NIP : Netip}.

Lemma authenticate_refusal r : replies (authenticate r) refusal.
Proof.
  unfold authenticate. assert (forall A, replies (refuseUnauthenticated : H A) refusal) as Hu.
  { intros A. eapply replies_weaken; [apply unauthenticated_reply|]. unfold refusal. intros x [-> | ->]; vm_compute; discriminate. }
  destruct (bearerTokenHash r) as [h|]; [|apply Hu]. apply replies_bind; [apply replies_call|]. intros [p|e]; [|apply Hu].
  apply replies_bind; [|intros; apply replies_ret]. eapply replies_weaken; [apply admit_reply|]. unfold refusal. intros x [-> | ->]; vm_compute; discriminate.
Qed.

Lemma bearer_hash r h : bearerTokenHash r = Some h -> h = HashToken (bearerToken r.(rq_base)).
Proof. unfold bearerTokenHash. cbv zeta. case_match; [done|]. by intros [= <-]. Qed.

Lemma PrincipalByTokenHash_signed_in now token seen p :
  (PrincipalByTokenHash now (HashToken token) seen.(sv_store)).1 = Ok p -> signed_in seen now token p.
Proof.
  intros [s' E]%outcome. unfold PrincipalByTokenHash in E. apply bind_ok in E as ([q act] & s1 & E1 & E). injection E as <- _.
  apply (SessionPrincipal_signed_in now token seen q act). by rewrite E1.
Qed.

(** C12: under any interference a socket is handed to the sync stream only when
    its session is valid, for the same account and device, in a state the
    request saw after the hub had registered the socket: whoever ends the
    session afterwards and then disconnects the device finds the socket. *)
Theorem sockets_need_a_live_session a r am l s resp l' s' :
  syncWebSocket a r am (l, s) = (Err resp, (l', s')) -> resp.(rs_status) = StatusSwitchingProtocols ->
  exists p p' client hub registered checked before now,
    l'.(lo_seen) = checked :: registered :: before ++ l.(lo_seen) /\
    Register registered.(sv_hub) p.(pr_AccountID) p.(pr_DeviceID) (ClientIP a.(api_trustedProxies) r.(rq_base)) = (Ok client, hub) /\
    signed_in checked now (bearerToken r.(rq_base)) p' /\ p'.(pr_AccountID) = p.(pr_AccountID) /\ p'.(pr_DeviceID) = p.(pr_DeviceID).
Proof.
  intros H Hs. assert (~ refusal resp) as Hr by (unfold refusal; rewrite Hs; by vm_compute). unfold syncWebSocket in H.
  apply (bind_reply _ _ _ _ _ _ refusal) in H as (p & [l1 s1] & E1 & H); [|apply authenticate_refusal|done].
  apply grows_history in E1 as [before El1]; [|unfold authenticate, refuseUnauthenticated, admitAccount, writeRateLimited; follow_http].
  apply (bind_reply _ _ _ _ _ _ refusal) in H as (registered & [l2 s2] & E2 & H); [|apply replies_step|done].
  apply step_seen in E2 as (m2 & t2 & _ & -> & E2). destruct registered as [client|e]; [|by apply replies_error_after in H].
  destruct (Register _ _ _ _) as [x hub] eqn:Ereg. injection E2 as -> <-.
  apply (bind_reply _ _ _ _ _ _ refusal) in H as (checked & [l3 s3] & E3 & H); [|unfold recheckSession; follow_http|done].
  destruct checked as [err|].
  { exfalso. apply (bind_reply _ _ _ _ _ _ refusal) in H as ([] & st & _ & H); [|apply replies_step|done].
    destruct err; try (by apply replies_error_after in H). apply unauthenticated_reply in H. rewrite Hs in H. by destruct H. }
  injection H as <- <- <-. unfold recheckSession in E3. destruct (bearerTokenHash r) as [h|] eqn:Eh; [|by injection E3]. apply bearer_hash in Eh as ->.
  apply bind_okH in E3 as (found & [l4 s4] & E4 & E3). apply call_seen in E4 as (m4 & t4 & _ & -> & E4). destruct found as [p'|]; [|by injection E3].
  destruct (negb _ || _) eqn:Eb; [by injection E3|]. injection E3 as <- <-. apply orb_false_elim in Eb as [E5%negb_false_iff%str_eqb_true E6%negb_false_iff%str_eqb_true].
  apply PrincipalByTokenHash_signed_in in E4. exists p, p', client, hub, t2, t4, before, (m4.(mo_now) 0%nat).
  split_and!; try done. cbn [tick lo_seen]. by rewrite El1.
Qed.
End sockets.
