(* ===== verification/HttpExample.v ===== *)
(** * A concrete server

    The owner is set up with her phone and signs in over HTTP.  The states
    witness the rules of [HttpRules]; the primitives of the runtime are toys. *)

From S2P Require Import Prelude GoStrings GoStrconv GoJson Config TypingLimiter LoginBackoff Admission RateLimiter Hub Domain Deliveries Database Identity Sessions Passwords DeviceLinks Devices Accounts SessionRules IdentityExample Bodies Http AuthHandlers SyncHandlers HttpRules.
From stdpp Require Import base numbers list strings gmap fin_maps.
From Stdlib Require Import Ascii ZArith ZifyBool Lia.
Open Scope Z_scope.

(** Addresses are their text; a hash is the text hashed. *)
#[export] Instance hx_network : Network := {
  IP := string; IPNet := string;
  ParseIP s := if bool_decide (s = ""%string) then None else Some s;
  IP_String s := s; Contains net ip := bool_decide (net = ip);
  SplitHostPort _ := None; To4_String s := Some s; Mask64_String s := s; sha256_hex s := s }.

#[export] Instance hx_runtime : GoRuntime := { mail_ParseAddress s := Some s; marshal_event e := e.(ev_Type); hmac_sha1 k m := k }.

#[export] Instance hx_hashing : PasswordHashing := {
  argon2_IDKey := ex_key; bcrypt_Compare _ _ := false; bcrypt_Cost _ := Some 10; IDKey_size := ex_key_size }.

Definition hx_api : API := mkAPI "" "home" 0 "" 0 0 0 false "" [] [] "" [].

(** ** Requests *)

(** A body of string members. *)
Definition hx_body (l : list (string * string)) : string :=
  ("{" +:+ GoStrings.Join (map (fun '(k, v) => q k +:+ ":" +:+ q v)%string l) "," +:+ "}")%string.

Definition hx_request (method path token body : string) : HttpRequest :=
  mkHttpRequest (mkRequest path "192.0.2.8" [] "" (if token =s? "" then "" else "Bearer " +:+ token)%string) method (fun _ => ""%string) (fun _ => ""%string)
    (fun _ => ""%string) body false (blen body).

(** What the steps of a request that starts at [t] take from outside when
    nothing interferes. *)
Definition hx_moments (t : Z) : nat -> Moment := fun i =>
  mkMoment (fun s => s) (fun j => t + Z.of_nat i * 10 + Z.of_nat j) (fun j => ("id" +:+ Itoa t +:+ "_" +:+ Itoa (Z.of_nat i) +:+ "_" +:+ Itoa (Z.of_nat j))%string)
    (fun j => ix_bytes 32 (i + j + 1)) false None false false [] (fun m => (map_to_list m).*1) (fun m => (map_to_list m).*1).

Definition hx_local : Local := mkLocal [] None None 0.

(** ** The owner *)

Definition hx_secret : string := "a secret of the phone of the owner".
Definition hx_password : string := "correct horse battery".
Definition hx_input : CreateOwnerInput := mkCreateOwnerInput "home"
  (mkRegisterInput "enr_1" "" "owner" None (hashArgon2id ex_salt hx_password) "phone" (ix_bytes 64 1) (ix_bytes 32 2) (HashToken hx_secret) "tok1" 0).
Definition hx_store : Store := (CreateOwner "kp_1" (ix_at 2000) hx_input ix_reserved.2).2.

Definition hx_server : Server :=
  mkServer hx_store NewHub NewLoginBackoff (newRateLimiter "salt" [] (rateLimitsFromConfig (mkConfigRateLimits 0 0 0))) (Some (NewBudget 100 (Z.shiftl 1 30) NewCounters))
    typing_zero emptyQueue (NewPasswords 10).

Definition hx_login_body (password secret : string) : string :=
  hx_body [("username", "Owner"); ("password", password); ("device_id", "phone"); ("device_secret", secret)]%string.
Definition hx_login (password secret : string) := login id hx_api (hx_request "POST" "/api/v1/auth/login" "" (hx_login_body password secret)) (hx_moments 5000) (hx_local, hx_server).

Example login_wrong_password :
  (hx_login "wrong" hx_secret).1 = Err (mkResponse StatusUnauthorized None (Some (error_body "invalid_credentials"))).
Proof. vm_compute. reflexivity. Qed.

Definition hx_signed_in : Server := (hx_login hx_password hx_secret).2.2.

Lemma some_pair {A B} {x x' : A} {y y' : B} : Some (x, y) = Some (x', y') -> x = x' /\ y = y'.
Proof. by intros [= -> ->]. Qed.

Lemma login_needs_credentials_witness :
  exists req token account made,
    decodeRawJSON loginRequest (hx_login_body hx_password hx_secret) = Some req /\ f_str req "password" = hx_password /\
    password_known made account hx_password /\ session_made made token account "phone".
Proof.
  assert (exists resp l' s', hx_login hx_password hx_secret = (Err resp, (l', s')) /\ resp.(rs_status) = StatusOK) as (resp & l' & s' & E & Hs).
  { destruct (hx_login hx_password hx_secret) as [[u|resp] [l' s']] eqn:E; [|exists resp, l', s'; split; [done|]].
    - apply (f_equal fst) in E. vm_compute in E. done.
    - apply (f_equal fst) in E. vm_compute in E. injection E as <-. reflexivity. }
  unfold hx_login in E. destruct (login_needs_credentials id hx_api _ _ _ _ _ _ _ E Hs) as (req & token & account & role & recent & made & mid & found & old & Hq & _ & _ & Hp & Hm & _).
  assert (f_str req "password" = hx_password /\ TrimSpace (f_str req "device_id") = "phone"%string) as [Ep Ed].
  { assert ((fun req => (f_str req "password", TrimSpace (f_str req "device_id"))) <$> decodeRawJSON loginRequest (hx_login_body hx_password hx_secret) = Some (hx_password, "phone"%string)) as E'
      by (vm_compute; reflexivity).
    change (rq_body _) with (hx_login_body hx_password hx_secret) in Hq. rewrite Hq in E'. exact (some_pair E'). }
  exists req, token, account, made. rewrite Ep in Hp. rewrite Ed in Hm. exact (conj Hq (conj Ep (conj Hp Hm))).
Defined.

Lemma seen_all (f : Server -> bool) l : forallb f l = true -> forall st, st ∈ l -> f st = true.
Proof. rewrite List.forallb_forall. intros H st Hst. by apply H, list_elem_of_In. Qed.

(** The device's secret is guessed: no state that the request sees has it. *)
Definition hx_strange (st : Server) : bool :=
  match (LoginRecord "Owner" "phone" st.(sv_store)).1 with Ok record => negb (secretMatches "guess" record.(lr_DeviceAuthHash)) | Err _ => true end.

Lemma named_in body u d secret :
  (fun req => [f_str req "username"; f_str req "device_id"; f_str req "device_secret"]%string) <$> decodeRawJSON loginRequest body = Some [u; d; secret] ->
  exists req, decodeRawJSON loginRequest body = Some req /\ f_str req "username" = u /\ f_str req "device_id" = d /\ f_str req "device_secret" = secret.
Proof. destruct (decodeRawJSON loginRequest body) as [req|]; [|done]. intros [= <- <- <-]. by exists req. Qed.

(** With the right password a stranger gets what a wrong one gets. *)
Lemma stranger_learns_nothing_witness :
  exists resp l1 l2 s', hx_login hx_password "guess" = (Err resp, (l1, s')) /\ hx_login "wrong" "guess" = (Err resp, (l2, s')).
Proof.
  destruct (hx_login hx_password "guess") as [out [l1 s']] eqn:E.
  assert (exists resp, out = Err resp) as [resp ->].
  { apply (f_equal fst) in E. cbn [fst] in E. subst out. eexists. vm_compute. reflexivity. }
  assert (forallb hx_strange l1.(lo_seen) = true) as Hall.
  { apply (f_equal (fun x => forallb hx_strange x.2.1.(lo_seen))) in E. cbn [fst snd] in E. rewrite <- E. vm_compute. reflexivity. }
  destruct (named_in (hx_login_body hx_password "guess") "Owner" "phone" "guess") as (q1 & E1 & U1 & D1 & S1); [vm_compute; reflexivity|].
  destruct (named_in (hx_login_body "wrong" "guess") "Owner" "phone" "guess") as (q2 & E2 & U2 & D2 & S2); [vm_compute; reflexivity|].
  assert (forall pw, blen (hx_login_body pw "guess") <=? maxJSONBody = true /\ (TrimSpace (hx_login_body pw "guess") =s? "") = false ->
    readable (hx_request "POST" "/api/v1/auth/login" "" (hx_login_body pw "guess"))) as Hr.
  { intros pw [Hl Hn]. split; [by apply Z.leb_le|split; [reflexivity|by apply str_eqb_false]]. }
  assert (readable (hx_request "POST" "/api/v1/auth/login" "" (hx_login_body hx_password "guess"))) as R1 by (apply Hr; split; vm_compute; reflexivity).
  assert (readable (hx_request "POST" "/api/v1/auth/login" "" (hx_login_body "wrong" "guess"))) as R2 by (apply Hr; split; vm_compute; reflexivity).
  unfold hx_login in E.
  assert (forall st record, st ∈ l1.(lo_seen) -> (LoginRecord (f_str q1 "username") (f_str q1 "device_id") st.(sv_store)).1 = Ok record ->
    secretMatches (f_str q1 "device_secret") record.(lr_DeviceAuthHash) = false) as Hno.
  { rewrite U1, D1, S1. intros st record Hst Hrec. apply (seen_all _ _ Hall) in Hst. unfold hx_strange in Hst. rewrite Hrec in Hst. by apply negb_true_iff. }
  destruct (stranger_learns_nothing id hx_api (hx_request "POST" "/api/v1/auth/login" "" (hx_login_body hx_password "guess"))
    (hx_request "POST" "/api/v1/auth/login" "" (hx_login_body "wrong" "guess")) q1 q2 (hx_moments 5000) hx_local hx_server (Err resp) l1 s'
    eq_refl R1 R2 E1 E2 (eq_trans U1 (eq_sym U2)) (eq_trans D1 (eq_sym D2)) (eq_trans S1 (eq_sym S2)) E Hno) as (l2 & El2 & _).
  exists resp, l1, l2, s'. exact (conj eq_refl El2).
Defined.

(** ** Signed in *)

(** The token of a reply. *)
Definition hx_token_of (resp : result Response unit) : string :=
  match resp with Err (mkResponse _ _ (Some (RMap ((_, RVal (VStr t)) :: _)))) => t | _ => ""%string end.
Definition hx_token : string := hx_token_of (hx_login hx_password hx_secret).1.

Definition hx_invites (token : string) := withRecentAuth (fun r p => listInvites r p) (hx_request "GET" "/api/v1/invites" token "") (hx_moments 6000) (hx_local, hx_signed_in).

Example invites_without_token : (hx_invites "").1 = Err (mkResponse StatusUnauthorized None (Some (error_body "unauthorized"))).
Proof. vm_compute. reflexivity. Qed.


(** ** A socket *)

Definition hx_socket := syncWebSocket hx_api (hx_request "GET" "/api/v1/sync/ws" hx_token "") (hx_moments 7000) (hx_local, hx_signed_in).

Lemma sockets_need_a_live_session_witness :
  exists p p' client hub registered checked before now,
    hx_socket.2.1.(lo_seen) = checked :: registered :: before ++ [] /\
    Register registered.(sv_hub) p.(pr_AccountID) p.(pr_DeviceID) (ClientIP [] (hx_request "GET" "/api/v1/sync/ws" hx_token "").(rq_base)) = (Ok client, hub) /\
    signed_in checked now hx_token p' /\ p'.(pr_AccountID) = p.(pr_AccountID) /\ p'.(pr_DeviceID) = p.(pr_DeviceID).
Proof.
  assert (bearerToken (hx_request "GET" "/api/v1/sync/ws" hx_token "").(rq_base) = hx_token) as Eb by (vm_compute; reflexivity).
  assert (hx_socket.1 = Err (mkResponse StatusSwitchingProtocols None None)) as Hout by (vm_compute; reflexivity).
  destruct hx_socket as [out [l' s']] eqn:E. cbn [fst] in Hout. rewrite Hout in E. unfold hx_socket in E. rewrite <- Eb.
  exact (sockets_need_a_live_session hx_api (hx_request "GET" "/api/v1/sync/ws" hx_token "") (hx_moments 7000) hx_local hx_signed_in _ l' s' E eq_refl).
Defined.
